(* ===== verification/_CoqProject ===== *)
-Q . S2P
Prelude.v
PyString.v
PyFloat.v
PyDict.v
Effects.v
DataStructures.v
Utils.v
Dht.v
BlockSelection.v
SequenceInfo.v
SequenceManager.v
Routing.v
MemoryCache.v
Backend.v
Tensors.v
Numerics.v
CausalRows.v
CudaGraphs.v
LlamaBlock.v
LlamaCausal.v
WrappedBlocks.v
FalconBlock.v
FalconCausal.v
FalconRows.v
TaskPool.v
Packaging.v
BlockFunctions.v
HostResources.v
Reachability.v
ReachabilityService.v
Announcer.v
BlockLoading.v
CacheLocks.v
Container.v
Discovery.v
Interfaces.v
SwarmRouter.v
InferenceSession.v
SequentialAutograd.v
RemoteSequential.v
LMHead.v
Generation.v
RoutingThread.v
HandlerSessions.v
HandlerProcess.v
Handler.v
SessionStream.v
SwarmServer.v
Swarm.v
Server.v
Health.v
Metrics.v
Validator.v
ClientLoading.v
BlockConversion.v
Adapters.v
CommandLine.v
ClientModels.v
ClientClasses.v
