(* ===== verification/Prelude.v ===== *)
(** * peerz: a verification development (root file and prelude)

    peerz runs a large language model over a swarm: servers hold consecutive transformer blocks and announce
    them in a DHT; clients route requests through a chain of servers, keep inference sessions open over them
    and survive their failures.  File names below are relative to [src/src/peerz].

    ** The parts and how they interact

    A server ([server/server.py]) sizes itself, picks the blocks the swarm needs most
    ([server/block_selection.py]) and serves a container ([server/container.py]) that loads the blocks, announces
    them ([server/announcer.py], [utils/dht.py]) and runs connection handlers ([server/handler.py]).  Handlers
    hand the work to task pools ([server/task_pool.py]) as [server/block_functions.py] says; the blocks
    ([server/backend.py]) find their attention caches in a memory cache shared by all processes
    ([server/memory_cache.py]).  A client reads the announcements into a routing table
    ([client/routing]), routes, and runs inference sessions ([client/inference_session.py]) or forward and
    backward passes ([client/sequential_autograd.py]) over the chain.

    ** Files

    Shared definitions
    - Prelude: exceptions and the [result] monad, Python's lists and integers, lemmas and tactics.
    - PyString, PyFloat, PyDict: decimal strings and [split]; binary64 floats and their total preorder on
      non-NaN values; dictionaries as association lists where insertion order can be observed.
    - Effects: a state monad with exceptions, its triples, [try]/[finally] and context managers.
    - DataStructures: [data_structures.py], module uids, [ServerInfo] and its wire tuple, span records; the
      classes [PeerIds] and [Pydantic] for what peer ids and record validation promise.
    - Utils: [utils/random.py], [utils/misc.py], [utils/asyncio.py], [utils/ping.py].
    The swarm
    - Dht: [utils/dht.py], declaring modules, decoding what the DHT holds, [compute_spans].
    - BlockSelection: [server/block_selection.py], where a server places its blocks and when it moves.
    The client
    - SequenceInfo, SequenceManager, Routing: [client/routing] and [client/config.py].  The routing table with
      bans and its refresh are the Record [SequenceManager]; Routing proves the shortest-path router correct:
      a path of the inference graph is a contiguous chain of announced spans.  RoutingThread: the thread that refreshes
      the table as a step relation next to the threads that make requests.
    - Discovery: what servers declare, through the DHT, is what a client routes over (Dht, SequenceManager composed).
    - Interfaces: the classes the client's sessions are proved against: [Router], [Blocks] and
      [InferenceServer], a state machine that may refuse; SequentialAutograd adds [SpanServer].  SwarmRouter: the
      sequence manager as the instance of [Router], with its clock, its DHT and its updating thread.
    - InferenceSession: [client/inference_session.py], sessions as state passing over an oracle of network
      failures; steps, retries and the rebuilding of attention caches.
    - SequentialAutograd: [client/sequential_autograd.py] and [client/remote_forward_backward.py].
    - RemoteSequential: [client/remote_sequential.py], the active session as a context variable over session
      objects with identity.  LMHead: [client/lm_head.py].
    - Generation: [client/remote_generation.py], [client/ptune.py] and the forward passes of
      [models/bloom/model.py], [models/falcon/model.py], [models/llama/model.py], [models/mixtral/model.py]; the
      class [Transformers] is what the library's decoding loop promises.
    The server
    - MemoryCache: [server/memory_cache.py] as a step relation over all handlers and the runtime.
    - Backend: [server/backend.py]; the class [CausalModule] is what a transformer block promises.
    - Tensors, Numerics: tensors as shapes with index functions (views, permutations, slices, broadcasting,
      products) and what the proofs use of their numbers.  CausalRows: attention one query at a time, and the
      causal module of a block.  CudaGraphs: [utils/cuda_graphs.py], whose calls return references to the memory of
      the graph: a tensor that a block holds is its own or such a reference, read when it is used.
    - LlamaBlock, LlamaCausal: [models/llama/block.py] and the proof that it computes the causal module.
      WrappedBlocks: [models/bloom/block.py], [models/mixtral/block.py].  FalconBlock, FalconCausal, FalconRows:
      [models/falcon/block.py], with the rotary tables as state that a recorded graph writes to.
    - TaskPool: [server/task_pool.py], [server/task_prioritizer.py] as a step relation: a task is put into the queue and
      announced in the pipe by two steps, and moving its inputs to the device may fail.
    - BlockFunctions: [server/block_functions.py]; the pools are refusals or the functions they run.
    - Packaging: [utils/packaging.py].
    - Handler: [server/handler.py], the requests; HandlerSessions: its session queues, shared by several
      processes, as a step relation; HandlerProcess: the start and the end of such a process, and its log.
    - SessionStream: one inference session over its stream: [_step], [close] and [_read_inputs_from_queue] of
      [client/inference_session.py] against the turns of [_iterate_inference_steps], as a step relation.
    - HostResources: [server/block_utils.py], [utils/disk_cache.py], [server/throughput.py].
    - BlockLoading: [server/from_pretrained.py], [utils/hf_auth.py].  CacheLocks: its loads, and those of
      [utils/peft.py], under the locks of [utils/disk_cache.py], as a step relation.
    - Reachability: [server/reachability.py]; ReachabilityService: its thread as a step relation.  Announcer:
      [server/announcer.py] as a step relation.
    - Container: [server/container.py] and Server: [server/server.py], as traces of events.
    - BlockConversion: [utils/convert_block.py] on trees of modules; Adapters: [utils/peft.py] and [convert_block].
    - CommandLine: the options of [cli/run_server.py] and what its [main] makes of them, the other commands of [cli],
      [Server.shutdown], [utils/version.py].
    Clients and servers together
    - SwarmServer: the instance of [InferenceServer] made of Handler, MemoryCache and BlockFunctions.
    - Swarm: the client's sessions and text generation over that instance.
    Loading a client
    - ClientLoading: [models/*/config.py], [utils/auto_config.py], [client/from_pretrained.py] and the constructors of the
      models; ClientModels: the arguments and the variants of [models/*/model.py]; ClientClasses: their classes, along whose
      mixins [from_pretrained] is resolved.
    The validator
    - Health: [validator/health.py], [validator/p2p_utils.py], [validator/state_updater.py]; Metrics:
      [validator/metrics.py]; Validator: [validator/validator.py], [utils/signature.py], [sequencer/sequencer.py].

    ** What the theorems show

    - End to end: text generated by BLOOM, LLaMA or Mixtral, without prompt tuning and from no given cache, over a swarm
      whose servers run the code of the handler is that of decoding with the whole model on one machine, token by token
      and without caches, and generation returns while no call fails and routes are found ([swarm_generates]); a step
      of a session that returns is right whatever fails ([swarm_step_correct]).  What is assumed is outside of both:
      the wire format, the forward pass of a block, that servers hold the blocks they announce and have the memory.
      [serve_all_session] shows that the state machine in between is a session of the handler.  [stable_routes] shows
      that the router of the repository finds routes while its table, when it is refreshed, covers the blocks.
    - From announcements to routes: the table of a client holds exactly the spans that the servers which are online and
      allowed, have its adapter and are not banned declared last; bans do not count for a block all of whose servers are
      banned ([announced_spans_are_routed]).
    - The stream of a session: responses stay in step with the client's steps under every interleaving with pushes,
      timeouts and failures, the server's turns are [iterate_inference_steps], and closing ends.
    - End to end on the server: [inference_session_correct] (a handler's session answers what its blocks compute)
      rests on [iterate_rpc_inference_correct], which rests on the step of one block (Backend); merged and
      separate pools agree; a push of one server is what the next one accepts; [run_rpc_backward_correct], with prompts
      or without.  Steps that arrive twice, from the client and pushed, are taken once.
    - End to end on the client: whatever fails on the way, an inference step, a forward or a backward pass that
      returns gives what all blocks compute; without failures it does return.  [session_midway_failure] shows
      that the recovery of an inference session after its first step cannot succeed.
    - Text: [generate] over sessions, call after call, gives what decoding with the whole model and no caches gives
      (under the conditions of [call_ok]: not for Falcon, and not with prompt tuning, where [bloom_ptune_loses]);
      outside of a session it opens one that is long enough and closes it.
    - Blocks: a wrapped LLaMA block computes the outputs and the cache of the causal module against which the server
      is verified, and may be run chunk by chunk; so does a wrapped Falcon block.  On a GPU this holds for batches of the
      size that the graphs were recorded for ([graph_keeps_batch]); for LLaMA unless a chunk that is followed by another is a
      single token without a past, whose keys are memory of a graph ([llama_block_shares_keys]); for Falcon, for chunks
      without the position that its rotary graph writes to ([falcon_rotary_overwritten] shows that it does).
    - Loading: whatever the format, the shards and the failed downloads, a block gets its own parameters; its
      conversion keeps every linear layer in its place and quantizes what it should; an adapter is found, of the right
      block, and loaded into the layers that it targets and into no other.  Under the locks no load of weights or of an
      adapter finds its file removed, files are removed by their one holder only, and the locks never deadlock; the index
      of a sharded model is read outside of them ([index_may_vanish]).
    - Starting and stopping: options that exclude each other stop a server before it is constructed; otherwise, when the
      conversions accept them, it gets them all and is shut down in the end, its DHT unless the reachability service has
      died before.  That service closes its probe and removes its handlers whatever else fails, answers who waits for it
      and ends when told to.  What a server loads it shuts down, but for a failure in the constructor of its container
      ([constructor_leaks]).  The uids of a configuration that a client derives from the name of a repository parse.
    - Validation: the state that a validator fetches has one row per online server; one malformed announcement blocks
      it ([health_blocked]); and no report is ever stored, no transaction ever sent ([validation_never_happens]).
    - Routing: when a route exists, and that it is a contiguous chain; that the blocks nobody holds are reported, and
      that one server announcing [inference_rps = 0] makes min-latency routing over its blocks raise; a refresh leaves a
      consistent table; bans take a failed peer out.  No request for a refresh is lost ([update_requests_served]) and the thread ends
      when told to, though a shutdown at the wrong moment waits for its period ([shutdown_signal_lost]).
    - The memory cache under every interleaving: exact accounting, no lost tensor, no leak; the capacity is kept
      with one handler process and may be exceeded with two.
    - Announcing: no announcement is lost, OFFLINE is announced and the thread ends; the one window of a race in
      which it is not.
    - Placement, configuration and lifecycle of a server: the blocks it chooses, that its configuration is
      well-formed, that its caches suffice for what it advertises, and that all it started is shut down.
    - Wire formats: [ServerInfo] tuples, uids, packed arguments and announcements round-trip.

    ** Modelling conventions

    Python exceptions are values of [exn]; code that raises returns a [result].  Objects that several processes
    or threads share are the state of a step relation with one step per statement at which another process can
    interfere.  Integers are unbounded as in Python, except the 64-bit counters of the memory cache.
    Floats are IEEE binary64.  Numbers of tensors are abstract; between the blocks, hidden states are lists with one
    column per token or per sequence; inside of them, tensors are shapes with index functions, without strides, dtypes
    and dropout.  Memory shared by views is modelled where the program writes through one: the static outputs of CUDA
    graphs, the rotary tables of Falcon and the lists shared between class bodies.  The outputs of Falcon's graphs are
    read at once: nothing of them outlives the layer but copies made by [torch.cat] or by products, and the keys of
    Falcon are appended to a past, as the servers pass one.  The adapter that [using_adapter] activates is an argument of
    the pass of a module.  A name that a function reads may be undefined where that happens
    (Validator).  Libraries are classes whose laws are documented behaviour (the base58 of a peer id,
    Dijkstra's algorithm, flattening of nested structures, clocks, random choices), each with an instance in
    the witnesses.

    ** Bounds and fuel

    - Retry loops of the client ([step_loop], [forward_loop], [backward_loop]) take the number of attempts as
      fuel.  The program retries without bound unless [max_retries] is set; correctness holds for any fuel, and
      the theorems on returning give the fuel that is enough (one attempt per span when nothing fails).
    - [max_throughput_loop] is shown to finish within the number of requested blocks.  [rebalance] repeats until
      no server moves; nothing bounds the number of rounds, so its theorems speak of runs that finish.
    - The main loop of a server is run over the list of what it observes, one entry per round.
    - The steps of a stream that closes are bounded by its messages ([close_ends]).
    - Loops over arrivals ([iterate_inference_steps], the runtime's loop) recurse on the list of arrivals.

    ** Not modelled

    - The modules of transformers that the blocks call: norms, feed-forward parts, the layers of BLOOM and Mixtral; the
      splitting of weights by tensor_parallel, the formats of bitsandbytes, [update_layer] of peft.  All are parameters.
    - Parameter freezing and the release of GPU memory in [server/backend.py], the process of the speed test and the
      construction of hivemind's DHT node in [server/server.py]: calls of libraries.
    - Parsing of the command line (argparse), [inference/inference.py] (a demo on a fixed text), [utils/logging.py],
      [utils/consensus.py] and [abis] (the contract).
    - The backward pass is composed with the servers only through the laws of [SpanServer]: an instance would need
      blocks that treat the rows of a batch independently, which the interface of a served block does not say.
    - Real time: a timeout is an event that may happen; libp2p and hivemind themselves. *)

From stdpp Require Export base gmap sets list strings numbers sorting.
From Stdlib Require Export ZArith Lia.
From Stdlib Require Export Ascii.

Open Scope Z_scope.

(** ** Exceptions and fallible code *)

(** The Python exception classes that the modelled code raises or catches. *)
Inductive exn :=
  | AssertionError
  | ValueError
  | TypeError
  | KeyError
  | IndexError
  | NameError
  | AttributeError
  | RuntimeError
  | NotImplementedError
  | ZeroDivisionError
  | TimeoutError
  | StopIteration
  | StopAsyncIteration
  | ConnectionClosed
  | SessionClosed
  | RemoteError
  | AllocationFailed
  | MissingBlocksError (blocks : list Z)
  | OverflowError
  | FileNotFoundError
  | SystemExit
  | CancelledError.

#[global] Instance exn_eq_dec : EqDecision exn.
Proof. solve_decision. Defined.

(** [except Exception] does not catch [asyncio.CancelledError] and [SystemExit], which are [BaseException]s. *)
Definition is_Exception (e : exn) : bool :=
  match e with CancelledError | SystemExit => false | _ => true end.

Inductive result (A : Type) :=
  | Ok (a : A)
  | Err (e : exn).
Arguments Ok {A} _.
Arguments Err {A} _.

#[global] Instance result_ret : MRet result := fun A a => Ok a.
#[global] Instance result_bind : MBind result :=
  fun A B f m => match m with Ok a => f a | Err e => Err e end.
#[global] Instance result_fmap : FMap result :=
  fun A B f m => match m with Ok a => Ok (f a) | Err e => Err e end.

(** [assert b] *)
Definition assert_ (b : bool) : result unit := if b then Ok () else Err AssertionError.

(** [if b: raise e] *)
Definition raise_if (b : bool) (e : exn) : result unit := if b then Err e else Ok ().

(** A [KeyError]/[IndexError] lookup. *)
Definition get_or {A} (e : exn) (o : option A) : result A :=
  match o with Some a => Ok a | None => Err e end.

Definition is_ok {A} (r : result A) : bool := match r with Ok _ => true | Err _ => false end.

Definition from_ok {A} (d : A) (r : result A) : A := match r with Ok a => a | Err _ => d end.

(** ** Python integer ranges, indexing and slices *)

(** [range(a, b)] *)
Definition zrange (a b : Z) : list Z := seqZ a (b - a).

(** [l[i]]: negative indices count from the end, out of range raises [IndexError]. *)
Definition zindex {A} (l : list A) (i : Z) : option nat :=
  let n := Z.of_nat (length l) in
  if (0 <=? i) && (i <? n) then Some (Z.to_nat i)
  else if (- n <=? i) && (i <? 0) then Some (Z.to_nat (i + n))
  else None.

Definition znth {A} (l : list A) (i : Z) : result A :=
  match zindex l i with
  | Some k => get_or IndexError (l !! k)
  | None => Err IndexError
  end.

(** A slice bound clamped to [0, n], as CPython's [slice.indices] does for step 1. *)
Definition clamp (n i : Z) : Z :=
  if i <? 0 then Z.max 0 (i + n) else Z.min i n.

(** [l[a:b]] *)
Definition zslice {A} (l : list A) (a b : Z) : list A :=
  let n := Z.of_nat (length l) in
  let a' := clamp n a in
  let b' := clamp n b in
  take (Z.to_nat (b' - a')) (drop (Z.to_nat a') l).

(** [len(l)] *)
Definition zlen {A} (l : list A) : Z := Z.of_nat (length l).

(** [sum(l)] *)
Definition zsum (l : list Z) : Z := foldr Z.add 0 l.

(** Optional integers: [x if x is not None else d]. *)
Definition or_default {A} (o : option A) (d : A) : A :=
  match o with Some a => a | None => d end.

Fixpoint somes {A} (l : list (option A)) : list A :=
  match l with
  | [] => []
  | Some a :: l' => a :: somes l'
  | None :: l' => somes l'
  end.

(** [all(f(x) for x in l)] in the result monad: evaluates left to right, stops at an error. *)
Fixpoint mapR {A B} (f : A -> result B) (l : list A) : result (list B) :=
  match l with
  | [] => Ok []
  | x :: l' =>
      match f x with
      | Ok y => match mapR f l' with Ok ys => Ok (y :: ys) | Err e => Err e end
      | Err e => Err e
      end
  end.

(** A loop over a list that threads a state and may raise. *)
Fixpoint foldR {A S} (f : S -> A -> result S) (s : S) (l : list A) : result S :=
  match l with
  | [] => Ok s
  | x :: l' => match f s x with Ok s' => foldR f s' l' | Err e => Err e end
  end.

(** Python's stable [sorted(l, key=...)], given the strict comparison of the keys:
    an element moves left only past elements that are strictly greater. *)
Fixpoint insert_sorted {A} (lt : A -> A -> bool) (x : A) (l : list A) : list A :=
  match l with
  | [] => [x]
  | y :: l' => if lt y x then y :: insert_sorted lt x l' else x :: y :: l'
  end.

Fixpoint py_sorted {A} (lt : A -> A -> bool) (l : list A) : list A :=
  match l with
  | [] => []
  | x :: l' => insert_sorted lt x (py_sorted lt l')
  end.

(** ** Machine integers *)

(** The value kept by a [ctypes.c_int64]: two's complement wrap-around. *)
Definition int64 (z : Z) : Z := (z + 2 ^ 63) mod 2 ^ 64 - 2 ^ 63.

(** ** Tactics *)

(** Splits the boolean tests in the context and the goal into (in)equalities for [lia]. *)
Ltac zbool :=
  repeat match goal with
  | H : (_ && _)%bool = true |- _ => apply andb_true_iff in H; destruct H
  | H : (_ || _)%bool = false |- _ => apply orb_false_iff in H; destruct H
  | H : negb _ = true |- _ => apply negb_true_iff in H
  | H : negb _ = false |- _ => apply negb_false_iff in H
  | H : (_ <? _) = true |- _ => apply Z.ltb_lt in H
  | H : (_ <? _) = false |- _ => apply Z.ltb_ge in H
  | H : (_ <=? _) = true |- _ => apply Z.leb_le in H
  | H : (_ <=? _) = false |- _ => apply Z.leb_gt in H
  | H : (_ =? _) = true |- _ => apply Z.eqb_eq in H
  | H : (_ =? _) = false |- _ => apply Z.eqb_neq in H
  | |- (_ && _)%bool = true => apply andb_true_iff; split
  | |- (_ <? _) = true => apply Z.ltb_lt
  | |- (_ <? _) = false => apply Z.ltb_ge
  | |- (_ <=? _) = true => apply Z.leb_le
  | |- (_ <=? _) = false => apply Z.leb_gt
  | |- (_ =? _) = true => apply Z.eqb_eq
  | |- (_ =? _) = false => apply Z.eqb_neq
  end.

(** Case analysis on the first test of the goal or of a hypothesis. *)
Ltac case_if :=
  match goal with
  | |- context [if ?b then _ else _] => let E := fresh "E" in destruct b eqn:E
  | H : context [if ?b then _ else _] |- _ => let E := fresh "E" in destruct b eqn:E
  end.

(** Opens a successful run [m >>= f = Ok r] of the result monad, step by step. *)
Ltac inv_ok :=
  repeat match goal with
  | H : Ok _ = Ok _ |- _ => injection H as H; subst
  | H : Err _ = Err _ |- _ => injection H as H; subst
  | H : Ok _ = Err _ |- _ => discriminate H
  | H : Err _ = Ok _ |- _ => discriminate H
  | H : mret _ = Ok _ |- _ => unfold mret, result_ret in H
  | H : assert_ ?b = Ok _ |- _ =>
      let E := fresh "Hassert" in
      unfold assert_ in H; destruct b eqn:E; [clear H | discriminate H]
  | H : raise_if ?b _ = Ok _ |- _ =>
      let E := fresh "Hguard" in
      unfold raise_if in H; destruct b eqn:E; [discriminate H | clear H]
  | H : get_or _ ?o = Ok _ |- _ =>
      let E := fresh "Hget" in
      unfold get_or in H; destruct o eqn:E; [| discriminate H]
  | H : mbind ?f ?m = Ok _ |- _ =>
      let E := fresh "Hrun" in
      unfold mbind, result_bind in H; destruct m eqn:E; [| discriminate H]
  | H : match ?m with Ok _ => _ | Err _ => _ end = Ok _ |- _ =>
      let E := fresh "Hrun" in destruct m eqn:E; [| discriminate H]
  end.

Create HintDb peerz discriminated.

(** ** Ranges and slices *)

Lemma zrange_length a b : length (zrange a b) = Z.to_nat (b - a).
Proof. apply length_seqZ. Qed.

Lemma elem_of_zrange a b i : i ∈ zrange a b <-> a <= i < b.
Proof. unfold zrange. rewrite elem_of_seqZ. lia. Qed.

Lemma zrange_nil a b : b <= a -> zrange a b = [].
Proof. intros H. unfold zrange. apply seqZ_nil. lia. Qed.

Lemma zrange_cons a b : a < b -> zrange a b = a :: zrange (a + 1) b.
Proof.
  intros H. unfold zrange. rewrite seqZ_cons by lia.
  replace (Z.succ a) with (a + 1) by lia. f_equal. f_equal. lia.
Qed.

Lemma zrange_app a b c : a <= b -> b <= c -> zrange a c = zrange a b ++ zrange b c.
Proof.
  intros H1 H2. unfold zrange. replace (c - a) with ((b - a) + (c - b)) by lia.
  rewrite seqZ_app by lia. repeat f_equal; lia.
Qed.

Lemma zrange_NoDup a b : NoDup (zrange a b).
Proof. apply NoDup_seqZ. Qed.

Lemma zrange_snoc a b : a <= b -> zrange a (b + 1) = zrange a b ++ [b].
Proof.
  intros H. rewrite (zrange_app a b (b + 1)) by lia. f_equal.
  rewrite zrange_cons by lia. by rewrite zrange_nil by lia.
Qed.

Lemma zindex_nonneg {A} (l : list A) i :
  0 <= i < Z.of_nat (length l) -> zindex l i = Some (Z.to_nat i).
Proof.
  intros H. unfold zindex.
  destruct (Z.leb_spec 0 i), (Z.ltb_spec i (Z.of_nat (length l))); simpl; try lia. done.
Qed.

Lemma znth_nonneg {A} (l : list A) i :
  0 <= i < Z.of_nat (length l) -> znth l i = get_or IndexError (l !! Z.to_nat i).
Proof. intros H. unfold znth. by rewrite zindex_nonneg. Qed.

Lemma znth_Some {A} (l : list A) i x :
  0 <= i -> l !! Z.to_nat i = Some x -> znth l i = Ok x.
Proof.
  intros H Hx. rewrite znth_nonneg; [by rewrite Hx|].
  apply lookup_lt_Some in Hx. lia.
Qed.

Lemma znth_Ok_nonneg {A} (l : list A) i x :
  0 <= i -> znth l i = Ok x -> l !! Z.to_nat i = Some x.
Proof.
  unfold znth, zindex. intros H Hx.
  destruct (Z.leb_spec 0 i); [|lia].
  destruct (Z.ltb_spec i (Z.of_nat (length l))); simpl in Hx.
  - by destruct (l !! Z.to_nat i) eqn:E; simpl in Hx; inv_ok.
  - destruct (Z.ltb_spec i 0); [lia|]. rewrite andb_false_r in Hx. discriminate.
Qed.

Lemma znth_last {A} (l : list A) x : znth (l ++ [x]) (-1) = Ok x.
Proof.
  unfold znth, zindex. rewrite length_app. simpl.
  destruct (Z.leb_spec (- Z.of_nat (length l + 1)) (-1)); [|lia]. simpl.
  replace (Z.to_nat (-1 + Z.of_nat (length l + 1))) with (length l) by lia.
  by rewrite list_lookup_middle.
Qed.

Lemma zslice_full_range {A} (l : list A) a b :
  0 <= a -> a <= b -> b <= Z.of_nat (length l) ->
  zslice l a b = take (Z.to_nat (b - a)) (drop (Z.to_nat a) l).
Proof.
  intros H1 H2 H3. unfold zslice, clamp.
  destruct (Z.ltb_spec a 0); [lia|]. destruct (Z.ltb_spec b 0); [lia|].
  rewrite (Z.min_l a), (Z.min_l b) by lia. done.
Qed.

Lemma zlen_nonneg {A} (l : list A) : 0 <= zlen l.
Proof. unfold zlen. lia. Qed.

(** Bounds beyond the end are harmless. *)
Lemma zslice_nonneg {A} (l : list A) a b :
  0 <= a -> 0 <= b -> zslice l a b = take (Z.to_nat (b - a)) (drop (Z.to_nat a) l).
Proof.
  intros Ha Hb. unfold zslice, clamp.
  destruct (Z.ltb_spec a 0); [lia|]. destruct (Z.ltb_spec b 0); [lia|].
  destruct (Z.le_gt_cases (Z.of_nat (length l)) a) as [H1|H1].
  { rewrite !(drop_ge l) by lia. by rewrite !take_nil. }
  rewrite (Z.min_l a) by lia. destruct (Z.le_gt_cases b (Z.of_nat (length l))) as [H2|H2].
  - by rewrite Z.min_l by lia.
  - rewrite !take_ge; [done| |]; rewrite length_drop; lia.
Qed.

Lemma zslice_take {A} (l : list A) b : 0 <= b -> zslice l 0 b = take (Z.to_nat b) l.
Proof. intros H. rewrite zslice_nonneg by lia. by rewrite Z.sub_0_r, drop_0. Qed.

Lemma zslice_drop {A} (l : list A) a b : 0 <= a -> zlen l <= b -> zslice l a b = drop (Z.to_nat a) l.
Proof.
  intros H1 H2. pose proof (zlen_nonneg l). rewrite zslice_nonneg by lia.
  apply take_ge. rewrite length_drop. unfold zlen in *. lia.
Qed.

Lemma zslice_length {A} (l : list A) a b :
  0 <= a -> a <= b -> b <= Z.of_nat (length l) ->
  length (zslice l a b) = Z.to_nat (b - a).
Proof.
  intros. rewrite zslice_full_range by done. rewrite length_take, length_drop. lia.
Qed.

Lemma zslice_app_adjacent {A} (l : list A) a b c :
  0 <= a -> a <= b -> b <= c -> c <= Z.of_nat (length l) ->
  zslice l a b ++ zslice l b c = zslice l a c.
Proof.
  intros. rewrite !zslice_full_range by lia.
  replace (Z.to_nat (c - a)) with (Z.to_nat (b - a) + Z.to_nat (c - b))%nat by lia.
  rewrite <- take_take_drop, drop_drop. do 3 f_equal. lia.
Qed.

Lemma zslice_zrange n a b :
  0 <= a -> a <= b -> b <= n -> zslice (zrange 0 n) a b = zrange a b.
Proof.
  intros H1 H2 H3. rewrite zslice_full_range; rewrite ?zrange_length; try lia.
  rewrite (zrange_app 0 a n), (zrange_app a b n) by lia.
  rewrite drop_app_length' by (rewrite zrange_length; lia).
  rewrite take_app_length' by (rewrite zrange_length; lia). done.
Qed.

Lemma zlen_app {A} (l k : list A) : zlen (l ++ k) = zlen l + zlen k.
Proof. unfold zlen. rewrite length_app. lia. Qed.

Lemma zlen_cons {A} (x : A) l : zlen (x :: l) = 1 + zlen l.
Proof. unfold zlen. simpl. lia. Qed.

Lemma zsum_app l k : zsum (l ++ k) = zsum l + zsum k.
Proof. induction l; simpl; [done|]. unfold zsum in *. simpl. lia. Qed.

Lemma zsum_nonneg l : Forall (fun x => 0 <= x) l -> 0 <= zsum l.
Proof. induction 1; simpl; unfold zsum in *; simpl; lia. Qed.

Lemma zsum_permutation l k : l ≡ₚ k -> zsum l = zsum k.
Proof. induction 1; unfold zsum in *; simpl; lia. Qed.

Lemma elem_of_somes {A} (l : list (option A)) x : x ∈ somes l <-> Some x ∈ l.
Proof.
  induction l as [|[y|] l IH]; simpl.
  - split; intros H; inversion H.
  - rewrite !elem_of_cons, IH. split; intros [H|H]; auto; left; congruence.
  - rewrite elem_of_cons, IH. split; [auto|]. intros [H|H]; [discriminate|done].
Qed.

(** ** The stable sort *)

Section sorting.
Context {A : Type} (lt : A -> A -> bool).

Lemma insert_sorted_perm x l : insert_sorted lt x l ≡ₚ x :: l.
Proof.
  induction l as [|y l IH]; simpl; [done|].
  destruct (lt y x); [|done]. rewrite IH. apply perm_swap.
Qed.

Lemma py_sorted_perm l : py_sorted lt l ≡ₚ l.
Proof. induction l; simpl; [done|]. by rewrite insert_sorted_perm, IHl. Qed.

Lemma py_sorted_length l : length (py_sorted lt l) = length l.
Proof. by rewrite py_sorted_perm. Qed.

Lemma elem_of_py_sorted x l : x ∈ py_sorted lt l <-> x ∈ l.
Proof. by rewrite py_sorted_perm. Qed.

(** The keys that the program sorts by are compared by a strict weak order, on the
    elements that satisfy [P] (for floats: those that are not NaN). *)
Context (P : A -> Prop).
Context (Hasym : forall x y, lt x y = true -> lt y x = false).
Context (Htrans : forall x y z, P x -> P y -> P z -> lt y x = false -> lt z y = false -> lt z x = false).

Lemma insert_sorted_sorted x l :
  P x -> Forall P l ->
  StronglySorted (fun a b => lt b a = false) l ->
  StronglySorted (fun a b => lt b a = false) (insert_sorted lt x l).
Proof.
  intros Hx HP Hl. induction Hl as [|y l Hs IH Hall]; simpl; [repeat constructor|].
  apply Forall_cons in HP as [Hy HP].
  destruct (lt y x) eqn:E.
  - constructor; [by apply IH|]. rewrite insert_sorted_perm. constructor; [by apply Hasym|done].
  - constructor; [by constructor|]. constructor; [done|].
    rewrite Forall_forall in Hall, HP. apply Forall_forall. intros z Hz.
    apply (Htrans x y z); auto.
Qed.

Lemma py_sorted_sorted l :
  Forall P l -> StronglySorted (fun a b => lt b a = false) (py_sorted lt l).
Proof.
  induction 1 as [|x l Hx HP IH]; simpl; [constructor|].
  apply insert_sorted_sorted; [done| |done]. by rewrite py_sorted_perm.
Qed.
End sorting.

(** ** Loops in the result monad *)

Lemma mapR_length {A B} (f : A -> result B) l k : mapR f l = Ok k -> length k = length l.
Proof.
  revert k. induction l as [|x l IH]; intros k; simpl; intros H; inv_ok; simpl; [done|].
  f_equal. by apply IH.
Qed.

Lemma mapR_Forall2 {A B} (f : A -> result B) l k :
  mapR f l = Ok k <-> Forall2 (fun x y => f x = Ok y) l k.
Proof.
  revert k. induction l as [|x l IH]; intros k; simpl; split.
  - intros H; inv_ok. constructor.
  - by inversion 1.
  - intros H; inv_ok. constructor; [done|]. by apply IH.
  - inversion 1 as [|? y ? k' Hy Hk]; subst. rewrite Hy. by rewrite (proj2 (IH k') Hk).
Qed.

Lemma mapR_pure {A B} (f : A -> B) l : mapR (fun x => Ok (f x)) l = Ok (map f l).
Proof. induction l as [|x l IH]; simpl; [done|]. by rewrite IH. Qed.

Lemma foldR_app {A S} (f : S -> A -> result S) s l k :
  foldR f s (l ++ k) = (s' ← foldR f s l; foldR f s' k).
Proof. revert s. induction l as [|x l IH]; intros s; simpl; [done|]. destruct (f s x); [apply IH|done]. Qed.

Lemma foldR_invariant {A S} (I : S -> Prop) (f : S -> A -> result S) s l s' :
  (forall s x s', x ∈ l -> I s -> f s x = Ok s' -> I s') ->
  I s -> foldR f s l = Ok s' -> I s'.
Proof.
  revert s. induction l as [|x l IH]; intros s Hstep HI H; simpl in H; inv_ok; [done|].
  eapply IH; [| |exact H].
  - intros ???? . apply Hstep. by right.
  - eapply Hstep; [by left|exact HI|done].
Qed.

(** An invariant of a pure loop. *)
Lemma fold_left_invariant {A S} (I : S -> Prop) (f : S -> A -> S) l s :
  (forall s x, x ∈ l -> I s -> I (f s x)) -> I s -> I (fold_left f l s).
Proof.
  revert s. induction l as [|x l IH]; intros s Hstep HI; simpl; [done|].
  apply IH; [|by apply Hstep; [left|]]. intros s' y Hy. apply Hstep. by right.
Qed.

Lemma fold_left_ext {A S} (f g : S -> A -> S) l s :
  (forall s x, f s x = g s x) -> fold_left f l s = fold_left g l s.
Proof. intros H. revert s. induction l as [|x l IH]; intros s; simpl; [done|]. by rewrite H. Qed.

Lemma StronglySorted_weaken {A} (R R' : A -> A -> Prop) l :
  (forall x y, R x y -> R' x y) -> StronglySorted R l -> StronglySorted R' l.
Proof.
  intros HR. induction 1 as [|x l Hs IH Hall]; constructor; [done|].
  eapply Forall_impl; [exact Hall|auto].
Qed.

Lemma filter_shorter {A} (P : A -> Prop) `{forall x, Decision (P x)} (l : list A) :
  zlen (filter P l) < zlen l \/ filter P l = l.
Proof.
  induction l as [|x l IH]; [by right|]. rewrite filter_cons, zlen_cons.
  pose proof (length_filter P l) as Hl. case_decide.
  - rewrite zlen_cons. destruct IH as [?| ->]; [left; lia|by right].
  - left. unfold zlen. lia.
Qed.

Lemma filter_all {A} (P : A -> Prop) `{forall x, Decision (P x)} (l : list A) :
  (forall x, x ∈ l -> P x) -> filter P l = l.
Proof.
  intros HP. induction l as [|x l IH]; [done|].
  rewrite filter_cons, decide_True by (apply HP; left). f_equal. apply IH. intros; apply HP; by right.
Qed.

Lemma list_nil_iff {A} (l : list A) : l = [] <-> forall x, x ∉ l.
Proof.
  split; [intros -> x Hx; inversion Hx|]. destruct l as [|x l]; [done|].
  intros H. destruct (H x). left.
Qed.

Lemma zlen_zero {A} (l : list A) : (zlen l =? 0) = true <-> l = [].
Proof. unfold zlen. rewrite Z.eqb_eq. destruct l; simpl; split; (done || lia). Qed.

(** ** Sums over a table of which one entry changes *)

Lemma zsum_insert {A} (f : A -> Z) (l : list A) i x y :
  l !! i = Some x -> zsum (f <$> <[i := y]> l) = zsum (f <$> l) - f x + f y.
Proof.
  revert i. induction l as [|z l IH]; intros [|i] H; simpl in *; try done.
  - injection H as ->. lia.
  - change (f z + zsum (f <$> <[i := y]> l) = f z + zsum (f <$> l) - f x + f y). rewrite (IH i H). lia.
Qed.

Lemma zsum_all_nonneg {A} (f : A -> Z) (l : list A) : (forall x, x ∈ l -> 0 <= f x) -> 0 <= zsum (f <$> l).
Proof.
  intros H. induction l as [|x l IH]; simpl; [lia|].
  change (0 <= f x + zsum (f <$> l)). assert (0 <= f x) by (apply H; left).
  assert (0 <= zsum (f <$> l)) by (apply IH; intros; apply H; by right). lia.
Qed.

Lemma zsum_all_zero {A} (f : A -> Z) (l : list A) : (forall x, x ∈ l -> f x = 0) -> zsum (f <$> l) = 0.
Proof.
  intros H. induction l as [|x l IH]; simpl; [done|].
  change (f x + zsum (f <$> l) = 0). rewrite (H x) by left. rewrite IH; [done|].
  intros; apply H; by right.
Qed.

Lemma fmap_rev {A B} (f : A -> B) (l : list A) : f <$> rev l = rev (f <$> l).
Proof. induction l as [|x l IH]; simpl; [done|]. by rewrite fmap_app, IH. Qed.

(** ** Wrap-around *)

Lemma int64_add a b : int64 (int64 a + b) = int64 (a + b).
Proof.
  unfold int64. f_equal.
  replace ((a + 2 ^ 63) mod 2 ^ 64 - 2 ^ 63 + b + 2 ^ 63) with ((a + 2 ^ 63) mod 2 ^ 64 + b) by lia.
  rewrite Zplus_mod_idemp_l. f_equal. lia.
Qed.

Lemma int64_sub a b : int64 (int64 a - b) = int64 (a - b).
Proof. exact (int64_add a (- b)). Qed.

Lemma int64_small a : - 2 ^ 63 <= a < 2 ^ 63 -> int64 a = a.
Proof. intros H. unfold int64. rewrite Z.mod_small; lia. Qed.
