(* ===== verification/PyString.v ===== *)
(** * PyString: the string operations the program uses

    Decimal printing and parsing of [int] ([str(n)], [int(s)]), [split], [join], [count] and
    [in] for one-character separators.  Strings are sequences of ASCII characters. *)

From S2P Require Import Prelude.
From Stdlib Require Import DecimalString DecimalZ.

(** ** Decimal strings *)

(** [str(n)] for an [int]. *)
Definition str_of_Z (z : Z) : string := NilZero.string_of_int (Z.to_int z).

Definition is_space (c : ascii) : bool :=
  let n := Ascii.N_of_ascii c in ((9 <=? n) && (n <=? 13) || (n =? 32))%N.

Fixpoint lstrip (s : string) : string :=
  match s with
  | EmptyString => EmptyString
  | String c s' => if is_space c then lstrip s' else s
  end.

Fixpoint rstrip (s : string) : string :=
  match s with
  | EmptyString => EmptyString
  | String c s' =>
      match rstrip s' with
      | EmptyString => if is_space c then EmptyString else String c EmptyString
      | r => String c r
      end
  end.

Definition strip (s : string) : string := rstrip (lstrip s).

(** Underscores are allowed between two digits. *)
Definition is_digit (c : ascii) : bool :=
  let n := Ascii.N_of_ascii c in ((48 <=? n) && (n <=? 57))%N.

Fixpoint drop_underscores (prev_digit : bool) (s : string) : option string :=
  match s with
  | EmptyString => Some EmptyString
  | String c s' =>
      if Ascii.eqb c "_"%char then
        match s' with
        | String d _ => if prev_digit && is_digit d then drop_underscores false s' else None
        | EmptyString => None
        end
      else String c <$> drop_underscores (is_digit c) s'
  end.

(** [int(s)] for a string of ASCII characters; [None] is a [ValueError]. *)
Definition py_int (s : string) : option Z :=
  s ← drop_underscores false (strip s);
  match s with
  | String "+" s' => d ← NilZero.uint_of_string s'; Some (Z.of_uint d)
  | _ => d ← NilZero.int_of_string s; Some (Z.of_int d)
  end.

(** [s.split(c)] for a one-character separator: always at least one piece. *)
Fixpoint split_on (c : ascii) (s : string) : list string :=
  match s with
  | EmptyString => [EmptyString]
  | String d s' =>
      if Ascii.eqb d c then EmptyString :: split_on c s'
      else match split_on c s' with
           | p :: ps => String d p :: ps
           | [] => [String d EmptyString]
           end
  end.

(** [c.join(l)] *)
Fixpoint join_with (c : ascii) (l : list string) : string :=
  match l with
  | [] => EmptyString
  | [s] => s
  | s :: l' => s +:+ String c (join_with c l')
  end.

(** [c in s] *)
Fixpoint str_contains (c : ascii) (s : string) : bool :=
  match s with
  | EmptyString => false
  | String d s' => Ascii.eqb d c || str_contains c s'
  end.

(** [s.count(c)] *)
Fixpoint str_count (c : ascii) (s : string) : Z :=
  match s with
  | EmptyString => 0
  | String d s' => (if Ascii.eqb d c then 1 else 0) + str_count c s'
  end.


(** [(p + s).startswith(p)] *)
Lemma prefix_of_app p s : String.prefix p (p +:+ s) = true.
Proof. induction p as [|c p IH]; [by destruct s|]. simpl. destruct (ascii_dec c c); [exact IH|done]. Qed.

(** ** Splitting and joining *)

Lemma split_on_nonnil c s : split_on c s <> [].
Proof. induction s as [|d s IH]; simpl; [done|]. destruct (Ascii.eqb d c), (split_on c s); done. Qed.

Lemma split_on_none c s : str_contains c s = false -> split_on c s = [s].
Proof.
  induction s as [|d s IH]; simpl; [done|]. intros H.
  destruct (Ascii.eqb d c); [done|]. simpl in H. by rewrite IH.
Qed.

Lemma split_on_app c s s' :
  str_contains c s = false -> split_on c (s +:+ String c s') = s :: split_on c s'.
Proof.
  induction s as [|d s IH]; simpl; intros H.
  - by rewrite Ascii.eqb_refl.
  - destruct (Ascii.eqb d c); [done|]. simpl in H. by rewrite IH.
Qed.

(** [c.join(l).split(c)] restores a non-empty list of separator-free pieces. *)
Lemma split_join c l :
  l <> [] -> Forall (fun s => str_contains c s = false) l -> split_on c (join_with c l) = l.
Proof.
  intros Hne H. induction H as [|s l Hs Hl IH]; [done|].
  destruct l as [|s' l]; [by apply split_on_none|].
  change (join_with c (s :: s' :: l)) with (s +:+ String c (join_with c (s' :: l))).
  rewrite split_on_app by done. f_equal. by apply IH.
Qed.

Lemma str_contains_app c s s' :
  str_contains c (s +:+ s') = (str_contains c s || str_contains c s')%bool.
Proof. induction s as [|d s IH]; simpl; [done|]. rewrite IH. by rewrite orb_assoc. Qed.

Lemma str_count_app c s s' : str_count c (s +:+ s') = str_count c s + str_count c s'.
Proof. induction s as [|d s IH]; simpl; [done|]. rewrite IH. lia. Qed.

Lemma str_count_none c s : str_contains c s = false -> str_count c s = 0.
Proof.
  induction s as [|d s IH]; simpl; [done|]. destruct (Ascii.eqb d c); [done|].
  simpl. intros H. by rewrite IH.
Qed.

(** [c.join(l).count(c) + 1 == len(l)] for separator-free pieces. *)
Lemma str_count_join c l :
  l <> [] -> Forall (fun s => str_contains c s = false) l ->
  str_count c (join_with c l) + 1 = zlen l.
Proof.
  intros Hne H. induction H as [|s l Hs Hl IH]; [done|].
  destruct l as [|s' l].
  - simpl. by rewrite str_count_none.
  - change (join_with c (s :: s' :: l)) with (s +:+ String c (join_with c (s' :: l))).
    rewrite str_count_app, str_count_none by done. rewrite zlen_cons. cbn [str_count].
    rewrite Ascii.eqb_refl. specialize (IH ltac:(done)). lia.
Qed.

(** ** Decimal round trip *)

Fixpoint str_forall (p : ascii -> bool) (s : string) : bool :=
  match s with EmptyString => true | String c s' => p c && str_forall p s' end.

Lemma str_forall_contains p c s :
  str_forall p s = true -> p c = false -> str_contains c s = false.
Proof.
  induction s as [|d s IH]; simpl; [done|]. intros [Hd Hs]%andb_true_iff Hc.
  rewrite IH by done. destruct (Ascii.eqb_spec d c); [congruence|done].
Qed.

Definition dec_char (c : ascii) : bool := is_digit c || Ascii.eqb c "-".

Lemma string_of_uint_digits d : str_forall dec_char (NilEmpty.string_of_uint d) = true.
Proof. induction d; simpl; by rewrite ?IHd. Qed.

Lemma str_of_Z_chars z : str_forall dec_char (str_of_Z z) = true.
Proof.
  unfold str_of_Z. destruct (Z.to_int z) as [d|d]; simpl; unfold NilZero.string_of_uint.
  - destruct d; (done || apply string_of_uint_digits).
  - destruct d; (done || apply string_of_uint_digits).
Qed.

Lemma dec_char_not_space c : dec_char c = true -> is_space c = false.
Proof. destruct c as [[] [] [] [] [] [] [] []]; vm_compute; congruence. Qed.

Lemma dec_char_not_underscore c : dec_char c = true -> Ascii.eqb c "_" = false.
Proof. destruct c as [[] [] [] [] [] [] [] []]; vm_compute; congruence. Qed.

Lemma dec_char_not_plus c : dec_char c = true -> c <> "+"%char.
Proof. intros H ->. discriminate. Qed.

Lemma lstrip_dec s : str_forall dec_char s = true -> lstrip s = s.
Proof.
  destruct s as [|c s]; simpl; [done|]. intros [Hc _]%andb_true_iff.
  by rewrite dec_char_not_space.
Qed.

Lemma rstrip_dec s : str_forall dec_char s = true -> rstrip s = s.
Proof.
  induction s as [|c s IH]; simpl; [done|]. intros [Hc Hs]%andb_true_iff.
  rewrite IH by done. destruct s; [by rewrite dec_char_not_space|done].
Qed.

Lemma drop_underscores_dec b s : str_forall dec_char s = true -> drop_underscores b s = Some s.
Proof.
  revert b. induction s as [|c s IH]; intros b; simpl; [done|].
  intros [Hc Hs]%andb_true_iff. rewrite dec_char_not_underscore by done. by rewrite IH.
Qed.

Lemma py_int_dec s :
  str_forall dec_char s = true ->
  py_int s = (d ← NilZero.int_of_string s; Some (Z.of_int d)).
Proof.
  intros H. unfold py_int, strip.
  rewrite lstrip_dec by done. rewrite rstrip_dec by done.
  rewrite drop_underscores_dec by done. simpl.
  destruct s as [|c s]; [done|]. simpl in H. apply andb_true_iff in H as [Hc _].
  apply dec_char_not_plus in Hc.
  destruct c as [[] [] [] [] [] [] [] []]; try done.
Qed.

(** [int(str(z)) == z] *)
Lemma py_int_str_of_Z z : py_int (str_of_Z z) = Some z.
Proof.
  rewrite py_int_dec by apply str_of_Z_chars. unfold str_of_Z.
  rewrite NilZero.isi.
  - simpl. by rewrite DecimalZ.of_to.
  - destruct z as [|p|p]; simpl; [done| |done]. intros [= H].
    by apply DecimalPos.Unsigned.to_uint_nonnil in H.
  - destruct z as [|p|p]; simpl; [done|done|]. intros [= H].
    by apply DecimalPos.Unsigned.to_uint_nonnil in H.
Qed.

Lemma str_of_Z_inj z z' : str_of_Z z = str_of_Z z' -> z = z'.
Proof. intros H. apply (f_equal py_int) in H. rewrite !py_int_str_of_Z in H. congruence. Qed.

Lemma str_of_Z_no_sep c z : dec_char c = false -> str_contains c (str_of_Z z) = false.
Proof. intros H. eapply str_forall_contains; [apply str_of_Z_chars|done]. Qed.

#[export] Hint Resolve split_on_nonnil str_of_Z_no_sep : peerz.
