(* ===== verification/PyFloat.v ===== *)
(** * PyFloat: Python's [float] (IEEE 754 binary64)

    The throughputs, delays and priorities of the program are Python floats.  They are kept
    here as the Standard Library's [spec_float] with the binary64 parameters: the arithmetic
    rounds as the hardware does and [inf]/[nan] are values.  The order of the non-NaN floats
    is shown to be a total preorder, which is what [min], [max] and [sorted] rely on. *)

From S2P Require Import Prelude.
From Stdlib Require Import SpecFloat.

Abbreviation pyfloat := spec_float.

Definition f_of_Z (z : Z) : pyfloat := binary_normalize 53 1024 z 0 false.
Definition f_add : pyfloat -> pyfloat -> pyfloat := SFadd 53 1024.
Definition f_sub : pyfloat -> pyfloat -> pyfloat := SFsub 53 1024.
Definition f_mul : pyfloat -> pyfloat -> pyfloat := SFmul 53 1024.
Definition f_div : pyfloat -> pyfloat -> pyfloat := SFdiv 53 1024.
Definition f_lt (a b : pyfloat) : bool := SFltb a b.
Definition f_le (a b : pyfloat) : bool := SFleb a b.
Definition f_eq (a b : pyfloat) : bool := SFeqb a b.

(** [float] literals with a finite decimal expansion n/d, correctly rounded. *)
Definition f_lit (n d : Z) : pyfloat := f_div (f_of_Z n) (f_of_Z d).

Definition f_zero : pyfloat := S754_zero false.
Definition f_one : pyfloat := f_of_Z 1.
Definition f_inf : pyfloat := S754_infinity false.
Definition is_nan (a : pyfloat) : bool := match a with S754_nan => true | _ => false end.
Definition is_inf (a : pyfloat) : bool := match a with S754_infinity _ => true | _ => false end.

(** Float division raises on a zero divisor. *)
Definition py_fdiv (a b : pyfloat) : result pyfloat :=
  if f_eq b f_zero then Err ZeroDivisionError else Ok (f_div a b).

(** [math.floor] and [round] (half to even) of a float, as integers. *)
Definition f_to_Z (rnd : Z -> Z -> Z) (f : pyfloat) : result Z :=
  match f with
  | S754_zero _ => Ok 0
  | S754_infinity _ => Err OverflowError
  | S754_nan => Err ValueError
  | S754_finite s m e =>
      let v := if s then Zneg m else Zpos m in
      Ok (if 0 <=? e then v * 2 ^ e else rnd v (2 ^ (- e)))
  end.

Definition round_half_even (v d : Z) : Z :=
  let q := v / d in
  let r := v mod d in
  if 2 * r <? d then q else if d <? 2 * r then q + 1 else if Z.even q then q else q + 1.

Definition f_floor : pyfloat -> result Z := f_to_Z Z.div.
Definition f_round : pyfloat -> result Z := f_to_Z round_half_even.

(** Builtin [min(a, b)] keeps [a] unless [b < a]; [max(a, b)] keeps [a] unless [b > a]. *)
Definition f_min (a b : pyfloat) : pyfloat := if f_lt b a then b else a.
Definition f_max (a b : pyfloat) : pyfloat := if f_lt a b then b else a.

(** [min(l)] of a non-empty list: the first smallest element. *)
Fixpoint f_min_list (x : pyfloat) (l : list pyfloat) : pyfloat :=
  match l with [] => x | y :: l' => f_min_list (f_min x y) l' end.

(** ** The order of the floats

    Every float that is not NaN has a key, a triple of integers; [<] is the lexicographic
    order of the keys. *)

Definition f_key (a : pyfloat) : option (Z * Z * Z) :=
  match a with
  | S754_nan => None
  | S754_zero _ => Some (0, 0, 0)
  | S754_infinity s => Some (if s then -2 else 2, 0, 0)
  | S754_finite s m e => Some (if s then (-1, - e, - Zpos m) else (1, e, Zpos m))
  end.

Definition key_lt (k1 k2 : Z * Z * Z) : bool :=
  let '(a1, b1, c1) := k1 in
  let '(a2, b2, c2) := k2 in
  (a1 <? a2) || ((a1 =? a2) && ((b1 <? b2) || ((b1 =? b2) && (c1 <? c2)))).

Lemma f_lt_key a b :
  f_lt a b = match f_key a, f_key b with Some k1, Some k2 => key_lt k1 k2 | _, _ => false end.
Proof.
  destruct a as [[]|[]| |[] m e], b as [[]|[]| |[] m' e']; try reflexivity;
    unfold f_lt, SFltb, SFcompare, key_lt, f_key.
  - destruct (Z.compare_spec e e') as [->|H|H].
    + change (Pos.compare_cont Eq m m') with (m ?= m')%positive.
      destruct (Pos.compare_spec m m') as [->|H|H]; simpl; symmetry;
        rewrite ?Z.ltb_irrefl, ?Z.eqb_refl; simpl; lia.
    + simpl. symmetry. lia.
    + simpl. symmetry. lia.
  - destruct (Z.compare_spec e e') as [->|H|H].
    + change (Pos.compare_cont Eq m m') with (m ?= m')%positive.
      destruct (Pos.compare_spec m m') as [->|H|H]; simpl; symmetry;
        rewrite ?Z.ltb_irrefl, ?Z.eqb_refl; simpl; lia.
    + simpl. symmetry. lia.
    + simpl. symmetry. lia.
Qed.

Ltac f_keys :=
  rewrite ?f_lt_key in *;
  repeat match goal with
  | a : pyfloat |- _ =>
      lazymatch goal with
      | _ : context [f_key a] |- _ => destruct (f_key a) as [[[? ?] ?]|] eqn:?
      | |- context [f_key a] => destruct (f_key a) as [[[? ?] ?]|] eqn:?
      end
  end.

Lemma f_lt_irrefl a : f_lt a a = false.
Proof. rewrite f_lt_key. destruct (f_key a) as [[[x y] z]|]; simpl; [lia|done]. Qed.

Lemma f_lt_asym a b : f_lt a b = true -> f_lt b a = false.
Proof.
  rewrite !f_lt_key. destruct (f_key a) as [[[x y] z]|], (f_key b) as [[[x' y'] z']|]; simpl; try done.
  lia.
Qed.

Lemma f_lt_trans a b c : f_lt a b = true -> f_lt b c = true -> f_lt a c = true.
Proof.
  rewrite !f_lt_key. destruct (f_key a) as [[[x y] z]|], (f_key b) as [[[x' y'] z']|],
    (f_key c) as [[[x'' y''] z'']|]; simpl; try done. lia.
Qed.

Lemma f_key_nan a : f_key a = None <-> is_nan a = true.
Proof. destruct a as [[]|[]| |[] m e]; simpl; done. Qed.

(** "Not greater" is transitive through a float that is not NaN. *)
Lemma f_nlt_trans a b c :
  is_nan b = false -> f_lt b a = false -> f_lt c b = false -> f_lt c a = false.
Proof.
  rewrite !f_lt_key. intros Hb. destruct (f_key b) as [[[x' y'] z']|] eqn:E.
  - destruct (f_key a) as [[[x y] z]|], (f_key c) as [[[x'' y''] z'']|]; simpl; try done. lia.
  - apply f_key_nan in E. congruence.
Qed.

Lemma f_min_nan a b : is_nan a = false -> is_nan b = false -> is_nan (f_min a b) = false.
Proof. intros. unfold f_min. by destruct (f_lt b a). Qed.

Lemma f_min_list_in x l : f_min_list x l ∈ x :: l.
Proof.
  revert x. induction l as [|y l IH]; intros x; simpl; [by left|].
  specialize (IH (f_min x y)). unfold f_min in *. destruct (f_lt y x).
  - by right.
  - apply elem_of_cons in IH as [->|H]; [by left|by right; right].
Qed.

(** [min] of a list without NaN is a lower bound. *)
Lemma f_min_list_le x l :
  Forall (fun a => is_nan a = false) (x :: l) ->
  Forall (fun a => f_lt a (f_min_list x l) = false) (x :: l).
Proof.
  revert x. induction l as [|y l IH]; intros x HF; simpl.
  - constructor; [apply f_lt_irrefl|done].
  - apply Forall_cons in HF as [Hx [Hy HF]%Forall_cons].
    assert (Hm : is_nan (f_min x y) = false) by by apply f_min_nan.
    specialize (IH (f_min x y) (Forall_cons_2 _ _ _ Hm HF)).
    apply Forall_cons in IH as [Hmin Hl].
    assert (is_nan (f_min_list (f_min x y) l) = false).
    { pose proof (f_min_list_in (f_min x y) l) as Hin.
      apply elem_of_cons in Hin as [->|Hin]; [done|].
      rewrite Forall_forall in HF. by apply HF. }
    repeat constructor; [| |done].
    + eapply f_nlt_trans; [exact Hm|exact Hmin|].
      unfold f_min. destruct (f_lt y x) eqn:E; [by apply f_lt_asym|apply f_lt_irrefl].
    + eapply f_nlt_trans; [exact Hm|exact Hmin|].
      unfold f_min. destruct (f_lt y x) eqn:E; [apply f_lt_irrefl|done].
Qed.

(** ** Sums of non-negative floats stay non-negative (and are never NaN) *)

Definition f_nonneg (a : pyfloat) : bool := negb (is_nan a) && negb (f_lt a f_zero).

Lemma shr_1_nonneg r : 0 <= shr_m r -> 0 <= shr_m (shr_1 r).
Proof. destruct r as [[|[]|[]] r s]; simpl; lia. Qed.

Lemma iter_shr_nonneg p r : 0 <= shr_m r -> 0 <= shr_m (iter_pos shr_1 p r).
Proof.
  revert r. induction p as [p IH|p IH|]; intros r H; simpl; auto using shr_1_nonneg.
Qed.

Lemma shr_fexp_nonneg m e l : 0 <= m -> 0 <= shr_m (fst (shr_fexp 53 1024 m e l)).
Proof.
  intros H. unfold shr_fexp, shr.
  assert (0 <= shr_m (shr_record_of_loc m l)) by (by destruct l as [|[]]).
  destruct (_ - _); simpl; auto using iter_shr_nonneg.
Qed.

Lemma round_aux_nonneg m e l : 0 <= m -> f_nonneg (binary_round_aux 53 1024 false m e l) = true.
Proof.
  intros H. unfold binary_round_aux. pose proof (shr_fexp_nonneg m e l H) as H1.
  destruct (shr_fexp 53 1024 m e l) as [r e1]. simpl in H1.
  assert (H2 : 0 <= round_nearest_even (shr_m r) (loc_of_shr_record r)).
  { unfold round_nearest_even. destruct (loc_of_shr_record r) as [|[]]; [lia| |lia|lia].
    destruct (Z.even _); lia. }
  pose proof (shr_fexp_nonneg _ e1 loc_Exact H2) as H3.
  destruct (shr_fexp 53 1024 _ e1 loc_Exact) as [r' e2]. simpl in H3.
  destruct (shr_m r') as [|q|q]; [done| |lia]. by destruct (e2 <=? 1024 - 53).
Qed.

Lemma normalize_nonneg m e : 0 <= m -> f_nonneg (binary_normalize 53 1024 m e false) = true.
Proof.
  intros H. destruct m as [|p|p]; [done| |lia]. unfold binary_normalize, binary_round.
  destruct (shl_align _ _ _) as [mz ez]. by apply round_aux_nonneg.
Qed.

Lemma f_add_nonneg a b : f_nonneg a = true -> f_nonneg b = true -> f_nonneg (f_add a b) = true.
Proof.
  unfold f_add. destruct a as [[]|[]| |[] m e], b as [[]|[]| |[] m' e']; try done; intros _ _.
  apply normalize_nonneg. simpl. lia.
Qed.

Lemma f_nonneg_nan a : f_nonneg a = true -> is_nan a = false.
Proof. unfold f_nonneg. by destruct (is_nan a). Qed.

(** [==] is equality of keys. *)
Lemma f_eq_key a b :
  f_eq a b = match f_key a, f_key b with Some k1, Some k2 => bool_decide (k1 = k2) | _, _ => false end.
Proof.
  destruct a as [[]|[]| |[] m e], b as [[]|[]| |[] m' e']; try reflexivity;
    unfold f_eq, SFeqb, SFcompare, f_key; symmetry.
  all: match goal with |- bool_decide (?k1 = ?k2) = _ => idtac | _ => idtac end.
  all: destruct (Z.compare_spec e e') as [->|H|H];
    [|rewrite bool_decide_eq_false_2 by congruence || (intros [=]; lia)..].
  all: try done.
  all: try (rewrite bool_decide_eq_false_2; [done|intros [=]; lia]).
  all: change (Pos.compare_cont Eq m m') with (m ?= m')%positive;
    destruct (Pos.compare_spec m m') as [->|H|H]; simpl.
  all: try (rewrite bool_decide_eq_true_2; done).
  all: rewrite bool_decide_eq_false_2; [done|intros [=]; lia].
Qed.

Lemma f_eq_lt a b :
  is_nan a = false -> is_nan b = false -> f_eq a b = negb (f_lt a b) && negb (f_lt b a).
Proof.
  intros Ha Hb. rewrite f_eq_key, !f_lt_key.
  destruct (f_key a) as [[[x y] z]|] eqn:Ea; [|apply f_key_nan in Ea; congruence].
  destruct (f_key b) as [[[x' y'] z']|] eqn:Eb; [|apply f_key_nan in Eb; congruence].
  case_bool_decide; simplify_eq; simpl; [lia|].
  symmetry. apply andb_false_iff. rewrite !negb_false_iff.
  destruct (Z.lt_total x x') as [|[->|]]; [lia| |lia].
  destruct (Z.lt_total y y') as [|[->|]]; [lia| |lia].
  destruct (Z.lt_total z z') as [|[->|]]; [lia|done|lia].
Qed.

#[export] Hint Resolve f_lt_irrefl f_lt_asym f_nonneg_nan f_add_nonneg : peerz.

(** ** Comparison of tuples and [min] *)

(** [list1 < list2] *)
Fixpoint lex_lt (a b : list pyfloat) : bool :=
  match a, b with
  | [], [] => false
  | [], _ :: _ => true
  | _ :: _, [] => false
  | x :: a', y :: b' => if f_eq x y then lex_lt a' b' else f_lt x y
  end.

(** [list1 == list2] *)
Fixpoint lex_eq (a b : list pyfloat) : bool :=
  match a, b with
  | [], [] => true
  | x :: a', y :: b' => f_eq x y && lex_eq a' b'
  | _, _ => false
  end.

(** Builtin [min] of an iterable keeps the first smallest element. *)
Definition py_min {A} (lt : A -> A -> bool) (l : list A) : result A :=
  match l with
  | [] => Err ValueError
  | x :: l' => Ok (fold_left (fun m y => if lt y m then y else m) l' x)
  end.

Abbreviation no_nan := (Forall (fun x => is_nan x = false)).

Lemma f_key_Some a : is_nan a = false -> exists k, f_key a = Some k.
Proof.
  intros H. destruct (f_key a) eqn:E; [eauto|]. apply f_key_nan in E. congruence.
Qed.

Ltac lex_keys :=
  rewrite ?f_eq_lt in * by assumption;
  repeat match goal with
  | H : is_nan ?a = false |- _ =>
      let k := fresh "k" in let E := fresh "E" in
      destruct (f_key_Some a H) as [k E]; clear H
  end;
  rewrite ?f_lt_key in *;
  repeat match goal with E : f_key _ = Some _ |- _ => rewrite E in *; clear E end;
  repeat match goal with k : (Z * Z * Z)%type |- _ => destruct k as [[? ?] ?] end;
  simpl in *; repeat case_if; zbool; try done; try lia.

Lemma lex_lt_nlt_trans a b c :
  no_nan a -> no_nan b -> no_nan c -> lex_lt b a = false -> lex_lt c b = false -> lex_lt c a = false.
Proof.
  revert a c. induction b as [|y b IH]; intros [|x a] [|z c] Ha Hb Hc; simpl; try done.
  apply Forall_cons in Ha as [Hx Ha]. apply Forall_cons in Hb as [Hy Hb].
  apply Forall_cons in Hc as [Hz Hc]. specialize (IH a c Ha Hb Hc). clear Ha Hb Hc.
  lex_keys.
Qed.

Lemma lex_lt_asym a b : no_nan a -> no_nan b -> lex_lt a b = true -> lex_lt b a = false.
Proof.
  revert b. induction a as [|x a IH]; intros [|y b] Ha Hb; simpl; try done.
  apply Forall_cons in Ha as [Hx Ha]. apply Forall_cons in Hb as [Hy Hb].
  specialize (IH b Ha Hb). clear Ha Hb. lex_keys.
Qed.

Lemma lex_eq_lt a b : no_nan a -> no_nan b -> lex_eq a b = negb (lex_lt a b) && negb (lex_lt b a).
Proof.
  revert b. induction a as [|x a IH]; intros [|y b] Ha Hb; simpl; try done.
  apply Forall_cons in Ha as [Hx Ha]. apply Forall_cons in Hb as [Hy Hb].
  rewrite (IH b Ha Hb). clear IH Ha Hb. lex_keys.
  all: symmetry; apply andb_false_iff; rewrite !negb_false_iff; lia.
Qed.

(** [min] over candidates that a preorder on [P] compares: the first of the smallest. *)
Section py_min.
Context {A : Type} (lt : A -> A -> bool) (P : A -> Prop).
Context (Hirrefl : forall x, P x -> lt x x = false).
Context (Hasym : forall x y, P x -> P y -> lt x y = true -> lt y x = false).
Context (Htrans : forall x y z, P x -> P y -> P z -> lt y x = false -> lt z y = false -> lt z x = false).

Lemma py_min_fold l x :
  P x -> Forall P l ->
  let m := fold_left (fun m y => if lt y m then y else m) l x in
  m ∈ x :: l /\ forall y, y ∈ x :: l -> lt y m = false.
Proof.
  revert x. induction l as [|z l IH]; intros x Hx Hl; simpl.
  - split; [by left|]. intros y Hy. apply list_elem_of_singleton in Hy as ->. auto.
  - apply Forall_cons in Hl as [Hz Hl]. destruct (lt z x) eqn:E.
    + destruct (IH z Hz Hl) as [Hin Hmin]. split; [by right|].
      intros y [->|Hy]%elem_of_cons; [|by apply Hmin].
      assert (P (fold_left (fun m y => if lt y m then y else m) l z)).
      { apply elem_of_cons in Hin as [->|Hin]; [done|]. rewrite Forall_forall in Hl. auto. }
      apply (Htrans _ z); [done|done|done|apply Hmin; by left|by apply Hasym].
    + destruct (IH x Hx Hl) as [Hin Hmin]. split.
      { apply elem_of_cons in Hin as [->|Hin]; [by left|by right; right]. }
      intros y [->|[->|Hy]%elem_of_cons]%elem_of_cons.
      * apply Hmin. by left.
      * assert (P (fold_left (fun m y => if lt y m then y else m) l x)).
        { apply elem_of_cons in Hin as [->|Hin]; [done|]. rewrite Forall_forall in Hl. auto. }
        apply (Htrans _ x); [done|done|done|apply Hmin; by left|done].
      * apply Hmin. by right.
Qed.
End py_min.

Lemma lex_lt_irrefl a : no_nan a -> lex_lt a a = false.
Proof.
  intros H. destruct (lex_lt a a) eqn:E; [|done]. pose proof (lex_lt_asym a a H H E). congruence.
Qed.

