(* ===== verification/PyDict.v ===== *)
(** * PyDict: insertion-ordered dictionaries

    A Python [dict] iterates over its keys in insertion order, and re-assigning a key keeps
    its place.  Where that order can be observed the model keeps the dict as an association
    list with these operations. *)

From S2P Require Import Prelude.

Section pydict.
Context {K V : Type} `{EqDecision K}.
Implicit Types (d : list (K * V)) (k : K) (v : V).

(** [d.get(k)] *)
Fixpoint dget d k : option V :=
  match d with
  | [] => None
  | (k', v) :: d' => if decide (k' = k) then Some v else dget d' k
  end.

(** [d[k] = v] *)
Fixpoint dset d k v : list (K * V) :=
  match d with
  | [] => [(k, v)]
  | (k', v') :: d' => if decide (k' = k) then (k', v) :: d' else (k', v') :: dset d' k v
  end.

(** [d.pop(k, None)] *)
Definition dpop d k : list (K * V) := filter (fun kv => kv.1 <> k) d.

(** [k in d] *)
Definition dmem d k : bool := match dget d k with Some _ => true | None => false end.

(** [d.update(d')] *)
Definition dupdate d d' : list (K * V) := fold_left (fun d kv => dset d kv.1 kv.2) d' d.

Definition dkeys d : list K := map fst d.
Definition dvalues d : list V := map snd d.

Definition dict_wf d : Prop := NoDup (dkeys d).

Lemma dget_elem d k v : dget d k = Some v -> (k, v) ∈ d.
Proof.
  induction d as [|[k' v'] d IH]; simpl; [done|].
  destruct (decide (k' = k)) as [->|]; [intros [= ->]; by left|]. intros H. right. by apply IH.
Qed.

Lemma dget_None d k : dget d k = None <-> k ∉ dkeys d.
Proof.
  induction d as [|[k' v'] d IH]; simpl.
  - split; [intros _ H; inversion H|done].
  - rewrite not_elem_of_cons. destruct (decide (k' = k)) as [->|Hne].
    + split; [done|]. intros [? _]. congruence.
    + rewrite IH. split; [|tauto]. intros. split; [congruence|done].
Qed.

Lemma elem_dget d k v : dict_wf d -> (k, v) ∈ d -> dget d k = Some v.
Proof.
  induction d as [|[k' v'] d IH]; simpl; intros Hwf Hin; [inversion Hin|].
  apply NoDup_cons in Hwf as [Hk Hwf]. apply elem_of_cons in Hin as [[= -> ->]|Hin].
  - by rewrite decide_True.
  - destruct (decide (k' = k)) as [->|]; [|by apply IH].
    exfalso. apply Hk. apply list_elem_of_fmap. by exists (k, v).
Qed.

Lemma dget_is_Some_keys d k : k ∈ dkeys d <-> is_Some (dget d k).
Proof.
  destruct (dget d k) eqn:E.
  - split; [done|]. intros _. apply dget_elem in E. apply list_elem_of_fmap. by exists (k, v).
  - apply dget_None in E. split; [done|]. intros [? [=]].
Qed.

Lemma dmem_keys d k : dmem d k = true <-> k ∈ dkeys d.
Proof.
  unfold dmem. rewrite dget_is_Some_keys. destruct (dget d k); naive_solver.
Qed.

Lemma dget_dset d k v k' : dget (dset d k v) k' = if decide (k = k') then Some v else dget d k'.
Proof.
  induction d as [|[k1 v1] d IH]; simpl; [done|].
  destruct (decide (k1 = k)) as [->|Hne]; simpl.
  - by destruct (decide (k = k')).
  - destruct (decide (k1 = k')) as [->|]; [by rewrite decide_False|]. apply IH.
Qed.

Lemma dget_dset_eq d k v : dget (dset d k v) k = Some v.
Proof. rewrite dget_dset. by rewrite decide_True. Qed.

Lemma dget_dset_ne d k v k' : k <> k' -> dget (dset d k v) k' = dget d k'.
Proof. intros. rewrite dget_dset. by rewrite decide_False. Qed.

Lemma dkeys_dset_present d k v : k ∈ dkeys d -> dkeys (dset d k v) = dkeys d.
Proof.
  induction d as [|[k1 v1] d IH]; simpl; intros Hin; [inversion Hin|].
  destruct (decide (k1 = k)); simpl; [done|]. f_equal. apply IH.
  apply elem_of_cons in Hin as [->|]; done.
Qed.

Lemma dset_absent d k v : k ∉ dkeys d -> dset d k v = d ++ [(k, v)].
Proof.
  induction d as [|[k1 v1] d IH]; simpl; intros Hin; [done|].
  apply not_elem_of_cons in Hin as [Hne Hin].
  rewrite decide_False by congruence. simpl. f_equal. by apply IH.
Qed.

Lemma dkeys_dset_absent d k v : k ∉ dkeys d -> dkeys (dset d k v) = dkeys d ++ [k].
Proof. intros H. rewrite (dset_absent _ _ _ H). unfold dkeys. by rewrite map_app. Qed.

Lemma dict_wf_dset d k v : dict_wf d -> dict_wf (dset d k v).
Proof.
  intros Hwf. unfold dict_wf. destruct (decide (k ∈ dkeys d)) as [Hin|Hin].
  - by rewrite dkeys_dset_present.
  - rewrite dkeys_dset_absent by done. apply NoDup_app. split; [done|]. split.
    + intros x Hx Hx'. apply list_elem_of_singleton in Hx' as ->. done.
    + apply NoDup_singleton.
Qed.

Lemma elem_dset d k v k' v' : (k', v') ∈ dset d k v -> (k', v') = (k, v) \/ (k', v') ∈ d.
Proof.
  induction d as [|[k1 v1] d IH]; simpl.
  - intros H. apply list_elem_of_singleton in H. by left.
  - destruct (decide (k1 = k)) as [->|]; rewrite !elem_of_cons; intuition.
Qed.

Lemma dget_dpop d k k' : dget (dpop d k) k' = if decide (k = k') then None else dget d k'.
Proof.
  unfold dpop. induction d as [|[k1 v1] d IH]; [by destruct (decide (k = k'))|].
  rewrite filter_cons. simpl. destruct (decide (k1 <> k)) as [Hne|Heq].
  - simpl. rewrite IH. destruct (decide (k1 = k')) as [->|]; [|done].
    by rewrite decide_False.
  - rewrite IH. apply dec_stable in Heq as ->. by destruct (decide (k = k')).
Qed.

Lemma dict_wf_filter (P : K * V -> Prop) `{forall x, Decision (P x)} d :
  dict_wf d -> dict_wf (filter P d).
Proof.
  unfold dict_wf, dkeys. induction d as [|[k v] d IH]; [done|]. simpl.
  intros [Hk Hd]%NoDup_cons. rewrite filter_cons. destruct (decide (P (k, v))); [|by apply IH].
  simpl. apply NoDup_cons. split; [|by apply IH].
  intros Hin. apply Hk. apply list_elem_of_fmap in Hin as ([k' v'] & -> & Hin).
  apply list_elem_of_filter in Hin as [_ Hin]. apply list_elem_of_fmap. by exists (k', v').
Qed.

Lemma dict_wf_dpop d k : dict_wf d -> dict_wf (dpop d k).
Proof. apply dict_wf_filter. Qed.

Lemma elem_dpop d k k' v : (k', v) ∈ dpop d k <-> k' <> k /\ (k', v) ∈ d.
Proof. unfold dpop. by rewrite list_elem_of_filter. Qed.

Lemma dict_wf_dupdate d d' : dict_wf d -> dict_wf (dupdate d d').
Proof.
  intros Hwf. unfold dupdate. apply fold_left_invariant; [|done].
  intros s [k v] _ Hs. by apply dict_wf_dset.
Qed.

Lemma dget_dupdate d d' k : dict_wf d' -> dget (dupdate d d') k = match dget d' k with Some v => Some v | None => dget d k end.
Proof.
  unfold dupdate, dict_wf, dkeys. revert d. induction d' as [|[k' v] d' IH]; intros d Hwf; [done|]. cbn [fold_left map fst snd dget] in *.
  apply NoDup_cons in Hwf as [Hk Hwf]. rewrite IH by done. rewrite dget_dset. destruct (decide (k' = k)) as [->|]; [|done].
  by rewrite (proj2 (dget_None d' k)).
Qed.

Lemma elem_dkeys_dset d k v k' : k' ∈ dkeys (dset d k v) <-> k' = k \/ k' ∈ dkeys d.
Proof.
  rewrite !dget_is_Some_keys, dget_dset. case_decide as H.
  - split; [by left|eauto].
  - split; [by right|]. intros [->|]; done.
Qed.

Lemma elem_dkeys_dpop d k k' : k' ∈ dkeys (dpop d k) <-> k' <> k /\ k' ∈ dkeys d.
Proof.
  rewrite !dget_is_Some_keys, dget_dpop. case_decide as H.
  - split; [by intros [? [=]]|]. by intros [? _].
  - split; [|by intros [_ ?]]. intros Hs. split; [congruence|done].
Qed.

Lemma dict_wf_nil : dict_wf [].
Proof. constructor. Qed.
End pydict.

Arguments dict_wf {K V} _ : simpl never.
#[export] Hint Resolve dict_wf_dset dict_wf_filter dict_wf_dpop dict_wf_dupdate dict_wf_nil : peerz.
