(* ===== verification/Effects.v ===== *)
(** * Effects: programs that change a state and may raise

    A program is a function from a state to the final state and a value or an exception; [None] when the fuel of
    a loop in it runs out.  [try: ... finally: ...] and context managers are combinators; a triple states what
    holds of every run, whether it returns or raises. *)

From S2P Require Import Prelude.

Definition prog (W A : Type) : Type := W -> option (W * result A).

Section prog.
Context {W : Type}.

Definition ret {A} (a : A) : prog W A := fun w => Some (w, Ok a).
Definition raise {A} (e : exn) : prog W A := fun w => Some (w, Err e).
Definition lift {A} (r : result A) : prog W A := fun w => Some (w, r).
Definition reads {A} (f : W -> A) : prog W A := fun w => Some (w, Ok (f w)).
Definition writes (f : W -> W) : prog W unit := fun w => Some (f w, Ok ()).

#[global] Instance prog_bind : MBind (prog W) := fun A B f m w =>
  match m w with
  | None => None
  | Some (w', Err e) => Some (w', Err e)
  | Some (w', Ok a) => f a w'
  end.

(** [try: m finally: after] *)
Definition finally {A} (m : prog W A) (after : W -> W) : prog W A := fun w =>
  match m w with None => None | Some (w', r) => Some (after w', r) end.

(** ** Triples *)

(** Every run of [m] from a state in [P] ends with a state and an outcome in [Q]. *)
Definition triple {A} (P : W -> Prop) (m : prog W A) (Q : W -> result A -> Prop) : Prop :=
  forall w w' r, P w -> m w = Some (w', r) -> Q w' r.

Lemma triple_weaken {A} (P P' : W -> Prop) (m : prog W A) (Q Q' : W -> result A -> Prop) :
  triple P' m Q' -> (forall w, P w -> P' w) -> (forall w r, Q' w r -> Q w r) -> triple P m Q.
Proof. intros H HP HQ w w' r Hw Hr. apply HQ. by eapply H; [apply HP|]. Qed.

Lemma triple_bind {A B} (P : W -> Prop) (m : prog W A) (f : A -> prog W B)
    (R : W -> result A -> Prop) (Q : W -> result B -> Prop) :
  triple P m R -> (forall a, triple (fun w => R w (Ok a)) (f a) Q) ->
  (forall w e, R w (Err e) -> Q w (Err e)) -> triple P (m ≫= f) Q.
Proof.
  intros Hm Hf He w w' r Hw Hr. unfold mbind, prog_bind in Hr.
  destruct (m w) as [[w1 [a|e]]|] eqn:Em; [|injection Hr as <- <-|done].
  - eapply Hf; [|exact Hr]. by eapply Hm.
  - apply He. by eapply Hm.
Qed.

Lemma triple_finally {A} (P : W -> Prop) (m : prog W A) after (R Q : W -> result A -> Prop) :
  triple P m R -> (forall w r, R w r -> Q (after w) r) -> triple P (finally m after) Q.
Proof.
  intros Hm Hq w w' r Hw Hr. unfold finally in Hr.
  destruct (m w) as [[w1 r1]|] eqn:Em; [|done]. injection Hr as <- <-. apply Hq. by eapply Hm.
Qed.

(** ** Equations that evaluate a program *)

Lemma bind_ok {A B} (m : prog W A) (f : A -> prog W B) w w' a : m w = Some (w', Ok a) -> (m ≫= f) w = f a w'.
Proof. intros H. unfold mbind, prog_bind. by rewrite H. Qed.

Lemma bind_err {A B} (m : prog W A) (f : A -> prog W B) w w' e :
  m w = Some (w', Err e) -> (m ≫= f) w = Some (w', Err e).
Proof. intros H. unfold mbind, prog_bind. by rewrite H. Qed.

Lemma bind_lift {A B} (r : result A) (f : A -> prog W B) w a : r = Ok a -> (lift r ≫= f) w = f a w.
Proof. intros ->. done. Qed.

(** A run of a sequence that returns is a run of each part that returns. *)
Lemma bind_returns {A B} (m : prog W A) (f : A -> prog W B) w w' b :
  (m ≫= f) w = Some (w', Ok b) -> exists w1 a, m w = Some (w1, Ok a) /\ f a w1 = Some (w', Ok b).
Proof. unfold mbind, prog_bind. destruct (m w) as [[w1 [a|e]]|]; intros H; try done. eauto. Qed.

Lemma finally_returns {A} (m : prog W A) after w w' r :
  finally m after w = Some (w', r) -> exists w1, m w = Some (w1, r) /\ w' = after w1.
Proof. unfold finally. destruct (m w) as [[w1 r1]|]; intros H; [|done]. injection H as <- <-. eauto. Qed.
End prog.
