(* ===== verification/DataStructures.v ===== *)
(** * DataStructures: [src/src/peerz/data_structures.py]

    Module identifiers, the server states, the record a server announces ([ServerInfo]) with
    its wire format, and the spans of blocks that routing works with. *)

From S2P Require Import Prelude PyString PyFloat PyDict.

(** ** Peer identifiers

    [PeerID] is a class of the hivemind library.  The program compares peer ids, sorts them
    and converts them to and from base58 text; this is the interface it relies on. *)

Class PeerIds := {
  PeerID : Type;
  peer_eq_dec :: EqDecision PeerID;
  peer_countable :: Countable PeerID;
  peer_lt : PeerID -> PeerID -> bool;
  to_base58 : PeerID -> string;
  from_base58 : string -> option PeerID;
  peer_lt_asym : forall p q, peer_lt p q = true -> peer_lt q p = false;
  peer_nlt_trans : forall p q r,
    peer_lt q p = false -> peer_lt r q = false -> peer_lt r p = false;
  from_to_base58 : forall p, from_base58 (to_base58 p) = Some p;
}.

(** A concrete instance: peer ids are numbers, printed in decimal. *)
#[refine, global] Instance ZPeerIds : PeerIds := {|
  PeerID := Z;
  peer_lt := Z.ltb;
  to_base58 := str_of_Z;
  from_base58 := py_int;
|}.
Proof.
  - intros p q H. zbool. lia.
  - intros p q r H1 H2. zbool. lia.
  - apply py_int_str_of_Z.
Defined.

(** ** Module identifiers *)

Definition UID_DELIMITER : ascii := "."%char.
Definition CHAIN_DELIMITER : ascii := " "%char.

(** [f"{dht_prefix}{UID_DELIMITER}{i}"] *)
Definition make_uid (dht_prefix : string) (i : Z) : string :=
  dht_prefix +:+ String UID_DELIMITER (str_of_Z i).

Definition parse_uid (uid : string) : result (string * Z) :=
  _ ← assert_ (negb (str_contains CHAIN_DELIMITER uid));
  match split_on UID_DELIMITER uid with
  | [dht_prefix; index] => i ← get_or ValueError (py_int index); Ok (dht_prefix, i)
  | _ => Err ValueError
  end.

(** A prefix that the server accepts ([Server.__init__] asserts it). *)
Definition valid_prefix (p : string) : bool :=
  negb (str_contains UID_DELIMITER p) && negb (str_contains CHAIN_DELIMITER p).

(** ** Server states *)

Inductive ServerState := OFFLINE | JOINING | ONLINE.

#[global] Instance ServerState_eq_dec : EqDecision ServerState.
Proof. solve_decision. Defined.

Definition state_value (s : ServerState) : Z :=
  match s with OFFLINE => 0 | JOINING => 1 | ONLINE => 2 end.

(** Values that msgpack can carry. *)
#[warnings="-register-all"]
Inductive pyval :=
  | PNone
  | PBool (b : bool)
  | PInt (z : Z)
  | PFloat (f : pyfloat)
  | PStr (s : string)
  | PList (l : list pyval)
  | PDict (d : list (pyval * pyval)).

(** [ServerState(v)]: lookup by value, where [2 == 2.0] and [1 == True]. *)
Definition ServerState_of (v : pyval) : result ServerState :=
  let num :=
    match v with
    | PInt z => Some (f_of_Z z)
    | PFloat f => Some f
    | PBool b => Some (f_of_Z (if b then 1 else 0))
    | _ => None
    end in
  match num with
  | Some x =>
      if f_eq x (f_of_Z 0) then Ok OFFLINE
      else if f_eq x (f_of_Z 1) then Ok JOINING
      else if f_eq x (f_of_Z 2) then Ok ONLINE
      else Err ValueError
  | None => Err ValueError
  end.

(** ** ModelInfo *)

Record ModelInfo := mkModelInfo {
  mi_num_blocks : Z;
  mi_repository : option string;
}.

(** [ModelInfo.to_dict] *)
Definition model_to_dict (m : ModelInfo) : pyval :=
  PDict [(PStr "num_blocks", PInt (mi_num_blocks m));
         (PStr "repository", match mi_repository m with Some r => PStr r | None => PNone end)].

(** ** ServerInfo *)

#[global] Instance pyfloat_eq_dec : EqDecision pyfloat.
Proof. solve_decision. Defined.

#[global] Instance pyval_eq_dec : EqDecision pyval.
Proof.
  refine (fix go (x y : pyval) : Decision (x = y) :=
    match x, y with
    | PNone, PNone => left eq_refl
    | PBool a, PBool b => cast_if (decide (a = b))
    | PInt a, PInt b => cast_if (decide (a = b))
    | PFloat a, PFloat b => cast_if (decide (a = b))
    | PStr a, PStr b => cast_if (decide (a = b))
    | PList a, PList b => cast_if (list_eq_dec (dec := go) a b)
    | PDict a, PDict b => cast_if (list_eq_dec (dec := prod_eq_dec (EqDecision0 := go) (EqDecision1 := go)) a b)
    | _, _ => right _
    end); try congruence; intros; discriminate.
Defined.

Record ServerInfo := mkServerInfo {
  si_state : ServerState;
  si_throughput : pyfloat;
  si_start_block : option Z;
  si_end_block : option Z;
  si_public_name : option string;
  si_version : option string;
  si_network_rps : option pyfloat;
  si_forward_rps : option pyfloat;
  si_inference_rps : option pyfloat;
  si_adapters : list string;
  si_torch_dtype : option string;
  si_quant_type : option string;
  si_using_relay : option bool;
  si_cache_tokens_left : option Z;
  si_next_pings : option (list (string * pyfloat));
}.

#[global] Instance ServerInfo_eq_dec : EqDecision ServerInfo.
Proof. solve_decision. Defined.

(** [RPS = pydantic.confloat(ge=0, allow_inf_nan=False, strict=True)] *)
Definition valid_rps (f : pyfloat) : bool := negb (is_nan f) && negb (is_inf f) && negb (f_lt f f_zero).

(** The constraints that the field annotations state. *)
Definition valid_info (s : ServerInfo) : bool :=
  let opt {A} (p : A -> bool) (o : option A) := match o with Some a => p a | None => true end in
  valid_rps (si_throughput s)
  && opt (Z.leb 0) (si_start_block s) && opt (Z.leb 0) (si_end_block s)
  && opt valid_rps (si_network_rps s) && opt valid_rps (si_forward_rps s)
  && opt valid_rps (si_inference_rps s)
  && opt (Z.leb 0) (si_cache_tokens_left s)
  && opt (fun d => forallb (fun kv => negb (is_nan (snd kv)) && negb (f_lt (snd kv) f_zero)) d)
         (si_next_pings s).

Definition p_opt {A} (f : A -> pyval) (o : option A) : pyval :=
  match o with Some a => f a | None => PNone end.

(** [ServerInfo.to_tuple]: the state's value, the throughput, the other fields as a dict. *)
Definition to_tuple (s : ServerInfo) : list pyval :=
  let f name v := (PStr name, v) in
  [ PInt (state_value (si_state s)); PFloat (si_throughput s);
    PDict
      [ f "start_block" (p_opt PInt (si_start_block s));
        f "end_block" (p_opt PInt (si_end_block s));
        f "public_name" (p_opt PStr (si_public_name s));
        f "version" (p_opt PStr (si_version s));
        f "network_rps" (p_opt PFloat (si_network_rps s));
        f "forward_rps" (p_opt PFloat (si_forward_rps s));
        f "inference_rps" (p_opt PFloat (si_inference_rps s));
        f "adapters" (PList (map PStr (si_adapters s)));
        f "torch_dtype" (p_opt PStr (si_torch_dtype s));
        f "quant_type" (p_opt PStr (si_quant_type s));
        f "using_relay" (p_opt PBool (si_using_relay s));
        f "cache_tokens_left" (p_opt PInt (si_cache_tokens_left s));
        f "next_pings"
          (p_opt (fun d => PDict (map (fun kv => (PStr (fst kv), PFloat (snd kv))) d))
                 (si_next_pings s)) ] ].

(** [pydantic]'s lax conversions of the fields declared [str] and [bool] are library code; the
    strict ones ([strict=True]) accept an instance of the type and nothing else. *)
Class Pydantic := {
  coerce_str : pyval -> option string;
  coerce_bool : pyval -> option bool;
  coerce_str_str : forall s, coerce_str (PStr s) = Some s;
  coerce_bool_bool : forall b, coerce_bool (PBool b) = Some b;
}.

#[refine, global] Instance StrictPydantic : Pydantic := {|
  coerce_str v := match v with PStr s => Some s | _ => None end;
  coerce_bool v := match v with PBool b => Some b | _ => None end;
|}.
Proof. all: done. Defined.

Section from_tuple.
Context `{Pydantic}.

Definition as_int (v : pyval) : result Z :=
  match v with PInt z => if 0 <=? z then Ok z else Err ValueError | _ => Err ValueError end.
Definition as_rps (v : pyval) : result pyfloat :=
  match v with PFloat f => if valid_rps f then Ok f else Err ValueError | _ => Err ValueError end.
Definition as_str (v : pyval) : result string := get_or ValueError (coerce_str v).
Definition as_bool (v : pyval) : result bool := get_or ValueError (coerce_bool v).
Definition as_strs (v : pyval) : result (list string) :=
  match v with PList l => mapR as_str l | _ => Err ValueError end.
Definition as_pings (v : pyval) : result (list (string * pyfloat)) :=
  match v with
  | PDict d =>
      mapR (fun kv => k ← as_str (fst kv);
              match snd kv with
              | PFloat f => if negb (is_nan f) && negb (f_lt f f_zero) then Ok (k, f)
                            else Err ValueError
              | _ => Err ValueError
              end) d
  | _ => Err ValueError
  end.
Definition as_opt {A} (f : pyval -> result A) (v : pyval) : result (option A) :=
  match v with PNone => Ok None | _ => a ← f v; Ok (Some a) end.

(** The keyword argument [name], or the field's default. *)
Fixpoint kwarg (d : list (pyval * pyval)) (name : string) : option pyval :=
  match d with
  | [] => None
  | (PStr k, v) :: d' => if decide (k = name) then Some v else kwarg d' name
  | _ :: d' => kwarg d' name
  end.

Lemma kwarg_dget d name : kwarg d name = dget d (PStr name).
Proof.
  induction d as [|[k v] d IH]; [done|]. destruct k; cbn [kwarg dget]; rewrite IH;
    repeat case_decide; try done; congruence.
Qed.

Definition field {A} (d : list (pyval * pyval)) (name : string) (f : pyval -> result A)
    (default : A) : result A :=
  match kwarg d name with Some v => f v | None => Ok default end.

(** [cls(state=..., throughput=..., **extra_info)]: unknown keys are ignored; keys that are
    not strings, or that repeat [state] or [throughput], are a [TypeError]. *)
Definition ServerInfo_init (state : ServerState) (throughput : pyval) (d : list (pyval * pyval))
    : result ServerInfo :=
  if existsb (fun kv => match fst kv with
                        | PStr k => bool_decide (k = "state") || bool_decide (k = "throughput")
                        | _ => true end) d
  then Err TypeError
  else
    tp ← as_rps throughput;
    start_block ← field d "start_block" (as_opt as_int) None;
    end_block ← field d "end_block" (as_opt as_int) None;
    public_name ← field d "public_name" (as_opt as_str) None;
    version ← field d "version" (as_opt as_str) None;
    network_rps ← field d "network_rps" (as_opt as_rps) None;
    forward_rps ← field d "forward_rps" (as_opt as_rps) None;
    inference_rps ← field d "inference_rps" (as_opt as_rps) None;
    adapters ← field d "adapters" as_strs [];
    torch_dtype ← field d "torch_dtype" (as_opt as_str) None;
    quant_type ← field d "quant_type" (as_opt as_str) None;
    using_relay ← field d "using_relay" (as_opt as_bool) None;
    cache_tokens_left ← field d "cache_tokens_left" (as_opt as_int) None;
    next_pings ← field d "next_pings" (as_opt as_pings) None;
    Ok (mkServerInfo state tp start_block end_block public_name version network_rps
          forward_rps inference_rps adapters torch_dtype quant_type using_relay
          cache_tokens_left next_pings).

(** [ServerInfo.from_tuple]: the first two items, and the third if there is one. *)
Definition from_tuple (source : pyval) : result ServerInfo :=
  match source with
  | PList (state :: throughput :: rest) =>
      extra_info ← match rest with
                   | [] => Ok []
                   | PDict d :: _ => Ok d
                   | _ :: _ => Err TypeError
                   end;
      st ← ServerState_of state;
      ServerInfo_init st throughput extra_info
  | PList _ => Err ValueError
  | PStr _ => Err ValueError
  | _ => Err TypeError
  end.
End from_tuple.

(** ** Module and span records *)

Section records.
Context {PI : PeerIds}.

Record RemoteModuleInfo := mkModuleInfo {
  rm_uid : string;
  rm_servers : list (PeerID * ServerInfo);
}.

Record RemoteSpanInfo := mkSpan {
  sp_peer_id : PeerID;
  sp_start : Z;
  sp_end : Z;
  sp_server_info : ServerInfo;
}.

Definition sp_length (s : RemoteSpanInfo) : Z := sp_end s - sp_start s.
Definition sp_state (s : RemoteSpanInfo) : ServerState := si_state (sp_server_info s).
Definition sp_throughput (s : RemoteSpanInfo) : pyfloat := si_throughput (sp_server_info s).

(** [span.start], [span.end] assignments and [dataclasses.replace]. *)
Definition sp_with_start (s : RemoteSpanInfo) (x : Z) : RemoteSpanInfo :=
  mkSpan (sp_peer_id s) x (sp_end s) (sp_server_info s).
Definition sp_with_end (s : RemoteSpanInfo) (x : Z) : RemoteSpanInfo :=
  mkSpan (sp_peer_id s) (sp_start s) x (sp_server_info s).
End records.

Definition Handle := Z.

(** ** Theorems *)

Lemma make_uid_no_chain p i : valid_prefix p = true -> str_contains CHAIN_DELIMITER (make_uid p i) = false.
Proof.
  intros [_ H]%andb_true_iff. unfold make_uid. rewrite str_contains_app.
  apply negb_true_iff in H. rewrite H. simpl. by apply str_of_Z_no_sep.
Qed.

(** An identifier built from a prefix that [Server] accepts and a block index is parsed
    back into that prefix and that index. *)
Theorem parse_make_uid p i : valid_prefix p = true -> parse_uid (make_uid p i) = Ok (p, i).
Proof.
  intros H. unfold parse_uid. rewrite make_uid_no_chain by done. simpl.
  apply andb_true_iff in H as [H _]. apply negb_true_iff in H.
  unfold make_uid. rewrite split_on_app by done.
  rewrite split_on_none by by apply str_of_Z_no_sep.
  by rewrite py_int_str_of_Z.
Qed.

Lemma parse_make_uid_witness : parse_uid (make_uid "bloom" 12) = Ok ("bloom", 12).
Proof. apply (parse_make_uid "bloom" 12). reflexivity. Defined.

Lemma ServerState_of_value s : ServerState_of (PInt (state_value s)) = Ok s.
Proof. by destruct s. Qed.

Lemma opt_int_round o :
  match o with Some a => 0 <=? a | None => true end = true ->
  as_opt as_int (p_opt PInt o) = Ok o.
Proof. destruct o as [z|]; simpl; [|done]. by intros ->. Qed.

Lemma opt_rps_round o :
  match o with Some a => valid_rps a | None => true end = true ->
  as_opt as_rps (p_opt PFloat o) = Ok o.
Proof. destruct o as [z|]; simpl; [|done]. by intros ->. Qed.

Lemma as_str_str `{Pydantic} s : as_str (PStr s) = Ok s.
Proof. unfold as_str. by rewrite coerce_str_str. Qed.

Lemma opt_str_round `{Pydantic} o : as_opt as_str (p_opt PStr o) = Ok o.
Proof. destruct o as [s|]; simpl; [|done]. by rewrite as_str_str. Qed.

Lemma opt_bool_round `{Pydantic} o : as_opt as_bool (p_opt PBool o) = Ok o.
Proof. destruct o as [s|]; simpl; [|done]. unfold as_bool. by rewrite coerce_bool_bool. Qed.

Lemma as_strs_round `{Pydantic} l : as_strs (PList (map PStr l)) = Ok l.
Proof. simpl. induction l as [|s l IH]; simpl; [done|]. by rewrite as_str_str, IH. Qed.

Lemma opt_pings_round `{Pydantic} o :
  match o with
  | Some d => forallb (fun kv => negb (is_nan (snd kv)) && negb (f_lt (snd kv) f_zero)) d
  | None => true
  end = true ->
  as_opt as_pings
    (p_opt (fun d => PDict (map (fun kv => (PStr (fst kv), PFloat (snd kv))) d)) o) = Ok o.
Proof.
  destruct o as [d|]; simpl; [|done]. intros Hd.
  assert (Hm : as_pings (PDict (map (fun kv => (PStr (fst kv), PFloat (snd kv))) d)) = Ok d).
  { simpl. induction d as [|[k f] d IH]; [done|]. simpl in *.
    apply andb_true_iff in Hd as [Hf Hd]. rewrite as_str_str. simpl. rewrite Hf. by rewrite IH. }
  simpl in Hm. by rewrite Hm.
Qed.

(** The wire tuple of a server info parses back. *)
Lemma tuple_roundtrip `{Pydantic} s :
  valid_info s = true -> from_tuple (PList (to_tuple s)) = Ok s.
Proof.
  intros Hv. unfold valid_info in Hv. repeat rewrite andb_true_iff in Hv.
  destruct Hv as [[[[[[[H1 H2] H3] H4] H5] H6] H7] H8].
  unfold from_tuple, to_tuple. cbv beta iota zeta delta [mbind result_bind].
  rewrite ServerState_of_value. unfold ServerInfo_init.
  cbv beta iota zeta delta [mbind result_bind existsb fst snd bool_decide].
  simpl existsb. simpl as_rps. rewrite H1. unfold field. simpl kwarg.
  cbv beta iota zeta delta [mbind result_bind].
  rewrite (opt_int_round _ H2), (opt_int_round _ H3), !opt_str_round.
  rewrite (opt_rps_round _ H4), (opt_rps_round _ H5), (opt_rps_round _ H6).
  rewrite as_strs_round, opt_bool_round, (opt_int_round _ H7), (opt_pings_round _ H8).
  by destruct s.
Qed.

(** decoding the tuple that a server stores in the DHT gives back the record it
    announced, whenever the record satisfies the constraints of its field annotations. *)
Theorem from_tuple_to_tuple `{Pydantic} s :
  valid_info s = true -> from_tuple (PList (to_tuple s)) = Ok s.
Proof. apply tuple_roundtrip. Qed.

Definition sample_info : ServerInfo :=
  mkServerInfo ONLINE (f_lit 25 10) (Some 3) (Some 7) (Some "alice") (Some "2.3.0")
    (Some (f_lit 1000 1)) None (Some (f_lit 3105 10)) ["lora"] (Some "bfloat16") (Some "nf4")
    (Some false) (Some 16384) (Some [("42", f_lit 5 100); ("7", f_inf)]).

Lemma from_tuple_to_tuple_witness :
  valid_info sample_info = true /\ from_tuple (PList (to_tuple sample_info)) = Ok sample_info.
Proof. split; [vm_compute; reflexivity|]. apply (from_tuple_to_tuple sample_info). vm_compute. reflexivity. Defined.

(** ** Decoding fails only in the two ways the callers handle *)

Definition type_or_value {A} (r : result A) : Prop :=
  match r with Ok _ => True | Err e => e = TypeError \/ e = ValueError end.

Lemma tv_bind {A B} (m : result A) (f : A -> result B) :
  type_or_value m -> (forall a, type_or_value (f a)) -> type_or_value (m ≫= f).
Proof. destruct m; simpl; auto. Qed.

Lemma tv_mapR {A B} (f : A -> result B) l :
  (forall a, type_or_value (f a)) -> type_or_value (mapR f l).
Proof.
  intros Hf. induction l as [|x l IH]; simpl; [done|].
  specialize (Hf x). destruct (f x); simpl in *; [|done]. by destruct (mapR f l).
Qed.

Lemma tv_get {A} (o : option A) : type_or_value (get_or ValueError o).
Proof. destruct o; simpl; auto. Qed.

Lemma tv_opt {A} (f : pyval -> result A) v :
  (forall v, type_or_value (f v)) -> type_or_value (as_opt f v).
Proof. intros Hf. destruct v; simpl; try done; apply tv_bind; done. Qed.

Lemma tv_field {A} d name (f : pyval -> result A) a :
  (forall v, type_or_value (f v)) -> type_or_value (field d name f a).
Proof. intros Hf. unfold field. by destruct (kwarg d name). Qed.

Lemma tv_as_int v : type_or_value (as_int v).
Proof. destruct v; simpl; auto. by case_if; simpl; auto. Qed.
Lemma tv_as_rps v : type_or_value (as_rps v).
Proof. destruct v; simpl; auto. by case_if; simpl; auto. Qed.
Lemma tv_as_str `{Pydantic} v : type_or_value (as_str v).
Proof. apply tv_get. Qed.
Lemma tv_as_bool `{Pydantic} v : type_or_value (as_bool v).
Proof. apply tv_get. Qed.
Lemma tv_as_strs `{Pydantic} v : type_or_value (as_strs v).
Proof. destruct v; simpl; auto. apply tv_mapR. apply tv_as_str. Qed.
Lemma tv_as_pings `{Pydantic} v : type_or_value (as_pings v).
Proof.
  destruct v; simpl; auto. apply tv_mapR. intros kv. apply tv_bind; [apply tv_as_str|].
  intros k. destruct (snd kv); simpl; auto. by case_if; simpl; auto.
Qed.
Lemma tv_state v : type_or_value (ServerState_of v).
Proof. unfold ServerState_of. destruct v; simpl; auto; repeat case_if; simpl; auto. Qed.

#[export] Hint Resolve tv_bind tv_opt tv_field tv_as_int tv_as_rps tv_as_str tv_as_bool
  tv_as_strs tv_as_pings tv_state : peerz.

Lemma tv_ServerInfo_init `{Pydantic} s t d : type_or_value (ServerInfo_init s t d).
Proof.
  unfold ServerInfo_init. case_if; [by left|].
  repeat (apply tv_bind; [by auto with peerz|intros]). done.
Qed.

Lemma tv_from_tuple `{Pydantic} v : type_or_value (from_tuple v).
Proof.
  unfold from_tuple. destruct v as [| | | | |l|]; simpl; auto.
  destruct l as [|st [|tp rest]]; simpl; auto.
  apply tv_bind; [destruct rest as [|[] ?]; simpl; auto|intros d].
  apply tv_bind; [apply tv_state|intros s]. apply tv_ServerInfo_init.
Qed.
