(* ===== verification/Utils.v ===== *)
(** * Utils: small helpers of [src/src/peerz/utils]

    [random.py] (bounded sampling), [misc.py] (dummy tensors and dtype sizes), [asyncio.py]
    (waiting for a shielded task) and [ping.py] (smoothed round-trip times). *)

From S2P Require Import Prelude PyString PyFloat PyDict DataStructures.

(** ** Sources of randomness

    [random] and [numpy.random] are modelled as choices that depend on a seed the program does
    not control; only the documented ranges of the results are assumed. *)

Class PyRandom := {
  random_sample : forall {A : Type}, Z -> list A -> Z -> list A;
  random_choice : forall {A : Type}, Z -> A -> list A -> A;
  random_shuffle : forall {A : Type}, Z -> list A -> list A;
  random_sample_spec : forall A (seed : Z) (l : list A) k, 0 <= k <= zlen l ->
    zlen (random_sample seed l k) = k /\ submseteq (random_sample seed l k) l;
  random_choice_in : forall A (seed : Z) (x : A) l, random_choice seed x l ∈ x :: l;
  random_shuffle_perm : forall A (seed : Z) (l : list A), random_shuffle seed l ≡ₚ l;
}.

(** A deterministic instance: the first elements, in order. *)
#[refine, global] Instance FirstRandom : PyRandom := {|
  random_sample A seed l k := take (Z.to_nat k) l;
  random_choice A seed x l := x;
  random_shuffle A seed l := l;
|}.
Proof.
  - intros A _ l k Hk. unfold zlen in *. rewrite length_take. split; [lia|].
    apply sublist_submseteq, sublist_take.
  - intros. by left.
  - done.
Defined.

(** [sample_up_to(population, k)] *)
Definition sample_up_to `{PyRandom} {A} (seed : Z) (population : list A) (k : Z) : list A :=
  if k <? zlen population then random_sample seed population k else population.

Lemma sample_up_to_subset `{PyRandom} {A} seed (l : list A) k x :
  0 <= k -> x ∈ sample_up_to seed l k -> x ∈ l.
Proof.
  intros Hk. unfold sample_up_to. case_if; [|done]. intros Hx. zbool.
  destruct (random_sample_spec A seed l k) as [_ Hs]; [lia|]. by eapply elem_of_submseteq.
Qed.

Lemma sample_up_to_length `{PyRandom} {A} seed (l : list A) k :
  0 <= k -> zlen (sample_up_to seed l k) = Z.min k (zlen l).
Proof.
  intros Hk. unfold sample_up_to. case_if; zbool; [|lia].
  destruct (random_sample_spec A seed l k) as [Hl _]; lia.
Qed.

Lemma sample_up_to_all `{PyRandom} {A} seed (l : list A) k :
  zlen l <= k -> sample_up_to seed l k = l.
Proof. intros. unfold sample_up_to. case_if; zbool; [lia|done]. Qed.

(** ** Element types *)

Inductive dtype :=
  | torch_bool | torch_qint8 | torch_qint32 | torch_uint8 | torch_int64
  | torch_float16 | torch_bfloat16 | torch_float32 | torch_complex64.

#[global] Instance dtype_eq_dec : EqDecision dtype.
Proof. solve_decision. Defined.

(** [torch.finfo(dtype).bits], [torch.iinfo(dtype).bits] and [dtype.is_complex]. *)
Class TorchDtypes := {
  info_bits : dtype -> Z;
  is_complex : dtype -> bool;
  info_bits_pos : forall d, 8 <= info_bits d;
}.

#[refine, global] Instance DocumentedDtypes : TorchDtypes := {|
  info_bits d := match d with
                 | torch_int64 => 64
                 | torch_float16 | torch_bfloat16 => 16
                 | torch_float32 | torch_complex64 | torch_qint32 => 32
                 | _ => 8
                 end;
  is_complex d := bool_decide (d = torch_complex64);
|}.
Proof. intros []; lia. Defined.

Definition SPECIAL_DTYPE_SIZES (d : dtype) : option Z :=
  match d with
  | torch_bool => Some 1
  | torch_qint8 => Some 1
  | torch_qint32 => Some 4
  | _ => None
  end.

Definition get_size_in_bytes `{TorchDtypes} (d : dtype) : Z :=
  match SPECIAL_DTYPE_SIZES d with
  | Some n => n
  | None => (info_bits d * (1 + (if is_complex d then 1 else 0))) / 8
  end.

Lemma get_size_in_bytes_pos `{TorchDtypes} d : 1 <= get_size_in_bytes d.
Proof.
  unfold get_size_in_bytes. pose proof (info_bits_pos d) as Hb.
  assert (Hq : 1 <= info_bits d * (1 + (if is_complex d then 1 else 0)) / 8).
  { apply Z.div_le_lower_bound; [lia|]. destruct (is_complex d); lia. }
  destruct d; simpl; lia.
Qed.

(** ** [shield_and_wait]

    The caller is cancelled [cancels] times while the shielded task runs; the task then ends
    with [task].  [cancel_exc] records whether a cancellation was caught.  One unit of fuel is
    one turn of the [while True] loop. *)

Fixpoint shield_and_wait {A} (fuel : nat) (cancels : nat) (task : result A) (cancel_exc : bool)
    : option (result A) :=
  match fuel with
  | O => None
  | S fuel' =>
      match cancels with
      | S k => shield_and_wait fuel' k task true
      | O =>
          match task with
          | Err CancelledError => shield_and_wait fuel' O task true
          | Err e => Some (Err e)
          | Ok a => Some (if cancel_exc then Err CancelledError else Ok a)
          end
      end
  end.

(** The task always runs to its end before the caller resumes: its result is returned,
    or the cancellation is re-raised if the caller was cancelled in the meantime; an exception
    of the task itself takes precedence. *)
Theorem shield_and_wait_waits {A} cancels (task : result A) fuel :
  task <> Err CancelledError -> (cancels < fuel)%nat ->
  shield_and_wait fuel cancels task false
  = Some (match task with
          | Ok a => match cancels with O => Ok a | S _ => Err CancelledError end
          | Err e => Err e
          end).
Proof.
  intros Ht.
  assert (Hgen : forall k fuel c, (k < fuel)%nat ->
            shield_and_wait fuel k task c
            = Some (match task with
                    | Ok a => match k, c with O, false => Ok a | _, _ => Err CancelledError end
                    | Err e => Err e end)).
  { induction k as [|k IH]; intros [|f] c Hk; try lia; simpl.
    - destruct task as [a|e]; [by destruct c|by destruct e].
    - rewrite IH by lia. destruct task as [a|e]; [by destruct k|done]. }
  intros Hf. rewrite Hgen by done. by destruct task, cancels.
Qed.

Lemma shield_and_wait_waits_witness :
  shield_and_wait 3 2 (Ok 7) false = Some (Err CancelledError).
Proof. apply (shield_and_wait_waits 2 (Ok 7) 3); [done|lia]. Defined.

(** If the task itself is cancelled, [asyncio.shield] keeps raising [CancelledError] and the
    loop never ends. *)
Theorem shield_and_wait_cancelled_task_spins {A} fuel cancels c :
  shield_and_wait (A := A) fuel cancels (Err CancelledError) c = None.
Proof. revert cancels c. induction fuel as [|f IH]; intros [|k] c; simpl; auto. Qed.

(** ** PingAggregator

    [hivemind.TimedStorage] is a map whose entries expire; the program uses these operations. *)

Class TimedStorage (K V : Type) := {
  ts_storage : Type;
  ts_get : ts_storage -> K -> option V;
  ts_store : ts_storage -> K -> V -> pyfloat -> ts_storage;
  ts_items : ts_storage -> list (K * V);
}.

Section ping.
Context {PI : PeerIds} {TS : TimedStorage PeerID pyfloat}.

Record PingAggregator := mkPing {
  pa_ema_alpha : pyfloat;
  pa_expiration : pyfloat;
  pa_ping_emas : ts_storage;
}.

Definition default_ema_alpha : pyfloat := f_lit 2 10.

(** The smoothed value for one peer. *)
Definition smooth_rtt (alpha : pyfloat) (prev : option pyfloat) (rtt : pyfloat) : pyfloat :=
  match prev with
  | Some p => if negb (f_eq p f_inf)
              then f_add (f_mul alpha rtt) (f_mul (f_sub f_one alpha) p)
              else rtt
  | None => rtt
  end.

(** [PingAggregator.ping], given the round-trip times just measured and the DHT time. *)
Definition ping (pa : PingAggregator) (now : pyfloat) (current_rtts : list (PeerID * pyfloat))
    : PingAggregator :=
  let expiration := f_add now (pa_expiration pa) in
  mkPing (pa_ema_alpha pa) (pa_expiration pa)
    (fold_left
       (fun st pr =>
          ts_store st (fst pr) (smooth_rtt (pa_ema_alpha pa) (ts_get st (fst pr)) (snd pr)) expiration)
       current_rtts (pa_ping_emas pa)).

Definition pa_to_dict (pa : PingAggregator) : list (PeerID * pyfloat) := ts_items (pa_ping_emas pa).

(** One [ping]: the seconds that it took, unless it failed with a message; a peer whose DHT is in client mode answers that
    it has no such protocol. *)
Definition ping_peer (elapsed : pyfloat) (failure : option string) : pyfloat :=
  match failure with
  | None => elapsed
  | Some message => if String.eqb message "protocol not supported" then elapsed else f_inf
  end.

(** [dict(zip(peer_ids, rpc_infos))] *)
Definition ping_parallel (peer_ids : list PeerID) (outcome : PeerID -> pyfloat * option string) : list (PeerID * pyfloat) :=
  fold_left (fun d p => dset d p (ping_peer (outcome p).1 (outcome p).2)) peer_ids [].

(** Every peer that is asked has an entry, and only those. *)
Lemma ping_parallel_get peer_ids outcome p : dget (ping_parallel peer_ids outcome) p =
  if decide (p ∈ peer_ids) then Some (ping_peer (outcome p).1 (outcome p).2) else None.
Proof.
  unfold ping_parallel. induction peer_ids as [|q l IH] using rev_ind; [by rewrite decide_False by (by intros ?%elem_of_nil)|].
  rewrite fold_left_app. cbn [fold_left]. rewrite dget_dset. destruct (decide (q = p)) as [->|Hne].
  - rewrite decide_True; [done|]. apply elem_of_app. right. by left.
  - rewrite IH. destruct (decide (p ∈ l)) as [Hin|Hin], (decide (p ∈ l ++ [q])) as [Ho|Ho]; try done.
    + exfalso. apply Ho, elem_of_app. by left.
    + apply elem_of_app in Ho as [?|Ho%list_elem_of_singleton]; [done|congruence].
Qed.
End ping.
