(* ===== verification/Dht.v ===== *)
(** * Dht: [src/src/peerz/utils/dht.py]

    Announcing blocks in the hivemind DHT, reading the announcements back, and
    [compute_spans], which turns them into one span of blocks per server. *)

From S2P Require Import Prelude PyString PyFloat PyDict DataStructures.

Section dht.
Context {PI : PeerIds}.

(** ** Storing and fetching *)

(** What [node.store_many] is asked to store: (key, subkey, value, expiration). *)
Definition store_entry : Type := string * string * list pyval * pyfloat.

(** [declare_active_modules]: the checks on the uids, then [_declare_active_modules]. *)
Definition _declare_active_modules (own_peer : PeerID) (uids : list string) (info : ServerInfo)
    (expiration_time : pyfloat) : list store_entry :=
  map (fun uid => (uid, to_base58 own_peer, to_tuple info, expiration_time)) uids.

Definition declare_active_modules (own_peer : PeerID) (uids : list string) (info : ServerInfo)
    (expiration_time : pyfloat) : result (list store_entry) :=
  _ ← assert_ (forallb (fun uid => str_contains UID_DELIMITER uid
                                   && negb (str_contains CHAIN_DELIMITER uid)) uids);
  Ok (_declare_active_modules own_peer uids info expiration_time).

(** A value found under a key: the dictionary of subkeys, or anything else. *)
Inductive DHTValue :=
  | DictValue (d : list (string * pyval))
  | OtherValue.

(** One entry of the inner loop: skipped when the adapter is missing or when decoding it
    raises [TypeError] or [ValueError]; any other exception propagates. *)
Definition add_server `{Pydantic} (active_adapter : option string)
    (servers : list (PeerID * ServerInfo)) (entry : string * pyval)
    : result (list (PeerID * ServerInfo)) :=
  match (p ← get_or ValueError (from_base58 (fst entry));
         info ← from_tuple (snd entry);
         Ok (p, info)) with
  | Ok (p, info) =>
      match active_adapter with
      | Some a =>
          if negb (bool_decide (a = "")) && negb (bool_decide (a ∈ si_adapters info))
          then Ok servers
          else Ok (dset servers p info)
      | None => Ok (dset servers p info)
      end
  | Err TypeError | Err ValueError => Ok servers
  | Err e => Err e
  end.

(** The body of the outer loop: [found[module_info.uid]] and the servers under it. *)
Definition fetch_module `{Pydantic} (found : string -> option DHTValue)
    (active_adapter : option string) (uid : string) : result RemoteModuleInfo :=
  match found uid with
  | Some (DictValue d) =>
      servers ← foldR (add_server active_adapter) [] d;
      Ok (mkModuleInfo uid servers)
  | Some OtherValue | None => Ok (mkModuleInfo uid [])
  end.

(** [_get_remote_module_infos]; [found] is what [node.get_many] returned. *)
Definition _get_remote_module_infos `{Pydantic} (found : string -> option DHTValue)
    (uids : list string) (active_adapter : option string) (expiration_time : option pyfloat)
    (latest : bool) : result (list RemoteModuleInfo) :=
  _ ← (if latest then assert_ (match expiration_time with None => true | Some _ => false end)
       else Ok ());
  mapR (fetch_module found active_adapter) uids.

Definition get_remote_module_infos `{Pydantic} (found : string -> option DHTValue)
    (uids : list string) (active_adapter : option string) (latest : bool)
    : result (list RemoteModuleInfo) :=
  _get_remote_module_infos found uids active_adapter None latest.

(** ** compute_spans *)

(** [list(enumerate(l))] *)
Definition enumerate {A} (l : list A) : list (Z * A) := zip (zrange 0 (zlen l)) l.

(** The span created for a server seen for the first time, or in a better state. *)
Definition fresh_span (block_offset num_blocks block_idx : Z) (peer_id : PeerID)
    (server_info : ServerInfo) : RemoteSpanInfo :=
  match si_start_block server_info, si_end_block server_info with
  | Some s, Some e =>
      mkSpan peer_id (Z.max (s - block_offset) 0) (Z.min (e - block_offset) num_blocks)
             server_info
  | _, _ => mkSpan peer_id block_idx (block_idx + 1) server_info
  end.

(** The body of the inner loop. *)
Definition span_step (block_offset num_blocks : Z) (min_state : ServerState)
    (spans : list (PeerID * RemoteSpanInfo)) (ev : Z * (PeerID * ServerInfo))
    : list (PeerID * RemoteSpanInfo) :=
  let '(block_idx, (peer_id, server_info)) := ev in
  if state_value (si_state server_info) <? state_value min_state then spans
  else
    let fresh := fresh_span block_offset num_blocks block_idx peer_id server_info in
    match dget spans peer_id with
    | None => dset spans peer_id fresh
    | Some sp =>
        if state_value (sp_state sp) <? state_value (si_state server_info)
        then dset spans peer_id fresh
        else if decide (sp_state sp = si_state server_info)
             then dset spans peer_id (sp_with_end sp (Z.max (sp_end sp) (block_idx + 1)))
             else spans
    end.

(** [sorted(module_info.servers.items())]: the keys are distinct, so the infos are never
    compared. *)
Definition sorted_items (servers : list (PeerID * ServerInfo)) : list (PeerID * ServerInfo) :=
  py_sorted (fun a b => peer_lt (fst a) (fst b)) servers.

(** [parse_uid(module_infos[0].uid)[1] if module_infos else 0] *)
Definition block_offset (module_infos : list RemoteModuleInfo) : result Z :=
  match module_infos with
  | [] => Ok 0
  | m :: _ => p ← parse_uid (rm_uid m); Ok (snd p)
  end.

Definition compute_spans (module_infos : list RemoteModuleInfo) (min_state : ServerState)
    : result (list (PeerID * RemoteSpanInfo)) :=
  off ← block_offset module_infos;
  Ok (fold_left
        (fun spans im =>
           fold_left (fun spans s => span_step off (zlen module_infos) min_state
                                       spans (fst im, s))
                     (sorted_items (rm_servers (snd im))) spans)
        (enumerate module_infos) []).

(** ** The announcements, block by block *)

Definition span_events (module_infos : list RemoteModuleInfo) : list (Z * (PeerID * ServerInfo)) :=
  im ← enumerate module_infos;
  (fun s => (im.1, s)) <$> sorted_items (rm_servers im.2).

Lemma enumerate_lookup {A} (l : list A) i x :
  (i, x) ∈ enumerate l <-> 0 <= i /\ l !! Z.to_nat i = Some x.
Proof.
  unfold enumerate. rewrite list_elem_of_lookup. split.
  - intros [k Hk]. apply lookup_zip_Some in Hk as [H1 H2].
    unfold zrange in H1. apply lookup_seqZ in H1. split; [lia|].
    by replace (Z.to_nat i) with k by lia.
  - intros [Hi Hx]. exists (Z.to_nat i). apply lookup_zip_Some. split; [|done].
    apply lookup_lt_Some in Hx as Hl. unfold zrange. apply lookup_seqZ. unfold zlen. lia.
Qed.

Lemma fold_left_bind {A B S} (g : A -> list B) (f : S -> B -> S) l s :
  fold_left (fun s x => fold_left f (g x) s) l s = fold_left f (l ≫= g) s.
Proof.
  revert s. induction l as [|x l IH]; intros s; simpl; [done|].
  rewrite IH. by rewrite fold_left_app.
Qed.

Lemma fold_left_fmap {A B S} (g : A -> B) (f : S -> B -> S) l s :
  fold_left (fun s x => f s (g x)) l s = fold_left f (g <$> l) s.
Proof. revert s. induction l; intros s; simpl; auto. Qed.

Lemma compute_spans_events infos min_state off :
  block_offset infos = Ok off ->
  compute_spans infos min_state
  = Ok (fold_left (span_step off (zlen infos) min_state) (span_events infos) []).
Proof.
  intros H. unfold compute_spans. rewrite H. simpl. f_equal.
  unfold span_events. rewrite <- fold_left_bind. apply fold_left_ext. intros spans im.
  by rewrite <- fold_left_fmap.
Qed.

Lemma elem_of_span_events infos i p info :
  (i, (p, info)) ∈ span_events infos <->
  exists m, 0 <= i /\ infos !! Z.to_nat i = Some m /\ (p, info) ∈ rm_servers m.
Proof.
  unfold span_events. rewrite list_elem_of_bind. split.
  - intros [[j m] [Hin Hm]]. apply list_elem_of_fmap in Hin as (s & [= -> ->] & Hs).
    apply enumerate_lookup in Hm as [? ?]. exists m. split; [done|]. split; [done|].
    unfold sorted_items in Hs. by apply elem_of_py_sorted in Hs.
  - intros (m & Hi & Hm & Hs). exists (i, m). split.
    + apply list_elem_of_fmap. exists (p, info). split; [done|].
      simpl. unfold sorted_items. by apply elem_of_py_sorted.
    + by apply enumerate_lookup.
Qed.

(** ** What a span is made of: the announcements of its own peer only *)

Definition of_peer (p : PeerID) (ev : Z * (PeerID * ServerInfo)) : Prop := ev.2.1 = p.

#[local] Instance of_peer_dec p ev : Decision (of_peer p ev).
Proof. unfold of_peer. apply _. Defined.

Lemma span_step_other off n ms spans ev p :
  ev.2.1 <> p -> dget (span_step off n ms spans ev) p = dget spans p.
Proof.
  destruct ev as [i [q info]]. simpl. intros Hne.
  repeat (case_match; simpl; try done); by apply dget_dset_ne.
Qed.

Lemma span_step_wf off n ms spans ev : dict_wf spans -> dict_wf (span_step off n ms spans ev).
Proof.
  destruct ev as [i [q info]]. simpl. intros Hwf.
  repeat (case_match; simpl; try done); by apply dict_wf_dset.
Qed.

(** The span's own invariant: it belongs to its key, starts at a block index, ends inside
    the window and is in at least the requested state. *)
Definition span_ok (n : Z) (ms : ServerState) (p : PeerID) (sp : RemoteSpanInfo) : Prop :=
  sp_peer_id sp = p /\ 0 <= sp_start sp /\ sp_end sp <= n /\ state_value ms <= state_value (sp_state sp).

Definition spans_ok (n : Z) (ms : ServerState) (spans : list (PeerID * RemoteSpanInfo)) : Prop :=
  dict_wf spans /\ forall p sp, dget spans p = Some sp -> span_ok n ms p sp.

Lemma span_step_ok off n ms spans ev :
  0 <= ev.1 < n -> spans_ok n ms spans -> spans_ok n ms (span_step off n ms spans ev).
Proof.
  intros Hi [Hwf Hok]. split; [by apply span_step_wf|]. intros p sp.
  destruct (decide (ev.2.1 = p)) as [<-|Hne].
  2:{ rewrite span_step_other by done. apply Hok. }
  destruct ev as [i [q info]]. simpl in *.
  destruct (Z.ltb_spec (state_value (si_state info)) (state_value ms)); [apply Hok|].
  assert (Hf : span_ok n ms q (fresh_span off n i q info)).
  { unfold fresh_span, span_ok. destruct (si_start_block info), (si_end_block info);
      unfold sp_state; simpl; repeat split; lia. }
  destruct (dget spans q) as [sp0|] eqn:E.
  - specialize (Hok q sp0 E) as (H1 & H2 & H3 & H4).
    destruct (_ <? _); [rewrite dget_dset_eq; by intros [= <-]|].
    destruct (decide _) as [Hs|]; rewrite ?dget_dset_eq, ?E; intros [= <-]; [|done].
    unfold span_ok, sp_state in *. simpl. repeat split; [done|done|lia|done].
  - rewrite dget_dset_eq. by intros [= <-].
Qed.

Lemma span_events_range infos ev : ev ∈ span_events infos -> 0 <= ev.1 < zlen infos.
Proof.
  destruct ev as [i [p info]]. rewrite elem_of_span_events. intros (m & Hi & Hm & _).
  apply lookup_lt_Some in Hm. unfold zlen. simpl. lia.
Qed.

Lemma compute_spans_offset infos ms spans :
  compute_spans infos ms = Ok spans ->
  exists off, block_offset infos = Ok off
    /\ spans = fold_left (span_step off (zlen infos) ms) (span_events infos) [].
Proof.
  intros H. pose proof H as H'. unfold compute_spans in H'. inv_ok. eexists. split; [done|].
  erewrite compute_spans_events in H by done. by inv_ok.
Qed.

(** Computed spans are well formed. *)
Lemma computed_spans_ok infos ms spans :
  compute_spans infos ms = Ok spans -> spans_ok (zlen infos) ms spans.
Proof.
  intros H. apply compute_spans_offset in H as (off & _ & ->).
  apply fold_left_invariant.
  - intros s ev Hev Hs. apply span_step_ok; [by apply span_events_range|done].
  - split; [apply dict_wf_nil|]. done.
Qed.

(** Every span that [compute_spans] returns is stored under its own peer, lies within the
    window of blocks that was asked for, and belongs to a server in at least [min_state]. *)
Theorem compute_spans_ok infos ms spans :
  compute_spans infos ms = Ok spans -> spans_ok (zlen infos) ms spans.
Proof. apply computed_spans_ok. Qed.

(** ** Consistent announcements *)

(** Every server announces one record for all its blocks, and is found only under the record's blocks
    [start_block, end_block).  It may be missing under some of them. *)
Definition consistent (off : Z) (infos : list RemoteModuleInfo) : Prop :=
  forall i m p info, 0 <= i -> infos !! Z.to_nat i = Some m -> (p, info) ∈ rm_servers m ->
    exists s e, si_start_block info = Some s /\ si_end_block info = Some e /\ s <= off + i < e /\
      forall j m' info', 0 <= j -> infos !! Z.to_nat j = Some m' -> (p, info') ∈ rm_servers m' -> info' = info.

Definition announced (off n : Z) (p : PeerID) (info : ServerInfo) : RemoteSpanInfo :=
  mkSpan p (Z.max (or_default (si_start_block info) 0 - off) 0)
           (Z.min (or_default (si_end_block info) 0 - off) n) info.

Lemma span_step_consistent off n ms spans i p info s e :
  si_start_block info = Some s -> si_end_block info = Some e -> s <= off + i < e ->
  0 <= i < n -> state_value ms <= state_value (si_state info) ->
  (dget spans p = None \/ dget spans p = Some (announced off n p info)) ->
  dget (span_step off n ms spans (i, (p, info))) p = Some (announced off n p info).
Proof.
  intros Hs He Hi Hn Hms Hd. simpl.
  destruct (Z.ltb_spec (state_value (si_state info)) (state_value ms)); [lia|].
  assert (Ha : announced off n p info
               = mkSpan p (Z.max (s - off) 0) (Z.min (e - off) n) info).
  { unfold announced. by rewrite Hs, He. }
  unfold fresh_span. rewrite Hs, He, <- Ha. destruct Hd as [-> | ->].
  - apply dget_dset_eq.
  - rewrite Ha. unfold sp_state. simpl. rewrite Z.ltb_irrefl, decide_True by done.
    rewrite dget_dset_eq. unfold sp_with_end. simpl. do 2 f_equal. lia.
Qed.

Lemma consistent_fold off n ms p info evs spans :
  (forall ev, ev ∈ evs -> 0 <= ev.1 < n /\
     (ev.2.1 = p -> ev.2.2 = info /\
        exists s e, si_start_block info = Some s /\ si_end_block info = Some e /\ s <= off + ev.1 < e)) ->
  state_value ms <= state_value (si_state info) ->
  (dget spans p = None \/ dget spans p = Some (announced off n p info)) ->
  dget (fold_left (span_step off n ms) evs spans) p
  = if decide (Exists (of_peer p) evs) then Some (announced off n p info) else dget spans p.
Proof.
  intros Hevs Hms. revert spans. induction evs as [|[i [q info']] evs IH]; intros spans Hd; [done|].
  cbn [fold_left]. rewrite IH.
  - destruct (decide (q = p)) as [->|Hne].
      * destruct (Hevs (i, (p, info')) ltac:(left)) as [Hn Hp]. simpl in Hn, Hp.
        destruct (Hp eq_refl) as (-> & s & e & Hs & He & Hse).
        rewrite (span_step_consistent off n ms spans i p info s e) by done.
        rewrite (decide_True (P := Exists (of_peer p) (_ :: _))) by by left.
        by destruct (decide _).
      * rewrite span_step_other by done.
        destruct (decide (Exists (of_peer p) evs)) as [He|He].
        -- rewrite decide_True by by right. done.
        -- rewrite decide_False; [done|]. rewrite Exists_cons. unfold of_peer. simpl. tauto.
  - intros ev Hev. apply Hevs. by right.
  - destruct (decide (q = p)) as [->|Hne].
      * right. destruct (Hevs (i, (p, info')) ltac:(left)) as [Hn Hp]. simpl in Hn, Hp.
        destruct (Hp eq_refl) as (-> & s & e & Hs & He & Hse).
        by apply (span_step_consistent off n ms spans i p info s e).
      * by rewrite span_step_other.
Qed.

Lemma span_fold_origin off n ms p evs spans sp :
  dget (fold_left (span_step off n ms) evs spans) p = Some sp ->
  is_Some (dget spans p) \/
  exists i info, (i, (p, info)) ∈ evs /\ state_value ms <= state_value (si_state info).
Proof.
  revert spans. induction evs as [|[i [q info]] evs IH]; intros spans H; [left; eauto|].
  apply IH in H as [Hs|(j & info' & Hin & Hst)].
  2:{ right. exists j, info'. split; [by right|done]. }
  destruct (decide (q = p)) as [->|Hne]; [|rewrite span_step_other in Hs by done; by left].
  simpl in Hs. destruct (Z.ltb_spec (state_value (si_state info)) (state_value ms)); [by left|].
  right. exists i, info. split; [by left|done].
Qed.

Lemma consistent_events off infos i p info :
  consistent off infos -> (i, (p, info)) ∈ span_events infos ->
  forall ev, ev ∈ span_events infos -> 0 <= ev.1 < zlen infos /\
     (ev.2.1 = p -> ev.2.2 = info /\
        exists s e, si_start_block info = Some s /\ si_end_block info = Some e /\ s <= off + ev.1 < e).
Proof.
  intros Hc Hin [j [q info']] Hev. split; [by apply span_events_range|]. simpl. intros ->.
  apply elem_of_span_events in Hin as (m & Hi & Hm & Hs).
  apply elem_of_span_events in Hev as (m' & Hj & Hm' & Hs').
  destruct (Hc i m p info Hi Hm Hs) as (s & e & _ & _ & _ & Hall).
  pose proof (Hall j m' info' Hj Hm' Hs') as ->.
  split; [done|]. destruct (Hc j m' p info Hj Hm' Hs') as (s' & e' & ? & ? & ? & _). eauto.
Qed.

Lemma spans_exact infos off ms spans :
  block_offset infos = Ok off -> consistent off infos -> compute_spans infos ms = Ok spans ->
  (forall i m p info, 0 <= i -> infos !! Z.to_nat i = Some m -> (p, info) ∈ rm_servers m ->
     state_value ms <= state_value (si_state info) ->
     dget spans p = Some (announced off (zlen infos) p info) /\
     sp_start (announced off (zlen infos) p info) <= i < sp_end (announced off (zlen infos) p info)) /\
  (forall p sp, dget spans p = Some sp ->
     exists i m info, 0 <= i /\ infos !! Z.to_nat i = Some m /\ (p, info) ∈ rm_servers m /\
       state_value ms <= state_value (si_state info) /\
       sp = announced off (zlen infos) p info).
Proof.
  intros Hoff Hc H. rewrite (compute_spans_events _ _ off) in H by done. inv_ok.
  assert (Hmain : forall i p info, (i, (p, info)) ∈ span_events infos ->
            state_value ms <= state_value (si_state info) ->
            dget (fold_left (span_step off (zlen infos) ms) (span_events infos) []) p
            = Some (announced off (zlen infos) p info)).
  { intros i p info Hin Hms.
    rewrite (consistent_fold off (zlen infos) ms p info); [|by eapply consistent_events|done|by left].
    rewrite decide_True; [done|]. apply Exists_exists. by exists (i, (p, info)). }
  split.
  - intros i m p info Hi Hm Hs Hms.
    assert (Hin : (i, (p, info)) ∈ span_events infos) by (apply elem_of_span_events; eauto).
    split; [by eapply Hmain|].
    destruct (consistent_events off infos i p info Hc Hin _ Hin) as [Hr Hse]. simpl in *.
    destruct (Hse eq_refl) as (_ & s & e & -> & -> & ?). simpl. lia.
  - intros p sp Hsp. pose proof Hsp as Ho. apply span_fold_origin in Ho as [[? [=]]|(i & info & Hin & Hms)].
    rewrite (Hmain i p info) in Hsp by done. injection Hsp as <-.
    apply elem_of_span_events in Hin as (m & ? & ? & ?). exists i, m, info. auto.
Qed.

(** When the announcements are consistent, the span computed for a server found in a
    sufficient state is exactly the part of the window that it announced, and contains every
    block under which it is found; and every span comes from such a server. *)
Theorem compute_spans_exact infos off ms spans :
  block_offset infos = Ok off -> consistent off infos -> compute_spans infos ms = Ok spans ->
  (forall i m p info, 0 <= i -> infos !! Z.to_nat i = Some m -> (p, info) ∈ rm_servers m ->
     state_value ms <= state_value (si_state info) ->
     dget spans p = Some (announced off (zlen infos) p info) /\
     sp_start (announced off (zlen infos) p info) <= i < sp_end (announced off (zlen infos) p info)) /\
  (forall p sp, dget spans p = Some sp ->
     exists i m info, 0 <= i /\ infos !! Z.to_nat i = Some m /\ (p, info) ∈ rm_servers m /\
       state_value ms <= state_value (si_state info) /\
       sp = announced off (zlen infos) p info).
Proof. apply spans_exact. Qed.

Lemma compute_spans_total infos ms off :
  block_offset infos = Ok off -> is_ok (compute_spans infos ms) = true.
Proof. intros H. unfold compute_spans. by rewrite H. Qed.

(** ** Reading the announcements back *)

Lemma add_server_ok `{Pydantic} adapter servers entry :
  is_ok (add_server adapter servers entry) = true.
Proof.
  unfold add_server.
  assert (Htv : type_or_value (p ← get_or ValueError (from_base58 entry.1);
                               info ← from_tuple entry.2; Ok (p, info))).
  { apply tv_bind; [apply tv_get|intros p]. apply tv_bind; [apply tv_from_tuple|done]. }
  destruct (p ← _; _) as [[p info]|e]; simpl in *.
  - destruct adapter; [case_if|]; done.
  - by destruct Htv as [-> | ->].
Qed.

Lemma foldR_ok {A S} (f : S -> A -> result S) s l :
  (forall s x, is_ok (f s x) = true) -> exists s', foldR f s l = Ok s'.
Proof.
  intros Hf. revert s. induction l as [|x l IH]; intros s; simpl; [eauto|].
  specialize (Hf s x). destruct (f s x); [apply IH|done].
Qed.

(** The servers admitted for a given adapter ([None] and [""] admit every server). *)
Definition has_adapter (adapter : option string) (info : ServerInfo) : Prop :=
  match adapter with Some a => a = "" \/ a ∈ si_adapters info | None => True end.

Lemma add_server_inv `{Pydantic} adapter servers entry servers' :
  dict_wf servers /\ (forall p info, (p, info) ∈ servers -> has_adapter adapter info) ->
  add_server adapter servers entry = Ok servers' ->
  dict_wf servers' /\ (forall p info, (p, info) ∈ servers' -> has_adapter adapter info).
Proof.
  intros [Hwf Had]. unfold add_server.
  destruct (p ← _; _) as [[p info]|e].
  - assert (Hset : has_adapter adapter info -> dict_wf (dset servers p info) /\
              forall q info', (q, info') ∈ dset servers p info -> has_adapter adapter info').
    { intros Ha. split; [by apply dict_wf_dset|]. intros q info' [[= -> ->]|Hin]%elem_dset; eauto. }
    destruct adapter as [a|]; simpl in *.
    + destruct (bool_decide_reflect (a = "")); simpl; [intros [= <-]; auto|].
      destruct (bool_decide_reflect (a ∈ si_adapters info)); simpl; intros [= <-]; auto.
    + intros [= <-]. auto.
  - by destruct e; intros [= <-].
Qed.

Lemma fetch_module_ok `{Pydantic} found adapter uid :
  exists m, fetch_module found adapter uid = Ok m /\ rm_uid m = uid /\ dict_wf (rm_servers m) /\
    forall p info, (p, info) ∈ rm_servers m -> has_adapter adapter info.
Proof.
  unfold fetch_module. destruct (found uid) as [[d|]|].
  2,3: eexists; split; [done|]; split; [done|]; split; [apply dict_wf_nil|by intros ?? Hin; inversion Hin].
  destruct (foldR_ok (add_server adapter) [] d (add_server_ok adapter)) as [s Hs].
  rewrite Hs. eexists. split; [done|]. split; [done|]. simpl.
  eapply (foldR_invariant (fun s => dict_wf s /\ forall p info, (p, info) ∈ s -> has_adapter adapter info));
    [|split; [apply dict_wf_nil|by intros ?? Hin; inversion Hin]|exact Hs].
  intros s0 x s' _. apply add_server_inv.
Qed.

(** One entry per requested block, whatever was announced. *)
Lemma module_infos_total `{Pydantic} found uids adapter :
  exists modules, get_remote_module_infos found uids adapter true = Ok modules /\
    map rm_uid modules = uids /\
    Forall (fun m => dict_wf (rm_servers m) /\
                     forall p info, (p, info) ∈ rm_servers m -> has_adapter adapter info) modules.
Proof.
  unfold get_remote_module_infos, _get_remote_module_infos. simpl.
  induction uids as [|uid uids (ms & IH & Huid & HF)]; simpl; [exists []; auto|].
  destruct (fetch_module_ok found adapter uid) as (m & -> & <- & ?).
  exists (m :: ms). rewrite IH. simpl. split; [done|]. split; [by f_equal|]. by constructor.
Qed.

(** no entry of the DHT, however malformed, makes the fetch fail: it returns one module
    per requested uid, in order, each with distinct servers that all carry the adapter. *)
Theorem get_remote_module_infos_total `{Pydantic} found uids adapter :
  exists modules, get_remote_module_infos found uids adapter true = Ok modules /\
    map rm_uid modules = uids /\
    Forall (fun m => dict_wf (rm_servers m) /\
                     forall p info, (p, info) ∈ rm_servers m -> has_adapter adapter info) modules.
Proof. apply module_infos_total. Qed.

(** What a server stores is what a client reads: one announcement, fetched and decoded. *)
Lemma add_server_announced `{Pydantic} servers p info :
  valid_info info = true ->
  add_server None servers (to_base58 p, PList (to_tuple info)) = Ok (dset servers p info).
Proof.
  intros Hv. unfold add_server. cbn [fst snd]. rewrite from_to_base58.
  unfold get_or, mbind, result_bind. by rewrite tuple_roundtrip.
Qed.
End dht.

(** ** A small swarm *)

Definition swarm_info (st : ServerState) (s e : Z) : ServerInfo :=
  mkServerInfo st (f_of_Z 10) (Some s) (Some e) None None None None None [] None None None None None.

(** Blocks 2..5 of a model: servers 1 ([2,4)), 2 ([3,6)) and 3 ([4,6), still joining). *)
Definition swarm : list (@RemoteModuleInfo ZPeerIds) :=
  [ mkModuleInfo (PI := ZPeerIds) "m.2" [(1, swarm_info ONLINE 2 4)];
    mkModuleInfo (PI := ZPeerIds) "m.3" [(2, swarm_info ONLINE 3 6); (1, swarm_info ONLINE 2 4)];
    mkModuleInfo (PI := ZPeerIds) "m.4" [(3, swarm_info JOINING 4 6); (2, swarm_info ONLINE 3 6)];
    mkModuleInfo (PI := ZPeerIds) "m.5" [(2, swarm_info ONLINE 3 6); (3, swarm_info JOINING 4 6)] ].

(** [consistent] as a decidable check over the finite window. *)
Definition consistent_check {PI : PeerIds} (off : Z) (infos : list RemoteModuleInfo) : Prop :=
  Forall (fun im => Forall (fun s =>
    match si_start_block s.2, si_end_block s.2 with
    | Some b, Some e =>
        b <= off + im.1 < e /\
        Forall (fun jm => Forall (fun s' => s'.1 = s.1 -> s'.2 = s.2) (rm_servers jm.2)) (enumerate infos)
    | _, _ => False
    end) (rm_servers im.2)) (enumerate infos).

Lemma consistent_check_sound {PI : PeerIds} off infos : consistent_check off infos -> consistent off infos.
Proof.
  unfold consistent_check. rewrite Forall_forall. intros HF i m p info Hi Hm Hs.
  specialize (HF (i, m) (proj2 (enumerate_lookup _ _ _) (conj Hi Hm))).
  rewrite Forall_forall in HF. specialize (HF (p, info) Hs). simpl in HF.
  destruct (si_start_block info) as [b|], (si_end_block info) as [e|]; try done.
  destruct HF as [Hb HF]. exists b, e. split; [done|]. split; [done|]. split; [done|].
  intros j m' info' Hj Hm' Hin. rewrite Forall_forall in HF.
  pose proof (HF (j, m') (proj2 (enumerate_lookup _ _ _) (conj Hj Hm'))) as H1. simpl in H1.
  rewrite Forall_forall in H1. by apply (H1 (p, info') Hin).
Qed.

#[global] Instance consistent_check_dec {PI : PeerIds} off infos : Decision (consistent_check off infos).
Proof.
  apply Forall_dec. intros [i m]. apply Forall_dec. intros [p info]. simpl.
  destruct (si_start_block info), (si_end_block info); apply _.
Defined.

Lemma swarm_consistent : consistent (PI := ZPeerIds) 2 swarm.
Proof. apply consistent_check_sound. apply (bool_decide_unpack _). vm_compute. exact I. Qed.

Definition swarm_spans (ms : ServerState) : list (@PeerID ZPeerIds * RemoteSpanInfo) :=
  from_ok [] (compute_spans (PI := ZPeerIds) swarm ms).

Lemma swarm_spans_ok ms : compute_spans (PI := ZPeerIds) swarm ms = Ok (swarm_spans ms).
Proof. destruct ms; reflexivity. Qed.

(** The spans of the swarm above, ONLINE servers only: server 1 has [0,2) of the window. *)
Lemma compute_spans_exact_witness :
  dget (swarm_spans ONLINE) 1 = Some (announced (PI := ZPeerIds) 2 (zlen swarm) 1 (swarm_info ONLINE 2 4)).
Proof.
  refine (proj1 (proj1 (compute_spans_exact (PI := ZPeerIds) swarm 2 ONLINE (swarm_spans ONLINE)
    _ swarm_consistent (swarm_spans_ok ONLINE)) 0 (mkModuleInfo (PI := ZPeerIds) "m.2" [(1, swarm_info ONLINE 2 4)])
    1 (swarm_info ONLINE 2 4) _ _ _ _)).
  - reflexivity.
  - lia.
  - reflexivity.
  - left.
  - simpl. lia.
Defined.

Lemma compute_spans_ok_witness : spans_ok (PI := ZPeerIds) (zlen swarm) JOINING (swarm_spans JOINING).
Proof. apply (compute_spans_ok (PI := ZPeerIds) swarm JOINING). apply swarm_spans_ok. Defined.
