(* ===== verification/BlockSelection.v ===== *)
(** * BlockSelection: [server/block_selection.py]

    Where a server places its span of blocks, and when it moves: throughput per block, the
    best start of a span, and the simulated rebalancing of the swarm. *)

From S2P Require Import Prelude PyString PyFloat PyDict DataStructures Utils Dht.

(** ** NumPy vectors of floats *)

(** [t[a:b] = f(t[a:b])], elementwise. *)
Definition slice_map (f : pyfloat -> pyfloat) (t : list pyfloat) (a b : Z) : list pyfloat :=
  let n := zlen t in
  let a' := clamp n a in
  let b' := clamp n b in
  imap (fun k x => if (a' <=? Z.of_nat k) && (Z.of_nat k <? b') then f x else x) t.

(** [t.min()]: an empty array raises [ValueError], a NaN is contagious. *)
Definition np_min (t : list pyfloat) : result pyfloat :=
  match t with
  | [] => Err ValueError
  | x :: l => Ok (if existsb is_nan t then SpecFloat.S754_nan else f_min_list x l)
  end.

(** [(list1, i1) < (list2, i2)] *)
Definition option_lt (x y : list pyfloat * Z) : bool :=
  if lex_eq (fst x) (fst y) then snd x <? snd y else lex_lt (fst x) (fst y).

(** [(sorted(throughputs[i : i + num_blocks]), i)] *)
Definition window (t : list pyfloat) (num_blocks i : Z) : list pyfloat :=
  py_sorted f_lt (zslice t i (i + num_blocks)).

Definition start_options (t : list pyfloat) (num_blocks : Z) : list (list pyfloat * Z) :=
  (fun i => (window t num_blocks i, i)) <$> zrange 0 (zlen t - num_blocks + 1).

Definition _choose_best_start (t : list pyfloat) (num_blocks : Z) : result Z :=
  snd <$> py_min option_lt (start_options t num_blocks).

Section block_selection.
Context {PI : PeerIds} {RND : PyRandom}.

(** [sorted(spans.values(), key=lambda span: span.peer_id)] *)
Definition spans_by_peer (spans : list (PeerID * RemoteSpanInfo)) : list RemoteSpanInfo :=
  py_sorted (fun a b => peer_lt (sp_peer_id a) (sp_peer_id b)) (dvalues spans).

Definition compute_throughputs (spans : list (PeerID * RemoteSpanInfo)) (total_blocks : Z) : list pyfloat :=
  fold_left (fun t sp => slice_map (fun x => f_add x (sp_throughput sp)) t (sp_start sp) (sp_end sp))
    (spans_by_peer spans) (replicate (Z.to_nat total_blocks) f_zero).

Definition choose_best_blocks (num_blocks : Z) (module_infos : list RemoteModuleInfo) : result (list Z) :=
  spans ← compute_spans module_infos JOINING;
  let throughputs := compute_throughputs spans (zlen module_infos) in
  start ← _choose_best_start throughputs num_blocks;
  mret (zrange start (start + num_blocks)).

Definition _move_span (sp : RemoteSpanInfo) (new_start : Z) : RemoteSpanInfo :=
  sp_with_end (sp_with_start sp new_start) (new_start + sp_length sp).

Definition eps : pyfloat := f_lit 1 1000.
Definition one_plus_eps : pyfloat := f_add f_one eps.

(** The state of the simulation: throughputs per block and the spans, updated in place. *)
Definition sim : Type := list pyfloat * list (PeerID * RemoteSpanInfo).

(** The body of [for peer_id in servers]: take the span off, find its best place, put it there. *)
Definition try_move (st : sim * bool) (p : PeerID) : result (sim * bool) :=
  let '((t, spans), moved) := st in
  sp ← get_or KeyError (dget spans p);
  let t1 := slice_map (fun x => f_sub x (f_mul (sp_throughput sp) one_plus_eps)) t (sp_start sp) (sp_end sp) in
  new_start ← _choose_best_start t1 (sp_length sp);
  let t2 := slice_map (fun x => f_add x (f_mul (sp_throughput sp) eps)) t1 (sp_start sp) (sp_end sp) in
  let move := negb (sp_start sp =? new_start) in
  let sp' := if move then _move_span sp new_start else sp in
  let spans' := if move then dset spans p sp' else spans in
  mret ((slice_map (fun x => f_add x (sp_throughput sp)) t2 (sp_start sp') (sp_end sp'), spans'), moved || move).

(** One turn of [while moved]. *)
Definition rebalance_pass (seed : Z) (st : sim) : result (sim * bool) :=
  foldR try_move (st, false) (random_shuffle seed (dkeys (snd st))).

(** [while moved]: [None] when the fuel does not suffice. *)
Fixpoint rebalance (fuel : nat) (seed : Z) (st : sim) : option (result sim) :=
  match fuel with
  | O => None
  | S fuel' =>
      match rebalance_pass seed st with
      | Err e => Some (Err e)
      | Ok (st', true) => rebalance fuel' (seed + 1) st'
      | Ok (st', false) => Some (Ok st')
      end
  end.

(** The server's own move, before the others react. [None]: it should stay where it is. *)
Definition local_move (spans : list (PeerID * RemoteSpanInfo)) (t : list pyfloat) (initial : pyfloat)
    (p : PeerID) : result (option sim) :=
  _ ← assert_ (dmem spans p);
  local_span ← get_or KeyError (dget spans p);
  let t1 := slice_map (fun x => f_sub x (f_mul (sp_throughput local_span) one_plus_eps)) t
              (sp_start local_span) (sp_end local_span) in
  m1 ← np_min t1;
  if f_lt eps initial && f_le m1 f_zero then mret None
  else
    new_start ← _choose_best_start t1 (sp_length local_span);
    if sp_start local_span =? new_start then mret None
    else
      let t2 := slice_map (fun x => f_add x (f_mul (sp_throughput local_span) eps)) t1
                  (sp_start local_span) (sp_end local_span) in
      let sp' := _move_span local_span new_start in
      mret (Some (slice_map (fun x => f_add x (sp_throughput sp')) t2 (sp_start sp') (sp_end sp'),
                  dset spans p sp')).

(** The verdict once the swarm has settled. [initial / new] does not raise: both are NumPy floats. *)
Definition judge (initial balance_quality : pyfloat) (st : sim) : result bool :=
  new_throughput ← np_min (fst st);
  if f_lt new_throughput initial || f_lt new_throughput eps then mret false
  else mret (f_lt (f_div initial new_throughput) (f_sub balance_quality eps)).

Definition should_choose_other_blocks (fuel : nat) (seed : Z) (local_peer_id : PeerID)
    (module_infos : list RemoteModuleInfo) (balance_quality : pyfloat) : option (result bool) :=
  if f_lt f_one balance_quality then Some (Ok true)
  else
    let setup :=
      spans ← compute_spans module_infos JOINING;
      let t := compute_throughputs spans (zlen module_infos) in
      initial ← np_min t;
      start ← local_move spans t initial local_peer_id;
      mret (initial, start) in
    match setup with
    | Err e => Some (Err e)
    | Ok (_, None) => Some (Ok false)
    | Ok (initial, Some st) =>
        match rebalance fuel seed st with
        | None => None
        | Some (Err e) => Some (Err e)
        | Some (Ok st') => Some (judge initial balance_quality st')
        end
    end.
End block_selection.

(** ** The order of the candidate positions *)

Lemma option_lt_irrefl x : no_nan (fst x) -> option_lt x x = false.
Proof.
  intros H. unfold option_lt. rewrite lex_lt_irrefl by done. case_if; lia.
Qed.

Lemma option_lt_asym x y :
  no_nan (fst x) -> no_nan (fst y) -> option_lt x y = true -> option_lt y x = false.
Proof.
  intros Hx Hy. unfold option_lt. rewrite !lex_eq_lt by done.
  pose proof (lex_lt_asym x.1 y.1 Hx Hy).
  destruct (lex_lt x.1 y.1), (lex_lt y.1 x.1); simpl; intros; try done; try lia.
Qed.

Lemma option_lt_trans x y z :
  no_nan (fst x) -> no_nan (fst y) -> no_nan (fst z) ->
  option_lt y x = false -> option_lt z y = false -> option_lt z x = false.
Proof.
  intros Hx Hy Hz. unfold option_lt. rewrite !lex_eq_lt by done.
  pose proof (lex_lt_nlt_trans x.1 y.1 z.1 Hx Hy Hz). pose proof (lex_lt_nlt_trans z.1 y.1 x.1 Hz Hy Hx).
  pose proof (lex_lt_nlt_trans y.1 z.1 x.1 Hy Hz Hx). pose proof (lex_lt_nlt_trans x.1 z.1 y.1 Hx Hz Hy).
  pose proof (lex_lt_nlt_trans y.1 x.1 z.1 Hy Hx Hz). pose proof (lex_lt_nlt_trans z.1 x.1 y.1 Hz Hx Hy).
  destruct (lex_lt x.1 y.1), (lex_lt y.1 x.1), (lex_lt y.1 z.1), (lex_lt z.1 y.1), (lex_lt x.1 z.1),
    (lex_lt z.1 x.1); simpl; try lia; intuition congruence.
Qed.

(** ** The best start *)

Lemma elem_of_zslice {A} (x : A) t a b : x ∈ zslice t a b -> x ∈ t.
Proof.
  unfold zslice. intros H. eapply elem_of_submseteq; [exact H|].
  etrans; [apply sublist_submseteq, sublist_take|apply sublist_submseteq, sublist_drop].
Qed.

Lemma window_no_nan t n i : no_nan t -> no_nan (window t n i).
Proof.
  intros H. unfold window. rewrite py_sorted_perm. apply Forall_forall. intros x Hx%elem_of_zslice.
  rewrite Forall_forall in H. auto.
Qed.

Lemma start_options_no_nan t n : no_nan t -> Forall (fun x => no_nan (fst x)) (start_options t n).
Proof.
  intros H. apply Forall_fmap, Forall_forall. intros i _. by apply window_no_nan.
Qed.

Lemma best_start_empty t n : zlen t < n -> _choose_best_start t n = Err ValueError.
Proof. intros H. unfold _choose_best_start, start_options. by rewrite zrange_nil by lia. Qed.

Lemma py_min_in {A} (lt : A -> A -> bool) l m : py_min lt l = Ok m -> m ∈ l.
Proof.
  destruct l as [|x l]; simpl; [done|]. intros [= <-]. revert x.
  induction l as [|y l IH]; intros x; simpl; [by left|].
  specialize (IH (if lt y x then y else x)). apply elem_of_cons in IH as [Hm|Hm]; [|by right; right].
  rewrite Hm. case_if; [by right; left|by left].
Qed.

(** The start is in range whatever the throughputs are, NaN included. *)
Lemma best_start_range t n i : _choose_best_start t n = Ok i -> 0 <= i <= zlen t - n.
Proof.
  unfold _choose_best_start. destruct (py_min _ _) as [m|] eqn:E; [|done]. intros [= <-].
  apply py_min_in, list_elem_of_fmap in E as (k & -> & Hk). apply elem_of_zrange in Hk. simpl. lia.
Qed.

Lemma choose_best_start_spec t n :
  no_nan t -> n <= zlen t ->
  exists i, _choose_best_start t n = Ok i /\ 0 <= i <= zlen t - n /\
    (forall j, 0 <= j <= zlen t - n -> lex_lt (window t n j) (window t n i) = false) /\
    (forall j, 0 <= j < i -> lex_lt (window t n i) (window t n j) = true).
Proof.
  intros Hnn Hn. destruct (_choose_best_start t n) as [i|] eqn:Hi.
  2:{ unfold _choose_best_start, start_options, py_min in Hi. by rewrite zrange_cons in Hi by lia. }
  pose proof (best_start_range _ _ _ Hi) as Hr. exists i. split; [done|]. split; [done|].
  unfold _choose_best_start, py_min in Hi. pose proof (start_options_no_nan t n Hnn) as HP.
  assert (Hopt : forall j, 0 <= j <= zlen t - n -> (window t n j, j) ∈ start_options t n).
  { intros j Hj. apply list_elem_of_fmap. exists j. split; [done|]. apply elem_of_zrange. lia. }
  assert (Hshape : forall x, x ∈ start_options t n -> x = (window t n (snd x), snd x)).
  { intros x (j & -> & _)%list_elem_of_fmap. done. }
  destruct (start_options t n) as [|x l] eqn:E; [done|]. injection Hi as Hi.
  apply Forall_cons in HP as [Hx HP].
  pose proof (py_min_fold option_lt (fun x => no_nan (fst x)) option_lt_irrefl option_lt_asym
    option_lt_trans l x Hx HP) as [Hin Hmin].
  set (m := fold_left _ l x) in *. apply Hshape in Hin. rewrite Hi in Hin. rewrite Hin in Hmin.
  assert (Hw : forall j, no_nan (window t n j)) by (intros; by apply window_no_nan).
  assert (Hlt : forall j, 0 <= j <= zlen t - n -> lex_lt (window t n j) (window t n i) = false).
  { intros j Hj. specialize (Hmin _ (Hopt j Hj)). unfold option_lt in Hmin. simpl in Hmin.
    rewrite lex_eq_lt in Hmin by done. destruct (lex_lt (window t n j) (window t n i)); done. }
  split; [done|]. intros j Hj. specialize (Hmin _ (Hopt j ltac:(lia))). unfold option_lt in Hmin.
  simpl in Hmin. rewrite lex_eq_lt, (Hlt j) in Hmin by (done || lia). simpl in Hmin.
  destruct (lex_lt (window t n i) (window t n j)); simpl in Hmin; [done|lia].
Qed.

(** ** The throughputs of the swarm *)

Lemma slice_map_length f t a b : zlen (slice_map f t a b) = zlen t.
Proof. unfold slice_map, zlen. by rewrite length_imap. Qed.

Lemma slice_map_Forall (P : pyfloat -> Prop) f t a b :
  (forall x, P x -> P (f x)) -> Forall P t -> Forall P (slice_map f t a b).
Proof.
  intros Hf Ht. unfold slice_map. apply Forall_lookup. intros i x.
  rewrite list_lookup_imap, fmap_Some. intros (y & Hy & ->). rewrite Forall_lookup in Ht.
  apply Ht in Hy. case_if; auto.
Qed.

Lemma sorted_head_min x l y :
  no_nan l -> head (py_sorted f_lt l) = Some y -> x ∈ l -> f_lt x y = false.
Proof.
  intros Hn Hy Hx. rewrite <- (elem_of_py_sorted f_lt) in Hx.
  pose proof (py_sorted_sorted f_lt _ f_lt_asym (fun x y z _ H _ => f_nlt_trans x y z H) l Hn) as Hs.
  destruct (py_sorted f_lt l) as [|h l']; [done|]. injection Hy as ->.
  apply elem_of_cons in Hx as [->|Hx]; [apply f_lt_irrefl|].
  inversion Hs as [|? ? _ Hf]. rewrite Forall_forall in Hf. by apply Hf.
Qed.

Lemma lex_lt_head a b x y l l' : a = x :: l -> b = y :: l' -> lex_lt a b = false -> f_lt x y = false.
Proof.
  intros -> ->. simpl. destruct (f_eq x y) eqn:E; [|done]. intros _.
  rewrite f_eq_key in E. rewrite f_lt_key.
  destruct (f_key x) as [[[? ?] ?]|], (f_key y) as [[[? ?] ?]|]; try done.
  apply bool_decide_eq_true in E. simplify_eq. simpl. lia.
Qed.

Lemma zslice_elem {A} (t : list A) i n k x :
  0 <= i -> i + n <= zlen t -> i <= k < i + n -> t !! Z.to_nat k = Some x -> x ∈ zslice t i (i + n).
Proof.
  unfold zlen. intros Hi Hn Hk Hx. rewrite zslice_full_range by lia.
  apply list_elem_of_lookup. exists (Z.to_nat (k - i)).
  rewrite lookup_take_lt by lia. rewrite lookup_drop. rewrite <- Hx. f_equal. lia.
Qed.

Lemma elem_zslice {A} (t : list A) i n x :
  0 <= i -> 0 <= n -> i + n <= zlen t -> x ∈ zslice t i (i + n) ->
  exists k, i <= k < i + n /\ t !! Z.to_nat k = Some x.
Proof.
  unfold zlen. intros Hi H0 Hn. rewrite zslice_full_range by lia.
  intros (k & Hk)%list_elem_of_lookup. apply lookup_take_Some in Hk as [Hk Hlt].
  rewrite lookup_drop in Hk. exists (i + Z.of_nat k). split; [lia|]. rewrite <- Hk. f_equal. lia.
Qed.

(** The best window contains a block whose throughput is the lowest of all. *)
Lemma best_start_weakest t n i :
  no_nan t -> 0 < n <= zlen t -> _choose_best_start t n = Ok i ->
  exists b y, i <= b < i + n /\ t !! Z.to_nat b = Some y /\ Forall (fun x => f_lt x y = false) t.
Proof.
  intros Hnn Hn Hi. destruct (choose_best_start_spec t n Hnn ltac:(lia)) as (i' & Hi' & Hr & Hmin & _).
  rewrite Hi in Hi'. injection Hi' as <-.
  assert (Hwin : forall j, 0 <= j <= zlen t - n -> exists h l, window t n j = h :: l).
  { intros j Hj. destruct (window t n j) as [|h l] eqn:E; [|eauto].
    apply (f_equal length) in E. unfold window in E. rewrite py_sorted_length in E.
    unfold zlen in *. rewrite zslice_length in E by lia. simpl in E. lia. }
  destruct (Hwin i Hr) as (y & l & Hy).
  assert (Hyin : y ∈ zslice t i (i + n)).
  { apply (elem_of_py_sorted f_lt). change (y ∈ window t n i). rewrite Hy. by left. }
  destruct (elem_zslice t i n y) as (b & Hb & Hby); [lia|lia|lia|done|].
  exists b, y. split; [done|]. split; [done|]. apply Forall_lookup. intros k x Hk.
  pose proof (lookup_lt_Some _ _ _ Hk) as Hlt. unfold zlen in *.
  set (j := Z.min (Z.of_nat k) (Z.of_nat (length t) - n)).
  destruct (Hwin j ltac:(lia)) as (h & l' & Hh).
  assert (Hno : forall a b, no_nan (zslice t a b)).
  { intros a' b'. apply Forall_forall. intros z Hz%elem_of_zslice. rewrite Forall_forall in Hnn. auto. }
  assert (Hhn : is_nan h = false).
  { specialize (Hno j (j + n)). rewrite Forall_forall in Hno. apply Hno, (elem_of_py_sorted f_lt).
    change (h ∈ window t n j). rewrite Hh. by left. }
  eapply (f_nlt_trans _ h); [done|eapply lex_lt_head; eauto; apply Hmin; lia|].
  eapply sorted_head_min; [apply (Hno j (j + n))|change (head (window t n j) = Some h); by rewrite Hh|].
  apply (zslice_elem t j n (Z.of_nat k)); [lia| | |by rewrite Nat2Z.id]; unfold zlen; lia.
Qed.

Section placement.
Context {PI : PeerIds} {RND : PyRandom}.

Definition valid_servers (infos : list RemoteModuleInfo) : Prop :=
  Forall (fun m => Forall (fun kv => valid_info kv.2 = true) (rm_servers m)) infos.

Lemma span_step_info (P : ServerInfo -> Prop) off n ms spans ev :
  P ev.2.2 -> (forall p sp, dget spans p = Some sp -> P (sp_server_info sp)) ->
  forall p sp, dget (span_step off n ms spans ev) p = Some sp -> P (sp_server_info sp).
Proof.
  destruct ev as [i [q info]]. simpl. intros Hi Hs p sp. case_if; [apply Hs|].
  assert (Hf : P (sp_server_info (fresh_span off n i q info))).
  { unfold fresh_span. by destruct (si_start_block info), (si_end_block info). }
  assert (Hset : forall sp', P (sp_server_info sp') ->
    dget (dset spans q sp') p = Some sp -> P (sp_server_info sp)).
  { intros sp' Hp. rewrite dget_dset. case_decide; [by intros [= <-]|apply Hs]. }
  destruct (dget spans q) as [sq|] eqn:Eq; [|by apply Hset].
  case_if; [by apply Hset|]. case_if; [|apply Hs]. apply Hset. simpl. by apply (Hs q).
Qed.

Lemma compute_spans_info infos ms spans p sp :
  valid_servers infos -> compute_spans infos ms = Ok spans -> dget spans p = Some sp ->
  valid_info (sp_server_info sp) = true.
Proof.
  intros Hv H. apply compute_spans_offset in H as (off & _ & ->). revert p sp.
  apply (fold_left_invariant (fun s => forall p sp, dget s p = Some sp -> valid_info (sp_server_info sp) = true)).
  - intros s ev Hev Hs. apply (span_step_info (fun i => valid_info i = true)); [|done]. destruct ev as [i [q info]].
    apply elem_of_span_events in Hev as (m & _ & Hm & Hin). unfold valid_servers in Hv.
    rewrite Forall_lookup in Hv. apply Hv in Hm. rewrite Forall_forall in Hm. by apply (Hm (q, info)).
  - done.
Qed.

Lemma valid_info_nonneg si : valid_info si = true -> f_nonneg (si_throughput si) = true.
Proof.
  unfold valid_info, valid_rps, f_nonneg. rewrite !andb_true_iff. intuition.
Qed.

Lemma compute_throughputs_length spans n : 0 <= n -> zlen (compute_throughputs spans n) = n.
Proof.
  intros Hn. unfold compute_throughputs. apply fold_left_invariant.
  - intros t sp _ Ht. by rewrite slice_map_length.
  - unfold zlen. rewrite length_replicate. lia.
Qed.

Lemma compute_throughputs_nonneg infos spans n :
  valid_servers infos -> compute_spans infos JOINING = Ok spans ->
  Forall (fun x => f_nonneg x = true) (compute_throughputs spans n).
Proof.
  intros Hv Hs. unfold compute_throughputs. apply fold_left_invariant.
  - intros t sp Hsp Ht. apply slice_map_Forall; [|done]. intros x Hx. apply f_add_nonneg; [done|].
    unfold spans_by_peer in Hsp. apply elem_of_py_sorted, list_elem_of_fmap in Hsp as ([p sp'] & -> & Hin).
    pose proof (computed_spans_ok _ _ _ Hs) as [Hwf _].
    apply valid_info_nonneg. eapply (compute_spans_info infos JOINING spans p); [done|done|].
    by apply elem_dget.
  - apply Forall_replicate. reflexivity.
Qed.

Lemma nonneg_no_nan t : Forall (fun x => f_nonneg x = true) t -> no_nan t.
Proof. intros H. eapply Forall_impl; [exact H|]. apply f_nonneg_nan. Qed.

(** C35: a new server chooses consecutive blocks inside the model, among them a block with the
    lowest total throughput of the whole swarm; of equally good places it takes the first. *)
Theorem choose_best_blocks_spec infos n off :
  block_offset infos = Ok off -> valid_servers infos -> 0 < n <= zlen infos ->
  exists spans start,
    compute_spans infos JOINING = Ok spans /\
    choose_best_blocks n infos = Ok (zrange start (start + n)) /\ 0 <= start <= zlen infos - n /\
    let t := compute_throughputs spans (zlen infos) in
    (exists b y, start <= b < start + n /\ t !! Z.to_nat b = Some y /\ Forall (fun x => f_lt x y = false) t) /\
    (forall j, 0 <= j < start -> lex_lt (window t n start) (window t n j) = true).
Proof.
  intros Hoff Hv Hn. pose proof (compute_spans_total infos JOINING off Hoff) as Ht.
  unfold choose_best_blocks. destruct (compute_spans infos JOINING) as [spans|e] eqn:Hs; [|done].
  pose proof (compute_throughputs_length spans (zlen infos) ltac:(lia)) as Hlen.
  pose proof (nonneg_no_nan _ (compute_throughputs_nonneg infos spans (zlen infos) Hv Hs)) as Hnn.
  destruct (choose_best_start_spec _ n Hnn ltac:(lia)) as (i & Hi & Hr & _ & Hfirst).
  exists spans, i. cbn [mbind result_bind]. rewrite Hi. split; [done|]. split; [done|].
  split; [lia|]. split; [|done]. apply best_start_weakest; [done|lia|done].
Qed.

(** ** Moving a server *)

(** What the simulation never changes: which servers there are, and how many blocks each has. *)
Definition same_sizes (n : Z) (st0 st : sim) : Prop :=
  zlen (fst st) = n /\ dkeys (snd st) = dkeys (snd st0) /\ dict_wf (snd st) /\
  (forall p sp0, dget (snd st0) p = Some sp0 ->
     exists sp, dget (snd st) p = Some sp /\ sp_peer_id sp = sp_peer_id sp0 /\
       sp_length sp = sp_length sp0 /\ sp_server_info sp = sp_server_info sp0 /\
       (sp_start sp = sp_start sp0 \/ 0 <= sp_start sp /\ sp_end sp <= n)).

Lemma move_span_length sp x : sp_length (_move_span sp x) = sp_length sp.
Proof. unfold _move_span, sp_length. simpl. lia. Qed.

Lemma same_sizes_dset n st0 t spans p sp x :
  same_sizes n st0 (t, spans) -> dget spans p = Some sp -> 0 <= x -> x + sp_length sp <= n ->
  forall t', zlen t' = n -> same_sizes n st0 (t', dset spans p (_move_span sp x)).
Proof.
  intros (Hn & Hk & Hwf & Hs) Hp Hx Hxn t' Ht'. unfold same_sizes. simpl in *.
  split; [done|]. split.
  { rewrite dkeys_dset_present; [done|]. apply dget_is_Some_keys. eauto. }
  split; [by apply dict_wf_dset|]. intros q sq Hq. rewrite dget_dset.
  destruct (Hs q sq Hq) as (sp' & Hd & Hid & Hlen & Hinfo & Hpos).
  case_decide as Hpq; [|by exists sp'].
  assert (sp' = sp) as -> by congruence.
  exists (_move_span sp x). rewrite move_span_length. repeat split; try done.
  right. simpl. unfold sp_length in *. lia.
Qed.

Lemma try_move_same_sizes n st0 st p st' :
  same_sizes n st0 (fst st) -> try_move st p = Ok st' -> same_sizes n st0 (fst st').
Proof.
  destruct st as [[t spans] moved]. unfold try_move. simpl. intros Hs H. inv_ok.
  pose proof Hs as (Hn & Hk & Hwf & Hsp). simpl in *.
  match goal with Hb : _choose_best_start _ _ = Ok ?x |- _ =>
    apply best_start_range in Hb; rewrite slice_map_length in Hb; rename x into new end.
  destruct (Z.eqb_spec (sp_start a) new) as [He|He]; simpl.
  - unfold same_sizes. simpl. split; [by rewrite !slice_map_length|done].
  - eapply same_sizes_dset; [done|done|lia|lia|]. by rewrite !slice_map_length.
Qed.

Lemma rebalance_same_sizes fuel n seed st0 st st' :
  same_sizes n st0 st -> rebalance fuel seed st = Some (Ok st') -> same_sizes n st0 st'.
Proof.
  revert seed st. induction fuel as [|fuel IH]; intros seed st Hs; simpl; [done|].
  destruct (rebalance_pass seed st) as [[st1 moved]|e] eqn:E; [|done].
  assert (same_sizes n st0 st1).
  { unfold rebalance_pass in E. eapply (foldR_invariant (fun st => same_sizes n st0 (fst st))) in E; [done| |done].
    intros s x s' _ Hx Hr. by eapply try_move_same_sizes. }
  destruct moved; [by apply IH|]. by intros [= <-].
Qed.

(** The simulated rebalancing moves servers but never adds, drops or resizes one: it keeps
    the servers and their numbers of blocks, and a moved span lies inside the model. *)
Theorem rebalance_keeps_sizes fuel seed st st' :
  dict_wf (snd st) -> rebalance fuel seed st = Some (Ok st') -> same_sizes (zlen (fst st)) st st'.
Proof.
  intros Hwf. apply rebalance_same_sizes. split; [done|]. split; [done|]. split; [done|].
  intros p sp Hp. exists sp. repeat split; try done. by left.
Qed.

(** A server decides to move only if it is announced in the swarm, some other start is
    better for it, its leaving does not take a served swarm's last throughput from a block, and
    after the others have reacted no block is worse than the worst block was, with a relative
    gain beyond the requested balance quality. *)
Theorem should_choose_other_blocks_moves fuel seed p infos bq :
  f_lt f_one bq = false -> should_choose_other_blocks fuel seed p infos bq = Some (Ok true) ->
  exists spans sp new st initial final,
    compute_spans infos JOINING = Ok spans /\ dget spans p = Some sp /\
    np_min (compute_throughputs spans (zlen infos)) = Ok initial /\
    0 <= new <= zlen infos - sp_length sp /\ new <> sp_start sp /\
    rebalance fuel seed st = Some (Ok final) /\ dget (snd st) p = Some (_move_span sp new) /\
    exists m, np_min (fst final) = Ok m /\ f_lt m initial = false /\ f_lt m eps = false /\
      f_lt (f_div initial m) (f_sub bq eps) = true.
Proof.
  intros Hbq. unfold should_choose_other_blocks. rewrite Hbq.
  destruct (spans ← _; _) as [[initial [st|]]|e] eqn:Hsetup; [|done|done].
  destruct (rebalance fuel seed st) as [[final|e]|] eqn:Hreb; [|done|done].
  intros [= Hj]. inv_ok. unfold local_move in *. inv_ok. unfold mret, result_ret, id in *.
  repeat case_if; inv_ok; simplify_eq; try done. zbool.
  match goal with Hb : _choose_best_start _ _ = Ok ?x |- _ =>
    apply best_start_range in Hb; rewrite slice_map_length in Hb; rename x into new end.
  rewrite compute_throughputs_length in * by apply zlen_nonneg.
  match goal with H : context [sp_start ?a =? new] |- _ =>
    destruct (Z.eqb_spec (sp_start a) new); inv_ok; simplify_eq end.
  unfold judge in Hj. inv_ok.
  match type of Hj with (if ?b then _ else _) = _ => destruct b eqn:Em; [done|] end.
  injection Hj as Hj. apply orb_false_iff in Em as [E1 E2].
  do 6 eexists. split; [done|]. split; [done|]. split; [done|]. split; [done|]. split; [lia|].
  split; [done|]. split; [simpl; by rewrite dget_dset_eq|]. eauto 6.
Qed.
End placement.

(** Two servers on the first of two blocks, none on the second. *)
Definition crowded : list (@RemoteModuleInfo ZPeerIds) :=
  [ mkModuleInfo (PI := ZPeerIds) "m.0" [(1, swarm_info ONLINE 0 1); (2, swarm_info ONLINE 0 1)];
    mkModuleInfo (PI := ZPeerIds) "m.1" [] ].

Lemma choose_best_blocks_spec_witness :
  exists spans start,
    compute_spans crowded JOINING = Ok spans /\
    choose_best_blocks (PI := ZPeerIds) 1 crowded = Ok (zrange start (start + 1)) /\
    0 <= start <= zlen crowded - 1 /\
    let t := compute_throughputs spans (zlen crowded) in
    (exists b y, start <= b < start + 1 /\ t !! Z.to_nat b = Some y /\ Forall (fun x => f_lt x y = false) t) /\
    (forall j, 0 <= j < start -> lex_lt (window t 1 start) (window t 1 j) = true).
Proof.
  apply (choose_best_blocks_spec (PI := ZPeerIds) crowded 1 0).
  - reflexivity.
  - repeat constructor.
  - done.
Defined.

Lemma should_choose_other_blocks_moves_witness :
  should_choose_other_blocks (PI := ZPeerIds) 5 0 1 crowded (f_lit 3 4) = Some (Ok true) /\
  exists spans sp new st initial final,
    compute_spans crowded JOINING = Ok spans /\ dget spans 1 = Some sp /\
    np_min (compute_throughputs spans (zlen crowded)) = Ok initial /\
    0 <= new <= zlen crowded - sp_length sp /\ new <> sp_start sp /\
    rebalance (PI := ZPeerIds) 5 0 st = Some (Ok final) /\ dget (snd st) 1 = Some (_move_span sp new) /\
    exists m, np_min (fst final) = Ok m /\ f_lt m initial = false /\ f_lt m eps = false /\
      f_lt (f_div initial m) (f_sub (f_lit 3 4) eps) = true.
Proof.
  assert (H : should_choose_other_blocks (PI := ZPeerIds) 5 0 1 crowded (f_lit 3 4) = Some (Ok true))
    by (vm_compute; reflexivity).
  split; [exact H|].
  by apply (should_choose_other_blocks_moves (PI := ZPeerIds) 5 0 1 crowded (f_lit 3 4)).
Defined.

Definition crowded_sim : @sim ZPeerIds :=
  ([f_of_Z 1; f_of_Z 1],
   [(1, mkSpan (PI := ZPeerIds) 1 0 1 (swarm_info ONLINE 0 1));
    (2, mkSpan (PI := ZPeerIds) 2 0 1 (swarm_info ONLINE 0 1))]).

Lemma rebalance_keeps_sizes_witness :
  let st' := from_ok ([], []) (default (Err ValueError) (rebalance (PI := ZPeerIds) 5 0 crowded_sim)) in
  same_sizes 2 crowded_sim st'.
Proof.
  apply (rebalance_keeps_sizes (PI := ZPeerIds) 5 0 crowded_sim); [|vm_compute; reflexivity].
  apply NoDup_cons; split; [|apply NoDup_singleton].
  intros H%list_elem_of_singleton. discriminate H.
Defined.
