(* ===== verification/SequenceInfo.v ===== *)
(** * SequenceInfo: [src/src/peerz/client/routing/sequence_info.py]

    The routing table of a client: which spans of blocks the servers hold, sorted by length,
    and for every block the spans that contain it. *)

From S2P Require Import Prelude PyString PyFloat PyDict DataStructures Dht.

Section sequence_info.
Context {PI : PeerIds}.

Record RemoteSequenceInfo := mkSeqInfo {
  sq_block_uids : list string;
  sq_block_infos : list RemoteModuleInfo;
  sq_spans_by_priority : list RemoteSpanInfo;
  sq_spans_containing_block : list (list RemoteSpanInfo);
  sq_last_updated_time : option pyfloat;
}.

Definition make_empty (block_uids : list string) : RemoteSequenceInfo :=
  mkSeqInfo block_uids (map (fun uid => mkModuleInfo uid []) block_uids) []
            (map (fun _ => []) block_uids) None.

(** [spans_containing_block[i].append(span)] *)
Definition append_at (rows : list (list RemoteSpanInfo)) (i : Z) (sp : RemoteSpanInfo)
    : result (list (list RemoteSpanInfo)) :=
  match zindex rows i with
  | Some k => Ok (alter (fun row => row ++ [sp]) k rows)
  | None => Err IndexError
  end.

(** [spans.sort(key=lambda span: span.length, reverse=True)]: stable, longest first. *)
Definition by_length (spans : list RemoteSpanInfo) : list RemoteSpanInfo :=
  py_sorted (fun a b => sp_length b <? sp_length a) spans.

Definition _sort_spans (block_infos : list RemoteModuleInfo)
    : result (list RemoteSpanInfo * list (list RemoteSpanInfo)) :=
  spans ← compute_spans block_infos ONLINE;
  let spans_by_priority := by_length (dvalues spans) in
  rows ← foldR (fun rows sp =>
                  foldR (fun rows i => append_at rows i sp) rows (zrange (sp_start sp) (sp_end sp)))
               (map (fun _ => []) block_infos) spans_by_priority;
  Ok (spans_by_priority, rows).

(** [sequence_info[a:b]]: the uids and module records of a slice, with spans of their own. *)
Definition sq_getitem (si : RemoteSequenceInfo) (a b : Z) : result RemoteSequenceInfo :=
  let block_uids := zslice (sq_block_uids si) a b in
  let block_infos := zslice (sq_block_infos si) a b in
  sp ← _sort_spans block_infos;
  Ok (mkSeqInfo block_uids block_infos (fst sp) (snd sp) (sq_last_updated_time si)).

Definition sq_len (si : RemoteSequenceInfo) : Z := zlen (sq_block_uids si).

(** The loop of [update_]: servers are replaced record by record until a uid differs. *)
Fixpoint replace_servers (uids : list string) (infos news : list RemoteModuleInfo)
    : list RemoteModuleInfo * result unit :=
  match uids, infos, news with
  | uid :: uids', old :: infos', new :: news' =>
      if decide (uid = rm_uid new) then
        let '(rest, r) := replace_servers uids' infos' news' in
        (mkModuleInfo (rm_uid old) (rm_servers new) :: rest, r)
      else (infos, Err AssertionError)
  | _, _, _ => (infos, Ok ())
  end.

(** [update_]: the new table, and the exception if there is one. *)
Definition update_ (si : RemoteSequenceInfo) (new_block_infos : list RemoteModuleInfo)
    (now : pyfloat) : RemoteSequenceInfo * result unit :=
  if negb (zlen new_block_infos =? zlen (sq_block_uids si)) then (si, Err AssertionError)
  else
    let '(infos, r) := replace_servers (sq_block_uids si) (sq_block_infos si) new_block_infos in
    let si1 := mkSeqInfo (sq_block_uids si) infos (sq_spans_by_priority si)
                         (sq_spans_containing_block si) (sq_last_updated_time si) in
    match r with
    | Err e => (si1, Err e)
    | Ok _ =>
        match _sort_spans infos with
        | Ok (prio, rows) => (mkSeqInfo (sq_block_uids si) infos prio rows (Some now), Ok ())
        | Err e => (si1, Err e)
        end
    end.

(** ** The routing table's invariant *)

Definition contains_block (i : Z) (sp : RemoteSpanInfo) : Prop := sp_start sp <= i < sp_end sp.

#[global] Instance contains_block_dec i sp : Decision (contains_block i sp).
Proof. unfold contains_block. apply _. Defined.

(** [prio] and [rows] describe the same spans: one per peer, inside the window, and row [i]
    lists those that contain block [i], in the order of [prio]. *)
Definition table_ok (n : Z) (prio : list RemoteSpanInfo) (rows : list (list RemoteSpanInfo)) : Prop :=
  zlen rows = n /\
  NoDup (sp_peer_id <$> prio) /\
  (forall sp, sp ∈ prio -> 0 <= sp_start sp /\ sp_end sp <= n) /\
  (forall i row, 0 <= i -> rows !! Z.to_nat i = Some row -> row = filter (contains_block i) prio).

Lemma append_at_ok rows i sp :
  0 <= i < zlen rows -> append_at rows i sp = Ok (alter (fun row => row ++ [sp]) (Z.to_nat i) rows).
Proof. intros H. unfold append_at. by rewrite zindex_nonneg. Qed.

Lemma append_range rows a b sp :
  0 <= a -> b <= zlen rows ->
  exists rows', foldR (fun rows i => append_at rows i sp) rows (zrange a b) = Ok rows' /\
    length rows' = length rows /\
    forall k, rows' !! k = (fun row => row ++ (if decide (a <= Z.of_nat k < b) then [sp] else [])) <$> rows !! k.
Proof.
  intros Ha. remember (Z.to_nat (b - a)) as n eqn:Hn. revert a rows Ha Hn.
  induction n as [|n IH]; intros a rows Ha Hn Hb.
  - rewrite zrange_nil by lia. exists rows. split; [done|]. split; [done|]. intros k.
    rewrite decide_False by lia. destruct (rows !! k); simpl; [by rewrite app_nil_r|done].
  - rewrite zrange_cons by lia. cbn [foldR]. rewrite append_at_ok by lia.
    destruct (IH (a + 1) (alter (fun row => row ++ [sp]) (Z.to_nat a) rows)) as (rows' & H1 & H2 & H3);
      [lia|lia|unfold zlen in *; rewrite length_alter; lia|].
    exists rows'. split; [done|]. rewrite length_alter in H2. split; [done|]. intros k. rewrite H3.
    destruct (decide (k = Z.to_nat a)) as [->|Hne].
    + rewrite list_lookup_alter_eq. destruct (rows !! Z.to_nat a); simpl; [|done].
      rewrite decide_False, decide_True by lia. by rewrite app_nil_r.
    + rewrite list_lookup_alter_ne by done. destruct (rows !! k); simpl; [|done].
      destruct (decide (a + 1 <= Z.of_nat k < b)), (decide (a <= Z.of_nat k < b)); (done || lia).
Qed.

Lemma append_all rows prio :
  (forall sp, sp ∈ prio -> 0 <= sp_start sp /\ sp_end sp <= zlen rows) ->
  exists rows',
    foldR (fun rows sp =>
             foldR (fun rows i => append_at rows i sp) rows (zrange (sp_start sp) (sp_end sp)))
          rows prio = Ok rows' /\
    length rows' = length rows /\
    forall k, rows' !! k = (fun row => row ++ filter (contains_block (Z.of_nat k)) prio) <$> rows !! k.
Proof.
  revert rows. induction prio as [|sp prio IH]; intros rows Hb.
  - exists rows. split; [done|]. split; [done|]. intros k.
    destruct (rows !! k); simpl; [by rewrite app_nil_r|done].
  - destruct (Hb sp ltac:(left)) as [H1 H2].
    destruct (append_range rows _ _ sp H1 H2) as (r1 & Hr1 & Hl1 & Hk1).
    destruct (IH r1) as (r2 & Hr2 & Hl2 & Hk2).
    { intros sp' Hin. unfold zlen. rewrite Hl1. apply Hb. by right. }
    exists r2. cbn [foldR]. rewrite Hr1. split; [done|]. split; [congruence|]. intros k.
    rewrite Hk2, Hk1. destruct (rows !! k); simpl; [|done]. f_equal. rewrite <- app_assoc. f_equal.
    rewrite filter_cons. destruct (decide (contains_block _ sp)) as [H|H]; unfold contains_block in H;
      [by rewrite decide_True|by rewrite decide_False].
Qed.

Lemma by_length_perm spans : by_length spans ≡ₚ spans.
Proof. apply py_sorted_perm. Qed.

Lemma by_length_sorted spans :
  StronglySorted (fun a b => sp_length b <= sp_length a) (by_length spans).
Proof.
  eapply StronglySorted_weaken; [|apply (py_sorted_sorted _ (fun _ => True))].
  - intros a b H. simpl in H. lia.
  - intros x y. simpl. lia.
  - intros x y z _ _ _. simpl. lia.
  - by apply Forall_true.
Qed.

Lemma spans_ok_values n ms spans :
  spans_ok n ms spans -> NoDup (sp_peer_id <$> dvalues spans) /\
    forall sp, sp ∈ dvalues spans ->
      0 <= sp_start sp /\ sp_end sp <= n /\ state_value ms <= state_value (sp_state sp).
Proof.
  intros [Hwf Hok]. assert (Hall : forall kv, kv ∈ spans -> span_ok n ms kv.1 kv.2).
  { intros [p sp] Hin. apply Hok. by apply elem_dget. }
  split.
  - enough (sp_peer_id <$> dvalues spans = dkeys spans) as -> by done.
    clear Hwf Hok. induction spans as [|[p sp] spans IH]; [done|]. simpl. f_equal.
    + by destruct (Hall (p, sp) ltac:(left)) as [? _].
    + apply IH. intros kv Hin. apply Hall. by right.
  - intros sp Hin. apply list_elem_of_fmap in Hin as ([p sp'] & -> & Hin).
    destruct (Hall _ Hin) as (_ & ? & ? & ?). auto.
Qed.

(** The sorted spans and the table of a list of spans. *)
Lemma sort_spans_ok infos off :
  block_offset infos = Ok off ->
  exists spans prio rows,
    compute_spans infos ONLINE = Ok spans /\
    _sort_spans infos = Ok (prio, rows) /\
    prio ≡ₚ dvalues spans /\
    StronglySorted (fun a b => sp_length b <= sp_length a) prio /\
    (forall sp, sp ∈ prio -> sp_state sp = ONLINE) /\
    table_ok (zlen infos) prio rows.
Proof.
  intros Hoff. pose proof (compute_spans_total infos ONLINE off Hoff) as Ht.
  destruct (compute_spans infos ONLINE) as [spans|] eqn:Hc; [|done].
  pose proof (computed_spans_ok _ _ _ Hc) as Hok. apply spans_ok_values in Hok as [Hnd Hv].
  assert (Hin : forall sp, sp ∈ by_length (dvalues spans) <-> sp ∈ dvalues spans)
    by (intros; by rewrite by_length_perm).
  destruct (append_all (map (fun _ => []) infos) (by_length (dvalues spans))) as (rows & Hr & Hl & Hk).
  { intros sp Hsp%Hin. unfold zlen. rewrite length_map. destruct (Hv sp Hsp). tauto. }
  rewrite length_map in Hl.
  exists spans, (by_length (dvalues spans)), rows. unfold _sort_spans. rewrite Hc. simpl. rewrite Hr.
  split; [done|]. split; [done|]. split; [apply by_length_perm|]. split; [apply by_length_sorted|].
  split.
  { intros sp Hsp%Hin. destruct (Hv sp Hsp) as (_ & _ & Hs).
    destruct (sp_state sp); simpl in *; (lia || done). }
  split; [unfold zlen; by rewrite Hl|]. split; [by rewrite by_length_perm|]. split.
  - intros sp Hsp%Hin. destruct (Hv sp Hsp). tauto.
  - intros i row Hi Hrow. rewrite Hk, Z2Nat.id in Hrow by lia.
    destruct (map _ infos !! Z.to_nat i) as [r|] eqn:E; [|done]. simpl in Hrow.
    apply list_lookup_fmap_Some in E as (? & -> & _). simpl in Hrow. congruence.
Qed.

(** Whenever the first uid can be parsed, [_sort_spans] succeeds; it returns the ONLINE
    spans of [compute_spans] sorted by decreasing length, and the rows list, for every block,
    exactly the spans that contain it in that order. *)
Theorem _sort_spans_spec infos off :
  block_offset infos = Ok off ->
  exists spans prio rows,
    compute_spans infos ONLINE = Ok spans /\
    _sort_spans infos = Ok (prio, rows) /\
    prio ≡ₚ dvalues spans /\
    StronglySorted (fun a b => sp_length b <= sp_length a) prio /\
    (forall sp, sp ∈ prio -> sp_state sp = ONLINE) /\
    table_ok (zlen infos) prio rows.
Proof. apply sort_spans_ok. Qed.
End sequence_info.
