(* ===== verification/SequenceManager.v ===== *)
(** * SequenceManager: [client/config.py] and [client/routing/sequence_manager.py]

    The client's router: it refreshes the routing table from the DHT, bans peers that fail and
    chooses the chain of servers that a request goes through. *)

From S2P Require Import Prelude PyString PyFloat PyDict DataStructures Utils Dht SequenceInfo.

(** ** ClientConfig *)

Inductive show_route_opt := ShowFalse | ShowInference | ShowTrue.

Section config.
Context {PI : PeerIds}.

(** An entry of [allowed_servers] or [blocked_servers]. *)
Inductive peer_spec :=
  | PeerObj (p : PeerID)
  | PeerStr (s : string)
  | PeerOther.

(** Delays are whole seconds, as all the defaults are. *)
Record ClientConfig := mkConfig {
  cfg_initial_peers : list string;
  cfg_dht_prefix : option string;
  cfg_daemon_startup_timeout : Z;
  cfg_show_route : show_route_opt;
  cfg_allowed_servers : option (list peer_spec);
  cfg_blocked_servers : option (list peer_spec);
  cfg_use_server_to_server : bool;
  cfg_connect_timeout : Z;
  cfg_request_timeout : Z;
  cfg_update_period : Z;
  cfg_max_retries : option Z;
  cfg_min_backoff : Z;
  cfg_max_backoff : Z;
  cfg_ban_timeout : Z;
  cfg_active_adapter : option string;
  cfg_max_pinged : Z;
  cfg_ping_timeout : Z;
}.

Definition default_config (peers : list string) (max_retries : option Z) : ClientConfig :=
  mkConfig peers None 60 ShowInference None None true 5 (3 * 60) 60 max_retries 1 60 15 None 3 2.
End config.

(** ** Temporary bans

    [hivemind.dht.node.Blacklist]: a failed peer is banned for a while, a success lifts the ban. *)

Class Blacklist {PI : PeerIds} := {
  blacklist : Type;
  bl_empty : blacklist;
  bl_contains : blacklist -> PeerID -> bool;
  bl_register_failure : blacklist -> PeerID -> blacklist;
  bl_register_success : blacklist -> PeerID -> blacklist;
  bl_failure_contains : forall b p q,
    bl_contains (bl_register_failure b p) q = bool_decide (p = q) || bl_contains b q;
  bl_success_contains : forall b p q,
    bl_contains (bl_register_success b p) q = negb (bool_decide (p = q)) && bl_contains b q;
}.

(** An instance whose bans do not expire. *)
#[refine, global] Instance SetBlacklist {PI : PeerIds} : Blacklist := {|
  blacklist := list PeerID;
  bl_empty := [];
  bl_contains b p := bool_decide (p ∈ b);
  bl_register_failure b p := p :: b;
  bl_register_success b p := filter (fun q => q <> p) b;
|}.
Proof.
  - intros b p q. apply eq_bool_prop_intro. rewrite orb_True, !bool_decide_spec, elem_of_cons.
    intuition congruence.
  - intros b p q. apply eq_bool_prop_intro.
    rewrite andb_True, negb_True, !bool_decide_spec, list_elem_of_filter. intuition congruence.
Defined.

(** ** Shortest paths

    Vertices of the inference graph: the client's two ends, and a server at a block boundary. *)

Inductive node {PI : PeerIds} := NStart | NEnd | NPeer (p : PeerID) (i : Z).

#[global] Instance node_eq_dec {PI : PeerIds} : EqDecision (@node PI).
Proof. solve_decision. Defined.

(** [dijkstar.Graph]: [add_edge] overwrites an existing edge. *)
Definition graph {PI : PeerIds} : Type := list ((node * node) * pyfloat).
Definition add_edge {PI : PeerIds} (g : graph) (u v : node) (delay : pyfloat) : graph := dset g (u, v) delay.
Definition has_edge {PI : PeerIds} (g : graph) (u v : node) : Prop := (u, v) ∈ dkeys g.

Fixpoint is_walk {PI : PeerIds} (g : graph) (u : node) (l : list node) (v : node) : Prop :=
  match l with
  | [] => has_edge g u v
  | x :: l' => has_edge g u x /\ is_walk g x l' v
  end.

(** [dijkstar.find_path]: the inner nodes of a path between two vertices, if there is one. *)
Class PathFinder {PI : PeerIds} := {
  find_path : graph -> node -> node -> option (list node);
  find_path_walk : forall g u v l, find_path g u v = Some l -> is_walk g u l v;
  find_path_complete : forall g u v l, is_walk g u l v -> is_Some (find_path g u v);
}.

Section sequence_manager.
Context {PI : PeerIds} {PD : Pydantic} {BL : Blacklist} {RND : PyRandom}.

Record SequenceManager := mkManager {
  sm_config : ClientConfig;
  sm_info : RemoteSequenceInfo;
  sm_rpc_info : option pyval;
  sm_banned_peers : blacklist;
  sm_allowed_servers : option (list PeerID);
  sm_blocked_servers : option (list PeerID);
  sm_rtts : list (PeerID * pyfloat);
  sm_ready : bool;
  sm_trigger : bool;
  sm_thread_started : bool;
}.

Definition sm_block_uids (m : SequenceManager) : list string := sq_block_uids (sm_info m).
Definition sm_len (m : SequenceManager) : Z := zlen (sm_block_uids m).

Definition sm_with_info (m : SequenceManager) (si : RemoteSequenceInfo) : SequenceManager :=
  mkManager (sm_config m) si (sm_rpc_info m) (sm_banned_peers m) (sm_allowed_servers m)
    (sm_blocked_servers m) (sm_rtts m) (sm_ready m) (sm_trigger m) (sm_thread_started m).
Definition sm_with_banned (m : SequenceManager) (b : blacklist) : SequenceManager :=
  mkManager (sm_config m) (sm_info m) (sm_rpc_info m) b (sm_allowed_servers m)
    (sm_blocked_servers m) (sm_rtts m) (sm_ready m) (sm_trigger m) (sm_thread_started m).
Definition sm_with_flags (m : SequenceManager) (ready trigger started : bool) : SequenceManager :=
  mkManager (sm_config m) (sm_info m) (sm_rpc_info m) (sm_banned_peers m) (sm_allowed_servers m)
    (sm_blocked_servers m) (sm_rtts m) ready trigger started.
Definition sm_with_rpc_info (m : SequenceManager) (v : pyval) : SequenceManager :=
  mkManager (sm_config m) (sm_info m) (Some v) (sm_banned_peers m) (sm_allowed_servers m)
    (sm_blocked_servers m) (sm_rtts m) (sm_ready m) (sm_trigger m) (sm_thread_started m).

(** *** Construction *)

(** [_peer_ids_to_set] *)
Definition _peer_ids_to_set (peer_ids : option (list peer_spec)) : result (option (list PeerID)) :=
  match peer_ids with
  | None => Ok None
  | Some l =>
      ps ← mapR (fun s => match s with
                          | PeerObj p => Ok p
                          | PeerStr str => get_or ValueError (from_base58 str)
                          | PeerOther => Err TypeError
                          end) l;
      Ok (Some (remove_dups ps))
  end.

(** [__init__]; [has_dht] tells whether a DHT instance was passed, [info] is the table of a
    state passed by the caller. *)
Definition sm_init (config : ClientConfig) (block_uids : list string) (has_dht : bool)
    (info : option RemoteSequenceInfo) (banned : option blacklist) : result SequenceManager :=
  _ ← assert_ (negb (zlen (cfg_initial_peers config) =? 0) || has_dht);
  _ ← assert_ (match cfg_dht_prefix config with Some p => negb (bool_decide (p = "")) | None => false end);
  _ ← assert_ (0 <? zlen block_uids);
  allowed ← _peer_ids_to_set (cfg_allowed_servers config);
  blocked ← _peer_ids_to_set (cfg_blocked_servers config);
  let si := or_default info (make_empty block_uids) in
  ready ← match sq_last_updated_time si with
          | Some _ => _ ← assert_ (bool_decide (block_uids = sq_block_uids si)); Ok true
          | None => Ok false
          end;
  Ok (mkManager config si None (or_default banned bl_empty) allowed blocked [] ready false false).

(** [manager[a:b]] shares the configuration and the bans. *)
Definition sm_getitem (m : SequenceManager) (a b : Z) : result SequenceManager :=
  si ← sq_getitem (sm_info m) a b;
  sm_init (sm_config m) (zslice (sm_block_uids m) a b) true (Some si) (Some (sm_banned_peers m)).

(** *** Updates *)

(** [update(wait=False)] *)
Definition sm_update (m : SequenceManager) : SequenceManager :=
  sm_with_flags m false true (sm_thread_started m).

Definition allowed_peer (m : SequenceManager) (p : PeerID) : bool :=
  match sm_allowed_servers m with None => true | Some l => bool_decide (p ∈ l) end &&
  match sm_blocked_servers m with None => true | Some l => negb (bool_decide (p ∈ l)) end.

(** The filters of [_update] on one block: the allow and block lists, then the bans, unless
    they would leave no server at all. *)
Definition filter_block (m : SequenceManager) (info : RemoteModuleInfo) : RemoteModuleInfo :=
  let servers := filter (fun kv => allowed_peer m kv.1 = true) (rm_servers info) in
  let valid := filter (fun kv => bl_contains (sm_banned_peers m) kv.1 = false) servers in
  mkModuleInfo (rm_uid info)
    (if zlen valid <? zlen servers then (if zlen valid =? 0 then servers else valid) else servers).

(** [set(...)] of a list. *)
Definition py_set (l : list PeerID) : list PeerID := remove_dups l.

(** The servers that [_update] pings. *)
Definition pinged_servers (m : SequenceManager) (seed : Z) (rows : list (list RemoteSpanInfo))
    : result (list PeerID) :=
  first ← znth rows 0;
  last ← znth rows (-1);
  let first_servers := map sp_peer_id first in
  let middle_servers := map sp_peer_id (concat (zslice rows 1 (-1))) in
  let last_servers := map sp_peer_id last in
  let k := cfg_max_pinged (sm_config m) in
  let pinged := py_set (sample_up_to seed first_servers k) in
  let pinged := py_set (sample_up_to (seed + 1) middle_servers k) in
  Ok (py_set (pinged ++ sample_up_to (seed + 2) last_servers k)).

(** [_update]: [found] is the DHT at the time of the call, [pings] what the pings return. *)
Definition _update (m : SequenceManager) (found : string -> option DHTValue) (now : pyfloat)
    (seed : Z) (pings : list PeerID -> list (PeerID * pyfloat)) : SequenceManager * result unit :=
  match get_remote_module_infos found (sm_block_uids m) (cfg_active_adapter (sm_config m)) true with
  | Err e => (m, Err e)
  | Ok new_block_infos =>
      let new_block_infos := map (filter_block m) new_block_infos in
      let '(si, r) := update_ (sm_info m) new_block_infos now in
      let m1 := sm_with_info m si in
      match (_ ← r; pinged_servers m1 seed (sq_spans_containing_block si)) with
      | Err e => (m1, Err e)
      | Ok pinged =>
          (mkManager (sm_config m1) si (sm_rpc_info m1) (sm_banned_peers m1)
             (sm_allowed_servers m1) (sm_blocked_servers m1) (pings pinged) true
             (sm_trigger m1) (sm_thread_started m1), Ok ())
      end
  end.

(** One turn of the update thread: the trigger is cleared, an exception is only logged. *)
Definition thread_turn (m : SequenceManager) found now seed pings : SequenceManager :=
  fst (_update (sm_with_flags m (sm_ready m) false (sm_thread_started m)) found now seed pings).

(** *** Feedback from requests *)

Definition pop_server (peer_id : PeerID) (info : RemoteModuleInfo) : RemoteModuleInfo :=
  mkModuleInfo (rm_uid info) (dpop (rm_servers info) peer_id).

Definition no_servers (info : RemoteModuleInfo) : bool :=
  match rm_servers info with [] => true | _ => false end.

Definition on_request_failure (m : SequenceManager) (peer_id : option PeerID) : SequenceManager :=
  let m1 := match peer_id with
            | Some p => sm_with_banned m (bl_register_failure (sm_banned_peers m) p)
            | None => m
            end in
  let si := sm_info m1 in
  let infos := match peer_id with
               | Some p => map (pop_server p) (sq_block_infos si)
               | None => sq_block_infos si
               end in
  let m2 := sm_with_info m1 (mkSeqInfo (sq_block_uids si) infos (sq_spans_by_priority si)
              (sq_spans_containing_block si) (sq_last_updated_time si)) in
  if existsb no_servers infos then sm_update m2 else m2.

Definition on_request_success (m : SequenceManager) (peer_id : PeerID) : SequenceManager :=
  sm_with_banned m (bl_register_success (sm_banned_peers m) peer_id).

(** [get_retry_delay]: exponential backoff, in seconds. *)
Definition get_retry_delay (config : ClientConfig) (attempt_no : Z) : Z :=
  if attempt_no =? 0 then 0
  else Z.min (cfg_min_backoff config * 2 ^ (attempt_no - 1)) (cfg_max_backoff config).

(** *** Routing for minimal latency *)

Definition row_of (rows : list (list RemoteSpanInfo)) (i : Z) : result (list RemoteSpanInfo) :=
  znth rows i.

(** [[i for i in range(a, b) if not rows[i]]] *)
Definition missing_blocks (rows : list (list RemoteSpanInfo)) (a b : Z) : result (list Z) :=
  foldR (fun acc i => row ← row_of rows i;
                      Ok (match row with [] => acc ++ [i] | _ => acc end)) [] (zrange a b).

Definition overhead_delay : pyfloat := f_lit 18 1000.
Definition default_inference_rps : pyfloat := f_of_Z 300.
Definition alloc_delay : pyfloat := f_of_Z 10.
Definition default_delay : pyfloat := f_lit 15 100.
Definition max_delay : pyfloat := f_of_Z 5.

Definition _rtt_to_delay (rtt : option pyfloat) : pyfloat :=
  match rtt with
  | None => default_delay
  | Some r => f_min (f_div r (f_of_Z 2)) max_delay
  end.

Definition _has_cache_for (span : RemoteSpanInfo) (cache_tokens_needed : option Z) : bool :=
  match cache_tokens_needed, si_cache_tokens_left (sp_server_info span) with
  | Some needed, Some tokens_left => needed * 2 * sp_length span <=? tokens_left
  | _, _ => true
  end.

Definition edge : Type := node * node * pyfloat.

(** Runs the body of a [for] loop on every element, collecting the edges it adds. *)
Definition for_edges {A} (l : list A) (f : A -> result (list edge)) : result (list edge) :=
  es ← mapR f l; Ok (concat es).

Definition penalty (span : RemoteSpanInfo) (cache_tokens_needed : option Z) (delay : pyfloat) : pyfloat :=
  if _has_cache_for span cache_tokens_needed then delay else f_add delay alloc_delay.

(** Client to server: to every server that holds the first block. *)
Definition client_edges (m : SequenceManager) (start_index : Z) (cache : option Z)
    : result (list edge) :=
  row ← row_of (sq_spans_containing_block (sm_info m)) start_index;
  Ok (map (fun span =>
             (NStart, NPeer (sp_peer_id span) start_index,
              penalty span cache
                (f_add (_rtt_to_delay (dget (sm_rtts m) (sp_peer_id span))) overhead_delay))) row).

(** Server to client: from every server that holds the last block. *)
Definition return_edges (m : SequenceManager) (end_index : Z) : result (list edge) :=
  row ← row_of (sq_spans_containing_block (sm_info m)) (end_index - 1);
  Ok (map (fun span => (NPeer (sp_peer_id span) end_index, NEnd,
                        _rtt_to_delay (dget (sm_rtts m) (sp_peer_id span)))) row).

(** Server to server, only from the end of a server's span. *)
Definition hop_edges (m : SequenceManager) (start_index end_index : Z) (cache : option Z)
    : result (list edge) :=
  let rows := sq_spans_containing_block (sm_info m) in
  for_edges (zrange (start_index + 1) end_index) (fun block_idx =>
    cur_row ← row_of rows (block_idx - 1);
    for_edges cur_row (fun cur_span =>
      if negb (sp_end cur_span =? block_idx) then Ok []
      else
        next_row ← row_of rows block_idx;
        Ok (map (fun next_span =>
              let rtt := match si_next_pings (sp_server_info cur_span) with
                         | Some pings => dget pings (to_base58 (sp_peer_id next_span))
                         | None => None
                         end in
              (NPeer (sp_peer_id cur_span) block_idx, NPeer (sp_peer_id next_span) block_idx,
               penalty next_span cache (f_add (_rtt_to_delay rtt) overhead_delay))) next_row))).

(** Computing one block on a server. *)
Definition compute_edges (m : SequenceManager) (start_index end_index : Z) : result (list edge) :=
  for_edges (sq_spans_by_priority (sm_info m)) (fun span =>
    for_edges (zrange (Z.max (sp_start span) start_index) (Z.min (sp_end span) end_index))
      (fun block_idx =>
         let inference_rps := or_default (si_inference_rps (sp_server_info span)) default_inference_rps in
         delay ← py_fdiv f_one inference_rps;
         Ok [(NPeer (sp_peer_id span) block_idx, NPeer (sp_peer_id span) (block_idx + 1), delay)])).

Definition inference_edges (m : SequenceManager) (start_index end_index : Z) (cache : option Z)
    : result (list edge) :=
  e1 ← client_edges m start_index cache;
  e2 ← return_edges m end_index;
  e3 ← hop_edges m start_index end_index cache;
  e4 ← compute_edges m start_index end_index;
  Ok (e1 ++ e2 ++ e3 ++ e4).

Definition _build_inference_graph (m : SequenceManager) (start_index end_index : Z)
    (cache_tokens_needed : option Z) : result graph :=
  missing ← missing_blocks (sq_spans_containing_block (sm_info m)) start_index end_index;
  _ ← raise_if (negb (zlen missing =? 0)) (MissingBlocksError missing);
  es ← inference_edges m start_index end_index cache_tokens_needed;
  Ok (fold_left (fun g e => add_edge g e.1.1 e.1.2 e.2) es []).

(** [{span.peer_id: span.server_info for ... for span in rows[i]}] *)
Definition collect_infos (rows : list (list RemoteSpanInfo)) (a b : Z)
    : result (list (PeerID * ServerInfo)) :=
  foldR (fun d i => row ← row_of rows i;
                    Ok (fold_left (fun d sp => dset d (sp_peer_id sp) (sp_server_info sp)) row d))
        [] (zrange a b).

(** [span_sequence[-1].end = x] *)
Definition set_last_end (spans : list RemoteSpanInfo) (x : Z) : list RemoteSpanInfo :=
  match last spans with
  | Some s => removelast spans ++ [sp_with_end s x]
  | None => spans
  end.

(** One vertex of the path: a new span, or the current one extended. *)
Definition path_step (server_infos : list (PeerID * ServerInfo)) (spans : list RemoteSpanInfo)
    (v : node) : result (list RemoteSpanInfo) :=
  match v with
  | NPeer peer_id block_idx =>
      let same := match last spans with
                  | Some s => bool_decide (sp_peer_id s = peer_id)
                  | None => false
                  end in
      if same then Ok (set_last_end spans block_idx)
      else
        info ← get_or KeyError (dget server_infos peer_id);
        Ok (spans ++ [mkSpan peer_id block_idx block_idx info])
  | _ => Err ValueError
  end.

Definition path_to_spans (server_infos : list (PeerID * ServerInfo)) (path : list node)
    : result (list RemoteSpanInfo) :=
  spans ← foldR (path_step server_infos) [] path;
  Ok (filter (fun s => 0 < sp_length s) spans).

Context {PF : PathFinder}.

Definition _make_sequence_with_min_latency (m : SequenceManager)
    (start_index end_index : Z) (cache_tokens_needed : option Z) : result (list RemoteSpanInfo) :=
  if start_index =? end_index then Ok []
  else
    let rows := sq_spans_containing_block (sm_info m) in
    missing ← missing_blocks rows start_index end_index;
    _ ← raise_if (negb (zlen missing =? 0)) (MissingBlocksError missing);
    server_infos ← collect_infos rows start_index end_index;
    g ← _build_inference_graph m start_index end_index cache_tokens_needed;
    path ← get_or RuntimeError (find_path g NStart NEnd);
    path_to_spans server_infos path.

(** *** Routing for maximal throughput *)

(** [np.random.choice(spans, p=weights / weights.sum())] *)
Definition weight_eps : pyfloat := f_lit 1 1000000.

Definition span_weight (rtts : list (PeerID * pyfloat)) (span : RemoteSpanInfo) : pyfloat :=
  match dget rtts (sp_peer_id span) with
  | Some r => if f_eq r f_inf then weight_eps else f_of_Z (sp_length span)
  | None => f_of_Z (sp_length span)
  end.

Class WeightedChoice := {
  np_choice : Z -> RemoteSpanInfo -> list RemoteSpanInfo -> list pyfloat -> RemoteSpanInfo;
  np_choice_in : forall seed x l w, np_choice seed x l w ∈ x :: l;
}.

Context {WC : WeightedChoice}.

Fixpoint max_throughput_loop (fuel : nat) (rows : list (list RemoteSpanInfo))
    (rtts : list (PeerID * pyfloat)) (seed : Z) (current_index end_index : Z)
    (span_sequence : list RemoteSpanInfo) : option (result (list RemoteSpanInfo)) :=
  if negb (current_index <? end_index) then Some (Ok span_sequence)
  else
    match fuel with
    | O => None
    | S fuel' =>
        match row_of rows current_index with
        | Err e => Some (Err e)
        | Ok [] => Some (Err (MissingBlocksError [current_index]))
        | Ok (x :: l) =>
            let chosen := np_choice seed x l (map (span_weight rtts) (x :: l)) in
            if (sp_start chosen <=? current_index) && (current_index <? sp_end chosen) then
              max_throughput_loop fuel' rows rtts (seed + 1) (sp_end chosen) end_index
                (span_sequence ++ [sp_with_start chosen current_index])
            else Some (Err AssertionError)
        end
    end.

Definition _make_sequence_with_max_throughput (m : SequenceManager) (seed : Z)
    (start_index end_index : Z) : option (result (list RemoteSpanInfo)) :=
  max_throughput_loop (Z.to_nat (end_index - start_index)) (sq_spans_containing_block (sm_info m))
    (sm_rtts m) seed start_index end_index [].

(** *** make_sequence *)

(** [self.update(wait=True)]: the thread turns on successive DHT snapshots until one turn
    sets [ready]; [None] while no turn has succeeded. *)
Fixpoint wait_ready (m : SequenceManager) (now : pyfloat) (seed : Z)
    (pings : list PeerID -> list (PeerID * pyfloat)) (snapshots : list (string -> option DHTValue))
    : option SequenceManager :=
  match snapshots with
  | [] => None
  | found :: rest =>
      let m' := thread_turn m found now seed pings in
      if sm_ready m' then Some m' else wait_ready m' now seed pings rest
  end.

(** The preamble of [make_sequence] and [rpc_info]: start the thread, await the table. *)
Definition ensure_ready (m : SequenceManager) now seed pings snapshots : option SequenceManager :=
  let m1 := sm_with_flags m (sm_ready m) (sm_trigger m) true in
  if sm_ready m1 then Some m1 else wait_ready (sm_update m1) now seed pings snapshots.

Definition make_sequence (m : SequenceManager)
    (now : pyfloat) (seed : Z) pings snapshots
    (start_index : Z) (end_index : option Z) (mode : string) (cache_tokens_needed : option Z)
    : option (SequenceManager * result (list RemoteSpanInfo)) :=
  m' ← ensure_ready m now seed pings snapshots;
  let end_index := or_default end_index (sm_len m') in
  if bool_decide (mode = "min_latency") then
    Some (m', _make_sequence_with_min_latency m' start_index end_index cache_tokens_needed)
  else if bool_decide (mode = "max_throughput") then
    r ← _make_sequence_with_max_throughput m' seed start_index end_index; Some (m', r)
  else Some (m', Err RuntimeError).

(** *** rpc_info *)

(** What one attempt observes: the updates it had to await and the server's answer. *)
Record rpc_attempt := mkAttempt {
  at_snapshots : list (string -> option DHTValue);
  at_answer : PeerID -> result pyval;
}.

Definition online_servers (info : RemoteModuleInfo) : list PeerID :=
  map fst (filter (fun kv => si_state kv.2 = ONLINE) (rm_servers info)).

(** One pass through the [try] block: the peer that was asked, if any, and the answer. *)
Definition rpc_info_attempt (m : SequenceManager) now seed pings (a : rpc_attempt)
    : option (SequenceManager * option PeerID * result pyval) :=
  m1 ← (if sm_ready m then Some m else wait_ready (sm_update m) now seed pings (at_snapshots a));
  match sq_block_infos (sm_info m1) with
  | [] => Some (m1, None, Err IndexError)
  | first :: _ =>
      match online_servers first with
      | [] => Some (m1, None, Err (MissingBlocksError [0]))
      | x :: l => let p := random_choice seed x l in Some (m1, Some p, at_answer a p)
      end
  end.

Fixpoint rpc_info_loop (m : SequenceManager) now seed pings (attempt_no : Z)
    (attempts : list rpc_attempt) : option (SequenceManager * result pyval) :=
  match attempts with
  | [] => None
  | a :: rest =>
      r ← rpc_info_attempt m now seed pings a;
      match r with
      | (m1, Some p, Ok v) =>
          Some (on_request_success (sm_with_rpc_info m1 v) p, Ok v)
      | (m1, None, Ok v) => Some (sm_with_rpc_info m1 v, Ok v)
      | (m1, p, Err e) =>
          if negb (is_Exception e) then Some (m1, Err e)
          else
            let m2 := on_request_failure m1 p in
            if bool_decide (cfg_max_retries (sm_config m) = Some (attempt_no + 1))
            then Some (m2, Err e)
            else rpc_info_loop m2 now (seed + 1) pings (attempt_no + 1) rest
      end
  end.

(** [rpc_info]; [None] means that the retries still go on after the given attempts. *)
Definition rpc_info (m : SequenceManager) now seed pings (attempts : list rpc_attempt)
    : option (SequenceManager * result pyval) :=
  match sm_rpc_info m with
  | Some v => Some (m, Ok v)
  | None => rpc_info_loop (sm_with_flags m (sm_ready m) (sm_trigger m) true) now seed pings 0 attempts
  end.

(** [get_request_metadata]: the spending policy ([NoSpendingPolicy]) always pays 0 points. *)
Record RequestMetadata := mkMeta {
  md_points : pyfloat;
  md_active_adapter : option string;
  md_args_structure : option pyval;
}.

Definition get_points : pyfloat := f_zero.

Definition get_request_metadata (m : SequenceManager) (args_structure : option pyval) : RequestMetadata :=
  mkMeta get_points (cfg_active_adapter (sm_config m)) args_structure.

(** The update thread's [shutdown]. *)
Definition sm_shutdown (m : SequenceManager) : SequenceManager :=
  sm_with_flags m (sm_ready m) true (sm_thread_started m).

(** ** Retry delays *)

(** The delay before a retry never decreases with the attempt number, is zero for the
    first retry, and never exceeds [max_backoff]; it reaches [max_backoff] and stays there. *)
Theorem get_retry_delay_backoff (config : ClientConfig) (i j : Z) :
  0 <= cfg_min_backoff config -> 0 <= cfg_max_backoff config -> 0 <= i <= j ->
  get_retry_delay config 0 = 0 /\
  0 <= get_retry_delay config i <= get_retry_delay config j /\
  get_retry_delay config j <= cfg_max_backoff config /\
  (1 <= cfg_min_backoff config -> cfg_max_backoff config < j ->
   get_retry_delay config j = cfg_max_backoff config).
Proof.
  intros Hmin Hmax Hij. unfold get_retry_delay. simpl.
  assert (Hpow : forall k, 1 <= k -> 0 < 2 ^ (k - 1)) by (intros; apply Z.pow_pos_nonneg; lia).
  assert (Hmono : 1 <= i -> 2 ^ (i - 1) <= 2 ^ (j - 1)) by (intros; apply Z.pow_le_mono_r; lia).
  destruct (Z.eqb_spec i 0), (Z.eqb_spec j 0); try lia.
  - specialize (Hpow j ltac:(lia)). split; [done|]. split; [nia|]. split; [lia|].
    intros H1 H2. assert (j <= 2 ^ (j - 1)); [|nia].
    pose proof (Z.pow_gt_lin_r 2 (j - 1)). lia.
  - specialize (Hpow j ltac:(lia)). specialize (Hmono ltac:(lia)).
    assert (0 < 2 ^ (i - 1)) by (apply Z.pow_pos_nonneg; lia).
    split; [done|]. split; [nia|]. split; [lia|].
    intros H1 H2. assert (j <= 2 ^ (j - 1)); [|nia].
    pose proof (Z.pow_gt_lin_r 2 (j - 1)). lia.
Qed.

(** ** Filters *)

(** Which servers of a block remain. *)
Lemma filter_block_cases (m : SequenceManager) (info : RemoteModuleInfo) :
  let out := rm_servers (filter_block m info) in
  let admissible kv := kv ∈ rm_servers info /\ allowed_peer m kv.1 = true in
  (forall kv, kv ∈ out -> admissible kv) /\
  (out = [] <-> forall kv, ~ admissible kv) /\
  (forall kv, admissible kv -> bl_contains (sm_banned_peers m) kv.1 = false -> kv ∈ out) /\
  (forall kv kv', kv ∈ out -> admissible kv' ->
     bl_contains (sm_banned_peers m) kv'.1 = false -> bl_contains (sm_banned_peers m) kv.1 = false).
Proof.
  simpl. set (servers := filter (fun kv => allowed_peer m kv.1 = true) (rm_servers info)).
  set (valid := filter (fun kv => bl_contains (sm_banned_peers m) kv.1 = false) servers).
  assert (Hadm : forall kv, kv ∈ servers <-> kv ∈ rm_servers info /\ allowed_peer m kv.1 = true).
  { intros kv. unfold servers. rewrite list_elem_of_filter. tauto. }
  assert (Hval : forall kv, kv ∈ valid <-> bl_contains (sm_banned_peers m) kv.1 = false /\ kv ∈ servers).
  { intros kv. unfold valid. by rewrite list_elem_of_filter. }
  assert (Hle : zlen valid < zlen servers \/ valid = servers).
  { apply filter_shorter. }
  assert (Hcase : (valid = [] /\ rm_servers (filter_block m info) = servers) \/
                  (valid <> [] /\ rm_servers (filter_block m info) = valid)).
  { unfold filter_block. simpl. fold servers. fold valid.
    destruct (zlen valid =? 0) eqn:E0; [apply zlen_zero in E0; left|right].
    - split; [done|]. by destruct (_ <? _).
    - split; [intros Hn; apply zlen_zero in Hn; congruence|].
      destruct Hle as [Hlt | ->]; [|by rewrite Z.ltb_irrefl]. apply Z.ltb_lt in Hlt. by rewrite Hlt. }
  unfold filter_block in Hcase. simpl in Hcase. fold servers in Hcase. fold valid in Hcase.
  destruct Hcase as [[Hnil ->]|[Hne ->]].
  - split; [intros kv; by rewrite Hadm|]. split.
    { rewrite list_nil_iff. by setoid_rewrite Hadm. }
    assert (Hnone : forall kv, kv ∈ servers -> bl_contains (sm_banned_peers m) kv.1 <> false).
    { intros kv Hkv Hb. assert (Hin : kv ∈ valid) by (by apply Hval). rewrite Hnil in Hin. inversion Hin. }
    split; [intros kv Hkv%Hadm Hb; by destruct (Hnone kv)|].
    intros kv kv' _ Hkv'%Hadm Hb. by destruct (Hnone kv').
  - split; [intros kv Hkv; apply Hadm; by apply Hval in Hkv as [_ ?]|]. split.
    { split; [done|]. intros Hno. apply list_nil_iff. intros kv Hkv.
      apply (Hno kv), Hadm. by apply Hval in Hkv as [_ ?]. }
    split; [intros kv Hkv%Hadm Hb; by apply Hval|].
    intros kv kv' Hkv _ _. by apply Hval in Hkv as [? _].
Qed.

(** The servers that remain: those that the lists admit and that are not banned, or all that the lists admit when
    every one of them is banned. *)
Lemma filter_block_exact (m : SequenceManager) (info : RemoteModuleInfo) kv :
  let admissible kv := kv ∈ rm_servers info /\ allowed_peer m kv.1 = true in
  kv ∈ rm_servers (filter_block m info) <->
  admissible kv /\ (bl_contains (sm_banned_peers m) kv.1 = false \/
                    forall kv', admissible kv' -> bl_contains (sm_banned_peers m) kv'.1 = true).
Proof.
  cbv zeta. destruct (filter_block_cases m info) as (Hadm & _ & Hfree & Hban). split.
  - intros Hin. split; [by apply Hadm|]. destruct (bl_contains (sm_banned_peers m) kv.1) eqn:Eb; [right|by left].
    intros kv' Hkv'. apply not_false_iff_true. intros Hf. by rewrite (Hban kv kv' Hin Hkv' Hf) in Eb.
  - intros [Hkv [Hf|Hall]]; [by apply Hfree|]. unfold filter_block. cbn [rm_servers].
    set (servers := filter (fun kv => allowed_peer m kv.1 = true) (rm_servers info)).
    assert (Hs : forall kv', kv' ∈ servers <-> kv' ∈ rm_servers info /\ allowed_peer m kv'.1 = true).
    { intros kv'. unfold servers. rewrite list_elem_of_filter. tauto. }
    assert (filter (fun kv => bl_contains (sm_banned_peers m) kv.1 = false) servers = []) as ->.
    { apply list_nil_iff. intros kv' [Hb Hin]%list_elem_of_filter. rewrite Hall in Hb; [done|]. by apply Hs. }
    assert (Hin : kv ∈ servers) by by apply Hs. by destruct (zlen [] <? zlen servers).
Qed.

(** After the filters of [_update], every server of a block satisfies the allow and block
    lists; a banned server is kept only when all admissible servers are banned, so the
    filters on bans never empty a block. *)
Theorem filter_block_spec (m : SequenceManager) (info : RemoteModuleInfo) :
  let out := rm_servers (filter_block m info) in
  let admissible kv := kv ∈ rm_servers info /\ allowed_peer m kv.1 = true in
  (forall kv, kv ∈ out -> admissible kv) /\
  (out = [] <-> forall kv, ~ admissible kv) /\
  (forall kv, admissible kv -> bl_contains (sm_banned_peers m) kv.1 = false -> kv ∈ out) /\
  (forall kv kv', kv ∈ out -> admissible kv' ->
     bl_contains (sm_banned_peers m) kv'.1 = false -> bl_contains (sm_banned_peers m) kv.1 = false).
Proof. apply filter_block_cases. Qed.

(** ** Routes *)

(** A contiguous chain of non-empty spans from block [a] to block [b]. *)
Fixpoint chain (a : Z) (l : list RemoteSpanInfo) (b : Z) : Prop :=
  match l with
  | [] => a = b
  | s :: l' => sp_start s = a /\ a < sp_end s /\ chain (sp_end s) l' b
  end.

Lemma chain_app a l k b : (exists c, chain a l c /\ chain c k b) <-> chain a (l ++ k) b.
Proof.
  revert a. induction l as [|s l IH]; intros a; simpl.
  - split; [by intros (c & -> & ?)|]. eauto.
  - rewrite <- IH. split.
    + intros (c & (? & ? & ?) & ?). eauto 6.
    + intros (? & ? & c & ? & ?). eauto 6.
Qed.

Lemma chain_le a l b : chain a l b -> a <= b.
Proof. revert a. induction l as [|s l IH]; simpl; intros a; [lia|]. intros (? & ? & H%IH). lia. Qed.

(** A piece of a span of the routing table, held by the same server. *)
Definition piece_of (prio : list RemoteSpanInfo) (s : RemoteSpanInfo) : Prop :=
  exists s0, s0 ∈ prio /\ sp_peer_id s = sp_peer_id s0 /\ sp_server_info s = sp_server_info s0 /\
    sp_start s0 <= sp_start s /\ sp_end s <= sp_end s0.

Definition manager_ok (m : SequenceManager) : Prop :=
  table_ok (sm_len m) (sq_spans_by_priority (sm_info m)) (sq_spans_containing_block (sm_info m)).

Lemma row_of_ok m i :
  manager_ok m -> 0 <= i < sm_len m ->
  row_of (sq_spans_containing_block (sm_info m)) i
  = Ok (filter (contains_block i) (sq_spans_by_priority (sm_info m))).
Proof.
  intros (Hl & _ & _ & Hrow) Hi. unfold row_of.
  destruct (lookup_lt_is_Some_2 (sq_spans_containing_block (sm_info m)) (Z.to_nat i)) as [row Hr].
  { unfold zlen in Hl. lia. }
  rewrite (znth_Some _ _ row) by (done || lia). f_equal. apply Hrow; [lia|done].
Qed.

Lemma max_throughput_spec m fuel seed i e acc :
  manager_ok m -> 0 <= i -> e <= sm_len m -> (Z.to_nat (e - i) <= fuel)%nat ->
  (exists l b, max_throughput_loop fuel (sq_spans_containing_block (sm_info m)) (sm_rtts m) seed i e acc
               = Some (Ok (acc ++ l)) /\ chain i l b /\ e <= b /\
               b <= Z.max i (sm_len m) /\
               Forall (piece_of (sq_spans_by_priority (sm_info m))) l) \/
  (exists j, max_throughput_loop fuel (sq_spans_containing_block (sm_info m)) (sm_rtts m) seed i e acc
             = Some (Err (MissingBlocksError [j])) /\ i <= j < e /\
             forall s, s ∈ sq_spans_by_priority (sm_info m) -> ~ contains_block j s).
Proof.
  intros Hm. revert seed i acc. induction fuel as [|fuel IH]; intros seed i acc Hi He Hf; simpl.
  - destruct (Z.ltb_spec i e); simpl; [lia|]. left. exists [], i. rewrite app_nil_r.
    split; [done|]. split; [by cbn|]. split; [lia|]. split; [lia|constructor].
  - destruct (Z.ltb_spec i e) as [Hlt|]; simpl.
    2:{ left. exists [], i. rewrite app_nil_r.
        split; [done|]. split; [by cbn|]. split; [lia|]. split; [lia|constructor]. }
    rewrite row_of_ok by (done || lia).
    destruct (filter (contains_block i) _) as [|x l] eqn:Hrow.
    { right. exists i. split; [done|]. split; [lia|]. intros s Hs Hc.
      assert (Hin : s ∈ filter (contains_block i) (sq_spans_by_priority (sm_info m)))
        by (by apply list_elem_of_filter).
      rewrite Hrow in Hin. inversion Hin. }
    pose proof (np_choice_in seed x l (map (span_weight (sm_rtts m)) (x :: l))) as Hch.
    set (ch := np_choice _ _ _ _) in *. rewrite <- Hrow in Hch.
    apply list_elem_of_filter in Hch as [[Hc1 Hc2] Hprio].
    destruct (Z.leb_spec (sp_start ch) i); [|lia]. destruct (Z.ltb_spec i (sp_end ch)); [|lia]. simpl.
    assert (Hend : sp_end ch <= sm_len m) by (destruct Hm as (_ & _ & Hb & _); by apply Hb).
    destruct (IH (seed + 1) (sp_end ch) (acc ++ [sp_with_start ch i])) as [(k & b & Hr & Hk & Hb & Hb' & HF)|(j & Hr & Hj & Hno)];
      [lia|lia|lia| |].
    + left. exists (sp_with_start ch i :: k), b. rewrite Hr, <- app_assoc. split; [done|].
      split; [simpl; done|]. split; [done|]. split; [lia|].
      constructor; [|done]. exists ch. repeat split; (done || simpl; lia).
    + right. exists j. split; [done|]. split; [lia|done].
Qed.

(** C34: [make_sequence(mode="max_throughput")] always returns.  Its result is a contiguous
    chain of pieces of known spans that starts at the first block and reaches the end of the
    request; if it fails, no known server holds the block that it names. *)
Theorem max_throughput_route m seed start_index end_index :
  manager_ok m -> 0 <= start_index -> end_index <= sm_len m -> start_index <= end_index ->
  (exists l b, _make_sequence_with_max_throughput m seed start_index end_index = Some (Ok l) /\
               chain start_index l b /\ end_index <= b <= sm_len m /\
               Forall (piece_of (sq_spans_by_priority (sm_info m))) l) \/
  (exists j, _make_sequence_with_max_throughput m seed start_index end_index
             = Some (Err (MissingBlocksError [j])) /\ start_index <= j < end_index /\
             forall s, s ∈ sq_spans_by_priority (sm_info m) -> ~ contains_block j s).
Proof.
  intros Hm Hs He Hse. unfold _make_sequence_with_max_throughput.
  destruct (max_throughput_spec m (Z.to_nat (end_index - start_index)) seed start_index end_index [])
    as [(l & b & Hr & Hc & Hb & Hb' & HF)|Herr]; [done|done|done|done| |].
  - left. exists l, b. rewrite Hr. repeat split; (done || lia).
  - by right.
Qed.

(** ** Refreshing the table *)

(** The module records of the table carry the uids of the table. *)
Definition uids_ok (m : SequenceManager) : Prop :=
  map rm_uid (sq_block_infos (sm_info m)) = sm_block_uids m.

Lemma replace_servers_all uids olds news :
  map rm_uid olds = uids -> map rm_uid news = uids -> replace_servers uids olds news = (news, Ok ()).
Proof.
  revert olds news. induction uids as [|uid uids IH]; intros [|o olds] [|n news] Ho Hn; try done.
  simpl in *. injection Ho as Ho Hos. injection Hn as Hn Hns.
  rewrite decide_True by done. rewrite IH by done. destruct n as [u s]. simpl in *. congruence.
Qed.

Lemma map_filter_block_uid m infos : map rm_uid (map (filter_block m) infos) = map rm_uid infos.
Proof. rewrite map_map. done. Qed.

Lemma block_offset_uid infos uid uids p i :
  map rm_uid infos = uid :: uids -> parse_uid uid = Ok (p, i) -> block_offset infos = Ok i.
Proof. destruct infos as [|x infos]; simpl; [done|]. intros [= -> _] ->. done. Qed.

Lemma sort_spans_peer infos spans prio sp :
  compute_spans infos ONLINE = Ok spans -> prio ≡ₚ dvalues spans -> sp ∈ prio ->
  exists x info, x ∈ infos /\ (sp_peer_id sp, info) ∈ rm_servers x.
Proof.
  intros Hc Hperm Hsp. rewrite Hperm in Hsp. pose proof (computed_spans_ok _ _ _ Hc) as [Hwf Hok].
  apply list_elem_of_fmap in Hsp as ([p sp'] & -> & Hin). simpl.
  apply (elem_dget _ _ _ Hwf) in Hin. destruct (Hok p sp' Hin) as (-> & _).
  apply compute_spans_offset in Hc as (off & _ & ->).
  apply span_fold_origin in Hin as [[? [=]]|(i & info & Hev & _)].
  apply elem_of_span_events in Hev as (x & _ & Hx & Hs). exists x, info. split; [|done].
  by eapply list_elem_of_lookup_2.
Qed.

Lemma pinged_servers_total m seed rows :
  rows <> [] -> exists l, pinged_servers m seed rows = Ok l.
Proof.
  intros Hne. unfold pinged_servers. destruct rows as [|r rows]; [done|].
  rewrite (znth_Some _ 0 r) by done. destruct (@exists_last _ (r :: rows)) as (k & x & ->); [done|].
  rewrite znth_last. simpl. eauto.
Qed.

(** The table after a refresh: that of the spans of what was read and filtered. *)
Lemma update_table (m : SequenceManager) found now seed pings uid uids p i mods :
  uids_ok m -> sm_block_uids m = uid :: uids -> parse_uid uid = Ok (p, i) ->
  get_remote_module_infos found (sm_block_uids m) (cfg_active_adapter (sm_config m)) true = Ok mods ->
  map rm_uid mods = sm_block_uids m ->
  exists m' spans, _update m found now seed pings = (m', Ok ()) /\
    sm_ready m' = true /\ sm_block_uids m' = sm_block_uids m /\ uids_ok m' /\ manager_ok m' /\
    compute_spans (map (filter_block m) mods) ONLINE = Ok spans /\
    sq_spans_by_priority (sm_info m') ≡ₚ dvalues spans /\
    (forall sp, sp ∈ sq_spans_by_priority (sm_info m') -> sp_state sp = ONLINE).
Proof.
  intros Hu Huids Hp Hget Hmods. unfold _update. rewrite Hget.
  assert (Hfu : map rm_uid (map (filter_block m) mods) = sm_block_uids m) by by rewrite map_filter_block_uid.
  destruct (sort_spans_ok (map (filter_block m) mods) i) as (spans & prio & rows & Hc & Hs & Hperm & _ & Hon & Htab).
  { eapply block_offset_uid; [|done]. by rewrite Hfu. }
  assert (Hlen : zlen (map (filter_block m) mods) = zlen (sm_block_uids m)).
  { rewrite <- Hfu. unfold zlen. by rewrite !length_map. }
  assert (Hupd : update_ (sm_info m) (map (filter_block m) mods) now
                 = (mkSeqInfo (sm_block_uids m) (map (filter_block m) mods) prio rows (Some now), Ok ())).
  { unfold update_. fold (sm_block_uids m). rewrite Hlen, Z.eqb_refl. cbn [negb].
    rewrite (replace_servers_all _ _ _ Hu Hfu). cbn iota beta. by rewrite Hs. }
  rewrite Hupd. cbn [mbind result_bind sq_spans_containing_block].
  assert (Hne : rows <> []).
  { intros ->. destruct Htab as [Hl _]. rewrite Hlen, Huids in Hl. unfold zlen in Hl. simpl in Hl. lia. }
  destruct (pinged_servers_total (sm_with_info m (mkSeqInfo (sm_block_uids m) (map (filter_block m) mods) prio rows (Some now))) seed rows Hne) as [l ->].
  eexists _, spans. split; [reflexivity|]. split; [done|]. split; [done|]. split; [done|].
  split; [rewrite Hlen in Htab; exact Htab|]. split; [done|]. split; [exact Hperm|]. exact Hon.
Qed.

(** A refresh of the table always succeeds, whatever the DHT returns: afterwards the
    table is well formed and ready, its uids are unchanged, and every span in it belongs to an
    ONLINE server that the allow and block lists admit. *)
Theorem _update_spec (m : SequenceManager) found now seed pings uid uids p i :
  uids_ok m -> sm_block_uids m = uid :: uids -> parse_uid uid = Ok (p, i) ->
  exists m', _update m found now seed pings = (m', Ok ()) /\
    sm_ready m' = true /\ sm_block_uids m' = sm_block_uids m /\ uids_ok m' /\ manager_ok m' /\
    forall sp, sp ∈ sq_spans_by_priority (sm_info m') ->
      sp_state sp = ONLINE /\ allowed_peer m (sp_peer_id sp) = true.
Proof.
  intros Hu Huids Hp.
  destruct (module_infos_total found (sm_block_uids m) (cfg_active_adapter (sm_config m))) as (mods & Hget & Hmods & _).
  destruct (update_table m found now seed pings uid uids p i mods Hu Huids Hp Hget Hmods)
    as (m' & spans & Hupd & Hr & Hb & Hu' & Hok & Hc & Hperm & Hon).
  exists m'. split_and!; [done..|]. intros sp Hsp. split; [by apply Hon|].
  destruct (sort_spans_peer _ _ _ _ Hc Hperm Hsp) as (x & info & Hx & Hin).
  apply list_elem_of_fmap in Hx as (y & -> & _).
  destruct (filter_block_cases m y) as [Hall _]. by destruct (Hall _ Hin).
Qed.

(** the servers of the first block are sampled and then forgotten: a ping is only ever
    sent to a server that holds some block other than the first one. *)
Theorem pinged_servers_skip_first (m : SequenceManager) seed rows pinged p :
  0 <= cfg_max_pinged (sm_config m) -> 2 <= zlen rows ->
  pinged_servers m seed rows = Ok pinged -> p ∈ pinged ->
  exists i row sp, 1 <= i /\ rows !! Z.to_nat i = Some row /\ sp ∈ row /\ sp_peer_id sp = p.
Proof.
  intros Hk Hn. destruct (@exists_last _ rows) as (pre & lastrow & ->).
  { intros ->. unfold zlen in Hn. simpl in Hn. lia. }
  unfold pinged_servers. rewrite znth_last. rewrite zlen_app in Hn. unfold zlen in Hn. simpl in Hn.
  intros H Hp. inv_ok. unfold py_set in Hp.
  rewrite elem_of_remove_dups, elem_of_app, elem_of_remove_dups in Hp. destruct Hp as [Hp|Hp].
  - apply sample_up_to_subset in Hp; [|done]. apply list_elem_of_fmap in Hp as (sp & -> & Hsp).
    apply list_elem_of_In, in_concat in Hsp as (row & Hrow & Hsp).
    apply list_elem_of_In in Hrow. apply list_elem_of_In in Hsp.
    apply list_elem_of_lookup in Hrow as [k Hrow]. unfold zslice, clamp in Hrow.
    apply lookup_take_Some in Hrow as [Hrow Hlt]. rewrite lookup_drop in Hrow.
    exists (Z.of_nat k + 1), row, sp. split; [lia|]. split; [|done].
    rewrite <- Hrow. f_equal. simpl. rewrite length_app. simpl. lia.
  - apply sample_up_to_subset in Hp; [|done]. apply list_elem_of_fmap in Hp as (sp & -> & Hsp).
    exists (zlen pre), lastrow, sp. unfold zlen. split; [lia|]. split; [|done].
    rewrite Nat2Z.id. by rewrite list_lookup_middle.
Qed.

(** after a failure the peer is banned and gone from every block record, and an update
    is triggered exactly when some block is left without servers.  The spans that routing
    reads are not changed: until the next update the peer can be chosen again. *)
Theorem on_request_failure_spec (m : SequenceManager) (p : PeerID) :
  let m' := on_request_failure m (Some p) in
  bl_contains (sm_banned_peers m') p = true /\
  (forall info, info ∈ sq_block_infos (sm_info m') -> p ∉ dkeys (rm_servers info)) /\
  (sm_trigger m' = true /\ sm_ready m' = false <->
     (exists info, info ∈ sq_block_infos (sm_info m') /\ rm_servers info = []) \/
     (sm_trigger m = true /\ sm_ready m = false)) /\
  sq_spans_by_priority (sm_info m') = sq_spans_by_priority (sm_info m) /\
  sq_spans_containing_block (sm_info m') = sq_spans_containing_block (sm_info m).
Proof.
  cbv zeta. unfold on_request_failure. cbn [sm_info sm_with_banned sm_with_info].
  set (infos := map (pop_server p) (sq_block_infos (sm_info m))).
  assert (Hex : existsb no_servers infos = true <-> exists info, info ∈ infos /\ rm_servers info = []).
  { rewrite existsb_exists. split; intros (x & Hin & Hx).
    - exists x. apply list_elem_of_In in Hin. split; [done|]. unfold no_servers in Hx. by destruct (rm_servers x).
    - exists x. apply list_elem_of_In in Hin. split; [done|]. unfold no_servers. by rewrite Hx. }
  assert (Hpop : forall info, info ∈ infos -> p ∉ dkeys (rm_servers info)).
  { intros info Hin. apply list_elem_of_fmap in Hin as (x & -> & _). simpl.
    apply dget_None. rewrite dget_dpop. by rewrite decide_True. }
  assert (Hban : bl_contains (bl_register_failure (sm_banned_peers m) p) p = true).
  { rewrite bl_failure_contains. by rewrite bool_decide_true. }
  destruct (existsb no_servers infos) eqn:E; simpl.
  - split; [done|]. split; [done|]. split; [|done]. split; [|done]. intros _. left. by apply Hex.
  - split; [done|]. split; [done|]. split; [|done]. split; [by right|].
    intros [Hno|?]; [|done]. apply Hex in Hno. congruence.
Qed.

(** a success lifts the peer's ban and leaves the others. *)
Theorem on_request_success_spec (m : SequenceManager) (p q : PeerID) :
  bl_contains (sm_banned_peers (on_request_success m p)) q
  = negb (bool_decide (p = q)) && bl_contains (sm_banned_peers m) q.
Proof. apply bl_success_contains. Qed.
End sequence_manager.
