(* ===== verification/Routing.v ===== *)
(** * Routing: correctness of [_make_sequence_with_min_latency]

    The inference graph of [SequenceManager], its vertices and edges, and the proof that the
    spans read off a path of that graph form a contiguous chain of server pieces. *)

From S2P Require Import Prelude PyString PyFloat PyDict DataStructures Utils Dht SequenceInfo SequenceManager.

Section routing.
Context {PI : PeerIds} {PD : Pydantic} {BL : Blacklist} {RND : PyRandom} {PF : PathFinder}.
Implicit Types (m : SequenceManager) (rows : list (list RemoteSpanInfo)).

Abbreviation prio_of m := (sq_spans_by_priority (sm_info m)).
Abbreviation rows_of m := (sq_spans_containing_block (sm_info m)).

(** ** Loops that add edges *)

Lemma elem_of_for_edges {A} (l : list A) f es e :
  for_edges l f = Ok es -> e ∈ es <-> exists x es', x ∈ l /\ f x = Ok es' /\ e ∈ es'.
Proof.
  unfold for_edges. intros H. inv_ok. apply mapR_Forall2 in Hrun.
  rewrite list_elem_of_In, in_concat. split.
  - intros (es' & Hes' & He). apply list_elem_of_In in Hes'. apply list_elem_of_In in He.
    apply list_elem_of_lookup in Hes' as [k Hk].
    destruct (Forall2_lookup_r _ _ _ _ _ Hrun Hk) as (x & Hx & Hf).
    exists x, es'. split; [by eapply list_elem_of_lookup_2|done].
  - intros (x & es' & Hx & Hf & He). apply list_elem_of_lookup in Hx as [k Hk].
    destruct (Forall2_lookup_l _ _ _ _ _ Hrun Hk) as (es'' & Hes & Hf').
    exists es'. rewrite <- !list_elem_of_In. split; [|done].
    rewrite Hf in Hf'. injection Hf' as ->. by eapply list_elem_of_lookup_2.
Qed.

Lemma mapR_total {A B} (f : A -> result B) l :
  (forall x, x ∈ l -> is_ok (f x) = true) -> exists k, mapR f l = Ok k.
Proof.
  induction l as [|x l IH]; intros Hf; simpl; [eauto|].
  pose proof (Hf x ltac:(left)) as Hx. destruct (f x); [|done].
  destruct IH as [k ->]; [|eauto]. intros y Hy. apply Hf. by right.
Qed.

Lemma for_edges_total {A} (l : list A) f :
  (forall x, x ∈ l -> is_ok (f x) = true) -> exists es, for_edges l f = Ok es.
Proof. intros Hf. unfold for_edges. destruct (mapR_total f l Hf) as [k ->]. simpl. eauto. Qed.

Lemma mapR_Err_first {A B} (f : A -> result B) l x err :
  x ∈ l -> f x = Err err -> (forall y e, y ∈ l -> f y = Err e -> e = err) -> mapR f l = Err err.
Proof.
  induction l as [|y l IH]; intros Hx Hf Hall; [inversion Hx|]. simpl.
  destruct (f y) as [b|e] eqn:Ey; [|by rewrite (Hall y e ltac:(left) Ey)].
  apply elem_of_cons in Hx as [->|Hx]; [congruence|].
  rewrite IH; [done|done|done|]. intros z e Hz. apply Hall. by right.
Qed.

(** ** Held and missing blocks *)

Definition held m (i : Z) : Prop := exists s, s ∈ prio_of m /\ contains_block i s.

Lemma row_nil_held m i : filter (contains_block i) (prio_of m) = [] <-> ~ held m i.
Proof.
  rewrite list_nil_iff. unfold held. split.
  - intros H (s & Hs & Hc). apply (H s). by apply list_elem_of_filter.
  - intros H s [Hc Hs]%list_elem_of_filter. apply H. eauto.
Qed.

Lemma missing_blocks_spec m a b :
  manager_ok m -> 0 <= a -> b <= sm_len m ->
  exists l, missing_blocks (rows_of m) a b = Ok l /\ forall j, j ∈ l <-> a <= j < b /\ ~ held m j.
Proof.
  intros Hm Ha Hb. unfold missing_blocks.
  assert (Hgen : forall js acc, (forall j, j ∈ js -> 0 <= j < sm_len m) ->
            exists l, foldR (fun acc i => row ← row_of (rows_of m) i;
                          Ok (match row with [] => acc ++ [i] | _ => acc end)) acc js = Ok (acc ++ l) /\
                      forall j, j ∈ l <-> j ∈ js /\ ~ held m j).
  { induction js as [|j js IH]; intros acc Hjs; simpl.
    - exists []. rewrite app_nil_r. split; [done|]. intros j. split; [intros H; inversion H|].
      intros [H _]. inversion H.
    - rewrite row_of_ok by (done || apply Hjs; left). cbn [mbind result_bind].
      destruct (filter (contains_block j) (prio_of m)) as [|x l'] eqn:Ef.
      + destruct (IH (acc ++ [j])) as (l & -> & Hl); [intros; apply Hjs; by right|].
        exists (j :: l). rewrite <- app_assoc. split; [done|]. intros k.
        rewrite !elem_of_cons, Hl. apply row_nil_held in Ef.
        split; [intros [->|[? ?]]; auto|]. intros [[->|?] ?]; auto.
      + destruct (IH acc) as (l & -> & Hl); [intros; apply Hjs; by right|].
        exists l. split; [done|]. intros k. rewrite elem_of_cons, Hl.
        assert (Hh : held m j).
        { exists x. apply and_comm. apply (list_elem_of_filter (contains_block j)). rewrite Ef. left. }
        split; [tauto|]. intros [[->|?] ?]; [done|auto]. }
  destruct (Hgen (zrange a b) []) as (l & -> & Hl).
  { intros j Hj. apply elem_of_zrange in Hj. lia. }
  exists l. split; [done|]. intros j. by rewrite Hl, elem_of_zrange.
Qed.

(** ** The edges of the inference graph *)

Inductive valid_edge m (a b : Z) : node -> node -> Prop :=
  | VE_client s : s ∈ prio_of m -> contains_block a s ->
      valid_edge m a b NStart (NPeer (sp_peer_id s) a)
  | VE_return s : s ∈ prio_of m -> contains_block (b - 1) s ->
      valid_edge m a b (NPeer (sp_peer_id s) b) NEnd
  | VE_hop s s' i : s ∈ prio_of m -> s' ∈ prio_of m -> a < i < b -> sp_end s = i ->
      contains_block (i - 1) s -> contains_block i s' ->
      valid_edge m a b (NPeer (sp_peer_id s) i) (NPeer (sp_peer_id s') i)
  | VE_compute s i : s ∈ prio_of m -> Z.max (sp_start s) a <= i < Z.min (sp_end s) b ->
      valid_edge m a b (NPeer (sp_peer_id s) i) (NPeer (sp_peer_id s) (i + 1)).

(** A server announces that it performs no inference steps per second. *)
Definition zero_rps (s : RemoteSpanInfo) : bool :=
  f_eq (or_default (si_inference_rps (sp_server_info s)) default_inference_rps) f_zero.

(** No server of the blocks [a .. b) does *)
Definition no_zero_rps m (a b : Z) : Prop :=
  forall s i, s ∈ prio_of m -> a <= i < b -> contains_block i s -> zero_rps s = false.

Definition has_pair (es : list edge) (u v : node) : Prop := exists d, (u, v, d) ∈ es.

Lemma client_edges_spec m a cache :
  manager_ok m -> 0 <= a < sm_len m ->
  exists es, client_edges m a cache = Ok es /\
    forall u v, has_pair es u v <->
      exists s, s ∈ prio_of m /\ contains_block a s /\ u = NStart /\ v = NPeer (sp_peer_id s) a.
Proof.
  intros Hm Ha. unfold client_edges. rewrite row_of_ok by done. eexists. split; [reflexivity|].
  intros u v. split.
  - intros [d Hd]. apply list_elem_of_fmap in Hd as (s & [= -> -> _] & Hs).
    apply list_elem_of_filter in Hs as [Hc Hs]. eauto.
  - intros (s & Hs & Hc & -> & ->). eexists. apply list_elem_of_fmap. exists s. split; [reflexivity|].
    by apply list_elem_of_filter.
Qed.

Lemma return_edges_spec m b :
  manager_ok m -> 0 < b <= sm_len m ->
  exists es, return_edges m b = Ok es /\
    forall u v, has_pair es u v <->
      exists s, s ∈ prio_of m /\ contains_block (b - 1) s /\ u = NPeer (sp_peer_id s) b /\ v = NEnd.
Proof.
  intros Hm Hb. unfold return_edges. rewrite row_of_ok by (done || lia). eexists. split; [reflexivity|].
  intros u v. split.
  - intros [d Hd]. apply list_elem_of_fmap in Hd as (s & [= -> -> _] & Hs).
    apply list_elem_of_filter in Hs as [Hc Hs]. eauto.
  - intros (s & Hs & Hc & -> & ->). eexists. apply list_elem_of_fmap. exists s. split; [reflexivity|].
    by apply list_elem_of_filter.
Qed.

Lemma hop_edges_spec m a b cache :
  manager_ok m -> 0 <= a -> b <= sm_len m ->
  exists es, hop_edges m a b cache = Ok es /\
    forall u v, has_pair es u v <->
      exists s s' i, s ∈ prio_of m /\ s' ∈ prio_of m /\ a < i < b /\ sp_end s = i /\
        contains_block (i - 1) s /\ contains_block i s' /\
        u = NPeer (sp_peer_id s) i /\ v = NPeer (sp_peer_id s') i.
Proof.
  intros Hm Ha Hb. unfold hop_edges.
  match goal with |- context [for_edges (zrange _ _) ?f] => set (body := f) end.
  assert (Hbody : forall i, a < i < b -> exists es, body i = Ok es /\
    forall u v, has_pair es u v <->
      exists s s', s ∈ prio_of m /\ s' ∈ prio_of m /\ sp_end s = i /\
        contains_block (i - 1) s /\ contains_block i s' /\
        u = NPeer (sp_peer_id s) i /\ v = NPeer (sp_peer_id s') i).
  { intros i Hi. unfold body. rewrite (row_of_ok m (i - 1)), (row_of_ok m i) by (done || lia).
    cbn [mbind result_bind].
    match goal with |- context [for_edges _ ?f] => set (inner := f) end.
    destruct (for_edges_total (filter (contains_block (i - 1)) (prio_of m)) inner) as [es Hes].
    { intros s _. unfold inner. by case_if. }
    exists es. split; [done|]. intros u v. unfold has_pair.
    setoid_rewrite (elem_of_for_edges _ _ _ _ Hes). unfold inner.
    setoid_rewrite list_elem_of_filter. split.
    - intros (d & s & es' & [Hc Hs] & He & Hd). case_if; [injection He as <-; inversion Hd|].
      injection He as <-. apply list_elem_of_fmap in Hd as (s' & [= -> -> _] & Hs').
      apply list_elem_of_filter in Hs' as [Hc' Hs']. zbool. exists s, s'. auto 10.
    - intros (s & s' & Hs & Hs' & He & Hc & Hc' & -> & ->). eexists _, s, _. split; [done|].
      rewrite He, Z.eqb_refl. simpl. split; [reflexivity|]. apply list_elem_of_fmap. exists s'.
      split; [reflexivity|]. by apply list_elem_of_filter. }
  destruct (for_edges_total (zrange (a + 1) b) body) as [es Hes].
  { intros i Hi%elem_of_zrange. destruct (Hbody i) as (es & -> & _); [lia|done]. }
  exists es. split; [done|]. intros u v. unfold has_pair.
  setoid_rewrite (elem_of_for_edges _ _ _ _ Hes). setoid_rewrite elem_of_zrange. split.
  - intros (d & i & es' & Hi & He & Hd). destruct (Hbody i) as (es'' & He'' & Hp); [lia|].
    rewrite He in He''. injection He'' as <-.
    destruct (proj1 (Hp u v)) as (s & s' & H); [by exists d|]. exists s, s', i. split; [tauto|].
    split; [tauto|]. split; [lia|tauto].
  - intros (s & s' & i & Hs & Hs' & Hi & H). destruct (Hbody i Hi) as (es' & He & Hp).
    destruct (proj2 (Hp u v)) as [d Hd]; [exists s, s'; tauto|].
    exists d, i, es'. split; [lia|done].
Qed.

Lemma compute_edges_spec m a b :
  no_zero_rps m a b ->
  exists es, compute_edges m a b = Ok es /\
    forall u v, has_pair es u v <->
      exists s i, s ∈ prio_of m /\ Z.max (sp_start s) a <= i < Z.min (sp_end s) b /\
        u = NPeer (sp_peer_id s) i /\ v = NPeer (sp_peer_id s) (i + 1).
Proof.
  intros Hz. unfold compute_edges.
  match goal with |- context [for_edges (prio_of m) ?f] => set (body := f) end.
  assert (Hbody : forall s, s ∈ prio_of m -> exists es, body s = Ok es /\
    forall u v, has_pair es u v <->
      exists i, Z.max (sp_start s) a <= i < Z.min (sp_end s) b /\
        u = NPeer (sp_peer_id s) i /\ v = NPeer (sp_peer_id s) (i + 1)).
  { intros s Hs. unfold body.
    destruct (decide (Z.max (sp_start s) a < Z.min (sp_end s) b)) as [Hne|Hno].
    2:{ rewrite zrange_nil by lia. exists []. split; [done|]. intros u v. unfold has_pair. split; [intros [d Hd]; inversion Hd|].
        intros (i & Hi & _). lia. }
    assert (Hzs : zero_rps s = false).
    { apply (Hz s (Z.max (sp_start s) a)); [done|lia|unfold contains_block; lia]. }
    unfold py_fdiv. unfold zero_rps in Hzs. rewrite Hzs. cbn [mbind result_bind].
    match goal with |- context [for_edges _ ?f] => set (inner := f) end.
    destruct (for_edges_total (zrange (Z.max (sp_start s) a) (Z.min (sp_end s) b)) inner) as [es Hes];
      [done|]. exists es. split; [done|]. intros u v. unfold has_pair.
    setoid_rewrite (elem_of_for_edges _ _ _ _ Hes). setoid_rewrite elem_of_zrange. unfold inner. split.
    - intros (d & i & es' & Hi & [= <-] & Hd). apply list_elem_of_singleton in Hd.
      injection Hd as -> -> _. eauto.
    - intros (i & Hi & -> & ->). eexists _, i, _. split; [done|]. split; [reflexivity|]. left. }
  destruct (for_edges_total (prio_of m) body) as [es Hes].
  { intros s Hs. by destruct (Hbody s Hs) as (es & -> & _). }
  exists es. split; [done|]. intros u v. unfold has_pair.
  setoid_rewrite (elem_of_for_edges _ _ _ _ Hes). split.
  - intros (d & s & es' & Hs & He & Hd). destruct (Hbody s Hs) as (es'' & He'' & Hp).
    rewrite He in He''. injection He'' as <-.
    destruct (proj1 (Hp u v)) as (i & H); [by exists d|]. eauto.
  - intros (s & i & Hs & H). destruct (Hbody s Hs) as (es' & He & Hp).
    destruct (proj2 (Hp u v)) as [d Hd]; [eauto|]. exists d, s, es'. auto.
Qed.

Lemma graph_edges (es : list edge) u v :
  has_edge (fold_left (fun g e => add_edge g e.1.1 e.1.2 e.2) es []) u v <-> has_pair es u v.
Proof.
  assert (Hgen : forall g, has_edge (fold_left (fun g e => add_edge g e.1.1 e.1.2 e.2) es g) u v
                 <-> has_edge g u v \/ has_pair es u v).
  { induction es as [|[[x y] d] es IH]; intros g; simpl.
    - unfold has_pair. split; [auto|]. intros [?|[d Hd]]; [done|inversion Hd].
    - rewrite IH. unfold has_edge, has_pair, add_edge. rewrite !dget_is_Some_keys, dget_dset.
      setoid_rewrite elem_of_cons. case_decide as Hd.
      + injection Hd as -> ->. split; [right; eauto|intros _; left; eauto].
      + split; [intros [?|[d' ?]]; eauto|]. intros [?|[d' [[= -> -> ->]|?]]]; eauto. congruence. }
  rewrite Hgen. unfold has_edge. simpl. split; [intros [H|?]; [inversion H|done]|auto].
Qed.

Lemma build_graph_spec m a b cache :
  manager_ok m -> no_zero_rps m a b -> 0 <= a -> a < b -> b <= sm_len m ->
  (forall i, a <= i < b -> held m i) ->
  exists g, _build_inference_graph m a b cache = Ok g /\
    forall u v, has_edge g u v <-> valid_edge m a b u v.
Proof.
  intros Hm Hz Ha Hab Hb Hheld. unfold _build_inference_graph.
  destruct (missing_blocks_spec m a b) as (l & -> & Hl); [done|done|done|].
  assert (l = []) as -> by (apply list_nil_iff; intros j [Hj Hn]%Hl; by apply Hn, Hheld).
  cbn [mbind result_bind raise_if zlen length negb Z.eqb Z.of_nat]. unfold inference_edges.
  destruct (client_edges_spec m a cache) as (e1 & -> & H1); [done|lia|].
  destruct (return_edges_spec m b) as (e2 & -> & H2); [done|lia|].
  destruct (hop_edges_spec m a b cache) as (e3 & -> & H3); [done|lia|lia|].
  destruct (compute_edges_spec m a b Hz) as (e4 & -> & H4).
  cbn [mbind result_bind]. eexists. split; [reflexivity|]. intros u v. rewrite graph_edges.
  assert (Happ : has_pair (e1 ++ e2 ++ e3 ++ e4) u v <->
            has_pair e1 u v \/ has_pair e2 u v \/ has_pair e3 u v \/ has_pair e4 u v).
  { unfold has_pair. setoid_rewrite elem_of_app. setoid_rewrite elem_of_app.
    setoid_rewrite elem_of_app. split.
    - intros [d [?|[?|[?|?]]]]; eauto 6.
    - intros [[d ?]|[[d ?]|[[d ?]|[d ?]]]]; eauto 6. }
  rewrite Happ, H1, H2, H3, H4. split.
  - intros [(s & ? & ? & -> & ->)|[(s & ? & ? & -> & ->)|[(s & s' & i & ? & ? & ? & ? & ? & ? & -> & ->)|(s & i & ? & ? & -> & ->)]]];
      by econstructor.
  - intros [s|s|s s' i|s i].
    + left. by exists s.
    + right; left. by exists s.
    + right; right; left. by exists s, s', i.
    + right; right; right. by exists s, i.
Qed.

(** ** Server infos *)

Lemma prio_unique m s s' :
  manager_ok m -> s ∈ prio_of m -> s' ∈ prio_of m -> sp_peer_id s = sp_peer_id s' -> s = s'.
Proof.
  intros (_ & Hnd & _ & _) Hs Hs' Hp.
  apply list_elem_of_lookup in Hs as [k Hk]. apply list_elem_of_lookup in Hs' as [k' Hk'].
  assert (k = k') as ->; [|congruence].
  eapply NoDup_lookup; [exact Hnd| |]; rewrite list_lookup_fmap; [by rewrite Hk|by rewrite Hk', Hp].
Qed.

Definition infos_sound m (d : list (PeerID * ServerInfo)) : Prop :=
  forall p info, dget d p = Some info ->
    exists s, s ∈ prio_of m /\ sp_peer_id s = p /\ sp_server_info s = info.

Lemma collect_row m row d :
  (forall s, s ∈ row -> s ∈ prio_of m) -> infos_sound m d ->
  let d' := fold_left (fun d sp => dset d (sp_peer_id sp) (sp_server_info sp)) row d in
  infos_sound m d' /\
  (forall p, is_Some (dget d p) -> is_Some (dget d' p)) /\
  (forall s, s ∈ row -> is_Some (dget d' (sp_peer_id s))).
Proof.
  revert d. induction row as [|s row IH]; intros d Hrow Hd; simpl.
  - split; [done|]. split; [done|]. intros s Hs. inversion Hs.
  - destruct (IH (dset d (sp_peer_id s) (sp_server_info s))) as (H1 & H2 & H3).
    { intros s' Hs'. apply Hrow. by right. }
    { intros p info. rewrite dget_dset. case_decide as Hp; [|apply Hd].
      intros [= <-]. exists s. split; [apply Hrow; left|done]. }
    split; [done|]. split.
    + intros p Hp. apply H2. rewrite dget_dset. by case_decide.
    + intros s' [->|Hs']%elem_of_cons; [|by apply H3]. apply H2. by rewrite dget_dset_eq.
Qed.

Lemma collect_infos_spec m a b :
  manager_ok m -> 0 <= a -> b <= sm_len m ->
  exists d, collect_infos (rows_of m) a b = Ok d /\
    forall s i, s ∈ prio_of m -> a <= i < b -> contains_block i s ->
      dget d (sp_peer_id s) = Some (sp_server_info s).
Proof.
  intros Hm Ha Hb. unfold collect_infos.
  match goal with |- context [foldR ?f [] _] => set (step := f) end.
  assert (Hgen : forall js d, (forall j, j ∈ js -> 0 <= j < sm_len m) -> infos_sound m d ->
    exists d', foldR step d js = Ok d' /\ infos_sound m d' /\
      (forall p, is_Some (dget d p) -> is_Some (dget d' p)) /\
      (forall s i, s ∈ prio_of m -> i ∈ js -> contains_block i s -> is_Some (dget d' (sp_peer_id s)))).
  { induction js as [|j js IH]; intros d Hjs Hd; simpl.
    - exists d. split; [done|]. split; [done|]. split; [done|]. intros s i _ Hi. inversion Hi.
    - unfold step at 1. rewrite row_of_ok by (done || apply Hjs; left). cbn [mbind result_bind].
      destruct (collect_row m (filter (contains_block j) (prio_of m)) d) as (H1 & H2 & H3);
        [by intros s [_ ?]%list_elem_of_filter|done|].
      destruct (IH _ ltac:(intros k Hk; apply Hjs; by right) H1) as (d' & -> & H4 & H5 & H6).
      exists d'. split; [done|]. split; [done|]. split; [intros p Hp; by apply H5, H2|].
      intros s i Hs [->|Hi]%elem_of_cons Hc; [|by eapply H6].
      apply H5, H3. by apply list_elem_of_filter. }
  destruct (Hgen (zrange a b) []) as (d & -> & Hsound & _ & Hcov); [|done|].
  { intros j Hj%elem_of_zrange. lia. }
  exists d. split; [done|]. intros s i Hs Hi Hc.
  destruct (Hcov s i Hs (proj2 (elem_of_zrange _ _ _) Hi) Hc) as [info Hinfo]. rewrite Hinfo.
  destruct (Hsound _ _ Hinfo) as (s' & Hs' & Hp & <-). by rewrite (prio_unique m s' s).
Qed.

(** ** From a path to spans *)

(** Like [chain], but with possibly empty spans. *)
Fixpoint weak_chain (a : Z) (l : list RemoteSpanInfo) (b : Z) : Prop :=
  match l with
  | [] => a = b
  | s :: l' => sp_start s = a /\ a <= sp_end s /\ weak_chain (sp_end s) l' b
  end.

Lemma weak_chain_snoc a l s :
  weak_chain a l (sp_start s) -> sp_start s <= sp_end s -> weak_chain a (l ++ [s]) (sp_end s).
Proof.
  revert a. induction l as [|s' l IH]; intros a; simpl.
  - intros -> H. done.
  - intros (? & ? & ?) ?. split; [done|]. split; [done|]. by apply IH.
Qed.

Lemma weak_chain_filter a l b :
  weak_chain a l b -> chain a (filter (fun s => 0 < sp_length s) l) b.
Proof.
  revert a. induction l as [|s l IH]; intros a; simpl; [done|].
  intros (Hs & Hle & Hl%IH). rewrite filter_cons. unfold sp_length at 1. case_decide.
  - simpl. split; [done|]. split; [lia|done].
  - assert (sp_end s = a) as <- by lia. done.
Qed.

Definition walk_inv m (a : Z) (spans : list RemoteSpanInfo) (p : PeerID) (i : Z) : Prop :=
  exists l s, spans = l ++ [s] /\ weak_chain a l (sp_start s) /\ sp_start s <= sp_end s /\
    sp_end s = i /\ sp_peer_id s = p /\ Forall (piece_of (prio_of m)) spans.

Lemma last_snoc_span (l : list RemoteSpanInfo) s : last (l ++ [s]) = Some s.
Proof. apply last_snoc. Qed.

Lemma set_last_end_snoc l s x : set_last_end (l ++ [s]) x = l ++ [sp_with_end s x].
Proof. unfold set_last_end. by rewrite last_snoc, removelast_last. Qed.

(** The first vertex after the client opens the first span. *)
Lemma walk_first m a b d s :
  (forall s i, s ∈ prio_of m -> a <= i < b -> contains_block i s ->
     dget d (sp_peer_id s) = Some (sp_server_info s)) ->
  s ∈ prio_of m -> contains_block a s -> a < b ->
  exists spans, path_step d [] (NPeer (sp_peer_id s) a) = Ok spans /\
    walk_inv m a spans (sp_peer_id s) a.
Proof.
  intros Hd Hs Hc Hab. unfold path_step. simpl.
  rewrite (Hd s a) by (done || lia). eexists. split; [reflexivity|].
  exists [], (mkSpan (sp_peer_id s) a a (sp_server_info s)). simpl.
  repeat split; try done. constructor; [|done]. exists s. unfold contains_block in Hc.
  simpl. repeat split; (done || lia).
Qed.

Lemma walk_next m a b d spans p i q j :
  manager_ok m ->
  (forall s i, s ∈ prio_of m -> a <= i < b -> contains_block i s ->
     dget d (sp_peer_id s) = Some (sp_server_info s)) ->
  walk_inv m a spans p i -> valid_edge m a b (NPeer p i) (NPeer q j) ->
  exists spans', path_step d spans (NPeer q j) = Ok spans' /\ walk_inv m a spans' q j.
Proof.
  intros Hm Hd (l & s & -> & Hl & Hle & He & Hp & HF) Hedge.
  apply Forall_app in HF as [HFl HFs]. apply Forall_cons in HFs as [Hpiece _].
  unfold path_step. rewrite last_snoc. rewrite Hp.
  inversion Hedge as [| |s1 s2 k H1 H2 H3 H4 H5 H6|s1 k H1 H2]; subst.
  - case_bool_decide as Hpq.
    + eexists. split; [reflexivity|]. rewrite set_last_end_snoc.
      exists l, (sp_with_end s (sp_end s1)). simpl. split; [done|]. split; [done|]. split; [lia|].
      split; [done|]. split; [congruence|]. apply Forall_app. split; [done|]. constructor; [|done].
      destruct Hpiece as (s0 & ? & ? & ? & ? & ?). exists s0. simpl. repeat split; (done || lia).
    + rewrite (Hd s2 (sp_end s1)) by (done || lia). cbn [get_or mbind result_bind].
      eexists. split; [reflexivity|].
      exists (l ++ [s]), (mkSpan (sp_peer_id s2) (sp_end s1) (sp_end s1) (sp_server_info s2)).
      simpl. split; [done|]. split.
      { replace (sp_end s1) with (sp_end s) by lia. by apply weak_chain_snoc. }
      split; [lia|]. split; [done|]. split; [done|]. repeat (apply Forall_app; split); try done.
      * by constructor.
      * constructor; [|done]. exists s2. unfold contains_block in H6. simpl. repeat split; (done || lia).
  - rewrite bool_decide_true by congruence. eexists. split; [reflexivity|].
    rewrite set_last_end_snoc. exists l, (sp_with_end s (sp_end s + 1)). simpl.
    split; [done|]. split; [done|]. split; [lia|]. split; [done|]. split; [congruence|].
    apply Forall_app. split; [done|]. constructor; [|done].
    destruct Hpiece as (s0 & Hs0 & Hp0 & Hi0 & Ha0 & He0). exists s0. simpl.
    assert (s0 = s1) as -> by (apply (prio_unique m); (done || congruence)).
    repeat split; (done || lia).
Qed.

Lemma walk_spans m a b g d path spans p i :
  manager_ok m ->
  (forall s i, s ∈ prio_of m -> a <= i < b -> contains_block i s ->
     dget d (sp_peer_id s) = Some (sp_server_info s)) ->
  (forall u v, has_edge g u v <-> valid_edge m a b u v) ->
  walk_inv m a spans p i -> is_walk g (NPeer p i) path NEnd ->
  exists spans' q, foldR (path_step d) spans path = Ok spans' /\ walk_inv m a spans' q b.
Proof.
  intros Hm Hd Hg. revert spans p i. induction path as [|v path IH]; intros spans p i Hinv Hw; simpl in *.
  - apply Hg in Hw. inversion Hw; subst. eauto.
  - destruct Hw as [He Hw]. apply Hg in He. destruct v as [| |q j].
    + inversion He.
    + destruct path as [|w path]; simpl in Hw; [apply Hg in Hw|destruct Hw as [Hw _]; apply Hg in Hw];
        inversion Hw.
    + destruct (walk_next m a b d spans p i q j Hm Hd Hinv He) as (spans' & -> & Hinv').
      by eapply IH.
Qed.

(** ** A path exists *)

Lemma path_exists m a b g :
  manager_ok m -> 0 <= a -> b <= sm_len m ->
  (forall i, a <= i < b -> held m i) ->
  (forall u v, has_edge g u v <-> valid_edge m a b u v) ->
  forall i s, a <= i < b -> s ∈ prio_of m -> contains_block i s ->
    exists l, is_walk g (NPeer (sp_peer_id s) i) l NEnd.
Proof.
  intros Hm Ha Hb Hheld Hg.
  assert (Hgen : forall n i s, Z.to_nat (b - i) = n -> a <= i < b -> s ∈ prio_of m ->
            contains_block i s -> exists l, is_walk g (NPeer (sp_peer_id s) i) l NEnd).
  { induction n as [|n IH]; intros i s Hn Hi Hs Hc; [lia|]. unfold contains_block in Hc.
    assert (Hstep : has_edge g (NPeer (sp_peer_id s) i) (NPeer (sp_peer_id s) (i + 1))).
    { apply Hg. apply VE_compute; [done|lia]. }
    destruct (decide (i + 1 = b)) as [Hib|Hib].
    - exists [NPeer (sp_peer_id s) (i + 1)]. simpl. split; [done|]. apply Hg. rewrite Hib.
      apply VE_return; [done|]. unfold contains_block. lia.
    - destruct (decide (i + 1 < sp_end s)) as [Hin|Hend].
      + destruct (IH (i + 1) s) as [l Hl]; [lia|lia|done|unfold contains_block; lia|].
        exists (NPeer (sp_peer_id s) (i + 1) :: l). by simpl.
      + destruct (Hheld (i + 1)) as (s' & Hs' & Hc'); [lia|].
        destruct (IH (i + 1) s') as [l Hl]; [lia|lia|done|done|].
        exists (NPeer (sp_peer_id s) (i + 1) :: NPeer (sp_peer_id s') (i + 1) :: l). simpl.
        split; [done|]. split; [|done]. apply Hg. apply VE_hop; try done; try lia.
        unfold contains_block. lia. }
  intros i s. by apply (Hgen (Z.to_nat (b - i))).
Qed.

(** ** The theorems *)

Lemma min_latency_missing m a b cache :
  manager_ok m -> 0 <= a -> a < b -> b <= sm_len m ->
  (exists l, _make_sequence_with_min_latency m a b cache = Err (MissingBlocksError l) /\ l <> [] /\
     forall j, j ∈ l <-> a <= j < b /\ ~ held m j) \/
  (forall i, a <= i < b -> ~ ~ held m i) /\
  exists d, collect_infos (rows_of m) a b = Ok d /\
    _make_sequence_with_min_latency m a b cache
    = (g ← _build_inference_graph m a b cache;
       path ← get_or RuntimeError (find_path g NStart NEnd); path_to_spans d path).
Proof.
  intros Hm Ha Hab Hb. unfold _make_sequence_with_min_latency.
  destruct (Z.eqb_spec a b); [lia|].
  destruct (missing_blocks_spec m a b) as (l & -> & Hl); [done|done|done|].
  destruct (collect_infos_spec m a b) as (d & Hd & _); [done|done|done|].
  cbn [mbind result_bind]. destruct (zlen l =? 0) eqn:El; cbn [negb raise_if].
  - right. apply zlen_zero in El as ->. split; [|exists d; split; [done|]; by rewrite Hd].
    intros i Hi Hn. assert (Hin : i ∈ []) by (by apply Hl). inversion Hin.
  - left. exists l. split; [done|]. split; [|done]. intros ->. done.
Qed.

Lemma held_dec m i : Decision (held m i).
Proof.
  destruct (decide (filter (contains_block i) (prio_of m) = [])) as [H|H].
  - right. by apply row_nil_held.
  - left. destruct (filter (contains_block i) (prio_of m)) as [|s l] eqn:E; [done|].
    exists s. apply and_comm. apply (list_elem_of_filter (contains_block i)). rewrite E. left.
Qed.

(** A route over blocks that are held and whose servers have announced a speed *)
Lemma min_latency_found m a b cache :
  manager_ok m -> no_zero_rps m a b -> (forall i, a <= i < b -> held m i) -> 0 <= a -> a < b -> b <= sm_len m ->
  exists l, _make_sequence_with_min_latency m a b cache = Ok l /\ chain a l b /\ Forall (piece_of (prio_of m)) l.
Proof.
  intros Hm Hz Hh Ha Hab Hb.
  destruct (min_latency_missing m a b cache) as [(l & _ & Hne & Hl)|(_ & d & Hcd & Hrun)]; [done|done|done|done| |].
  { exfalso. apply Hne. apply list_nil_iff. intros j [Hj Hn]%Hl. by apply Hn, Hh. }
  rewrite Hrun. clear Hrun.
  destruct (collect_infos_spec m a b) as (d' & Hcd' & Hd); [done|done|done|].
  rewrite Hcd in Hcd'. injection Hcd' as <-.
  destruct (build_graph_spec m a b cache) as (g & -> & Hg); try done. cbn [mbind result_bind].
  destruct (Hh a) as (s & Hs & Hc); [lia|].
  destruct (path_exists m a b g Hm Ha Hb Hh Hg a s) as [l Hl]; [lia|done|done|].
  destruct (find_path_complete g NStart NEnd (NPeer (sp_peer_id s) a :: l)) as [path Hpath].
  { simpl. split; [|done]. apply Hg. by apply VE_client. }
  rewrite Hpath. cbn [get_or mbind result_bind]. apply find_path_walk in Hpath.
  destruct path as [|v path]; simpl in Hpath; [apply Hg in Hpath; inversion Hpath|].
  destruct Hpath as [He Hw]. apply Hg in He. inversion He as [s1 Hs1 Hc1| | |]; subst.
  destruct (walk_first m a b d s1 Hd Hs1 Hc1 Hab) as (sp1 & Hstep & Hinv).
  destruct (walk_spans m a b g d path sp1 _ _ Hm Hd Hg Hinv Hw) as (spans & q & Hfold & Hfinal).
  unfold path_to_spans. cbn [foldR]. rewrite Hstep, Hfold. cbn [mbind result_bind].
  eexists. split; [reflexivity|].
  destruct Hfinal as (l' & s' & -> & Hl' & Hle & <- & _ & HF). split.
  - apply weak_chain_filter. by apply weak_chain_snoc.
  - apply Forall_forall. intros x [_ Hx]%list_elem_of_filter. rewrite Forall_forall in HF. by apply HF.
Qed.

(** A server of the blocks that announces [inference_rps = 0] *)
Lemma min_latency_zero_rps m a b cache s i :
  manager_ok m -> 0 <= a -> a < b -> b <= sm_len m -> (forall i, a <= i < b -> held m i) ->
  s ∈ prio_of m -> a <= i < b -> contains_block i s ->
  zero_rps s = true ->
  _make_sequence_with_min_latency m a b cache = Err ZeroDivisionError.
Proof.
  intros Hm Ha Hab Hb Hh Hs Hi Hc Hrps.
  destruct (min_latency_missing m a b cache) as [(l & _ & Hne & Hl)|(_ & d & _ & ->)]; [done|done|done|done| |].
  { exfalso. apply Hne. apply list_nil_iff. intros j [Hj Hn]%Hl. by apply Hn, Hh. }
  unfold _build_inference_graph.
  destruct (missing_blocks_spec m a b) as (l & -> & Hl); [done|done|done|].
  assert (l = []) as -> by (apply list_nil_iff; intros j [Hj Hn]%Hl; by apply Hn, Hh).
  cbn [mbind result_bind raise_if zlen length negb Z.eqb Z.of_nat]. unfold inference_edges.
  destruct (client_edges_spec m a cache) as (e1 & -> & _); [done|lia|].
  destruct (return_edges_spec m b) as (e2 & -> & _); [done|lia|].
  destruct (hop_edges_spec m a b cache) as (e3 & -> & _); [done|lia|lia|].
  cbn [mbind result_bind]. enough (compute_edges m a b = Err ZeroDivisionError) as -> by done.
  assert (Hinner : forall t err, for_edges (zrange (Z.max (sp_start t) a) (Z.min (sp_end t) b))
      (fun j => delay ← py_fdiv f_one (or_default (si_inference_rps (sp_server_info t)) default_inference_rps);
                Ok [(NPeer (sp_peer_id t) j, NPeer (sp_peer_id t) (j + 1), delay)]) = Err err ->
      err = ZeroDivisionError).
  { intros t err. unfold for_edges, py_fdiv. destruct (f_eq _ _); cbn [mbind result_bind].
    - destruct (zrange _ _); simpl; congruence.
    - rewrite (mapR_pure (fun j => [(NPeer (sp_peer_id t) j, NPeer (sp_peer_id t) (j + 1), f_div f_one _)])).
      done. }
  unfold compute_edges. unfold for_edges at 1.
  rewrite (mapR_Err_first _ _ s ZeroDivisionError); [done|done| |].
  - unfold for_edges, py_fdiv, zero_rps, contains_block in *. rewrite Hrps.
    rewrite (zrange_cons (Z.max (sp_start s) a)) by lia. done.
  - intros t e _. apply Hinner.
Qed.
Lemma zero_rps_dec m a b : no_zero_rps m a b \/
  exists s i, s ∈ prio_of m /\ a <= i < b /\ contains_block i s /\ zero_rps s = true.
Proof.
  destruct (decide (Exists (fun s => zero_rps s = true /\ Z.max (sp_start s) a < Z.min (sp_end s) b) (prio_of m))) as [H|H].
  - right. apply Exists_exists in H as (s & Hs & Hz & Hr). exists s, (Z.max (sp_start s) a).
    split_and!; done || unfold contains_block; lia.
  - left. intros s i Hs Hi Hc. apply not_true_iff_false. intros Hz. apply H, Exists_exists. exists s.
    unfold contains_block in Hc. split_and!; done || lia.
Qed.

Lemma min_latency_cases m a b cache :
  manager_ok m -> 0 <= a -> a < b -> b <= sm_len m ->
  (exists l, _make_sequence_with_min_latency m a b cache = Ok l /\
     (forall i, a <= i < b -> held m i) /\ no_zero_rps m a b /\ chain a l b /\ Forall (piece_of (prio_of m)) l) \/
  (exists l, _make_sequence_with_min_latency m a b cache = Err (MissingBlocksError l) /\ l <> [] /\
     forall j, j ∈ l <-> a <= j < b /\ ~ held m j) \/
  _make_sequence_with_min_latency m a b cache = Err ZeroDivisionError /\ (forall i, a <= i < b -> held m i) /\
     exists s i, s ∈ prio_of m /\ a <= i < b /\ contains_block i s /\ zero_rps s = true.
Proof.
  intros Hm Ha Hab Hb.
  destruct (min_latency_missing m a b cache) as [H|(Hheld & _)]; [done|done|done|done|by right; left|].
  assert (Hh : forall i, a <= i < b -> held m i).
  { intros i Hi. destruct (held_dec m i) as [?|Hn]; [done|]. by destruct (Hheld i Hi). }
  destruct (zero_rps_dec m a b) as [Hz|(s & i & Hs & Hi & Hc & Hz)].
  - left. destruct (min_latency_found m a b cache) as (l & Hl & Hch & HF); try done. by exists l.
  - right; right. split; [|split; [done|by exists s, i]]. by eapply min_latency_zero_rps.
Qed.

(** In particular a route that is found is a chain. *)
Lemma min_latency_chain m a b cache l :
  manager_ok m -> 0 <= a -> a < b -> b <= sm_len m -> _make_sequence_with_min_latency m a b cache = Ok l -> chain a l b.
Proof.
  intros Hm Ha Hab Hb H. destruct (min_latency_cases m a b cache) as [(l' & Hl & _ & _ & Hc & _)|[(l' & Hl & _)|[Hl _]]];
    try done; rewrite Hl in H; [by injection H as <-|done|done].
Qed.

(** C11: [make_sequence(mode="min_latency")], case by case.  If some block of the request is held by no known server, it
    raises [MissingBlocksError] with exactly these blocks.  If all are held, and no server of one of them announces that it
    performs zero inference steps per second, it returns a contiguous chain of non-empty pieces of known spans from the
    first block exactly to the end of the request.  If all are held and one server of one of them does announce
    [inference_rps = 0], a value that [ServerInfo] accepts, it fails with [ZeroDivisionError], whoever else holds the
    blocks. *)
Theorem min_latency_route m a b cache :
  manager_ok m -> 0 <= a -> a < b -> b <= sm_len m ->
  (exists l, _make_sequence_with_min_latency m a b cache = Ok l /\
     (forall i, a <= i < b -> held m i) /\ no_zero_rps m a b /\ chain a l b /\ Forall (piece_of (prio_of m)) l) \/
  (exists l, _make_sequence_with_min_latency m a b cache = Err (MissingBlocksError l) /\ l <> [] /\
     forall j, j ∈ l <-> a <= j < b /\ ~ held m j) \/
  _make_sequence_with_min_latency m a b cache = Err ZeroDivisionError /\ (forall i, a <= i < b -> held m i) /\
     exists s i, s ∈ prio_of m /\ a <= i < b /\ contains_block i s /\ zero_rps s = true.
Proof. apply min_latency_cases. Qed.

End routing.

(** ** Concrete oracles and a concrete swarm *)

(** A depth-first [find_path]. *)
Section dfs.
Context {PI : PeerIds}.

Definition successors (g : graph) (u : node) : list node :=
  map snd (filter (fun e => e.1 = u) (dkeys g)).

Fixpoint first_some {A B} (f : A -> option B) (l : list A) : option B :=
  match l with
  | [] => None
  | x :: l' => match f x with Some b => Some b | None => first_some f l' end
  end.

Fixpoint search (fuel : nat) (g : graph) (u v : node) : option (list node) :=
  if decide ((u, v) ∈ dkeys g) then Some []
  else match fuel with
       | O => None
       | S fuel' => first_some (fun x => cons x <$> search fuel' g x v) (successors g u)
       end.

Lemma first_some_Some {A B} (f : A -> option B) l b :
  first_some f l = Some b -> exists x, x ∈ l /\ f x = Some b.
Proof.
  induction l as [|x l IH]; simpl; [done|]. destruct (f x) eqn:E.
  - intros [= <-]. exists x. split; [left|done].
  - intros H. destruct (IH H) as (y & ? & ?). exists y. split; [by right|done].
Qed.

Lemma first_some_is_Some {A B} (f : A -> option B) l x :
  x ∈ l -> is_Some (f x) -> is_Some (first_some f l).
Proof.
  induction l as [|y l IH]; intros Hx Hf; [inversion Hx|]. simpl.
  destruct (f y) eqn:E; [eauto|]. apply elem_of_cons in Hx as [->|Hx]; [|by apply IH].
  rewrite E in Hf. by destruct Hf.
Qed.

Lemma elem_of_successors g u x : x ∈ successors g u <-> has_edge g u x.
Proof.
  unfold successors, has_edge. split.
  - intros ([a b] & -> & H)%list_elem_of_fmap. apply list_elem_of_filter in H as [H1 H2].
    simpl in *. by subst.
  - intros H. apply list_elem_of_fmap. exists (u, x). split; [done|]. by apply list_elem_of_filter.
Qed.

Lemma search_walk fuel g u v l : search fuel g u v = Some l -> is_walk g u l v.
Proof.
  revert u l. induction fuel as [|fuel IH]; intros u l; simpl; case_decide as He.
  - by intros [= <-].
  - done.
  - by intros [= <-].
  - intros (x & Hx & Hs)%first_some_Some. apply fmap_Some in Hs as (l' & Hs & ->).
    simpl. split; [by apply elem_of_successors|by apply IH].
Qed.

Lemma search_complete fuel g u v l :
  is_walk g u l v -> (length l <= fuel)%nat -> is_Some (search fuel g u v).
Proof.
  revert fuel u. induction l as [|x l IH]; intros fuel u Hw Hf; simpl in *.
  - destruct fuel; simpl; rewrite decide_True by done; eauto.
  - destruct Hw as [He Hw]. destruct fuel as [|fuel]; [lia|]. simpl. case_decide; [eauto|].
    apply (first_some_is_Some _ _ x); [by apply elem_of_successors|].
    apply fmap_is_Some. apply IH; [done|lia].
Qed.

Lemma is_walk_app g u l x k v : is_walk g u (l ++ x :: k) v <-> is_walk g u l x /\ is_walk g x k v.
Proof.
  revert u. induction l as [|y l IH]; intros u; simpl; [done|]. rewrite IH. tauto.
Qed.

(** A walk can be cut down to one that visits no vertex twice. *)
Lemma short_walk g u l v :
  is_walk g u l v -> exists k, is_walk g u k v /\ (length k <= length g)%nat.
Proof.
  remember (length l) as n eqn:Hn. revert l Hn.
  induction n as [n IH] using lt_wf_ind. intros l -> Hw.
  destruct (decide (NoDup l)) as [Hnd|Hdup].
  - exists l. split; [done|].
    assert (Hsub : forall x, x ∈ l -> x ∈ map snd (dkeys g)).
    { clear Hnd IH. revert u Hw. induction l as [|y l IHl]; intros u Hw x Hx; [inversion Hx|].
      simpl in Hw. destruct Hw as [He Hw]. apply elem_of_cons in Hx as [->|Hx].
      - apply list_elem_of_fmap. by exists (u, y).
      - by eapply IHl. }
    assert (Hlen : submseteq l (map snd (dkeys g))) by (by apply NoDup_submseteq).
    apply submseteq_length in Hlen. unfold dkeys in Hlen. by rewrite !length_map in Hlen.
  - assert (Hd : exists x l1 l2 l3, l = l1 ++ x :: l2 ++ x :: l3).
    { clear -Hdup. induction l as [|y l IHl]; [by destruct Hdup; constructor|].
      destruct (decide (y ∈ l)) as [Hy|Hy].
      - apply list_elem_of_split in Hy as (l2 & l3 & ->). by exists y, [], l2, l3.
      - destruct IHl as (x & l1 & l2 & l3 & ->); [intros H; apply Hdup; by constructor|].
        by exists x, (y :: l1), l2, l3. }
    destruct Hd as (x & l1 & l2 & l3 & ->).
    apply is_walk_app in Hw as [Hw1 Hw2]. apply is_walk_app in Hw2 as [_ Hw3].
    eapply (IH (length (l1 ++ x :: l3))); [|reflexivity|by apply is_walk_app].
    rewrite !length_app. simpl. rewrite length_app. simpl. lia.
Qed.

#[global] Instance DfsPathFinder : PathFinder.
Proof.
  refine {| find_path g u v := search (length g) g u v |}.
  - intros g u v l. apply search_walk.
  - intros g u v l (k & Hk & Hlen)%short_walk. by eapply search_complete.
Defined.
End dfs.

(** A choice that always takes the first candidate. *)
#[refine, global] Instance FirstChoice {PI : PeerIds} : WeightedChoice :=
  {| np_choice seed x l w := x |}.
Proof. intros. by left. Defined.

Definition swarm_table : list (@RemoteSpanInfo ZPeerIds) * list (list (@RemoteSpanInfo ZPeerIds)) :=
  from_ok ([], []) (_sort_spans (PI := ZPeerIds) swarm).

Definition swarm_manager : @SequenceManager ZPeerIds SetBlacklist :=
  mkManager (PI := ZPeerIds) (default_config ["peer"] (Some 3))
    (mkSeqInfo ["m.2"; "m.3"; "m.4"; "m.5"] swarm (fst swarm_table) (snd swarm_table) None)
    None bl_empty None (Some [7]) [] true false true.

Lemma swarm_manager_ok : manager_ok swarm_manager.
Proof.
  destruct (sort_spans_ok (PI := ZPeerIds) swarm 2) as (spans & prio & rows & _ & Hs & _ & _ & _ & Ht);
    [reflexivity|].
  assert (Htab : swarm_table = (prio, rows)) by (unfold swarm_table; by rewrite Hs).
  unfold manager_ok, swarm_manager. cbn [sm_info sq_spans_by_priority sq_spans_containing_block].
  rewrite Htab. exact Ht.
Qed.

(** Servers 1 and 2 of the swarm hold blocks [0,2) and [1,4). *)
Lemma min_latency_route_witness :
  exists l, _make_sequence_with_min_latency swarm_manager 0 4 (Some 100) = Ok l /\
     chain 0 l 4 /\ Forall (piece_of (fst swarm_table)) l.
Proof.
  assert (Hok : is_ok (_make_sequence_with_min_latency swarm_manager 0 4 (Some 100)) = true) by (vm_compute; reflexivity).
  destruct (min_latency_route swarm_manager 0 4 (Some 100)) as [(l & Hl & _ & _ & Hc & HF)|[(l & Hl & _)|[Hl _]]];
    [apply swarm_manager_ok|done|done|discriminate|by exists l|rewrite Hl in Hok; discriminate Hok..].
Defined.

Lemma max_throughput_route_witness :
  (exists l b, _make_sequence_with_max_throughput swarm_manager 1 0 4 = Some (Ok l) /\
     chain 0 l b /\ 4 <= b <= sm_len swarm_manager /\
     Forall (piece_of (sq_spans_by_priority (sm_info swarm_manager))) l) \/
  (exists j, _make_sequence_with_max_throughput swarm_manager 1 0 4 = Some (Err (MissingBlocksError [j])) /\
     0 <= j < 4 /\
     forall s, s ∈ sq_spans_by_priority (sm_info swarm_manager) -> ~ contains_block j s).
Proof.
  apply (max_throughput_route swarm_manager 1 0 4); [apply swarm_manager_ok|done|reflexivity|discriminate].
Defined.

Lemma get_retry_delay_backoff_witness :
  get_retry_delay (PI := ZPeerIds) (default_config [] None) 61 = 60.
Proof. apply (get_retry_delay_backoff (PI := ZPeerIds) (default_config [] None) 3 61); simpl; lia. Defined.

Lemma _sort_spans_spec_witness :
  exists spans prio rows,
      compute_spans (PI := ZPeerIds) swarm ONLINE = Ok spans /\
      _sort_spans (PI := ZPeerIds) swarm = Ok (prio, rows) /\
      prio ≡ₚ dvalues spans /\
      StronglySorted (fun a b => sp_length b <= sp_length a) prio /\
      (forall sp, sp ∈ prio -> sp_state sp = ONLINE) /\
      table_ok (zlen swarm) prio rows.
Proof. apply (_sort_spans_spec (PI := ZPeerIds) swarm 2). reflexivity. Defined.

Lemma _update_spec_witness :
  exists m', _update swarm_manager (fun _ => None) f_zero 0 (fun _ => []) = (m', Ok ()) /\
      sm_ready m' = true /\ sm_block_uids m' = sm_block_uids swarm_manager /\ uids_ok m' /\ manager_ok m' /\
      forall sp, sp ∈ sq_spans_by_priority (sm_info m') ->
        sp_state sp = ONLINE /\ allowed_peer swarm_manager (sp_peer_id sp) = true.
Proof.
  apply (_update_spec swarm_manager (fun _ => None) f_zero 0 (fun _ => []) "m.2" ["m.3"; "m.4"; "m.5"] "m" 2);
    reflexivity.
Defined.

Lemma pinged_servers_skip_first_witness :
  exists pinged, pinged_servers swarm_manager 0 (snd swarm_table) = Ok pinged /\
    exists i row sp, 1 <= i /\ snd swarm_table !! Z.to_nat i = Some row /\ sp ∈ row /\ sp_peer_id sp = 2.
Proof.
  eexists. split; [reflexivity|].
  apply (pinged_servers_skip_first swarm_manager 0 (snd swarm_table) [1; 2] 2); [|done|reflexivity|right; left].
  simpl. lia.
Defined.

(** A swarm of two servers, one of which announces [inference_rps = 0]. *)
Definition slow_info : ServerInfo :=
  mkServerInfo ONLINE (f_of_Z 1) (Some 2) (Some 3) None None None None (Some f_zero) [] None None None None None.

Definition slow_manager : @SequenceManager ZPeerIds SetBlacklist :=
  let s := mkSpan (PI := ZPeerIds) 9 0 1 slow_info in
  mkManager (PI := ZPeerIds) (default_config ["peer"] (Some 3))
    (mkSeqInfo ["m.2"] [mkModuleInfo (PI := ZPeerIds) "m.2" [(9, slow_info)]] [s] [[s]] None)
    None bl_empty None None [] true false true.

Lemma slow_manager_ok : manager_ok slow_manager.
Proof.
  split; [done|]. split; [apply NoDup_singleton|]. split.
  - intros sp Hsp. apply list_elem_of_singleton in Hsp as ->. by repeat split.
  - intros i row Hi Hr. apply lookup_lt_Some in Hr as Hl. simpl in Hl.
    assert (i = 0) as -> by lia. simpl in Hr. injection Hr as <-. reflexivity.
Qed.

(** There the route fails. *)
Lemma zero_rps_breaks_routing : _make_sequence_with_min_latency slow_manager 0 1 None = Err ZeroDivisionError.
Proof.
  apply (min_latency_zero_rps slow_manager 0 1 None (mkSpan (PI := ZPeerIds) 9 0 1 slow_info) 0).
  - apply slow_manager_ok.
  - done.
  - done.
  - discriminate.
  - intros i Hi. eexists. split; [left|]. unfold contains_block. simpl. lia.
  - left.
  - lia.
  - unfold contains_block. simpl. lia.
  - reflexivity.
Qed.
