(* ===== verification/MemoryCache.v ===== *)
(** * MemoryCache: [server/memory_cache.py]

    The attention cache that the connection handlers (several processes) and the runtime share:
    the byte counters, the lock under which one request at a time waits for memory, the pipe
    that tells the runtime which tensors to create and to drop, and the tensors.  A call of
    [allocate_cache] is a request that goes through phases; an action is what one process does
    between two points where another process can interfere. *)

From S2P Require Import Prelude PyFloat PyDict DataStructures Utils.

(** [hivemind.utils.TensorDescriptor]: size, data type and device of a tensor. *)
Record TensorDescriptor := mkDescr {
  td_shape : list Z;
  td_dtype : dtype;
  td_device : option Z;
}.

Definition td_numel (d : TensorDescriptor) : Z := foldr Z.mul 1 (td_shape d).

Section memory_cache.
Context {TD : TorchDtypes} {tensor : Type} (make_zeros : TensorDescriptor -> tensor).

(** A message of the pipe: handles to create (with descriptors) or to delete (with [None]). *)
Definition message : Type := list Handle * option (list TensorDescriptor).

Record MemoryCache := mkCache {
  mc_max_size_bytes : Z;
  mc_max_alloc_timeout : option pyfloat;
  mc_current_size : Z;
  mc_enqueued_size : Z;
  mc_handle_counter : Z;
  mc_lock_acquire_memory : option nat;
  mc_memory_freed_event : bool;
  mc_pipe : list message;
  mc_allocated_tensors : list (Handle * tensor);
}.

Definition mc_init (max_size_bytes : option Z) (max_alloc_timeout : option pyfloat) : MemoryCache :=
  mkCache (or_default max_size_bytes (2 ^ 64 - 1)) max_alloc_timeout 0 0 0 None false [] [].

Definition bytes_left (c : MemoryCache) : Z := mc_max_size_bytes c - mc_current_size c.

Definition with_current (c : MemoryCache) (v : Z) : MemoryCache :=
  mkCache (mc_max_size_bytes c) (mc_max_alloc_timeout c) (int64 v) (mc_enqueued_size c) (mc_handle_counter c)
    (mc_lock_acquire_memory c) (mc_memory_freed_event c) (mc_pipe c) (mc_allocated_tensors c).
Definition with_enqueued (c : MemoryCache) (v : Z) : MemoryCache :=
  mkCache (mc_max_size_bytes c) (mc_max_alloc_timeout c) (mc_current_size c) (int64 v) (mc_handle_counter c)
    (mc_lock_acquire_memory c) (mc_memory_freed_event c) (mc_pipe c) (mc_allocated_tensors c).
Definition with_counter (c : MemoryCache) (v : Z) : MemoryCache :=
  mkCache (mc_max_size_bytes c) (mc_max_alloc_timeout c) (mc_current_size c) (mc_enqueued_size c) (int64 v)
    (mc_lock_acquire_memory c) (mc_memory_freed_event c) (mc_pipe c) (mc_allocated_tensors c).
Definition with_lock (c : MemoryCache) (l : option nat) : MemoryCache :=
  mkCache (mc_max_size_bytes c) (mc_max_alloc_timeout c) (mc_current_size c) (mc_enqueued_size c)
    (mc_handle_counter c) l (mc_memory_freed_event c) (mc_pipe c) (mc_allocated_tensors c).
Definition with_event (c : MemoryCache) (e : bool) : MemoryCache :=
  mkCache (mc_max_size_bytes c) (mc_max_alloc_timeout c) (mc_current_size c) (mc_enqueued_size c)
    (mc_handle_counter c) (mc_lock_acquire_memory c) e (mc_pipe c) (mc_allocated_tensors c).
Definition pipe_send (c : MemoryCache) (m : message) : MemoryCache :=
  mkCache (mc_max_size_bytes c) (mc_max_alloc_timeout c) (mc_current_size c) (mc_enqueued_size c)
    (mc_handle_counter c) (mc_lock_acquire_memory c) (mc_memory_freed_event c) (mc_pipe c ++ [m])
    (mc_allocated_tensors c).
Definition with_tensors (c : MemoryCache) (p : list message) (t : list (Handle * tensor)) : MemoryCache :=
  mkCache (mc_max_size_bytes c) (mc_max_alloc_timeout c) (mc_current_size c) (mc_enqueued_size c)
    (mc_handle_counter c) (mc_lock_acquire_memory c) (mc_memory_freed_event c) p t.

(** ** Requests *)

Definition alloc_size_by_device (ds : list TensorDescriptor) : list (option Z * Z) :=
  fold_left (fun d descr =>
    let tensor_size := td_numel descr * get_size_in_bytes (td_dtype descr) in
    dset d (td_device descr) (or_default (dget d (td_device descr)) 0 + tensor_size)) ds [].

Definition get_allocation_size (ds : list TensorDescriptor) : result Z :=
  match dvalues (alloc_size_by_device ds) with
  | [] => Err ValueError
  | x :: l => Ok (fold_left Z.max l x)
  end.

(** The arguments of [_schedule_alloc]. *)
Record request := mkRequest {
  rq_alloc_size : Z;
  rq_descriptors : list TensorDescriptor;
  rq_timeout : pyfloat;
}.

(** [allocate_cache] up to the creation of [alloc_task]. The log line divides by the capacity. *)
Definition allocate_cache (c : MemoryCache) (in_runtime_process : bool)
    (ds : list TensorDescriptor) (timeout : pyfloat) : result request :=
  _ ← assert_ (negb in_runtime_process);
  _ ← assert_ (forallb (fun d => match td_device d with Some _ => true | None => false end) ds);
  let timeout := match mc_max_alloc_timeout c with Some m => f_min timeout m | None => timeout end in
  max_alloc_size ← get_allocation_size ds;
  _ ← raise_if (mc_max_size_bytes c =? 0) ZeroDivisionError;
  mret (mkRequest max_alloc_size ds timeout).

(** Where a request is. [Queued]: counted in [enqueued_size]; [Checked]: past the test of a zero
    timeout, waiting for the lock; [Locked]: just got it; [Polling] and [Sleeping]: in the loop of
    [_wait_until_available]; [Granted]: enough memory was seen and the lock released; [Settled]:
    no longer counted as enqueued; [Live]: inside the [yield] of [allocate_cache]. *)
Inductive phase :=
  | Scheduled
  | Queued
  | Checked
  | Locked
  | Polling
  | Sleeping
  | Granted
  | Settled
  | Live (handles : list Handle)
  | Freed (handles : list Handle)
  | Failed (e : exn).

#[global] Instance phase_eq_dec : EqDecision phase.
Proof. solve_decision. Defined.

Inductive action := Enqueue | CheckNow | Acquire | Decide | Poll | Wake | Expire | Settle | Commit | Free.

#[global] Instance action_eq_dec : EqDecision action.
Proof. solve_decision. Defined.

Definition out_of_memory (c : MemoryCache) (rq : request) : bool :=
  mc_max_size_bytes c <? mc_current_size c + rq_alloc_size rq.

(** [timeout == 0] *)
Definition no_wait (rq : request) : bool := f_eq (rq_timeout rq) f_zero.

(** [self._enqueued_size.value -= alloc_size] *)
Definition unqueue (c : MemoryCache) (rq : request) : MemoryCache :=
  with_enqueued c (mc_enqueued_size c - rq_alloc_size rq).

Definition unlock (c : MemoryCache) : MemoryCache := with_lock c None.

(** One action of [_wait_for_free_memory], [_wait_until_available], [_schedule_alloc] or [_free]
    for request [i]; [None] when the request is not at that point or has to wait. *)
Definition advance (i : nat) (a : action) (rq : request) (ph : phase) (c : MemoryCache)
    : option (MemoryCache * phase) :=
  match a, ph with
  | Enqueue, Scheduled => Some (with_enqueued c (mc_enqueued_size c + rq_alloc_size rq), Queued)
  | CheckNow, Queued =>
      if no_wait rq && (mc_max_size_bytes c <? mc_current_size c + mc_enqueued_size c)
      then Some (unqueue c rq, Failed AllocationFailed)
      else Some (c, Checked)
  | Acquire, Checked =>
      match mc_lock_acquire_memory c with
      | None => Some (with_lock c (Some i), Locked)
      | Some _ => None
      end
  | Decide, Locked =>
      if out_of_memory c rq then
        if no_wait rq || (mc_max_size_bytes c <? rq_alloc_size rq)
        then Some (unqueue (unlock c) rq, Failed AllocationFailed)
        else Some (c, Polling)
      else Some (unlock c, Granted)
  | Poll, Polling => if out_of_memory c rq then Some (c, Sleeping) else Some (unlock c, Granted)
  | Wake, Sleeping => if mc_memory_freed_event c then Some (with_event c false, Polling) else None
  | Expire, Checked =>
      if no_wait rq then None else Some (unqueue c rq, Failed AllocationFailed)
  | Expire, (Polling | Sleeping) =>
      if no_wait rq then None else Some (unqueue (unlock c) rq, Failed AllocationFailed)
  | Settle, Granted => Some (unqueue c rq, Settled)
  | Commit, Settled =>
      let n := zlen (rq_descriptors rq) in
      let handles := zrange (mc_handle_counter c) (mc_handle_counter c + n) in
      let c1 := with_current c (mc_current_size c + rq_alloc_size rq) in
      let c2 := with_counter c1 (mc_handle_counter c1 + n) in
      Some (pipe_send c2 (handles, Some (rq_descriptors rq)), Live handles)
  | Free, Live handles =>
      let c1 := pipe_send c (handles, None) in
      let c2 := with_current c1 (mc_current_size c1 - rq_alloc_size rq) in
      Some (with_event c2 true, Freed handles)
  | _, _ => None
  end.

(** ** The runtime's side *)

Definition recv_message (tensors : list (Handle * tensor)) (m : message) : result (list (Handle * tensor)) :=
  match m with
  | (handles, Some descriptors) =>
      _ ← assert_ (zlen handles =? zlen descriptors);
      mret (fold_left (fun t hd => dset t hd.1 (make_zeros hd.2)) (zip handles descriptors) tensors)
  | (handles, None) => mret (fold_left dpop handles tensors)
  end.

(** The [while self._pipe_recv.poll()] loop: reads the pipe until it is empty. *)
Definition recv_all (c : MemoryCache) : result MemoryCache :=
  tensors ← foldR recv_message (mc_allocated_tensors c) (mc_pipe c);
  mret (with_tensors c [] tensors).

Definition use_cache (c : MemoryCache) (in_runtime_process : bool) (handles : list Handle)
    : result (MemoryCache * list tensor) :=
  _ ← assert_ in_runtime_process;
  c' ← recv_all c;
  ts ← mapR (fun h => get_or KeyError (dget (mc_allocated_tensors c') h)) handles;
  mret (c', ts).

(** The runtime writes a tensor it got from [use_cache] in place. *)
Definition write_tensor (c : MemoryCache) (h : Handle) (t : tensor) : MemoryCache :=
  if dmem (mc_allocated_tensors c) h
  then with_tensors c (mc_pipe c) (dset (mc_allocated_tensors c) h t)
  else c.

(** ** Interleavings *)

Record world := mkWorld {
  w_cache : MemoryCache;
  w_requests : list (request * phase);
}.

Inductive event :=
  | Req (i : nat) (a : action)
  | Use
  | Write (h : Handle) (t : tensor).

Definition step (w : world) (ev : event) : option world :=
  match ev with
  | Req i a =>
      match w_requests w !! i with
      | Some (rq, ph) =>
          match advance i a rq ph (w_cache w) with
          | Some (c', ph') => Some (mkWorld c' (<[i := (rq, ph')]> (w_requests w)))
          | None => None
          end
      | None => None
      end
  | Use =>
      match recv_all (w_cache w) with
      | Ok c' => Some (mkWorld c' (w_requests w))
      | Err _ => None
      end
  | Write h t => Some (mkWorld (write_tensor (w_cache w) h t) (w_requests w))
  end.

Fixpoint run (w : world) (tr : list event) : option world :=
  match tr with
  | [] => Some w
  | ev :: tr' => match step w ev with Some w' => run w' tr' | None => None end
  end.

(** A new cache and the requests that will be made. *)
Definition fresh_world (max_size : option Z) (max_timeout : option pyfloat) (rqs : list request) : world :=
  mkWorld (mc_init max_size max_timeout) ((fun rq => (rq, Scheduled)) <$> rqs).

(** When all handlers live in one event loop, nothing runs between the moment a request is granted
    memory and the moment it is charged: there is no [await] on the way. *)
Definition step_one_process (w : world) (ev : event) : option world :=
  match step w ev, ev with
  | Some w', Req i _ =>
      match w_requests w' !! i with
      | Some (_, Granted) => run w' [Req i Settle; Req i Commit]
      | _ => Some w'
      end
  | r, _ => r
  end.

Fixpoint run_one_process (w : world) (tr : list event) : option world :=
  match tr with
  | [] => Some w
  | ev :: tr' => match step_one_process w ev with Some w' => run_one_process w' tr' | None => None end
  end.
End memory_cache.

(** ** Reading and writing the lent tensors *)

Section lending.
Context {TD : TorchDtypes} {tensor : Type} (make_zeros : TensorDescriptor -> tensor).
Implicit Types (c : @MemoryCache tensor).

(** The tensors behind a list of handles, once the pipe has been read. *)
Definition lookup_handles c (hs : list Handle) : result (list tensor) :=
  mapR (fun h => get_or KeyError (dget (mc_allocated_tensors c) h)) hs.

Lemma use_cache_settles c c1 hs ts :
  use_cache make_zeros c true hs = Ok (c1, ts) ->
  recv_all make_zeros c = Ok c1 /\ mc_pipe c1 = [] /\ lookup_handles c1 hs = Ok ts.
Proof.
  unfold use_cache, recv_all. intros H. inv_ok. split; [|done].
  unfold recv_all in *. by inv_ok.
Qed.

Lemma recv_all_empty c : mc_pipe c = [] -> recv_all make_zeros c = Ok c.
Proof. intros H. destruct c. unfold recv_all, with_tensors. simpl in *. by subst. Qed.

Lemma use_cache_recv c c1 hs :
  recv_all make_zeros c = Ok c1 ->
  use_cache make_zeros c true hs = (ts ← lookup_handles c1 hs; Ok (c1, ts)).
Proof. intros H. unfold use_cache. by rewrite H. Qed.

Lemma use_cache_empty c hs :
  mc_pipe c = [] -> use_cache make_zeros c true hs = (ts ← lookup_handles c hs; Ok (c, ts)).
Proof. intros H. by apply use_cache_recv, recv_all_empty. Qed.

Lemma write_tensor_pipe c h t : mc_pipe (write_tensor c h t) = mc_pipe c.
Proof. unfold write_tensor. by destruct (dmem _ _). Qed.

Lemma write_tensor_get c h t h' :
  dget (mc_allocated_tensors (write_tensor c h t)) h' =
    if decide (h = h') then (match dget (mc_allocated_tensors c) h with Some _ => Some t | None => None end)
    else dget (mc_allocated_tensors c) h'.
Proof.
  unfold write_tensor, dmem. destruct (dget (mc_allocated_tensors c) h) as [t'|] eqn:E; simpl.
  - by rewrite dget_dset.
  - case_decide; [by subst|done].
Qed.

Definition write_tensors c (handles : list Handle) (ts : list tensor) : @MemoryCache tensor :=
  fold_left (fun c ht => write_tensor c ht.1 ht.2) (zip handles ts) c.

Lemma write_tensors_pipe c hs ts : mc_pipe (write_tensors c hs ts) = mc_pipe c.
Proof.
  unfold write_tensors. revert c. induction (zip hs ts) as [|x l IH]; intros c; simpl; [done|].
  by rewrite IH, write_tensor_pipe.
Qed.

Lemma write_tensors_other c hs ts h :
  h ∉ hs -> dget (mc_allocated_tensors (write_tensors c hs ts)) h = dget (mc_allocated_tensors c) h.
Proof.
  unfold write_tensors. revert c ts. induction hs as [|h' hs IH]; intros c [|t ts] Hh; simpl; try done.
  apply not_elem_of_cons in Hh as [Hne Hh]. rewrite IH by done. rewrite write_tensor_get.
  by rewrite decide_False by done.
Qed.

Lemma lookup_handles_ext c c' hs :
  (forall h, h ∈ hs -> dget (mc_allocated_tensors c') h = dget (mc_allocated_tensors c) h) ->
  lookup_handles c' hs = lookup_handles c hs.
Proof.
  intros H. unfold lookup_handles. induction hs as [|h hs IH]; simpl; [done|].
  rewrite H by left. rewrite IH by (intros; apply H; by right). done.
Qed.

Lemma lookup_handles_write_other c hs ts hs' :
  (forall h, h ∈ hs' -> h ∉ hs) -> lookup_handles (write_tensors c hs ts) hs' = lookup_handles c hs'.
Proof. intros H. apply lookup_handles_ext. intros h Hh. by apply write_tensors_other, H. Qed.

(** What was written is what the next step is lent. *)
Lemma lookup_handles_write c hs ts ts' :
  NoDup hs -> lookup_handles c hs = Ok ts -> length ts' = length ts ->
  lookup_handles (write_tensors c hs ts') hs = Ok ts'.
Proof.
  intros Hnd. revert c ts ts'. induction Hnd as [|h hs Hh Hnd IH]; intros c ts ts' H Hl.
  - injection H as <-. by destruct ts'.
  - unfold lookup_handles in H. simpl in H.
    destruct (dget (mc_allocated_tensors c) h) as [t|] eqn:Et; simpl in H; [|discriminate H].
    inv_ok. rename a into ts. destruct ts' as [|t' ts']; [done|]. simpl in Hl.
    change (write_tensors c (h :: hs) (t' :: ts')) with (write_tensors (write_tensor c h t') hs ts').
    assert (Hrest : lookup_handles (write_tensor c h t') hs = Ok ts).
    { change (write_tensor c h t') with (write_tensors c [h] [t']).
      rewrite lookup_handles_write_other; [done|]. intros h' Hin Heq. apply list_elem_of_singleton in Heq. by subst. }
    assert (Hhs := IH _ _ ts' Hrest (eq_add_S _ _ Hl)).
    assert (Hget : dget (mc_allocated_tensors (write_tensors (write_tensor c h t') hs ts')) h = Some t').
    { rewrite write_tensors_other by done. rewrite write_tensor_get, decide_True by done. by rewrite Et. }
    unfold lookup_handles in *. simpl. rewrite Hget. simpl. by rewrite Hhs.
Qed.
End lending.

(** ** Accounting *)

Definition live_size (x : request * phase) : Z :=
  match snd x with Live _ => rq_alloc_size (fst x) | _ => 0 end.

Definition queued_size (x : request * phase) : Z :=
  match snd x with
  | Queued | Checked | Locked | Polling | Sleeping | Granted => rq_alloc_size (fst x)
  | _ => 0
  end.

Definition holds_lock (ph : phase) : bool :=
  match ph with Locked | Polling | Sleeping => true | _ => false end.

Section accounting.
Context {TD : TorchDtypes} {tensor : Type} (make_zeros : TensorDescriptor -> tensor).
Abbreviation cache := (@MemoryCache tensor).

Record accounted (w : @world tensor) : Prop := {
  acc_current : mc_current_size (w_cache w) = int64 (zsum (live_size <$> w_requests w));
  acc_enqueued : mc_enqueued_size (w_cache w) = int64 (zsum (queued_size <$> w_requests w));
  acc_lock : forall i, mc_lock_acquire_memory (w_cache w) = Some i <->
    exists x, w_requests w !! i = Some x /\ holds_lock (snd x) = true;
}.

(** What an action does to the counters and the lock, in terms of the request's phase. *)
Lemma advance_accounts i a rq ph (c c' : cache) ph' :
  advance i a rq ph c = Some (c', ph') ->
  mc_max_size_bytes c' = mc_max_size_bytes c /\
  (mc_current_size c' = mc_current_size c /\ live_size (rq, ph') = live_size (rq, ph) \/
   mc_current_size c' = int64 (mc_current_size c - live_size (rq, ph) + live_size (rq, ph'))) /\
  (mc_enqueued_size c' = mc_enqueued_size c /\ queued_size (rq, ph') = queued_size (rq, ph) \/
   mc_enqueued_size c' = int64 (mc_enqueued_size c - queued_size (rq, ph) + queued_size (rq, ph'))) /\
  (holds_lock ph = holds_lock ph' /\ mc_lock_acquire_memory c' = mc_lock_acquire_memory c \/
   holds_lock ph = true /\ holds_lock ph' = false /\ mc_lock_acquire_memory c' = None \/
   holds_lock ph = false /\ holds_lock ph' = true /\ mc_lock_acquire_memory c = None /\
     mc_lock_acquire_memory c' = Some i).
Proof.
  intros H. destruct a, ph; simpl in H; try discriminate H;
    repeat match type of H with context [if ?b then _ else _] => destruct b end;
    try discriminate H;
    try (destruct (mc_lock_acquire_memory c) eqn:El; [discriminate H|]);
    injection H as <- <-; unfold live_size, queued_size; simpl;
    rewrite ?Z.sub_0_r, ?Z.add_0_r; (split; [done|]); (split; [by auto|]); (split; [by auto|]); tauto.
Qed.

Lemma recv_all_fields (c c' : cache) :
  recv_all make_zeros c = Ok c' ->
  exists t, foldR (recv_message make_zeros) (mc_allocated_tensors c) (mc_pipe c) = Ok t /\ c' = with_tensors c [] t.
Proof. unfold recv_all. intros H. inv_ok. eauto. Qed.

Lemma step_accounted w ev w' : accounted w -> step make_zeros w ev = Some w' -> accounted w'.
Proof.
  intros [Hc He Hl] H. destruct w as [c rqs]. destruct ev as [i a| |h t]; simpl in *.
  - destruct (rqs !! i) as [[rq ph]|] eqn:Hi; [|done].
    destruct (advance i a rq ph c) as [[c' ph']|] eqn:Ha; [|done]. injection H as <-.
    apply advance_accounts in Ha as (_ & Hc' & He' & Hl').
    split; simpl.
    + rewrite (zsum_insert _ _ i (rq, ph)) by done.
      destruct Hc' as [[-> ->] | ->]; rewrite Hc; [f_equal; lia|].
      rewrite <- Z.add_sub_swap, <- Z.add_sub_assoc, int64_add. f_equal. lia.
    + rewrite (zsum_insert _ _ i (rq, ph)) by done.
      destruct He' as [[-> ->] | ->]; rewrite He; [f_equal; lia|].
      rewrite <- Z.add_sub_swap, <- Z.add_sub_assoc, int64_add. f_equal. lia.
    + intros j. specialize (Hl j) as Hj. specialize (Hl i) as Hli. destruct (decide (i = j)) as [<-|Hne].
      * rewrite list_lookup_insert_eq by (by eapply lookup_lt_Some).
        assert (holds_lock ph = true <-> mc_lock_acquire_memory c = Some i) as Hph.
        { rewrite Hli. split; [eauto|]. intros (x & Hx & Hh). rewrite Hi in Hx. by injection Hx as <-. }
        assert ((exists x, Some (rq, ph') = Some x /\ holds_lock x.2 = true) <-> holds_lock ph' = true) as ->.
        { split; [intros (x & [= <-] & ?); done|eauto]. }
        destruct Hl' as [[Hp ->]|[(Hp & -> & ->)|(Hp & -> & _ & ->)]]; [|done|done].
        rewrite <- Hp. by symmetry.
      * rewrite list_lookup_insert_ne by done. rewrite <- Hj.
        destruct Hl' as [[_ ->]|[(Hp & _ & ->)|(Hp & _ & Hn & ->)]]; [done| |].
        -- assert (mc_lock_acquire_memory c = Some i) as -> by (apply Hli; eauto).
           split; [done|]. intros [= <-]. done.
        -- rewrite Hn. split; [intros [= <-]; done|done].
  - destruct (recv_all make_zeros c) as [c'|] eqn:E; [|done]. injection H as <-.
    apply recv_all_fields in E as (t & _ & ->). by split.
  - injection H as <-. unfold write_tensor. case_if; by split.
Qed.

Lemma run_accounted w tr w' : accounted w -> run make_zeros w tr = Some w' -> accounted w'.
Proof.
  revert w. induction tr as [|ev tr IH]; intros w Ha; simpl; [by intros [= <-]|].
  destruct (step make_zeros w ev) as [w1|] eqn:E; [|done]. apply IH. by eapply step_accounted.
Qed.

Lemma fresh_accounted ms mt rqs : accounted (fresh_world ms mt rqs).
Proof.
  split; unfold fresh_world; simpl.
  - rewrite zsum_all_zero; [done|]. by intros x (rq & -> & _)%list_elem_of_fmap.
  - rewrite zsum_all_zero; [done|]. by intros x (rq & -> & _)%list_elem_of_fmap.
  - intros i. split; [done|]. intros (x & Hx & Hh). rewrite list_lookup_fmap in Hx.
    by apply fmap_Some in Hx as (rq & _ & ->).
Qed.
End accounting.

(** ** The tensors behind the handles *)

Definition all_handles (ph : phase) : list Handle :=
  match ph with Live hs | Freed hs => hs | _ => [] end.

Definition live_handles (ph : phase) : list Handle :=
  match ph with Live hs => hs | _ => [] end.

(** How many handles a request has taken from the counter. *)
Definition taken (x : request * phase) : Z :=
  match snd x with Live _ | Freed _ => zlen (rq_descriptors (fst x)) | _ => 0 end.

Definition wanted (x : request * phase) : Z := zlen (rq_descriptors (fst x)).

Section handles.
Context {TD : TorchDtypes} {tensor : Type} (make_zeros : TensorDescriptor -> tensor).
Abbreviation recv := (recv_message make_zeros).
Abbreviation tensors := (list (Handle * tensor)).

Definition same_keys (t t' : tensors) : Prop := forall h, h ∈ dkeys t <-> h ∈ dkeys t'.

(** Requests with handles; [h] belongs to a live request. *)
Definition is_live (rqs : list (request * phase)) (h : Handle) : Prop :=
  exists i x, rqs !! i = Some x /\ h ∈ live_handles (snd x).

Record stored (w : @world tensor) : Prop := {
  st_counter : mc_handle_counter (w_cache w) = zsum (taken <$> w_requests w);
  st_handles : forall i x, w_requests w !! i = Some x ->
    (all_handles (snd x) = [] \/ zlen (all_handles (snd x)) = zlen (rq_descriptors (fst x))) /\
    forall h, h ∈ all_handles (snd x) -> 0 <= h < mc_handle_counter (w_cache w);
  st_disjoint : forall i j x y h, w_requests w !! i = Some x -> w_requests w !! j = Some y ->
    h ∈ all_handles (snd x) -> h ∈ all_handles (snd y) -> i = j;
  st_tensors : exists t, foldR recv (mc_allocated_tensors (w_cache w)) (mc_pipe (w_cache w)) = Ok t /\
    forall h, h ∈ dkeys t <-> is_live (w_requests w) h;
}.

Lemma keys_create hs ds (t : tensors) h :
  zlen hs = zlen ds ->
  h ∈ dkeys (fold_left (fun t hd => dset t hd.1 (make_zeros hd.2)) (zip hs ds) t) <->
  h ∈ dkeys t \/ h ∈ hs.
Proof.
  unfold zlen. revert ds t. induction hs as [|x hs IH]; intros [|d ds] t Hlen; simpl in *; try lia.
  - split; [by left|]. intros [?|H]; [done|inversion H].
  - rewrite IH by lia. rewrite elem_dkeys_dset, elem_of_cons. tauto.
Qed.

Lemma keys_delete hs (t : tensors) h : h ∈ dkeys (fold_left dpop hs t) <-> h ∈ dkeys t /\ h ∉ hs.
Proof.
  revert t. induction hs as [|x hs IH]; intros t; simpl.
  - split; [|tauto]. intros. split; [done|]. intros H'. inversion H'.
  - rewrite IH, elem_dkeys_dpop, not_elem_of_cons. tauto.
Qed.

Lemma recv_same_keys t t' pipe r :
  same_keys t t' -> foldR recv t pipe = Ok r -> exists r', foldR recv t' pipe = Ok r' /\ same_keys r r'.
Proof.
  revert t t'. induction pipe as [|[hs [ds|]] pipe IH]; intros t t' Hs H; simpl in *.
  - injection H as <-. eauto.
  - unfold assert_ in *. destruct (Z.eqb_spec (zlen hs) (zlen ds)) as [He|]; simpl in *; [|done].
    eapply IH; [|exact H]. intros h. by rewrite !keys_create, (Hs h).
  - eapply IH; [|exact H]. intros h. by rewrite !keys_delete, (Hs h).
Qed.

(** Actions that neither take nor give back handles. *)
Lemma advance_frame i a rq ph (c c' : @MemoryCache tensor) ph' :
  a <> Commit -> a <> Free -> advance i a rq ph c = Some (c', ph') ->
  all_handles ph = [] /\ all_handles ph' = [] /\ taken (rq, ph) = 0 /\ taken (rq, ph') = 0 /\
  mc_handle_counter c' = mc_handle_counter c /\ mc_pipe c' = mc_pipe c /\
  mc_allocated_tensors c' = mc_allocated_tensors c.
Proof.
  intros Ha Hf H. destruct a, ph; simpl in H; try discriminate H; try done;
    repeat match type of H with context [if ?b then _ else _] => destruct b end;
    try discriminate H;
    try (destruct (mc_lock_acquire_memory c) eqn:El; [discriminate H|]);
    injection H as <- <-; by repeat split.
Qed.

Lemma live_all ph h : h ∈ live_handles ph -> h ∈ all_handles ph.
Proof. destruct ph; simpl; try done; intros H; inversion H. Qed.

Lemma is_live_insert rqs i x y h :
  rqs !! i = Some x ->
  is_live (<[i := y]> rqs) h <-> h ∈ live_handles (snd y) \/ exists j z, j <> i /\ rqs !! j = Some z /\ h ∈ live_handles (snd z).
Proof.
  intros Hi. unfold is_live. split.
  - intros (j & z & Hj & Hh). destruct (decide (j = i)) as [->|Hne].
    + rewrite list_lookup_insert_eq in Hj by (by eapply lookup_lt_Some). injection Hj as <-. by left.
    + rewrite list_lookup_insert_ne in Hj by done. right. eauto.
  - intros [Hh|(j & z & Hne & Hj & Hh)].
    + exists i, y. split; [|done]. apply list_lookup_insert_eq. by eapply lookup_lt_Some.
    + exists j, z. split; [|done]. by rewrite list_lookup_insert_ne.
Qed.

Lemma is_live_split rqs i x h :
  rqs !! i = Some x ->
  is_live rqs h <-> h ∈ live_handles (snd x) \/ exists j z, j <> i /\ rqs !! j = Some z /\ h ∈ live_handles (snd z).
Proof.
  intros Hi. unfold is_live. split.
  - intros (j & z & Hj & Hh). destruct (decide (j = i)) as [->|Hne]; [|eauto 6].
    rewrite Hi in Hj. injection Hj as <-. by left.
  - intros [Hh|(j & z & Hne & Hj & Hh)]; eauto.
Qed.

(** Handles fit the 64-bit counter: all requests together want fewer than 2^63 of them. *)
Definition few_handles (w : @world tensor) : Prop := zsum (wanted <$> w_requests w) < 2 ^ 63.

Lemma wanted_insert (rqs : list (request * phase)) i rq ph ph' :
  rqs !! i = Some (rq, ph) -> zsum (wanted <$> <[i := (rq, ph')]> rqs) = zsum (wanted <$> rqs).
Proof. intros Hi. rewrite (zsum_insert _ _ i (rq, ph)) by done. unfold wanted. simpl. lia. Qed.

(** One more request with handles can always be counted. *)
Lemma taken_room (rqs : list (request * phase)) i rq ph :
  zsum (wanted <$> rqs) < 2 ^ 63 -> rqs !! i = Some (rq, ph) -> taken (rq, ph) = 0 ->
  0 <= zsum (taken <$> rqs) /\ zsum (taken <$> rqs) + zlen (rq_descriptors rq) < 2 ^ 63.
Proof.
  intros Hw Hi Ht.
  assert (Hn : forall x, 0 <= taken x <= wanted x).
  { intros [r p]. unfold taken, wanted. simpl. pose proof (zlen_nonneg (rq_descriptors r)). destruct p; lia. }
  split; [apply zsum_all_nonneg; intros x _; apply Hn|].
  assert (Hle : forall l : list (request * phase), zsum (taken <$> l) <= zsum (wanted <$> l)).
  { induction l as [|x l IH]; [done|]. unfold fmap in *. simpl. specialize (Hn x). lia. }
  specialize (Hle (<[i := (rq, Live [])]> rqs)). rewrite (zsum_insert _ _ i (rq, ph)) in Hle by done.
  rewrite (wanted_insert rqs i rq ph) in Hle by done. rewrite Ht in Hle.
  unfold taken in Hle at 2. simpl in Hle. lia.
Qed.

Lemma stored_quiet (w : world) i rq ph ph' c' :
  stored w -> w_requests w !! i = Some (rq, ph) ->
  all_handles ph = [] -> all_handles ph' = [] -> taken (rq, ph) = 0 -> taken (rq, ph') = 0 ->
  mc_handle_counter c' = mc_handle_counter (w_cache w) -> mc_pipe c' = mc_pipe (w_cache w) ->
  mc_allocated_tensors c' = mc_allocated_tensors (w_cache w) ->
  stored (mkWorld c' (<[i := (rq, ph')]> (w_requests w))).
Proof.
  intros [Hc Hh Hd (t & Ht & Hk)] Hi Ha Ha' Htk Htk' Hcn Hp Hal.
  assert (Hlk : forall j x, <[i := (rq, ph')]> (w_requests w) !! j = Some x ->
    all_handles x.2 = [] \/ w_requests w !! j = Some x).
  { intros j x Hj. destruct (decide (i = j)) as [<-|Hne].
    - rewrite list_lookup_insert_eq in Hj by (by eapply lookup_lt_Some). injection Hj as <-. by left.
    - rewrite list_lookup_insert_ne in Hj by done. by right. }
  split; simpl.
  - rewrite (zsum_insert _ _ i (rq, ph)) by done. rewrite Hcn, Hc, Htk, Htk'. lia.
  - intros j x [->|Hj]%Hlk; [|rewrite Hcn; by apply Hh in Hj].
    split; [by left|]. intros h H. inversion H.
  - intros j k x y h Hx Hy Hhx Hhy. apply Hlk in Hx as [Hx|Hx]; [rewrite Hx in Hhx; inversion Hhx|].
    apply Hlk in Hy as [Hy|Hy]; [rewrite Hy in Hhy; inversion Hhy|]. by eapply Hd.
  - exists t. rewrite Hp, Hal. split; [done|]. intros h. rewrite Hk.
    rewrite (is_live_insert (w_requests w) i (rq, ph)), (is_live_split (w_requests w) i (rq, ph)) by done.
    assert (forall p, all_handles p = [] -> h ∉ live_handles p) as Hno.
    { intros p Hp' Hin%live_all. rewrite Hp' in Hin. inversion Hin. }
    pose proof (Hno ph Ha). pose proof (Hno ph' Ha'). simpl. tauto.
Qed.

Lemma stored_commit (w : world) i rq :
  stored w -> few_handles w -> w_requests w !! i = Some (rq, Settled) ->
  forall c' ph', advance i Commit rq Settled (w_cache w) = Some (c', ph') ->
  stored (mkWorld c' (<[i := (rq, ph')]> (w_requests w))).
Proof.
  intros [Hc Hh Hd (t & Ht & Hk)] Hfew Hi c' ph' H. injection H as <- <-.
  set (n := zlen (rq_descriptors rq)) in *. pose proof (zlen_nonneg (rq_descriptors rq)) as Hn0.
  destruct (taken_room _ i rq Settled Hfew Hi eq_refl) as [Hr0 Hr]. fold n in Hr.
  set (hs := zrange (mc_handle_counter (w_cache w)) (mc_handle_counter (w_cache w) + n)) in *.
  assert (Hlen : zlen (A := Handle) hs = n).
  { unfold hs, zlen. rewrite zrange_length. unfold n in *. lia. }
  assert (Hcnt : int64 (mc_handle_counter (w_cache w) + n) = mc_handle_counter (w_cache w) + n).
  { apply int64_small. rewrite Hc. unfold n in *. lia. }
  assert (Hin : forall h : Handle, h ∈ hs <-> mc_handle_counter (w_cache w) <= h < mc_handle_counter (w_cache w) + n).
  { intros h. unfold hs. apply elem_of_zrange. }
  assert (Hlk : forall j x, <[i := (rq, Live hs)]> (w_requests w) !! j = Some x ->
    (j = i /\ x = (rq, Live hs)) \/ (j <> i /\ w_requests w !! j = Some x)).
  { intros j x Hj. destruct (decide (i = j)) as [<-|Hne].
    - rewrite list_lookup_insert_eq in Hj by (by eapply lookup_lt_Some). injection Hj as <-. by left.
    - rewrite list_lookup_insert_ne in Hj by done. right. split; [congruence|done]. }
  split; simpl.
  - rewrite Hcnt, (zsum_insert _ _ i (rq, Settled)) by done. rewrite Hc. unfold taken at 3 4. simpl. fold n. lia.
  - rewrite Hcnt. intros j x [[-> ->]|[_ Hj]]%Hlk; simpl.
    + split; [by right|]. intros h Hx%Hin. lia.
    + apply Hh in Hj as [Hl Hb]. split; [done|]. intros h Hx%Hb. unfold n. lia.
  - intros j k x y h Hx Hy Hhx Hhy.
    apply Hlk in Hx as [[-> ->]|[Hnj Hx]]; apply Hlk in Hy as [[-> ->]|[Hnk Hy]]; [done| | |by eapply Hd];
      simpl in *; exfalso.
    + apply Hin in Hhx. apply (proj2 (Hh _ _ Hy)) in Hhy. lia.
    + apply Hin in Hhy. apply (proj2 (Hh _ _ Hx)) in Hhx. lia.
  - rewrite foldR_app, Ht. simpl. unfold assert_. rewrite Hlen. fold n. rewrite Z.eqb_refl. simpl.
    eexists. split; [done|]. intros h. rewrite keys_create by done.
    rewrite Hk, (is_live_insert (w_requests w) i (rq, Settled)), (is_live_split (w_requests w) i (rq, Settled)) by done.
    simpl. assert (h ∉ []) by apply not_elem_of_nil. tauto.
Qed.

Lemma stored_free (w : world) i rq hs :
  stored w -> w_requests w !! i = Some (rq, Live hs) ->
  forall c' ph', advance i Free rq (Live hs) (w_cache w) = Some (c', ph') ->
  stored (mkWorld c' (<[i := (rq, ph')]> (w_requests w))).
Proof.
  intros [Hc Hh Hd (t & Ht & Hk)] Hi c' ph' H. injection H as <- <-.
  assert (Hlk : forall j x, <[i := (rq, Freed hs)]> (w_requests w) !! j = Some x ->
    exists y, w_requests w !! j = Some y /\ fst y = fst x /\ all_handles (snd y) = all_handles (snd x)).
  { intros j x Hj. destruct (decide (i = j)) as [<-|Hne].
    - rewrite list_lookup_insert_eq in Hj by (by eapply lookup_lt_Some). injection Hj as <-. eauto.
    - rewrite list_lookup_insert_ne in Hj by done. eauto. }
  split; simpl.
  - rewrite (zsum_insert _ _ i (rq, Live hs)) by done. rewrite Hc. unfold taken at 3 4. simpl. lia.
  - intros j x (y & Hy & <- & <-)%Hlk. by apply Hh in Hy.
  - intros j k x y h (x' & Hx & _ & <-)%Hlk (y' & Hy & _ & <-)%Hlk. by eapply Hd.
  - rewrite foldR_app, Ht. simpl. eexists. split; [done|]. intros h. rewrite keys_delete.
    rewrite Hk, (is_live_insert (w_requests w) i (rq, Live hs)), (is_live_split (w_requests w) i (rq, Live hs)) by done.
    simpl. assert (Hnil : h ∉ []) by apply not_elem_of_nil. split.
    + intros [[Hin|Hex] Hnin]; [done|by right].
    + intros [Hin|(j & z & Hne & Hj & Hz)]; [done|]. split; [right; eauto|]. intros Hin. apply Hne.
      eapply (Hd j i z (rq, Live hs) h); [done|done|by apply live_all|done].
Qed.

Lemma step_stored w ev w' :
  stored w -> few_handles w -> step make_zeros w ev = Some w' -> stored w' /\ few_handles w'.
Proof.
  intros Hs Hfew H. destruct ev as [i a| |h t]; simpl in *.
  - destruct (w_requests w !! i) as [[rq ph]|] eqn:Hi; [|done].
    destruct (advance i a rq ph (w_cache w)) as [[c' ph']|] eqn:Ha; [|done]. injection H as <-.
    split; [|unfold few_handles; simpl; by rewrite (wanted_insert _ i rq ph)].
    destruct (decide (a = Commit)) as [->|Hnc]; [|destruct (decide (a = Free)) as [->|Hnf]].
    + destruct ph; try discriminate Ha. by eapply stored_commit.
    + destruct ph; try discriminate Ha. by eapply stored_free.
    + apply advance_frame in Ha as (? & ? & ? & ? & ? & ? & ?); [|done|done]. by eapply stored_quiet.
  - destruct (recv_all make_zeros (w_cache w)) as [c'|] eqn:E; [|done]. injection H as <-.
    apply recv_all_fields in E as (t & Ht & ->). split; [|done].
    destruct Hs as [Hc Hh Hd (t' & Ht' & Hk)]. split; simpl; try done. exists t. split; [done|].
    rewrite Ht in Ht'. injection Ht' as <-. done.
  - injection H as <-. split; [|done]. destruct Hs as [Hc Hh Hd (r & Hr & Hk)].
    unfold write_tensor. destruct (dmem _ h) eqn:E; split; simpl; try done; [|eauto].
    apply dmem_keys in E.
    destruct (recv_same_keys (mc_allocated_tensors (w_cache w)) (dset (mc_allocated_tensors (w_cache w)) h t)
      (mc_pipe (w_cache w)) r) as (r' & Hr' & Hkk); [|done|].
    { intros h'. rewrite elem_dkeys_dset. split; [by right|]. by intros [->|]. }
    exists r'. split; [done|]. intros h'. by rewrite <- (Hkk h').
Qed.
End handles.

Section guarantees.
Context {TD : TorchDtypes} {tensor : Type} (make_zeros : TensorDescriptor -> tensor).

Lemma fresh_stored ms mt rqs : stored make_zeros (fresh_world ms mt rqs).
Proof.
  assert (Hlk : forall i x, (fun rq => (rq, Scheduled)) <$> rqs !! i = Some x -> snd x = Scheduled).
  { intros i x. by intros (rq & _ & ->)%fmap_Some. }
  split; unfold fresh_world; simpl.
  - rewrite zsum_all_zero; [done|]. by intros x (rq & -> & _)%list_elem_of_fmap.
  - intros i x. rewrite list_lookup_fmap. intros Hx%Hlk. rewrite Hx. split; [by left|].
    intros h H. inversion H.
  - intros i j x y h. rewrite !list_lookup_fmap. intros Hx%Hlk _. rewrite Hx. intros H. inversion H.
  - exists []. split; [done|]. intros h. split; [intros H; inversion H|].
    intros (i & x & Hx & Hh). rewrite list_lookup_fmap in Hx. apply Hlk in Hx. rewrite Hx in Hh. inversion Hh.
Qed.

Lemma run_stored w tr w' :
  stored make_zeros w -> few_handles w -> run make_zeros w tr = Some w' -> stored make_zeros w'.
Proof.
  revert w. induction tr as [|ev tr IH]; intros w Hs Hf; simpl; [by intros [= <-]|].
  destruct (step make_zeros w ev) as [w1|] eqn:E; [|done].
  destruct (step_stored make_zeros w ev w1 Hs Hf E). by apply IH.
Qed.

Lemma few_fresh ms mt rqs :
  zsum ((fun rq => zlen (rq_descriptors rq)) <$> rqs) < 2 ^ 63 ->
  few_handles (fresh_world (tensor := tensor) ms mt rqs).
Proof.
  unfold few_handles, fresh_world. simpl. rewrite <- list_fmap_compose. done.
Qed.

(** Whatever the interleaving of the handlers, the counters are exact (modulo 2^64): the
    current size is the size of the live allocations, the enqueued size that of the requests still
    waiting, and the lock is held by the one request that is inside the critical section. *)
Theorem cache_accounting ms mt rqs tr w :
  run make_zeros (fresh_world ms mt rqs) tr = Some w -> accounted w.
Proof. apply run_accounted, fresh_accounted. Qed.

(** C12: the runtime can use every live allocation: reading the pipe never fails, and every handle
    of a live allocation has its tensor; two allocations never share a handle. *)
Theorem use_cache_live ms mt rqs tr w hs :
  run make_zeros (fresh_world ms mt rqs) tr = Some w ->
  zsum ((fun rq => zlen (rq_descriptors rq)) <$> rqs) < 2 ^ 63 ->
  (forall h, h ∈ hs -> is_live (w_requests w) h) ->
  (exists c' ts, use_cache make_zeros (w_cache w) true hs = Ok (c', ts) /\ mc_pipe c' = [] /\
     length ts = length hs /\ forall h, h ∈ dkeys (mc_allocated_tensors c') <-> is_live (w_requests w) h) /\
  (forall i j x y h, w_requests w !! i = Some x -> w_requests w !! j = Some y ->
     h ∈ live_handles (snd x) -> h ∈ live_handles (snd y) -> i = j).
Proof.
  intros Hr Hf Hl.
  apply run_stored in Hr as [_ _ Hd (t & Ht & Hk)]; [|apply fresh_stored|by apply few_fresh].
  split; [|intros i j x y h ? ? ?%live_all ?%live_all; by eapply Hd].
  unfold use_cache, recv_all. rewrite Ht. simpl.
  assert (Hm : exists ts, mapR (fun h => get_or KeyError (dget t h)) hs = Ok ts /\ length ts = length hs).
  { clear -Hl Hk. induction hs as [|h hs IH]; simpl; [by exists []|].
    destruct IH as (ts & -> & Hlen); [intros; apply Hl; by right|].
    assert (is_Some (dget t h)) as [v Hv] by (apply dget_is_Some_keys, Hk, Hl; by left).
    unfold get_or. rewrite Hv. eexists. split; [done|]. simpl. by rewrite Hlen. }
  destruct Hm as (ts & -> & Hlen). eauto 8.
Qed.

(** nothing leaks: once every request has failed or been freed the cache is as it was, with
    zero bytes in use and enqueued, the lock free and (after reading the pipe) no tensors. *)
Theorem cache_no_leak ms mt rqs tr w :
  run make_zeros (fresh_world ms mt rqs) tr = Some w ->
  zsum ((fun rq => zlen (rq_descriptors rq)) <$> rqs) < 2 ^ 63 ->
  (forall x, x ∈ w_requests w -> match snd x with Freed _ | Failed _ => True | _ => False end) ->
  mc_current_size (w_cache w) = 0 /\ mc_enqueued_size (w_cache w) = 0 /\
  mc_lock_acquire_memory (w_cache w) = None /\
  exists c', recv_all make_zeros (w_cache w) = Ok c' /\ mc_allocated_tensors c' = [].
Proof.
  intros Hr Hf Hend. pose proof (run_accounted make_zeros _ _ _ (fresh_accounted ms mt rqs) Hr) as [Hc He Hl].
  apply run_stored in Hr as [_ _ _ (t & Ht & Hk)]; [|apply fresh_stored|by apply few_fresh].
  rewrite Hc, He, !zsum_all_zero; try (intros [rq ph] Hx; apply Hend in Hx; by destruct ph).
  split; [done|]. split; [done|]. split.
  - destruct (mc_lock_acquire_memory (w_cache w)) as [i|] eqn:E; [|done].
    destruct (proj1 (Hl i) eq_refl) as (x & Hx & Hh). apply list_elem_of_lookup_2, Hend in Hx.
    destruct x as [rq ph]. by destruct ph.
  - unfold recv_all. rewrite Ht. simpl. eexists. split; [done|]. simpl.
    destruct t as [|[h v] t]; [done|]. exfalso.
    assert (Hin : h ∈ dkeys ((h, v) :: t)) by left. apply Hk in Hin as (i & [rq ph] & Hx & Hh).
    apply list_elem_of_lookup_2, Hend in Hx. destruct ph; inversion Hh; done.
Qed.

(** *** All handlers in one process *)

Lemma advance_live i a rq ph (c c' : @MemoryCache tensor) ph' :
  0 <= rq_alloc_size rq -> ph <> Settled -> ph <> Granted -> advance i a rq ph c = Some (c', ph') ->
  live_size (rq, ph') <= live_size (rq, ph) /\ ph' <> Settled /\
  (ph' = Granted -> live_size (rq, ph) = 0 /\ mc_current_size c + rq_alloc_size rq <= mc_max_size_bytes c /\
     mc_current_size c' = mc_current_size c).
Proof.
  intros Hs Hne Hng H. destruct a, ph; simpl in H; try discriminate H; try done;
    unfold out_of_memory in H;
    repeat match type of H with context [if ?b then _ else _] => let E := fresh "E" in destruct b eqn:E end;
    try discriminate H;
    try (destruct (mc_lock_acquire_memory c) eqn:El; [discriminate H|]);
    injection H as <- <-; unfold live_size; simpl; repeat split; try done; zbool; try lia.
Qed.

Record within (max : Z) (w : @world tensor) : Prop := {
  wi_acc : accounted w;
  wi_max : mc_max_size_bytes (w_cache w) = max;
  wi_size : forall x, x ∈ w_requests w -> 0 <= rq_alloc_size (fst x);
  wi_phase : forall x, x ∈ w_requests w -> snd x <> Granted /\ snd x <> Settled;
  wi_bound : zsum (live_size <$> w_requests w) <= max;
}.

Lemma within_current max w :
  max < 2 ^ 63 -> within max w -> mc_current_size (w_cache w) = zsum (live_size <$> w_requests w) /\
  0 <= zsum (live_size <$> w_requests w).
Proof.
  intros Hm [[Hc _ _] _ Hs _ Hb].
  assert (0 <= zsum (live_size <$> w_requests w)).
  { apply zsum_all_nonneg. intros [rq ph] Hx. apply Hs in Hx. unfold live_size. simpl in *. destruct ph; lia. }
  split; [|done]. rewrite Hc. apply int64_small. lia.
Qed.

Lemma elem_insert {A} (l : list A) i x y : x ∈ <[i := y]> l -> x = y \/ x ∈ l.
Proof.
  intros (j & Hj)%list_elem_of_lookup. apply list_lookup_insert_Some in Hj as [(_ & -> & _)|[_ Hj]].
  - by left.
  - right. by eapply list_elem_of_lookup_2.
Qed.

Lemma within_insert max w c' i rq ph ph' :
  within max w -> accounted (mkWorld c' (<[i := (rq, ph')]> (w_requests w))) ->
  w_requests w !! i = Some (rq, ph) -> mc_max_size_bytes c' = max ->
  ph' <> Granted -> ph' <> Settled ->
  zsum (live_size <$> w_requests w) - live_size (rq, ph) + live_size (rq, ph') <= max ->
  within max (mkWorld c' (<[i := (rq, ph')]> (w_requests w))).
Proof.
  intros [_ _ Hs Hp _] Hacc Hi Hm Hng Hns Hb. split; simpl; try done.
  - intros x [->|Hx]%elem_insert; [|by apply Hs]. simpl. apply (Hs (rq, ph)). by eapply list_elem_of_lookup_2.
  - intros x [->|Hx]%elem_insert; [done|by apply Hp].
  - by rewrite (zsum_insert _ _ i (rq, ph)).
Qed.

Lemma step_within max w ev w' :
  max < 2 ^ 63 -> within max w -> step_one_process make_zeros w ev = Some w' -> within max w'.
Proof.
  intros Hmax Hw H. unfold step_one_process in H.
  destruct (step make_zeros w ev) as [w1|] eqn:Hstep; [|done].
  pose proof (step_accounted make_zeros w ev w1 (wi_acc _ _ Hw) Hstep) as Hacc1.
  destruct ev as [i a| |h t].
  - simpl in Hstep. destruct (w_requests w !! i) as [[rq ph]|] eqn:Hi; [|done].
    destruct (advance i a rq ph (w_cache w)) as [[c' ph']|] eqn:Ha; [|done]. injection Hstep as <-.
    pose proof (list_elem_of_lookup_2 _ _ _ Hi) as Hin.
    destruct (wi_phase _ _ Hw _ Hin) as [Hng Hns].
    pose proof (wi_size _ _ Hw _ Hin) as Hsz. simpl in Hng, Hns, Hsz.
    destruct (advance_live i a rq ph _ c' ph' Hsz Hns Hng Ha) as (Hle & Hns' & Hgr).
    pose proof (advance_accounts i a rq ph _ c' ph' Ha) as (Hmx & _).
    rewrite (wi_max _ _ Hw) in Hmx. simpl w_requests in H.
    rewrite list_lookup_insert_eq in H by (by eapply lookup_lt_Some).
    pose proof (wi_bound _ _ Hw) as Hbd. destruct (within_current max w Hmax Hw) as [Hcur _].
    destruct (decide (ph' = Granted)) as [->|Hng'].
    + destruct (Hgr eq_refl) as (H0 & Hroom & Hsame). pose proof (run_accounted make_zeros _ _ _ Hacc1 H) as Hacc.
      cbn [run step w_requests w_cache] in H.
      rewrite list_lookup_insert_eq in H by (by eapply lookup_lt_Some). simpl in H.
      rewrite list_lookup_insert_eq in H by (rewrite length_insert; by eapply lookup_lt_Some).
      injection H as <-. rewrite !list_insert_insert_eq in Hacc |- *.
      eapply (within_insert max w _ i rq ph); [done|done|done|done|done|done|].
      rewrite H0. unfold live_size at 2. simpl. rewrite (wi_max _ _ Hw), Hcur in Hroom. lia.
    + assert (Hw' : within max (mkWorld c' (<[i := (rq, ph')]> (w_requests w)))).
      { eapply (within_insert max w c' i rq ph); [done|done|done|done|done|done|lia]. }
      destruct ph'; try done; by injection H as <-.
  - injection H as <-. simpl in Hstep. destruct (recv_all make_zeros (w_cache w)) as [c'|] eqn:E; [|done].
    injection Hstep as <-. apply recv_all_fields in E as (t & _ & ->). destruct Hw. by split.
  - injection H as <-. simpl in Hstep. injection Hstep as <-. destruct Hw. split; try done.
    simpl. unfold write_tensor. by case_if.
Qed.

(** C26: with all handlers in one event loop the cache never exceeds its capacity. *)
Theorem cache_bound_one_process max mt rqs tr w :
  0 <= max < 2 ^ 63 -> Forall (fun rq => 0 <= rq_alloc_size rq) rqs ->
  run_one_process make_zeros (fresh_world (Some max) mt rqs) tr = Some w ->
  0 <= mc_current_size (w_cache w) <= max.
Proof.
  intros Hmax Hs Hr.
  assert (Hw : within max (fresh_world (tensor := tensor) (Some max) mt rqs)).
  { split; [apply fresh_accounted|done| | |].
    - intros x (rq & -> & Hx)%list_elem_of_fmap. rewrite Forall_forall in Hs. by apply Hs.
    - by intros x (rq & -> & Hx)%list_elem_of_fmap.
    - unfold fresh_world. simpl. rewrite zsum_all_zero; [lia|]. by intros x (rq & -> & Hx)%list_elem_of_fmap. }
  assert (within max w) as Hw'.
  { clear Hs. revert Hw Hr. generalize (fresh_world (tensor := tensor) (Some max) mt rqs).
    induction tr as [|ev tr IH]; intros w0 Hw; simpl; [by intros [= <-]|].
    destruct (step_one_process make_zeros w0 ev) as [w1|] eqn:E; [|done].
    apply IH. eapply step_within; [|done|done]. lia. }
  destruct (within_current max w ltac:(lia) Hw') as [-> ?]. destruct Hw'. lia.
Qed.

Lemma run_app w tr tr' :
  run make_zeros w (tr ++ tr') = (w1 ← run make_zeros w tr; run make_zeros w1 tr').
Proof.
  revert w. induction tr as [|ev tr IH]; intros w; simpl; [done|].
  by destruct (step make_zeros w ev).
Qed.

(** A request that finds the lock free and enough memory is granted in four actions... *)
Lemma grant_run c rqs i rq :
  rqs !! i = Some (rq, Scheduled) -> mc_lock_acquire_memory c = None -> no_wait rq = false ->
  out_of_memory c rq = false ->
  exists c', run make_zeros (mkWorld c rqs) [Req i Enqueue; Req i CheckNow; Req i Acquire; Req i Decide]
      = Some (mkWorld c' (<[i := (rq, Granted)]> rqs)) /\
    mc_max_size_bytes c' = mc_max_size_bytes c /\ mc_current_size c' = mc_current_size c /\
    mc_lock_acquire_memory c' = None.
Proof.
  intros Hi Hl Hn Ho. pose proof (lookup_lt_Some _ _ _ Hi) as Hlt. eexists. split.
  - cbn [run step w_requests w_cache]. rewrite Hi. cbn [advance step w_requests w_cache].
    rewrite list_lookup_insert_eq by done. cbn [advance]. rewrite Hn. cbn [andb step w_requests w_cache].
    rewrite list_lookup_insert_eq by (by rewrite !length_insert). cbn [advance].
    change (mc_lock_acquire_memory (with_enqueued c _)) with (mc_lock_acquire_memory c). rewrite Hl.
    cbn [step w_requests w_cache].
    rewrite list_lookup_insert_eq by (by rewrite !length_insert). cbn [advance].
    change (out_of_memory _ rq) with (out_of_memory c rq). rewrite Ho.
    by rewrite !list_insert_insert_eq.
  - done.
Qed.

(** ... and charged in two. *)
Lemma charge_run c rqs i rq :
  rqs !! i = Some (rq, Granted) ->
  exists c' hs, run make_zeros (mkWorld c rqs) [Req i Settle; Req i Commit]
      = Some (mkWorld c' (<[i := (rq, Live hs)]> rqs)).
Proof.
  intros Hi. pose proof (lookup_lt_Some _ _ _ Hi) as Hlt. do 2 eexists.
  cbn [run step w_requests w_cache]. rewrite Hi. cbn [advance step w_requests w_cache].
  rewrite list_lookup_insert_eq by done. cbn [advance]. by rewrite !list_insert_insert_eq.
Qed.

(** with handlers in several processes the capacity can be exceeded: the lock is released
    before the bytes are charged, so two requests that fit only one at a time can both pass. *)
Theorem cache_overcommit_two_processes max mt s1 s2 ds timeout :
  0 < s1 <= max -> 0 < s2 <= max -> max < s1 + s2 -> s1 + s2 < 2 ^ 63 -> f_eq timeout f_zero = false ->
  exists tr w, run make_zeros (fresh_world (Some max) mt [mkRequest s1 ds timeout; mkRequest s2 ds timeout]) tr = Some w /\
    mc_current_size (w_cache w) = s1 + s2 /\ max < mc_current_size (w_cache w).
Proof.
  intros H1 H2 H12 Hb Ht. set (rq1 := mkRequest s1 ds timeout). set (rq2 := mkRequest s2 ds timeout).
  destruct (grant_run (mc_init (Some max) mt) [(rq1, Scheduled); (rq2, Scheduled)] 0 rq1)
    as (c1 & R1 & M1 & C1 & L1); [done|done|exact Ht|unfold out_of_memory; simpl; lia|].
  destruct (grant_run c1 [(rq1, Granted); (rq2, Scheduled)] 1 rq2) as (c2 & R2 & _);
    [done|done|exact Ht|unfold out_of_memory; rewrite M1, C1; simpl; lia|].
  destruct (charge_run c2 [(rq1, Granted); (rq2, Granted)] 0 rq1) as (c3 & h1 & R3); [done|].
  destruct (charge_run c3 [(rq1, Live h1); (rq2, Granted)] 1 rq2) as (c4 & h2 & R4); [done|].
  eexists (_ ++ _ ++ _ ++ _), _. split.
  - rewrite run_app. unfold fresh_world. cbn [fmap list_fmap]. rewrite R1. cbn [mbind option_bind].
    rewrite run_app. cbn [insert list_insert]. rewrite R2. cbn [mbind option_bind].
    rewrite run_app. cbn [insert list_insert]. rewrite R3. cbn [mbind option_bind].
    cbn [insert list_insert]. exact R4.
  - assert (Hacc : accounted (mkWorld c4 (<[1%nat := (rq2, Live h2)]> [(rq1, Live h1); (rq2, Granted)]))).
    { eapply (run_accounted make_zeros); [|exact R4]. eapply (run_accounted make_zeros); [|exact R3].
      eapply (run_accounted make_zeros); [|exact R2]. eapply (run_accounted make_zeros); [|exact R1].
      apply (fresh_accounted (Some max) mt [rq1; rq2]). }
    destruct Hacc as [Hc _ _]. rewrite Hc.
    cbn [w_requests w_cache insert list_insert fmap list_fmap zsum foldr live_size fst snd rq_alloc_size rq1 rq2].
    rewrite int64_small; lia.
Qed.
End guarantees.

(** ** The size of an allocation *)

Definition descr_size {TD : TorchDtypes} (d : TensorDescriptor) : Z := td_numel d * get_size_in_bytes (td_dtype d).

(** The bytes that the descriptors put on one device. *)
Definition device_size {TD : TorchDtypes} (ds : list TensorDescriptor) (dev : option Z) : Z :=
  zsum (descr_size <$> filter (fun d => td_device d = dev) ds).

Lemma sizes_by_device {TD : TorchDtypes} ds :
  dict_wf (alloc_size_by_device ds) /\
  forall dev v, dget (alloc_size_by_device ds) dev = Some v <->
    (exists d, d ∈ ds /\ td_device d = dev) /\ v = device_size ds dev.
Proof.
  induction ds as [|d ds [Hwf IH]] using rev_ind.
  { split; [apply dict_wf_nil|]. intros dev v. simpl. split; [done|]. intros [(d & Hd & _) _]. inversion Hd. }
  unfold alloc_size_by_device in *. rewrite fold_left_app. simpl. fold (descr_size d).
  set (m := fold_left _ ds []) in *. split; [by apply dict_wf_dset|]. intros dev v. rewrite dget_dset.
  assert (Hsz : device_size (ds ++ [d]) dev =
    device_size ds dev + (if decide (td_device d = dev) then descr_size d else 0)).
  { unfold device_size. rewrite filter_app, filter_cons, filter_nil, fmap_app, zsum_app.
    case_decide; simpl; unfold zsum; simpl; lia. }
  rewrite Hsz. case_decide as Hd.
  - subst dev. assert (He : or_default (dget m (td_device d)) 0 = device_size ds (td_device d)).
    { destruct (dget m (td_device d)) as [x|] eqn:E; simpl.
      - apply IH in E as [_ ->]. done.
      - symmetry. apply zsum_all_zero. intros x Hx%list_elem_of_filter.
        exfalso. destruct Hx as [Hx1 Hx2].
        assert (dget m (td_device d) = Some (device_size ds (td_device d))) by (apply IH; eauto). congruence. }
    rewrite He. split; [intros [= <-]|intros [_ ->]; done]. split; [|done].
    exists d. split; [|done]. apply elem_of_app. right. by left.
  - rewrite IH, Z.add_0_r. split; intros [(x & Hx & Hdev) ->]; (split; [|done]).
    + exists x. split; [|done]. apply elem_of_app. by left.
    + apply elem_of_app in Hx as [Hx|Hx%list_elem_of_singleton]; [eauto|]. by subst.
Qed.

Lemma fold_max_spec (l : list Z) x :
  let m := fold_left Z.max l x in m ∈ x :: l /\ forall y, y ∈ x :: l -> y <= m.
Proof.
  revert x. induction l as [|z l IH]; intros x; simpl.
  - split; [by left|]. intros y Hy%list_elem_of_singleton. lia.
  - destruct (IH (Z.max x z)) as [Hin Hle]. split.
    + apply elem_of_cons in Hin as [->|Hin]; [|by right; right].
      destruct (Z.max_spec x z) as [[_ ->]|[_ ->]]; [by right; left|by left].
    + assert (Z.max x z <= fold_left Z.max l (Z.max x z)) by (apply Hle; by left).
      intros y [->|[->|Hy]%elem_of_cons]%elem_of_cons; [lia|lia|]. apply Hle. by right.
Qed.

(** The size that an allocation is charged is the largest total over the devices. *)
Theorem get_allocation_size_spec {TD : TorchDtypes} ds :
  ds <> [] ->
  exists m, get_allocation_size ds = Ok m /\
    (exists d, d ∈ ds /\ m = device_size ds (td_device d)) /\
    forall d, d ∈ ds -> device_size ds (td_device d) <= m.
Proof.
  intros Hne. destruct (sizes_by_device ds) as [Hwf Hs]. unfold get_allocation_size.
  assert (Hval : forall v, v ∈ dvalues (alloc_size_by_device ds) <->
    exists d, d ∈ ds /\ v = device_size ds (td_device d)).
  { intros v. unfold dvalues. rewrite list_elem_of_fmap. split.
    - intros ([dev w] & -> & Hin). apply elem_dget in Hin; [|done].
      apply Hs in Hin as [(d & Hd & <-) ->]. eauto.
    - intros (d & Hd & ->). exists (td_device d, device_size ds (td_device d)). split; [done|].
      apply dget_elem, Hs. eauto. }
  destruct (dvalues (alloc_size_by_device ds)) as [|x l].
  - destruct ds as [|d ds]; [done|]. exfalso.
    assert (H : device_size (d :: ds) (td_device d) ∈ (@nil Z)) by (apply Hval; exists d; split; [left|done]).
    inversion H.
  - eexists. split; [done|]. destruct (fold_max_spec l x) as [Hin Hle]. split; [by apply Hval|].
    intros d Hd. apply Hle, Hval. eauto.
Qed.

(** ** A run of two requests in one process *)

Definition kv_descr : TensorDescriptor := mkDescr [2; 8] torch_float16 (Some 0).

Lemma get_allocation_size_spec_witness :
  exists m, get_allocation_size [kv_descr; kv_descr] = Ok m /\
    (exists d, d ∈ [kv_descr; kv_descr] /\ m = device_size [kv_descr; kv_descr] (td_device d)) /\
    forall d, d ∈ [kv_descr; kv_descr] -> device_size [kv_descr; kv_descr] (td_device d) <= m.
Proof. apply get_allocation_size_spec. discriminate. Defined.

Definition two_requests : list request :=
  [mkRequest 64 [kv_descr; kv_descr] f_one; mkRequest 64 [kv_descr; kv_descr] f_one].

(** The second request waits until the first is freed. *)
Definition alloc_free_trace : list (@event Z) :=
  [Req 0 Enqueue; Req 0 CheckNow; Req 0 Acquire; Req 0 Decide; Req 1 Enqueue; Req 1 CheckNow; Req 1 Acquire;
   Use; Req 1 Decide; Req 1 Poll; Write 0 5; Req 0 Free; Req 1 Wake; Req 1 Poll].

Definition small_cache : @world Z := fresh_world (Some 100) None two_requests.

Definition small_end : @world Z := default small_cache (run_one_process (fun _ => 0) small_cache alloc_free_trace).

Lemma cache_bound_one_process_witness :
  run_one_process (fun _ => 0) small_cache alloc_free_trace = Some small_end /\
  0 <= mc_current_size (w_cache small_end) <= 100.
Proof.
  assert (H : run_one_process (fun _ => 0) small_cache alloc_free_trace = Some small_end)
    by (vm_compute; reflexivity).
  split; [exact H|].
  apply (cache_bound_one_process (fun _ => 0) 100 None two_requests alloc_free_trace small_end);
    [lia|repeat constructor; simpl; lia|exact H].
Defined.

(** The same trace with the charges written out, up to the second allocation. *)
Definition live_trace : list (@event Z) :=
  [Req 0 Enqueue; Req 0 CheckNow; Req 0 Acquire; Req 0 Decide; Req 0 Settle; Req 0 Commit; Req 1 Enqueue;
   Req 1 CheckNow; Req 1 Acquire; Use; Req 1 Decide; Req 1 Poll; Write 0 5; Req 0 Free; Req 1 Wake; Req 1 Poll;
   Req 1 Settle; Req 1 Commit].

Definition live_end : @world Z := default small_cache (run (fun _ => 0) small_cache live_trace).

Lemma live_run : run (fun _ => 0) small_cache live_trace = Some live_end.
Proof. vm_compute. reflexivity. Qed.

Lemma cache_accounting_witness : accounted live_end /\ mc_current_size (w_cache live_end) = 64.
Proof.
  split; [|vm_compute; reflexivity].
  exact (cache_accounting (fun _ => 0) (Some 100) None two_requests live_trace live_end live_run).
Defined.

Lemma use_cache_live_witness :
  exists c' ts, use_cache (fun _ => 0) (w_cache live_end) true [2; 3] = Ok (c', ts) /\ mc_pipe c' = [] /\
    length ts = 2%nat /\ forall h, h ∈ dkeys (mc_allocated_tensors c') <-> is_live (w_requests live_end) h.
Proof.
  refine (proj1 (use_cache_live (fun _ => 0) (Some 100) None two_requests live_trace live_end [2; 3] live_run _ _)).
  - vm_compute. reflexivity.
  - intros h Hh. exists 1%nat. eexists. split; [vm_compute; reflexivity|]. exact Hh.
Defined.

Definition freed_end : @world Z := default small_cache (run (fun _ => 0) small_cache (live_trace ++ [Req 1 Free])).

Lemma cache_no_leak_witness :
  mc_current_size (w_cache freed_end) = 0 /\ mc_enqueued_size (w_cache freed_end) = 0 /\
  mc_lock_acquire_memory (w_cache freed_end) = None /\
  exists c', recv_all (fun _ => 0) (w_cache freed_end) = Ok c' /\ mc_allocated_tensors c' = [].
Proof.
  apply (cache_no_leak (fun _ => 0) (Some 100) None two_requests (live_trace ++ [Req 1 Free]) freed_end).
  - vm_compute. reflexivity.
  - vm_compute. reflexivity.
  - intros x Hx. assert (Hall : Forall (fun x => match snd x with Freed _ | Failed _ => True | _ => False end)
      (w_requests freed_end)) by (vm_compute; repeat constructor).
    rewrite Forall_forall in Hall. by apply Hall.
Defined.

Lemma cache_overcommit_two_processes_witness :
  exists tr w, run (fun _ => 0) (fresh_world (Some 100) None two_requests) tr = Some w /\
    mc_current_size (w_cache w) = 64 + 64 /\ 100 < mc_current_size (w_cache w).
Proof.
  apply (cache_overcommit_two_processes (fun _ => 0) 100 None 64 64 [kv_descr; kv_descr] f_one);
    [lia|lia|lia|lia|reflexivity].
Defined.
