(* ===== verification/Backend.v ===== *)
(** * Backend: [server/backend.py]

    A served transformer block: an inference step on the attention caches of a session, in chunks,
    and the step that runs several blocks in one call.  Tensors are kept time-major: hidden states
    are a list with one column (batch and hidden size) per token, an attention cache is a list with
    one slot (batch, heads and head size) per position; merging and splitting the batch and head
    dimensions ([flatten], [view]) does not show in this layout. *)

From S2P Require Import Prelude PyString PyFloat PyDict DataStructures Utils MemoryCache.

(** ** The wrapped module

    [self.module.forward(chunk, layer_past=..., use_cache=True)] of block [b.1] inside [using_adapter(b.2)]:
    the outputs of the chunk, and the past extended by the keys and values of the chunk.  Attention is
    causal, so a chunk can be processed in two parts. *)
Class CausalModule := {
  col : Type;
  slot : Type;
  index_rows : list Z -> slot -> option slot;         (* cache[hypo_ids] for one position *)
  make_zeros : TensorDescriptor -> list slot;         (* descr.make_zeros() *)
  add_col : col -> col -> col;                        (* elementwise sum *)
  mod_forward : Z * option string -> list (list slot) -> list col -> list col * list (list slot);
  mod_shape : forall b past x,
    length (mod_forward b past x).1 = length x /\
    Forall2 (fun p k => exists n, k = p ++ n /\ length n = length x) past (mod_forward b past x).2;
  mod_chunk : forall b past x y,
    mod_forward b past (x ++ y) =
      (let '(ox, kx) := mod_forward b past x in
       let '(oy, ky) := mod_forward b kx y in (ox ++ oy, ky));
}.

(** [InferenceMetadata] *)
Record InferenceMetadata := mkInferenceInfo {
  im_uid : string;
  im_prefix_length : Z;
  im_cache_handles : list Handle;
  im_active_adapter : option string;
}.

(** The fields of the model's configuration that the backend reads. *)
Record PretrainedConfig := mkPretrained {
  hidden_size : Z;
  num_attention_heads : Z;
  num_key_value_groups : Z;
  num_key_value_heads : option Z;      (* hasattr(config, "num_key_value_heads") *)
}.

Record TransformerBackend := mkBackend {
  tb_name : string;
  tb_index : Z;
  tb_config : PretrainedConfig;
  tb_dtype : dtype;
  tb_max_chunk_size_bytes : Z;
  tb_devices : list Z;
  tb_shard_num_heads : list Z;
  tb_max_batch_size : Z;               (* of the block's task pools *)
}.

(** [//], which raises on a zero divisor. *)
Definition zdiv (a b : Z) : result Z := if b =? 0 then Err ZeroDivisionError else Ok (a / b).

(** [max(l)] *)
Definition py_max (l : list Z) : result Z :=
  match l with [] => Err ValueError | x :: l' => Ok (fold_left Z.max l' x) end.

Section backend.
Context {TD : TorchDtypes} {CM : CausalModule}.

Definition tb_dtype_bytes (b : TransformerBackend) : Z := get_size_in_bytes (tb_dtype b).

(** The assertions at the end of the constructor. *)
Definition tb_check (b : TransformerBackend) : result unit :=
  _ ← assert_ (zlen (tb_shard_num_heads b) =? zlen (tb_devices b));
  assert_ (zsum (tb_shard_num_heads b) =? num_attention_heads (tb_config b)).

(** ** Cache descriptors *)

Definition shard_descriptors (b : TransformerBackend) (batch_size max_length head_dim : Z) (dn : Z * Z)
    : result (list TensorDescriptor) :=
  let '(device, num_heads) := dn in
  heads ← zdiv num_heads (num_key_value_groups (tb_config b));
  let num_heads := or_default (num_key_value_heads (tb_config b)) heads in
  Ok [mkDescr [batch_size; num_heads; head_dim; max_length] (tb_dtype b) (Some device);
      mkDescr [batch_size; num_heads; max_length; head_dim] (tb_dtype b) (Some device)].

Definition get_inference_cache_descriptors (b : TransformerBackend) (batch_size max_length : Z)
    : result (list TensorDescriptor) :=
  head_dim ← zdiv (hidden_size (tb_config b)) (num_attention_heads (tb_config b));
  ds ← mapR (shard_descriptors b batch_size max_length head_dim) (zip (tb_devices b) (tb_shard_num_heads b));
  mret (concat ds).

(** [cache_bytes_per_token], by device. *)
Definition cache_bytes_per_token (b : TransformerBackend) : result (list (option Z * Z)) :=
  ds ← get_inference_cache_descriptors b 1 1;
  mret (alloc_size_by_device ds).

(** ** One inference step *)

Abbreviation cache_t := (list slot).
Abbreviation cache := (@MemoryCache (list slot)).

Definition _estimate_max_chunk_length (b : TransformerBackend) (batch_size seq_length : Z) (info : InferenceMetadata)
    : result Z :=
  let worst_case_length := im_prefix_length info + seq_length in
  heads ← py_max (tb_shard_num_heads b);
  let attn_bytes_per_token := heads * batch_size * tb_dtype_bytes b * worst_case_length in
  chunk ← zdiv (tb_max_chunk_size_bytes b) attn_bytes_per_token;
  mret (Z.max 1 chunk).

(** [is_dummy(hypo_ids)] leaves the caches alone; otherwise the rows are taken from [hypo_ids]. *)
Definition _reorder_cache_inplace (cache_tensors : list cache_t) (hypo_ids : list Z) : result (list cache_t) :=
  match hypo_ids with
  | [] => Ok cache_tensors
  | _ => mapR (mapR (fun s => get_or IndexError (index_rows hypo_ids s))) cache_tensors
  end.

Definition _select_layer_past (cache_tensors : list cache_t) (prefix_length : Z) : list cache_t :=
  (fun t => zslice t 0 prefix_length) <$> cache_tensors.

(** [cache[..., prefix_length:new_length] = new[..., prefix_length:new_length]]: a slice that does not
    fit raises. *)
Definition write_slots (prefix_length new_length : Z) (ct new : cache_t) : result cache_t :=
  let values := zslice new prefix_length new_length in
  if zlen (zslice ct prefix_length new_length) =? zlen values
  then Ok (zslice ct 0 prefix_length ++ values ++ zslice ct (prefix_length + zlen values) (zlen ct))
  else Err RuntimeError.

Fixpoint update_tensors (prefix_length new_length : Z) (cts news : list cache_t) : result (list cache_t) :=
  match cts, news with
  | ct :: cts', new :: news' =>
      ct' ← write_slots prefix_length new_length ct new;
      rest ← update_tensors prefix_length new_length cts' news';
      Ok (ct' :: rest)
  | cts, _ => Ok cts
  end.

Definition _update_cache_inplace (cache_tensors new_kvs : list cache_t) (prefix_length : Z) : result (list cache_t) :=
  match new_kvs with
  | [] => Err IndexError
  | k :: _ => update_tensors prefix_length (zlen k) cache_tensors new_kvs
  end.

(** [output_hidden_states[:, offset : offset + n] = chunk] *)
Definition write_chunk (buffer : list col) (offset : Z) (chunk : list col) : list col :=
  zslice buffer 0 offset ++ chunk ++ zslice buffer (offset + zlen chunk) (zlen buffer).

(** [range(0, seq_len, step)] *)
Definition offsets (seq_len step : Z) : list Z :=
  (fun k => k * step) <$> zrange 0 ((seq_len + step - 1) / step).

(** The body of the chunk loop: the buffer (if there is one), the last chunk's outputs, the past. *)
Definition chunk_step (b : TransformerBackend) (active_adapter : option string) (hidden_states : list col) (max_chunk_length : Z)
    (st : list col * list cache_t) (offset : Z) : list col * list cache_t :=
  let '(output, layer_past) := st in
  let chunk := zslice hidden_states offset (offset + max_chunk_length) in
  let '(out, new_kvs) := mod_forward (tb_index b, active_adapter) layer_past chunk in
  (if max_chunk_length <? zlen hidden_states then write_chunk output offset out else out, new_kvs).

(** [inference_step] once the caches are at hand, inside [using_adapter]; [garbage] is the content of [torch.empty_like]. *)
Definition step_on_caches (b : TransformerBackend) (garbage : list col) (batch_size : Z) (hidden_states : list col)
    (hypo_ids : list Z) (info : InferenceMetadata) (cache_tensors : list cache_t)
    : result (list col * list cache_t) :=
  let seq_len := zlen hidden_states in
  cts ← _reorder_cache_inplace cache_tensors hypo_ids;
  max_chunk_length ← _estimate_max_chunk_length b batch_size seq_len info;
  let layer_past := _select_layer_past cts (im_prefix_length info) in
  if seq_len =? 0 then Err NameError
  else
    let '(output, new_kvs) :=
      fold_left (chunk_step b (im_active_adapter info) hidden_states max_chunk_length) (offsets seq_len max_chunk_length) (garbage, layer_past) in
    cts' ← _update_cache_inplace cts new_kvs (im_prefix_length info);
    mret (output, cts').

(** [inference_step]: the tensors that [use_cache] lends are changed in place. *)
Definition inference_step (b : TransformerBackend) (garbage : list col) (c : cache) (batch_size : Z)
    (hidden_states : list col) (hypo_ids : list Z) (info : InferenceMetadata) : result (cache * list col) :=
  '(c1, cache_tensors) ← use_cache make_zeros c true (im_cache_handles info);
  '(output, cts) ← step_on_caches b garbage batch_size hidden_states hypo_ids info cache_tensors;
  mret (write_tensors c1 (im_cache_handles info) cts, output).

(** ** _MergedInferenceStep *)

(** [hidden_states[:, : prompt.shape[1]] += prompt]: a prompt longer than the sequence does not fit. *)
Definition add_prompt (hidden_states prompt : list col) : result (list col) :=
  if zlen prompt <=? zlen hidden_states
  then Ok (zip_with add_col hidden_states prompt ++ drop (length prompt) hidden_states)
  else Err RuntimeError.

Definition add_optional (hidden_states : list col) (p : option (list col)) : result (list col) :=
  match p with Some p => add_prompt hidden_states p | None => Ok hidden_states end.

Definition find_backend (backends : list (string * TransformerBackend)) (uid : string) : result TransformerBackend :=
  get_or KeyError (dget backends uid).

Definition merged_block (backends : list (string * TransformerBackend)) (garbage : nat -> list col) (batch_size : Z)
    (hypo_ids : list Z) (st : cache * list col) (ip : InferenceMetadata * option (list col)) : result (cache * list col) :=
  h ← add_optional st.2 ip.2;
  b ← find_backend backends (im_uid ip.1);
  inference_step b (garbage (length h)) st.1 batch_size h hypo_ids ip.1.

Definition merged_inference_step (backends : list (string * TransformerBackend)) (garbage : nat -> list col) (c : cache)
    (batch_size : Z) (hidden_states : list col) (hypo_ids : list Z) (inference_infos : list InferenceMetadata)
    (optional_prompts : list (option (list col))) : result (cache * list col) :=
  _ ← assert_ (zlen inference_infos =? zlen optional_prompts);
  foldR (merged_block backends garbage batch_size hypo_ids) (c, hidden_states) (zip inference_infos optional_prompts).
End backend.

(** ** The chunk loop *)

Section chunks.
Context {TD : TorchDtypes} {CM : CausalModule}.
Implicit Types (hs out : list col) (past kvs : list (list slot)).

Lemma mod_forward_nil b past : mod_forward b past [] = ([], past).
Proof.
  destruct (mod_forward b past []) as [out kvs] eqn:E.
  destruct (mod_shape b past []) as [Hl Hk]. rewrite E in Hl, Hk. simpl in *.
  destruct out; [|done]. f_equal. clear E Hl. induction Hk as [|p k ps ks [n [-> Hn]] _ IH]; [done|].
  destruct n; [|done]. rewrite app_nil_r. by f_equal.
Qed.

Lemma mod_forward_length b past hs : length (mod_forward b past hs).1 = length hs.
Proof. apply (mod_shape b past hs). Qed.

(** Writing a chunk after what has been written so far. *)
Lemma write_chunk_app (done_ rest chunk : list col) :
  (length chunk <= length rest)%nat ->
  write_chunk (done_ ++ rest) (zlen done_) chunk = (done_ ++ chunk) ++ drop (length chunk) rest.
Proof.
  intros H. unfold write_chunk. pose proof (zlen_nonneg done_). pose proof (zlen_nonneg chunk).
  rewrite zslice_take, zslice_drop by (rewrite ?zlen_app; lia).
  rewrite take_app_length' by (unfold zlen; lia). rewrite <- app_assoc. do 2 f_equal.
  rewrite drop_app_ge by (unfold zlen; lia). f_equal. unfold zlen. lia.
Qed.

(** After [k] chunks the outputs and the past are those of the first [k * m] tokens. *)
Lemma chunk_loop b adapter garbage hs m past (k : nat) :
  0 < m -> m < zlen hs -> length garbage = length hs -> (Z.of_nat k - 1) * m < zlen hs ->
  let n := Z.to_nat (Z.of_nat k * m) in
  fold_left (chunk_step b adapter hs m) ((fun k => k * m) <$> zrange 0 (Z.of_nat k)) (garbage, past) =
    ((mod_forward (tb_index b, adapter) past (take n hs)).1 ++ drop n garbage,
     (mod_forward (tb_index b, adapter) past (take n hs)).2).
Proof.
  intros Hm Hmn Hg. induction k as [|k IH]; intros Hk; simpl.
  { by rewrite take_0, mod_forward_nil, drop_0. }
  rewrite Nat2Z.inj_succ, <- Z.add_1_r, zrange_snoc, fmap_app, fold_left_app by lia.
  rewrite IH by nia. cbn [fmap list_fmap fold_left]. unfold chunk_step at 1.
  set (n := Z.to_nat (Z.of_nat k * m)).
  assert (Hn : (n < length hs)%nat) by (unfold n, zlen in *; lia).
  rewrite zslice_nonneg by nia. replace (Z.of_nat k * m + m - Z.of_nat k * m) with m by lia. fold n.
  replace (Z.to_nat ((Z.of_nat k + 1) * m)) with (n + Z.to_nat m)%nat by (unfold n; lia).
  rewrite <- take_take_drop, mod_chunk.
  destruct (mod_forward (tb_index b, adapter) past (take n hs)) as [ox kx] eqn:Ex. simpl.
  destruct (mod_forward (tb_index b, adapter) kx (take (Z.to_nat m) (drop n hs))) as [oy ky] eqn:Ey. simpl.
  rewrite (proj2 (Z.ltb_lt _ _)) by done.
  assert (Hlx : length ox = n).
  { pose proof (mod_forward_length (tb_index b, adapter) past (take n hs)) as H. rewrite Ex in H. simpl in H.
    rewrite H, length_take. lia. }
  assert (Hly : length oy = Nat.min (Z.to_nat m) (length hs - n)).
  { pose proof (mod_forward_length (tb_index b, adapter) kx (take (Z.to_nat m) (drop n hs))) as H. rewrite Ey in H. simpl in H.
    by rewrite H, length_take, length_drop. }
  replace (Z.of_nat k * m) with (zlen ox) by (unfold zlen, n in *; lia).
  rewrite write_chunk_app by (rewrite length_drop; lia). f_equal. f_equal.
  rewrite drop_drop. destruct (decide (length hs <= n + Z.to_nat m)%nat).
  - rewrite !drop_ge; [done| |]; lia.
  - f_equal. lia.
Qed.

(** The chunks cover the sequence: the loop computes what one call on all of it computes. *)
Lemma chunked_forward b adapter garbage hs m past :
  0 < m -> hs <> [] -> length garbage = length hs ->
  fold_left (chunk_step b adapter hs m) (offsets (zlen hs) m) (garbage, past) = mod_forward (tb_index b, adapter) past hs.
Proof.
  intros Hm Hne Hg. assert (Hpos : 0 < zlen hs) by (destruct hs; [done|unfold zlen; simpl; lia]).
  unfold offsets. destruct (Z.ltb_spec m (zlen hs)) as [Hlt|Hge].
  - pose proof (Z.mul_div_le (zlen hs + m - 1) m Hm) as H1.
    pose proof (Z.mul_succ_div_gt (zlen hs + m - 1) m Hm) as H2.
    set (K := (zlen hs + m - 1) / m) in *. assert (0 <= K) by (apply Z.div_pos; lia).
    rewrite <- (Z2Nat.id K) by done. rewrite chunk_loop by (rewrite ?Z2Nat.id by done; nia || done).
    rewrite Z2Nat.id by done. rewrite take_ge, drop_ge by (unfold zlen in *; nia).
    rewrite app_nil_r. by destruct (mod_forward (tb_index b, adapter) past hs).
  - replace ((zlen hs + m - 1) / m) with 1 by (apply Z.div_unique with (zlen hs - 1); lia).
    change (zrange 0 1) with [0]. cbn [fmap list_fmap fold_left]. unfold chunk_step.
    rewrite Z.mul_0_l, Z.add_0_l, zslice_take, take_ge by (unfold zlen in *; lia).
    destruct (mod_forward (tb_index b, adapter) past hs). by rewrite (proj2 (Z.ltb_ge _ _)) by done.
Qed.
End chunks.

(** ** The step on the caches *)

Section steps.
Context {TD : TorchDtypes} {CM : CausalModule}.
Implicit Types (hs out : list col) (cts kvs : list (list slot)).

(** A cache after a step: what the module returned, then the slots past it. *)
Definition overlay (k ct : list slot) : list slot := k ++ drop (length k) ct.

Lemma write_slots_overlay p n (ct past_k new : list slot) :
  0 <= p -> past_k = take (Z.to_nat p) ct -> zlen new = n -> p + n <= zlen ct ->
  write_slots p (p + n) ct (past_k ++ new) = Ok (overlay (past_k ++ new) ct).
Proof.
  intros Hp -> Hn Hc. pose proof (zlen_nonneg new). unfold write_slots, overlay.
  assert (Hpl : length (take (Z.to_nat p) ct) = Z.to_nat p) by (rewrite length_take; unfold zlen in *; lia).
  rewrite !zslice_nonneg by lia. rewrite drop_app_length' by done.
  replace (p + n - p) with n by lia. rewrite (take_ge new) by (unfold zlen in *; lia).
  assert (zlen (take (Z.to_nat n) (drop (Z.to_nat p) ct)) = zlen new) as ->.
  { unfold zlen in *. rewrite length_take, length_drop. lia. }
  rewrite Z.eqb_refl, Z.sub_0_r, drop_0. f_equal. rewrite <- app_assoc. do 2 f_equal.
  rewrite zslice_drop by lia.
  f_equal. rewrite length_app, Hpl. unfold zlen in *. lia.
Qed.

Lemma update_tensors_overlay p n cts past kvs :
  0 <= p -> past = take (Z.to_nat p) <$> cts ->
  Forall2 (fun q k => exists new, k = q ++ new /\ zlen new = n) past kvs ->
  Forall (fun ct => p + n <= zlen ct) cts ->
  update_tensors p (p + n) cts kvs = Ok (zip_with overlay kvs cts).
Proof.
  intros Hp -> Hk Hc. revert kvs Hk. induction Hc as [|ct cts Hct _ IH]; intros kvs Hk.
  { by inversion Hk. }
  rewrite fmap_cons in Hk. inversion Hk as [|? k ? ks (new & -> & Hn) Hks]; subst. simpl.
  rewrite write_slots_overlay by done. by rewrite IH.
Qed.

Lemma select_take cts p : 0 <= p -> _select_layer_past cts p = take (Z.to_nat p) <$> cts.
Proof. intros. unfold _select_layer_past. apply list_fmap_ext. intros. by apply zslice_take. Qed.

(** What a step must do: the outputs are the module's, and each cache is overlaid with the module's
    keys and values; neither the chunk size nor the content of the output buffer matters. *)
Lemma step_on_caches_spec b garbage batch hs hypo (info : InferenceMetadata) cts cts1 m :
  _reorder_cache_inplace cts hypo = Ok cts1 ->
  _estimate_max_chunk_length b batch (zlen hs) info = Ok m ->
  0 <= im_prefix_length info -> hs <> [] -> cts <> [] -> length garbage = length hs ->
  Forall (fun ct => im_prefix_length info + zlen hs <= zlen ct) cts1 ->
  step_on_caches b garbage batch hs hypo info cts =
    (let '(out, kvs) := mod_forward (tb_index b, im_active_adapter info) (take (Z.to_nat (im_prefix_length info)) <$> cts1) hs in
     Ok (out, zip_with overlay kvs cts1)).
Proof.
  intros Hr Hm Hp Hne Hc Hg Hfit. unfold step_on_caches. rewrite Hr, Hm. unfold mbind, result_bind.
  rewrite (proj2 (Z.eqb_neq _ _)) by (destruct hs; [done|unfold zlen; simpl; lia]).
  assert (Hm0 : 0 < m) by (unfold _estimate_max_chunk_length, mret, result_ret in Hm; inv_ok; lia).
  rewrite chunked_forward by done. rewrite select_take by done.
  set (past := take (Z.to_nat (im_prefix_length info)) <$> cts1).
  pose proof (mod_shape (tb_index b, im_active_adapter info) past hs) as [Hl Hk].
  destruct (mod_forward (tb_index b, im_active_adapter info) past hs) as [out kvs]. simpl in Hl, Hk.
  assert (Hlen : Forall (fun k => zlen k = im_prefix_length info + zlen hs) kvs).
  { apply Forall_forall. intros k Hin. apply list_elem_of_lookup in Hin as [i Hi].
    destruct (Forall2_lookup_r _ _ _ _ _ Hk Hi) as (q & Hq & new & -> & Hn).
    unfold past in Hq. rewrite list_lookup_fmap in Hq. destruct (cts1 !! i) as [ct|] eqn:Hct; [|done].
    injection Hq as <-. rewrite Forall_forall in Hfit.
    pose proof (Hfit ct (list_elem_of_lookup_2 _ _ _ Hct)). rewrite zlen_app. unfold zlen in *.
    rewrite length_take. lia. }
  unfold _update_cache_inplace. destruct kvs as [|k kvs].
  { destruct cts1 as [|ct1 cts1]; [|by inversion Hk].
    destruct hypo; simpl in Hr; inv_ok; [done|]. by apply mapR_length in Hr; destruct cts. }
  inversion Hlen as [|? ? Hkl _]; subst. rewrite Hkl.
  erewrite update_tensors_overlay; [done|done|reflexivity| |done].
  eapply Forall2_impl; [exact Hk|]. intros q k' (new & -> & Hn). exists new. unfold zlen. by rewrite Hn.
Qed.
End steps.

(** ** Sessions of one block *)

Section sessions.
Context {TD : TorchDtypes} {CM : CausalModule}.
Implicit Types (hs out : list col) (cts kvs : list (list slot)).

Lemma overlay_prefix k ct : take (length k) (overlay k ct) = k.
Proof. unfold overlay. by rewrite take_app_length. Qed.

Lemma overlay_overlay (k n ct : list slot) : overlay (k ++ n) (overlay k ct) = overlay (k ++ n) ct.
Proof.
  unfold overlay. rewrite <- !app_assoc. do 2 f_equal. rewrite length_app.
  rewrite drop_app_ge by lia. rewrite drop_drop. f_equal. lia.
Qed.

Lemma overlay_length k ct : (length k <= length ct)%nat -> length (overlay k ct) = length ct.
Proof. intros. unfold overlay. rewrite length_app, length_drop. lia. Qed.

(** The caches of a block after it has processed [x] on top of the first [p] positions. *)
Definition processed (b : Z * option string) (cts : list (list slot)) (p : nat) (x : list col) : list (list slot) :=
  zip_with overlay (mod_forward b (take p <$> cts) x).2 cts.

Lemma mod_forward_lengths b cts p x :
  Forall (fun ct => (p + length x <= length ct)%nat) cts ->
  Forall2 (fun k ct => length k = (p + length x)%nat /\ (length k <= length ct)%nat)
    (mod_forward b (take p <$> cts) x).2 cts.
Proof.
  intros Hc. destruct (mod_shape b (take p <$> cts) x) as [_ Hk]. revert Hk.
  generalize (mod_forward b (take p <$> cts) x).2 as kvs. induction Hc as [|ct cts Hct _ IH]; intros kvs Hk.
  - by inversion Hk.
  - rewrite fmap_cons in Hk. inversion Hk as [|? k ? ks (new & -> & Hn) Hks]; subst.
    constructor; [|by apply IH]. rewrite length_app, length_take. lia.
Qed.

(** After a step, the first positions of the caches are what the module returned. *)
Lemma processed_past b cts p x :
  Forall (fun ct => (p + length x <= length ct)%nat) cts ->
  take (p + length x) <$> processed b cts p x = (mod_forward b (take p <$> cts) x).2.
Proof.
  intros Hc. unfold processed. pose proof (mod_forward_lengths b cts p x Hc) as H. clear Hc. revert H.
  generalize (mod_forward b (take p <$> cts) x).2 as kvs. induction 1 as [|k ct ks cts [Hk _] _ IH]; [done|].
  cbn [zip_with]. rewrite fmap_cons, IH. by rewrite <- Hk, overlay_prefix.
Qed.

Lemma processed_Forall b cts p x n :
  (p + length x <= n)%nat -> Forall (fun ct => (n <= length ct)%nat) cts ->
  Forall (fun ct => (n <= length ct)%nat) (processed b cts p x).
Proof.
  intros Hn Hc. unfold processed.
  assert (Hc' : Forall (fun ct => (p + length x <= length ct)%nat) cts) by (eapply Forall_impl; [exact Hc|simpl; lia]).
  pose proof (mod_forward_lengths b cts p x Hc') as H. clear Hc'. revert Hc H.
  generalize (mod_forward b (take p <$> cts) x).2 as kvs. intros kvs Hc H.
  induction H as [|k ct ks cts' [_ Hk] _ IH]; simpl; [constructor|]. apply Forall_cons in Hc as [Hct Hc].
  constructor; [by rewrite overlay_length|by apply IH].
Qed.

(** Processing [x] and then [y] leaves the caches that processing [x ++ y] leaves. *)
Lemma processed_app b cts p x y :
  Forall (fun ct => (p + length x + length y <= length ct)%nat) cts ->
  processed b (processed b cts p x) (p + length x) y = processed b cts p (x ++ y).
Proof.
  intros Hc. assert (Hc' : Forall (fun ct => (p + length x <= length ct)%nat) cts) by (eapply Forall_impl; [exact Hc|simpl; lia]).
  unfold processed at 1. rewrite processed_past by done.
  unfold processed. rewrite mod_chunk.
  destruct (mod_forward b (take p <$> cts) x) as [ox kx] eqn:Ex. simpl.
  destruct (mod_shape b kx y) as [_ Hy]. destruct (mod_forward b kx y) as [oy ky]. simpl in *.
  clear Ex Hc Hc'. revert cts. induction Hy as [|k k' ks ks' (new & -> & _) _ IH]; intros [|ct cts]; simpl; try done.
  by rewrite overlay_overlay, IH.
Qed.
(** Every device has attention heads. *)
Record backend_ok (b : TransformerBackend) : Prop := {
  bo_heads : tb_shard_num_heads b <> [];
  bo_positive : Forall (fun n => 0 < n) (tb_shard_num_heads b);
}.

Lemma fold_max_ge l x : x <= fold_left Z.max l x.
Proof. revert x. induction l as [|y l IH]; intros x; simpl; [lia|]. specialize (IH (Z.max x y)). lia. Qed.

Lemma estimate_ok b batch n (info : InferenceMetadata) :
  backend_ok b -> 0 < batch -> 0 < im_prefix_length info + n ->
  exists m, _estimate_max_chunk_length b batch n info = Ok m.
Proof.
  intros [Hne Hpos] Hb Hn. assert (Hbytes : 0 < tb_dtype_bytes b) by (pose proof (get_size_in_bytes_pos (tb_dtype b)); unfold tb_dtype_bytes; lia). unfold _estimate_max_chunk_length.
  destruct (tb_shard_num_heads b) as [|h hs] eqn:E; [done|]. simpl. unfold mbind, result_bind, zdiv.
  apply Forall_cons in Hpos as [Hh _]. pose proof (fold_max_ge hs h).
  rewrite (proj2 (Z.eqb_neq _ _)); [by eexists|].
  assert (0 < fold_left Z.max hs h * batch * tb_dtype_bytes b * (im_prefix_length info + n)); [|lia].
  repeat apply Z.mul_pos_pos; lia.
Qed.

(** The step on tensors [cts1], already reordered. *)
Lemma step_on_caches_processed b garbage batch x hypo (info : InferenceMetadata) cts cts1 :
  backend_ok b -> 0 < batch -> 0 <= im_prefix_length info -> x <> [] -> cts <> [] -> length garbage = length x ->
  _reorder_cache_inplace cts hypo = Ok cts1 ->
  Forall (fun ct => (Z.to_nat (im_prefix_length info) + length x <= length ct)%nat) cts1 ->
  let p := Z.to_nat (im_prefix_length info) in
  step_on_caches b garbage batch x hypo info cts =
    Ok ((mod_forward (tb_index b, im_active_adapter info) (take p <$> cts1) x).1, processed (tb_index b, im_active_adapter info) cts1 p x).
Proof.
  intros Hok Hb Hp Hx Hc Hg Hr Hfit p.
  destruct (estimate_ok b batch (zlen x) info) as [m Hm]; [done|done|destruct x; [done|unfold zlen; simpl; lia]|].
  erewrite step_on_caches_spec; try done.
  - unfold processed. fold p. by destruct (mod_forward (tb_index b, im_active_adapter info) (take p <$> cts1) x).
  - eapply Forall_impl; [exact Hfit|]. unfold zlen. simpl. lia.
Qed.

(** What a step needs and does, in terms of the tensors behind the handles. *)
Lemma inference_step_run b garbage (c c1 : @MemoryCache (list slot)) batch x hypo (info : InferenceMetadata) cts cts1 :
  backend_ok b -> 0 < batch -> 0 <= im_prefix_length info -> x <> [] -> cts <> [] -> length garbage = length x ->
  recv_all make_zeros c = Ok c1 -> lookup_handles c1 (im_cache_handles info) = Ok cts ->
  _reorder_cache_inplace cts hypo = Ok cts1 ->
  Forall (fun ct => (Z.to_nat (im_prefix_length info) + length x <= length ct)%nat) cts1 ->
  let p := Z.to_nat (im_prefix_length info) in
  inference_step b garbage c batch x hypo info =
    Ok (write_tensors c1 (im_cache_handles info) (processed (tb_index b, im_active_adapter info) cts1 p x),
        (mod_forward (tb_index b, im_active_adapter info) (take p <$> cts1) x).1).
Proof.
  intros Hok Hb Hp Hx Hc Hg Hrecv Hl Hr Hfit p. unfold inference_step.
  rewrite (use_cache_recv _ _ _ _ Hrecv), Hl. unfold mbind, result_bind.
  by rewrite (step_on_caches_processed _ _ _ _ _ _ _ cts1).
Qed.

Lemma reorder_length cts hypo cts1 : _reorder_cache_inplace cts hypo = Ok cts1 -> length cts1 = length cts.
Proof. destruct hypo; simpl; intros H; [by inv_ok|]. by apply mapR_length in H. Qed.

Lemma processed_length b cts p x :
  Forall (fun ct => (p + length x <= length ct)%nat) cts -> length (processed b cts p x) = length cts.
Proof.
  intros Hc. apply mod_forward_lengths with (b := b) in Hc. apply Forall2_length in Hc.
  unfold processed. rewrite length_zip_with. lia.
Qed.

(** A step returns what the block computes on the new tokens after the cached prefix, and leaves the
    cached tensors extended by the new keys and values: the chunking of long inputs and the content of the
    uninitialised output buffer do not show. *)
Theorem inference_step_correct b garbage (c c1 : @MemoryCache (list slot)) batch x hypo (info : InferenceMetadata) cts cts1 :
  backend_ok b -> 0 < batch -> 0 <= im_prefix_length info -> x <> [] -> cts <> [] -> length garbage = length x ->
  NoDup (im_cache_handles info) ->
  use_cache make_zeros c true (im_cache_handles info) = Ok (c1, cts) ->
  _reorder_cache_inplace cts hypo = Ok cts1 ->
  Forall (fun ct => (Z.to_nat (im_prefix_length info) + length x <= length ct)%nat) cts1 ->
  exists c2,
    inference_step b garbage c batch x hypo info =
      Ok (c2, (mod_forward (tb_index b, im_active_adapter info) (_select_layer_past cts1 (im_prefix_length info)) x).1) /\
    use_cache make_zeros c2 true (im_cache_handles info) =
      Ok (c2, zip_with (fun kv ct => kv ++ drop (length kv) ct)
                (mod_forward (tb_index b, im_active_adapter info) (_select_layer_past cts1 (im_prefix_length info)) x).2 cts1).
Proof.
  intros Hok Hb Hp Hx Hc Hg Hnd Huse Hr Hfit. apply use_cache_settles in Huse as (Hrecv & Hpipe & Hl).
  rewrite (inference_step_run _ _ _ _ _ _ _ _ _ _ Hok Hb Hp Hx Hc Hg Hrecv Hl Hr Hfit).
  rewrite select_take by done. eexists. split; [reflexivity|].
  rewrite use_cache_empty by (by rewrite write_tensors_pipe).
  rewrite (lookup_handles_write _ _ cts) by (rewrite ?processed_length, ?(reorder_length _ _ _ Hr); done).
  done.
Qed.

(** Decoding in two steps (the second after a prefix that includes the first) gives the outputs and the
    cache that one step on all tokens gives. *)
Theorem inference_steps_compose b g1 g2 g3 (c c1 : @MemoryCache (list slot)) batch x y uid p handles adapter cts :
  backend_ok b -> 0 < batch -> 0 <= p -> x <> [] -> y <> [] -> cts <> [] -> NoDup handles ->
  length g1 = length x -> length g2 = length y -> length g3 = length (x ++ y) ->
  use_cache make_zeros c true handles = Ok (c1, cts) ->
  Forall (fun ct => (Z.to_nat p + length (x ++ y) <= length ct)%nat) cts ->
  exists cx cy cxy ox oy,
    inference_step b g1 c batch x [] (mkInferenceInfo uid p handles adapter) = Ok (cx, ox) /\
    inference_step b g2 cx batch y [] (mkInferenceInfo uid (p + zlen x) handles adapter) = Ok (cy, oy) /\
    inference_step b g3 c batch (x ++ y) [] (mkInferenceInfo uid p handles adapter) = Ok (cxy, ox ++ oy) /\
    lookup_handles cy handles = lookup_handles cxy handles.
Proof.
  intros Hok Hb Hp Hx Hy Hc Hnd Hg1 Hg2 Hg3 Huse Hfit. apply use_cache_settles in Huse as (Hrecv & Hpipe & Hl).
  rewrite length_app in Hfit.
  assert (Hfx : Forall (fun ct => (Z.to_nat p + length x <= length ct)%nat) cts) by (eapply Forall_impl; [exact Hfit|simpl; lia]).
  assert (Hpx : Z.to_nat (p + zlen x) = (Z.to_nat p + length x)%nat) by (unfold zlen; lia).
  assert (Hlx : lookup_handles (write_tensors c1 handles (processed (tb_index b, adapter) cts (Z.to_nat p) x)) handles
                = Ok (processed (tb_index b, adapter) cts (Z.to_nat p) x)).
  { by apply (lookup_handles_write _ _ cts); [| |apply processed_length]. }
  assert (Hlen : length (processed (tb_index b, adapter) cts (Z.to_nat p) x) = length cts) by (by apply processed_length).
  do 5 eexists. split; [|split; [|split]].
  - by apply (inference_step_run b g1 c c1 batch x [] (mkInferenceInfo uid p handles adapter) cts cts).
  - eapply (inference_step_run b g2 _ _ batch y [] (mkInferenceInfo uid (p + zlen x) handles adapter));
      [done|done|simpl; pose proof (zlen_nonneg x); lia|done| |done| |exact Hlx|reflexivity|].
    + destruct cts; [done|]. by destruct (processed _ _ _ _).
    + apply recv_all_empty. by rewrite write_tensors_pipe.
    + simpl. rewrite Hpx. apply processed_Forall; [lia|]. eapply Forall_impl; [exact Hfit|simpl; lia].
  - cbn [im_prefix_length]. rewrite Hpx. rewrite processed_past by done.
    rewrite (inference_step_run b g3 c c1 batch (x ++ y) [] (mkInferenceInfo uid p handles adapter) cts cts);
      try done; simpl; [|by destruct x|by rewrite length_app].
    f_equal. f_equal. rewrite mod_chunk. destruct (mod_forward (tb_index b, adapter) (take (Z.to_nat p) <$> cts) x) as [ox kx].
    simpl. by destruct (mod_forward (tb_index b, adapter) kx y).
  - cbn [im_prefix_length im_cache_handles]. rewrite Hpx. rewrite processed_app by (eapply Forall_impl; [exact Hfit|simpl; lia]).
    assert (Hxy : length (processed (tb_index b, adapter) cts (Z.to_nat p) (x ++ y)) = length cts).
    { apply processed_length. eapply Forall_impl; [exact Hfit|]. simpl. rewrite length_app. lia. }
    transitivity (Ok (processed (tb_index b, adapter) cts (Z.to_nat p) (x ++ y))).
    + apply (lookup_handles_write _ _ (processed (tb_index b, adapter) cts (Z.to_nat p) x)); [done|exact Hlx|by rewrite Hlen].
    + symmetry. by apply (lookup_handles_write _ _ cts).
Qed.
End sessions.

(** ** A concrete module

    Numbers for columns and slots; block [b] adds up what it has seen (the first cache), plus [b]. *)

Fixpoint running_sums (acc : Z) (l : list Z) : list Z :=
  match l with [] => [] | x :: l' => (acc + x) :: running_sums (acc + x) l' end.

Lemma running_sums_app acc x y : running_sums acc (x ++ y) = running_sums acc x ++ running_sums (acc + zsum x) y.
Proof.
  revert acc. induction x as [|a x IH]; intros acc; simpl; [by rewrite Z.add_0_r|].
  rewrite IH. do 3 f_equal. change (foldr Z.add 0 x) with (zsum x). lia.
Qed.

Lemma running_sums_length acc x : length (running_sums acc x) = length x.
Proof. revert acc. induction x; intros; simpl; by rewrite ?IHx. Qed.

Definition sum_forward (b : Z) (past : list (list Z)) (x : list Z) : list Z * list (list Z) :=
  (match past with [] => x | p :: _ => running_sums (b + zsum p) x end, (fun p => p ++ x) <$> past).

#[refine, global] Instance SumModule : CausalModule := {|
  col := Z; slot := Z;
  index_rows hypo s := Some s;
  make_zeros d := replicate (Z.to_nat (foldr Z.max 0 (td_shape d))) 0;
  add_col := Z.add;
  mod_forward b := sum_forward b.1;
|}.
Proof.
  - intros b past x. split.
    + destruct past; simpl; [done|apply running_sums_length].
    + induction past as [|p past IH]; [constructor|]. constructor; [eauto|exact IH].
  - intros b past x y. unfold sum_forward. f_equal.
    + destruct past as [|p past]; [done|]. rewrite fmap_cons, running_sums_app. do 2 f_equal.
      rewrite zsum_app. lia.
    + rewrite <- list_fmap_compose. apply list_fmap_ext. intros i p _. simpl. by rewrite app_assoc.
Defined.

(** A cache that the runtime lends as handles 7 and 8, with four slots each. *)
Definition example_backend : TransformerBackend :=
  mkBackend "m.0" 0 (mkPretrained 4 2 1 None) torch_float16 8 [0] [2] 100.

Definition example_cache : @MemoryCache (list Z) :=
  with_tensors (mc_init (tensor := list Z) (Some 100) None) [] [(7, [5; 5; 0; 0]); (8, [6; 6; 0; 0])].

Lemma example_backend_ok : backend_ok example_backend.
Proof. split; [done|]. repeat constructor. Qed.

Lemma inference_step_correct_witness :
  exists c2,
    inference_step (CM := SumModule) example_backend [9; 9] example_cache 1 [1; 2] [] (mkInferenceInfo "m.0" 2 [7; 8] None) = Ok (c2, [11; 13]) /\
    use_cache (make_zeros (CausalModule := SumModule)) c2 true [7; 8] = Ok (c2, [[5; 5; 1; 2]; [6; 6; 1; 2]]).
Proof.
  apply (inference_step_correct (CM := SumModule) example_backend [9; 9] example_cache example_cache 1 [1; 2] []
    (mkInferenceInfo "m.0" 2 [7; 8] None) [[5; 5; 0; 0]; [6; 6; 0; 0]] [[5; 5; 0; 0]; [6; 6; 0; 0]]);
    [exact example_backend_ok|lia|simpl; lia|done|done|done| |reflexivity|reflexivity|].
  - repeat constructor; set_solver.
  - repeat constructor; simpl; lia.
Defined.

Lemma inference_steps_compose_witness :
  exists cx cy cxy ox oy,
    inference_step (CM := SumModule) example_backend [0] example_cache 1 [1] [] (mkInferenceInfo "m.0" 2 [7; 8] None) = Ok (cx, ox) /\
    inference_step (CM := SumModule) example_backend [0] cx 1 [2] [] (mkInferenceInfo "m.0" (2 + zlen [1]) [7; 8] None) = Ok (cy, oy) /\
    inference_step (CM := SumModule) example_backend [9; 9] example_cache 1 ([1] ++ [2]) [] (mkInferenceInfo "m.0" 2 [7; 8] None) = Ok (cxy, ox ++ oy) /\
    lookup_handles (tensor := list Z) cy [7; 8] = lookup_handles (tensor := list Z) cxy [7; 8].
Proof.
  apply (inference_steps_compose (CM := SumModule) example_backend [0] [0] [9; 9] example_cache example_cache 1 [1] [2] "m.0" 2 [7; 8]
    None [[5; 5; 0; 0]; [6; 6; 0; 0]]);
    [exact example_backend_ok|lia|lia|done|done|done| |done|done|done|reflexivity|].
  - repeat constructor; set_solver.
  - repeat constructor; simpl; lia.
Defined.
