(* ===== verification/Tensors.v ===== *)
(** * Tensors: the data movement of PyTorch that the blocks use

    A tensor is a shape and a function from indices to numbers; only indices within the shape count, so tensors
    are compared by [teq].  [view], [transpose], [cat], slicing and [expand] move numbers as PyTorch documents
    them; the strides that decide whether PyTorch copies are not part of the model. *)

From S2P Require Import Prelude.

Record tensor (A : Type) := mkTensor {
  shape : list nat;
  at_ : list nat -> A;
}.
Arguments mkTensor {A} _ _.
Arguments shape {A} _.
Arguments at_ {A} _ _.

Definition in_bounds (s idx : list nat) : Prop := Forall2 lt idx s.

(** [t.numel()] of a shape *)
Definition numel (s : list nat) : nat := foldr Nat.mul 1%nat s.

(** The position of an index in memory, row by row, and back. *)
Fixpoint ravel (s idx : list nat) : nat :=
  match s, idx with
  | _ :: s', i :: idx' => (i * numel s' + ravel s' idx')%nat
  | _, _ => 0%nat
  end.

Fixpoint unravel (s : list nat) (k : nat) : list nat :=
  match s with
  | [] => []
  | _ :: s' => (k / numel s')%nat :: unravel s' (k mod numel s')
  end.

Section tensors.
Context {A : Type}.
Implicit Types t : tensor A.

(** The same shape and the same numbers. *)
Definition teq t t' : Prop := shape t = shape t' /\ forall idx, in_bounds (shape t) idx -> at_ t idx = at_ t' idx.

#[global] Instance teq_equiv : Equivalence teq.
Proof.
  split.
  - intros t. by split.
  - intros t t' [Hs H]. split; [done|]. intros idx Hi. rewrite H; [done|]. by rewrite Hs.
  - intros t1 t2 t3 [Hs1 H1] [Hs2 H2]. split; [congruence|]. intros idx Hi. rewrite H1 by done. apply H2. by rewrite <- Hs1.
Qed.

(** [t.view(s)]: the numbers in the same order under another shape. *)
Definition view (s : list nat) t : result (tensor A) :=
  if (numel s =? numel (shape t))%nat then Ok (mkTensor s (fun idx => at_ t (unravel (shape t) (ravel s idx))))
  else Err RuntimeError.

(** [t.transpose(1, 2)]; of three dimensions [t.permute(0, 2, 1)], of four [t.permute(0, 2, 1, 3)]. *)
Definition transpose12 t : result (tensor A) :=
  match shape t with
  | a :: b :: c :: s =>
      Ok (mkTensor (a :: c :: b :: s)
            (fun idx => match idx with i :: j :: k :: r => at_ t (i :: k :: j :: r) | _ => at_ t idx end))
  | _ => Err IndexError
  end.

(** The index of a broadcast tensor: a dimension of size 1 is repeated. *)
Definition clip_idx (s idx : list nat) : list nat := zip_with (fun n i => if (n =? 1)%nat then 0%nat else i) s idx.

(** Replaces coordinate [d] of an index. *)
Definition set_coord (d i : nat) (idx : list nat) : list nat := <[d := i]> idx.
Definition coord (d : nat) (idx : list nat) : nat := nth d idx 0%nat.

(** [torch.cat([t, t'], dim=d)]: the other dimensions must agree. *)
Definition cat (d : nat) t t' : result (tensor A) :=
  let n := coord d (shape t) in
  if decide (set_coord d 0%nat (shape t) = set_coord d 0%nat (shape t') /\ (d < length (shape t))%nat) then
    Ok (mkTensor (set_coord d (n + coord d (shape t'))%nat (shape t))
          (fun idx => if (coord d idx <? n)%nat then at_ t idx else at_ t' (set_coord d (coord d idx - n)%nat idx)))
  else Err RuntimeError.

(** [t[..., a:b, ...]] in dimension [d], for [a <= b] within the dimension. *)
Definition slice_dim (d a b : nat) t : tensor A :=
  mkTensor (set_coord d (b - a)%nat (shape t)) (fun idx => at_ t (set_coord d (a + coord d idx)%nat idx)).

(** [t[:, :, k]] *)
Definition select2 (k : nat) t : tensor A :=
  mkTensor (take 2 (shape t) ++ drop 3 (shape t)) (fun idx => at_ t (take 2 idx ++ k :: drop 2 idx)).

(** [t.expand(...)] of dimension [d], which has size 1, to [n]. *)
Definition expand_dim (d n : nat) t : tensor A :=
  mkTensor (set_coord d n (shape t)) (fun idx => at_ t (set_coord d 0%nat idx)).
End tensors.

Infix "≡t" := teq (at level 70, no associativity) : stdpp_scope.

(** ** Positions *)

Lemma numel_cons n s : numel (n :: s) = (n * numel s)%nat.
Proof. done. Qed.

Lemma in_bounds_cons n s i idx : in_bounds (n :: s) (i :: idx) <-> (i < n)%nat /\ in_bounds s idx.
Proof. unfold in_bounds. by rewrite Forall2_cons. Qed.

Lemma in_bounds_nil idx : in_bounds [] idx <-> idx = [].
Proof. unfold in_bounds. split; [by intros ?%Forall2_nil_inv_r|by intros ->]. Qed.

Lemma in_bounds_cons_inv n s idx :
  in_bounds (n :: s) idx -> exists i idx', idx = i :: idx' /\ (i < n)%nat /\ in_bounds s idx'.
Proof. unfold in_bounds. intros (i & idx' & H1 & H2 & ->)%Forall2_cons_inv_r. by exists i, idx'. Qed.

Lemma in_bounds_pos s idx : in_bounds s idx -> (0 < numel s)%nat.
Proof. unfold in_bounds. induction 1; simpl; nia. Qed.

Lemma ravel_bound s idx : in_bounds s idx -> (ravel s idx < numel s)%nat.
Proof.
  unfold in_bounds. induction 1 as [|i n idx s Hi H IH]; simpl; [lia|]. fold (numel s). nia.
Qed.

Lemma unravel_ravel s idx : in_bounds s idx -> unravel s (ravel s idx) = idx.
Proof.
  unfold in_bounds. induction 1 as [|i n idx s Hi H IH]; simpl; [done|].
  pose proof (ravel_bound s idx H) as Hb. f_equal.
  - rewrite Nat.div_add_l by lia. rewrite Nat.div_small by done. lia.
  - rewrite Nat.add_comm, Nat.Div0.mod_add, Nat.mod_small by done. done.
Qed.

Lemma unravel_in_bounds s k : (k < numel s)%nat -> in_bounds s (unravel s k).
Proof.
  revert k. induction s as [|n s IH]; intros k Hk; simpl; [by apply in_bounds_nil|].
  rewrite numel_cons in Hk. apply in_bounds_cons. split.
  - apply Nat.Div0.div_lt_upper_bound. lia.
  - apply IH. apply Nat.mod_upper_bound. nia.
Qed.

Lemma ravel_unravel s k : (k < numel s)%nat -> ravel s (unravel s k) = k.
Proof.
  revert k. induction s as [|n s IH]; intros k Hk; simpl; [cbn in Hk; lia|].
  rewrite numel_cons in Hk. rewrite IH.
  - pose proof (Nat.div_mod_eq k (numel s)). lia.
  - apply Nat.mod_upper_bound. nia.
Qed.

(** Merging two adjacent dimensions does not change positions. *)
Lemma ravel_merge a b s i j idx : ravel (a :: b :: s) (i :: j :: idx) = ravel ((a * b)%nat :: s) ((i * b + j)%nat :: idx).
Proof. simpl. fold (numel s). nia. Qed.

Lemma numel_merge a b s : numel ((a * b)%nat :: s) = numel (a :: b :: s).
Proof. simpl. fold (numel s). lia. Qed.

Lemma numel_app s s' : numel (s ++ s') = (numel s * numel s')%nat.
Proof. induction s as [|n s IH]; simpl; [lia|]. fold (numel (s ++ s')) (numel s). rewrite IH. lia. Qed.

Lemma ravel_app s s' idx idx' :
  length idx = length s -> ravel (s ++ s') (idx ++ idx') = (ravel s idx * numel s' + ravel s' idx')%nat.
Proof.
  revert idx. induction s as [|n s IH]; intros [|i idx] Hl; simpl; try done.
  rewrite IH by (simpl in Hl; lia). rewrite numel_app. lia.
Qed.

Lemma in_bounds_app s s' idx idx' :
  length idx = length s -> in_bounds (s ++ s') (idx ++ idx') <-> in_bounds s idx /\ in_bounds s' idx'.
Proof.
  unfold in_bounds. intros Hl. split.
  - intros H. by apply Forall2_app_inv in H.
  - intros [H1 H2]. by apply Forall2_app.
Qed.

Lemma in_bounds_length s idx : in_bounds s idx -> length idx = length s.
Proof. apply Forall2_length. Qed.

Lemma clip_idx_same s idx : in_bounds s idx -> clip_idx s idx = idx.
Proof.
  unfold in_bounds, clip_idx. induction 1 as [|i n idx s Hi H IH]; [done|]. cbn [zip_with]. rewrite IH.
  destruct (Nat.eqb_spec n 1) as [->|]; [|done]. f_equal. lia.
Qed.

(** Merging two adjacent dimensions in the middle. *)
Lemma ravel_merge_at p a b s q i j idx :
  length q = length p -> ravel (p ++ a :: b :: s) (q ++ i :: j :: idx) = ravel (p ++ (a * b)%nat :: s) (q ++ (i * b + j)%nat :: idx).
Proof. intros Hl. rewrite !ravel_app by done. rewrite ravel_merge. by rewrite numel_merge. Qed.

(** Division of a merged coordinate. *)
Lemma merged_coord (i b : nat) (j : nat) : (j < b)%nat -> ((i * b + j) / b = i /\ (i * b + j) mod b = j)%nat.
Proof.
  intros H. split; [rewrite Nat.div_add_l, Nat.div_small by lia; lia|].
  by rewrite Nat.add_comm, Nat.Div0.mod_add, Nat.mod_small.
Qed.

Lemma split_coord (k a b : nat) : (k < a * b)%nat -> (k / b < a /\ k mod b < b /\ k = k / b * b + k mod b)%nat.
Proof.
  intros H. assert (b <> 0)%nat by lia. split; [|split].
  - apply Nat.Div0.div_lt_upper_bound. lia.
  - by apply Nat.mod_upper_bound.
  - pose proof (Nat.div_mod_eq k b). lia.
Qed.

Section tensor_lemmas.
Context {A : Type}.
Implicit Types t : tensor A.

(** ** [view] *)

Lemma view_ok s t : numel s = numel (shape t) -> exists t', view s t = Ok t'.
Proof. intros H. unfold view. rewrite H, Nat.eqb_refl. eauto. Qed.

Lemma view_shape s t t' : view s t = Ok t' -> shape t' = s /\ numel s = numel (shape t).
Proof. unfold view. destruct (Nat.eqb_spec (numel s) (numel (shape t))) as [E|E]; [intros [= <-]; done|done]. Qed.

(** Equal positions hold equal numbers. *)
Lemma view_at s t t' idx idx' :
  view s t = Ok t' -> in_bounds (shape t) idx -> ravel s idx' = ravel (shape t) idx -> at_ t' idx' = at_ t idx.
Proof.
  unfold view. intros H Hi Hr. destruct (_ =? _)%nat; [|done]. injection H as <-. cbn [at_]. rewrite Hr. by rewrite unravel_ravel.
Qed.

Lemma view_proper s t1 t2 t1' t2' : t1 ≡t t2 -> view s t1 = Ok t1' -> view s t2 = Ok t2' -> t1' ≡t t2'.
Proof.
  intros [Hs H] H1 H2. pose proof (view_shape _ _ _ H1) as [Hs1 Hn1]. pose proof (view_shape _ _ _ H2) as [Hs2 Hn2].
  split; [congruence|]. rewrite Hs1. intros idx Hi.
  assert (Hb : in_bounds (shape t1) (unravel (shape t1) (ravel s idx))).
  { apply unravel_in_bounds. rewrite <- Hn1. by apply ravel_bound. }
  assert (Hr : ravel s idx = ravel (shape t1) (unravel (shape t1) (ravel s idx))).
  { rewrite ravel_unravel; [done|]. rewrite <- Hn1. by apply ravel_bound. }
  rewrite (view_at _ _ _ _ _ H1 Hb Hr). rewrite Hs in Hb, Hr. rewrite (view_at _ _ _ _ _ H2 Hb Hr).
  rewrite <- Hs. apply H. by rewrite Hs.
Qed.

(** Viewing a view as the original shape gives the original. *)
Lemma view_back s t t' t'' : view s t = Ok t' -> view (shape t) t' = Ok t'' -> t'' ≡t t.
Proof.
  intros H1 H2. pose proof (view_shape _ _ _ H1) as [Hs1 Hn1]. pose proof (view_shape _ _ _ H2) as [Hs2 Hn2].
  split; [done|]. rewrite Hs2. intros idx Hi.
  assert (Hlt : (ravel (shape t) idx < numel s)%nat) by (rewrite Hn1; by apply ravel_bound).
  rewrite (view_at _ _ _ (unravel s (ravel (shape t) idx)) idx H2); rewrite ?Hs1.
  - apply (view_at _ _ _ _ _ H1 Hi). by apply ravel_unravel.
  - by apply unravel_in_bounds.
  - by rewrite ravel_unravel.
Qed.

Lemma view_same s t t' : view s t = Ok t' -> shape t = s -> t' ≡t t.
Proof.
  intros H Hs. pose proof (view_shape _ _ _ H) as [Hs' _]. split; [congruence|]. rewrite Hs'. intros idx Hi.
  apply (view_at _ _ _ _ _ H); rewrite Hs; done.
Qed.

(** ** [transpose] *)

Lemma transpose12_at t t' i j k r :
  transpose12 t = Ok t' -> at_ t' (i :: j :: k :: r) = at_ t (i :: k :: j :: r).
Proof. unfold transpose12. destruct (shape t) as [|? [|? [|? ?]]]; intros H; try done. by injection H as <-. Qed.

Lemma transpose12_shape t a b c s : shape t = a :: b :: c :: s -> exists t', transpose12 t = Ok t' /\ shape t' = a :: c :: b :: s.
Proof. unfold transpose12. intros ->. eauto. Qed.

Lemma transpose12_back t t' t'' : transpose12 t = Ok t' -> transpose12 t' = Ok t'' -> t'' ≡t t.
Proof.
  intros H1 H2. pose proof H1 as H1'. unfold transpose12 in H1'.
  destruct (shape t) as [|a [|b [|c s]]] eqn:Es; try done. injection H1' as <-.
  pose proof H2 as H2'. unfold transpose12 in H2'. cbn [shape] in H2'. injection H2' as <-. split; [by rewrite Es|].
  intros idx Hi. cbn [shape] in Hi. apply in_bounds_length in Hi.
  destruct idx as [|i [|j [|k r]]]; try (simpl in Hi; lia). done.
Qed.

(** ** Slices and expansions *)

Lemma in_bounds_set d m i s idx :
  in_bounds (set_coord d m s) idx -> ((d < length s)%nat -> (i < coord d s)%nat) -> in_bounds s (set_coord d i idx).
Proof.
  revert d idx. induction s as [|n s IH]; intros [|d] idx H Hi; unfold set_coord in *; cbn [insert list_insert] in H.
  1-2: apply in_bounds_nil in H as ->; by apply in_bounds_nil.
  - apply in_bounds_cons_inv in H as (j & idx' & -> & _ & H). apply in_bounds_cons. split; [apply Hi; simpl; lia|done].
  - apply in_bounds_cons_inv in H as (j & idx' & -> & Hj & H). apply in_bounds_cons. split; [done|].
    apply IH; [done|]. intros Hd. apply Hi. simpl. lia.
Qed.

Lemma in_bounds_coord d m s idx : in_bounds (set_coord d m s) idx -> (d < length s)%nat -> (coord d idx < m)%nat.
Proof.
  revert d idx. induction s as [|n s IH]; intros [|d] idx H Hd; unfold set_coord in *; cbn [insert list_insert length] in *; try lia.
  - by apply in_bounds_cons_inv in H as (j & idx' & -> & Hj & _).
  - apply in_bounds_cons_inv in H as (j & idx' & -> & _ & H). apply (IH d idx' H). lia.
Qed.

Lemma slice_dim_proper d a b t t' : (a <= b)%nat -> (b <= coord d (shape t))%nat -> t ≡t t' -> slice_dim d a b t ≡t slice_dim d a b t'.
Proof.
  intros Hab Hb [Hs H]. unfold slice_dim. split; cbn [shape at_]; [by rewrite Hs|]. intros idx Hi. apply H.
  apply (in_bounds_set _ _ _ _ _ Hi). intros Hd. pose proof (in_bounds_coord _ _ _ _ Hi Hd). lia.
Qed.

Lemma expand_dim_proper d n t t' : (0 < coord d (shape t))%nat -> t ≡t t' -> expand_dim d n t ≡t expand_dim d n t'.
Proof.
  intros Hd [Hs H]. unfold expand_dim. split; cbn [shape at_]; [by rewrite Hs|]. intros idx Hi. apply H.
  apply (in_bounds_set _ _ _ _ _ Hi). by intros _.
Qed.
End tensor_lemmas.
