(* ===== verification/Numerics.v ===== *)
(** * Numerics: tensor arithmetic over abstract numbers

    The numbers of a tensor and the kernels that combine them (inner products, softmax) are the class [Numbers]:
    what it promises of them is what masked attention relies on.  Elementwise operations broadcast as PyTorch
    documents; [matmul], [F.linear] and functions of the last dimension are defined from the kernels. *)

From S2P Require Import Prelude Tensors.

(** [dot] is the inner product of one row and one column, [softmax] of one row.  A weight of zero does not
    contribute to an inner product; a masked score, to which the least number of the dtype is added, gets the weight
    zero and does not change the other weights, provided that some score is not masked. *)
Class Numbers := {
  num : Type;
  zero : num;
  add : num -> num -> num;
  mul : num -> num -> num;
  dot : list num -> list num -> num;
  softmax : list num -> list num;
  finfo_min : num;
  add_zero : forall x, add x zero = x;
  dot_weightless : forall w v u, length w = length v -> dot (w ++ replicate (length u) zero) (v ++ u) = dot w v;
  softmax_length : forall l, length (softmax l) = length l;
  softmax_masked : forall l l', l <> [] ->
    softmax (l ++ map (fun x => add x finfo_min) l') = softmax l ++ replicate (length l') zero;
}.

(** Adding [m] to a score masks it, as adding the least number does. *)
Definition masks {NU : Numbers} (m : num) : Prop := forall l l', l <> [] ->
  softmax (l ++ map (fun x => add x m) l') = softmax l ++ replicate (length l') zero.

Section numerics.
Context {NU : Numbers}.
Abbreviation Tensor := (tensor num).
Implicit Types t u : Tensor.

(** The numbers of the last dimension at the other coordinates [p]. *)
Definition row t (p : list nat) : list num := (fun d => at_ t (p ++ [d])) <$> seq 0 (List.last (shape t) 0%nat).

(** A function of the last dimension, applied everywhere; its results have [n] numbers. *)
Definition on_rows (n : nat) (f : list num -> list num) t : Tensor :=
  mkTensor (removelast (shape t) ++ [n]) (fun idx => nth (List.last idx 0%nat) (f (row t (removelast idx))) zero).

(** Broadcasting of two tensors with the same number of dimensions: a dimension of size 1 is repeated. *)
Fixpoint broadcast_shapes (s s' : list nat) : option (list nat) :=
  match s, s' with
  | [], [] => Some []
  | n :: s, m :: s' =>
      r ← broadcast_shapes s s';
      if (n =? m)%nat then Some (n :: r) else if (n =? 1)%nat then Some (m :: r) else if (m =? 1)%nat then Some (n :: r) else None
  | _, _ => None
  end.

Definition elementwise (f : num -> num -> num) t u : result Tensor :=
  s ← get_or RuntimeError (broadcast_shapes (shape t) (shape u));
  Ok (mkTensor s (fun idx => f (at_ t (clip_idx (shape t) idx)) (at_ u (clip_idx (shape u) idx)))).

Definition t_map (f : num -> num) t : Tensor := mkTensor (shape t) (fun idx => f (at_ t idx)).

(** [torch.matmul] of two batches of matrices: [.., n, k] and [.., k, m]. *)
Definition column t (p : list nat) (j : nat) : list num :=
  (fun k => at_ t (p ++ [k; j])) <$> seq 0 (coord (length p) (shape t)).

Definition matmul4 t u : result Tensor :=
  match shape t, shape u with
  | [b; h; n; k], [b'; h'; k'; m] =>
      if decide ((b, h, k) = (b', h', k')) then
        Ok (mkTensor [b; h; n; m]
              (fun idx => match idx with
                          | [b; h; i; j] => dot (row t [b; h; i]) (column u [b; h] j)
                          | _ => zero
                          end))
      else Err RuntimeError
  | _, _ => Err RuntimeError
  end.

(** [t.transpose(2, 3)] of four dimensions *)
Definition transpose23 t : result Tensor :=
  match shape t with
  | [a; b; c; d] => Ok (mkTensor [a; b; d; c] (fun idx => match idx with [i; j; k; l] => at_ t [i; j; l; k] | _ => zero end))
  | _ => Err IndexError
  end.

(** [F.linear(x, W)]: the inner products of the rows of [x] with the rows of [W]. *)
Definition weight_rows (w : Tensor) : list (list num) := (fun o => row w [o]) <$> seq 0 (coord 0 (shape w)).

Definition linear_row (w : Tensor) (r : list num) : list num := dot r <$> weight_rows w.

Definition f_linear t (w : Tensor) : result Tensor :=
  match shape w with
  | [o; i] => if (List.last (shape t) 0 =? i)%nat then Ok (on_rows o (linear_row w) t) else Err RuntimeError
  | _ => Err RuntimeError
  end.

(** [W.split(n, dim=d)]: pieces of [n], the last one may be smaller. *)
Definition t_split (n d : nat) t : result (list Tensor) :=
  let len := coord d (shape t) in
  if (n =? 0)%nat then Err RuntimeError
  else Ok ((fun i => slice_dim d (i * n) (Nat.min ((i + 1) * n) len) t) <$> seq 0 (Nat.max 1 ((len + n - 1) / n))).

(** ** Rows *)

Lemma seq_from m c : seq m c = (fun o => (m + o)%nat) <$> seq 0 c.
Proof. etrans; [|symmetry; apply (fmap_add_seq m 0 c)]. by rewrite Nat.add_0_r. Qed.

Lemma nth_seq_map {A} (f : nat -> A) a n i d : (i < n)%nat -> nth i (f <$> seq a n) d = f (a + i)%nat.
Proof.
  intros H. rewrite (nth_indep _ d (f 0%nat)) by (by rewrite length_fmap, length_seq).
  etrans; [apply (map_nth f (seq a n) 0%nat i)|]. by rewrite seq_nth.
Qed.

Lemma row_length t p : length (row t p) = List.last (shape t) 0%nat.
Proof. unfold row. by rewrite length_fmap, length_seq. Qed.

Lemma row_nth t p d : (d < List.last (shape t) 0)%nat -> nth d (row t p) zero = at_ t (p ++ [d]).
Proof.
  intros H. unfold row. by rewrite nth_seq_map.
Qed.

Lemma row_ext t u p q :
  List.last (shape t) 0%nat = List.last (shape u) 0%nat ->
  (forall d, (d < List.last (shape t) 0)%nat -> at_ t (p ++ [d]) = at_ u (q ++ [d])) -> row t p = row u q.
Proof.
  intros Hl H. unfold row. rewrite <- Hl. apply map_ext_in. intros d Hd. apply H. apply in_seq in Hd. lia.
Qed.

Lemma last_snoc {A} (l : list A) x d : List.last (l ++ [x]) d = x.
Proof. induction l as [|y l IH]; [done|]. simpl. rewrite IH. by destruct l. Qed.

Lemma on_rows_shape n f t : shape (on_rows n f t) = removelast (shape t) ++ [n].
Proof. done. Qed.

Lemma on_rows_at n f t p d : at_ (on_rows n f t) (p ++ [d]) = nth d (f (row t p)) zero.
Proof. unfold on_rows. cbn [at_]. by rewrite last_snoc, removelast_last. Qed.

Lemma on_rows_row n f t p : length (f (row t p)) = n -> row (on_rows n f t) p = f (row t p).
Proof.
  intros Hl. apply (nth_ext _ _ zero zero).
  - rewrite row_length, on_rows_shape, last_snoc. done.
  - intros d Hd. rewrite row_length in Hd. rewrite row_nth by done. apply on_rows_at.
Qed.

(** ** Elementwise operations *)

Lemma broadcast_fits s s' : Forall2 (fun n m => m = n \/ m = 1%nat) s s' -> broadcast_shapes s s' = Some s.
Proof.
  induction 1 as [|n m s s' Hm _ IH]; [done|]. cbn [broadcast_shapes]. rewrite IH. cbn.
  destruct (Nat.eqb_spec n m); [done|]. destruct Hm as [->| ->]; [done|].
  destruct (Nat.eqb_spec n 1); done.
Qed.

Lemma broadcast_clip s s' r idx :
  broadcast_shapes s s' = Some r -> in_bounds r idx -> in_bounds s (clip_idx s idx) /\ in_bounds s' (clip_idx s' idx).
Proof.
  revert s' r idx. induction s as [|n s IH]; intros [|m s'] r idx; cbn [broadcast_shapes]; try done.
  - intros [= <-] ->%in_bounds_nil. split; by apply in_bounds_nil.
  - destruct (broadcast_shapes s s') as [r'|] eqn:E; [|done]. cbn. intros H.
    assert (exists k, r = k :: r' /\ ((n = k /\ m = k) \/ (n = 1 /\ m = k) \/ (n = k /\ m = 1)))%nat as (k & -> & Hk).
    { destruct (Nat.eqb_spec n m); [injection H as <-; exists n; split; [done|]; lia|].
      destruct (Nat.eqb_spec n 1); [injection H as <-; exists m; split; [done|]; lia|].
      destruct (Nat.eqb_spec m 1); [injection H as <-; exists n; split; [done|]; lia|done]. }
    intros (i & idx' & -> & Hi & Hidx)%in_bounds_cons_inv. destruct (IH _ _ _ E Hidx) as [H1 H2].
    unfold clip_idx in *. cbn [zip_with]. rewrite !in_bounds_cons.
    clear H. split; (split; [|done]); [destruct (Nat.eqb_spec n 1)|destruct (Nat.eqb_spec m 1)]; lia.
Qed.

Lemma elementwise_ok f t u : Forall2 (fun n m => m = n \/ m = 1%nat) (shape t) (shape u) ->
  exists r, elementwise f t u = Ok r /\ shape r = shape t /\
    forall idx, in_bounds (shape t) idx -> at_ r idx = f (at_ t idx) (at_ u (clip_idx (shape u) idx)).
Proof.
  intros Hs. unfold elementwise. rewrite (broadcast_fits _ _ Hs). eexists. split; [reflexivity|]. split; [done|].
  intros idx Hi. cbn [at_]. by rewrite clip_idx_same.
Qed.

Lemma elementwise_same f t u : shape t = shape u ->
  exists r, elementwise f t u = Ok r /\ shape r = shape t /\
    forall idx, in_bounds (shape t) idx -> at_ r idx = f (at_ t idx) (at_ u idx).
Proof.
  intros Hs. destruct (elementwise_ok f t u) as (r & Hr & Hsh & Hat).
  - rewrite Hs. clear. induction (shape u) as [|n s IH]; constructor; [by left|exact IH].
  - exists r. split; [done|]. split; [done|]. intros idx Hi. rewrite Hat by done. rewrite <- Hs. by rewrite clip_idx_same.
Qed.

(** ** Operations on equal tensors *)

Lemma elementwise_proper f t t' u u' r :
  t ≡t t' -> u ≡t u' -> elementwise f t u = Ok r -> exists r', elementwise f t' u' = Ok r' /\ r ≡t r'.
Proof.
  intros [Hs Ht] [Hs' Hu]. unfold elementwise. rewrite <- Hs, <- Hs'.
  destruct (broadcast_shapes (shape t) (shape u)) as [s|] eqn:E; [|done]. cbn. intros [= <-]. eexists. split; [reflexivity|].
  split; [done|]. cbn [shape at_]. intros idx Hi. destruct (broadcast_clip _ _ _ _ E Hi). by rewrite Ht, Hu.
Qed.

Lemma in_bounds_snoc s n idx : in_bounds (s ++ [n]) idx -> exists p i, idx = p ++ [i] /\ in_bounds s p /\ (i < n)%nat.
Proof.
  unfold in_bounds. intros (p & q & H1 & H2 & ->)%Forall2_app_inv_r.
  apply Forall2_cons_inv_r in H2 as (i & q' & Hi & Hq & ->). apply Forall2_nil_inv_r in Hq as ->. by exists p, i.
Qed.

Lemma on_rows_proper n f t t' : t ≡t t' -> on_rows n f t ≡t on_rows n f t'.
Proof.
  intros [Hs H]. split; [by rewrite !on_rows_shape, Hs|]. intros idx (p & i & -> & Hp & Hi)%in_bounds_snoc.
  rewrite !on_rows_at. f_equal. f_equal. apply row_ext; [by rewrite Hs|]. intros d Hd. apply H.
  destruct (shape t) as [|m s] eqn:Es; [simpl in Hd; lia|]. rewrite <- Es in *.
  rewrite (app_removelast_last 0%nat (l := shape t)) by (by rewrite Es). apply Forall2_app; [done|]. by constructor.
Qed.

Lemma row_teq t t' p s n : t ≡t t' -> shape t = s ++ [n] -> in_bounds s p -> row t p = row t' p.
Proof.
  intros [Hs H] Hsh Hp. apply row_ext; [by rewrite Hs|]. rewrite Hsh. intros d Hd. rewrite last_snoc in Hd.
  apply H. rewrite Hsh. apply Forall2_app; [done|]. by constructor.
Qed.

(** ** Causal attention *)

(** A row of masked scores selects among the values that are not masked. *)
Lemma masked_dot (mask : num) (score v : nat -> num) n m : masks mask ->
  dot (softmax ((fun s => add (score s) (if (s <=? n)%nat then zero else mask)) <$> seq 0 (S n + m))) (v <$> seq 0 (S n + m)) =
  dot (softmax (score <$> seq 0 (S n))) (v <$> seq 0 (S n)).
Proof.
  intros Hmask. rewrite seq_app, !fmap_app.
  assert (E1 : (fun s => add (score s) (if (s <=? n)%nat then zero else mask)) <$> seq 0 (S n) = score <$> seq 0 (S n)).
  { apply map_ext_in. intros s Hs%in_seq. destruct (Nat.leb_spec s n); [apply add_zero|lia]. }
  assert (E2 : (fun s => add (score s) (if (s <=? n)%nat then zero else mask)) <$> seq (0 + S n) m =
    map (fun x => add x mask) (score <$> seq (0 + S n) m)).
  { rewrite <- list_fmap_compose. apply map_ext_in. intros s Hs%in_seq. destruct (Nat.leb_spec s n); [lia|done]. }
  rewrite E1, E2, Hmask by done. rewrite length_fmap, length_seq.
  replace m with (length (v <$> seq (0 + S n) m)) at 1 by (by rewrite length_fmap, length_seq).
  apply dot_weightless. by rewrite softmax_length, !length_fmap.
Qed.
End numerics.
