(* ===== verification/CausalRows.v ===== *)
(** * CausalRows: blocks that work row by row

    A causal block is given by three functions of rows ([causal_rows]): the key and the value of a token for every
    head, at its position, and the output of a token from the keys and values up to it.  Such functions are a
    [CausalModule], the interface against which the server's theorems are proved; a program on tensors that
    [computes] them refines that module and can process a chunk in parts.  The blocks of LLaMA, Mixtral, Falcon and
    BLOOM are shown to compute such rows. *)

From S2P Require Import Prelude Tensors Numerics DataStructures MemoryCache Backend.

Section causal_rows.
Context {NU : Numbers}.
Abbreviation Tensor := (tensor num).
Abbreviation rows3 := (nat -> nat -> nat -> list num).       (* sequence, head, position *)

Record causal_rows := mkCausalRows {
  cr_heads : nat;                                            (* of keys and values *)
  cr_head_dim : nat;
  cr_key : nat -> list num -> nat -> list num;               (* position, input, head *)
  cr_value : nat -> list num -> nat -> list num;
  cr_out : nat -> list num -> (nat -> nat -> list num) -> (nat -> nat -> list num) -> list num;
  cr_causal : forall n r K V K' V',
    (forall g s, (g < cr_heads)%nat -> (s <= n)%nat -> K g s = K' g s /\ V g s = V' g s) -> cr_out n r K V = cr_out n r K' V';
}.

(** ** The module of the rows

    A column holds one row per sequence, a slot one row per sequence and head. *)

Abbreviation row_col := (list (list num)).
Abbreviation row_slot := (list (list (list num))).

Definition slot_row (k : list row_slot) (b g s : nat) : list num := nth g (nth b (nth s k []) []) [].

(** The slot of a column. *)
Definition col_slot (heads : nat) (f : list num -> nat -> list num) (c : row_col) : row_slot := (fun r => f r <$> seq 0 heads) <$> c.

Definition new_slots (heads p : nat) (f : nat -> list num -> nat -> list num) (x : list row_col) : list row_slot :=
  imap (fun i c => col_slot heads (f (p + i)%nat) c) x.

Definition row_outputs (R : causal_rows) (p : nat) (k v : list row_slot) (x : list row_col) : list row_col :=
  imap (fun i c => imap (fun b r => cr_out R (p + i) r (slot_row k b) (slot_row v b)) c) x.

Definition rows_forward (R : causal_rows) (past : list (list row_slot)) (x : list row_col) : list row_col * list (list row_slot) :=
  match past with
  | [k; v] =>
      let p := length k in
      if (length v =? p)%nat then
        let k' := k ++ new_slots (cr_heads R) p (cr_key R) x in
        let v' := v ++ new_slots (cr_heads R) p (cr_value R) x in
        (row_outputs R p k' v' x, [k'; v'])
      else (x, (fun q => q ++ ((fun _ => []) <$> x)) <$> past)
  | _ => (x, (fun q => q ++ ((fun _ => []) <$> x)) <$> past)
  end.

Lemma new_slots_length heads p f x : length (new_slots heads p f x) = length x.
Proof. unfold new_slots. by rewrite length_imap. Qed.

Lemma new_slots_app heads p f x y :
  new_slots heads p f (x ++ y) = new_slots heads p f x ++ new_slots heads (p + length x) f y.
Proof. unfold new_slots. rewrite imap_app. f_equal. apply imap_ext. intros i c _. cbn. by rewrite Nat.add_assoc. Qed.

Lemma slot_row_app k k' b g s : (s < length k)%nat -> slot_row (k ++ k') b g s = slot_row k b g s.
Proof. intros H. unfold slot_row. by rewrite app_nth1. Qed.

(** The outputs of a chunk do not depend on slots that come after it. *)
Lemma row_outputs_past R p k v k' v' x :
  (p + length x <= length k)%nat -> (p + length x <= length v)%nat ->
  row_outputs R p (k ++ k') (v ++ v') x = row_outputs R p k v x.
Proof.
  intros Hk Hv. unfold row_outputs. apply imap_ext. intros i c Hi%lookup_lt_Some. apply imap_ext. intros b r _.
  apply cr_causal. intros g s _ Hs. by rewrite !slot_row_app by lia.
Qed.

Lemma row_outputs_app R p k v x y :
  row_outputs R p k v (x ++ y) = row_outputs R p k v x ++ row_outputs R (p + length x) k v y.
Proof.
  unfold row_outputs. rewrite imap_app. f_equal. apply imap_ext. intros i c _. cbn. apply imap_ext. intros b r _. by rewrite Nat.add_assoc.
Qed.

Lemma rows_forward_chunk R past x y :
  rows_forward R past (x ++ y) =
  (let '(ox, kx) := rows_forward R past x in let '(oy, ky) := rows_forward R kx y in (ox ++ oy, ky)).
Proof.
  assert (Hbad : forall l : list (list row_slot), (fun q => q ++ ((fun _ => []) <$> (x ++ y))) <$> l =
    (fun q => q ++ ((fun _ => []) <$> y)) <$> ((fun q => q ++ ((fun _ => []) <$> x)) <$> l)).
  { intros l. rewrite <- list_fmap_compose. apply map_ext. intros q. cbn. by rewrite fmap_app, app_assoc. }
  unfold rows_forward. destruct past as [|k [|v [|u past]]]; [done|rewrite Hbad; by rewrite !fmap_cons, !fmap_nil| |].
  - destruct (Nat.eqb_spec (length v) (length k)) as [E|E].
    + rewrite !length_app, !new_slots_length, E, Nat.eqb_refl. rewrite !new_slots_app, !app_assoc. f_equal.
      rewrite row_outputs_app. f_equal. apply row_outputs_past; rewrite length_app, new_slots_length; lia.
    + rewrite Hbad. rewrite !fmap_cons, !fmap_nil, !length_app, !length_fmap.
      by destruct (Nat.eqb_spec (length v + length x) (length k + length x)); [lia|].
  - rewrite Hbad. by rewrite !fmap_cons.
Qed.

(** [descr.make_zeros()]: keys are [batch, heads, head size, positions], values [batch, heads, positions, head size]. *)
Definition zero_slots (hd : nat) (d : TensorDescriptor) : list row_slot :=
  match td_shape d with
  | [b; h; m; n] =>
      let len := if Z.of_nat hd =? m then n else m in
      replicate (Z.to_nat len) (replicate (Z.to_nat b) (replicate (Z.to_nat h) (replicate hd zero)))
  | _ => []
  end.

(** [cache[hypo_ids]]: the rows of the given sequences. *)
Definition index_slot (hypo : list Z) (s : row_slot) : option row_slot :=
  mapM (fun i => match znth s i with Ok r => Some r | Err _ => None end) hypo.

End causal_rows.

(** Blocks given by rows are a module as the backend expects it; [R b] are the rows of block [b]. *)
#[refine] Definition RowsModule {NU : Numbers} (hd : nat) (R : Z -> causal_rows) : CausalModule := {|
  col := list (list num);
  slot := list (list (list num));
  index_rows := index_slot;
  make_zeros := zero_slots hd;
  add_col := zip_with (zip_with add);
  mod_forward b := rows_forward (R b.1);
|}.
Proof.
  - intros b past x. unfold rows_forward.
    assert (Hbad : forall l : list (list (list (list (list num)))),
      Forall2 (fun p k => exists n, k = p ++ n /\ length n = length x) l ((fun q => q ++ ((fun _ => []) <$> x)) <$> l)).
    { intros l. induction l as [|q l IH]; [constructor|]. constructor; [|exact IH]. eexists. split; [done|]. by rewrite length_fmap. }
    destruct past as [|k [|v [|u past]]]; try by (split; [done|apply Hbad]).
    destruct (_ =? _)%nat; [|by split; [done|apply (Hbad [k; v])]].
    split; [apply length_imap|]. repeat (constructor; [by eexists; split; [done|apply new_slots_length]|]). constructor.
  - intros b past x y. apply rows_forward_chunk.
Defined.

(** ** Programs on tensors *)

Section programs.
Context {NU : Numbers}.
Abbreviation Tensor := (tensor num).

(** Keys [batch * heads, head size, positions] and values [batch * heads, positions, head size], with rows [fk], [fv]. *)
Definition bloom_cache (bsz heads p hd : nat) (past : option (Tensor * Tensor)) (fk fv : nat -> nat -> nat -> list num) : Prop :=
  match past with
  | Some (k, v) =>
      shape k = [bsz * heads; hd; p]%nat /\ shape v = [bsz * heads; p; hd]%nat /\
      (forall b g s, (b < bsz)%nat -> (g < heads)%nat -> (s < p)%nat ->
         (fun e => at_ k [b * heads + g; e; s]%nat) <$> seq 0 hd = fk b g s) /\
      (forall b g s, (b < bsz)%nat -> (g < heads)%nat -> (s < p)%nat -> row v [b * heads + g; s]%nat = fv b g s)
  | None => p = 0%nat
  end.

(** Caches with the same rows are equal. *)
Lemma bloom_cache_teq bsz heads p hd k v k' v' fk fv fk' fv' :
  bloom_cache bsz heads p hd (Some (k, v)) fk fv -> bloom_cache bsz heads p hd (Some (k', v')) fk' fv' ->
  (forall b g s, (b < bsz)%nat -> (g < heads)%nat -> (s < p)%nat -> fk b g s = fk' b g s /\ fv b g s = fv' b g s) ->
  k ≡t k' /\ v ≡t v'.
Proof.
  intros (Hk & Hv & Hfk & Hfv) (Hk' & Hv' & Hfk' & Hfv') Heq. split; (split; [congruence|]); rewrite ?Hk, ?Hv; intros idx Hi.
  - apply in_bounds_cons_inv in Hi as (i & idx1 & -> & Hi & H). apply in_bounds_cons_inv in H as (e & idx2 & -> & He & H).
    apply in_bounds_cons_inv in H as (s & idx3 & -> & Hs & ->%in_bounds_nil).
    destruct (split_coord i bsz heads Hi) as (Hb & Hg & ->). destruct (Heq _ _ _ Hb Hg Hs) as [E _].
    rewrite <- Hfk, <- Hfk' in E by done. apply (f_equal (fun l => nth e l zero)) in E. by rewrite !nth_seq_map in E by done.
  - apply in_bounds_cons_inv in Hi as (i & idx1 & -> & Hi & H). apply in_bounds_cons_inv in H as (s & idx2 & -> & Hs & H).
    apply in_bounds_cons_inv in H as (e & idx3 & -> & He & ->%in_bounds_nil).
    destruct (split_coord i bsz heads Hi) as (Hb & Hg & ->). destruct (Heq _ _ _ Hb Hg Hs) as [_ E].
    rewrite <- Hfv, <- Hfv' in E by done. apply (f_equal (fun l => nth e l zero)) in E.
    by rewrite !row_nth in E by (rewrite ?Hv, ?Hv'; done).
Qed.

(** The rows of a cache of the right shapes. *)
Definition key_rows (heads hd : nat) (past : option (Tensor * Tensor)) (b g s : nat) : list num :=
  match past with Some (k, _) => (fun e => at_ k [b * heads + g; e; s]%nat) <$> seq 0 hd | None => [] end.
Definition value_rows (heads : nat) (past : option (Tensor * Tensor)) (b g s : nat) : list num :=
  match past with Some (_, v) => row v [b * heads + g; s]%nat | None => [] end.

Definition cache_shapes (bsz heads p hd : nat) (past : option (Tensor * Tensor)) : Prop :=
  match past with
  | Some (k, v) => shape k = [bsz * heads; hd; p]%nat /\ shape v = [bsz * heads; p; hd]%nat
  | None => p = 0%nat
  end.

Lemma bloom_cache_rows bsz heads p hd past :
  cache_shapes bsz heads p hd past -> bloom_cache bsz heads p hd past (key_rows heads hd past) (value_rows heads past).
Proof. destruct past as [[k v]|]; [|done]. intros [Hk Hv]. by repeat split. Qed.

Lemma cat1_rows bsz q1 q2 d (x y : Tensor) :
  shape x = [bsz; q1; d] -> shape y = [bsz; q2; d] ->
  exists z, cat 1 x y = Ok z /\ shape z = [bsz; q1 + q2; d]%nat /\
    forall b t, row z [b; t] = if (t <? q1)%nat then row x [b; t] else row y [b; t - q1]%nat.
Proof.
  intros Hx Hy. unfold cat. rewrite Hx, Hy. rewrite decide_True by (split; [done|simpl; lia]).
  eexists. split; [reflexivity|]. split; [done|]. intros b t. unfold row. cbn [shape]. rewrite Hx, Hy.
  cbn [set_coord insert list_insert List.last coord nth].
  destruct (t <? q1)%nat eqn:E; apply map_ext; intros e; cbn [app at_ coord nth set_coord insert list_insert]; by rewrite E.
Qed.

Lemma rows_teq bsz q d (x y : Tensor) : shape x = [bsz; q; d] -> shape y = [bsz; q; d] ->
  (forall b t, (b < bsz)%nat -> (t < q)%nat -> row x [b; t] = row y [b; t]) -> x ≡t y.
Proof.
  intros Hx Hy H. split; [congruence|]. rewrite Hx. intros idx Hi.
  apply in_bounds_cons_inv in Hi as (b & idx1 & -> & Hb & Hi). apply in_bounds_cons_inv in Hi as (t & idx2 & -> & Ht & Hi).
  apply in_bounds_cons_inv in Hi as (e & idx3 & -> & He & ->%in_bounds_nil).
  specialize (H b t Hb Ht). apply (f_equal (fun l => nth e l zero)) in H.
  by rewrite !row_nth in H by (rewrite ?Hx, ?Hy; done).
Qed.


(** Keys and values at a position: from a past of [p] tokens, or of the chunk with the rows [X]. *)
Definition key_from (R : causal_rows) (past : nat -> nat -> nat -> list num) (p : nat) (X : nat -> nat -> list num) (b g s : nat) : list num :=
  if (s <? p)%nat then past b g s else cr_key R s (X b (s - p)%nat) g.

Definition value_from (R : causal_rows) (past : nat -> nat -> nat -> list num) (p : nat) (X : nat -> nat -> list num) (b g s : nat) : list num :=
  if (s <? p)%nat then past b g s else cr_value R s (X b (s - p)%nat) g.

Definition out_from (R : causal_rows) (pk pv : nat -> nat -> nat -> list num) (p : nat) (X : nat -> nat -> list num) (b t : nat) : list num :=
  cr_out R (p + t) (X b t) (key_from R pk p X b) (value_from R pv p X b).

Section computes.
Context {W : Type} (inv : nat -> W -> Prop) (accepts : nat -> option (Tensor * Tensor) -> W -> Prop) (d : nat) (R : causal_rows).
Context (F : Tensor -> option (Tensor * Tensor) -> W -> option (W * result (Tensor * option (Tensor * Tensor)))).

(** [F x past w] is the forward pass of a chunk in a state [w], for a length and a past that it accepts in that state: it returns the rows of [R], and the cache extended by
    the keys and values of the chunk, in the layout of the servers. *)
Definition computes : Prop := forall bsz p q (x : Tensor) past pk pv w,
  shape x = [bsz; q; d] -> bloom_cache bsz (cr_heads R) p (cr_head_dim R) past pk pv -> accepts q past w -> inv bsz w ->
  let X := fun b t => row x [b; t] in
  exists w' o k v, F x past w = Some (w', Ok (o, Some (k, v))) /\ inv bsz w' /\ shape o = [bsz; q; d] /\
    (forall b t, (b < bsz)%nat -> (t < q)%nat -> row o [b; t] = out_from R pk pv p X b t) /\
    bloom_cache bsz (cr_heads R) (p + q) (cr_head_dim R) (Some (k, v)) (key_from R pk p X) (value_from R pv p X).

(** *** Chunks *)

Section chunks.
Context (X Y Z : nat -> nat -> list num) (p q : nat).
Context (HZ : forall b t, Z b t = if (t <? q)%nat then X b t else Y b (t - q)%nat).

(** Keys and values of the whole chunk are those of its first part, and then of its second part. *)
Lemma cache_in_chunks pk pv b g s :
  key_from R pk p Z b g s = key_from R (key_from R pk p X) (p + q) Y b g s /\
  value_from R pv p Z b g s = value_from R (value_from R pv p X) (p + q) Y b g s.
Proof.
  unfold key_from, value_from. rewrite HZ.
  destruct (Nat.ltb_spec s p), (Nat.ltb_spec s (p + q)), (Nat.ltb_spec (s - p) q); try lia; try done.
  by replace (s - p - q)%nat with (s - (p + q))%nat by lia.
Qed.

Lemma first_rows pk pv b t : (t < q)%nat -> out_from R pk pv p Z b t = out_from R pk pv p X b t.
Proof.
  intros Ht. unfold out_from. rewrite HZ. destruct (Nat.ltb_spec t q); [|lia]. apply cr_causal. intros g s _ Hs.
  unfold key_from, value_from. rewrite HZ. destruct (Nat.ltb_spec s p); [done|]. by destruct (Nat.ltb_spec (s - p) q); [|lia].
Qed.

Lemma second_rows pk pv b t : (q <= t)%nat ->
  out_from R pk pv p Z b t = out_from R (key_from R pk p X) (value_from R pv p X) (p + q) Y b (t - q).
Proof.
  intros Ht. unfold out_from. rewrite HZ. destruct (Nat.ltb_spec t q); [lia|].
  replace (p + q + (t - q))%nat with (p + t)%nat by lia. apply cr_causal. intros g s _ _. apply cache_in_chunks.
Qed.
End chunks.

(** A program that computes rows can process a chunk in two parts: outputs and cache are those of the whole. *)
Lemma computes_in_chunks bsz p q1 q2 (x y z : Tensor) past w :
  computes -> (forall kv w, accepts q2 (Some kv) w) -> accepts q1 past w -> accepts (q1 + q2)%nat past w -> inv bsz w -> cache_shapes bsz (cr_heads R) p (cr_head_dim R) past ->
  shape x = [bsz; q1; d] -> shape y = [bsz; q2; d] -> cat 1 x y = Ok z ->
  exists w1 w2 w3 ox oy oz o kx vx ky vy kz vz,
    F z past w = Some (w1, Ok (oz, Some (kz, vz))) /\
    F x past w = Some (w2, Ok (ox, Some (kx, vx))) /\
    F y (Some (kx, vx)) w2 = Some (w3, Ok (oy, Some (ky, vy))) /\
    cat 1 ox oy = Ok o /\ oz ≡t o /\ kz ≡t ky /\ vz ≡t vy.
Proof.
  intros HF Hacc Hap Hap' Hw Hpast Hx Hy Hz. destruct (cat1_rows _ _ _ _ _ _ Hx Hy) as (z' & Hz' & Hzs & Hzr).
  rewrite Hz in Hz'. injection Hz' as <-. pose proof (bloom_cache_rows _ _ _ _ _ Hpast) as Hcache.
  destruct (HF bsz p _ z past _ _ w Hzs Hcache Hap' Hw) as (w1 & oz & kz & vz & Hrz & _ & Hozs & Hozr & Hkz).
  destruct (HF bsz p _ x past _ _ w Hx Hcache Hap Hw) as (w2 & ox & kx & vx & Hrx & Hw2 & Hoxs & Hoxr & Hkx).
  destruct (HF bsz _ _ y _ _ _ w2 Hy Hkx (Hacc _ _) Hw2) as (w3 & oy & ky & vy & Hry & _ & Hoys & Hoyr & Hky).
  destruct (cat1_rows _ _ _ _ _ _ Hoxs Hoys) as (o & Ho & Hos & Hor).
  exists w1, w2, w3, ox, oy, oz, o, kx, vx, ky, vy, kz, vz.
  split; [done|]. split; [done|]. split; [done|]. split; [done|]. split.
  - apply (rows_teq _ _ _ _ _ Hozs Hos). intros b t Hb Ht. rewrite Hozr, Hor by done. destruct (Nat.ltb_spec t q1).
    + rewrite Hoxr by done.
      by apply (first_rows (fun b t => row x [b; t]) (fun b t => row y [b; t]) (fun b t => row z [b; t]) p q1 Hzr).
    + rewrite Hoyr by lia.
      by apply (second_rows (fun b t => row x [b; t]) (fun b t => row y [b; t]) (fun b t => row z [b; t]) p q1 Hzr).
  - replace (p + (q1 + q2))%nat with (p + q1 + q2)%nat in Hkz by lia.
    apply (bloom_cache_teq _ _ _ _ _ _ _ _ _ _ _ _ Hkz Hky). intros b g s _ _ _.
    apply (cache_in_chunks (fun b t => row x [b; t]) (fun b t => row y [b; t]) (fun b t => row z [b; t]) p q1 Hzr).
Qed.

(** *** Refinement of the module *)

(** Hidden states and caches as the columns and slots of the module. *)
Definition columns (bsz q : nat) (x : Tensor) : list (list (list num)) :=
  (fun t => (fun b => row x [b; t]) <$> seq 0 bsz) <$> seq 0 q.

Definition slots (bsz p : nat) (f : nat -> nat -> nat -> list num) : list (list (list (list num))) :=
  (fun s => (fun b => (fun g => f b g s) <$> seq 0 (cr_heads R)) <$> seq 0 bsz) <$> seq 0 p.

Definition cache_slots (bsz p : nat) (kv : Tensor * Tensor) : list (list (list (list (list num)))) :=
  [slots bsz p (key_rows (cr_heads R) (cr_head_dim R) (Some kv)); slots bsz p (value_rows (cr_heads R) (Some kv))].

Lemma imap_seq {A B} (h : nat -> A -> B) (f : nat -> A) n : imap h (f <$> seq 0 n) = (fun i => h i (f i)) <$> seq 0 n.
Proof.
  apply list_eq. intros i. rewrite list_lookup_imap, !list_lookup_fmap. destruct (decide (i < n)%nat).
  - by rewrite lookup_seq_lt.
  - by rewrite !lookup_seq_ge by lia.
Qed.

Lemma slots_ext bsz p f f' :
  (forall b g s, (b < bsz)%nat -> (g < cr_heads R)%nat -> (s < p)%nat -> f b g s = f' b g s) -> slots bsz p f = slots bsz p f'.
Proof.
  intros H. unfold slots. apply map_ext_in. intros s Hs%in_seq. apply map_ext_in. intros b Hb%in_seq.
  apply map_ext_in. intros g Hg%in_seq. apply H; lia.
Qed.

Lemma slots_length bsz p f : length (slots bsz p f) = p.
Proof. unfold slots. by rewrite length_fmap, length_seq. Qed.

Lemma slot_row_slots bsz p f b g s : (b < bsz)%nat -> (g < cr_heads R)%nat -> (s < p)%nat -> slot_row (slots bsz p f) b g s = f b g s.
Proof. intros Hb Hg Hs. unfold slot_row, slots. by rewrite !nth_seq_map by done. Qed.

(** The slots of a chunk, after those of the past. *)
Lemma slots_extend bsz p q (x : Tensor) f (cr : nat -> list num -> nat -> list num) :
  slots bsz p f ++ new_slots (cr_heads R) p cr (columns bsz q x) =
  slots bsz (p + q) (fun b g s => if (s <? p)%nat then f b g s else cr s (row x [b; (s - p)%nat]) g).
Proof.
  unfold slots, new_slots, columns. rewrite seq_app, fmap_app, imap_seq. f_equal.
  - apply map_ext_in. intros s Hs%in_seq. by destruct (Nat.ltb_spec s p); [|lia].
  - cbn [Nat.add]. rewrite (seq_from p q), <- list_fmap_compose. apply map_ext. intros t. cbn [compose]. unfold col_slot.
    rewrite <- list_fmap_compose. apply map_ext. intros b. cbn [compose].
    destruct (Nat.ltb_spec (p + t) p); [lia|]. by replace (p + t - p)%nat with t by lia.
Qed.

(** A program that computes rows refines the module of the rows: hidden states and caches of PyTorch on one side,
    columns and slots of the backend on the other. *)
Lemma computes_refines bsz p q (x : Tensor) kv w :
  computes -> accepts q (Some kv) w -> inv bsz w -> cache_shapes bsz (cr_heads R) p (cr_head_dim R) (Some kv) -> shape x = [bsz; q; d] ->
  exists w' o kv', F x (Some kv) w = Some (w', Ok (o, Some kv')) /\ inv bsz w' /\
    cache_shapes bsz (cr_heads R) (p + q) (cr_head_dim R) (Some kv') /\
    rows_forward R (cache_slots bsz p kv) (columns bsz q x) = (columns bsz q o, cache_slots bsz (p + q) kv').
Proof.
  intros HF Hacc Hw Hpast Hx. pose proof (bloom_cache_rows _ _ _ _ _ Hpast) as Hcache.
  destruct (HF bsz p q x _ _ _ w Hx Hcache Hacc Hw) as (w' & o & k & v & Hrun & Hw' & Hos & Hor & Hk & Hv & Hkr & Hvr).
  exists w', o, (k, v). split; [done|]. split; [done|]. split; [done|].
  unfold rows_forward, cache_slots. rewrite !slots_length, Nat.eqb_refl, !slots_extend.
  set (K := fun b g s => if (s <? p)%nat then _ else cr_key R s _ g).
  set (V := fun b g s => if (s <? p)%nat then _ else cr_value R s _ g).
  f_equal; [|f_equal; [|f_equal]; apply slots_ext; intros b g s Hb Hg Hs; [by rewrite <- Hkr|by rewrite <- Hvr]].
  unfold row_outputs, columns. rewrite imap_seq. apply map_ext_in. intros t Ht%in_seq. rewrite imap_seq. apply map_ext_in.
  intros b Hb%in_seq. rewrite Hor by lia. unfold out_from. apply cr_causal. intros g s Hg Hs. by rewrite !slot_row_slots by lia.
Qed.
End computes.
End programs.
