(* ===== verification/CudaGraphs.v ===== *)
(** * CudaGraphs: [utils/cuda_graphs.py]

    A callable recorded as a CUDA graph runs on the memory of the sample arguments it was recorded with: a call
    copies its arguments there, replays the kernels and returns the memory of the outputs, which the next call
    overwrites.  The state of a graph is what that memory holds; what a call returns are references to it, and a tensor
    that a caller holds is either its own or such a reference, read when it is used. *)

From S2P Require Import Prelude Effects Tensors Numerics.

Section cuda_graphs.
Context {A : Type}.
Abbreviation Tensor := (tensor A).

(** [static.copy_(t)]: [t] is broadcast to the shape of [static]. *)
Fixpoint fits (s s' : list nat) : bool :=
  match s, s' with
  | [], [] => true
  | n :: s, m :: s' => ((m =? n) || (m =? 1))%nat && fits s s'
  | _, _ => false
  end.

Definition copy_ (static t : Tensor) : result Tensor :=
  let extra := (length (shape static) - length (shape t))%nat in
  if fits (drop extra (shape static)) (shape t)
  then Ok (mkTensor (shape static) (fun idx => at_ t (clip_idx (shape t) (drop extra idx))))
  else Err RuntimeError.

(** What the memory of a recorded graph holds. *)
Record graphed := mkGraphed {
  ga_inputs : list Tensor;         (* static_input_surface *)
  ga_outputs : list Tensor;        (* static_outputs *)
}.

(** The copies of [replay_graph]: a failed copy leaves the earlier ones done; extra arguments are not looked at. *)
Fixpoint copy_inputs (static inputs : list Tensor) : list Tensor * result unit :=
  match static, inputs with
  | [], _ => ([], Ok ())
  | s :: ss, [] => (s :: ss, Err IndexError)
  | s :: ss, t :: ts =>
      match copy_ s t with
      | Err e => (s :: ss, Err e)
      | Ok s' => let '(ss', r) := copy_inputs ss ts in (s' :: ss', r)
      end
  end.

Section callable.
Context (callable : list Tensor -> result (list Tensor)).

(** [autocast]: autocasting is enabled, and its cache. *)
Definition make_inference_graphed_callable (is_module autocast autocast_cache : bool) (sample_args : list Tensor) : result graphed :=
  _ ← assert_ (negb is_module);
  _ ← raise_if (autocast && autocast_cache) RuntimeError;
  outputs ← callable sample_args;
  Ok (mkGraphed sample_args outputs).

(** [tuple(o.detach() for o in static_outputs)]: the tensors that are returned share the memory of the static outputs,
    so they are named by their positions there. *)
Definition replay_graph (g : graphed) (inputs : list Tensor) : graphed * result (list nat) :=
  let '(static, r) := copy_inputs (ga_inputs g) inputs in
  match r with
  | Err e => (mkGraphed static (ga_outputs g), Err e)
  | Ok _ =>
      match callable static with
      | Ok outputs => (mkGraphed static outputs, Ok (seq 0 (length outputs)))
      | Err e => (mkGraphed static (ga_outputs g), Err e)
      end
  end.

(** The pattern of the blocks: record the graph at the first call, then call it. *)
Definition lazy_graphed (g : option graphed) (inputs : list Tensor) : option graphed * result (list nat) :=
  match (match g with Some g => Ok g | None => make_inference_graphed_callable false false false inputs end) with
  | Err e => (g, Err e)
  | Ok g' => let '(g', r) := replay_graph g' inputs in (Some g', r)
  end.
End callable.

(** What a static output holds now. *)
Definition read_output (g : option graphed) (j : nat) : result Tensor :=
  match g with Some g => get_or IndexError (ga_outputs g !! j) | None => Err IndexError end.

(** ** Tensors that share the memory of a graph

    [S] is the state of a module with graphs.  A tensor is the caller's own, or (a view of) the static output of a
    graph. *)
Inductive held (S : Type) :=
  | Own (t : Tensor)
  | Static (memory : S -> result Tensor).
Arguments Own {S} t.
Arguments Static {S} memory.

Section held.
Context {S : Type}.

Definition deref (s : S) (h : held S) : result Tensor := match h with Own t => Ok t | Static memory => memory s end.

Definition read_held (h : held S) : prog S Tensor := fun s => Some (s, deref s h).

(** A view ([view], [permute], [transpose]): it fails at once if the shape does not fit, and shares the memory. *)
Definition view_of (f : Tensor -> result Tensor) (h : held S) : prog S (held S) :=
  match h with
  | Own t => t' ← lift (f t); ret (Own t')
  | Static memory => t ← read_held h; _ ← lift (f t); ret (Static (fun s => t ← memory s; f t))
  end.

(** A call of the graph that the attribute [get] of a module holds. *)
Definition call_graph (get : S -> option graphed) (set : option graphed -> S -> S) (callable : list Tensor -> result (list Tensor))
    (args : list Tensor) : prog S (list (held S)) := fun s =>
  let '(g, r) := lazy_graphed callable (get s) args in
  Some (set g s, match r with Ok refs => Ok ((fun j => Static (fun s => read_output (get s) j)) <$> refs) | Err e => Err e end).

(** The tensors of a tuple, read at once. *)
Fixpoint read_all (l : list (held S)) : prog S (list Tensor) :=
  match l with
  | [] => ret []
  | h :: l' => t ← read_held h; ts ← read_all l'; ret (t :: ts)
  end.
End held.

(** ** Copies *)

Lemma fits_refl s : fits s s = true.
Proof. induction s as [|n s IH]; [done|]. simpl. by rewrite Nat.eqb_refl, IH. Qed.

Lemma copy_same static t : shape static = shape t -> exists static', copy_ static t = Ok static' /\ static' ≡t t.
Proof.
  intros Hs. unfold copy_. rewrite Hs, Nat.sub_diag. cbn [drop]. rewrite fits_refl. eexists. split; [done|].
  split; [done|]. cbn [shape at_]. intros idx Hi. rewrite drop_0. by rewrite clip_idx_same.
Qed.

Lemma copy_shape static t static' : copy_ static t = Ok static' -> shape static' = shape static.
Proof. unfold copy_. destruct (fits _ _); [|done]. by intros [= <-]. Qed.

Lemma copy_inputs_same static inputs :
  Forall2 (fun s t => shape s = shape t) static inputs ->
  exists static', copy_inputs static inputs = (static', Ok ()) /\ Forall2 teq static' inputs.
Proof.
  induction 1 as [|s t ss ts Hs _ (ss' & Hr & Hall)]; [by exists []|].
  destruct (copy_same s t Hs) as (s' & Hc & Ht). exists (s' :: ss'). cbn [copy_inputs]. rewrite Hc, Hr.
  split; [done|]. by constructor.
Qed.

Lemma copy_inputs_shapes static inputs static' r :
  copy_inputs static inputs = (static', r) -> shape <$> static' = shape <$> static.
Proof.
  revert inputs static' r. induction static as [|s ss IH]; intros [|t ts] static' r; cbn [copy_inputs]; try by intros [= <- _].
  destruct (copy_ s t) as [s'|] eqn:Ec; [|by intros [= <- _]].
  destruct (copy_inputs ss ts) as [ss' r'] eqn:E. intros [= <- _]. rewrite !fmap_cons. by rewrite (copy_shape _ _ _ Ec), (IH _ _ _ E).
Qed.

(** ** Calls *)

Section calls.
Context (callable : list Tensor -> result (list Tensor)).
Context (callable_teq : forall l l' out, Forall2 teq l l' -> callable l = Ok out ->
  exists out', callable l' = Ok out' /\ Forall2 teq out out').

(** A graph that is recorded was recorded with arguments of these shapes. *)
Definition recorded_for (g : option graphed) (shapes : list (list nat)) : Prop :=
  match g with Some g => shape <$> ga_inputs g = shapes | None => True end.

Lemma same_shapes (static inputs : list Tensor) :
  shape <$> static = shape <$> inputs -> Forall2 (fun s t => shape s = shape t) static inputs.
Proof.
  revert inputs. induction static as [|s ss IH]; intros [|t ts] H; try done.
  rewrite !fmap_cons in H. injection H as H1 H2. constructor; [done|by apply IH].
Qed.

(** With arguments of the recorded shapes a graph gives what the callable gives. *)
Lemma lazy_graphed_correct g inputs out :
  recorded_for g (shape <$> inputs) -> callable inputs = Ok out ->
  exists g', lazy_graphed callable g inputs = (Some g', Ok (seq 0 (length out))) /\ Forall2 teq out (ga_outputs g') /\
    recorded_for (Some g') (shape <$> inputs).
Proof.
  intros Hg Hout. unfold lazy_graphed.
  assert (exists g1, (match g with Some g => Ok g | None => make_inference_graphed_callable callable false false false inputs end) = Ok g1 /\
    shape <$> ga_inputs g1 = shape <$> inputs) as (g1 & -> & Hs).
  { destruct g as [g1|]; [by exists g1|]. exists (mkGraphed inputs out). unfold make_inference_graphed_callable. cbn.
    rewrite Hout. by split. }
  destruct (copy_inputs_same _ _ (same_shapes _ _ Hs)) as (static & Hc & Ht). unfold replay_graph. rewrite Hc.
  assert (Ht' : Forall2 teq inputs static) by (clear -Ht; induction Ht; constructor; [by apply teq_equiv|done]).
  destruct (callable_teq _ _ _ Ht' Hout) as (out' & -> & Hteq). exists (mkGraphed static out').
  split; [by rewrite (Forall2_length _ _ _ Hteq)|]. split; [done|]. cbn. by rewrite (copy_inputs_shapes _ _ _ _ Hc).
Qed.

(** After such a call the memory of the inputs holds the arguments. *)
Lemma lazy_graphed_memory g inputs g' out :
  recorded_for g (shape <$> inputs) -> lazy_graphed callable g inputs = (Some g', Ok out) -> Forall2 teq (ga_inputs g') inputs.
Proof.
  intros Hg. unfold lazy_graphed.
  destruct (match g with Some g => Ok g | None => _ end) as [g1|] eqn:E; [|by intros [= _ ?]].
  assert (Hs : shape <$> ga_inputs g1 = shape <$> inputs).
  { destruct g as [g2|]; [by injection E as <-|]. unfold make_inference_graphed_callable in E. cbn in E.
    destruct (callable inputs); [by injection E as <-|done]. }
  destruct (copy_inputs_same _ _ (same_shapes _ _ Hs)) as (static & Hc & Ht). unfold replay_graph. rewrite Hc.
  destruct (callable static); [|done]. by intros [= <- _].
Qed.

Lemma read_outputs (pre outs : list Tensor) :
  mapR (fun j => get_or IndexError ((pre ++ outs) !! j)) (seq (length pre) (length outs)) = Ok outs.
Proof.
  revert pre. induction outs as [|o outs IH]; intros pre; [done|]. cbn [length seq mapR]. rewrite list_lookup_middle by done.
  cbn [get_or mbind result_bind]. specialize (IH (pre ++ [o])). rewrite <- app_assoc, length_app, Nat.add_1_r in IH. cbn [app] in IH.
  by rewrite IH.
Qed.

(** What a call returns is what the callable gives, until the next call: then the same tensors hold what that call
    returns. *)
Lemma later_call_overwrites g in1 in2 out1 out2 :
  recorded_for g (shape <$> in1) -> shape <$> in2 = shape <$> in1 -> callable in1 = Ok out1 -> callable in2 = Ok out2 ->
  length out2 = length out1 ->
  exists g1 g2 refs, lazy_graphed callable g in1 = (Some g1, Ok refs) /\ lazy_graphed callable (Some g1) in2 = (Some g2, Ok refs) /\
    exists now later, mapR (read_output (Some g1)) refs = Ok now /\ Forall2 teq out1 now /\
      mapR (read_output (Some g2)) refs = Ok later /\ Forall2 teq out2 later.
Proof.
  intros Hg Hs H1 H2 Hl. destruct (lazy_graphed_correct g in1 out1 Hg H1) as (g1 & Hr1 & Ho1 & Hg1). rewrite <- Hs in Hg1.
  destruct (lazy_graphed_correct (Some g1) in2 out2 Hg1 H2) as (g2 & Hr2 & Ho2 & _). rewrite Hl in Hr2.
  assert (Hread : forall (g : graphed), length (ga_outputs g) = length out1 ->
    mapR (read_output (Some g)) (seq 0 (length out1)) = Ok (ga_outputs g)).
  { intros g0 <-. apply (read_outputs [] (ga_outputs g0)). }
  exists g1, g2, (seq 0 (length out1)). split; [done|]. split; [done|]. exists (ga_outputs g1), (ga_outputs g2).
  pose proof (Forall2_length _ _ _ Ho1). pose proof (Forall2_length _ _ _ Ho2). split; [apply Hread; lia|]. split; [done|].
  split; [apply Hread; lia|done].
Qed.

(** A call from a module *)
Lemma call_graph_spec {S} (get : S -> option graphed) (set : option graphed -> S -> S) args out s :
  recorded_for (get s) (shape <$> args) -> callable args = Ok out ->
  exists g, call_graph get set callable args s =
      Some (set (Some g) s, Ok ((fun j => Static (fun s => read_output (get s) j)) <$> seq 0 (length out))) /\
    lazy_graphed callable (get s) args = (Some g, Ok (seq 0 (length out))) /\
    Forall2 teq out (ga_outputs g) /\ recorded_for (Some g) (shape <$> args).
Proof.
  intros Hg Hout. destruct (lazy_graphed_correct (get s) args out Hg Hout) as (g & Hrun & Ho & Hrec). exists g.
  unfold call_graph. by rewrite Hrun.
Qed.

Lemma read_all_outputs {S} (get : S -> option graphed) (s : S) (g : graphed) : get s = Some g ->
  read_all ((fun j => Static (fun s => read_output (get s) j)) <$> seq 0 (length (ga_outputs g))) s = Some (s, Ok (ga_outputs g)).
Proof.
  intros Hg. assert (Hgen : forall pre outs, ga_outputs g = pre ++ outs ->
    read_all ((fun j => Static (fun s => read_output (get s) j)) <$> seq (length pre) (length outs)) s = Some (s, Ok outs)); [|by apply (Hgen [])].
  intros pre outs. revert pre. induction outs as [|o outs IH]; intros pre Ho; [done|]. cbn [length seq fmap list_fmap read_all].
  rewrite (bind_ok _ _ s s o).
  2: { unfold read_held. cbn [deref]. rewrite Hg. cbn [read_output]. by rewrite Ho, list_lookup_middle by done. }
  rewrite (bind_ok _ _ s s outs); [done|]. specialize (IH (pre ++ [o])). rewrite length_app, Nat.add_1_r in IH. apply IH.
  by rewrite <- app_assoc.
Qed.

(** A call whose outputs are read before the next one *)
Lemma call_and_read {S} (get : S -> option graphed) (set : option graphed -> S -> S) args out s :
  (forall g s, get (set g s) = g) -> recorded_for (get s) (shape <$> args) -> callable args = Ok out ->
  exists g, (l ← call_graph get set callable args; read_all l) s = Some (set (Some g) s, Ok (ga_outputs g)) /\
    lazy_graphed callable (get s) args = (Some g, Ok (seq 0 (length out))) /\
    Forall2 teq out (ga_outputs g) /\ recorded_for (Some g) (shape <$> args).
Proof.
  intros Hgs Hg Hout. destruct (call_graph_spec get set args out s Hg Hout) as (g & Hrun & Hl & Ho & Hrec). exists g.
  split; [|done]. rewrite (bind_ok _ _ _ _ _ Hrun), (Forall2_length _ _ _ Ho). by apply read_all_outputs.
Qed.
End calls.
End cuda_graphs.

#[global] Arguments held A S : clear implicits.
#[global] Arguments Own {A S} t.
#[global] Arguments Static {A S} memory.

(** ** Other shapes *)

(** A graph recorded for a batch of two: with a batch of one every result has two rows, and a batch of three fails. *)
Definition double (l : list (tensor nat)) : result (list (tensor nat)) :=
  Ok ((fun t => mkTensor (shape t) (fun idx => 2 * at_ t idx)%nat) <$> l).

Definition batch_of (n : nat) : tensor nat := mkTensor [n; 1%nat] (fun idx => S (coord 0 idx)).

Lemma graph_keeps_batch :
  let '(g, r2) := lazy_graphed double None [batch_of 2] in
  let s2 := shape <$> default [] (ga_outputs <$> g) in
  let '(g, r1) := lazy_graphed double g [batch_of 1] in
  let s1 := shape <$> default [] (ga_outputs <$> g) in
  let '(g, r3) := lazy_graphed double g [batch_of 3] in
  r2 = Ok [0%nat] /\ s2 = [[2; 1]]%nat /\ r1 = Ok [0%nat] /\ s1 = [[2; 1]]%nat /\ r3 = Err RuntimeError.
Proof. vm_compute. done. Qed.
