(* ===== verification/LlamaBlock.v ===== *)
(** * LlamaBlock: [models/llama/block.py]

    The attention of a LLaMA block with its key/value cache, the optimised decoder layer, and the wrapper that
    converts the cache between the layout of the servers (that of BLOOM) and that of LLaMA.  What comes from
    [transformers] is the class [LlamaLibrary]; the captured graphs are the state of the programs.  The keys of a cache
    are tensors that may share the memory of the rotary graph (CudaGraphs.v): so are the keys of a single token on a GPU
    when there is no past to concatenate them with. *)

From S2P Require Import Prelude Effects Tensors Numerics CudaGraphs.

(** [rotate_half] and the norms and the MLP act on the last dimension; the rotary embedding gives one row of cosines
    and sines per position; [repeat_kv] repeats every head, and the causal mask of [_prepare_4d_causal_attention_mask]
    for a mask of ones lets the token [t] of the chunk see the positions up to [past + t]. *)
Class LlamaLibrary {NU : Numbers} := {
  rotate_half : list num -> list num;
  rotary_cos : nat -> nat -> num;
  rotary_sin : nat -> nat -> num;
  inv_sqrt : nat -> num -> num;                          (* x / math.sqrt(head_dim) *)
  repeat_kv : tensor num -> nat -> tensor num;
  prepare_4d_causal_attention_mask : nat -> nat -> nat -> tensor num;       (* batch, chunk, past *)
  repeat_kv_spec : forall t n b g s d, shape t = [b; g; s; d] ->
    shape (repeat_kv t n) = [b; g * n; s; d]%nat /\
    forall i h j k, at_ (repeat_kv t n) [i; h; j; k] = at_ t [i; h / n; j; k]%nat;
  causal_mask_spec : forall b q p,
    shape (prepare_4d_causal_attention_mask b q p) = [b; 1; q; p + q]%nat /\
    forall i t s, (i < b)%nat -> (t < q)%nat -> (s < p + q)%nat ->
      at_ (prepare_4d_causal_attention_mask b q p) [i; 0; t; s]%nat = if (s <=? p + t)%nat then zero else finfo_min;
}.

Section llama.
Context {NU : Numbers} {LL : LlamaLibrary}.
Abbreviation Tensor := (tensor num).

(** A linear layer: its weight, and what calling it does with a row. *)
Record linear_module := mkLinear {
  lm_weight : Tensor;
  lm_out : nat;
  lm_row : list num -> list num;
}.

Definition call_linear (m : linear_module) (x : Tensor) : Tensor := on_rows (lm_out m) (lm_row m) x.

Record LlamaAttention := mkLlamaAttention {
  num_heads : nat;
  num_key_value_heads : nat;
  num_key_value_groups : nat;
  head_dim : nat;
  hidden_size : nat;
  pretraining_tp : nat;
  q_proj : linear_module;
  k_proj : linear_module;
  v_proj : linear_module;
  o_proj : linear_module;
}.

(** The graphs of a layer. *)
Record llama_graphs := mkGraphs {
  rotary_graph : option (@graphed num);
  pre_attn_graph : option (@graphed num);
  post_attn_graph : option (@graphed num);
}.

Definition set_rotary (g : option graphed) (w : llama_graphs) : llama_graphs := mkGraphs g (pre_attn_graph w) (post_attn_graph w).
Definition set_pre_attn (g : option graphed) (w : llama_graphs) : llama_graphs := mkGraphs (rotary_graph w) g (post_attn_graph w).
Definition set_post_attn (g : option graphed) (w : llama_graphs) : llama_graphs := mkGraphs (rotary_graph w) (pre_attn_graph w) g.

(** ** Rotary embeddings *)

Definition rotate (x cos sin : Tensor) : result Tensor :=
  c ← elementwise mul x cos;
  s ← elementwise mul (on_rows (List.last (shape x) 0%nat) rotate_half x) sin;
  elementwise add c s.

Definition apply_rotary_pos_emb (q k cos sin : Tensor) : result (Tensor * Tensor) :=
  q_embed ← rotate q cos sin;
  k_embed ← rotate k cos sin;
  Ok (q_embed, k_embed).

Definition apply_rotary_callable (l : list Tensor) : result (list Tensor) :=
  match l with
  | [q; k; cos; sin] => '(q, k) ← apply_rotary_pos_emb q k cos sin; Ok [q; k]
  | _ => Err TypeError
  end.

(** Tensors that the caller owns or that share the memory of a graph of the layer. *)
Abbreviation Held := (held num llama_graphs).

Definition _optimized_apply_rotary (q k cos sin : Tensor) : prog llama_graphs (Held * Held) :=
  l ← call_graph rotary_graph set_rotary apply_rotary_callable [q; k; cos; sin];
  match l with [q; k] => ret (q, k) | _ => raise ValueError end.

(** [self.rotary_emb(...)] for the given positions, with a dimension for the heads ([unsqueeze(1)]). *)
Definition rotary_emb (hd : nat) (position_ids : list nat) : Tensor * Tensor :=
  let emb f := mkTensor [1; 1; length position_ids; hd]%nat (fun idx => f (nth (coord 2 idx) position_ids 0%nat) (coord 3 idx)) in
  (emb rotary_cos, emb rotary_sin).

(** ** Attention *)

(** [torch.cat(l, dim=d)] *)
Definition cat_all (d : nat) (l : list Tensor) : result Tensor :=
  match l with [] => Err RuntimeError | t :: l' => foldR (cat d) t l' end.

(** [[F.linear(x, slices[i]) for i in range(tp)]] *)
Definition linear_slices (tp : nat) (xs slices : list Tensor) : result (list Tensor) :=
  mapR (fun i => x ← get_or IndexError (xs !! i); w ← get_or IndexError (slices !! i); f_linear x w) (seq 0 tp).

(** A projection to [n] numbers, in [pretraining_tp] slices of the weight. *)
Definition project (tp n : nat) (m : linear_module) (x : Tensor) : result Tensor :=
  if (1 <? tp)%nat then
    slices ← t_split (n / tp) 0 (lm_weight m);
    states ← linear_slices tp (replicate tp x) slices;
    cat_all 2 states
  else Ok (call_linear m x).

(** [sum(l)] of tensors: 0 is neutral. *)
Definition sum_all (l : list Tensor) : result Tensor :=
  match l with [] => Err TypeError | t :: l' => foldR (elementwise add) t l' end.

Definition project_out (a : LlamaAttention) (x : Tensor) : result Tensor :=
  let tp := pretraining_tp a in
  if (1 <? tp)%nat then
    parts ← t_split (hidden_size a / tp) 2 x;
    slices ← t_split (hidden_size a / tp) 1 (lm_weight (o_proj a));
    outs ← linear_slices tp parts slices;
    sum_all outs
  else Ok (call_linear (o_proj a) x).

(** [states.view(bsz, q_len, heads, head_dim).transpose(1, 2)] *)
Definition split_heads (bsz q_len heads hd : nat) (x : Tensor) : result Tensor :=
  x ← view [bsz; q_len; heads; hd] x;
  transpose12 x.

(** [torch.cat([past, states], dim=2)] *)
Definition append_past (past : option Tensor) (states : Tensor) : result Tensor :=
  match past with Some p => cat 2 p states | None => Ok states end.

(** The same for keys: the past and the new keys are read now, and the result is new memory. *)
Definition append_keys (past : option Held) (states : Held) : prog llama_graphs Held :=
  match past with
  | Some p => p ← read_held p; states ← read_held states; t ← lift (cat 2 p states); ret (Own t)
  | None => ret states
  end.

Definition dims3 (x : Tensor) : result (nat * nat * nat) :=
  match shape x with [b; t; d] => Ok (b, t, d) | _ => Err ValueError end.

(** [x.shape[d]] *)
Definition size (x : Tensor) (d : nat) : result nat := get_or IndexError (shape x !! d).

(** [past[0].shape[d]], 0 when there is no past *)
Definition held_length (past : option (Held * Tensor)) (d : nat) : prog llama_graphs nat :=
  match past with Some (k, _) => k ← read_held k; lift (size k d) | None => ret 0%nat end.

(** The weights of attention and the values they select. *)
Definition attend (a : LlamaAttention) (query_states key_states value_states : Tensor) (attention_mask : option Tensor)
    : result Tensor :=
  let key_states := repeat_kv key_states (num_key_value_groups a) in
  let value_states := repeat_kv value_states (num_key_value_groups a) in
  kt ← transpose23 key_states;
  attn_weights ← matmul4 query_states kt;
  let attn_weights := t_map (inv_sqrt (head_dim a)) attn_weights in
  attn_weights ← match attention_mask with Some m => elementwise add attn_weights m | None => Ok attn_weights end;
  let attn_weights := on_rows (List.last (shape attn_weights) 0%nat) softmax attn_weights in
  matmul4 attn_weights value_states.

(** [OptimizedLlamaAttention.forward]; [cuda]: inference mode on a GPU. *)
Definition attention_forward (a : LlamaAttention) (cuda : bool) (hidden_states : Tensor) (attention_mask : option Tensor)
    (position_ids : option (list nat)) (past_key_value : option (Held * Tensor)) (output_attentions use_cache : bool)
    : prog llama_graphs (Tensor * option (Held * Tensor)) :=
  _ ← lift (assert_ (negb output_attentions));
  position_ids ← match position_ids with
                 | Some p => ret p
                 | None =>
                     past_seen_tokens ← held_length past_key_value 2;
                     len ← lift (size hidden_states 1);
                     ret (seq past_seen_tokens len)
                 end;
  '(bsz, q_len, _) ← lift (dims3 hidden_states);
  let tp := pretraining_tp a in
  query_states ← lift (project tp (num_heads a * head_dim a) (q_proj a) hidden_states);
  key_states ← lift (project tp (num_key_value_heads a * head_dim a) (k_proj a) hidden_states);
  value_states ← lift (project tp (num_key_value_heads a * head_dim a) (v_proj a) hidden_states);
  query_states ← lift (split_heads bsz q_len (num_heads a) (head_dim a) query_states);
  key_states ← lift (split_heads bsz q_len (num_key_value_heads a) (head_dim a) key_states);
  value_states ← lift (split_heads bsz q_len (num_key_value_heads a) (head_dim a) value_states);
  let '(cos, sin) := rotary_emb (head_dim a) position_ids in
  '(query_states, key_states) ←
    (if (q_len =? 1)%nat && cuda then _optimized_apply_rotary query_states key_states cos sin
     else '(q, k) ← lift (apply_rotary_pos_emb query_states key_states cos sin); ret (Own q, Own k));
  key_states ← append_keys (fst <$> past_key_value) key_states;
  value_states ← lift (append_past (snd <$> past_key_value) value_states);
  let present := if use_cache then Some (key_states, value_states) else None in
  query_states ← read_held query_states;
  key_states ← read_held key_states;
  attn_output ← lift (attend a query_states key_states value_states attention_mask);
  attn_output ← lift (transpose12 attn_output);
  attn_output ← lift (view [bsz; q_len; hidden_size a] attn_output);
  attn_output ← lift (project_out a attn_output);
  ret (attn_output, present).

(** ** The decoder layer *)

(** The norms and the MLP of the layer, on one row of the hidden states. *)
Record LlamaDecoderLayer := mkLlamaLayer {
  self_attn : LlamaAttention;
  input_layernorm : list num -> list num;
  post_attention_layernorm : list num -> list num;
  mlp : list num -> list num;
}.

(** [self.input_layernorm.forward] and its siblings: the shape stays. *)
Definition rowwise (f : list num -> list num) (x : Tensor) : Tensor := on_rows (List.last (shape x) 0%nat) f x.

Definition norm_callable (f : list num -> list num) (l : list Tensor) : result (list Tensor) :=
  match l with [x] => Ok [rowwise f x] | _ => Err TypeError end.

Definition run_norm (get : llama_graphs -> option graphed) (set : option graphed -> llama_graphs -> llama_graphs)
    (f : list num -> list num) (cuda : bool) (x : Tensor) : prog llama_graphs Tensor :=
  n ← lift (size x 1);
  if (n =? 1)%nat && cuda then
    l ← call_graph get set (norm_callable f) [x];
    match l with [y] => read_held y | _ => raise TypeError end
  else ret (rowwise f x).

Definition _optimized_input_layernorm := run_norm pre_attn_graph set_pre_attn.
Definition _optimized_output_layernorm := run_norm post_attn_graph set_post_attn.

(** [OptimizedLlamaDecoderLayer.forward] *)
Definition layer_forward (l : LlamaDecoderLayer) (cuda : bool) (hidden_states : Tensor) (attention_mask : option Tensor)
    (position_ids : option (list nat)) (past_key_value : option (Held * Tensor)) (output_attentions use_cache : bool)
    : prog llama_graphs (Tensor * option (Held * Tensor)) :=
  let residual := hidden_states in
  hidden_states ← _optimized_input_layernorm (input_layernorm l) cuda hidden_states;
  '(hidden_states, present_key_value) ←
    attention_forward (self_attn l) cuda hidden_states attention_mask position_ids past_key_value output_attentions use_cache;
  hidden_states ← lift (elementwise add residual hidden_states);
  let residual := hidden_states in
  hidden_states ← _optimized_output_layernorm (post_attention_layernorm l) cuda hidden_states;
  let hidden_states := rowwise (mlp l) hidden_states in
  hidden_states ← lift (elementwise add residual hidden_states);
  ret (hidden_states, present_key_value).

(** ** The wrapped block *)

(** [key_states.permute(0, 2, 1)] *)
Definition permute021 (x : Tensor) : result Tensor := if (length (shape x) =? 3)%nat then transpose12 x else Err RuntimeError.

Definition _reorder_cache_from_bloom_to_llama (a : LlamaAttention) (key_value : Held * Tensor) (batch_size seq_length : nat)
    : prog llama_graphs (Held * Tensor) :=
  let '(key_states, value_states) := key_value in
  key_states ← view_of permute021 key_states;
  key_states ← view_of (view [batch_size; num_key_value_heads a; seq_length; head_dim a]) key_states;
  k ← read_held key_states;
  value_states ← lift (view (shape k) value_states);
  ret (key_states, value_states).

Definition _reorder_cache_from_llama_to_bloom (a : LlamaAttention) (key_value : Held * Tensor) (batch_size seq_length : nat)
    : prog llama_graphs (Held * Tensor) :=
  let '(key_states, value_states) := key_value in
  value_states ← lift (view [batch_size * num_key_value_heads a; seq_length; head_dim a]%nat value_states);
  key_states ← view_of (view (shape value_states)) key_states;
  key_states ← view_of permute021 key_states;
  ret (key_states, value_states).

(** [WrappedLlamaBlock.forward], with the attention mask of ones that the servers leave out. *)
Definition block_forward (l : LlamaDecoderLayer) (cuda : bool) (hidden_states : Tensor) (position_ids : option (list nat))
    (layer_past : option (Held * Tensor)) (output_attentions use_cache : bool)
    : prog llama_graphs (Tensor * option (Held * Tensor)) :=
  '(batch_size, seq_length, _) ← lift (dims3 hidden_states);
  past_key_values_length ← held_length layer_past 2;
  let seq_length_with_past := (seq_length + past_key_values_length)%nat in
  past_key_value ← match layer_past with
                   | Some kv =>
                       kv ← _reorder_cache_from_bloom_to_llama (self_attn l) kv batch_size past_key_values_length;
                       ret (Some kv)
                   | None => ret None
                   end;
  _ ← lift (assert_ (match position_ids with None => true | Some _ => false end));
  let attention_mask := prepare_4d_causal_attention_mask batch_size seq_length past_key_values_length in
  '(hidden_states, present_key_value) ←
    layer_forward l cuda hidden_states (Some attention_mask) position_ids past_key_value output_attentions use_cache;
  present_key_value ← match present_key_value with
                      | Some kv =>
                          kv ← _reorder_cache_from_llama_to_bloom (self_attn l) kv batch_size seq_length_with_past;
                          ret (Some kv)
                      | None => ret None
                      end;
  ret (hidden_states, present_key_value).
End llama.
