(* ===== verification/LlamaCausal.v ===== *)
(** * LlamaCausal: what the attention of a LLaMA block computes

    Row by row: the queries, keys and values of a chunk at their positions after the past, and for every token and
    head the values up to that token weighed by their scores.  It follows that a chunk can be processed in two parts,
    which is what the servers rely on ([CausalModule] of Backend). *)

From S2P Require Import Prelude Effects Backend Tensors Numerics CausalRows CudaGraphs LlamaBlock.

Section llama_causal.
Context {NU : Numbers} {LL : LlamaLibrary}.
Abbreviation Tensor := (tensor num).
Abbreviation Held := (held num llama_graphs).

(** ** The operations on heads *)

Lemma split_heads_spec bsz q heads hd (x : Tensor) :
  shape x = [bsz; q; heads * hd]%nat ->
  exists y, split_heads bsz q heads hd x = Ok y /\ shape y = [bsz; heads; q; hd] /\
    forall b h t d, (b < bsz)%nat -> (h < heads)%nat -> (t < q)%nat -> (d < hd)%nat ->
      at_ y [b; h; t; d] = at_ x [b; t; h * hd + d]%nat.
Proof.
  intros Hs. unfold split_heads.
  destruct (view_ok [bsz; q; heads; hd] x) as [v Hv]; [rewrite Hs; simpl; lia|]. rewrite Hv. cbn [mbind result_bind].
  pose proof (view_shape _ _ _ Hv) as [Hvs _]. destruct (transpose12_shape v _ _ _ _ Hvs) as (y & Hy & Hys).
  exists y. split; [done|]. split; [done|]. intros b h t d Hb Hh Ht Hd. rewrite (transpose12_at _ _ _ _ _ _ Hy).
  apply (view_at _ _ _ _ _ Hv); rewrite Hs.
  - repeat (apply in_bounds_cons; split; [nia|]). by apply in_bounds_nil.
  - simpl. nia.
Qed.

(** [attn_output.transpose(1, 2).reshape(bsz, q_len, hidden_size)] *)
Lemma merge_heads_spec bsz q heads hd hidden (x : Tensor) :
  shape x = [bsz; heads; q; hd] -> hidden = (heads * hd)%nat ->
  exists y z, transpose12 x = Ok y /\ view [bsz; q; hidden] y = Ok z /\ shape z = [bsz; q; hidden] /\
    forall b t c, (b < bsz)%nat -> (t < q)%nat -> (c < hidden)%nat ->
      at_ z [b; t; c] = at_ x [b; c / hd; t; c mod hd]%nat.
Proof.
  intros Hs Hhid. destruct (transpose12_shape x _ _ _ _ Hs) as (y & Hy & Hys). exists y.
  destruct (view_ok [bsz; q; hidden] y) as [z Hz]; [rewrite Hys; simpl; lia|]. exists z.
  split; [done|]. split; [done|]. split; [by apply (view_shape _ _ _ Hz)|].
  intros b t c Hb Ht Hc. rewrite <- (transpose12_at _ _ _ _ _ _ Hy).
  subst hidden. destruct (split_coord c heads hd Hc) as (H1 & H2 & H3). apply (view_at _ _ _ _ _ Hz); rewrite Hys.
  - repeat (apply in_bounds_cons; split; [done|]). by apply in_bounds_nil.
  - cbn [ravel numel foldr]. nia.
Qed.

(** The rotary embedding of a row at a position. *)
Definition rot_row (p : nat) (r : list num) : list num :=
  (fun d => add (mul (nth d r zero) (rotary_cos p d)) (mul (nth d (rotate_half r) zero) (rotary_sin p d))) <$> seq 0 (length r).

Lemma rot_row_length p r : length (rot_row p r) = length r.
Proof. unfold rot_row. by rewrite length_fmap, length_seq. Qed.

Lemma rotate_spec bsz heads q hd ids (x : Tensor) :
  shape x = [bsz; heads; q; hd] -> length ids = q ->
  let '(cos, sin) := rotary_emb hd ids in
  exists y, rotate x cos sin = Ok y /\ shape y = [bsz; heads; q; hd] /\
    forall b h t, (b < bsz)%nat -> (h < heads)%nat -> (t < q)%nat ->
      row y [b; h; t] = rot_row (nth t ids 0%nat) (row x [b; h; t]).
Proof.
  intros Hs Hids. unfold rotary_emb, rotate. rewrite Hs. cbn [List.last].
  assert (Hfit : Forall2 (fun n m => m = n \/ m = 1%nat) [bsz; heads; q; hd] [1; 1; length ids; hd]%nat).
  { rewrite Hids. repeat constructor; by auto. }
  edestruct (elementwise_ok mul x (mkTensor [1; 1; length ids; hd]%nat
    (fun idx => rotary_cos (nth (coord 2 idx) ids 0%nat) (coord 3 idx)))) as (c & -> & Hcs & Hc); [by rewrite Hs|].
  cbn [mbind result_bind].
  edestruct (elementwise_ok mul (on_rows hd rotate_half x) (mkTensor [1; 1; length ids; hd]%nat
    (fun idx => rotary_sin (nth (coord 2 idx) ids 0%nat) (coord 3 idx)))) as (s & -> & Hss & Hsat);
    [by rewrite on_rows_shape, Hs|].
  cbn [mbind result_bind]. rewrite on_rows_shape, Hs in Hss, Hsat. cbn [removelast app] in Hss, Hsat.
  destruct (elementwise_same add c s) as (y & -> & Hys & Hy); [by rewrite Hcs, Hss|]. exists y. rewrite Hcs, Hs in Hys.
  split; [done|]. split; [done|]. intros b h t Hb Hh Ht. unfold rot_row. rewrite row_length, Hs. unfold row at 1. rewrite Hys.
  cbn [List.last]. apply map_ext_in. intros d Hd%in_seq.
  assert (Hin : in_bounds [bsz; heads; q; hd] [b; h; t; d]).
  { repeat (apply in_bounds_cons; split; [lia|]). by apply in_bounds_nil. }
  change ([b; h; t] ++ [d]) with [b; h; t; d]. rewrite Hcs, Hs in Hy. rewrite Hy, Hc, Hsat by (rewrite ?Hs; done).
  rewrite Hids. change [b; h; t; d] with ([b; h; t] ++ [d]) at 3. rewrite on_rows_at.
  rewrite row_nth by (rewrite Hs; cbn [List.last]; lia). cbn [at_ shape].
  assert (Hclip : clip_idx [1; 1; q; hd]%nat [b; h; t; d] = [0; 0; t; d]%nat).
  { unfold clip_idx. cbn [zip_with Nat.eqb]. f_equal. f_equal. destruct (Nat.eqb_spec q 1), (Nat.eqb_spec hd 1); repeat (f_equal; try lia). }
  change ([b; h; t] ++ [d]) with [b; h; t; d]. rewrite Hclip. done.
Qed.

(** ** The cache *)

(** A key or value cache of [p] positions; [f] are its rows. *)
Definition cache_of (bsz heads p hd : nat) (past : option Tensor) (f : nat -> nat -> nat -> list num) : Prop :=
  match past with
  | Some t => shape t = [bsz; heads; p; hd] /\
              forall b g s, (b < bsz)%nat -> (g < heads)%nat -> (s < p)%nat -> row t [b; g; s] = f b g s
  | None => p = 0%nat
  end.

Lemma cache_ext bsz heads p hd past f f' :
  cache_of bsz heads p hd past f ->
  (forall b g s, (b < bsz)%nat -> (g < heads)%nat -> (s < p)%nat -> f b g s = f' b g s) -> cache_of bsz heads p hd past f'.
Proof. destruct past as [x|]; [|done]. intros [Hs Hf] Heq. split; [done|]. intros b g s Hb Hg Hss. rewrite Hf by done. by apply Heq. Qed.

Lemma cat2_rows bsz heads p q hd (x y : Tensor) :
  shape x = [bsz; heads; p; hd] -> shape y = [bsz; heads; q; hd] ->
  exists z, cat 2 x y = Ok z /\ shape z = [bsz; heads; p + q; hd]%nat /\
    forall b g s, row z [b; g; s] = if (s <? p)%nat then row x [b; g; s] else row y [b; g; s - p]%nat.
Proof.
  intros Hx Hy. unfold cat. rewrite Hx, Hy. rewrite decide_True by (split; [done|simpl; lia]).
  eexists. split; [reflexivity|]. split; [done|]. intros b g s. unfold row. cbn [shape]. rewrite Hx, Hy.
  cbn [set_coord insert list_insert List.last coord nth].
  destruct (s <? p)%nat eqn:E; apply map_ext; intros d; cbn [app at_ coord nth set_coord insert list_insert]; by rewrite E.
Qed.

Lemma append_past_spec bsz heads p q hd past (f : nat -> nat -> nat -> list num) (y : Tensor) :
  cache_of bsz heads p hd past f -> shape y = [bsz; heads; q; hd] ->
  exists z, append_past past y = Ok z /\
    cache_of bsz heads (p + q) hd (Some z) (fun b g s => if (s <? p)%nat then f b g s else row y [b; g; s - p]%nat).
Proof.
  intros Hp Hy. destruct past as [x|]; cbn [cache_of append_past] in *.
  - destruct Hp as [Hx Hf]. destruct (cat2_rows _ _ _ _ _ _ _ Hx Hy) as (z & Hz & Hs & Hr). exists z. split; [done|]. split; [done|].
    intros b g s Hb Hg Hss. rewrite Hr. destruct (Nat.ltb_spec s p); [by apply Hf|done].
  - subst p. exists y. split; [done|]. split; [done|]. intros b g s _ _ _. cbn. by rewrite Nat.sub_0_r.
Qed.

(** ** Attention *)

(** What the token at position [n] reads: coordinate [d] of the values of all positions up to [n], weighed. *)
Definition read (hd n d : nat) (q : list num) (k v : nat -> list num) : num :=
  dot (softmax ((fun s => inv_sqrt hd (dot q (k s))) <$> seq 0 (S n))) ((fun s => nth d (v s) zero) <$> seq 0 (S n)).

Lemma matmul4_ok b h n k m (t u : Tensor) : shape t = [b; h; n; k] -> shape u = [b; h; k; m] ->
  exists r, matmul4 t u = Ok r /\ shape r = [b; h; n; m] /\
    forall i j x y, at_ r [i; j; x; y] = dot (row t [i; j; x]) (column u [i; j] y).
Proof. intros Ht Hu. unfold matmul4. rewrite Ht, Hu, decide_True by done. eexists. by split; [reflexivity|]. Qed.

Lemma row_of_map f (t : Tensor) p : row (t_map f t) p = f <$> row t p.
Proof. unfold row, t_map. cbn [shape at_]. by rewrite <- list_fmap_compose. Qed.

Lemma attend_spec a bsz p q (Q K V : Tensor) :
  let heads := num_heads a in let kv := num_key_value_heads a in let hd := head_dim a in let n := num_key_value_groups a in
  heads = (kv * n)%nat ->
  shape Q = [bsz; heads; q; hd] -> shape K = [bsz; kv; p + q; hd]%nat -> shape V = [bsz; kv; p + q; hd]%nat ->
  exists o, attend a Q K V (Some (prepare_4d_causal_attention_mask bsz q p)) = Ok o /\ shape o = [bsz; heads; q; hd] /\
    forall b h t d, (b < bsz)%nat -> (h < heads)%nat -> (t < q)%nat -> (d < hd)%nat ->
      at_ o [b; h; t; d] = read hd (p + t) d (row Q [b; h; t]) (fun s => row K [b; h / n; s]%nat) (fun s => row V [b; h / n; s]%nat).
Proof.
  intros heads kv hd n Hheads HQ HK HV. unfold attend. fold hd n.
  destruct (repeat_kv_spec K n _ _ _ _ HK) as [HKs HKat]. destruct (repeat_kv_spec V n _ _ _ _ HV) as [HVs HVat].
  rewrite <- Hheads in HKs, HVs. unfold transpose23. rewrite HKs. cbn [mbind result_bind].
  set (kt := mkTensor _ _). destruct (matmul4_ok bsz heads q hd (p + q) Q kt HQ eq_refl) as (w & -> & Hws & Hw).
  cbn [mbind result_bind]. destruct (causal_mask_spec bsz q p) as [Hms Hm].
  destruct (elementwise_ok add (t_map (inv_sqrt hd) w) (prepare_4d_causal_attention_mask bsz q p)) as (m & -> & Hmsh & Hmat).
  { rewrite Hms. cbn [shape t_map]. rewrite Hws. repeat (constructor; [by auto|]). constructor. }
  cbn [mbind result_bind]. cbn [shape t_map] in Hmsh, Hmat. rewrite Hws in Hmsh, Hmat. rewrite Hmsh. cbn [List.last].
  destruct (matmul4_ok bsz heads q (p + q) hd (on_rows (p + q) softmax m) (repeat_kv V n)) as (o & Ho & Hos & Hoat);
    [by rewrite on_rows_shape, Hmsh|done|].
  exists o. split; [done|]. split; [done|]. intros b h t d Hb Hh Ht Hd. rewrite Hoat.
  rewrite on_rows_row by (by rewrite softmax_length, row_length, Hmsh).
  assert (Hrow : row m [b; h; t] = (fun s => add (inv_sqrt hd (dot (row Q [b; h; t]) (row K [b; h / n; s]%nat)))
      (if (s <=? p + t)%nat then zero else finfo_min)) <$> seq 0 (p + q)).
  { unfold row at 1. rewrite Hmsh. cbn [List.last]. apply map_ext_in. intros s Hs%in_seq. cbn [app]. rewrite Hmat.
    - cbn [at_ t_map]. rewrite Hw. f_equal.
      + f_equal. f_equal. unfold column, row. rewrite HK. apply map_ext. intros e. cbn [app]. rewrite <- HKat. done.
      + rewrite Hms. unfold clip_idx. cbn [zip_with].
        replace (if (q =? 1)%nat then 0%nat else t) with t by (destruct (Nat.eqb_spec q 1); lia).
        replace (if (p + q =? 1)%nat then 0%nat else s) with s by (destruct (Nat.eqb_spec (p + q) 1); lia).
        replace (if (bsz =? 1)%nat then 0%nat else b) with b by (destruct (Nat.eqb_spec bsz 1); lia).
        apply Hm; lia.
    - repeat (apply in_bounds_cons; split; [lia|]). by apply in_bounds_nil. }
  assert (Hcol : column (repeat_kv V n) [b; h] d = (fun s => nth d (row V [b; h / n; s]%nat) zero) <$> seq 0 (p + q)).
  { unfold column. rewrite HVs. cbn [coord length nth]. apply map_ext. intros s. cbn [app]. rewrite HVat.
    rewrite row_nth by (rewrite HV; cbn [List.last]; lia). done. }
  rewrite Hrow, Hcol. unfold read. replace (p + q)%nat with (S (p + t) + (q - t - 1))%nat by lia. apply masked_dot. exact softmax_masked.
Qed.

(** ** Projections *)

(** [F] applies [f] to every row of [d] numbers; the results have [n]. *)
Definition projects (d n : nat) (F : Tensor -> result Tensor) (f : list num -> list num) : Prop :=
  forall x bsz q, shape x = [bsz; q; d] ->
    exists y, F x = Ok y /\ shape y = [bsz; q; n] /\
      forall b t, (b < bsz)%nat -> (t < q)%nat -> row y [b; t] = f (row x [b; t]).

Lemma on_rows_projects d n f : (forall r, length r = d -> length (f r) = n) -> projects d n (fun x => Ok (on_rows n f x)) f.
Proof.
  intros Hf x bsz q Hs. exists (on_rows n f x). split; [done|]. split; [by rewrite on_rows_shape, Hs|].
  intros b t _ _. apply on_rows_row. apply Hf. by rewrite row_length, Hs.
Qed.

Lemma project_whole tp d n m : (tp <= 1)%nat -> lm_out m = n -> (forall r, length r = d -> length (lm_row m r) = n) ->
  projects d n (project tp n m) (lm_row m).
Proof.
  intros Htp Hn Hf. unfold project. destruct (Nat.ltb_spec 1 tp); [lia|]. unfold call_linear. rewrite Hn. by apply on_rows_projects.
Qed.

Lemma project_out_whole a d : (pretraining_tp a <= 1)%nat -> lm_out (o_proj a) = d ->
  (forall r, length r = hidden_size a -> length (lm_row (o_proj a) r) = d) -> projects (hidden_size a) d (project_out a) (lm_row (o_proj a)).
Proof.
  intros Htp Hn Hf. unfold project_out. destruct (Nat.ltb_spec 1 (pretraining_tp a)); [lia|].
  unfold call_linear. rewrite Hn. by apply on_rows_projects.
Qed.

(** *** Slices of a projection *)

Lemma mapR_ok {A B} (f : A -> result B) (g : A -> B) l : (forall x, x ∈ l -> f x = Ok (g x)) -> mapR f l = Ok (g <$> l).
Proof.
  induction l as [|x l IH]; intros H; [done|]. cbn [mapR]. rewrite H by left. rewrite IH; [done|]. intros y Hy. apply H. by right.
Qed.

Lemma split_whole n c d (t : Tensor) : (0 < c)%nat -> (0 < n)%nat -> coord d (shape t) = (n * c)%nat ->
  t_split c d t = Ok ((fun i => slice_dim d (i * c) (i * c + c) t) <$> seq 0 n).
Proof.
  intros Hc Hn Hd. unfold t_split. rewrite Hd. destruct (Nat.eqb_spec c 0); [lia|]. f_equal.
  assert (Hlen : ((n * c + c - 1) / c = n)%nat).
  { symmetry. apply (Nat.div_unique _ _ _ (c - 1)%nat); [lia|]. nia. }
  rewrite Hlen, Nat.max_r by lia. apply map_ext_in. intros i Hi%in_seq. f_equal. nia.
Qed.

Lemma seq_blocks n c : concat ((fun i => (fun o => (i * c + o)%nat) <$> seq 0 c) <$> seq 0 n) = seq 0 (n * c).
Proof.
  induction n as [|n IH]; [done|]. rewrite seq_S, fmap_app, concat_app, IH. cbn [fmap list_fmap concat].
  replace (S n * c)%nat with (n * c + c)%nat by lia. rewrite seq_app, app_nil_r. f_equal. cbn [Nat.add].
  by rewrite (seq_from (n * c) c).
Qed.

Lemma weight_slice_rows c i n d (w : Tensor) : shape w = [n; d] ->
  weight_rows (slice_dim 0 (i * c) (i * c + c) w) = (fun o => row w [i * c + o]%nat) <$> seq 0 c.
Proof.
  intros Hw. unfold weight_rows. cbn [shape slice_dim set_coord]. rewrite Hw. cbn [coord nth].
  unfold set_coord. cbn [insert list_insert nth]. replace (i * c + c - i * c)%nat with c by lia. apply map_ext. intros o.
  unfold row. cbn [shape slice_dim]. rewrite Hw. unfold set_coord. cbn [insert list_insert List.last]. apply map_ext. intros e. done.
Qed.

Lemma concat_fmap {A B} (f : A -> B) (l : list (list A)) : f <$> concat l = concat ((fun m : list A => f <$> m) <$> l).
Proof. apply concat_map. Qed.

Lemma cat_all_rows bsz q c m acc l :
  shape acc = [bsz; q; m] -> Forall (fun t : Tensor => shape t = [bsz; q; c]) l ->
  exists z, foldR (cat 2) acc l = Ok z /\ shape z = [bsz; q; m + length l * c]%nat /\
    forall b t, row z [b; t] = row acc [b; t] ++ concat ((fun u => row u [b; t]) <$> l).
Proof.
  intros Hacc Hl. revert acc m Hacc. induction Hl as [|u l Hu _ IH]; intros acc m Hacc.
  - exists acc. split; [done|]. split; [by rewrite Nat.add_0_r|]. intros b t. by rewrite app_nil_r.
  - cbn [foldR].
    assert (exists y, cat 2 acc u = Ok y /\ shape y = [bsz; q; m + c]%nat /\
      forall b t, row y [b; t] = row acc [b; t] ++ row u [b; t]) as (y & -> & Hys & Hyr).
    { unfold cat. rewrite Hacc, Hu. rewrite decide_True by (split; [done|simpl; lia]). eexists. split; [reflexivity|].
      split; [done|]. intros b t. unfold row. cbn [shape]. rewrite Hacc, Hu. cbn [set_coord insert list_insert List.last coord nth].
      rewrite seq_app, fmap_app. f_equal.
      - apply map_ext_in. intros e He%in_seq. cbn [app at_ coord nth]. by destruct (Nat.ltb_spec e m); [|lia].
      - cbn [Nat.add]. rewrite (seq_from m c), <- list_fmap_compose. apply map_ext_in. intros e He%in_seq.
        cbn [compose app at_ coord nth set_coord insert list_insert]. destruct (Nat.ltb_spec (m + e) m); [lia|].
        do 4 f_equal. lia. }
    destruct (IH y (m + c)%nat Hys) as (z & Hz & Hzs & Hzr). exists z. split; [done|]. split; [rewrite Hzs; cbn [length]; do 3 f_equal; lia|].
    intros b t. rewrite Hzr, Hyr. cbn [fmap list_fmap concat]. by rewrite app_assoc.
Qed.

(** A projection in slices is the projection: slicing the weight changes nothing. *)
Lemma project_sliced tp c d m : (1 < tp)%nat -> (0 < c)%nat -> shape (lm_weight m) = [tp * c; d]%nat ->
  projects d (tp * c) (project tp (tp * c) m) (linear_row (lm_weight m)).
Proof.
  intros Htp Hc Hw x bsz q Hx. unfold project. destruct (Nat.ltb_spec 1 tp); [|lia].
  rewrite (Nat.mul_comm tp c), Nat.div_mul, (Nat.mul_comm c tp) by lia.
  rewrite (split_whole tp c 0) by (rewrite ?Hw; cbn [coord nth]; lia). cbn [mbind result_bind].
  set (slice i := slice_dim 0 (i * c) (i * c + c) (lm_weight m)).
  assert (Hslice : forall i, shape (slice i) = [c; d]).
  { intros i. unfold slice, slice_dim. cbn [shape]. rewrite Hw. unfold set_coord. cbn [insert list_insert]. repeat f_equal. lia. }
  unfold linear_slices. rewrite (mapR_ok _ (fun i => on_rows c (linear_row (slice i)) x)).
  2: { intros i Hi%elem_of_seq. rewrite lookup_replicate_2 by lia. cbn [get_or mbind result_bind].
       rewrite list_lookup_fmap, lookup_seq_lt by lia. cbn [fmap option_fmap option_map get_or mbind result_bind Nat.add].
       unfold f_linear. fold (slice i). rewrite Hslice, Hx. cbn [List.last]. by rewrite Nat.eqb_refl. }
  cbn [mbind result_bind]. destruct tp as [|tp]; [lia|]. cbn [seq fmap list_fmap cat_all].
  assert (Hrows : forall i r, length (linear_row (slice i) r) = c).
  { intros i r. unfold linear_row. rewrite length_fmap. unfold slice. rewrite (weight_slice_rows c i _ _ _ Hw).
    by rewrite length_fmap, length_seq. }
  destruct (cat_all_rows bsz q c c (on_rows c (linear_row (slice 0%nat)) x) ((fun i => on_rows c (linear_row (slice i)) x) <$> seq 1 tp))
    as (z & Hz & Hzs & Hzr).
  { by rewrite on_rows_shape, Hx. }
  { apply Forall_fmap, Forall_forall. intros i _. cbn [compose]. by rewrite on_rows_shape, Hx. }
  exists z. split; [exact Hz|]. split; [rewrite Hzs, length_fmap, length_seq; do 3 f_equal; lia|].
  intros b t _ _. rewrite Hzr, on_rows_row, <- list_fmap_compose by apply Hrows.
  transitivity (concat ((fun i => linear_row (slice i) (row x [b; t])) <$> seq 0 (S tp))).
  { cbn [seq fmap list_fmap concat]. f_equal. f_equal. apply map_ext. intros i. cbn [compose]. by rewrite on_rows_row by apply Hrows. }
  unfold linear_row. unfold weight_rows at 2. rewrite Hw. cbn [coord nth]. rewrite <- seq_blocks, <- list_fmap_compose, concat_fmap, <- list_fmap_compose.
  f_equal. apply map_ext. intros i. cbn [compose]. unfold slice. rewrite (weight_slice_rows c i _ _ _ Hw).
  by rewrite <- !list_fmap_compose.
Qed.

Lemma add_rows bsz q d (x y : Tensor) : shape x = [bsz; q; d] -> shape y = [bsz; q; d] ->
  exists z, elementwise add x y = Ok z /\ shape z = [bsz; q; d] /\
    forall b t, (b < bsz)%nat -> (t < q)%nat -> row z [b; t] = zip_with add (row x [b; t]) (row y [b; t]).
Proof.
  intros Hx Hy. destruct (elementwise_same add x y) as (z & Hz & Hs & Hat); [congruence|]. exists z. rewrite Hx in Hs, Hat.
  split; [done|]. split; [done|]. intros b t Hb Ht. unfold row. rewrite Hs, Hx, Hy. cbn [List.last].
  assert (Hzip : forall (f g : nat -> num) l, zip_with add (f <$> l) (g <$> l) = (fun e => add (f e) (g e)) <$> l).
  { intros f g l. induction l as [|e l IH]; [done|]. rewrite !fmap_cons. cbn [zip_with]. by rewrite IH. }
  rewrite Hzip. apply map_ext_in. intros e He%in_seq. apply Hat.
  repeat (apply in_bounds_cons; split; [lia|]). by apply in_bounds_nil.
Qed.

(** *** Slices of the output projection *)

(** The row that the sliced output projection gives: the sum of the products with the slices. *)
Definition out_row (tp c : nat) (w : Tensor) (r : list num) : list num :=
  match (fun i => linear_row (slice_dim 1 (i * c) (i * c + c) w) (take c (drop (i * c) r))) <$> seq 0 tp with
  | [] => []
  | v :: vs => fold_left (zip_with add) vs v
  end.

Lemma sum_all_rows bsz q d acc l :
  shape acc = [bsz; q; d] -> Forall (fun t : Tensor => shape t = [bsz; q; d]) l ->
  exists z, foldR (elementwise add) acc l = Ok z /\ shape z = [bsz; q; d] /\
    forall b t, (b < bsz)%nat -> (t < q)%nat -> row z [b; t] = fold_left (zip_with add) ((fun u => row u [b; t]) <$> l) (row acc [b; t]).
Proof.
  intros Hacc Hl. revert acc Hacc. induction Hl as [|u l Hu _ IH]; intros acc Hacc; [by exists acc|].
  cbn [foldR]. destruct (add_rows _ _ _ _ _ Hacc Hu) as (y & -> & Hys & Hyr).
  destruct (IH y Hys) as (z & Hz & Hzs & Hzr). exists z. split; [done|]. split; [done|]. intros b t Hb Ht.
  rewrite Hzr by done. cbn [fmap list_fmap fold_left]. by rewrite Hyr.
Qed.

Lemma part_row bsz q c n i (x : Tensor) b t : shape x = [bsz; q; n * c]%nat -> (i < n)%nat ->
  row (slice_dim 2 (i * c) (i * c + c) x) [b; t] = take c (drop (i * c) (row x [b; t])).
Proof.
  intros Hx Hi. unfold row. cbn [shape slice_dim]. rewrite Hx. unfold set_coord. cbn [insert list_insert List.last].
  replace (i * c + c - i * c)%nat with c by lia. rewrite skipn_map, firstn_map, skipn_seq.
  assert (Hle : (i * c + c <= n * c)%nat) by nia. rewrite take_seq, Nat.min_l by lia. cbn [Nat.add].
  rewrite (seq_from (i * c) c). etrans; [|apply list_fmap_compose]. apply map_ext. done.
Qed.

Lemma project_out_sliced a c d : (1 < pretraining_tp a)%nat -> (0 < c)%nat -> hidden_size a = (pretraining_tp a * c)%nat ->
  shape (lm_weight (o_proj a)) = [d; hidden_size a] ->
  projects (hidden_size a) d (project_out a) (out_row (pretraining_tp a) c (lm_weight (o_proj a))).
Proof.
  intros Htp Hc Hh Hw x bsz q Hx. unfold project_out. destruct (Nat.ltb_spec 1 (pretraining_tp a)); [|lia].
  generalize dependent (hidden_size a). generalize dependent (pretraining_tp a). generalize dependent (lm_weight (o_proj a)).
  intros w tp Htp _ h -> Hw Hx. rewrite (Nat.mul_comm tp c), Nat.div_mul by lia.
  rewrite (split_whole tp c 2), (split_whole tp c 1) by (rewrite ?Hw, ?Hx; cbn [coord nth]; lia). cbn [mbind result_bind].
  set (slice i := slice_dim 1 (i * c) (i * c + c) w). set (part i := slice_dim 2 (i * c) (i * c + c) x).
  assert (Hslice : forall i, shape (slice i) = [d; c]).
  { intros i. unfold slice, slice_dim. cbn [shape]. rewrite Hw. unfold set_coord. cbn [insert list_insert]. do 2 f_equal. lia. }
  assert (Hpart : forall i, shape (part i) = [bsz; q; c]).
  { intros i. unfold part, slice_dim. cbn [shape]. rewrite Hx. unfold set_coord. cbn [insert list_insert]. do 3 f_equal. lia. }
  unfold linear_slices. rewrite (mapR_ok _ (fun i => on_rows d (linear_row (slice i)) (part i))).
  2: { intros i Hi%elem_of_seq. rewrite !list_lookup_fmap, lookup_seq_lt by lia.
       cbn [fmap option_fmap option_map get_or mbind result_bind Nat.add]. fold (part i) (slice i).
       unfold f_linear. rewrite Hslice, Hpart. cbn [List.last]. by rewrite Nat.eqb_refl. }
  cbn [mbind result_bind]. destruct tp as [|tp]; [lia|]. cbn [seq fmap list_fmap sum_all].
  assert (Hrows : forall i r, length (linear_row (slice i) r) = d).
  { intros i r. unfold linear_row, weight_rows. rewrite !length_fmap, length_seq, Hslice. done. }
  destruct (sum_all_rows bsz q d (on_rows d (linear_row (slice 0%nat)) (part 0%nat))
    ((fun i => on_rows d (linear_row (slice i)) (part i)) <$> seq 1 tp)) as (z & Hz & Hzs & Hzr).
  { by rewrite on_rows_shape, Hpart. }
  { apply Forall_fmap, Forall_forall. intros i _. cbn [compose]. by rewrite on_rows_shape, Hpart. }
  exists z. split; [exact Hz|]. split; [done|]. intros b t Hb Ht. rewrite Hzr, on_rows_row, <- list_fmap_compose by (done || apply Hrows).
  unfold out_row. cbn [seq fmap list_fmap]. unfold part. rewrite (part_row bsz q c (S tp)) by (done || lia). f_equal.
  apply map_ext_in. intros i Hi%in_seq. cbn [compose]. rewrite on_rows_row by apply Hrows.
  by rewrite (part_row bsz q c (S tp)) by (done || lia).
Qed.

(** ** Attention with the cache *)

(** The part of a projected row that belongs to a head. *)
Definition at_head (hd h : nat) (r : list num) : list num := (fun d => nth (h * hd + d)%nat r zero) <$> seq 0 hd.

Lemma split_heads_row bsz q heads hd (x y : Tensor) b h t :
  shape x = [bsz; q; heads * hd]%nat -> split_heads bsz q heads hd x = Ok y ->
  (b < bsz)%nat -> (h < heads)%nat -> (t < q)%nat -> row y [b; h; t] = at_head hd h (row x [b; t]).
Proof.
  intros Hs Hy Hb Hh Ht. destruct (split_heads_spec _ _ _ _ _ Hs) as (y' & Hy' & Hys & Hat). rewrite Hy in Hy'. injection Hy' as <-.
  unfold row at 1, at_head. rewrite Hys. cbn [List.last]. apply map_ext_in. intros d Hd%in_seq. cbn [app].
  rewrite Hat by lia. rewrite row_nth by (rewrite Hs; cbn [List.last]; nia). done.
Qed.

Section attention.
Context (a : LlamaAttention) (d : nat) (fq fk fv fo : list num -> list num).
Abbreviation hd := (head_dim a).
Abbreviation heads := (num_heads a).
Abbreviation kv := (num_key_value_heads a).

Record attention_ok : Prop := {
  ao_groups : heads = (kv * num_key_value_groups a)%nat;
  ao_hidden : hidden_size a = (heads * hd)%nat;
  ao_q : projects d (heads * hd) (project (pretraining_tp a) (heads * hd) (q_proj a)) fq;
  ao_k : projects d (kv * hd) (project (pretraining_tp a) (kv * hd) (k_proj a)) fk;
  ao_v : projects d (kv * hd) (project (pretraining_tp a) (kv * hd) (v_proj a)) fv;
  ao_o : projects (hidden_size a) d (project_out a) fo;
}.
Context (OK : attention_ok).

(** Keys, values and outputs of attention, from the rows of its inputs. *)
Definition attn_key (s : nat) (r : list num) (g : nat) : list num := rot_row s (at_head hd g (fk r)).
Definition attn_value (s : nat) (r : list num) (g : nat) : list num := at_head hd g (fv r).

Definition attn_out (n : nat) (r : list num) (K V : nat -> nat -> list num) : list num :=
  fo ((fun c =>
         let h := (c / hd)%nat in let g := (h / num_key_value_groups a)%nat in
         read hd n (c mod hd) (rot_row n (at_head hd h (fq r))) (K g) (V g))
      <$> seq 0 (hidden_size a)).

Lemma attn_out_causal n r K V K' V' :
  (forall g s, (g < kv)%nat -> (s <= n)%nat -> K g s = K' g s /\ V g s = V' g s) -> attn_out n r K V = attn_out n r K' V'.
Proof.
  intros Hkv. unfold attn_out. f_equal. apply map_ext_in. intros c Hc%in_seq.
  assert (Hg : (c / hd / num_key_value_groups a < kv)%nat).
  { apply Nat.Div0.div_lt_upper_bound. apply Nat.Div0.div_lt_upper_bound.
    rewrite (Nat.mul_comm hd), (Nat.mul_comm _ kv), <- (ao_groups OK), <- (ao_hidden OK). lia. }
  unfold read. f_equal; [f_equal|]; apply map_ext_in; intros s Hs%in_seq; destruct (Hkv _ s Hg) as [Hk Hv]; try lia.
  - by rewrite Hk.
  - by rewrite Hv.
Qed.

Definition attention_rows : causal_rows := mkCausalRows kv hd attn_key attn_value attn_out attn_out_causal.

(** The graphs of the layer were recorded for batches of this size. *)
Definition graphs_ok (bsz : nat) (w : llama_graphs) : Prop :=
  recorded_for (rotary_graph w) [[bsz; heads; 1; hd]; [bsz; kv; 1; hd]; [1; 1; 1; hd]; [1; 1; 1; hd]]%nat /\
  recorded_for (pre_attn_graph w) [[bsz; 1; d]]%nat /\ recorded_for (post_attn_graph w) [[bsz; 1; d]]%nat.

Lemma rotate_proper x x' c c' s s' y :
  x ≡t x' -> c ≡t c' -> s ≡t s' -> rotate x c s = Ok y -> exists y', rotate x' c' s' = Ok y' /\ y ≡t y'.
Proof.
  intros Hx Hc Hs. unfold rotate.
  destruct (elementwise mul x c) as [u|] eqn:Eu; [|done]. cbn [mbind result_bind].
  destruct (elementwise_proper _ _ _ _ _ _ Hx Hc Eu) as (u' & -> & Hu). cbn [mbind result_bind].
  destruct (elementwise mul (on_rows _ rotate_half x) s) as [v|] eqn:Ev; [|done]. cbn [mbind result_bind].
  assert (Hr : on_rows (List.last (shape x) 0%nat) rotate_half x ≡t on_rows (List.last (shape x') 0%nat) rotate_half x').
  { destruct Hx as [Hsh Hat]. rewrite <- Hsh. by apply on_rows_proper. }
  destruct (elementwise_proper _ _ _ _ _ _ Hr Hs Ev) as (v' & -> & Hv). cbn [mbind result_bind].
  intros Hy. by apply (elementwise_proper _ _ _ _ _ _ Hu Hv Hy).
Qed.

Lemma apply_rotary_teq l l' out : Forall2 teq l l' -> apply_rotary_callable l = Ok out ->
  exists out', apply_rotary_callable l' = Ok out' /\ Forall2 teq out out'.
Proof.
  intros H. destruct H as [|q q' ?? Hq H]; [done|]. destruct H as [|k k' ?? Hk H]; [done|].
  destruct H as [|c c' ?? Hc H]; [done|]. destruct H as [|s s' ?? Hs H]; [done|]. destruct H; [|done].
  unfold apply_rotary_callable, apply_rotary_pos_emb.
  destruct (rotate q c s) as [y|] eqn:Ey; [|done]. destruct (rotate k c s) as [z|] eqn:Ez; [|done].
  destruct (rotate_proper _ _ _ _ _ _ _ Hq Hc Hs Ey) as (y' & -> & Hy).
  destruct (rotate_proper _ _ _ _ _ _ _ Hk Hc Hs Ez) as (z' & -> & Hz). cbn. intros [= <-].
  eexists. split; [reflexivity|]. repeat (constructor; [done|]). constructor.
Qed.

(** What [h], a key cache held by the caller, holds as long as the rotary graph is not replayed; it is the caller's own
    memory unless [shared]. *)
Definition key_holds (shared : bool) (w : llama_graphs) (h : Held) (k : Tensor) : Prop :=
  (forall w', rotary_graph w' = rotary_graph w -> deref w' h = Ok k) /\ (shared = false -> h = Own k).

Lemma own_holds shared w k : key_holds shared w (Own k) k.
Proof. by split. Qed.

Lemma holds_graph shared w w' h k : rotary_graph w' = rotary_graph w -> key_holds shared w h k -> key_holds shared w' h k.
Proof. intros Hw [Hd Ho]. split; [|done]. intros w2 H. apply Hd. congruence. Qed.

Lemma holds_weaken shared w h k : key_holds false w h k -> key_holds shared w h k.
Proof. intros [_ Ho]. rewrite (Ho eq_refl). apply own_holds. Qed.

Lemma read_holds shared w h k : key_holds shared w h k -> read_held h w = Some (w, Ok k).
Proof. intros [Hd _]. unfold read_held. by rewrite (Hd w). Qed.

Lemma view_holds shared w h k f k' : key_holds shared w h k -> f k = Ok k' ->
  exists h', view_of f h w = Some (w, Ok h') /\ key_holds shared w h' k'.
Proof.
  intros [Hd Ho] Hf. destruct h as [t|m]; cbn [view_of].
  - pose proof (Hd w eq_refl) as [= ->]. exists (Own k'). rewrite (bind_lift _ _ w k') by done. split; [done|apply own_holds].
  - exists (Static (fun s => t ← m s; f t)). rewrite (bind_ok _ _ w w k) by (unfold read_held; by rewrite (Hd w)).
    rewrite (bind_lift _ _ w k') by done. split; [done|]. split; [|intros H; by specialize (Ho H)].
    intros w' Hw. cbn [deref]. pose proof (Hd w' Hw) as Hm. cbn [deref] in Hm. rewrite Hm. exact Hf.
Qed.

Definition no_past {A} (past : option A) : bool := match past with None => true | Some _ => false end.

(** A cache in the caller's own memory. *)
Definition owned (past : option (Tensor * Tensor)) : option (Held * Tensor) := (fun kv => (Own kv.1, kv.2)) <$> past.

Lemma append_keys_ok shared w past h k k' : key_holds shared w h k -> append_past (fst <$> past) k = Ok k' ->
  exists h', append_keys (fst <$> owned past) h w = Some (w, Ok h') /\ key_holds (shared && no_past past) w h' k'.
Proof.
  intros Hh Ha. destruct past as [[pk pv]|]; cbn in Ha |- *.
  - exists (Own k'). rewrite (bind_ok _ _ w w pk) by done. rewrite (bind_ok _ _ w w k) by (by eapply read_holds).
    rewrite (bind_lift _ _ w k') by done. split; [done|apply own_holds].
  - injection Ha as <-. exists h. by rewrite andb_true_r.
Qed.

(** Rotating queries and keys, with the graph or without. *)
Lemma run_rotary cuda bsz q p (Q K : Tensor) w :
  shape Q = [bsz; heads; q; hd] -> shape K = [bsz; kv; q; hd] -> graphs_ok bsz w ->
  let '(cos, sin) := rotary_emb hd (seq p q) in
  exists w' hq hk Q' K', (if (q =? 1)%nat && cuda then _optimized_apply_rotary Q K cos sin
      else '(Q, K) ← lift (apply_rotary_pos_emb Q K cos sin); ret (Own Q, Own K)) w =
      Some (w', Ok (hq, hk)) /\ graphs_ok bsz w' /\
    deref w' hq = Ok Q' /\ key_holds ((q =? 1)%nat && cuda) w' hk K' /\
    shape Q' = [bsz; heads; q; hd] /\ shape K' = [bsz; kv; q; hd] /\
    (forall b h t, (b < bsz)%nat -> (h < heads)%nat -> (t < q)%nat -> row Q' [b; h; t] = rot_row (p + t) (row Q [b; h; t])) /\
    (forall b h t, (b < bsz)%nat -> (h < kv)%nat -> (t < q)%nat -> row K' [b; h; t] = rot_row (p + t) (row K [b; h; t])).
Proof.
  intros HQ HK Hw. pose proof (rotate_spec _ _ _ _ (seq p q) Q HQ (length_seq q p)) as HrQ.
  pose proof (rotate_spec _ _ _ _ (seq p q) K HK (length_seq q p)) as HrK.
  destruct (rotary_emb hd (seq p q)) as [cos sin] eqn:Eemb.
  destruct HrQ as (Q1 & HQ1 & HQs & HQr). destruct HrK as (K1 & HK1 & HKs & HKr).
  assert (Hrows : forall t, (t < q)%nat -> nth t (seq p q) 0%nat = (p + t)%nat) by (intros; by apply seq_nth).
  assert (Hdirect : apply_rotary_pos_emb Q K cos sin = Ok (Q1, K1)) by (unfold apply_rotary_pos_emb; by rewrite HQ1, HK1).
  destruct ((q =? 1)%nat && cuda) eqn:Ec.
  - apply andb_true_iff in Ec as [Eq _]. apply Nat.eqb_eq in Eq.
    assert (Hcs : shape cos = [1; 1; q; hd]%nat /\ shape sin = [1; 1; q; hd]%nat).
    { injection Eemb as <- <-. cbn [shape]. by rewrite length_seq. }
    destruct Hcs as [Hcos Hsin]. destruct Hw as (Hg & Hpre & Hpost).
    destruct (call_graph_spec apply_rotary_callable apply_rotary_teq rotary_graph set_rotary [Q; K; cos; sin] [Q1; K1] w) as (g & Hrun & _ & Hout & Hrec).
    { cbn [fmap list_fmap]. rewrite HQ, HK, Hcos, Hsin, Eq. exact Hg. }
    { unfold apply_rotary_callable. by rewrite Hdirect. }
    destruct g as [ins outs]. cbn [ga_outputs] in Hout.
    apply Forall2_cons_inv_l in Hout as (Q' & l' & HtQ & Hout & ->). apply Forall2_cons_inv_l in Hout as (K' & l'' & HtK & Hout & ->).
    apply Forall2_nil_inv_l in Hout as ->.
    set (w1 := set_rotary (Some (mkGraphed ins [Q'; K'])) w) in *.
    eexists w1, _, _, Q', K'. split; [unfold _optimized_apply_rotary; by rewrite (bind_ok _ _ _ _ _ Hrun)|].
    split.
    { split; [|done]. cbn [fmap list_fmap] in Hrec. rewrite HQ, HK, Hcos, Hsin, Eq in Hrec. exact Hrec. }
    split; [done|]. split; [split; [|done]; intros w2 Hw2; cbn [deref]; by rewrite Hw2|].
    pose proof (proj1 HtQ) as HsQ. pose proof (proj1 HtK) as HsK.
    split; [congruence|]. split; [congruence|].
    split; intros b h t Hb Hh Ht; rewrite <- (Hrows t Ht); [rewrite <- HQr by done|rewrite <- HKr by done]; symmetry.
    + apply (row_teq _ _ _ [bsz; heads; q] hd); [done|exact HQs|].
      repeat (apply in_bounds_cons; split; [done|]). by apply in_bounds_nil.
    + apply (row_teq _ _ _ [bsz; kv; q] hd); [done|exact HKs|].
      repeat (apply in_bounds_cons; split; [done|]). by apply in_bounds_nil.
  - exists w, (Own Q1), (Own K1), Q1, K1. split; [by rewrite (bind_lift _ _ w (Q1, K1))|]. split; [done|]. split; [done|].
    split; [apply own_holds|]. split; [done|]. split; [done|].
    split; intros b h t Hb Hh Ht; rewrite <- (Hrows t Ht); [by apply HQr|by apply HKr].
Qed.

(** [OptimizedLlamaAttention.forward] with the causal mask: the rows of the outputs and of the new cache. *)
Lemma attention_spec cuda bsz p q (x : Tensor) past pk pv w :
  shape x = [bsz; q; d] -> cache_of bsz kv p hd (fst <$> past) pk -> cache_of bsz kv p hd (snd <$> past) pv -> graphs_ok bsz w ->
  let X := fun b t => row x [b; t] in
  exists w' o h k v,
    attention_forward a cuda x (Some (prepare_4d_causal_attention_mask bsz q p)) None (owned past) false true w = Some (w', Ok (o, Some (h, v))) /\
    key_holds ((q =? 1)%nat && cuda && no_past past) w' h k /\ graphs_ok bsz w' /\ shape o = [bsz; q; d] /\
    (forall b t, (b < bsz)%nat -> (t < q)%nat -> row o [b; t] = out_from attention_rows pk pv p X b t) /\
    cache_of bsz kv (p + q) hd (Some k) (key_from attention_rows pk p X) /\ cache_of bsz kv (p + q) hd (Some v) (value_from attention_rows pv p X).
Proof.
  intros Hx Hpk Hpv Hw X. pose proof OK as [Hgr Hhid Hq Hk Hv Ho].
  destruct (Hq _ _ _ Hx) as (xq & Hxq & Hxqs & Hxqr). destruct (Hk _ _ _ Hx) as (xk & Hxk & Hxks & Hxkr).
  destruct (Hv _ _ _ Hx) as (xv & Hxv & Hxvs & Hxvr).
  destruct (split_heads_spec _ _ _ _ _ Hxqs) as (Q & HQ & HQs & _).
  destruct (split_heads_spec _ _ _ _ _ Hxks) as (K & HK & HKs & _).
  destruct (split_heads_spec _ _ _ _ _ Hxvs) as (V & HV & HVs & _).
  pose proof (run_rotary cuda bsz q p Q K w HQs HKs Hw) as Hrot.
  destruct (rotary_emb hd (seq p q)) as [cos sin] eqn:Eemb.
  destruct Hrot as (w' & hq & hk & Q' & K' & Hrun & Hw' & Hhq & Hhk & HQ's & HK's & HQ'r & HK'r).
  destruct (append_past_spec _ _ _ _ _ _ _ _ Hpk HK's) as (K2 & HK2 & HK2c).
  destruct (append_past_spec _ _ _ _ _ _ _ _ Hpv HVs) as (V2 & HV2 & HV2c).
  destruct (append_keys_ok _ w' past hk K' K2 Hhk HK2) as (h2 & Hh2 & Hholds).
  destruct (attend_spec a bsz p q Q' K2 V2 Hgr HQ's (proj1 HK2c) (proj1 HV2c)) as (o1 & Ho1 & Ho1s & Ho1at).
  destruct (merge_heads_spec _ _ _ _ _ _ Ho1s Hhid) as (o2 & o3 & Ho2 & Ho3 & Ho3s & Ho3at).
  destruct (Ho _ _ _ Ho3s) as (o & Hout & Hos & Hor).
  assert (Hkeys : forall b g s, (b < bsz)%nat -> (g < kv)%nat -> (s < p + q)%nat -> row K2 [b; g; s] = key_from attention_rows pk p X b g s).
  { intros b g s Hb Hg Hs. rewrite (proj2 HK2c) by done. unfold key_from. destruct (Nat.ltb_spec s p); [done|].
    cbn [cr_key attention_rows]. unfold attn_key. rewrite HK'r by lia. replace (p + (s - p))%nat with s by lia. f_equal.
    rewrite (split_heads_row _ _ _ _ _ _ _ _ _ Hxks HK) by lia. f_equal. apply Hxkr; lia. }
  assert (Hvals : forall b g s, (b < bsz)%nat -> (g < kv)%nat -> (s < p + q)%nat -> row V2 [b; g; s] = value_from attention_rows pv p X b g s).
  { intros b g s Hb Hg Hs. rewrite (proj2 HV2c) by done. unfold value_from. destruct (Nat.ltb_spec s p); [done|].
    cbn [cr_value attention_rows]. unfold attn_value. rewrite (split_heads_row _ _ _ _ _ _ _ _ _ Hxvs HV) by lia. f_equal. apply Hxvr; lia. }
  exists w', o, h2, K2, V2. split.
  { unfold attention_forward. rewrite (bind_lift _ _ w ()) by done.
    rewrite (bind_ok _ _ w w (seq p q)).
    2: { assert (Hlen : held_length (owned past) 2 w = Some (w, Ok p)).
         { destruct past as [[k v]|]; cbn in Hpk |- *; [|by rewrite Hpk]. rewrite (bind_ok _ _ w w k) by done.
           unfold size, lift. by rewrite (proj1 Hpk). }
         rewrite (bind_ok _ _ w w p) by done. by rewrite (bind_lift _ _ w q) by (unfold size; by rewrite Hx). }
    rewrite (bind_lift _ _ w (bsz, q, d)) by (unfold dims3; by rewrite Hx). cbv zeta.
    rewrite (bind_lift _ _ w xq) by done. rewrite (bind_lift _ _ w xk) by done. rewrite (bind_lift _ _ w xv) by done.
    rewrite (bind_lift _ _ w Q) by done. rewrite (bind_lift _ _ w K) by done. rewrite (bind_lift _ _ w V) by done.
    rewrite Eemb. rewrite (bind_ok _ _ w w' (hq, hk)) by done.
    rewrite (bind_ok _ _ w' w' h2) by done.
    rewrite (bind_lift _ _ w' V2) by (destruct past as [[k v]|]; exact HV2).
    rewrite (bind_ok _ _ w' w' Q') by (unfold read_held; by rewrite Hhq). rewrite (bind_ok _ _ w' w' K2) by (by eapply read_holds).
    rewrite (bind_lift _ _ w' o1) by done. rewrite (bind_lift _ _ w' o2) by done. rewrite (bind_lift _ _ w' o3) by done.
    rewrite (bind_lift _ _ w' o) by done. done. }
  split; [done|]. split; [done|]. split; [done|]. split; [|split; (split; [apply HK2c || apply HV2c|]); [exact Hkeys|exact Hvals]].
  intros b t Hb Ht. rewrite Hor by done. unfold out_from. cbn [cr_out attention_rows]. unfold attn_out. f_equal. unfold row at 1. rewrite Ho3s. cbn [List.last].
  apply map_ext_in. intros c Hc%in_seq. cbn [app]. rewrite Ho3at by lia.
  assert (Hdiv : (c < heads * hd)%nat) by lia. destruct (split_coord c heads hd Hdiv) as (Hh & Hd & _).
  rewrite Ho1at by done. rewrite HQ'r by done.
  rewrite (split_heads_row _ _ _ _ _ _ _ _ _ Hxqs HQ) by lia. rewrite Hxqr by done. fold (X b t).
  assert (Hg : (c / hd / num_key_value_groups a < kv)%nat).
  { apply Nat.Div0.div_lt_upper_bound. rewrite Nat.mul_comm. by rewrite <- Hgr. }
  unfold read. f_equal; [f_equal|]; apply map_ext_in; intros s Hs%in_seq.
  - rewrite Hkeys by lia. done.
  - rewrite Hvals by lia. done.
Qed.

End attention.

(** ** The cache in the layout of the servers *)

(** The conversions on values *)
Definition bloom_to_llama (a : LlamaAttention) (key_value : Tensor * Tensor) (batch_size seq_length : nat) : result (Tensor * Tensor) :=
  let '(key_states, value_states) := key_value in
  key_states ← permute021 key_states;
  key_states ← view [batch_size; num_key_value_heads a; seq_length; head_dim a] key_states;
  value_states ← view (shape key_states) value_states;
  Ok (key_states, value_states).

Definition llama_to_bloom (a : LlamaAttention) (key_value : Tensor * Tensor) (batch_size seq_length : nat) : result (Tensor * Tensor) :=
  let '(key_states, value_states) := key_value in
  value_states ← view [batch_size * num_key_value_heads a; seq_length; head_dim a]%nat value_states;
  key_states ← view (shape value_states) key_states;
  key_states ← permute021 key_states;
  Ok (key_states, value_states).

Lemma from_bloom_own a bsz p k v k' v' w : bloom_to_llama a (k, v) bsz p = Ok (k', v') ->
  _reorder_cache_from_bloom_to_llama a (Own k, v) bsz p w = Some (w, Ok (Own k', v')).
Proof.
  unfold bloom_to_llama, _reorder_cache_from_bloom_to_llama. destruct (permute021 k) as [k1|] eqn:E1; [|done].
  cbn [mbind result_bind]. destruct (view _ k1) as [k2|] eqn:E2; [|done]. cbn [mbind result_bind].
  destruct (view _ v) as [v2|] eqn:E3; [|done]. intros [= <- <-].
  rewrite (bind_ok _ _ w w (Own k1)) by (cbn [view_of]; by rewrite (bind_lift _ _ w k1)).
  rewrite (bind_ok _ _ w w (Own k2)) by (cbn [view_of]; by rewrite (bind_lift _ _ w k2)).
  rewrite (bind_ok _ _ w w k2) by done. by rewrite (bind_lift _ _ w v2) by done.
Qed.

Lemma to_bloom_held a shared bsz p h k v k' v' w : llama_to_bloom a (k, v) bsz p = Ok (k', v') -> key_holds shared w h k ->
  exists h', _reorder_cache_from_llama_to_bloom a (h, v) bsz p w = Some (w, Ok (h', v')) /\ key_holds shared w h' k'.
Proof.
  unfold llama_to_bloom, _reorder_cache_from_llama_to_bloom. destruct (view _ v) as [v2|] eqn:E1; [|done].
  cbn [mbind result_bind]. destruct (view _ k) as [k2|] eqn:E2; [|done]. cbn [mbind result_bind].
  destruct (permute021 k2) as [k3|] eqn:E3; [|done]. intros [= <- <-] Hh.
  destruct (view_holds _ _ _ _ _ _ Hh E2) as (h1 & Hh1 & Hk1). destruct (view_holds _ _ _ _ _ _ Hk1 E3) as (h2 & Hh2 & Hk2).
  exists h2. split; [|done]. rewrite (bind_lift _ _ w v2) by done. rewrite (bind_ok _ _ w w h1) by done.
  by rewrite (bind_ok _ _ w w h2).
Qed.

Lemma from_bloom_spec a bsz p k v fk fv :
  bloom_cache bsz (num_key_value_heads a) p (head_dim a) (Some (k, v)) fk fv ->
  exists k' v', bloom_to_llama a (k, v) bsz p = Ok (k', v') /\
    cache_of bsz (num_key_value_heads a) p (head_dim a) (Some k') fk /\ cache_of bsz (num_key_value_heads a) p (head_dim a) (Some v') fv.
Proof.
  intros (Hk & Hv & Hfk & Hfv). unfold bloom_to_llama, permute021. rewrite Hk. cbn [length Nat.eqb].
  destruct (transpose12_shape k _ _ _ _ Hk) as (k1 & Hk1 & Hk1s). rewrite Hk1. cbn [mbind result_bind].
  destruct (view_ok [bsz; num_key_value_heads a; p; head_dim a] k1) as [k2 Hk2]; [rewrite Hk1s; simpl; lia|].
  rewrite Hk2. cbn [mbind result_bind]. pose proof (proj1 (view_shape _ _ _ Hk2)) as Hk2s. rewrite Hk2s.
  destruct (view_ok [bsz; num_key_value_heads a; p; head_dim a] v) as [v2 Hv2]; [rewrite Hv; simpl; lia|].
  rewrite Hv2. cbn [mbind result_bind]. pose proof (proj1 (view_shape _ _ _ Hv2)) as Hv2s. exists k2, v2. split; [done|].
  split; (split; [done|]); intros b g s Hb Hg Hs; unfold row; rewrite ?Hk2s, ?Hv2s; cbn [List.last].
  - rewrite <- Hfk by done. apply map_ext_in. intros e He%in_seq. cbn [app]. rewrite <- (transpose12_at _ _ _ _ _ _ Hk1).
    apply (view_at _ _ _ _ _ Hk2); rewrite Hk1s.
    + repeat (apply in_bounds_cons; split; [nia|]). by apply in_bounds_nil.
    + simpl. nia.
  - rewrite <- Hfv by done. unfold row. rewrite Hv. cbn [List.last]. apply map_ext_in. intros e He%in_seq. cbn [app].
    apply (view_at _ _ _ _ _ Hv2); rewrite Hv.
    + repeat (apply in_bounds_cons; split; [nia|]). by apply in_bounds_nil.
    + simpl. nia.
Qed.

Lemma to_bloom_spec a bsz p k v fk fv :
  cache_of bsz (num_key_value_heads a) p (head_dim a) (Some k) fk -> cache_of bsz (num_key_value_heads a) p (head_dim a) (Some v) fv ->
  exists k' v', llama_to_bloom a (k, v) bsz p = Ok (k', v') /\
    bloom_cache bsz (num_key_value_heads a) p (head_dim a) (Some (k', v')) fk fv.
Proof.
  intros [Hk Hfk] [Hv Hfv]. unfold llama_to_bloom.
  destruct (view_ok [bsz * num_key_value_heads a; p; head_dim a]%nat v) as [v2 Hv2]; [rewrite Hv; simpl; lia|].
  rewrite Hv2. cbn [mbind result_bind]. pose proof (proj1 (view_shape _ _ _ Hv2)) as Hv2s. rewrite Hv2s.
  destruct (view_ok [bsz * num_key_value_heads a; p; head_dim a]%nat k) as [k2 Hk2]; [rewrite Hk; simpl; lia|].
  rewrite Hk2. cbn [mbind result_bind]. pose proof (proj1 (view_shape _ _ _ Hk2)) as Hk2s.
  unfold permute021. rewrite Hk2s. cbn [length Nat.eqb].
  destruct (transpose12_shape k2 _ _ _ _ Hk2s) as (k3 & Hk3 & Hk3s). rewrite Hk3. cbn [mbind result_bind].
  exists k3, v2. split; [done|]. split; [done|]. split; [done|].
  split; intros b g s Hb Hg Hs.
  - rewrite <- Hfk by done. unfold row. rewrite Hk. cbn [List.last]. apply map_ext_in. intros e He%in_seq. cbn [app].
    rewrite (transpose12_at _ _ _ _ _ _ Hk3). apply (view_at _ _ _ _ _ Hk2); rewrite Hk.
    + repeat (apply in_bounds_cons; split; [lia|]). by apply in_bounds_nil.
    + simpl. nia.
  - rewrite <- Hfv by done. unfold row. rewrite Hv, Hv2s. cbn [List.last]. apply map_ext_in. intros e He%in_seq. cbn [app].
    apply (view_at _ _ _ _ _ Hv2); rewrite Hv.
    + repeat (apply in_bounds_cons; split; [lia|]). by apply in_bounds_nil.
    + simpl. nia.
Qed.

(** Converting a cache to the layout of LLaMA and back changes nothing. *)
Lemma cache_round_trip a bsz p k v :
  cache_shapes bsz (num_key_value_heads a) p (head_dim a) (Some (k, v)) ->
  exists k1 v1 k2 v2, bloom_to_llama a (k, v) bsz p = Ok (k1, v1) /\
    llama_to_bloom a (k1, v1) bsz p = Ok (k2, v2) /\ k2 ≡t k /\ v2 ≡t v.
Proof.
  intros Hs. pose proof (bloom_cache_rows _ _ _ _ _ Hs) as Hrows.
  destruct (from_bloom_spec _ _ _ _ _ _ _ Hrows) as (k1 & v1 & H1 & Hk1 & Hv1).
  destruct (to_bloom_spec _ _ _ _ _ _ _ Hk1 Hv1) as (k2 & v2 & H2 & Hrows2). exists k1, v1, k2, v2. split; [done|]. split; [done|].
  by apply (bloom_cache_teq _ _ _ _ _ _ _ _ _ _ _ _ Hrows2 Hrows).
Qed.

(** ** The layer *)

(** A norm, with its graph or without, is the row function. *)
Lemma norm_callable_teq f l l' out : Forall2 teq l l' -> norm_callable f l = Ok out ->
  exists out', norm_callable f l' = Ok out' /\ Forall2 teq out out'.
Proof.
  intros H. destruct H as [|x x' ?? Hx H]; [done|]. destruct H; [|done]. cbn. intros [= <-]. eexists. split; [reflexivity|].
  constructor; [|constructor]. unfold rowwise. rewrite <- (proj1 Hx). by apply on_rows_proper.
Qed.

Definition keeps_length (d : nat) (f : list num -> list num) : Prop := forall r, length r = d -> length (f r) = d.

Lemma rowwise_rows f bsz q d (x : Tensor) : keeps_length d f -> shape x = [bsz; q; d] ->
  shape (rowwise f x) = [bsz; q; d] /\ forall b t, row (rowwise f x) [b; t] = f (row x [b; t]).
Proof.
  intros Hf Hs. unfold rowwise. split; [by rewrite on_rows_shape, Hs|]. intros b t. rewrite Hs. cbn [List.last].
  apply on_rows_row. apply Hf. by rewrite row_length, Hs.
Qed.

Lemma run_norm_spec get set f cuda bsz q d (x : Tensor) w :
  (forall g w, get (set g w) = g) -> keeps_length d f -> shape x = [bsz; q; d] -> recorded_for (get w) [[bsz; 1; d]]%nat ->
  exists w' y, run_norm get set f cuda x w = Some (w', Ok y) /\ shape y = [bsz; q; d] /\
    (w' = w \/ exists g, w' = set (Some g) w /\ recorded_for (Some g) [[bsz; 1; d]]%nat) /\
    forall b t, (b < bsz)%nat -> (t < q)%nat -> row y [b; t] = f (row x [b; t]).
Proof.
  intros Hgs Hf Hs Hg. destruct (rowwise_rows f bsz q d x Hf Hs) as [Hys Hyr]. unfold run_norm.
  rewrite (bind_lift _ _ w q) by (unfold size; by rewrite Hs). destruct ((q =? 1)%nat && cuda) eqn:Ec.
  - apply andb_true_iff in Ec as [Eq _]. apply Nat.eqb_eq in Eq.
    destruct (call_graph_spec (norm_callable f) (norm_callable_teq f) get set [x] [rowwise f x] w) as (g & Hrun & _ & Hout & Hrec).
    { cbn [fmap list_fmap]. rewrite Hs, Eq. exact Hg. }
    { done. }
    apply Forall2_cons_inv_l in Hout as (y & l' & Hy & Hout & Hg'). apply Forall2_nil_inv_l in Hout as ->.
    exists (set (Some g) w), y. split; [|split; [|split]].
    + rewrite (bind_ok _ _ _ _ _ Hrun). cbn [length seq fmap list_fmap]. unfold read_held. cbn [deref]. rewrite Hgs.
      cbn [read_output]. by rewrite Hg'.
    + by rewrite <- (proj1 Hy).
    + right. exists g. split; [done|]. cbn [fmap list_fmap] in Hrec. by rewrite Hs, Eq in Hrec.
    + intros b t Hb Ht. rewrite <- Hyr. symmetry. apply (row_teq _ _ _ [bsz; q] d); [done|exact Hys|].
      repeat (apply in_bounds_cons; split; [done|]). by apply in_bounds_nil.
  - exists w, (rowwise f x). split; [done|]. split; [done|]. split; [by left|]. by intros.
Qed.

Section layer.
Context (l : LlamaDecoderLayer) (d : nat) (fq fk fv fo : list num -> list num).
Abbreviation a := (self_attn l).

Record layer_ok : Prop := {
  lo_attention : attention_ok a d fq fk fv fo;
  lo_input : keeps_length d (input_layernorm l);
  lo_post : keeps_length d (post_attention_layernorm l);
  lo_mlp : keeps_length d (mlp l);
}.
Context (OK : layer_ok).

(** The rows that the layer gives. *)
Definition layer_out (n : nat) (r : list num) (K V : nat -> nat -> list num) : list num :=
  let h := zip_with add r (attn_out a fq fo n (input_layernorm l r) K V) in
  zip_with add h (mlp l (post_attention_layernorm l h)).

Lemma layer_out_causal n r K V K' V' :
  (forall g s, (g < num_key_value_heads a)%nat -> (s <= n)%nat -> K g s = K' g s /\ V g s = V' g s) -> layer_out n r K V = layer_out n r K' V'.
Proof. intros H. unfold layer_out. by rewrite (attn_out_causal a d fq fk fv fo (lo_attention OK) n _ K V K' V' H). Qed.

Definition layer_rows : causal_rows :=
  mkCausalRows (num_key_value_heads a) (head_dim a) (fun s r => attn_key a fk s (input_layernorm l r))
    (fun s r => attn_value a fv s (input_layernorm l r)) layer_out layer_out_causal.

Lemma layer_spec cuda bsz p q (x : Tensor) past pk pv w :
  shape x = [bsz; q; d] -> cache_of bsz (num_key_value_heads a) p (head_dim a) (fst <$> past) pk ->
  cache_of bsz (num_key_value_heads a) p (head_dim a) (snd <$> past) pv -> graphs_ok a d bsz w ->
  let X := fun b t => row x [b; t] in
  exists w' o hk k v,
    layer_forward l cuda x (Some (prepare_4d_causal_attention_mask bsz q p)) None (owned past) false true w = Some (w', Ok (o, Some (hk, v))) /\
    key_holds ((q =? 1)%nat && cuda && no_past past) w' hk k /\ graphs_ok a d bsz w' /\ shape o = [bsz; q; d] /\
    (forall b t, (b < bsz)%nat -> (t < q)%nat -> row o [b; t] = out_from layer_rows pk pv p X b t) /\
    cache_of bsz (num_key_value_heads a) (p + q) (head_dim a) (Some k) (key_from layer_rows pk p X) /\
    cache_of bsz (num_key_value_heads a) (p + q) (head_dim a) (Some v) (value_from layer_rows pv p X).
Proof.
  intros Hx Hpk Hpv Hw X. pose proof OK as [Hatt Hin Hpost Hmlp]. destruct Hw as (Hg & Hpre & Hpostg).
  destruct (run_norm_spec pre_attn_graph set_pre_attn (input_layernorm l) cuda bsz q d x w (fun g w => eq_refl) Hin Hx Hpre) as (w1 & n1 & Hn1 & Hn1s & Hw1 & Hn1r).
  assert (Hg1 : graphs_ok a d bsz w1) by (destruct Hw1 as [->|(g & -> & Hrec)]; by repeat split).
  destruct (attention_spec a d fq fk fv fo Hatt cuda bsz p q n1 past pk pv w1 Hn1s Hpk Hpv Hg1)
    as (w2 & o1 & hk & k & v & Hrun & Hhk & Hg2 & Ho1s & Ho1r & Hk & Hv).
  destruct (add_rows _ _ _ _ _ Hx Ho1s) as (h & Hh & Hhs & Hhr).
  destruct (run_norm_spec post_attn_graph set_post_attn (post_attention_layernorm l) cuda bsz q d h w2 (fun g w => eq_refl) Hpost Hhs (proj2 (proj2 Hg2)))
    as (w3 & n2 & Hn2 & Hn2s & Hw3 & Hn2r).
  destruct (rowwise_rows (mlp l) _ _ _ n2 Hmlp Hn2s) as [Hms Hmr].
  destruct (add_rows _ _ _ _ _ Hhs Hms) as (o & Ho & Hos & Hor).
  set (R := attention_rows a d fq fk fv fo Hatt) in *.
  assert (Hcache : forall b g s, (b < bsz)%nat -> (s < p + q)%nat ->
    key_from R pk p (fun b t => row n1 [b; t]) b g s = key_from layer_rows pk p X b g s /\
    value_from R pv p (fun b t => row n1 [b; t]) b g s = value_from layer_rows pv p X b g s).
  { intros b g s Hb Hs. unfold key_from, value_from, R. destruct (Nat.ltb_spec s p); [done|].
    cbn [cr_key cr_value attention_rows layer_rows]. by rewrite Hn1r by lia. }
  exists w3, o, hk, k, v. split.
  { unfold layer_forward. cbv zeta. rewrite (bind_ok _ _ w w1 n1) by done. rewrite (bind_ok _ _ w1 w2 (o1, Some (hk, v))) by done.
    rewrite (bind_lift _ _ w2 h) by done. rewrite (bind_ok _ _ w2 w3 n2) by done. rewrite (bind_lift _ _ w3 o) by done. done. }
  split; [apply (holds_graph _ w2); [by destruct Hw3 as [->|(g & -> & _)]|done]|].
  split; [destruct Hg2 as (? & ? & ?); destruct Hw3 as [->|(g & -> & Hrec)]; by repeat split|].
  split; [done|]. split; [|split; (eapply cache_ext; [eassumption|]); intros b g s Hb _ Hs; by apply Hcache].
  intros b t Hb Ht. rewrite Hor, Hmr, Hn2r, Hhr, Ho1r by done. unfold out_from. cbn [cr_out layer_rows R attention_rows].
  unfold layer_out. rewrite Hn1r by done. fold (X b t).
  rewrite (attn_out_causal a d fq fk fv fo Hatt _ _ _ _ (key_from layer_rows pk p X b) (value_from layer_rows pv p X b)); [done|].
  intros g s _ Hs. apply Hcache; [done|lia].
Qed.

(** ** The wrapped block *)

(** The wrapped block computes the rows of the layer, with CUDA graphs or without, if the graphs were recorded for
    this batch size; the keys that it returns are the caller's own memory, unless they are those of a single token on a
    GPU without a past. *)
Lemma block_spec cuda bsz p q (x : Tensor) past pk pv w :
  shape x = [bsz; q; d] -> bloom_cache bsz (num_key_value_heads a) p (head_dim a) past pk pv -> graphs_ok a d bsz w ->
  let X := fun b t => row x [b; t] in
  exists w' o hk k v, block_forward l cuda x None (owned past) false true w = Some (w', Ok (o, Some (hk, v))) /\
    key_holds ((q =? 1)%nat && cuda && no_past past) w' hk k /\ graphs_ok a d bsz w' /\ shape o = [bsz; q; d] /\
    (forall b t, (b < bsz)%nat -> (t < q)%nat -> row o [b; t] = out_from layer_rows pk pv p X b t) /\
    bloom_cache bsz (num_key_value_heads a) (p + q) (head_dim a) (Some (k, v)) (key_from layer_rows pk p X) (value_from layer_rows pv p X).
Proof.
  intros Hx Hpast Hw X.
  assert (exists past', (match owned past with Some kv => kv ← _reorder_cache_from_bloom_to_llama a kv bsz p; ret (Some kv) | None => ret None end) w
      = Some (w, Ok (owned past')) /\ no_past past' = no_past past /\
    cache_of bsz (num_key_value_heads a) p (head_dim a) (fst <$> past') pk /\ cache_of bsz (num_key_value_heads a) p (head_dim a) (snd <$> past') pv)
    as (past' & Hconv & Hsome & Hpk & Hpv).
  { destruct past as [[k v]|]; [|by exists None]. destruct (from_bloom_spec _ _ _ _ _ _ _ Hpast) as (k' & v' & Hb & Hk & Hv).
    exists (Some (k', v')). split; [|done]. cbn [owned fmap option_fmap option_map fst snd].
    by rewrite (bind_ok _ _ w w (Own k', v')) by (by apply from_bloom_own). }
  destruct (layer_spec cuda bsz p q x past' pk pv w Hx Hpk Hpv Hw) as (w' & o & h & k & v & Hrun & Hh & Hw' & Hos & Hor & Hk & Hv).
  destruct (to_bloom_spec _ _ _ _ _ _ _ Hk Hv) as (k' & v' & Hback & Hbloom). rewrite Hsome in Hh.
  destruct (to_bloom_held a _ bsz (p + q) h k v k' v' w' Hback Hh) as (h' & Hheld & Hh').
  exists w', o, h', k', v'. split; [|done]. unfold block_forward. rewrite (bind_lift _ _ w (bsz, q, d)) by (unfold dims3; by rewrite Hx).
  rewrite (bind_ok _ _ w w p).
  2: { destruct past as [[k1 v1]|]; cbn in Hpast |- *; [|by rewrite Hpast]. rewrite (bind_ok _ _ w w k1) by done.
       destruct Hpast as [Hk1 _]. unfold size, lift. by rewrite Hk1. }
  cbv zeta. rewrite (bind_ok _ _ w w (owned past')) by done. rewrite (bind_lift _ _ w ()) by done.
  rewrite (bind_ok _ _ w w' (o, Some (h, v))) by done.
  rewrite (bind_ok _ _ w' w' (Some (h', v'))); [done|]. replace (q + p)%nat with (p + q)%nat by lia.
  by rewrite (bind_ok _ _ w' w' (h', v')).
Qed.

(** The block on values: the cache that it returns is read at once. *)
Definition block_values (cuda : bool) (x : Tensor) (past : option (Tensor * Tensor))
    : prog llama_graphs (Tensor * option (Tensor * Tensor)) :=
  '(o, present) ← block_forward l cuda x None (owned past) false true;
  match present with
  | Some (h, v) => k ← read_held h; ret (o, Some (k, v))
  | None => ret (o, None)
  end.

Lemma values_spec cuda bsz p q (x : Tensor) past pk pv w :
  shape x = [bsz; q; d] -> bloom_cache bsz (num_key_value_heads a) p (head_dim a) past pk pv -> graphs_ok a d bsz w ->
  let X := fun b t => row x [b; t] in
  exists w' o hk k v, block_forward l cuda x None (owned past) false true w = Some (w', Ok (o, Some (hk, v))) /\
    block_values cuda x past w = Some (w', Ok (o, Some (k, v))) /\
    key_holds ((q =? 1)%nat && cuda && no_past past) w' hk k /\ graphs_ok a d bsz w' /\ shape o = [bsz; q; d] /\
    (forall b t, (b < bsz)%nat -> (t < q)%nat -> row o [b; t] = out_from layer_rows pk pv p X b t) /\
    bloom_cache bsz (num_key_value_heads a) (p + q) (head_dim a) (Some (k, v)) (key_from layer_rows pk p X) (value_from layer_rows pv p X).
Proof.
  intros Hx Hpast Hw X. destruct (block_spec cuda bsz p q x past pk pv w Hx Hpast Hw) as (w' & o & h & k & v & Hrun & Hh & Hrest).
  exists w', o, h, k, v. split; [done|]. split; [|done]. unfold block_values. rewrite (bind_ok _ _ _ _ _ Hrun).
  by rewrite (bind_ok _ _ w' w' k) by (by eapply read_holds).
Qed.

Lemma block_computes cuda :
  computes (graphs_ok a d) (fun _ _ _ => True) d layer_rows (fun x past => block_values cuda x past).
Proof.
  intros bsz p q x past pk pv w Hx Hpast _ Hw X. cbn [cr_heads cr_head_dim layer_rows] in *.
  destruct (values_spec cuda bsz p q x past pk pv w Hx Hpast Hw) as (w' & o & h & k & v & _ & Hrun & _ & Hrest).
  by exists w', o, k, v.
Qed.
End layer.

(** C20: a wrapped LLaMA block can process a chunk in two parts, passing on the cache that it returned for the first, in the
    layout of the servers: the outputs and the final cache are those of the whole chunk, with CUDA graphs or without.  Two
    conditions are for CUDA only: the graphs that are there were recorded for this batch size ([graphs_ok]; see
    [graph_keeps_batch]), and the first part is not a single token without a past, whose keys would be memory of the rotary
    graph that the second part overwrites ([llama_block_shares_keys]; the servers always pass a past).  Then the returned
    keys are the caller's own.  This is what [CausalModule] assumes of the module that a server wraps. *)
Theorem llama_block_in_chunks l d fq fk fv fo cuda bsz p q1 q2 (x y z : Tensor) past w :
  layer_ok l d fq fk fv fo -> graphs_ok (self_attn l) d bsz w ->
  cache_shapes bsz (num_key_value_heads (self_attn l)) p (head_dim (self_attn l)) past ->
  shape x = [bsz; q1; d] -> shape y = [bsz; q2; d] -> cat 1 x y = Ok z ->
  (q1 =? 1)%nat && cuda && no_past past = false ->
  exists w1 w2 w3 ox oy oz o kx vx ky vy hz kz vz,
    block_forward l cuda z None (owned past) false true w = Some (w1, Ok (oz, Some (hz, vz))) /\ deref w1 hz = Ok kz /\
    block_forward l cuda x None (owned past) false true w = Some (w2, Ok (ox, Some (Own kx, vx))) /\
    block_forward l cuda y None (Some (Own kx, vx)) false true w2 = Some (w3, Ok (oy, Some (Own ky, vy))) /\
    cat 1 ox oy = Ok o /\ oz ≡t o /\ kz ≡t ky /\ vz ≡t vy.
Proof.
  intros OK Hw Hpast Hx Hy Hz Hne. pose proof (bloom_cache_rows _ _ _ _ _ Hpast) as Hcache.
  destruct (computes_in_chunks (graphs_ok (self_attn l) d) (fun _ _ _ => True) d (layer_rows l d fq fk fv fo OK)
    (fun x past => block_values l cuda x past) bsz p q1 q2 x y z past w) as
    (w1 & w2 & w3 & ox & oy & oz & o & kx & vx & ky & vy & kz & vz & Hrz & Hrx & Hry & Hrest); [apply block_computes|done..|].
  destruct (cat1_rows _ _ _ _ _ _ Hx Hy) as (z' & Hz' & Hzs & _). rewrite Hz in Hz'. injection Hz' as <-.
  destruct (values_spec l d fq fk fv fo OK cuda bsz p _ z past _ _ w Hzs Hcache Hw) as (w1' & oz' & hz & kz' & vz' & Hz1 & Hz2 & Hhz & _).
  rewrite Hrz in Hz2. injection Hz2 as <- <- <- <-.
  destruct (values_spec l d fq fk fv fo OK cuda bsz p _ x past _ _ w Hx Hcache Hw) as
    (w2' & ox' & hx & kx' & vx' & Hx1 & Hx2 & Hhx & Hw2 & _ & _ & Hbx).
  rewrite Hrx in Hx2. injection Hx2 as <- <- <- <-. pose proof (proj2 Hhx Hne) as ->.
  destruct (values_spec l d fq fk fv fo OK cuda bsz _ _ y (Some (kx, vx)) _ _ w2 Hy Hbx Hw2) as
    (w3' & oy' & hy & ky' & vy' & Hy1 & Hy2 & Hhy & _).
  rewrite Hry in Hy2. injection Hy2 as <- <- <- <-. pose proof (proj2 Hhy (andb_false_r _)) as ->.
  exists w1, w2, w3, ox, oy, oz, o, kx, vx, ky, vy, hz, kz, vz. split; [done|]. split; [by apply Hhz|]. done.
Qed.

(** C9: the wrapped LLaMA block refines the module of its rows, the interface of a served block: on the columns and slots of
    its tensors it gives the outputs and the cache that the module gives, in memory of the caller's own.  Without CUDA this
    is so for all batches; with CUDA, if the graphs that are there were recorded for batches of this size ([graphs_ok]: a
    graph is recorded at the first single token and kept, see [graph_keeps_batch]). *)
Theorem llama_block_refines l d fq fk fv fo (OK : layer_ok l d fq fk fv fo) hd cuda bsz p q (x : Tensor) kv w b :
  let R := layer_rows l d fq fk fv fo OK in
  graphs_ok (self_attn l) d bsz w ->
  cache_shapes bsz (num_key_value_heads (self_attn l)) p (head_dim (self_attn l)) (Some kv) -> shape x = [bsz; q; d] ->
  exists w' o kv', block_forward l cuda x None (owned (Some kv)) false true w = Some (w', Ok (o, owned (Some kv'))) /\
    graphs_ok (self_attn l) d bsz w' /\
    mod_forward (CausalModule := RowsModule hd (fun _ => R)) b (cache_slots R bsz p kv) (columns bsz q x) =
      (columns bsz q o, cache_slots R bsz (p + q) kv').
Proof.
  intros R Hw Hs Hx. destruct (computes_refines (graphs_ok (self_attn l) d) (fun _ _ _ => True) d R (fun x past => block_values l cuda x past)
    bsz p q x kv w (block_computes l d fq fk fv fo OK cuda) I Hw Hs Hx) as (w' & o & kv' & Hrun & Hw' & _ & Hf).
  destruct (values_spec l d fq fk fv fo OK cuda bsz p q x (Some kv) _ _ w Hx (bloom_cache_rows _ _ _ _ _ Hs) Hw) as
    (w2 & o2 & h & k & v & H1 & H2 & Hh & _).
  rewrite Hrun in H2. injection H2 as <- <- ->. pose proof (proj2 Hh (andb_false_r _)) as ->.
  by exists w', o, (k, v).
Qed.
End llama_causal.

(** ** An example

    Integers with a masked score; a weight grows with its score.  Two query heads share one key/value head. *)

Inductive score := Score (z : Z) | Masked.

Definition score_value (x : score) : Z := match x with Score z => z | Masked => 0 end.

Definition score_add (x y : score) : score :=
  match x, y with Score a, Score b => Score (a + b) | _, _ => Masked end.

Definition score_dot (w v : list score) : score := Score (zsum (zip_with (fun a b => score_value a * score_value b) w v)).

Definition score_weight (x : score) : score := match x with Score z => Score (1 + z * z) | Masked => Score 0 end.

#[local, refine] Instance score_numbers : Numbers := {|
  num := score;
  zero := Score 0;
  add := score_add;
  mul x y := Score (score_value x * score_value y);
  dot := score_dot;
  softmax := map score_weight;
  finfo_min := Masked;
|}.
Proof.
  - intros [z|]; [|done]. cbn. f_equal. lia.
  - intros w v u Hl. unfold score_dot. f_equal. rewrite zip_with_app by done. rewrite zsum_app.
    assert (E : zsum (zip_with (fun a b => score_value a * score_value b) (replicate (length u) (Score 0)) u) = 0).
    { clear. induction u as [|x u IH]; [done|]. cbn in *. exact IH. }
    rewrite E. apply Z.add_0_r.
  - intros l. apply length_map.
  - intros l l' _. rewrite map_app. f_equal. induction l' as [|[z|] l' IH]; cbn; [done|by rewrite IH..].
Defined.

#[local, refine] Instance score_llama : LlamaLibrary := {|
  rotate_half r := drop (length r / 2) r ++ take (length r / 2) r;
  rotary_cos p d := Score (Z.of_nat (p + d));
  rotary_sin p d := Score (Z.of_nat p - Z.of_nat d);
  inv_sqrt _ x := x;
  repeat_kv t n :=
    mkTensor (match shape t with [b; g; s; d] => [b; g * n; s; d]%nat | s => s end)
      (fun idx => match idx with [i; h; j; k] => at_ t [i; h / n; j; k]%nat | _ => Masked end);
  prepare_4d_causal_attention_mask b q p :=
    mkTensor [b; 1; q; p + q]%nat
      (fun idx => if (coord 3 idx <=? p + coord 2 idx)%nat then Score 0 else Masked);
|}.
Proof.
  - intros t n b g s d Hs. cbn [shape at_]. by rewrite Hs.
  - intros b q p. by split.
Defined.

(** A linear layer that reverses and scales its row. *)
Definition reversing (n : nat) : linear_module :=
  mkLinear (mkTensor [0; 0]%nat (fun _ => Masked)) n (fun r => take n (rev (score_add (Score 1) <$> r))).

Definition small_layer : LlamaDecoderLayer :=
  mkLlamaLayer (mkLlamaAttention 2 1 2 2 4 1 (reversing 4) (reversing 2) (reversing 2) (reversing 4)) (fun r => r) (@rev score) (fun r => r).

Definition counting (s : list nat) : tensor score := mkTensor s (fun idx => Score (Z.of_nat (ravel s idx) - 3)).

Lemma reversing_length m n r : (m <= n)%nat -> length r = n -> length (lm_row (reversing m) r) = m.
Proof. intros Hm Hr. unfold reversing. cbn [lm_row]. rewrite length_take, length_rev, length_fmap. pose proof (Hr : @length score r = n). lia. Qed.

Lemma small_layer_ok : layer_ok small_layer 4 (lm_row (reversing 4)) (lm_row (reversing 2)) (lm_row (reversing 2)) (lm_row (reversing 4)).
Proof.
  assert (H4 : forall r, length r = 4%nat -> length (lm_row (reversing 4) r) = 4%nat) by (intros r; by apply reversing_length).
  assert (H2 : forall r, length r = 4%nat -> length (lm_row (reversing 2) r) = 2%nat).
  { intros r. apply reversing_length. repeat constructor. }
  split; [split; [done|done| | | |]| |intros r Hr; etrans; [apply length_rev|done]|]; try by intros r.
  - by apply (project_whole 1 4 4).
  - by apply (project_whole 1 4 2).
  - by apply (project_whole 1 4 2).
  - by apply (project_out_whole (self_attn small_layer) 4).
Qed.

Definition part1 : tensor score := counting [1; 1; 4]%nat.
Definition part2 : tensor score := mkTensor [1; 1; 4]%nat (fun idx => Score (Z.of_nat (ravel [1; 1; 4]%nat idx) * 2)).
Definition whole : tensor score := from_ok part1 (cat 1 part1 part2).
Definition small_past : tensor score * tensor score := (counting [1; 2; 2]%nat, counting [1; 2; 2]%nat).

Definition no_graphs : llama_graphs (NU := score_numbers) := mkGraphs None None None.

(** Two tokens after a past of two, together and one by one, on a GPU: the graphs are recorded by the first part and
    replayed by the second. *)
Lemma llama_block_in_chunks_witness :
  exists w1 w2 w3 ox oy oz o kx vx ky vy hz kz vz,
    block_forward small_layer true whole None (owned (Some small_past)) false true no_graphs = Some (w1, Ok (oz, Some (hz, vz))) /\
    deref w1 hz = Ok kz /\
    block_forward small_layer true part1 None (owned (Some small_past)) false true no_graphs = Some (w2, Ok (ox, Some (Own kx, vx))) /\
    block_forward small_layer true part2 None (Some (Own kx, vx)) false true w2 = Some (w3, Ok (oy, Some (Own ky, vy))) /\
    cat 1 ox oy = Ok o /\ oz ≡t o /\ kz ≡t ky /\ vz ≡t vy.
Proof.
  apply (llama_block_in_chunks small_layer 4 _ _ _ _ true 1 2 1 1 part1 part2 whole _ _ small_layer_ok).
  - by repeat split.
  - by split.
  - reflexivity.
  - reflexivity.
  - reflexivity.
  - reflexivity.
Defined.

(** The same two tokens as columns of the module. *)
Lemma llama_block_refines_witness :
  exists w' o kv', block_forward small_layer true whole None (owned (Some small_past)) false true no_graphs = Some (w', Ok (o, owned (Some kv'))) /\
    graphs_ok (self_attn small_layer) 4 1 w' /\
    let R := layer_rows small_layer 4 _ _ _ _ small_layer_ok in
    mod_forward (CausalModule := RowsModule 2 (fun _ => R)) (0, None) (cache_slots R 1 2 small_past) (columns 1 2 whole) =
      (columns 1 2 o, cache_slots R 1 (2 + 2) kv').
Proof.
  apply (llama_block_refines small_layer 4 _ _ _ _ small_layer_ok 2 true 1 2 2 whole small_past no_graphs (0, None)).
  - by repeat split.
  - by split.
  - reflexivity.
Defined.

(** What the block computes for them. *)
Definition evaluate (t : tensor score) : list Z := (fun k => score_value (at_ t (unravel (shape t) k))) <$> seq 0 (numel (shape t)).

Definition outputs (r : option (llama_graphs * result (tensor score * option (held score llama_graphs * tensor score)))) : list Z :=
  match r with Some (_, Ok (o, _)) => evaluate o | _ => [] end.

Example small_block_parts :
  match block_forward small_layer true part1 None (owned (Some small_past)) false true no_graphs with
  | Some (w, Ok (o, cache)) =>
      evaluate o ++ outputs (block_forward small_layer true part2 None cache false true w)
  | _ => []
  end = [-1394; -1762; -1762; -1394; 45007391; 34187327; 34187327; 45007391].
Proof. vm_compute. reflexivity. Qed.

(** Without a past the keys of the first token share the memory of the rotary graph: the call for the second token reads
    them after it has replayed the graph, so its output is not that of the second of the two tokens together.  With an
    empty past, as the servers pass it, it is. *)
Definition second_output (past : option (tensor score * tensor score)) : list Z :=
  match block_forward small_layer true part1 None (owned past) false true no_graphs with
  | Some (w, Ok (_, cache)) => outputs (block_forward small_layer true part2 None cache false true w)
  | _ => []
  end.

Definition empty_past : tensor score * tensor score := (mkTensor [1; 2; 0]%nat (fun _ => Masked), mkTensor [1; 0; 2]%nat (fun _ => Masked)).

Lemma llama_block_shares_keys :
  let together := drop 4 (outputs (block_forward small_layer true whole None None false true no_graphs)) in
  second_output None <> together /\ second_output (Some empty_past) = together.
Proof. vm_compute. split; [discriminate|reflexivity]. Qed.
