(* ===== verification/WrappedBlocks.v ===== *)
(** * WrappedBlocks: [models/bloom/block.py] and [models/mixtral/block.py]

    The decoder layers of BLOOM and Mixtral are those of [transformers] (parameters here); the wrappers prepare
    their masks and positions and convert the cache.  Each wrapper is shown to compute the rows that its layer
    computes, so that both can serve as the module of a backend. *)

From S2P Require Import Prelude Effects Utils Tensors Numerics CausalRows CudaGraphs LlamaBlock LlamaCausal.

Section wrapped.
Context {NU : Numbers}.
Abbreviation Tensor := (tensor num).

(** ** BLOOM *)

(** [super().forward] of a [BloomBlock]: hidden states, mask, alibi, past, [use_cache]; and what builds its arguments. *)
Record BloomBlock := mkBloomBlock {
  bb_num_heads : nat;
  bb_forward : Tensor -> tensor bool -> Tensor -> option (Tensor * Tensor) -> bool -> result (Tensor * option (Tensor * Tensor));
  bb_causal_mask : nat -> nat -> nat -> Tensor;             (* batch, chunk, past: _prepare_4d_causal_attention_mask *)
  bb_alibi : nat -> nat -> nat -> Tensor;                   (* batch, length, heads: build_alibi_tensor *)
  bb_to_bool : num -> bool;
}.

(** [is_dummy(tensor)] *)
Definition is_dummy_tensor (t : Tensor) : bool := (numel (shape t) =? 0)%nat.

(** [shape[-1]] *)
Definition last_dim (t : Tensor) : result nat := match shape t with [] => Err IndexError | s => Ok (List.last s 0%nat) end.

Definition bloom_forward (m : BloomBlock) (hidden_states : Tensor) (attention_mask : option Tensor) (alibi : option Tensor)
    (layer_past : option (Tensor * Tensor)) (use_cache : bool) : result (Tensor * option (Tensor * Tensor)) :=
  _ ← assert_ (match attention_mask with None => true | Some _ => false end);
  batch_size ← size hidden_states 0;
  seq_length ← size hidden_states 1;
  let layer_past := match layer_past with
                    | Some (k, v) => if is_dummy_tensor k then None else Some (k, v)
                    | None => None
                    end in
  past_length ← match layer_past with Some (k, _) => last_dim k | None => Ok 0%nat end;
  let seq_length_with_past := (seq_length + past_length)%nat in
  let alibi := match alibi with Some a => a | None => bb_alibi m batch_size seq_length_with_past (bb_num_heads m) end in
  let mask := bb_causal_mask m batch_size seq_length past_length in
  bb_forward m hidden_states (mkTensor (shape mask) (fun idx => bb_to_bool m (at_ mask idx))) alibi layer_past use_cache.

(** What is documented of the layer: with the causal mask and the alibi of the whole length it computes rows. *)
Definition bloom_layer_computes (m : BloomBlock) (d : nat) (R : causal_rows) : Prop :=
  forall bsz p q (x : Tensor) past pk pv,
  shape x = [bsz; q; d] -> bloom_cache bsz (cr_heads R) p (cr_head_dim R) past pk pv ->
  let X := fun b t => row x [b; t] in
  let mask := bb_causal_mask m bsz q p in
  exists o k v,
    bb_forward m x (mkTensor (shape mask) (fun idx => bb_to_bool m (at_ mask idx))) (bb_alibi m bsz (q + p) (bb_num_heads m)) past true =
      Ok (o, Some (k, v)) /\
    shape o = [bsz; q; d] /\
    (forall b t, (b < bsz)%nat -> (t < q)%nat -> row o [b; t] = out_from R pk pv p X b t) /\
    bloom_cache bsz (cr_heads R) (p + q) (cr_head_dim R) (Some (k, v)) (key_from R pk p X) (value_from R pv p X).

(** The wrapped block computes the rows of the layer: an empty past is no past. *)
Lemma bloom_computes m d R : (0 < cr_heads R)%nat -> (0 < cr_head_dim R)%nat -> bloom_layer_computes m d R ->
  computes (fun bsz (_ : unit) => (0 < bsz)%nat) (fun _ _ _ => True) d R
    (fun x past w => Some (w, bloom_forward m x None None past true)).
Proof.
  intros Hh Hd HL bsz p q x past pk pv w Hx Hpast _ Hb X. unfold bloom_forward. cbn [assert_ mbind result_bind].
  unfold size. rewrite Hx. cbn [lookup list_lookup get_or mbind result_bind].
  set (past' := match past with Some (k, v) => _ | None => None end).
  assert (bloom_cache bsz (cr_heads R) p (cr_head_dim R) past' pk pv /\
    (match past' with Some (k, _) => last_dim k | None => Ok 0%nat end) = Ok p) as [Hcache Hlen].
  { unfold past'. destruct past as [[k v]|]; cbn [bloom_cache] in Hpast; [|by rewrite Hpast].
    destruct Hpast as (Hk & Hpast). unfold is_dummy_tensor. rewrite Hk.
    destruct (Nat.eqb_spec (numel [bsz * cr_heads R; cr_head_dim R; p]%nat) 0) as [E|E].
    - assert (Hp : p = 0%nat) by (destruct p; [done|]; simpl in E; nia). by rewrite Hp.
    - split; [done|]. unfold last_dim. by rewrite Hk. }
  rewrite Hlen. cbn [mbind result_bind].
  destruct (HL bsz p q x past' pk pv Hx Hcache) as (o & k & v & Hrun & Ho). exists w, o, k, v. split; [|done]. by rewrite Hrun.
Qed.

(** ** Mixtral *)

(** [transformers.cache_utils.DynamicCache] *)
Record DynamicCache := mkDynamicCache {
  key_cache : list Tensor;
  value_cache : list Tensor;
  seen_tokens : nat;
}.

(** [cache[layer_idx]] *)
Definition cache_item (c : DynamicCache) (i : nat) : result (Tensor * Tensor) :=
  k ← get_or KeyError (key_cache c !! i);
  v ← get_or KeyError (value_cache c !! i);
  Ok (k, v).

Inductive attn_implementation := FlashAttention2 | Sdpa | Eager.

(** [super().forward] of a [MixtralDecoderLayer]: hidden states, mask, positions, past, [use_cache]. *)
Record MixtralBlock := mkMixtralBlock {
  mb_layer_idx : nat;
  mb_num_key_value_heads : nat;
  mb_head_dim : nat;
  mb_attn_implementation : attn_implementation;
  mb_sliding_window : option nat;
  mb_mask_for_sdpa : nat -> nat -> nat -> option Tensor;    (* batch, chunk, past *)
  mb_mask : nat -> nat -> nat -> option nat -> Tensor;      (* and the sliding window *)
  mb_empty : Tensor;                                        (* torch.empty(0) *)
  mb_forward : Tensor -> option Tensor -> list nat -> option DynamicCache -> bool -> result (Tensor * option DynamicCache);
}.

Definition _reorder_cache_from_bloom (m : MixtralBlock) (key_value : Tensor * Tensor) (batch_size seq_length : nat) : result (Tensor * Tensor) :=
  let '(key_states, value_states) := key_value in
  key_states ← permute021 key_states;
  key_states ← view [batch_size; mb_num_key_value_heads m; seq_length; mb_head_dim m] key_states;
  value_states ← view (shape key_states) value_states;
  Ok (key_states, value_states).

Definition _reorder_cache_to_bloom (m : MixtralBlock) (key_value : Tensor * Tensor) (batch_size seq_length : nat) : result (Tensor * Tensor) :=
  let '(key_states, value_states) := key_value in
  value_states ← view [batch_size * mb_num_key_value_heads m; seq_length; mb_head_dim m]%nat value_states;
  key_states ← view (shape value_states) key_states;
  key_states ← permute021 key_states;
  Ok (key_states, value_states).

(** The mask of a call without [attention_mask]. *)
Definition mixtral_mask (m : MixtralBlock) (batch_size seq_length past_key_values_length : nat) : option Tensor :=
  match mb_attn_implementation m with
  | FlashAttention2 => None
  | Sdpa => mb_mask_for_sdpa m batch_size seq_length past_key_values_length
  | Eager => Some (mb_mask m batch_size seq_length past_key_values_length (mb_sliding_window m))
  end.

(** A cache that holds only this layer. *)
Definition single_layer_cache (m : MixtralBlock) (kv : Tensor * Tensor) (seen : nat) : DynamicCache :=
  mkDynamicCache (replicate (mb_layer_idx m) (mb_empty m) ++ [kv.1]) (replicate (mb_layer_idx m) (mb_empty m) ++ [kv.2]) seen.

(** [torch.arange(past, past + seq).unsqueeze(0).view(-1, seq)]: the number of rows of nothing cannot be inferred. *)
Definition position_ids (past seq_length : nat) : result (list nat) :=
  if (seq_length =? 0)%nat then Err RuntimeError else Ok (seq past seq_length).

Definition mixtral_forward (m : MixtralBlock) (hidden_states : Tensor) (layer_past : option (Tensor * Tensor)) (use_cache : bool)
    : result (Tensor * option (Tensor * Tensor)) :=
  '(batch_size, seq_length, _) ← dims3 hidden_states;
  past_key_values_length ← match layer_past with Some (k, _) => size k 2 | None => Ok 0%nat end;
  let seq_length_with_past := (seq_length + past_key_values_length)%nat in
  past_key_value ← match layer_past with
                   | Some kv =>
                       kv ← _reorder_cache_from_bloom m kv batch_size past_key_values_length;
                       Ok (Some (single_layer_cache m kv past_key_values_length))
                   | None => Ok None
                   end;
  let attention_mask := mixtral_mask m batch_size seq_length past_key_values_length in
  positions ← position_ids past_key_values_length seq_length;
  '(hidden_states, present) ← mb_forward m hidden_states attention_mask positions past_key_value use_cache;
  if use_cache then
    present ← get_or TypeError present;
    present ← cache_item present (mb_layer_idx m);
    present ← _reorder_cache_to_bloom m present batch_size seq_length_with_past;
    Ok (hidden_states, Some present)
  else Ok (hidden_states, None).

(** What is documented of the layer: with its mask, the positions after the past and a cache that holds the layer's
    past, it computes rows and extends the cache of the layer. *)
Definition mixtral_layer_computes (m : MixtralBlock) (d : nat) (R : causal_rows) : Prop :=
  cr_heads R = mb_num_key_value_heads m /\ cr_head_dim R = mb_head_dim m /\
  forall bsz p q (x k v : Tensor) pk pv,
  shape x = [bsz; q; d] -> (0 < q)%nat ->
  cache_of bsz (cr_heads R) p (cr_head_dim R) (Some k) pk -> cache_of bsz (cr_heads R) p (cr_head_dim R) (Some v) pv ->
  let X := fun b t => row x [b; t] in
  exists o c k' v',
    mb_forward m x (mixtral_mask m bsz q p) (seq p q) (Some (single_layer_cache m (k, v) p)) true = Ok (o, Some c) /\
    cache_item c (mb_layer_idx m) = Ok (k', v') /\ shape o = [bsz; q; d] /\
    (forall b t, (b < bsz)%nat -> (t < q)%nat -> row o [b; t] = out_from R pk pv p X b t) /\
    cache_of bsz (cr_heads R) (p + q) (cr_head_dim R) (Some k') (key_from R pk p X) /\
    cache_of bsz (cr_heads R) (p + q) (cr_head_dim R) (Some v') (value_from R pv p X).

Section mixtral.
Context {LL : LlamaLibrary} (m : MixtralBlock) (d : nat) (R : causal_rows) (HL : mixtral_layer_computes m d R).

(** The conversions of the cache are those of LLaMA. *)
Definition same_heads (lin : linear_module) : LlamaAttention :=
  mkLlamaAttention 0 (mb_num_key_value_heads m) 0 (mb_head_dim m) 0 0 lin lin lin lin.

Lemma mixtral_computes :
  computes (fun _ (_ : unit) => True) (fun q past _ => (0 < q)%nat /\ past <> None) d R
    (fun x past w => Some (w, mixtral_forward m x past true)).
Proof.
  destruct HL as (Hh & Hd & Hrun). intros bsz p q x past pk pv w Hx Hpast [Hq Hsome] _ X. rewrite Hh, Hd in *.
  destruct past as [[k v]|]; [|done]. pose (a := same_heads (mkLinear (mb_empty m) 0 (fun r => r))).
  destruct (from_bloom_spec a bsz p k v pk pv Hpast) as (k1 & v1 & Hconv & Hk1 & Hv1).
  destruct (Hrun bsz p q x k1 v1 pk pv Hx Hq Hk1 Hv1) as (o & c & k2 & v2 & Hfw & Hitem & Hos & Hor & Hk2 & Hv2).
  destruct (to_bloom_spec a bsz (p + q) k2 v2 _ _ Hk2 Hv2) as (k3 & v3 & Hback & Hbloom).
  exists w, o, k3, v3. split; [|by (split; [done|]; split; [done|]; split)].
  unfold mixtral_forward, dims3, size. rewrite Hx. cbn [mbind result_bind]. destruct Hpast as (Hks & _). rewrite Hks.
  cbn [lookup list_lookup get_or mbind result_bind].
  change (_reorder_cache_from_bloom m (k, v) bsz p) with (bloom_to_llama a (k, v) bsz p).
  rewrite Hconv. cbn [mbind result_bind]. unfold position_ids. destruct (Nat.eqb_spec q 0); [lia|]. cbn [mbind result_bind].
  rewrite Hfw. cbn [mbind result_bind get_or]. rewrite Hitem. cbn [mbind result_bind].
  replace (q + p)%nat with (p + q)%nat by lia.
  change (_reorder_cache_to_bloom m (k2, v2) bsz (p + q)) with (llama_to_bloom a (k2, v2) bsz (p + q)).
  by rewrite Hback.
Qed.
End mixtral.
End wrapped.
