(* ===== verification/FalconBlock.v ===== *)
(** * FalconBlock: [models/falcon/block.py]

    The attention of a Falcon block, its rotary embedding with a cache of cosines and sines, the optimised decoder
    layer, and the wrapper that expands the cache of the servers to one head per query and collapses it again.
    The graph of the rotary embedding is recorded with views of the cached cosines and sines ([type] of the same dtype
    copies nothing), so that later calls write to the cache: the model has that aliasing.
    Dropout has probability zero, as in served models; the dtype of the hidden states is that of the model. *)

From S2P Require Import Prelude Effects Tensors Numerics CudaGraphs LlamaBlock.

(** What comes from [transformers] and from the arithmetic of PyTorch: [rotate_half], the cosines and sines of the
    positions, [build_alibi_tensor] of a mask of ones, [_prepare_attn_mask] (true where a token must not look), the
    splitting of heads of the old architecture, and [float("-1e9")] as a mask. *)
Class FalconLibrary {NU : Numbers} := {
  f_rotate_half : list num -> list num;
  f_cos : nat -> nat -> num;
  f_sin : nat -> nat -> num;
  sdpa_scale : nat -> num -> num;                              (* of scaled_dot_product_attention *)
  inv_norm_scale : nat -> num -> num;                          (* * 1 / sqrt(head_dim) *)
  minus_1e9 : num;
  minus_1e9_masks : masks minus_1e9;
  build_alibi_tensor : nat -> nat -> nat -> tensor num;        (* batch, length, heads *)
  alibi_value : nat -> nat -> nat -> num;                      (* heads, head, position *)
  alibi_spec : forall b n h, shape (build_alibi_tensor b n h) = [b * h; 1; n]%nat /\
    forall i j s, (i < b)%nat -> (j < h)%nat -> (s < n)%nat -> at_ (build_alibi_tensor b n h) [i * h + j; 0; s]%nat = alibi_value h j s;
  prepare_attn_mask : nat -> nat -> nat -> tensor bool;        (* batch, chunk, past *)
  attn_mask_spec : forall b q p, shape (prepare_attn_mask b q p) = [b; 1; q; p + q]%nat /\
    forall i t s, (i < b)%nat -> (t < q)%nat -> (s < p + q)%nat ->
      at_ (prepare_attn_mask b q p) [i; 0; t; s]%nat = negb (s <=? p + t)%nat;
  old_split_heads : nat -> nat -> bool -> tensor num -> result (tensor num * tensor num * tensor num);  (* heads, head size, multi_query *)
}.

Section falcon.
Context {NU : Numbers} {FL : FalconLibrary}.
Abbreviation Tensor := (tensor num).

Definition INFERENCE_MAX_LENGTH : Z := 8192.

Record FalconConfig := mkFalconConfig {
  fc_hidden_size : nat;
  fc_num_attention_heads : nat;
  fc_num_kv_heads : nat;
  fc_new_decoder_architecture : bool;
  fc_multi_query : bool;
  fc_alibi : bool;
  fc_rotary : bool;
  fc_parallel_attn : bool;
}.

(** [DistributedFalconConfig.num_key_value_groups] *)
Definition num_key_value_groups (c : FalconConfig) : nat :=
  if fc_new_decoder_architecture c then (fc_num_attention_heads c / fc_num_kv_heads c)%nat
  else if fc_multi_query c then fc_num_attention_heads c else 1%nat.

(** [self.head_dim = self.hidden_size // self.num_heads] *)
Definition fc_head_dim (c : FalconConfig) : nat := (fc_hidden_size c / fc_num_attention_heads c)%nat.

(** The check of the constructor of the attention. *)
Definition attention_init (c : FalconConfig) : result unit :=
  raise_if (negb (fc_head_dim c * fc_num_attention_heads c =? fc_hidden_size c)%nat) ValueError.

(** The layer normalisations that the constructor of the layer creates, and whether it creates [ln_graph]. *)
Inductive norms := LnAttnMlp (ln_attn ln_mlp : list num -> list num) | InputNorm (input_ln : list num -> list num) (post_ln : option (list num -> list num)).

Definition layer_init (c : FalconConfig) (ln_attn ln_mlp input_ln post_ln : list num -> list num) : norms * bool :=
  if fc_alibi c || negb (fc_new_decoder_architecture c) then
    if fc_new_decoder_architecture c then (LnAttnMlp ln_attn ln_mlp, false)
    else (InputNorm input_ln (if fc_parallel_attn c then None else Some post_ln), false)
  else (LnAttnMlp ln_attn ln_mlp, true).

Record FalconDecoderLayer := mkFalconLayer {
  fl_config : FalconConfig;
  fl_query_key_value : linear_module;
  fl_dense : linear_module;
  fl_norms : norms;
  fl_has_ln_graph : bool;
  fl_mlp : list num -> list num;
}.

(** The graphs of a layer and the cached cosines and sines; [fs_rotary_view] is the position whose cosines and sines
    in the cache are the memory of the inputs of [fs_rotary_graph]. *)
Record falcon_state := mkFalconState {
  fs_rotary_graph : option (@graphed num);
  fs_split_graph : option (@graphed num);
  fs_ln_graph : option (@graphed num);
  fs_seq_len_cached : Z;
  fs_cos_cached : Tensor;
  fs_sin_cached : Tensor;
  fs_rotary_view : option nat;
}.

Definition fs_init : falcon_state := mkFalconState None None None (-1) (mkTensor [] (fun _ => zero)) (mkTensor [] (fun _ => zero)) None.
Definition set_rotary_graph g (w : falcon_state) : falcon_state :=
  mkFalconState g (fs_split_graph w) (fs_ln_graph w) (fs_seq_len_cached w) (fs_cos_cached w) (fs_sin_cached w) (fs_rotary_view w).
Definition set_split_graph g (w : falcon_state) : falcon_state :=
  mkFalconState (fs_rotary_graph w) g (fs_ln_graph w) (fs_seq_len_cached w) (fs_cos_cached w) (fs_sin_cached w) (fs_rotary_view w).
Definition set_ln_graph g (w : falcon_state) : falcon_state :=
  mkFalconState (fs_rotary_graph w) (fs_split_graph w) g (fs_seq_len_cached w) (fs_cos_cached w) (fs_sin_cached w) (fs_rotary_view w).
Definition set_cached n cos sin view (w : falcon_state) : falcon_state :=
  mkFalconState (fs_rotary_graph w) (fs_split_graph w) (fs_ln_graph w) n cos sin view.

(** Runs a graph of the layer: recorded at the first call, its inputs are always copied.  Its static outputs are read at
    once: the layer uses them before it replays the graph again.  (Without a past, the states that it returns for a single
    token on a GPU would still share their memory, as those of LLaMA do; here they are what is there at the return.  The
    servers always pass a past, with which the states are concatenated into new memory.) *)
Definition run_falcon_graph (get : falcon_state -> option graphed) (set : option graphed -> falcon_state -> falcon_state)
    (callable : list Tensor -> result (list Tensor)) (args : list Tensor) : prog falcon_state (list Tensor) :=
  l ← call_graph get set callable args; read_all l.

(** ** Rotary embeddings *)

Definition f_rotate (x cos sin : Tensor) : result Tensor :=
  c ← elementwise mul x cos;
  s ← elementwise mul (on_rows (List.last (shape x) 0%nat) f_rotate_half x) sin;
  elementwise add c s.

Definition apply_rotary (query key cos sin : Tensor) : result (Tensor * Tensor) :=
  q ← f_rotate query cos sin;
  k ← f_rotate key cos sin;
  Ok (q, k).

Definition falcon_rotary_callable (l : list Tensor) : result (list Tensor) :=
  match l with
  | [q; k; cos; sin] => '(q, k) ← apply_rotary q k cos sin; Ok [q; k]
  | _ => Err TypeError
  end.

(** The memory of the cache at position [p] holds [r]. *)
Definition overwrite_row (p : nat) (t r : Tensor) : Tensor :=
  mkTensor (shape t) (fun idx => if (coord 1 idx =? p)%nat then at_ r (set_coord 1 0 idx) else at_ t idx).

(** The inputs of the graph hold the last arguments; those for cosines and sines may be views of the cache. *)
Definition write_through (w : falcon_state) : falcon_state :=
  match fs_rotary_view w, fs_rotary_graph w with
  | Some p, Some (mkGraphed [_; _; cos; sin] _) =>
      set_cached (fs_seq_len_cached w) (overwrite_row p (fs_cos_cached w) cos) (overwrite_row p (fs_sin_cached w) sin) (Some p) w
  | _, _ => w
  end.

(** [cos] and [sin] are slices of the cache at position [past]: the graph is recorded with these views. *)
Definition falcon_optimized_rotary (past : nat) (q k cos sin : Tensor) : prog falcon_state (Tensor * Tensor) := fun w =>
  let w := match fs_rotary_graph w with
           | None => set_cached (fs_seq_len_cached w) (fs_cos_cached w) (fs_sin_cached w) (Some past) w
           | Some _ => w
           end in
  (l ← run_falcon_graph fs_rotary_graph (fun g w => write_through (set_rotary_graph g w)) falcon_rotary_callable [q; k; cos; sin];
   match l with [q; k] => ret (q, k) | _ => raise ValueError end) w.

(** The table of the first [n] positions. *)
Definition rotary_table (n hd : nat) (f : nat -> nat -> num) : Tensor := mkTensor [1; n; hd]%nat (fun idx => f (coord 1 idx) (coord 2 idx)).

Definition cos_sin (hd seq_len past_key_values_length : nat) : prog falcon_state (Tensor * Tensor) := fun w =>
  let total_length := Z.of_nat (seq_len + past_key_values_length) in
  let total_length := if fs_seq_len_cached w =? -1 then Z.max INFERENCE_MAX_LENGTH total_length else total_length in
  let w := if fs_seq_len_cached w <? total_length
           then set_cached total_length (rotary_table (Z.to_nat total_length) hd f_cos) (rotary_table (Z.to_nat total_length) hd f_sin) None w
           else w in
  let range := slice_dim 1 past_key_values_length (seq_len + past_key_values_length) in
  Some (w, Ok (range (fs_cos_cached w), range (fs_sin_cached w))).

(** [OptimizedFalconRotaryEmbedding.forward] *)
Definition rotary_forward (hd : nat) (cuda : bool) (query key : Tensor) (past_key_values_length : nat) : prog falcon_state (Tensor * Tensor) :=
  '(_, seq_len, _) ← lift (dims3 query);
  '(cos, sin) ← cos_sin hd seq_len past_key_values_length;
  if (seq_len =? 1)%nat && cuda then falcon_optimized_rotary past_key_values_length query key cos sin else lift (apply_rotary query key cos sin).

(** [self.maybe_rotary] *)
Definition maybe_rotary (c : FalconConfig) (cuda : bool) (query key : Tensor) (past : nat) : prog falcon_state (Tensor * Tensor) :=
  if fc_rotary c then rotary_forward (fc_head_dim c) cuda query key past else ret (query, key).

(** ** Heads *)

(** [x.expand] and [flatten(2, 3)] of [split_heads]: head [n] of every group, for all queries of the group. *)
Definition flatten_heads (x : Tensor) : result Tensor :=
  match shape x with
  | [b; s; g; n; d] => view [b; s; g * n; d]%nat x
  | _ => Err IndexError
  end.

Definition split_heads (fused_qkv : Tensor) (num_heads num_kv_heads head_dim : nat) : result (Tensor * Tensor * Tensor) :=
  '(batch, seq_len, width) ← dims3 fused_qkv;
  _ ← raise_if (num_kv_heads =? 0)%nat ZeroDivisionError;
  let n := (num_heads / num_kv_heads)%nat in
  let groups := (width / ((n + 2) * head_dim))%nat in                          (* -1 *)
  qkv ← view [batch; seq_len; groups; n + 2; head_dim]%nat fused_qkv;
  let query := slice_dim 3 0 n qkv in
  let key := expand_dim 3 n (slice_dim 3 n (n + 1) qkv) in
  let value := expand_dim 3 n (slice_dim 3 (n + 1) (n + 2) qkv) in
  query ← flatten_heads query;
  key ← flatten_heads key;
  value ← flatten_heads value;
  Ok (query, key, value).

Definition split_callable (c : FalconConfig) (l : list Tensor) : result (list Tensor) :=
  match l with
  | [x] => '(q, k, v) ← split_heads x (fc_num_attention_heads c) (fc_num_kv_heads c) (fc_head_dim c); Ok [q; k; v]
  | _ => Err TypeError
  end.

Definition _optimized_split_heads (c : FalconConfig) (fused_qkv : Tensor) : prog falcon_state (Tensor * Tensor * Tensor) :=
  l ← run_falcon_graph fs_split_graph set_split_graph (split_callable c) [fused_qkv];
  match l with [q; k; v] => ret (q, k, v) | _ => raise ValueError end.

(** [self._split_heads] *)
Definition _split_heads (c : FalconConfig) (fused_qkv : Tensor) : result (Tensor * Tensor * Tensor) :=
  if fc_new_decoder_architecture c
  then split_heads fused_qkv (fc_num_attention_heads c) (fc_num_kv_heads c) (fc_head_dim c)
  else old_split_heads (fc_num_attention_heads c) (fc_head_dim c) (fc_multi_query c) fused_qkv.

(** [x.transpose(1, 2).reshape(batch_size * heads, query_length, head_dim)] *)
Definition heads_first (batch_size query_length heads hd : nat) (x : Tensor) : result Tensor :=
  x ← transpose12 x;
  view [batch_size * heads; query_length; hd]%nat x.

(** ** Attention *)

(** [(mask * 1.0).masked_fill(mask, float("-1e9"))] *)
Definition mask_float (mask : tensor bool) : Tensor := mkTensor (shape mask) (fun idx => if at_ mask idx then minus_1e9 else zero).

(** [F.scaled_dot_product_attention] with a mask that is added. *)
Definition scaled_dot_product_attention (hd : nat) (query key value mask : Tensor) : result Tensor :=
  kt ← transpose23 key;
  weights ← matmul4 query kt;
  weights ← elementwise add (t_map (sdpa_scale hd) weights) mask;
  matmul4 (on_rows (List.last (shape weights) 0%nat) softmax weights) value.

(** The attention with [alibi]. *)
Definition alibi_attention (batch_size heads query_length kv_length hd : nat) (query key value mask alibi : Tensor) : result Tensor :=
  kt ← transpose23 key;
  matmul_result ← matmul4 query kt;
  attention_scores ← view [batch_size; heads; query_length; kv_length] matmul_result;
  alibi ← view [batch_size; heads; 1; kv_length]%nat alibi;                    (* -1 *)
  attention_logits ← elementwise add attention_scores alibi;
  let attention_logits := t_map (inv_norm_scale hd) attention_logits in
  attention_logits ← elementwise add attention_logits mask;
  let attention_probs := on_rows (List.last (shape attention_logits) 0%nat) softmax attention_logits in
  attention_probs ← view [batch_size; heads; query_length; kv_length] attention_probs;
  matmul4 attention_probs value.

(** [OptimizedFalconAttention.forward] *)
Definition falcon_attention (l : FalconDecoderLayer) (cuda : bool) (hidden_states : Tensor) (alibi : option Tensor)
    (attention_mask : tensor bool) (layer_past : option (Tensor * Tensor)) (use_cache output_attentions : bool)
    : prog falcon_state (Tensor * option (Tensor * Tensor)) :=
  let c := fl_config l in
  let heads := fc_num_attention_heads c in
  let hd := fc_head_dim c in
  _ ← lift (assert_ (negb output_attentions));
  let fused_qkv := call_linear (fl_query_key_value l) hidden_states in
  len ← lift (size hidden_states 1);
  '(query_layer, key_layer, value_layer) ←
    (if fc_new_decoder_architecture c && (len =? 1)%nat && cuda then _optimized_split_heads c fused_qkv else lift (_split_heads c fused_qkv));
  '(batch_size, query_length) ← lift (match shape query_layer with [b; s; _; _] => Ok (b, s) | _ => Err ValueError end);
  query_layer ← lift (heads_first batch_size query_length heads hd query_layer);
  key_layer ← lift (heads_first batch_size query_length heads hd key_layer);
  value_layer ← lift (heads_first batch_size query_length heads hd value_layer);
  past_kv_length ← lift (match layer_past with Some (k, _) => size k 1 | None => Ok 0%nat end);
  '(query_layer, key_layer) ← maybe_rotary c cuda query_layer key_layer past_kv_length;
  key_layer ← lift (match layer_past with Some (k, _) => cat 1 k key_layer | None => Ok key_layer end);
  value_layer ← lift (match layer_past with Some (_, v) => cat 1 v value_layer | None => Ok value_layer end);
  kv_length ← lift (size key_layer 1);
  let present := if use_cache then Some (key_layer, value_layer) else None in
  query_layer_ ← lift (view [batch_size; heads; query_length; hd] query_layer);
  key_layer_ ← lift (view [batch_size; heads; kv_length; hd] key_layer);
  value_layer_ ← lift (view [batch_size; heads; kv_length; hd] value_layer);
  let mask := mask_float attention_mask in
  attn_output ← lift (match alibi with
                      | None => scaled_dot_product_attention hd query_layer_ key_layer_ value_layer_ mask
                      | Some alibi => alibi_attention batch_size heads query_length kv_length hd query_layer_ key_layer_ value_layer_ mask alibi
                      end);
  attn_output ← lift (transpose12 attn_output);
  attn_output ← lift (view [batch_size; query_length; heads * hd]%nat attn_output);
  ret (call_linear (fl_dense l) attn_output, present).

(** ** The decoder layer *)

Definition ln_callable (f g : list num -> list num) (l : list Tensor) : result (list Tensor) :=
  match l with [x] => Ok [rowwise f x; rowwise g x] | _ => Err TypeError end.

(** [_optimized_apply_ln]; the attribute [ln_graph] need not exist. *)
Definition _optimized_apply_ln (l : FalconDecoderLayer) (f g : list num -> list num) (x : Tensor) : prog falcon_state (Tensor * Tensor) :=
  if fl_has_ln_graph l then
    out ← run_falcon_graph fs_ln_graph set_ln_graph (ln_callable f g) [x];
    match out with [a; b] => ret (a, b) | _ => raise ValueError end
  else raise AttributeError.

(** [dropout_add(x, residual, 0)] *)
Definition dropout_add (x residual : Tensor) : result Tensor := elementwise add residual x.

(** [OptimizedFalconDecoderLayer.forward] *)
Definition falcon_layer_forward (l : FalconDecoderLayer) (cuda : bool) (hidden_states : Tensor) (alibi : option Tensor)
    (attention_mask : tensor bool) (layer_past : option (Tensor * Tensor)) (use_cache output_attentions : bool)
    : prog falcon_state (Tensor * option (Tensor * Tensor)) :=
  let c := fl_config l in
  let residual := hidden_states in
  '(attention_layernorm_out, mlp_layernorm_out) ←
    match fl_norms l with
    | LnAttnMlp ln_attn ln_mlp =>
        len ← lift (size hidden_states 1);
        if (len =? 1)%nat && cuda then _optimized_apply_ln l ln_attn ln_mlp hidden_states
        else ret (rowwise ln_attn hidden_states, rowwise ln_mlp hidden_states)
    | InputNorm input_ln _ => ret (rowwise input_ln hidden_states, rowwise input_ln hidden_states)
    end;
  '(attention_output, present) ← falcon_attention l cuda attention_layernorm_out alibi attention_mask layer_past use_cache output_attentions;
  '(residual, mlp_layernorm_out) ←
    match fl_norms l with
    | InputNorm _ (Some post_ln) =>
        residual ← lift (dropout_add attention_output residual);
        ret (residual, rowwise post_ln residual)
    | _ => ret (residual, mlp_layernorm_out)
    end;
  let mlp_output := rowwise (fl_mlp l) mlp_layernorm_out in
  mlp_output ← lift (if fc_new_decoder_architecture c || fc_parallel_attn c then elementwise add mlp_output attention_output else Ok mlp_output);
  output ← lift (dropout_add mlp_output residual);
  ret (output, present).

(** ** The wrapped block *)

Definition _expand_states (c : FalconConfig) (state : Tensor) : result Tensor :=
  '(batch_size_x_num_kv_heads, seq_len, head_dim) ← dims3 state;
  _ ← raise_if (fc_num_kv_heads c =? 0)%nat ZeroDivisionError;
  let batch_size := (batch_size_x_num_kv_heads / fc_num_kv_heads c)%nat in
  state ← view [batch_size; fc_num_kv_heads c; 1; seq_len; head_dim]%nat state;
  view [batch_size * fc_num_attention_heads c; seq_len; head_dim]%nat (expand_dim 2 (num_key_value_groups c) state).

Definition _collapse_states (c : FalconConfig) (state : Tensor) : result Tensor :=
  '(batch_size_x_num_attn_heads, seq_len, head_dim) ← dims3 state;
  _ ← raise_if (fc_num_attention_heads c =? 0)%nat ZeroDivisionError;
  let batch_size := (batch_size_x_num_attn_heads / fc_num_attention_heads c)%nat in
  state ← view [batch_size; fc_num_kv_heads c; num_key_value_groups c; seq_len; head_dim] state;
  view [batch_size * fc_num_kv_heads c; seq_len; head_dim]%nat (select2 0 state).

Definition _reorder_cache_from_bloom_to_falcon (c : FalconConfig) (key_value : Tensor * Tensor) : result (Tensor * Tensor) :=
  let '(key_states, value_states) := key_value in
  key_states ← permute021 key_states;
  _ ← assert_ (bool_decide (shape key_states = shape value_states));
  if fc_new_decoder_architecture c then
    key_states ← _expand_states c key_states;
    value_states ← _expand_states c value_states;
    Ok (key_states, value_states)
  else Ok (key_states, value_states).

Definition _reorder_cache_from_falcon_to_bloom (c : FalconConfig) (key_value : Tensor * Tensor) : result (Tensor * Tensor) :=
  let '(key_states, value_states) := key_value in
  '(key_states, value_states) ←
    (if fc_new_decoder_architecture c then
       key_states ← _collapse_states c key_states;
       value_states ← _collapse_states c value_states;
       Ok (key_states, value_states)
     else Ok (key_states, value_states));
  _ ← assert_ (bool_decide (shape key_states = shape value_states));
  key_states ← permute021 key_states;
  Ok (key_states, value_states).

(** [WrappedFalconBlock.forward] *)
Definition falcon_forward (l : FalconDecoderLayer) (cuda : bool) (hidden_states : Tensor) (attention_mask : option Tensor)
    (alibi : option Tensor) (layer_past : option (Tensor * Tensor)) (use_cache output_attentions : bool)
    : prog falcon_state (Tensor * option (Tensor * Tensor)) :=
  let c := fl_config l in
  _ ← lift (assert_ (match attention_mask with None => true | Some _ => false end));
  batch_size ← lift (size hidden_states 0);
  seq_length ← lift (size hidden_states 1);
  layer_past ← lift (match layer_past with
                     | Some kv => kv ← _reorder_cache_from_bloom_to_falcon c kv; Ok (Some kv)
                     | None => Ok None
                     end);
  past_length ← lift (match layer_past with Some (k, _) => size k 1 | None => Ok 0%nat end);
  let seq_length_with_past := (seq_length + past_length)%nat in
  let alibi := match alibi with
               | Some a => Some a
               | None => if fc_alibi c then Some (build_alibi_tensor batch_size seq_length_with_past (fc_num_attention_heads c)) else None
               end in
  let mask := prepare_attn_mask batch_size seq_length past_length in
  '(hidden_states, present_key_value) ← falcon_layer_forward l cuda hidden_states alibi mask layer_past use_cache output_attentions;
  present_key_value ← lift (match present_key_value with
                            | Some kv => kv ← _reorder_cache_from_falcon_to_bloom c kv; Ok (Some kv)
                            | None => Ok None
                            end);
  ret (hidden_states, present_key_value).
End falcon.
