(* ===== verification/FalconCausal.v ===== *)
(** * FalconCausal: what a Falcon block computes

    The rows of a Falcon block, old or new architecture, with rotary embeddings or alibi, with CUDA graphs or
    without; the heads of a group share a key and a value, so that collapsing an expanded cache loses nothing. *)

From S2P Require Import Prelude Effects Backend Tensors Numerics CausalRows CudaGraphs LlamaBlock LlamaCausal FalconBlock.

Section falcon_causal.
Context {NU : Numbers} {FL : FalconLibrary}.
Abbreviation Tensor := (tensor num).

(** ** Heads *)

Lemma heads_first_spec bsz q heads hd (x : Tensor) : shape x = [bsz; q; heads; hd] ->
  exists y, heads_first bsz q heads hd x = Ok y /\ shape y = [bsz * heads; q; hd]%nat /\
    forall b h t, (b < bsz)%nat -> (h < heads)%nat -> (t < q)%nat -> row y [b * heads + h; t]%nat = row x [b; t; h].
Proof.
  intros Hs. unfold heads_first. destruct (transpose12_shape x _ _ _ _ Hs) as (y & Hy & Hys). rewrite Hy. cbn [mbind result_bind].
  destruct (view_ok [bsz * heads; q; hd]%nat y) as [z Hz]; [rewrite Hys; simpl; lia|]. exists z. split; [done|].
  pose proof (proj1 (view_shape _ _ _ Hz)) as Hzs. split; [done|]. intros b h t Hb Hh Ht. unfold row. rewrite Hzs, Hs.
  cbn [List.last]. apply map_ext_in. intros e He%in_seq. cbn [app]. rewrite <- (transpose12_at _ _ _ _ _ _ Hy).
  apply (view_at _ _ _ _ _ Hz); rewrite Hys.
  - repeat (apply in_bounds_cons; split; [lia|]). by apply in_bounds_nil.
  - simpl. nia.
Qed.

(** The pieces of [split_heads] of the new architecture. *)
Lemma flatten_heads_spec bsz q g n hd (x : Tensor) : shape x = [bsz; q; g; n; hd] ->
  exists y, flatten_heads x = Ok y /\ shape y = [bsz; q; g * n; hd]%nat /\
    forall b t h, (b < bsz)%nat -> (t < q)%nat -> (h < g * n)%nat -> row y [b; t; h] = row x [b; t; h / n; h mod n]%nat.
Proof.
  intros Hs. unfold flatten_heads. rewrite Hs. destruct (view_ok [bsz; q; g * n; hd]%nat x) as [y Hy]; [rewrite Hs; simpl; lia|].
  exists y. split; [done|]. pose proof (proj1 (view_shape _ _ _ Hy)) as Hys. split; [done|]. intros b t h Hb Ht Hh.
  destruct (split_coord h g n Hh) as (H1 & H2 & H3). unfold row. rewrite Hys, Hs. cbn [List.last]. apply map_ext_in.
  intros e He%in_seq. cbn [app]. apply (view_at _ _ _ _ _ Hy); rewrite Hs.
  - repeat (apply in_bounds_cons; split; [lia|]). by apply in_bounds_nil.
  - cbn [ravel numel foldr]. rewrite H3 at 1. nia.
Qed.

Section splitting.
Context (c : FalconConfig).
Abbreviation heads := (fc_num_attention_heads c).
Abbreviation hd := (fc_head_dim c).

(** The keys and values that a block keeps. *)
Definition kv_heads : nat := if fc_new_decoder_architecture c then fc_num_kv_heads c else heads.

(** How the fused projection of a token is split into the queries, keys and values of the heads. *)
Definition splits (width : nat) (fq fk fv : list num -> nat -> list num) : Prop := forall bsz q (x : Tensor),
  shape x = [bsz; q; width] ->
  exists Q K V, _split_heads c x = Ok (Q, K, V) /\
    shape Q = [bsz; q; heads; hd] /\ shape K = [bsz; q; heads; hd] /\ shape V = [bsz; q; heads; hd] /\
    forall b t h, (b < bsz)%nat -> (t < q)%nat -> (h < heads)%nat ->
      row Q [b; t; h] = fq (row x [b; t]) h /\
      row K [b; t; h] = fk (row x [b; t]) (h / num_key_value_groups c)%nat /\
      row V [b; t; h] = fv (row x [b; t]) (h / num_key_value_groups c)%nat.

Lemma new_splits :
  let n := num_key_value_groups c in
  fc_new_decoder_architecture c = true -> heads = (fc_num_kv_heads c * n)%nat -> (0 < heads)%nat -> (0 < hd)%nat ->
  splits (fc_num_kv_heads c * (n + 2) * hd)
    (fun r h => at_head hd (h / n * (n + 2) + h mod n) r) (fun r g => at_head hd (g * (n + 2) + n) r)
    (fun r g => at_head hd (g * (n + 2) + (n + 1)) r).
Proof.
  intros n Hnew Hh Hpos Hhd bsz q x Hx. unfold _split_heads. rewrite Hnew. unfold split_heads, dims3. rewrite Hx.
  assert (Hkv : fc_num_kv_heads c <> 0%nat) by lia.
  assert (Hn : (heads / fc_num_kv_heads c)%nat = n) by (unfold n, num_key_value_groups; by rewrite Hnew).
  unfold raise_if. destruct (Nat.eqb_spec (fc_num_kv_heads c) 0); [done|]. cbn [mbind result_bind]. rewrite Hn.
  assert (Hg : (fc_num_kv_heads c * (n + 2) * hd / ((n + 2) * hd))%nat = fc_num_kv_heads c).
  { rewrite <- Nat.mul_assoc. apply Nat.div_mul. lia. }
  rewrite Hg. set (g := fc_num_kv_heads c) in *.
  destruct (view_ok [bsz; q; g; n + 2; hd]%nat x) as [y Hy]; [rewrite Hx; simpl; lia|]. rewrite Hy. cbn [mbind result_bind].
  pose proof (proj1 (view_shape _ _ _ Hy)) as Hys.
  assert (Hrow : forall b t k j, (b < bsz)%nat -> (t < q)%nat -> (k < g)%nat -> (j < n + 2)%nat ->
    row y [b; t; k; j] = at_head hd (k * (n + 2) + j) (row x [b; t])).
  { intros b t k j Hb Ht Hk Hj. unfold row at 1, at_head. rewrite Hys. cbn [List.last]. apply map_ext_in. intros e He%in_seq.
    rewrite row_nth by (rewrite Hx; cbn [List.last]; nia). cbn [app]. apply (view_at _ _ _ _ _ Hy); rewrite Hx.
    - repeat (apply in_bounds_cons; split; [nia|]). by apply in_bounds_nil.
    - cbn [ravel numel foldr]. nia. }
  assert (Hshape : forall a b, shape (slice_dim 3 a b y) = [bsz; q; g; b - a; hd]%nat) by (intros; unfold slice_dim; cbn [shape]; by rewrite Hys).
  assert (Hexp : forall a, shape (expand_dim 3 n (slice_dim 3 a (a + 1) y)) = [bsz; q; g; n; hd]%nat) by (intros; unfold expand_dim; cbn [shape]; by rewrite Hshape).
  destruct (flatten_heads_spec bsz q g n hd (slice_dim 3 0 n y)) as (Q & -> & HQs & HQ); [rewrite Hshape; do 4 f_equal; lia|].
  destruct (flatten_heads_spec bsz q g n hd (expand_dim 3 n (slice_dim 3 n (n + 1) y))) as (K & -> & HKs & HK); [apply Hexp|].
  destruct (flatten_heads_spec bsz q g n hd (expand_dim 3 n (slice_dim 3 (n + 1) (n + 2) y))) as (V & HVe & HVs & HV).
  { replace (n + 2)%nat with (n + 1 + 1)%nat by lia. apply Hexp. }
  rewrite HVe. cbn [mbind result_bind]. exists Q, K, V. split; [done|]. rewrite Hh. split; [done|]. split; [done|]. split; [done|].
  intros b t h Hb Ht Hhh. fold n. destruct (split_coord h g n Hhh) as (H1 & H2 & H3).
  rewrite HQ, HK, HV by done. rewrite <- !Hrow by lia.
  split; [|split]; unfold row; cbn [shape slice_dim expand_dim]; rewrite Hys; apply map_ext_in; intros e _;
    cbn [app at_ slice_dim expand_dim set_coord insert list_insert coord nth]; unfold set_coord; cbn [insert list_insert coord nth];
    f_equal; repeat (f_equal; try lia).
Qed.
End splitting.

(** ** Rotary embeddings *)

Definition f_rot_row (p : nat) (r : list num) : list num :=
  (fun d => add (mul (nth d r zero) (f_cos p d)) (mul (nth d (f_rotate_half r) zero) (f_sin p d))) <$> seq 0 (length r).

Lemma f_rotate_spec m q hd (x cos sin : Tensor) p :
  shape x = [m; q; hd] -> shape cos = [1; q; hd]%nat -> shape sin = [1; q; hd]%nat ->
  (forall t e, (t < q)%nat -> (e < hd)%nat -> at_ cos [0; t; e]%nat = f_cos (p + t) e /\ at_ sin [0; t; e]%nat = f_sin (p + t) e) ->
  exists y, f_rotate x cos sin = Ok y /\ shape y = [m; q; hd] /\
    forall i t, (i < m)%nat -> (t < q)%nat -> row y [i; t] = f_rot_row (p + t) (row x [i; t]).
Proof.
  intros Hx Hc Hs Htab. unfold f_rotate. rewrite Hx. cbn [List.last].
  assert (Hfit : forall u : Tensor, shape u = [1; q; hd]%nat -> Forall2 (fun n m => m = n \/ m = 1%nat) [m; q; hd] (shape u)).
  { intros u ->. repeat (constructor; [by auto|]). constructor. }
  destruct (elementwise_ok mul x cos) as (u & -> & Hus & Hu); [rewrite Hx; by apply Hfit|]. cbn [mbind result_bind].
  destruct (elementwise_ok mul (on_rows hd f_rotate_half x) sin) as (v & -> & Hvs & Hv); [rewrite on_rows_shape, Hx; by apply Hfit|].
  cbn [mbind result_bind]. rewrite on_rows_shape, Hx in Hvs, Hv. cbn [removelast app] in Hvs, Hv.
  destruct (elementwise_same add u v) as (y & -> & Hys & Hy); [by rewrite Hus, Hvs|]. exists y. rewrite Hus, Hx in Hys, Hy.
  split; [done|]. split; [done|]. intros i t Hi Ht. unfold f_rot_row. rewrite row_length, Hx. unfold row at 1. rewrite Hys.
  cbn [List.last]. apply map_ext_in. intros e He%in_seq. cbn [app].
  assert (Hin : in_bounds [m; q; hd] [i; t; e]) by (repeat (apply in_bounds_cons; split; [lia|]); by apply in_bounds_nil).
  rewrite Hy, Hu, Hv by (rewrite ?Hx; done). change [i; t; e] with ([i; t] ++ [e]) at 3. rewrite on_rows_at.
  rewrite row_nth by (rewrite Hx; cbn [List.last]; lia). cbn [app].
  assert (Hclip : clip_idx [1; q; hd]%nat [i; t; e] = [0; t; e]%nat).
  { unfold clip_idx. cbn [zip_with Nat.eqb]. f_equal. destruct (Nat.eqb_spec q 1), (Nat.eqb_spec hd 1); repeat (f_equal; try lia). }
  rewrite Hc, Hs. cbn [app]. rewrite Hclip. destruct (Htab t e) as [-> ->]; [done|lia|]. done.
Qed.

(** The cached tables hold the cosines and sines of the first positions, except at the position that the graph
    writes to. *)
Definition table_ok (n hd : nat) (skip : option nat) (f : nat -> nat -> num) (t : Tensor) : Prop :=
  shape t = [1; n; hd]%nat /\ forall i e, (i < n)%nat -> skip <> Some i -> at_ t [0; i; e]%nat = f i e.

Definition tables_ok (hd : nat) (w : falcon_state) : Prop :=
  (fs_seq_len_cached w = -1 /\ fs_rotary_view w = None) \/
  (0 <= fs_seq_len_cached w /\
   table_ok (Z.to_nat (fs_seq_len_cached w)) hd (fs_rotary_view w) f_cos (fs_cos_cached w) /\
   table_ok (Z.to_nat (fs_seq_len_cached w)) hd (fs_rotary_view w) f_sin (fs_sin_cached w)).

(** None of the [q] positions after a past of [p] is the one that the graph writes to. *)
Definition view_apart (p q : nat) (w : falcon_state) : Prop :=
  match fs_rotary_view w with Some i => (i < p \/ p + q <= i)%nat | None => True end.

Lemma rotary_table_ok n hd skip f : table_ok n hd skip f (rotary_table n hd f).
Proof. by split. Qed.

Lemma slice_table n hd skip f (t : Tensor) q p : table_ok n hd skip f t -> (q + p <= n)%nat ->
  match skip with Some i => (i < p \/ p + q <= i)%nat | None => True end ->
  shape (slice_dim 1 p (q + p) t) = [1; q; hd]%nat /\
  forall i e, (i < q)%nat -> at_ (slice_dim 1 p (q + p) t) [0; i; e]%nat = f (p + i)%nat e.
Proof.
  intros [Hs Ht] Hn Hskip. unfold slice_dim. rewrite Hs. unfold set_coord. cbn [shape insert list_insert].
  split; [do 2 f_equal; lia|]. intros i e Hi. cbn [at_ set_coord insert list_insert coord nth]. unfold set_coord.
  cbn [insert list_insert]. apply Ht; [lia|]. intros ->. lia.
Qed.

(** Whatever was cached before, [cos_sin] gives the positions after the past unless the graph writes to one of them,
    and keeps the tables right. *)
Lemma cos_sin_spec hd q p w : tables_ok hd w -> view_apart p q w ->
  exists w' cos sin, cos_sin hd q p w = Some (w', Ok (cos, sin)) /\ tables_ok hd w' /\ 0 <= fs_seq_len_cached w' /\
    fs_rotary_graph w' = fs_rotary_graph w /\ fs_split_graph w' = fs_split_graph w /\ fs_ln_graph w' = fs_ln_graph w /\
    (fs_rotary_view w' = fs_rotary_view w \/ fs_rotary_view w' = None) /\
    shape cos = [1; q; hd]%nat /\ shape sin = [1; q; hd]%nat /\
    forall t e, (t < q)%nat -> (e < hd)%nat -> at_ cos [0; t; e]%nat = f_cos (p + t) e /\ at_ sin [0; t; e]%nat = f_sin (p + t) e.
Proof.
  intros Hw Hview. unfold cos_sin. set (total := if fs_seq_len_cached w =? -1 then _ else _).
  assert (Ht : Z.of_nat (q + p) <= total) by (unfold total, INFERENCE_MAX_LENGTH; destruct (Z.eqb_spec (fs_seq_len_cached w) (-1)); lia).
  set (w' := if fs_seq_len_cached w <? total then _ else w). eexists w', _, _. split; [reflexivity|].
  assert (Hw' : exists n, (q + p <= n)%nat /\ table_ok n hd (fs_rotary_view w') f_cos (fs_cos_cached w') /\
    table_ok n hd (fs_rotary_view w') f_sin (fs_sin_cached w') /\ tables_ok hd w' /\ 0 <= fs_seq_len_cached w' /\ view_apart p q w').
  { unfold w'. destruct (Z.ltb_spec (fs_seq_len_cached w) total).
    - exists (Z.to_nat total). split; [lia|]. split; [apply rotary_table_ok|]. split; [apply rotary_table_ok|].
      split; [|split; [cbn; lia|done]]. right. cbn [set_cached fs_seq_len_cached fs_cos_cached fs_sin_cached fs_rotary_view].
      split; [lia|]. split; apply rotary_table_ok.
    - destruct Hw as [[Hw _]|(H0 & Hc & Hs)]; [unfold total in *; rewrite Hw in *; cbn in *; lia|].
      exists (Z.to_nat (fs_seq_len_cached w)). split; [lia|]. split; [done|]. split; [done|]. split; [by right|done]. }
  destruct Hw' as (n & Hn & Hc & Hs & Hok & H0 & Hap). split; [done|]. split; [done|].
  split; [unfold w'; by destruct (_ <? total)|]. split; [unfold w'; by destruct (_ <? total)|]. split; [unfold w'; by destruct (_ <? total)|].
  split; [unfold w'; destruct (_ <? total); by auto|].
  unfold view_apart in Hap. destruct (slice_table _ _ _ _ _ q p Hc Hn Hap) as [Hcs Hca]. destruct (slice_table _ _ _ _ _ q p Hs Hn Hap) as [Hss Hsa].
  split; [done|]. split; [done|]. intros t e Htq _. split; [by apply Hca|by apply Hsa].
Qed.

(** Writing to the memory of the position that the tables leave out keeps them right elsewhere. *)
Lemma overwrite_table n hd i f (t r : Tensor) : table_ok n hd (Some i) f t -> table_ok n hd (Some i) f (overwrite_row i t r).
Proof.
  intros [Hs Ht]. split; [done|]. intros j e Hj Hne. cbn [overwrite_row at_ coord nth].
  destruct (Nat.eqb_spec j i) as [->|]; [done|]. by apply Ht.
Qed.

Lemma table_ok_skip n hd i f t : table_ok n hd None f t -> table_ok n hd (Some i) f t.
Proof. intros [Hs Ht]. split; [done|]. intros j e Hj _. by apply Ht. Qed.

Lemma write_through_ok hd w : tables_ok hd w -> tables_ok hd (write_through w).
Proof.
  intros Hw. unfold write_through. destruct (fs_rotary_view w) as [i|] eqn:Ev; [|done].
  destruct (fs_rotary_graph w) as [[[|q [|k [|c [|s [|? ?]]]]] out]|]; try done. destruct Hw as [[_ Hn]|(H0 & Hc & Hs)]; [congruence|].
  rewrite Ev in Hc, Hs. right. cbn [set_cached fs_seq_len_cached fs_cos_cached fs_sin_cached fs_rotary_view].
  split; [done|]. split; by apply overwrite_table.
Qed.

(** ** The cache *)

(** One entry per query head; the heads of a group have the same rows. *)
Definition shared_cache (bsz heads n p hd : nat) (x : Tensor) (f : nat -> nat -> nat -> list num) : Prop :=
  shape x = [bsz * heads; p; hd]%nat /\
  forall b h s, (b < bsz)%nat -> (h < heads)%nat -> (s < p)%nat -> row x [b * heads + h; s]%nat = f b (h / n)%nat s.

Section cache.
Context (c : FalconConfig).
Abbreviation heads := (fc_num_attention_heads c).
Abbreviation n := (num_key_value_groups c).
Abbreviation kv := (fc_num_kv_heads c).
Context (Hnew : fc_new_decoder_architecture c = true) (Hheads : heads = (kv * n)%nat) (Hpos : (0 < heads)%nat).

Lemma expand_spec bsz p hd (x : Tensor) (f : nat -> nat -> nat -> list num) :
  shape x = [bsz * kv; p; hd]%nat ->
  (forall b g s, (b < bsz)%nat -> (g < kv)%nat -> (s < p)%nat -> row x [b * kv + g; s]%nat = f b g s) ->
  exists y, _expand_states c x = Ok y /\ shared_cache bsz heads n p hd y f.
Proof.
  intros Hs Hf. unfold _expand_states, dims3. rewrite Hs. cbn [mbind result_bind]. unfold raise_if.
  destruct (Nat.eqb_spec kv 0) as [|Hkv]; [lia|]. cbn [mbind result_bind]. rewrite Nat.div_mul by done.
  destruct (view_ok [bsz; kv; 1; p; hd]%nat x) as [y Hy]; [rewrite Hs; simpl; lia|]. rewrite Hy. cbn [mbind result_bind].
  pose proof (proj1 (view_shape _ _ _ Hy)) as Hys.
  assert (Hes : shape (expand_dim 2 n y) = [bsz; kv; n; p; hd]) by (unfold expand_dim; cbn [shape]; by rewrite Hys).
  destruct (view_ok [bsz * heads; p; hd]%nat (expand_dim 2 n y)) as [z Hz]; [rewrite Hes, Hheads; simpl; lia|].
  exists z. split; [done|]. pose proof (proj1 (view_shape _ _ _ Hz)) as Hzs. split; [done|]. intros b h s Hb Hh Hss.
  assert (Hh' : (h < kv * n)%nat) by lia. destruct (split_coord h kv n Hh') as (H1 & H2 & H3).
  rewrite <- Hf by done. unfold row. rewrite Hzs, Hs. cbn [List.last]. apply map_ext_in. intros e He%in_seq. cbn [app].
  rewrite (view_at _ _ _ [b; h / n; h mod n; s; e]%nat _ Hz); rewrite ?Hes.
  - unfold expand_dim. cbn [at_]. unfold set_coord. cbn [insert list_insert]. apply (view_at _ _ _ _ _ Hy); rewrite Hs.
    + repeat (apply in_bounds_cons; split; [nia|]). by apply in_bounds_nil.
    + simpl. nia.
  - repeat (apply in_bounds_cons; split; [lia|]). by apply in_bounds_nil.
  - cbn [ravel numel foldr]. rewrite Hheads. rewrite H3 at 1. nia.
Qed.

Lemma collapse_spec bsz p hd (x : Tensor) (f : nat -> nat -> nat -> list num) :
  shared_cache bsz heads n p hd x f ->
  exists y, _collapse_states c x = Ok y /\ shape y = [bsz * kv; p; hd]%nat /\
    forall b g s, (b < bsz)%nat -> (g < kv)%nat -> (s < p)%nat -> row y [b * kv + g; s]%nat = f b g s.
Proof.
  intros [Hs Hf]. unfold _collapse_states, dims3. rewrite Hs. cbn [mbind result_bind]. unfold raise_if.
  destruct (Nat.eqb_spec heads 0) as [|Hh0]; [lia|]. cbn [mbind result_bind]. rewrite Nat.div_mul by done.
  destruct (view_ok [bsz; kv; n; p; hd]%nat x) as [y Hy]; [rewrite Hs, Hheads; simpl; lia|]. rewrite Hy. cbn [mbind result_bind].
  pose proof (proj1 (view_shape _ _ _ Hy)) as Hys.
  assert (Hes : shape (select2 0 y) = [bsz; kv; p; hd]) by (unfold select2; cbn [shape]; by rewrite Hys).
  destruct (view_ok [bsz * kv; p; hd]%nat (select2 0 y)) as [z Hz]; [rewrite Hes; simpl; lia|].
  exists z. split; [done|]. pose proof (proj1 (view_shape _ _ _ Hz)) as Hzs. split; [done|]. intros b g s Hb Hg Hss.
  assert (Hgn : (g * n < heads)%nat) by (rewrite Hheads; nia). assert (Hn0 : n <> 0%nat) by (intros E; rewrite E in Hheads; lia).
  replace (f b g s) with (f b (g * n / n)%nat s) by (by rewrite Nat.div_mul).
  rewrite <- (Hf b (g * n)%nat s) by done. unfold row. rewrite Hzs, Hs. cbn [List.last]. apply map_ext_in. intros e He%in_seq. cbn [app].
  rewrite (view_at _ _ _ [b; g; s; e]%nat _ Hz); rewrite ?Hes.
  - unfold select2. cbn [at_ take drop app]. apply (view_at _ _ _ _ _ Hy); rewrite Hs.
    + repeat (apply in_bounds_cons; split; [nia|]). by apply in_bounds_nil.
    + cbn [ravel numel foldr]. rewrite Hheads. nia.
  - repeat (apply in_bounds_cons; split; [lia|]). by apply in_bounds_nil.
  - cbn [ravel numel foldr]. nia.
Qed.
End cache.

Section conversion.
Context (c : FalconConfig).
Abbreviation heads := (fc_num_attention_heads c).
Abbreviation n := (num_key_value_groups c).

(** A configuration that the program supports: heads in groups, and no multi-query attention of the old architecture. *)
Record config_ok : Prop := {
  cf_heads : heads = (kv_heads c * n)%nat;
  cf_pos : (0 < heads)%nat;
  cf_old : fc_new_decoder_architecture c = false -> n = 1%nat;
}.
Context (CF : config_ok).

Lemma keys_transposed bsz h p hd (k : Tensor) : shape k = [bsz * h; hd; p]%nat ->
  exists k', permute021 k = Ok k' /\ shape k' = [bsz * h; p; hd]%nat /\
    forall i s e, at_ k' [i; s; e] = at_ k [i; e; s].
Proof.
  intros Hk. unfold permute021. rewrite Hk. cbn [length Nat.eqb]. destruct (transpose12_shape k _ _ _ _ Hk) as (k' & Hk' & Hs).
  exists k'. split; [done|]. split; [done|]. intros i s e. apply (transpose12_at _ _ _ _ _ _ Hk').
Qed.

Lemma from_bloom_to_falcon bsz p hd k v pk pv :
  bloom_cache bsz (kv_heads c) p hd (Some (k, v)) pk pv ->
  exists k' v', _reorder_cache_from_bloom_to_falcon c (k, v) = Ok (k', v') /\
    shared_cache bsz heads n p hd k' pk /\ shared_cache bsz heads n p hd v' pv.
Proof.
  destruct CF as [Hh Hpos Hold]. intros (Hk & Hv & Hpk & Hpv). destruct (keys_transposed _ _ _ _ _ Hk) as (k1 & Hk1 & Hk1s & Hk1a).
  unfold _reorder_cache_from_bloom_to_falcon. rewrite Hk1. cbn [mbind result_bind]. rewrite bool_decide_true by congruence.
  cbn [assert_ mbind result_bind].
  assert (Hk1r : forall b g s, (b < bsz)%nat -> (g < kv_heads c)%nat -> (s < p)%nat -> row k1 [b * kv_heads c + g; s]%nat = pk b g s).
  { intros b g s Hb Hg Hs. rewrite <- Hpk by done. unfold row. rewrite Hk1s. cbn [List.last]. apply map_ext. intros e. apply Hk1a. }
  unfold kv_heads in *. destruct (fc_new_decoder_architecture c) eqn:Hnew.
  - destruct (expand_spec c Hh Hpos bsz p hd k1 pk Hk1s Hk1r) as (k2 & Hk2 & Hk2c).
    destruct (expand_spec c Hh Hpos bsz p hd v pv Hv Hpv) as (v2 & Hv2 & Hv2c).
    exists k2, v2. split; [|done]. by rewrite Hk2, Hv2.
  - exists k1, v. split; [done|]. rewrite (Hold eq_refl). split; (split; [done|]); intros b h s Hb Hhh Hs; rewrite Nat.div_1_r; auto.
Qed.

Lemma from_falcon_to_bloom bsz p hd k v pk pv :
  shared_cache bsz heads n p hd k pk -> shared_cache bsz heads n p hd v pv ->
  exists k' v', _reorder_cache_from_falcon_to_bloom c (k, v) = Ok (k', v') /\ bloom_cache bsz (kv_heads c) p hd (Some (k', v')) pk pv.
Proof.
  destruct CF as [Hh Hpos Hold]. intros Hk Hv. unfold _reorder_cache_from_falcon_to_bloom.
  assert (exists k1 v1, (if fc_new_decoder_architecture c then
       k ← _collapse_states c k; v ← _collapse_states c v; Ok (k, v) else Ok (k, v)) = Ok (k1, v1) /\
    shape k1 = [bsz * kv_heads c; p; hd]%nat /\ shape v1 = [bsz * kv_heads c; p; hd]%nat /\
    (forall b g s, (b < bsz)%nat -> (g < kv_heads c)%nat -> (s < p)%nat -> row k1 [b * kv_heads c + g; s]%nat = pk b g s) /\
    (forall b g s, (b < bsz)%nat -> (g < kv_heads c)%nat -> (s < p)%nat -> row v1 [b * kv_heads c + g; s]%nat = pv b g s))
    as (k1 & v1 & -> & Hk1 & Hv1 & Hk1r & Hv1r).
  { unfold kv_heads in *. destruct (fc_new_decoder_architecture c).
    - destruct (collapse_spec c Hh Hpos bsz p hd k pk Hk) as (k1 & -> & Hk1 & Hk1r).
      destruct (collapse_spec c Hh Hpos bsz p hd v pv Hv) as (v1 & -> & Hv1 & Hv1r). by exists k1, v1.
    - rewrite (Hold eq_refl) in *. destruct Hk as [Hks Hkr], Hv as [Hvs Hvr]. exists k, v. split; [done|]. split; [done|]. split; [done|].
      split; intros b g s Hb Hg Hs; [rewrite Hkr by done|rewrite Hvr by done]; by rewrite Nat.div_1_r. }
  cbn [mbind result_bind]. rewrite bool_decide_true by congruence. cbn [assert_ mbind result_bind].
  unfold permute021. rewrite Hk1. cbn [length Nat.eqb]. destruct (transpose12_shape k1 _ _ _ _ Hk1) as (k2 & Hk2 & Hk2s).
  rewrite Hk2. cbn [mbind result_bind]. exists k2, v1. split; [done|]. split; [done|]. split; [done|]. split; [|done].
  intros b g s Hb Hg Hs. rewrite <- Hk1r by done. unfold row. rewrite Hk1. cbn [List.last]. apply map_ext. intros e.
  apply (transpose12_at _ _ _ _ _ _ Hk2).
Qed.
End conversion.

(** ** Attention *)

(** What the token at position [n] reads: the values of all positions up to [n], weighed by scores. *)
Definition scored_read (score : nat -> num -> num) (n d : nat) (q : list num) (k v : nat -> list num) : num :=
  dot (softmax ((fun s => score s (dot q (k s))) <$> seq 0 (S n))) ((fun s => nth d (v s) zero) <$> seq 0 (S n)).

(** The score of a position for a head: scaled, with alibi if there is one. *)
Definition head_score (c : FalconConfig) (h s : nat) (x : num) : num :=
  if fc_alibi c then inv_norm_scale (fc_head_dim c) (add x (alibi_value (fc_num_attention_heads c) h s))
  else sdpa_scale (fc_head_dim c) x.

(** Masked scores select the values up to the token. *)
Lemma masked_read bsz heads p q hd score (Q K V M P : Tensor) :
  shape Q = [bsz; heads; q; hd] -> shape K = [bsz; heads; p + q; hd]%nat -> shape V = [bsz; heads; p + q; hd]%nat ->
  shape M = [bsz; heads; q; p + q]%nat ->
  (forall b h t s, (b < bsz)%nat -> (h < heads)%nat -> (t < q)%nat -> (s < p + q)%nat ->
     at_ M [b; h; t; s] = add (score h s (dot (row Q [b; h; t]) (row K [b; h; s]))) (if (s <=? p + t)%nat then zero else minus_1e9)) ->
  P ≡t on_rows (p + q) softmax M ->
  exists o, matmul4 P V = Ok o /\ shape o = [bsz; heads; q; hd] /\
    forall b h t d, (b < bsz)%nat -> (h < heads)%nat -> (t < q)%nat -> (d < hd)%nat ->
      at_ o [b; h; t; d] = scored_read (score h) (p + t) d (row Q [b; h; t]) (fun s => row K [b; h; s]) (fun s => row V [b; h; s]).
Proof.
  intros HQ HK HV HM Hat HP. assert (HPs : shape P = [bsz; heads; q; p + q]%nat) by (by rewrite (proj1 HP), on_rows_shape, HM).
  destruct (matmul4_ok bsz heads q (p + q) hd P V HPs HV) as (o & Ho & Hos & Hoat).
  exists o. split; [done|]. split; [done|]. intros b h t d Hb Hh Ht Hd. rewrite Hoat.
  rewrite (row_teq _ _ [b; h; t] [bsz; heads; q] _ HP HPs) by (repeat (apply in_bounds_cons; split; [done|]); by apply in_bounds_nil).
  rewrite on_rows_row by (by rewrite softmax_length, row_length, HM).
  assert (Hrow : row M [b; h; t] = (fun s => add (score h s (dot (row Q [b; h; t]) (row K [b; h; s])))
      (if (s <=? p + t)%nat then zero else minus_1e9)) <$> seq 0 (p + q)).
  { unfold row at 1. rewrite HM. cbn [List.last]. apply map_ext_in. intros s Hs%in_seq. cbn [app]. apply Hat; lia. }
  assert (Hcol : column V [b; h] d = (fun s => nth d (row V [b; h; s]) zero) <$> seq 0 (p + q)).
  { unfold column. rewrite HV. cbn [coord length nth]. apply map_ext. intros s. cbn [app].
    rewrite row_nth by (rewrite HV; cbn [List.last]; lia). done. }
  rewrite Hrow, Hcol. unfold scored_read. replace (p + q)%nat with (S (p + t) + (q - t - 1))%nat by lia.
  apply masked_dot. exact minus_1e9_masks.
Qed.

(** Scores of all tokens for all positions. *)
Lemma scores_spec bsz heads q m hd (Q K : Tensor) : shape Q = [bsz; heads; q; hd] -> shape K = [bsz; heads; m; hd] ->
  exists kt w, transpose23 K = Ok kt /\ matmul4 Q kt = Ok w /\ shape w = [bsz; heads; q; m] /\
    forall b h t s, at_ w [b; h; t; s] = dot (row Q [b; h; t]) (row K [b; h; s]).
Proof.
  intros HQ HK. unfold transpose23. rewrite HK. eexists _. 
  set (kt := mkTensor _ _). destruct (matmul4_ok bsz heads q hd m Q kt HQ eq_refl) as (w & Hw & Hws & Hwa).
  exists w. split; [reflexivity|]. split; [done|]. split; [done|]. intros b h t s. rewrite Hwa. f_equal.
  unfold column, row. rewrite HK. done.
Qed.

(** Adding the mask. *)
Lemma add_mask_spec bsz heads q p (w : Tensor) : shape w = [bsz; heads; q; p + q]%nat ->
  exists m, elementwise add w (mask_float (prepare_attn_mask bsz q p)) = Ok m /\ shape m = [bsz; heads; q; p + q]%nat /\
    forall b h t s, (b < bsz)%nat -> (h < heads)%nat -> (t < q)%nat -> (s < p + q)%nat ->
      at_ m [b; h; t; s] = add (at_ w [b; h; t; s]) (if (s <=? p + t)%nat then zero else minus_1e9).
Proof.
  intros Hw. destruct (attn_mask_spec bsz q p) as [Hms Hm].
  destruct (elementwise_ok add w (mask_float (prepare_attn_mask bsz q p))) as (m & -> & Hmsh & Hmat).
  { unfold mask_float. cbn [shape]. rewrite Hms, Hw. repeat (constructor; [by auto|]). constructor. }
  exists m. rewrite Hw in Hmsh, Hmat. split; [done|]. split; [done|]. intros b h t s Hb Hh Ht Hs.
  rewrite Hmat by (repeat (apply in_bounds_cons; split; [done|]); by apply in_bounds_nil). f_equal.
  unfold mask_float. cbn [shape at_]. rewrite Hms. unfold clip_idx. cbn [zip_with].
  replace (if (q =? 1)%nat then 0%nat else t) with t by (destruct (Nat.eqb_spec q 1); lia).
  replace (if (p + q =? 1)%nat then 0%nat else s) with s by (destruct (Nat.eqb_spec (p + q) 1); lia).
  replace (if (bsz =? 1)%nat then 0%nat else b) with b by (destruct (Nat.eqb_spec bsz 1); lia).
  cbn [Nat.eqb]. rewrite Hm by done. by destruct (s <=? p + t)%nat.
Qed.

(** [x.reshape(batch_size, heads, -1, head_dim)] *)
Lemma heads_apart bsz heads m hd (x : Tensor) : shape x = [bsz * heads; m; hd]%nat ->
  exists y, view [bsz; heads; m; hd] x = Ok y /\ shape y = [bsz; heads; m; hd] /\
    forall b h s, (b < bsz)%nat -> (h < heads)%nat -> (s < m)%nat -> row y [b; h; s] = row x [b * heads + h; s]%nat.
Proof.
  intros Hx. destruct (view_ok [bsz; heads; m; hd] x) as [y Hy]; [rewrite Hx; simpl; lia|]. exists y. split; [done|].
  pose proof (proj1 (view_shape _ _ _ Hy)) as Hys. split; [done|]. intros b h s Hb Hh Hs. unfold row. rewrite Hys, Hx.
  cbn [List.last]. apply map_ext_in. intros e He%in_seq. cbn [app]. apply (view_at _ _ _ _ _ Hy); rewrite Hx.
  - repeat (apply in_bounds_cons; split; [nia|]). by apply in_bounds_nil.
  - simpl. nia.
Qed.

(** Both kinds of attention give what the token reads with the scores of its head. *)
Lemma falcon_attend_spec c bsz p q (Q K V : Tensor) :
  let heads := fc_num_attention_heads c in let hd := fc_head_dim c in
  let mask := mask_float (prepare_attn_mask bsz q p) in
  shape Q = [bsz; heads; q; hd] -> shape K = [bsz; heads; p + q; hd]%nat -> shape V = [bsz; heads; p + q; hd]%nat ->
  exists o, (match (if fc_alibi c then Some (build_alibi_tensor bsz (q + p) heads) else None) with
             | None => scaled_dot_product_attention hd Q K V mask
             | Some alibi => alibi_attention bsz heads q (p + q) hd Q K V mask alibi
             end) = Ok o /\ shape o = [bsz; heads; q; hd] /\
    forall b h t e, (b < bsz)%nat -> (h < heads)%nat -> (t < q)%nat -> (e < hd)%nat ->
      at_ o [b; h; t; e] = scored_read (head_score c h) (p + t) e (row Q [b; h; t]) (fun s => row K [b; h; s]) (fun s => row V [b; h; s]).
Proof.
  intros heads hd mask HQ HK HV. destruct (scores_spec _ _ _ _ _ _ _ HQ HK) as (kt & w & Hkt & Hw & Hws & Hwa).
  destruct (fc_alibi c) eqn:Ea.
  - unfold alibi_attention. rewrite Hkt. cbn [mbind result_bind]. rewrite Hw. cbn [mbind result_bind].
    destruct (view_ok [bsz; heads; q; p + q]%nat w) as [w' Hw']; [by rewrite Hws|]. rewrite Hw'. cbn [mbind result_bind].
    pose proof (proj1 (view_shape _ _ _ Hw')) as Hw's.
    destruct (alibi_spec bsz (q + p) heads) as [Has Haa].
    destruct (view_ok [bsz; heads; 1; p + q]%nat (build_alibi_tensor bsz (q + p) heads)) as [a Ha]; [rewrite Has; simpl; lia|].
    rewrite Ha. cbn [mbind result_bind]. pose proof (proj1 (view_shape _ _ _ Ha)) as Hasz.
    destruct (elementwise_ok add w' a) as (x & -> & Hxs & Hxa).
    { rewrite Hw's, Hasz. repeat (constructor; [by auto|]). constructor. }
    cbn [mbind result_bind]. rewrite Hw's in Hxs, Hxa.
    destruct (add_mask_spec bsz heads q p (t_map (inv_norm_scale hd) x)) as (m & Hm & Hms & Hma); [done|].
    fold mask in Hm. rewrite Hm. cbn [mbind result_bind]. rewrite Hms. cbn [List.last].
    destruct (view_ok [bsz; heads; q; p + q]%nat (on_rows (p + q) softmax m)) as [pr Hpr]; [by rewrite on_rows_shape, Hms|].
    rewrite Hpr. cbn [mbind result_bind].
    apply (masked_read bsz heads p q hd (head_score c) Q K V m pr HQ HK HV Hms).
    + intros b h t s Hb Hh Ht Hs. rewrite Hma by done. unfold head_score. rewrite Ea. cbn [at_ t_map]. do 2 f_equal.
      rewrite Hxa by (repeat (apply in_bounds_cons; split; [done|]); by apply in_bounds_nil). f_equal.
      * rewrite <- Hwa. apply (view_at _ _ _ _ _ Hw'); rewrite Hws; [|done].
        repeat (apply in_bounds_cons; split; [done|]). by apply in_bounds_nil.
      * rewrite Hasz. unfold clip_idx. cbn [zip_with Nat.eqb].
        replace (if (p + q =? 1)%nat then 0%nat else s) with s by (destruct (Nat.eqb_spec (p + q) 1); lia).
        replace (if (bsz =? 1)%nat then 0%nat else b) with b by (destruct (Nat.eqb_spec bsz 1); lia).
        replace (if (heads =? 1)%nat then 0%nat else h) with h by (destruct (Nat.eqb_spec heads 1); lia).
        fold heads. rewrite <- (Haa b h s) by lia. apply (view_at _ _ _ _ _ Ha); rewrite Has.
        -- repeat (apply in_bounds_cons; split; [nia|]). by apply in_bounds_nil.
        -- simpl. nia.
    + apply (view_same _ _ _ Hpr). by rewrite on_rows_shape, Hms.
  - unfold scaled_dot_product_attention. rewrite Hkt. cbn [mbind result_bind]. rewrite Hw. cbn [mbind result_bind].
    destruct (add_mask_spec bsz heads q p (t_map (sdpa_scale hd) w)) as (m & Hm & Hms & Hma); [by cbn|].
    fold mask in Hm. rewrite Hm. cbn [mbind result_bind]. rewrite Hms. cbn [List.last].
    apply (masked_read bsz heads p q hd (head_score c) Q K V m _ HQ HK HV Hms); [|reflexivity]. intros b h t s Hb Hh Ht Hs.
    rewrite Hma by done. unfold head_score. rewrite Ea. cbn [at_ t_map]. by rewrite Hwa.
Qed.
End falcon_causal.
