(* ===== verification/FalconRows.v ===== *)
(** * FalconRows: a Falcon block computes rows

    The attention, the layer in its three arrangements of normalisations, and the wrapped block of FalconBlock as
    [causal_rows]: keys and values are kept once per group of heads, although attention works on one per head. *)

From S2P Require Import Prelude Effects Backend Tensors Numerics CausalRows CudaGraphs LlamaBlock LlamaCausal FalconBlock FalconCausal.

Section falcon_rows.
Context {NU : Numbers} {FL : FalconLibrary}.
Abbreviation Tensor := (tensor num).

(** ** Graphs *)

Lemma f_rotate_proper x x' c c' s s' y :
  x ≡t x' -> c ≡t c' -> s ≡t s' -> f_rotate x c s = Ok y -> exists y', f_rotate x' c' s' = Ok y' /\ y ≡t y'.
Proof.
  intros Hx Hc Hs. unfold f_rotate.
  destruct (elementwise mul x c) as [u|] eqn:Eu; [|done]. cbn [mbind result_bind].
  destruct (elementwise_proper _ _ _ _ _ _ Hx Hc Eu) as (u' & -> & Hu). cbn [mbind result_bind].
  destruct (elementwise mul (on_rows _ f_rotate_half x) s) as [v|] eqn:Ev; [|done]. cbn [mbind result_bind].
  pose proof (on_rows_proper (List.last (shape x) 0%nat) f_rotate_half _ _ Hx) as Hr. rewrite <- (proj1 Hx).
  destruct (elementwise_proper _ _ _ _ _ _ Hr Hs Ev) as (v' & -> & Hv). cbn [mbind result_bind].
  intros Hy. by apply (elementwise_proper _ _ _ _ _ _ Hu Hv Hy).
Qed.

Lemma rotary_callable_teq l l' out : Forall2 teq l l' -> falcon_rotary_callable l = Ok out ->
  exists out', falcon_rotary_callable l' = Ok out' /\ Forall2 teq out out'.
Proof.
  intros H. destruct H as [|q q' ?? Hq H]; [done|]. destruct H as [|k k' ?? Hk H]; [done|].
  destruct H as [|c c' ?? Hc H]; [done|]. destruct H as [|s s' ?? Hs H]; [done|]. destruct H; [|done].
  unfold falcon_rotary_callable, apply_rotary.
  destruct (f_rotate q c s) as [y|] eqn:Ey; [|done]. destruct (f_rotate k c s) as [z|] eqn:Ez; [|done].
  destruct (f_rotate_proper _ _ _ _ _ _ _ Hq Hc Hs Ey) as (y' & -> & Hy).
  destruct (f_rotate_proper _ _ _ _ _ _ _ Hk Hc Hs Ez) as (z' & -> & Hz). cbn. intros [= <-].
  eexists. split; [reflexivity|]. repeat (constructor; [done|]). constructor.
Qed.

Lemma ln_callable_teq f g l l' out : Forall2 teq l l' -> ln_callable f g l = Ok out ->
  exists out', ln_callable f g l' = Ok out' /\ Forall2 teq out out'.
Proof.
  intros H. destruct H as [|x x' ?? Hx H]; [done|]. destruct H; [|done]. cbn. intros [= <-]. eexists. split; [reflexivity|].
  unfold rowwise. rewrite <- (proj1 Hx). repeat (constructor; [by apply on_rows_proper|]). constructor.
Qed.

Lemma flatten_heads_proper (x x' y : Tensor) : x ≡t x' -> flatten_heads x = Ok y -> exists y', flatten_heads x' = Ok y' /\ y ≡t y'.
Proof.
  intros Hx. unfold flatten_heads. rewrite <- (proj1 Hx). destruct (shape x) as [|b [|s [|g [|n [|e [|? ?]]]]]] eqn:Es; try done. intros Hy.
  destruct (view_ok [b; s; g * n; e]%nat x') as [y' Hy']; [rewrite <- (proj1 Hx); apply (view_shape _ _ _ Hy)|].
  exists y'. split; [done|]. by apply (view_proper _ _ _ _ _ Hx Hy Hy').
Qed.

Lemma split_heads_proper heads kv hd (x x' : Tensor) q k v : x ≡t x' -> FalconBlock.split_heads x heads kv hd = Ok (q, k, v) ->
  exists q' k' v', FalconBlock.split_heads x' heads kv hd = Ok (q', k', v') /\ q ≡t q' /\ k ≡t k' /\ v ≡t v'.
Proof.
  intros Hx. unfold FalconBlock.split_heads, dims3. rewrite <- (proj1 Hx).
  destruct (shape x) as [|b [|s [|w [|? ?]]]] eqn:Es; try done. cbn [mbind result_bind].
  destruct (raise_if (kv =? 0)%nat ZeroDivisionError) as [u|]; [|done]. cbn [mbind result_bind]. set (n := (heads / kv)%nat).
  set (dims := [b; s; _; _; _]). destruct (view dims x) as [y|] eqn:Ey; [|done]. cbn [mbind result_bind].
  pose proof (view_shape _ _ _ Ey) as [Hys Hn]. destruct (view_ok dims x') as [y' Ey']; [by rewrite <- (proj1 Hx)|].
  rewrite Ey'. cbn [mbind result_bind]. pose proof (view_proper _ _ _ _ _ Hx Ey Ey') as Hy.
  assert (Hcut : forall a c, (a <= c)%nat -> (c <= n + 2)%nat -> slice_dim 3 a c y ≡t slice_dim 3 a c y').
  { intros a c Hac Hc. apply slice_dim_proper; [done|by rewrite Hys|done]. }
  assert (Hexp : forall a, (a <= n + 1)%nat -> expand_dim 3 n (slice_dim 3 a (a + 1) y) ≡t expand_dim 3 n (slice_dim 3 a (a + 1) y')).
  { intros a Ha. apply expand_dim_proper; [|apply Hcut; lia]. unfold slice_dim. cbn [shape]. rewrite Hys. unfold dims, coord, set_coord.
    cbn [insert list_insert nth]. lia. }
  replace (n + 2)%nat with (n + 1 + 1)%nat by lia.
  destruct (flatten_heads (slice_dim 3 0 n y)) as [q1|] eqn:Eq; [|done]. cbn [mbind result_bind].
  destruct (flatten_heads (expand_dim 3 n (slice_dim 3 n (n + 1) y))) as [k1|] eqn:Ek; [|done]. cbn [mbind result_bind].
  destruct (flatten_heads (expand_dim 3 n (slice_dim 3 (n + 1) (n + 1 + 1) y))) as [v1|] eqn:Ev; [|done]. cbn [mbind result_bind].
  destruct (flatten_heads_proper _ _ _ (Hcut 0%nat n ltac:(lia) ltac:(lia)) Eq) as (q2 & -> & Hq).
  destruct (flatten_heads_proper _ _ _ (Hexp n ltac:(lia)) Ek) as (k2 & -> & Hk).
  destruct (flatten_heads_proper _ _ _ (Hexp (n + 1)%nat ltac:(lia)) Ev) as (v2 & -> & Hv).
  intros [= <- <- <-]. by exists q2, k2, v2.
Qed.

Lemma split_callable_teq c l l' out : Forall2 teq l l' -> split_callable c l = Ok out ->
  exists out', split_callable c l' = Ok out' /\ Forall2 teq out out'.
Proof.
  intros H. destruct H as [|x x' ?? Hx H]; [done|]. destruct H; [|done]. unfold split_callable.
  destruct (FalconBlock.split_heads x _ _ _) as [[[q k] v]|] eqn:E; [|done]. cbn [mbind result_bind]. intros [= <-].
  destruct (split_heads_proper _ _ _ _ _ _ _ _ Hx E) as (q' & k' & v' & -> & Hq & Hk & Hv).
  exists [q'; k'; v']. split; [done|]. repeat (constructor; [done|]). constructor.
Qed.

Lemma write_through_graph g w : fs_rotary_graph (write_through (set_rotary_graph g w)) = g.
Proof.
  unfold write_through. destruct (fs_rotary_view _); [|done].
  destruct (fs_rotary_graph (set_rotary_graph g w)) as [[[|? [|? [|? [|? []]]]] ?]|]; done.
Qed.

(** A graph of the layer gives what its callable gives. *)
Lemma run_falcon_graph_spec get set callable args out w :
  (forall g w, get (set g w) = g) -> (forall l l' out, Forall2 teq l l' -> callable l = Ok out -> exists out', callable l' = Ok out' /\ Forall2 teq out out') ->
  recorded_for (get w) (shape <$> args) -> callable args = Ok out ->
  exists g out', run_falcon_graph get set callable args w = Some (set (Some g) w, Ok out') /\ Forall2 teq out out' /\
    recorded_for (Some g) (shape <$> args).
Proof.
  intros Hgs Hteq Hg Hout. destruct (call_and_read callable Hteq get set args out w Hgs Hg Hout) as (g & Hrun & _ & Ho & Hrec).
  by exists g, (ga_outputs g).
Qed.

(** ** Attention *)

Section layer.
Context (l : FalconDecoderLayer) (cuda : bool) (d width : nat) (fq fk fv : list num -> nat -> list num).
Abbreviation c := (fl_config l).
Abbreviation heads := (fc_num_attention_heads c).
Abbreviation groups := (FalconBlock.num_key_value_groups c).
Abbreviation hd := (fc_head_dim c).
Abbreviation qkv := (lm_row (fl_query_key_value l)).

(** The attention of a supported configuration; [fq], [fk] and [fv] are the parts of the fused projection. *)
Record falcon_attention_ok : Prop := {
  fo_config : config_ok c;
  fo_qkv_out : lm_out (fl_query_key_value l) = width;
  fo_qkv : forall r, length r = d -> length (qkv r) = width;
  fo_splits : splits c width fq fk fv;
  fo_dense_out : lm_out (fl_dense l) = d;
  fo_dense : forall r, length r = (heads * hd)%nat -> length (lm_row (fl_dense l) r) = d;
}.

(** The state of the layer: the cached tables are right, and the graphs were recorded for batches of this size. *)
Record falcon_ok (bsz : nat) (w : falcon_state) : Prop := {
  fw_tables : tables_ok hd w;
  fw_view : fs_rotary_graph w = None -> fs_rotary_view w = None;
  fw_rotary : recorded_for (fs_rotary_graph w) [[bsz * heads; 1; hd]; [bsz * heads; 1; hd]; [1; 1; hd]; [1; 1; hd]]%nat;
  fw_split : recorded_for (fs_split_graph w) [[bsz; 1; width]]%nat;
  fw_ln : recorded_for (fs_ln_graph w) [[bsz; 1; d]]%nat;
}.

Context (OK : falcon_attention_ok).

Definition rotary_row (p : nat) (r : list num) : list num := if fc_rotary c then f_rot_row p r else r.

Definition falcon_key (s : nat) (r : list num) (g : nat) : list num := rotary_row s (fk (qkv r) g).
Definition falcon_value (s : nat) (r : list num) (g : nat) : list num := fv (qkv r) g.

Definition falcon_out (n : nat) (r : list num) (K V : nat -> nat -> list num) : list num :=
  lm_row (fl_dense l)
    ((fun i =>
        let h := (i / hd)%nat in let g := (h / groups)%nat in
        scored_read (head_score c h) n (i mod hd) (rotary_row n (fq (qkv r) h)) (K g) (V g))
     <$> seq 0 (heads * hd)).

Lemma group_bound h : (h < heads)%nat -> (h / groups < kv_heads c)%nat.
Proof. intros H. apply Nat.Div0.div_lt_upper_bound. pose proof (cf_heads _ (fo_config OK)). lia. Qed.

Lemma falcon_out_causal n r K V K' V' :
  (forall g s, (g < kv_heads c)%nat -> (s <= n)%nat -> K g s = K' g s /\ V g s = V' g s) -> falcon_out n r K V = falcon_out n r K' V'.
Proof.
  intros Hkv. unfold falcon_out. f_equal. apply map_ext_in. intros i Hi%in_seq.
  assert (Hih : (i < heads * hd)%nat) by lia. destruct (split_coord i heads hd Hih) as (Hh & _).
  pose proof (group_bound _ Hh) as Hg. unfold scored_read.
  f_equal; [f_equal|]; apply map_ext_in; intros s Hs%in_seq; destruct (Hkv _ s Hg) as [Hk Hv]; try lia.
  - by rewrite Hk.
  - by rewrite Hv.
Qed.

Definition falcon_attention_rows : causal_rows := mkCausalRows (kv_heads c) hd falcon_key falcon_value falcon_out falcon_out_causal.

(** Splitting the fused projection, with the graph or without. *)
Lemma run_split bsz q (x : Tensor) w : shape x = [bsz; q; width] -> falcon_ok bsz w ->
  exists w' Q K V,
    (if fc_new_decoder_architecture c && (q =? 1)%nat && cuda then _optimized_split_heads c x else lift (_split_heads c x)) w =
      Some (w', Ok (Q, K, V)) /\ falcon_ok bsz w' /\ fs_rotary_view w' = fs_rotary_view w /\
    shape Q = [bsz; q; heads; hd] /\ shape K = [bsz; q; heads; hd] /\ shape V = [bsz; q; heads; hd] /\
    forall b t h, (b < bsz)%nat -> (t < q)%nat -> (h < heads)%nat ->
      row Q [b; t; h] = fq (row x [b; t]) h /\ row K [b; t; h] = fk (row x [b; t]) (h / groups)%nat /\
      row V [b; t; h] = fv (row x [b; t]) (h / groups)%nat.
Proof.
  intros Hx Hw. destruct (fo_splits OK bsz q x Hx) as (Q & K & V & Hs & HQ & HK & HV & Hr).
  destruct (fc_new_decoder_architecture c && (q =? 1)%nat && cuda) eqn:Ec.
  2: { exists w, Q, K, V. split; [unfold lift; by rewrite Hs|done]. }
  apply andb_true_iff in Ec as [Ec _]. apply andb_true_iff in Ec as [Hnew ->%Nat.eqb_eq]. destruct Hw as [Ht Hview Hrot Hsp Hln].
  destruct (run_falcon_graph_spec fs_split_graph set_split_graph (split_callable c) [x] [Q; K; V] w (fun g w => eq_refl) (split_callable_teq c)) as (g & out & Hrun & Hout & Hrec).
  { cbn [fmap list_fmap]. by rewrite Hx. }
  { unfold split_callable. unfold _split_heads in Hs. rewrite Hnew in Hs. by rewrite Hs. }
  apply Forall2_cons_inv_l in Hout as (Q' & l1 & HtQ & Hout & ->). apply Forall2_cons_inv_l in Hout as (K' & l2 & HtK & Hout & ->).
  apply Forall2_cons_inv_l in Hout as (V' & l3 & HtV & Hout & ->). apply Forall2_nil_inv_l in Hout as ->.
  exists (set_split_graph (Some g) w), Q', K', V'. split.
  { unfold _optimized_split_heads. by rewrite (bind_ok _ _ w _ _ Hrun). }
  cbn [fmap list_fmap] in Hrec. rewrite Hx in Hrec. split; [by split|]. split; [done|].
  split; [by rewrite <- (proj1 HtQ)|]. split; [by rewrite <- (proj1 HtK)|]. split; [by rewrite <- (proj1 HtV)|].
  intros b t h Hb Ht' Hh. destruct (Hr b t h Hb Ht' Hh) as (H1 & H2 & H3).
  assert (Hin : in_bounds [bsz; 1; heads]%nat [b; t; h]) by (repeat (apply in_bounds_cons; split; [done|]); by apply in_bounds_nil).
  rewrite <- (row_teq _ _ _ [bsz; 1; heads]%nat _ HtQ HQ Hin), <- (row_teq _ _ _ [bsz; 1; heads]%nat _ HtK HK Hin),
    <- (row_teq _ _ _ [bsz; 1; heads]%nat _ HtV HV Hin). done.
Qed.

(** The graph rotates as its callable does; where its inputs are views of the cached tables, it writes to these. *)
Lemma run_rotary_graph bsz p (Q K cos sin Q1 K1 : Tensor) w : falcon_ok bsz w -> 0 <= fs_seq_len_cached w ->
  shape Q = [bsz * heads; 1; hd]%nat -> shape K = [bsz * heads; 1; hd]%nat -> shape cos = [1; 1; hd]%nat -> shape sin = [1; 1; hd]%nat ->
  apply_rotary Q K cos sin = Ok (Q1, K1) ->
  exists w' Q' K', falcon_optimized_rotary p Q K cos sin w = Some (w', Ok (Q', K')) /\ falcon_ok bsz w' /\ Q1 ≡t Q' /\ K1 ≡t K'.
Proof.
  intros [Ht Hview Hrot Hsp Hln] H0 HQ HK Hcos Hsin Hout. unfold falcon_optimized_rotary.
  set (w1 := match fs_rotary_graph w with None => _ | Some _ => w end).
  assert (fs_rotary_graph w1 = fs_rotary_graph w /\ fs_split_graph w1 = fs_split_graph w /\ fs_ln_graph w1 = fs_ln_graph w) as (Eg & Es & El)
    by (unfold w1; by destruct (fs_rotary_graph w) eqn:Eg').
  assert (Ht1 : tables_ok hd w1).
  { unfold w1. destruct (fs_rotary_graph w); [done|]. destruct Ht as [[Ht _]|(_ & Hc & Hs)]; [lia|].
    rewrite (Hview eq_refl) in Hc, Hs. right. split; [done|]. split; by apply table_ok_skip. }
  clearbody w1.
  destruct (run_falcon_graph_spec fs_rotary_graph (fun g w => write_through (set_rotary_graph g w)) falcon_rotary_callable
    [Q; K; cos; sin] [Q1; K1] w1 write_through_graph rotary_callable_teq) as (g & out & Hrun & Ho & Hrec).
  { cbn [fmap list_fmap]. by rewrite HQ, HK, Hcos, Hsin, Eg. }
  { unfold falcon_rotary_callable. by rewrite Hout. }
  apply Forall2_cons_inv_l in Ho as (Q' & l1 & HtQ & Ho & ->). apply Forall2_cons_inv_l in Ho as (K' & l2 & HtK & Ho & ->).
  apply Forall2_nil_inv_l in Ho as ->. cbn [fmap list_fmap] in Hrec. rewrite HQ, HK, Hcos, Hsin in Hrec.
  set (w2 := write_through (set_rotary_graph (Some g) w1)) in *. exists w2, Q', K'. rewrite (bind_ok _ _ w1 _ _ Hrun). split; [done|]. split; [|done].
  assert (fs_rotary_graph w2 = Some g /\ fs_split_graph w2 = fs_split_graph w /\ fs_ln_graph w2 = fs_ln_graph w) as (E1 & E2 & E3).
  { unfold w2, write_through, set_rotary_graph. cbn [fs_rotary_graph fs_rotary_view].
    destruct (fs_rotary_view w1), g as [[|? [|? [|? [|? [|? ?]]]]] ?]; cbn; by rewrite ?Es, ?El. }
  split; [by apply write_through_ok|by rewrite E1|by rewrite E1|by rewrite E2|by rewrite E3].
Qed.

(** Rotating queries and keys: not at all, with the graph or without. *)
Lemma run_maybe_rotary bsz q p (Q K : Tensor) w :
  shape Q = [bsz * heads; q; hd]%nat -> shape K = [bsz * heads; q; hd]%nat -> falcon_ok bsz w -> view_apart p q w ->
  exists w' Q' K', maybe_rotary c cuda Q K p w = Some (w', Ok (Q', K')) /\ falcon_ok bsz w' /\
    shape Q' = [bsz * heads; q; hd]%nat /\ shape K' = [bsz * heads; q; hd]%nat /\
    forall i t, (i < bsz * heads)%nat -> (t < q)%nat ->
      row Q' [i; t] = rotary_row (p + t) (row Q [i; t]) /\ row K' [i; t] = rotary_row (p + t) (row K [i; t]).
Proof.
  intros HQ HK Hw Hap. unfold maybe_rotary, rotary_row. destruct (fc_rotary c); [|by exists w, Q, K].
  destruct (cos_sin_spec hd q p w (fw_tables _ _ Hw) Hap) as (w1 & cos & sin & Hcs & Ht1 & H0 & Hrg & Hsg & Hlg & Hvw & Hcos & Hsin & Htab).
  assert (Hw1 : falcon_ok bsz w1) by (destruct Hw as [H1 Hv H2 H3 H4]; split; [done|rewrite Hrg; intros Hg; destruct Hvw as [->|Hvw]; auto|by rewrite Hrg|by rewrite Hsg|by rewrite Hlg]).
  destruct (f_rotate_spec _ _ _ Q cos sin p HQ Hcos Hsin Htab) as (Q1 & HQ1 & HQs & HQr).
  destruct (f_rotate_spec _ _ _ K cos sin p HK Hcos Hsin Htab) as (K1 & HK1 & HKs & HKr).
  assert (Hdirect : apply_rotary Q K cos sin = Ok (Q1, K1)) by (unfold apply_rotary; by rewrite HQ1, HK1).
  unfold rotary_forward. rewrite (bind_lift _ _ w (bsz * heads, q, hd)%nat) by (unfold dims3; by rewrite HQ).
  rewrite (bind_ok _ _ w _ _ Hcs). destruct ((q =? 1)%nat && cuda) eqn:Ec.
  2: { exists w1, Q1, K1. split; [unfold lift; by rewrite Hdirect|]. split; [done|]. split; [done|]. split; [done|].
       intros i t Hi Ht. split; [by apply HQr|by apply HKr]. }
  apply andb_true_iff in Ec as [->%Nat.eqb_eq _].
  destruct (run_rotary_graph bsz p Q K cos sin Q1 K1 w1 Hw1 H0) as (w2 & Q' & K' & Hrun & Hw2 & HtQ & HtK); [done..|].
  exists w2, Q', K'. split; [done|]. split; [done|].
  split; [by rewrite <- (proj1 HtQ)|]. split; [by rewrite <- (proj1 HtK)|]. intros i t Hi Ht'.
  assert (Hin : in_bounds [bsz * heads; 1]%nat [i; t]) by (repeat (apply in_bounds_cons; split; [done|]); by apply in_bounds_nil).
  rewrite <- (row_teq _ _ _ [bsz * heads; 1]%nat _ HtQ HQs Hin), <- (row_teq _ _ _ [bsz * heads; 1]%nat _ HtK HKs Hin).
  split; [by apply HQr|by apply HKr].
Qed.
(** A past of [p] positions, one entry per head, and what is appended to it. *)
Definition shared_past (bsz p : nat) (past : option Tensor) (f : nat -> nat -> nat -> list num) : Prop :=
  match past with Some x => shared_cache bsz heads groups p hd x f | None => p = 0%nat end.

Lemma append_shared bsz p q past f (y : Tensor) F :
  shared_past bsz p past f -> shape y = [bsz * heads; q; hd]%nat ->
  (forall b h t, (b < bsz)%nat -> (h < heads)%nat -> (t < q)%nat -> row y [b * heads + h; t]%nat = F b (h / groups)%nat t) ->
  exists z, (match past with Some x => cat 1 x y | None => Ok y end) = Ok z /\
    shared_cache bsz heads groups (p + q) hd z (fun b g s => if (s <? p)%nat then f b g s else F b g (s - p)%nat).
Proof.
  intros Hp Hy Hr. destruct past as [x|]; cbn [shared_past] in Hp.
  - destruct Hp as [Hx Hf]. destruct (cat1_rows _ _ _ _ _ _ Hx Hy) as (z & Hz & Hzs & Hzr). exists z. split; [done|]. split; [done|].
    intros b h s Hb Hh Hs. rewrite Hzr. destruct (Nat.ltb_spec s p); [by apply Hf|]. apply Hr; [done..|lia].
  - subst p. exists y. split; [done|]. split; [done|]. intros b h s Hb Hh Hs. cbn. rewrite Nat.sub_0_r. by apply Hr.
Qed.

(** [OptimizedFalconAttention.forward]: the rows of the outputs and of the new cache. *)
Lemma falcon_attention_spec bsz p q (x : Tensor) past pk pv w :
  shape x = [bsz; q; d] -> shared_past bsz p (fst <$> past) pk -> shared_past bsz p (snd <$> past) pv -> falcon_ok bsz w -> view_apart p q w ->
  let X := fun b t => row x [b; t] in
  let alibi := if fc_alibi c then Some (build_alibi_tensor bsz (q + p) heads) else None in
  exists w' o k v,
    falcon_attention l cuda x alibi (prepare_attn_mask bsz q p) past true false w = Some (w', Ok (o, Some (k, v))) /\
    falcon_ok bsz w' /\ shape o = [bsz; q; d] /\
    (forall b t, (b < bsz)%nat -> (t < q)%nat -> row o [b; t] = out_from falcon_attention_rows pk pv p X b t) /\
    shared_cache bsz heads groups (p + q) hd k (key_from falcon_attention_rows pk p X) /\
    shared_cache bsz heads groups (p + q) hd v (value_from falcon_attention_rows pv p X).
Proof.
  intros Hx Hpk Hpv Hw Hap X alibi. pose proof OK as [Hcf Hqo Hql Hsp Hdo Hdl].
  destruct (on_rows_projects d width qkv Hql x bsz q Hx) as (f & Hf & Hfs & Hfr). injection Hf as Hf.
  destruct (run_split bsz q f w Hfs Hw) as (w1 & Q & K & V & Hsplit & Hw1 & Hv1 & HQ & HK & HV & Hr).
  destruct (heads_first_spec _ _ _ _ _ HQ) as (Q1 & HQ1 & HQ1s & HQ1r).
  destruct (heads_first_spec _ _ _ _ _ HK) as (K1 & HK1 & HK1s & HK1r).
  destruct (heads_first_spec _ _ _ _ _ HV) as (V1 & HV1 & HV1s & HV1r).
  destruct (run_maybe_rotary bsz q p Q1 K1 w1 HQ1s HK1s Hw1 ltac:(unfold view_apart; by rewrite Hv1)) as (w2 & Q2 & K2 & Hrot & Hw2 & HQ2s & HK2s & Hrotr).
  destruct (append_shared bsz p q _ pk K2 (fun b g t => rotary_row (p + t) (fk (row f [b; t]) g)) Hpk HK2s) as (K3 & HK3 & HK3c).
  { intros b h t Hb Hh Ht. rewrite (proj2 (Hrotr (b * heads + h) t ltac:(nia) Ht))%nat. f_equal. rewrite HK1r by done. by apply Hr. }
  destruct (append_shared bsz p q _ pv V1 (fun b g t => fv (row f [b; t]) g) Hpv HV1s) as (V3 & HV3 & HV3c).
  { intros b h t Hb Hh Ht. rewrite HV1r by done. by apply Hr. }
  destruct (heads_apart _ _ _ _ _ HQ2s) as (Q4 & HQ4 & HQ4s & HQ4r).
  destruct (heads_apart _ _ _ _ _ (proj1 HK3c)) as (K4 & HK4 & HK4s & HK4r).
  destruct (heads_apart _ _ _ _ _ (proj1 HV3c)) as (V4 & HV4 & HV4s & HV4r).
  destruct (falcon_attend_spec c bsz p q Q4 K4 V4 HQ4s HK4s HV4s) as (o1 & Ho1 & Ho1s & Ho1at).
  destruct (merge_heads_spec _ _ _ _ _ _ Ho1s eq_refl) as (o2 & o3 & Ho2 & Ho3 & Ho3s & Ho3at).
  destruct (on_rows_projects (heads * hd) d (lm_row (fl_dense l)) Hdl o3 bsz q Ho3s) as (o & Ho & Hos & Hor). injection Ho as Ho.
  assert (Hkeys : forall b h s, (b < bsz)%nat -> (h < heads)%nat -> (s < p + q)%nat ->
    row K3 [b * heads + h; s]%nat = key_from falcon_attention_rows pk p X b (h / groups)%nat s /\
    row V3 [b * heads + h; s]%nat = value_from falcon_attention_rows pv p X b (h / groups)%nat s).
  { intros b h s Hb Hh Hs. rewrite (proj2 HK3c), (proj2 HV3c) by done. unfold key_from, value_from. destruct (Nat.ltb_spec s p); [done|].
    cbn [cr_key cr_value falcon_attention_rows]. unfold falcon_key, falcon_value. rewrite Hfr by lia.
    by replace (p + (s - p))%nat with s by lia. }
  exists w2, o, K3, V3. split.
  { unfold falcon_attention. cbv zeta. rewrite (bind_lift _ _ w ()) by done.
    rewrite (bind_lift _ _ w q) by (unfold size; by rewrite Hx).
    assert (Hcl : call_linear (fl_query_key_value l) x = f) by (unfold call_linear; by rewrite Hqo). rewrite Hcl.
    rewrite (bind_ok _ _ w w1 (Q, K, V)) by done. rewrite (bind_lift _ _ w1 (bsz, q)) by (by rewrite HQ).
    rewrite (bind_lift _ _ w1 Q1) by done. rewrite (bind_lift _ _ w1 K1) by done. rewrite (bind_lift _ _ w1 V1) by done.
    rewrite (bind_lift _ _ w1 p).
    2: { destruct past as [[k v]|]; [|by cbn in Hpk; rewrite Hpk]. cbn in Hpk. unfold size. by rewrite (proj1 Hpk). }
    rewrite (bind_ok _ _ w1 w2 (Q2, K2)) by done.
    rewrite (bind_lift _ _ w2 K3) by (rewrite <- HK3; by destruct past as [[k v]|]).
    rewrite (bind_lift _ _ w2 V3) by (rewrite <- HV3; by destruct past as [[k v]|]).
    rewrite (bind_lift _ _ w2 (p + q)%nat) by (unfold size; by rewrite (proj1 HK3c)).
    rewrite (bind_lift _ _ w2 Q4) by done. rewrite (bind_lift _ _ w2 K4) by done. rewrite (bind_lift _ _ w2 V4) by done.
    rewrite (bind_lift _ _ w2 o1) by done. rewrite (bind_lift _ _ w2 o2) by done. rewrite (bind_lift _ _ w2 o3) by done.
    unfold call_linear. by rewrite Hdo, Ho. }
  split; [done|]. split; [done|].
  split; [|split; (split; [apply HK3c || apply HV3c|]); intros b h s Hb Hh Hs; by apply Hkeys].
  intros b t Hb Ht. rewrite Hor by done. unfold out_from. cbn [cr_out falcon_attention_rows]. unfold falcon_out. f_equal.
  unfold row at 1. rewrite Ho3s. cbn [List.last]. apply map_ext_in. intros i Hi%in_seq. cbn [app]. rewrite Ho3at by lia.
  assert (Hih : (i < heads * hd)%nat) by lia. destruct (split_coord i heads hd Hih) as (Hh & He & _).
  rewrite Ho1at by done. rewrite HQ4r by done. rewrite (proj1 (Hrotr (b * heads + i / hd) t ltac:(nia) Ht))%nat.
  rewrite HQ1r by done. rewrite (proj1 (Hr b t _ Hb Ht Hh)), Hfr by done. fold (X b t). unfold scored_read.
  f_equal; [f_equal|]; apply map_ext_in; intros s Hs%in_seq.
  - rewrite HK4r by lia. by rewrite (proj1 (Hkeys b (i / hd)%nat s Hb Hh ltac:(lia))).
  - rewrite HV4r by lia. by rewrite (proj2 (Hkeys b (i / hd)%nat s Hb Hh ltac:(lia))).
Qed.

(** ** The layer *)

(** The layer of the constructor: its norms and MLP keep the size of a row, and it has the graph of its norms when it
    runs on a GPU. *)
Record falcon_layer_ok : Prop := {
  fk_norms : match fl_norms l with
             | LnAttnMlp f g => keeps_length d f /\ keeps_length d g /\ (cuda = true -> fl_has_ln_graph l = true)
             | InputNorm f (Some g) => keeps_length d f /\ keeps_length d g
             | InputNorm f None => keeps_length d f
             end;
  fk_mlp : keeps_length d (fl_mlp l);
}.
Context (LOK : falcon_layer_ok).

Definition attn_norm : list num -> list num := match fl_norms l with LnAttnMlp f _ => f | InputNorm f _ => f end.
Definition mlp_norm : list num -> list num := match fl_norms l with LnAttnMlp _ g => g | InputNorm f _ => f end.

Definition falcon_layer_out (n : nat) (r : list num) (K V : nat -> nat -> list num) : list num :=
  let a := falcon_out n (attn_norm r) K V in
  let '(residual, m) :=
    match fl_norms l with
    | InputNorm _ (Some post_ln) => (zip_with add r a, post_ln (zip_with add r a))
    | _ => (r, mlp_norm r)
    end in
  let m := if fc_new_decoder_architecture c || fc_parallel_attn c then zip_with add (fl_mlp l m) a else fl_mlp l m in
  zip_with add residual m.

Lemma falcon_layer_out_causal n r K V K' V' :
  (forall g s, (g < kv_heads c)%nat -> (s <= n)%nat -> K g s = K' g s /\ V g s = V' g s) -> falcon_layer_out n r K V = falcon_layer_out n r K' V'.
Proof. intros H. unfold falcon_layer_out. by rewrite (falcon_out_causal n _ K V K' V' H). Qed.

Definition falcon_rows : causal_rows :=
  mkCausalRows (kv_heads c) hd (fun s r => falcon_key s (attn_norm r)) (fun s r => falcon_value s (attn_norm r))
    falcon_layer_out falcon_layer_out_causal.

Lemma attn_norm_keeps : keeps_length d attn_norm.
Proof. pose proof (fk_norms LOK) as H. unfold attn_norm. destruct (fl_norms l) as [f g|f [g|]]; tauto. Qed.

(** The norms before attention and before the MLP, with the graph or without. *)
Lemma run_norms bsz q (x : Tensor) w : shape x = [bsz; q; d] -> falcon_ok bsz w ->
  exists w' n1 n2,
    (match fl_norms l with
     | LnAttnMlp ln_attn ln_mlp =>
         len ← lift (size x 1);
         if (len =? 1)%nat && cuda then _optimized_apply_ln l ln_attn ln_mlp x else ret (rowwise ln_attn x, rowwise ln_mlp x)
     | InputNorm input_ln _ => ret (rowwise input_ln x, rowwise input_ln x)
     end) w = Some (w', Ok (n1, n2)) /\ falcon_ok bsz w' /\ fs_rotary_view w' = fs_rotary_view w /\ shape n1 = [bsz; q; d] /\ shape n2 = [bsz; q; d] /\
    forall b t, (b < bsz)%nat -> (t < q)%nat -> row n1 [b; t] = attn_norm (row x [b; t]) /\ row n2 [b; t] = mlp_norm (row x [b; t]).
Proof.
  intros Hx Hw. pose proof attn_norm_keeps as Hattn.
  assert (Hmlp : keeps_length d mlp_norm) by (pose proof (fk_norms LOK) as H; unfold mlp_norm; destruct (fl_norms l) as [f g|f [g|]]; tauto).
  destruct (rowwise_rows _ _ _ _ x Hattn Hx) as [Has Har]. destruct (rowwise_rows _ _ _ _ x Hmlp Hx) as [Hms Hmr].
  pose proof (fk_norms LOK) as Hn. unfold attn_norm, mlp_norm in *.
  destruct (fl_norms l) as [f g|f post]; [|by exists w, (rowwise f x), (rowwise f x)].
  destruct Hn as (_ & _ & Hgraph). rewrite (bind_lift _ _ w q) by (unfold size; by rewrite Hx).
  destruct ((q =? 1)%nat && cuda) eqn:Ec; [|by exists w, (rowwise f x), (rowwise g x)].
  apply andb_true_iff in Ec as [->%Nat.eqb_eq Ecuda]. destruct Hw as [Ht Hview Hrot Hsp Hln].
  destruct (run_falcon_graph_spec fs_ln_graph set_ln_graph (ln_callable f g) [x] [rowwise f x; rowwise g x] w (fun g w => eq_refl) (ln_callable_teq f g)) as (gr & out & Hrun & Hout & Hrec).
  { cbn [fmap list_fmap]. by rewrite Hx. }
  { done. }
  apply Forall2_cons_inv_l in Hout as (n1 & l1 & Ht1 & Hout & ->). apply Forall2_cons_inv_l in Hout as (n2 & l2 & Ht2 & Hout & ->).
  apply Forall2_nil_inv_l in Hout as ->.
  exists (set_ln_graph (Some gr) w), n1, n2. split.
  { unfold _optimized_apply_ln. rewrite (Hgraph Ecuda). by rewrite (bind_ok _ _ w _ _ Hrun). }
  cbn [fmap list_fmap] in Hrec. rewrite Hx in Hrec. split; [by split|]. split; [done|].
  split; [by rewrite <- (proj1 Ht1)|]. split; [by rewrite <- (proj1 Ht2)|]. intros b t Hb Htt.
  assert (Hin : in_bounds [bsz; 1]%nat [b; t]) by (repeat (apply in_bounds_cons; split; [done|]); by apply in_bounds_nil).
  by rewrite <- (row_teq _ _ _ [bsz; 1]%nat _ Ht1 Has Hin), <- (row_teq _ _ _ [bsz; 1]%nat _ Ht2 Hms Hin), Har, Hmr.
Qed.

(** The residual and the input of the MLP after attention. *)
Lemma run_post bsz q (x a n2 : Tensor) w : shape x = [bsz; q; d] -> shape a = [bsz; q; d] -> shape n2 = [bsz; q; d] ->
  exists res m,
    (match fl_norms l with
     | InputNorm _ (Some post_ln) => residual ← lift (dropout_add a x); ret (residual, rowwise post_ln residual)
     | _ => ret (x, n2)
     end : prog falcon_state (Tensor * Tensor)) w = Some (w, Ok (res, m)) /\ shape res = [bsz; q; d] /\ shape m = [bsz; q; d] /\
    forall b t, (b < bsz)%nat -> (t < q)%nat ->
      (row res [b; t], row m [b; t]) =
      match fl_norms l with
      | InputNorm _ (Some post_ln) =>
          (zip_with add (row x [b; t]) (row a [b; t]), post_ln (zip_with add (row x [b; t]) (row a [b; t])))
      | _ => (row x [b; t], row n2 [b; t])
      end.
Proof.
  intros Hx Ha Hn. pose proof (fk_norms LOK) as H. destruct (fl_norms l) as [f g|f [g|]]; [by exists x, n2| |by exists x, n2].
  destruct H as [_ Hg]. destruct (add_rows _ _ _ _ _ Hx Ha) as (r & Hr & Hrs & Hrr).
  destruct (rowwise_rows g _ _ _ r Hg Hrs) as [Hms Hmr]. exists r, (rowwise g r).
  rewrite (bind_lift _ _ w r) by done. split; [done|]. split; [done|]. split; [done|]. intros b t Hb Ht. by rewrite Hmr, Hrr.
Qed.

Lemma falcon_layer_spec bsz p q (x : Tensor) past pk pv w :
  shape x = [bsz; q; d] -> shared_past bsz p (fst <$> past) pk -> shared_past bsz p (snd <$> past) pv -> falcon_ok bsz w -> view_apart p q w ->
  let X := fun b t => row x [b; t] in
  let alibi := if fc_alibi c then Some (build_alibi_tensor bsz (q + p) heads) else None in
  exists w' o k v,
    falcon_layer_forward l cuda x alibi (prepare_attn_mask bsz q p) past true false w = Some (w', Ok (o, Some (k, v))) /\
    falcon_ok bsz w' /\ shape o = [bsz; q; d] /\
    (forall b t, (b < bsz)%nat -> (t < q)%nat -> row o [b; t] = out_from falcon_rows pk pv p X b t) /\
    shared_cache bsz heads groups (p + q) hd k (key_from falcon_rows pk p X) /\
    shared_cache bsz heads groups (p + q) hd v (value_from falcon_rows pv p X).
Proof.
  intros Hx Hpk Hpv Hw Hap X alibi. destruct (run_norms bsz q x w Hx Hw) as (w1 & n1 & n2 & Hn & Hw1 & Hv1 & Hn1 & Hn2 & Hnr).
  destruct (falcon_attention_spec bsz p q n1 past pk pv w1 Hn1 Hpk Hpv Hw1 ltac:(unfold view_apart; by rewrite Hv1)) as (w2 & a & k & v & Ha & Hw2 & Has & Har & Hk & Hv).
  destruct (run_post bsz q x a n2 w2 Hx Has Hn2) as (res & m & Hpost & Hres & Hm & Hpr).
  destruct (rowwise_rows (fl_mlp l) _ _ _ m (fk_mlp LOK) Hm) as [Hmls Hmlr].
  assert (exists y, (if fc_new_decoder_architecture c || fc_parallel_attn c then elementwise add (rowwise (fl_mlp l) m) a
      else Ok (rowwise (fl_mlp l) m)) = Ok y /\ shape y = [bsz; q; d] /\
    forall b t, (b < bsz)%nat -> (t < q)%nat -> row y [b; t] =
      if fc_new_decoder_architecture c || fc_parallel_attn c then zip_with add (fl_mlp l (row m [b; t])) (row a [b; t]) else fl_mlp l (row m [b; t]))
    as (y & Hy & Hys & Hyr).
  { destruct (fc_new_decoder_architecture c || fc_parallel_attn c); [|by exists (rowwise (fl_mlp l) m)].
    destruct (add_rows _ _ _ _ _ Hmls Has) as (y & Hy & Hys & Hyr). exists y. split; [done|]. split; [done|].
    intros b t Hb Ht. by rewrite Hyr, Hmlr. }
  destruct (add_rows _ _ _ _ _ Hres Hys) as (o & Ho & Hos & Hor).
  set (R := falcon_attention_rows) in *.
  assert (Hcache : forall b g s, (b < bsz)%nat -> (s < p + q)%nat ->
    key_from R pk p (fun b t => row n1 [b; t]) b g s = key_from falcon_rows pk p X b g s /\
    value_from R pv p (fun b t => row n1 [b; t]) b g s = value_from falcon_rows pv p X b g s).
  { intros b g s Hb Hs. unfold key_from, value_from, R. destruct (Nat.ltb_spec s p); [done|].
    cbn [cr_key cr_value falcon_attention_rows falcon_rows]. by rewrite (proj1 (Hnr b (s - p)%nat Hb ltac:(lia))). }
  exists w2, o, k, v. split.
  { unfold falcon_layer_forward. cbv zeta. rewrite (bind_ok _ _ w w1 (n1, n2)) by done. rewrite (bind_ok _ _ w1 w2 (a, Some (k, v))) by done.
    rewrite (bind_ok _ _ w2 w2 (res, m)) by done. rewrite (bind_lift _ _ w2 y) by done. by rewrite (bind_lift _ _ w2 o). }
  split; [done|]. split; [done|].
  split; [|split; (split; [apply Hk || apply Hv|]); intros b h s Hb Hh Hs; [rewrite (proj2 Hk) by done|rewrite (proj2 Hv) by done]; by apply Hcache].
  intros b t Hb Ht. rewrite Hor, Hyr by done. pose proof (Hpr b t Hb Ht) as Hprbt. rewrite (proj2 (Hnr b t Hb Ht)) in Hprbt.
  unfold out_from. cbn [cr_out falcon_rows]. unfold falcon_layer_out.
  assert (Hao : row a [b; t] = falcon_out (p + t) (attn_norm (X b t)) (key_from falcon_rows pk p X b) (value_from falcon_rows pv p X b)).
  { rewrite Har by done. unfold out_from. cbn [cr_out R falcon_attention_rows]. rewrite (proj1 (Hnr b t Hb Ht)). fold (X b t).
    apply falcon_out_causal. intros g s _ Hs. apply Hcache; [done|lia]. }
  rewrite <- Hao. fold (X b t) in Hprbt. destruct (fl_norms l) as [f g|f [g|]]; by injection Hprbt as -> ->.
Qed.

(** ** The wrapped block *)

(** The number of positions of a cache in the layout of the servers. *)
Definition past_length (past : option (Tensor * Tensor)) : nat := match past with Some (k, _) => coord 2 (shape k) | None => 0%nat end.

Lemma past_length_cache bsz h p e past fk' fv' : bloom_cache bsz h p e past fk' fv' -> past_length past = p.
Proof. destruct past as [[k v]|]; [|done]. intros (Hk & _). cbn. by rewrite Hk. Qed.

(** The wrapped block computes the rows of the layer, if the graphs were recorded for this batch size, for
    chunks without the position that the rotary graph writes to. *)
Lemma falcon_computes :
  computes falcon_ok (fun q past w => view_apart (past_length past) q w) d falcon_rows (fun x past => falcon_forward l cuda x None None past true false).
Proof.
  intros bsz p q x past pk pv w Hx Hpast Hap Hw X. rewrite (past_length_cache _ _ _ _ _ _ _ Hpast) in Hap. cbn [cr_heads cr_head_dim falcon_rows] in *.
  assert (exists past', (match past with Some kv => kv ← _reorder_cache_from_bloom_to_falcon c kv; Ok (Some kv) | None => Ok None end) = Ok past' /\
    shared_past bsz p (fst <$> past') pk /\ shared_past bsz p (snd <$> past') pv) as (past' & Hconv & Hpk & Hpv).
  { destruct past as [[k v]|]; [|by exists None]. destruct (from_bloom_to_falcon c (fo_config OK) _ _ _ _ _ _ _ Hpast) as (k' & v' & -> & Hk & Hv).
    by exists (Some (k', v')). }
  destruct (falcon_layer_spec bsz p q x past' pk pv w Hx Hpk Hpv Hw Hap) as (w' & o & k & v & Hrun & Hw' & Hos & Hor & Hk & Hv).
  destruct (from_falcon_to_bloom c (fo_config OK) _ _ _ _ _ _ _ Hk Hv) as (k' & v' & Hback & Hbloom).
  exists w', o, k', v'. split; [|done]. unfold falcon_forward. cbv zeta. rewrite (bind_lift _ _ w ()) by done.
  rewrite (bind_lift _ _ w bsz) by (unfold size; by rewrite Hx). rewrite (bind_lift _ _ w q) by (unfold size; by rewrite Hx).
  rewrite (bind_lift _ _ w past') by done. rewrite (bind_lift _ _ w p).
  2: { destruct past' as [[k1 v1]|]; cbn in Hpk; [|by rewrite Hpk]. unfold size. by rewrite (proj1 Hpk). }
  rewrite (bind_ok _ _ w w' (o, Some (k, v))) by done.
  rewrite (bind_lift _ _ w' (Some (k', v'))); [done|]. by rewrite Hback.
Qed.
End layer.

(** C10: a wrapped Falcon block refines the module of its rows, the interface of a served block, for every supported
    configuration (rotary or alibi, parallel or sequential MLP, heads in groups or not): although attention keeps one
    key and value per head, nothing is lost when the cache is collapsed to one per group.  Two conditions on the graphs:
    those recorded so far were recorded for this batch size ([falcon_ok]; a graph keeps the shape that it was recorded
    with), and the chunk must not contain the position whose cached cosines and sines are the memory of the rotary
    graph ([view_apart]). *)
Theorem falcon_block_refines l cuda d width fq fk fv (OK : falcon_attention_ok l d width fq fk fv) hd bsz p q (x : Tensor) kv w b :
  let c := fl_config l in
  let R := falcon_rows l d width fq fk fv OK in
  falcon_layer_ok l cuda d -> falcon_ok l d width bsz w -> view_apart p q w ->
  cache_shapes bsz (kv_heads c) p (fc_head_dim c) (Some kv) -> shape x = [bsz; q; d] ->
  exists w' o kv', falcon_forward l cuda x None None (Some kv) true false w = Some (w', Ok (o, Some kv')) /\
    falcon_ok l d width bsz w' /\ cache_shapes bsz (kv_heads c) (p + q) (fc_head_dim c) (Some kv') /\
    mod_forward (CausalModule := RowsModule hd (fun _ => R)) b (cache_slots R bsz p kv) (columns bsz q x) =
      (columns bsz q o, cache_slots R bsz (p + q) kv').
Proof.
  intros c R HL Hw Hap Hs Hx. pose proof (falcon_computes l cuda d width fq fk fv OK HL) as HC.
  assert (Hap' : view_apart (past_length (Some kv)) q w).
  { pose proof (bloom_cache_rows _ _ _ _ _ Hs) as Hc. by rewrite (past_length_cache _ _ _ _ _ _ _ Hc). }
  destruct (computes_refines _ _ _ _ _ bsz p q x kv w HC Hap' Hw Hs Hx) as (w' & o & kv' & Hrun & Hw' & Hs' & Hf).
  by exists w', o, kv'.
Qed.
(** ** The cached cosines and sines *)

Lemma cos_sin_first hd n p : (n + p <= Z.to_nat INFERENCE_MAX_LENGTH)%nat ->
  let N := Z.to_nat INFERENCE_MAX_LENGTH in let cos := rotary_table N hd f_cos in let sin := rotary_table N hd f_sin in
  cos_sin hd n p fs_init = Some (set_cached INFERENCE_MAX_LENGTH cos sin None fs_init, Ok (slice_dim 1 p (n + p) cos, slice_dim 1 p (n + p) sin)).
Proof.
  intros H. unfold cos_sin. cbn [fs_init fs_seq_len_cached]. change (-1 =? -1) with true. cbn iota.
  rewrite Z.max_l by (unfold INFERENCE_MAX_LENGTH in *; lia). destruct (Z.ltb_spec (-1) INFERENCE_MAX_LENGTH); [done|unfold INFERENCE_MAX_LENGTH in *; lia].
Qed.

Lemma cos_sin_cached hd n p w : fs_seq_len_cached w = INFERENCE_MAX_LENGTH -> (n + p <= Z.to_nat INFERENCE_MAX_LENGTH)%nat ->
  cos_sin hd n p w = Some (w, Ok (slice_dim 1 p (n + p) (fs_cos_cached w), slice_dim 1 p (n + p) (fs_sin_cached w))).
Proof.
  intros Hw H. unfold cos_sin. rewrite Hw. destruct (Z.eqb_spec INFERENCE_MAX_LENGTH (-1)); [done|].
  destruct (Z.ltb_spec INFERENCE_MAX_LENGTH (Z.of_nat (n + p))); [unfold INFERENCE_MAX_LENGTH in *; lia|done].
Qed.

Lemma f_rotate_ok m q hd (x cos sin : Tensor) :
  shape x = [m; q; hd] -> shape cos = [1; q; hd]%nat -> shape sin = [1; q; hd]%nat -> exists y, f_rotate x cos sin = Ok y.
Proof.
  intros Hx Hc Hs. unfold f_rotate. rewrite Hx. cbn [List.last].
  destruct (elementwise_ok mul x cos) as (u & -> & Hus & _); [rewrite Hx, Hc; repeat (constructor; [by auto|]); constructor|].
  destruct (elementwise_ok mul (on_rows hd f_rotate_half x) sin) as (v & -> & Hvs & _);
    [rewrite on_rows_shape, Hx, Hs; repeat (constructor; [by auto|]); constructor|].
  cbn [mbind result_bind]. destruct (elementwise_same add u v) as (y & Hy & _); [rewrite Hus, Hvs, on_rows_shape; by rewrite Hx|by exists y].
Qed.

(** A step of one token by the graph: what it leaves in the cache. *)
Lemma graph_step m hd (Q K cos sin : Tensor) p w :
  let shapes := [[m; 1; hd]; [m; 1; hd]; [1; 1; hd]; [1; 1; hd]]%nat in
  shape <$> [Q; K; cos; sin] = shapes -> recorded_for (fs_rotary_graph w) shapes ->
  let view := match fs_rotary_graph w with None => Some p | Some _ => fs_rotary_view w end in
  exists w' r cos' sin', falcon_optimized_rotary p Q K cos sin w = Some (w', Ok r) /\
    recorded_for (fs_rotary_graph w') shapes /\ fs_rotary_graph w' <> None /\ fs_rotary_view w' = view /\
    fs_seq_len_cached w' = fs_seq_len_cached w /\ cos' ≡t cos /\ sin' ≡t sin /\
    fs_cos_cached w' = match view with Some i => overwrite_row i (fs_cos_cached w) cos' | None => fs_cos_cached w end /\
    fs_sin_cached w' = match view with Some i => overwrite_row i (fs_sin_cached w) sin' | None => fs_sin_cached w end.
Proof.
  intros shapes Hs Hg view. pose proof Hs as [= HQ HK Hc Hsn].
  assert (exists Q1 K1, apply_rotary Q K cos sin = Ok (Q1, K1)) as (Q1 & K1 & Hout).
  { unfold apply_rotary. destruct (f_rotate_ok m 1 hd Q cos sin) as [y ->]; [done..|].
    destruct (f_rotate_ok m 1 hd K cos sin) as [z ->]; [done..|]. by exists y, z. }
  unfold falcon_optimized_rotary. set (w1 := match fs_rotary_graph w with None => _ | Some _ => w end).
  assert (fs_rotary_graph w1 = fs_rotary_graph w /\ fs_rotary_view w1 = view /\ fs_seq_len_cached w1 = fs_seq_len_cached w /\
    fs_cos_cached w1 = fs_cos_cached w /\ fs_sin_cached w1 = fs_sin_cached w) as (Eg & Ev & En & Ec & Es)
    by (unfold w1, view; by destruct (fs_rotary_graph w) eqn:Eg').
  clearbody w1. rewrite <- Eg in Hg. rewrite <- Hs in Hg.
  destruct (call_and_read falcon_rotary_callable rotary_callable_teq fs_rotary_graph (fun g w => write_through (set_rotary_graph g w))
    [Q; K; cos; sin] [Q1; K1] w1 write_through_graph Hg) as (g & Hrun & Hlazy & Ho & Hrec); [unfold falcon_rotary_callable; by rewrite Hout|].
  pose proof (lazy_graphed_memory _ _ _ _ _ Hg Hlazy) as Hmem. destruct g as [ins outs]. cbn [ga_outputs] in Ho, Hrun.
  apply Forall2_cons_inv_l in Ho as (Q' & l1 & HtQ & Ho & ->). apply Forall2_cons_inv_l in Ho as (K' & l2 & HtK & Ho & ->).
  apply Forall2_nil_inv_l in Ho as ->. cbn [ga_inputs] in Hmem. set (outs := [Q'; K']) in *.
  apply Forall2_cons_inv_r in Hmem as (q' & r1 & _ & Hmem & ->). apply Forall2_cons_inv_r in Hmem as (k' & r2 & _ & Hmem & ->).
  apply Forall2_cons_inv_r in Hmem as (c' & r3 & Htc & Hmem & ->). apply Forall2_cons_inv_r in Hmem as (s' & r4 & Hts & Hmem & ->).
  apply Forall2_nil_inv_r in Hmem as ->.
  exists (write_through (set_rotary_graph (Some (mkGraphed [q'; k'; c'; s'] outs)) w1)), (Q', K'), c', s'.
  split; [rewrite (bind_ok _ _ w1 (write_through (set_rotary_graph (Some (mkGraphed [q'; k'; c'; s'] outs)) w1)) [Q'; K']); [done|exact Hrun]|].
  rewrite Hs in Hrec. unfold write_through. cbn [set_rotary_graph fs_rotary_view fs_rotary_graph]. rewrite Ev.
  destruct view; cbn [set_cached set_rotary_graph fs_rotary_view fs_rotary_graph fs_seq_len_cached fs_cos_cached fs_sin_cached]; rewrite ?Ec, ?Es, ?En;
    by repeat (split; [done|]).
Qed.

(** Two tokens on a GPU, one after the other. *)
Definition two_tokens (hd : nat) (Q K : Tensor) (p0 : nat) (Q' K' : Tensor) (p1 : nat) : prog falcon_state ((Tensor * Tensor) * (Tensor * Tensor)) :=
  first ← rotary_forward hd true Q K p0;
  second ← rotary_forward hd true Q' K' p1;
  ret (first, second).

(** The memory of the cached cosines and sines is an input of the graph that was recorded with them: after a first
    token at position [p0] and another one at [p1], the cache holds the values of [p1] at position [p0], and so they
    are given to every later chunk that contains [p0]. *)
Theorem falcon_rotary_overwritten hd m p0 p1 n p (Q K Q' K' : Tensor) :
  (p0 < Z.to_nat INFERENCE_MAX_LENGTH)%nat -> (p1 < Z.to_nat INFERENCE_MAX_LENGTH)%nat -> p0 <> p1 ->
  (n + p <= Z.to_nat INFERENCE_MAX_LENGTH)%nat -> (p <= p0 < n + p)%nat ->
  shape <$> [Q; K; Q'; K'] = [[m; 1; hd]; [m; 1; hd]; [m; 1; hd]; [m; 1; hd]]%nat ->
  exists w2 r w3 cos sin,
    two_tokens hd Q K p0 Q' K' p1 fs_init = Some (w2, Ok r) /\
    cos_sin hd n p w2 = Some (w3, Ok (cos, sin)) /\
    forall e, (e < hd)%nat -> at_ cos [0; p0 - p; e]%nat = f_cos p1 e /\ at_ sin [0; p0 - p; e]%nat = f_sin p1 e.
Proof.
  intros Hp0 Hp1 Hne Hn Hp Hs. injection Hs as HQ HK HQ' HK'. set (N := Z.to_nat INFERENCE_MAX_LENGTH) in *.
  assert (Hslice : forall i (t : Tensor), (i < N)%nat -> shape t = [1; N; hd]%nat -> shape (slice_dim 1 i (1 + i) t) = [1; 1; hd]%nat).
  { intros i t Hi Ht. unfold slice_dim. cbn [shape]. rewrite Ht. unfold set_coord. cbn [insert list_insert]. do 2 f_equal. lia. }
  set (w0 := set_cached INFERENCE_MAX_LENGTH (rotary_table N hd f_cos) (rotary_table N hd f_sin) None fs_init).
  destruct (graph_step m hd Q K (slice_dim 1 p0 (1 + p0) (rotary_table N hd f_cos)) (slice_dim 1 p0 (1 + p0) (rotary_table N hd f_sin)) p0 w0)
    as (w1 & r1 & c1 & s1 & Hrun1 & Hrec1 & Hg1 & Hv1 & Hn1 & Htc1 & Hts1 & Hc1 & Hs1); [by rewrite !fmap_cons, HQ, HK, !Hslice|done|].
  cbn in Hv1, Hc1, Hs1, Hn1. fold N in Hc1, Hs1.
  destruct (graph_step m hd Q' K' (slice_dim 1 p1 (1 + p1) (fs_cos_cached w1)) (slice_dim 1 p1 (1 + p1) (fs_sin_cached w1)) p1 w1)
    as (w2 & r2 & c2 & s2 & Hrun2 & _ & _ & _ & Hn2 & Htc2 & Hts2 & Hc2 & Hs2).
  { rewrite !fmap_cons, HQ', HK', !Hslice; [done|done|by rewrite Hs1|done|by rewrite Hc1]. }
  { done. }
  destruct (fs_rotary_graph w1) eqn:Eg; [|done]. rewrite Hv1 in Hc2, Hs2.
  exists w2, (r1, r2), w2, (slice_dim 1 p (n + p) (fs_cos_cached w2)), (slice_dim 1 p (n + p) (fs_sin_cached w2)).
  assert (Hfirst : rotary_forward hd true Q K p0 fs_init = Some (w1, Ok r1)).
  { unfold rotary_forward. rewrite (bind_lift _ _ fs_init (m, 1%nat, hd)) by (unfold dims3; by rewrite HQ).
    erewrite bind_ok by (apply cos_sin_first; lia). cbn [Nat.eqb andb]. exact Hrun1. }
  assert (Hsecond : rotary_forward hd true Q' K' p1 w1 = Some (w2, Ok r2)).
  { unfold rotary_forward. rewrite (bind_lift _ _ w1 (m, 1%nat, hd)) by (unfold dims3; by rewrite HQ').
    erewrite bind_ok by (apply cos_sin_cached; [done|lia]). cbn [Nat.eqb andb]. exact Hrun2. }
  split; [unfold two_tokens; by rewrite (bind_ok _ _ _ _ _ Hfirst), (bind_ok _ _ _ _ _ Hsecond)|split].
  - apply cos_sin_cached; [congruence|lia].
  - intros e He.
    assert (Hread : forall (t c u : Tensor) f, t = overwrite_row p0 (overwrite_row p0 (rotary_table N hd f) u) c ->
      c ≡t slice_dim 1 p1 (1 + p1) (overwrite_row p0 (rotary_table N hd f) u) -> at_ (slice_dim 1 p (n + p) t) [0; p0 - p; e]%nat = f p1 e).
    { intros t c u f -> Htc. unfold slice_dim at 1. cbn [at_ coord nth]. unfold set_coord at 1. cbn [insert list_insert].
      unfold overwrite_row at 1. cbn [at_ coord nth]. destruct (Nat.eqb_spec (p + (p0 - p)) p0); [|lia].
      unfold set_coord at 1. cbn [insert list_insert]. rewrite (proj2 Htc).
      - unfold slice_dim. cbn [at_ coord nth]. unfold set_coord. cbn [insert list_insert]. unfold overwrite_row. cbn [at_ coord nth].
        destruct (Nat.eqb_spec (p1 + 0) p0); [lia|]. unfold rotary_table. cbn [at_ coord nth]. by rewrite Nat.add_0_r.
      - rewrite (proj1 Htc), Hslice by done. repeat (apply in_bounds_cons; split; [lia|]). by apply in_bounds_nil. }
    split; [apply (Hread _ c2 c1)|apply (Hread _ s2 s1)]; [rewrite Hc2; by rewrite Hc1|by rewrite <- Hc1|rewrite Hs2; by rewrite Hs1|by rewrite <- Hs1].
Qed.

(** With alibi in the new architecture the constructor does not create [ln_graph]: on a GPU a single token fails. *)
Lemma ln_graph_missing l x bsz d alibi mask past use_cache f1 f2 f3 f4 w :
  fc_alibi (fl_config l) = true -> fc_new_decoder_architecture (fl_config l) = true ->
  (fl_norms l, fl_has_ln_graph l) = layer_init (fl_config l) f1 f2 f3 f4 -> shape x = [bsz; 1; d]%nat ->
  falcon_layer_forward l true x alibi mask past use_cache false w = Some (w, Err AttributeError).
Proof.
  intros Ha Hn Hinit Hx. unfold layer_init in Hinit. rewrite Ha, Hn in Hinit. injection Hinit as E1 E2.
  unfold falcon_layer_forward, size, _optimized_apply_ln. by rewrite E1, E2, Hx.
Qed.
End falcon_rows.

(** ** An example *)

#[local] Existing Instance score_numbers.

#[local, refine] Instance score_falcon : FalconLibrary := {|
  f_rotate_half r := drop (length r / 2) r ++ take (length r / 2) r;
  f_cos p e := Score (Z.of_nat (p + e));
  f_sin p e := Score (Z.of_nat p - Z.of_nat e);
  sdpa_scale _ x := x;
  inv_norm_scale _ x := x;
  minus_1e9 := Masked;
  build_alibi_tensor b n h := mkTensor [b * h; 1; n]%nat (fun idx => Score (Z.of_nat (coord 2 idx * S (coord 0 idx mod h))));
  alibi_value h j s := Score (Z.of_nat (s * S j));
  prepare_attn_mask b q p := mkTensor [b; 1; q; p + q]%nat (fun idx => negb (coord 3 idx <=? p + coord 2 idx)%nat);
  old_split_heads heads hd _ x :=
    '(b, s, _) ← dims3 x;
    y ← view [b; s; heads * 3; hd]%nat x;
    let part i := mkTensor [b; s; heads; hd] (fun idx => match idx with [b; s; h; e] => at_ y [b; s; h * 3 + i; e]%nat | _ => Masked end) in
    Ok (part 0%nat, part 1%nat, part 2%nat);
|}.
Proof.
  - exact softmax_masked.
  - intros b n h. split; [done|]. intros i j s Hi Hj Hs. cbn [at_ coord nth]. by rewrite (proj2 (merged_coord i h j Hj)).
  - intros b q p. by split.
Defined.

Definition small_falcon_config : FalconConfig := mkFalconConfig 4 2 1 true false false true false.

Definition repeating : linear_module := mkLinear (mkTensor [0; 0]%nat (fun _ => Masked)) 8 (fun r => r ++ rev r).

Definition small_falcon : FalconDecoderLayer :=
  let '(norms, graph) := layer_init small_falcon_config (fun r => r) (@rev score) (fun r => r) (fun r => r) in
  mkFalconLayer small_falcon_config repeating (reversing 4) norms graph (fun r => r).

Lemma small_falcon_ok :
  falcon_attention_ok small_falcon 4 8 (fun r h => at_head 2 (h / 2 * (2 + 2) + h mod 2) r) (fun r g => at_head 2 (g * (2 + 2) + 2) r)
    (fun r g => at_head 2 (g * (2 + 2) + (2 + 1)) r).
Proof.
  split; [split; [done|by apply Nat.ltb_lt|done]|done| | |done|by intros r; apply reversing_length].
  - intros r Hr. cbn [fl_query_key_value small_falcon lm_row repeating]. 
    change (length (r ++ rev r) = 8%nat). rewrite length_app, length_rev. pose proof (Hr : @length score r = 4%nat). lia.
  - apply (new_splits small_falcon_config); by vm_compute; auto with arith.
Qed.

Definition falcon_token : tensor score := counting [1; 1; 4]%nat.
Definition falcon_past : tensor score * tensor score := (counting [1; 2; 2]%nat, counting [1; 2; 2]%nat).

(** A token after a past of two on a GPU, with nothing recorded or cached. *)
Lemma falcon_block_refines_witness :
  exists w' o kv', falcon_forward small_falcon true falcon_token None None (Some falcon_past) true false fs_init = Some (w', Ok (o, Some kv')) /\
    falcon_ok small_falcon 4 8 1 w' /\ cache_shapes 1 1 (2 + 1) 2 (Some kv') /\
    let R := falcon_rows small_falcon 4 8 _ _ _ small_falcon_ok in
    mod_forward (CausalModule := RowsModule 2 (fun _ => R)) (0, None) (cache_slots R 1 2 falcon_past) (columns 1 1 falcon_token) =
      (columns 1 1 o, cache_slots R 1 (2 + 1) kv').
Proof.
  apply (falcon_block_refines small_falcon true 4 8 _ _ _ small_falcon_ok 2 1 2 1 falcon_token falcon_past fs_init (0, None)).
  - split; [|by intros r]. split; [by intros r|]. split; [|done]. intros r Hr. etrans; [apply length_rev|done].
  - split; [by left|done..].
  - done.
  - by split.
  - reflexivity.
Defined.

(** A prompt of three tokens at position 0 after tokens at the positions 1 and 7. *)
Lemma falcon_rotary_overwritten_witness :
  exists w2 r w3 cos sin,
    two_tokens 2 (counting [2; 1; 2]%nat) (counting [2; 1; 2]%nat) 1 (counting [2; 1; 2]%nat) (counting [2; 1; 2]%nat) 7 fs_init
      = Some (w2, Ok r) /\
    cos_sin 2 3 0 w2 = Some (w3, Ok (cos, sin)) /\
    forall e, (e < 2)%nat -> at_ cos [0; 1 - 0; e]%nat = f_cos 7 e /\ at_ sin [0; 1 - 0; e]%nat = f_sin 7 e.
Proof. apply (falcon_rotary_overwritten 2 2 1 7 3 0); unfold INFERENCE_MAX_LENGTH; try reflexivity; lia. Defined.

(** What the block computes for it; after this token the graphs are recorded and a second token is accepted. *)
Example small_falcon_step :
  match falcon_forward small_falcon true falcon_token None None (Some falcon_past) true false fs_init with
  | Some (w, Ok (o, cache)) =>
      (evaluate o, match falcon_forward small_falcon true o None None cache true false w with
                   | Some (_, Ok (o', Some (k, v))) => [shape o'; shape k; shape v]
                   | _ => []
                   end)
  | _ => ([], [])
  end = ([-252; -269; -9676; -9389], [[1; 1; 4]; [1; 2; 4]; [1; 4; 2]]%nat).
Proof. vm_compute. reflexivity. Qed.
