(* ===== verification/TaskPool.v ===== *)
(** * TaskPool: [server/task_pool.py] and [server/task_prioritizer.py]

    The queue between the connection handlers and the runtime: tasks are submitted, moved by the pool's
    thread into a priority queue, loaded by the runtime in order of priority, and answered with outputs
    or an exception. *)

From S2P Require Import Prelude PyFloat PyDict.

(** ** The prioritizer *)

Inductive task_type := TInference | TForward | TBackward | TForwardInBackward.

#[global] Instance task_type_eq_dec : EqDecision task_type.
Proof. solve_decision. Defined.

(** [DummyTaskPrioritizer.prioritize] *)
Definition prioritize (ty : task_type) : pyfloat :=
  if decide (ty = TInference) then f_of_Z 1 else f_of_Z 2.

(** ** Tasks *)

(** An argument of a task: a tensor with its shape, or something else. *)
Inductive arg := ATensor (shape : list Z) | AOther.

#[global] Instance arg_eq_dec : EqDecision arg.
Proof. solve_decision. Defined.

Record Task := mkTask {
  priority : pyfloat;
  time_submitted : pyfloat;
  task_uid : nat;
  args : list arg;
}.

(** The dataclass compares [(priority, time_submitted)]. *)
Definition task_key (t : Task) : list pyfloat := [priority t; time_submitted t].
Definition task_lt (t u : Task) : bool := lex_lt (task_key t) (task_key u).

Definition get_task_size (l : list arg) : Z :=
  match l with
  | ATensor (a :: b :: _) :: _ => a * b
  | _ => 1
  end.

(** ** The pool *)

(** What a future holds once it is done. *)
Inductive outcome := Outputs (batch_outputs : list arg) | Raised (e : exn).

Record Pool := mkPool {
  max_batch_size : Z;
  submitted_tasks : list (option Task);      (* [None] shuts the thread down *)
  ordered_tasks : list Task;                 (* the content of the priority queue *)
  dispatched_tasks : list (nat * Task);
  batch_pipe : Z;                            (* unread messages of the pipe *)
  pool_priority : list pyfloat;
  thread_alive : bool;
  futures : list (nat * outcome);            (* futures that are done *)
  sending : list Task;                       (* put, by handlers that have yet to write to the pipe *)
}.

Definition new_pool (max_batch_size : Z) : Pool :=
  mkPool max_batch_size [] [] [] 0 [f_inf; f_inf] true [] [].

Definition set_future (p : Pool) (uid : nat) (o : outcome) : Pool :=
  mkPool (max_batch_size p) (submitted_tasks p) (ordered_tasks p) (dispatched_tasks p) (batch_pipe p)
    (pool_priority p) (thread_alive p) (dset (futures p) uid o) (sending p).

Definition set_priority (p : Pool) (t : Task) : Pool :=
  mkPool (max_batch_size p) (submitted_tasks p) (ordered_tasks p) (dispatched_tasks p) (batch_pipe p)
    (task_key t) (thread_alive p) (futures p) (sending p).

(** [submit_task] up to [submitted_tasks.put]: a handler's task, or the exception of one that is too large. *)
Definition submit_task (p : Pool) (t : Task) : Pool :=
  if max_batch_size p <? get_task_size (args t) then set_future p (task_uid t) (Raised ValueError)
  else
    mkPool (max_batch_size p) (submitted_tasks p ++ [Some t]) (ordered_tasks p) (dispatched_tasks p)
      (batch_pipe p) (pool_priority p) (thread_alive p) (futures p) (sending p ++ [t]).

(** The rest of [submit_task]: the message of the pipe, and the priority of the pool. *)
Definition finish_submit (p : Pool) (uid : nat) : option Pool :=
  t ← find (fun t => bool_decide (task_uid t = uid)) (sending p);
  let p' := mkPool (max_batch_size p) (submitted_tasks p) (ordered_tasks p) (dispatched_tasks p) (batch_pipe p + 1)
              (pool_priority p) (thread_alive p) (futures p) (filter (fun u => task_uid u <> uid) (sending p)) in
  Some (if lex_lt (task_key t) (pool_priority p') then set_priority p' t else p').

Definition pool_shutdown (p : Pool) : Pool :=
  mkPool (max_batch_size p) (submitted_tasks p ++ [None]) (ordered_tasks p) (dispatched_tasks p) (batch_pipe p)
    (pool_priority p) (thread_alive p) (futures p) (sending p).

(** One turn of the loop of [run]; [None] when it has to wait or has ended. *)
Definition run_once (p : Pool) : option Pool :=
  match thread_alive p, submitted_tasks p with
  | true, Some t :: rest =>
      Some (mkPool (max_batch_size p) rest (ordered_tasks p ++ [t]) (dispatched_tasks p) (batch_pipe p)
              (pool_priority p) true (futures p) (sending p))
  | true, None :: rest =>
      Some (mkPool (max_batch_size p) rest (ordered_tasks p) (dispatched_tasks p) (batch_pipe p)
              (pool_priority p) false (futures p) (sending p))
  | _, _ => None
  end.

(** [PriorityQueue.get] may return task [uid]: no task of the queue is smaller. *)
Definition find_minimal (l : list Task) (uid : nat) : option Task :=
  match filter (fun t => task_uid t = uid) l with
  | t :: _ => if forallb (fun u => negb (task_lt u t)) l then Some t else None
  | [] => None
  end.

(** The runtime takes the task; [moved]: its inputs could be moved to the device.  When they could not, the exception
    leaves the task neither in the queue nor with the dispatched ones, and the message in the pipe. *)
Definition load_batch_to_runtime (p : Pool) (uid : nat) (moved : bool) : option Pool :=
  t ← find_minimal (ordered_tasks p) uid;
  let rest := filter (fun u => task_uid u <> uid) (ordered_tasks p) in
  if negb moved then
    Some (mkPool (max_batch_size p) (submitted_tasks p) rest (dispatched_tasks p) (batch_pipe p) (pool_priority p)
            (thread_alive p) (futures p) (sending p))
  else if batch_pipe p <=? 0 then None
  else
    let p' := mkPool (max_batch_size p) (submitted_tasks p) rest (dset (dispatched_tasks p) uid t)
                (batch_pipe p - 1) (pool_priority p) (thread_alive p) (futures p) (sending p) in
    Some (match py_min task_lt rest with Ok first_remaining => set_priority p' first_remaining | Err _ => p' end).

(** [_dispatched_tasks.pop(uid, None)] and the result; a missing task is only logged. *)
Definition finish (p : Pool) (uid : nat) (o : outcome) : Pool :=
  match dget (dispatched_tasks p) uid with
  | None => p
  | Some t =>
      set_future (mkPool (max_batch_size p) (submitted_tasks p) (ordered_tasks p) (dpop (dispatched_tasks p) uid)
        (batch_pipe p) (pool_priority p) (thread_alive p) (futures p) (sending p)) uid o
  end.

Definition send_outputs_from_runtime (p : Pool) (uid : nat) (batch_outputs : list arg) : Pool :=
  finish p uid (Outputs batch_outputs).

Definition send_exception_from_runtime (p : Pool) (uid : nat) (e : exn) : Pool := finish p uid (Raised e).

Definition empty (p : Pool) : bool := batch_pipe p =? 0.

(** ** Interleavings of handlers, the pool's thread and the runtime *)

Inductive pool_action :=
  | Submit (t : Task)
  | Sent (uid : nat)
  | Shutdown
  | RunOnce
  | Load (uid : nat) (moved : bool)
  | SendOutputs (uid : nat) (outs : list arg)
  | SendException (uid : nat) (e : exn).

Definition pool_step (p : Pool) (a : pool_action) : option Pool :=
  match a with
  | Submit t => Some (submit_task p t)
  | Sent uid => finish_submit p uid
  | Shutdown => Some (pool_shutdown p)
  | RunOnce => run_once p
  | Load uid moved => load_batch_to_runtime p uid moved
  | SendOutputs uid outs => Some (send_outputs_from_runtime p uid outs)
  | SendException uid e => Some (send_exception_from_runtime p uid e)
  end.

Fixpoint run_pool (p : Pool) (tr : list pool_action) : option Pool :=
  match tr with
  | [] => Some p
  | a :: tr' => match pool_step p a with Some p' => run_pool p' tr' | None => None end
  end.

(** The tasks submitted on the way, and those among them that are not too large. *)
Definition submissions (tr : list pool_action) : list Task :=
  somes ((fun a => match a with Submit t => Some t | _ => None end) <$> tr).

(** The tasks that the runtime took and could not move to its device. *)
Definition lost (tr : list pool_action) : list nat :=
  somes ((fun a => match a with Load uid false => Some uid | _ => None end) <$> tr).

(** ** Conservation of tasks *)

Definition waiting (p : Pool) : list nat := (task_uid <$> somes (submitted_tasks p)) ++ (task_uid <$> ordered_tasks p).

Definition all_uids (p : Pool) (gone : list nat) : list nat := waiting p ++ dkeys (dispatched_tasks p) ++ dkeys (futures p) ++ gone.

(** Everything submitted is in one place; the pipe counts the tasks that wait, but for those whose message is yet to be
    written, and those lost. *)
Record conserved (p : Pool) (l : list Task) (gone : list nat) : Prop := {
  cv_perm : all_uids p gone ≡ₚ (task_uid <$> l);
  cv_nodup : NoDup (task_uid <$> l);
  cv_pipe : batch_pipe p + zlen (sending p) = zlen (waiting p) + zlen gone;
  cv_sending : NoDup (task_uid <$> sending p);
  cv_sent : task_uid <$> sending p ⊆ task_uid <$> l;
}.

Lemma find_minimal_elem l uid t : find_minimal l uid = Some t -> t ∈ l /\ task_uid t = uid /\ forall u, u ∈ l -> task_lt u t = false.
Proof.
  unfold find_minimal. destruct (filter _ l) as [|t' k] eqn:E; [done|].
  destruct (forallb _ l) eqn:Ef; [|done]. intros [= ->].
  assert (t ∈ filter (fun t => task_uid t = uid) l) as [? ?]%list_elem_of_filter by (rewrite E; left).
  split; [done|]. split; [done|]. intros u Hu. rewrite forallb_forall in Ef.
  apply list_elem_of_In in Hu. apply Ef in Hu. by apply negb_true_iff in Hu.
Qed.

Lemma filter_uid_perm (l : list Task) uid :
  NoDup (task_uid <$> l) -> uid ∈ task_uid <$> l ->
  task_uid <$> l ≡ₚ uid :: (task_uid <$> filter (fun u => task_uid u <> uid) l).
Proof.
  induction l as [|t l IH]; intros Hnd Hin; [by inversion Hin|].
  rewrite fmap_cons in Hnd, Hin |- *. apply NoDup_cons in Hnd as [Hnotin Hnd]. rewrite filter_cons. case_decide as Hd.
  - rewrite fmap_cons, IH; [apply perm_swap|done|]. apply elem_of_cons in Hin as [->|Hin]; [done|done].
  - assert (Hd' : task_uid t = uid) by (by destruct (decide (task_uid t = uid))). clear Hd. rewrite Hd' in *. constructor. f_equiv.
    rewrite filter_all; [done|]. intros u Hu Heq. apply Hnotin.
    apply list_elem_of_fmap. by exists u.
Qed.

Lemma dkeys_dset_fresh {V} (d : list (nat * V)) k v : k ∉ dkeys d -> dkeys (dset d k v) ≡ₚ k :: dkeys d.
Proof. intros H. rewrite dkeys_dset_absent by done. by rewrite Permutation_app_comm. Qed.

Lemma dkeys_dpop_perm {V} (d : list (nat * V)) k : NoDup (dkeys d) -> k ∈ dkeys d -> dkeys d ≡ₚ k :: dkeys (dpop d k).
Proof.
  unfold dkeys, dpop. induction d as [|[k' v] d IH]; intros Hnd Hin; [by inversion Hin|].
  simpl in Hnd, Hin. apply NoDup_cons in Hnd as [Hnotin Hnd]. simpl. rewrite filter_cons. simpl. case_decide as Hd.
  - simpl. rewrite IH at 1; [apply perm_swap|done|]. apply elem_of_cons in Hin as [->|Hin]; [done|done].
  - assert (k' = k) as -> by (by destruct (decide (k' = k))). clear Hd. constructor. f_equiv. rewrite filter_all; [done|].
    intros [k' v'] Hu Heq. simpl in Heq. subst. apply Hnotin. apply list_elem_of_fmap. by exists (k, v').
Qed.

Lemma somes_app_one {A} (q : list (option A)) o : somes (q ++ [o]) = somes q ++ match o with Some t => [t] | None => [] end.
Proof. induction q as [|[u|] q IH]; simpl; rewrite ?IH; by destruct o. Qed.

Lemma submit_conserved p t l gone :
  conserved p l gone -> task_uid t ∉ task_uid <$> l -> conserved (submit_task p t) (l ++ [t]) gone.
Proof.
  intros [Hperm Hnd Hpipe Hs Hsl] Hfresh.
  assert (Hfr : task_uid t ∉ all_uids p gone) by (by rewrite Hperm).
  assert (Hnd' : NoDup (task_uid <$> l ++ [t])).
  { rewrite fmap_app, Permutation_app_comm. by constructor. }
  unfold submit_task. case_if; split; try done; rewrite ?fmap_app.
  - rewrite <- Hperm. unfold all_uids, waiting, set_future in *. simpl.
    rewrite dkeys_dset_fresh by set_solver. solve_Permutation.
  - simpl. etrans; [exact Hsl|]. by apply list_subseteq_app_l.
  - rewrite <- Hperm. unfold all_uids, waiting. simpl. rewrite somes_app_one, fmap_app. simpl. solve_Permutation.
  - simpl. unfold waiting in *. simpl. rewrite somes_app_one, !fmap_app, !zlen_app in *. simpl. unfold zlen in *. simpl. lia.
  - simpl. rewrite fmap_app, Permutation_app_comm. constructor; [|done]. intros Hin. by apply Hfresh, Hsl.
  - simpl. rewrite fmap_app. by apply list_subseteq_app_iff_l; split; [etrans; [exact Hsl|]; apply list_subseteq_app_l|apply list_subseteq_app_r].
Qed.

Lemma finish_submit_conserved p uid p' l gone : conserved p l gone -> finish_submit p uid = Some p' -> conserved p' l gone.
Proof.
  intros [Hperm Hnd Hpipe Hs Hsl] H. unfold finish_submit in H. destruct (find _ (sending p)) as [t|] eqn:Ef; [|done].
  cbn in H. apply find_some in Ef as [Hin%list_elem_of_In Huid%bool_decide_eq_true].
  assert (Huids : uid ∈ task_uid <$> sending p) by (apply list_elem_of_fmap; by exists t).
  pose proof (filter_uid_perm (sending p) uid Hs Huids) as Hf. rewrite Hf in Hs. apply NoDup_cons in Hs as [_ Hs].
  assert (Hp : forall k, conserved (mkPool (max_batch_size p) (submitted_tasks p) (ordered_tasks p) (dispatched_tasks p)
    (batch_pipe p + 1) k (thread_alive p) (futures p) (filter (fun u => task_uid u <> uid) (sending p))) l gone).
  { intros k. split; try done; cbn.
    - unfold waiting in *. cbn in *. apply Permutation_length in Hf. cbn in Hf. rewrite !length_fmap in Hf. unfold zlen in *. lia.
    - intros x Hx. apply Hsl. rewrite Hf. by right. }
  case_if; injection H as <-; apply Hp.
Qed.

Lemma run_once_conserved p p' l gone : conserved p l gone -> run_once p = Some p' -> conserved p' l gone.
Proof.
  intros [Hperm Hnd Hpipe Hs Hsl] H. unfold run_once in H. destruct (thread_alive p); [|done].
  destruct (submitted_tasks p) as [|[t|] rest] eqn:E; [done| |]; injection H as <-; split; simpl; try done;
    unfold all_uids, waiting in *; simpl; rewrite E in Hperm, Hpipe; cbn [somes] in Hperm, Hpipe; try done.
  - rewrite <- Hperm, fmap_app, !fmap_cons. solve_Permutation.
  - rewrite Hpipe, fmap_app, !fmap_cons. unfold zlen. cbn [app length]. rewrite !length_app. cbn [length fmap list_fmap]. lia.
Qed.

Lemma load_conserved p uid moved p' l gone :
  conserved p l gone -> load_batch_to_runtime p uid moved = Some p' -> conserved p' l (gone ++ lost [Load uid moved]).
Proof.
  intros [Hperm Hnd Hpipe Hs Hsl] H. unfold load_batch_to_runtime in H.
  destruct (find_minimal (ordered_tasks p) uid) as [t|] eqn:Ef; simpl in H; [|done].
  apply find_minimal_elem in Ef as (Hin & Huid & _).
  assert (Hall : NoDup (all_uids p gone)) by (by rewrite Hperm).
  assert (Hord : uid ∈ task_uid <$> ordered_tasks p) by (apply list_elem_of_fmap; by exists t).
  assert (Hf : task_uid <$> ordered_tasks p ≡ₚ uid :: (task_uid <$> filter (fun u => task_uid u <> uid) (ordered_tasks p))).
  { apply filter_uid_perm; [|done]. unfold all_uids, waiting in Hall.
    apply NoDup_app in Hall as (Hall & _ & _). by apply NoDup_app in Hall as (_ & _ & Hall). }
  destruct moved; cbn [negb lost somes fmap list_fmap] in *.
  - case_if; [done|]. rewrite app_nil_r.
    assert (Hd : uid ∉ dkeys (dispatched_tasks p)).
    { intros Hd. unfold all_uids, waiting in Hall. apply NoDup_app in Hall as (_ & Hall & _). apply (Hall uid); set_solver. }
    assert (Hp : forall k, conserved (mkPool (max_batch_size p) (submitted_tasks p)
      (filter (fun u => task_uid u <> uid) (ordered_tasks p)) (dset (dispatched_tasks p) uid t) (batch_pipe p - 1) k
      (thread_alive p) (futures p) (sending p)) l gone).
    { intros k. split; [|done| |done|done].
      - rewrite <- Hperm. unfold all_uids, waiting. simpl. rewrite Hf, dkeys_dset_fresh by done. solve_Permutation.
      - simpl. unfold waiting in *. simpl in *. unfold zlen in *. rewrite Hf, !length_app in *. simpl in *. lia. }
    destruct (py_min _ _); injection H as <-; apply Hp.
  - injection H as <-. split; [|done| |done|done].
    + rewrite <- Hperm. unfold all_uids, waiting. simpl. rewrite Hf. solve_Permutation.
    + simpl. unfold waiting in *. simpl in *. unfold zlen in *. rewrite Hf, !length_app in *. simpl in *. lia.
Qed.

Lemma finish_conserved p uid o l gone : conserved p l gone -> conserved (finish p uid o) l gone.
Proof.
  intros [Hperm Hnd Hpipe Hs Hsl]. unfold finish. destruct (dget (dispatched_tasks p) uid) as [t|] eqn:E; [|done].
  assert (Hall : NoDup (all_uids p gone)) by (by rewrite Hperm).
  assert (Hin : uid ∈ dkeys (dispatched_tasks p)) by (apply dget_is_Some_keys; by rewrite E).
  unfold all_uids in Hall. apply NoDup_app in Hall as (_ & _ & Hall). apply NoDup_app in Hall as (Hd & Hf & _).
  split; [|done..]. rewrite <- Hperm. unfold all_uids, waiting, set_future. simpl.
  rewrite dkeys_dset_fresh by (intros Hk; apply (Hf uid Hin), elem_of_app; by left).
  rewrite (dkeys_dpop_perm (dispatched_tasks p) uid) by done. solve_Permutation.
Qed.

Lemma pool_step_conserved p a p' l gone :
  conserved p l gone -> NoDup (task_uid <$> l ++ submissions [a]) -> pool_step p a = Some p' ->
  conserved p' (l ++ submissions [a]) (gone ++ lost [a]).
Proof.
  intros Hc Hnd H. destruct a as [t|uid| | |uid moved|uid outs|uid e]; cbn [pool_step] in H;
    try change (submissions [_]) with (@nil Task) in *; try change (lost [Submit _]) with (@nil nat);
    try change (lost [Sent _]) with (@nil nat); try change (lost [Shutdown]) with (@nil nat);
    try change (lost [RunOnce]) with (@nil nat); try change (lost [SendOutputs _ _]) with (@nil nat);
    try change (lost [SendException _ _]) with (@nil nat); rewrite ?app_nil_r in *.
  - injection H as <-. apply submit_conserved; [done|]. rewrite fmap_app in Hnd.
    apply NoDup_app in Hnd as (_ & Hnd & _). intros Hin. apply (Hnd _ Hin). by left.
  - by eapply finish_submit_conserved.
  - injection H as <-. destruct Hc as [Hperm Hn Hpipe Hs Hsl].
    split; unfold all_uids, waiting in *; simpl; rewrite ?somes_app_one, ?app_nil_r; done.
  - by eapply run_once_conserved.
  - by eapply load_conserved.
  - injection H as <-. by apply finish_conserved.
  - injection H as <-. by apply finish_conserved.
Qed.

Lemma submissions_cons a tr : submissions (a :: tr) = submissions [a] ++ submissions tr.
Proof. by destruct a. Qed.

Lemma lost_cons a tr : lost (a :: tr) = lost [a] ++ lost tr.
Proof. by destruct a as [| | | |? []| |]. Qed.

Lemma run_conserved p tr p' l gone :
  conserved p l gone -> NoDup (task_uid <$> l ++ submissions tr) -> run_pool p tr = Some p' ->
  conserved p' (l ++ submissions tr) (gone ++ lost tr).
Proof.
  revert p l gone. induction tr as [|a tr IH]; intros p l gone Hc Hnd H; simpl in H.
  - injection H as <-. by rewrite !app_nil_r.
  - destruct (pool_step p a) as [p1|] eqn:E; [|done]. rewrite submissions_cons, lost_cons, !app_assoc in *.
    apply (IH p1); [|done|done]. apply (pool_step_conserved p); [done| |done].
    rewrite fmap_app in Hnd. by apply NoDup_app in Hnd as (Hnd & _ & _).
Qed.

Lemma new_pool_conserved n : conserved (new_pool n) [] [].
Proof. split; [done|constructor|done|constructor|done]. Qed.

(** A future that is done stays as it is. *)
Lemma pool_step_futures p a p' l gone uid o :
  conserved p l gone -> NoDup (task_uid <$> l ++ submissions [a]) -> pool_step p a = Some p' ->
  dget (futures p) uid = Some o -> dget (futures p') uid = Some o.
Proof.
  intros Hc Hnd H Ho.
  assert (Hin : uid ∈ dkeys (futures p)) by (apply dget_is_Some_keys; by rewrite Ho).
  assert (Hset : forall uid' o', uid' <> uid -> dget (dset (futures p) uid' o') uid = Some o) by (intros; by rewrite dget_dset_ne).
  assert (Hfinish : forall uid' o', dget (futures (finish p uid' o')) uid = Some o).
  { intros uid' o'. unfold finish. destruct (dget (dispatched_tasks p) uid') as [t|] eqn:E; [|done]. apply Hset.
    intros ->. destruct Hc as [Hperm Hn _ _ _]. rewrite <- Hperm in Hn. unfold all_uids in Hn.
    apply NoDup_app in Hn as (_ & _ & Hn). apply NoDup_app in Hn as (_ & Hn & _).
    apply (Hn uid); [|by apply elem_of_app; left]. apply dget_is_Some_keys. by rewrite E. }
  destruct a as [t|uid'| | |uid' moved|uid' outs|uid' e]; simpl in H.
  - injection H as <-. unfold submit_task. case_if; [|done]. simpl. apply Hset. intros <-.
    destruct Hc as [Hperm _ _ _ _]. simpl in Hnd. rewrite fmap_app in Hnd. apply NoDup_app in Hnd as (_ & Hnd & _).
    apply (Hnd (task_uid t)); [|by left]. rewrite <- Hperm. unfold all_uids. set_solver.
  - unfold finish_submit in H. destruct (find _ _); [|done]. cbn in H. case_if; by injection H as <-.
  - by injection H as <-.
  - unfold run_once in H. destruct (thread_alive p); [|done]. destruct (submitted_tasks p) as [|[]]; [done| |]; by injection H as <-.
  - unfold load_batch_to_runtime in H. destruct (find_minimal _ _); simpl in H; [|done].
    destruct moved; [|by injection H as <-]. cbn in H. case_if; [done|]. destruct (py_min _ _); by injection H as <-.
  - injection H as <-. apply Hfinish.
  - injection H as <-. apply Hfinish.
Qed.

Lemma run_futures p tr p' l gone uid o :
  conserved p l gone -> NoDup (task_uid <$> l ++ submissions tr) -> run_pool p tr = Some p' ->
  dget (futures p) uid = Some o -> dget (futures p') uid = Some o.
Proof.
  revert p l gone. induction tr as [|a tr IH]; intros p l gone Hc Hnd H Ho; simpl in H; [by injection H as <-|].
  destruct (pool_step p a) as [p1|] eqn:E; [|done]. rewrite submissions_cons, app_assoc in Hnd.
  assert (Hnd1 : NoDup (task_uid <$> l ++ submissions [a])).
  { rewrite fmap_app in Hnd. by apply NoDup_app in Hnd as (Hnd & _ & _). }
  apply (IH p1 (l ++ submissions [a]) (gone ++ lost [a])); [by apply (pool_step_conserved p)|done|done|].
  by apply (pool_step_futures p a p1 l gone).
Qed.

(** C38: No task is lost or answered twice, but for the one whose inputs the runtime fails to move to its device: at any
    time every submitted task waits, is with the runtime, has its result or was lost by such a failure, in exactly one of
    these places; the pipe counts the tasks that wait once their submitters have written to it - it then is empty exactly
    when no task waits, if none was lost, whose messages stay; and a result, once there, never changes. *)
Theorem pool_tasks_conserved n tr1 tr2 p1 p2 :
  NoDup (task_uid <$> submissions (tr1 ++ tr2)) ->
  run_pool (new_pool n) tr1 = Some p1 -> run_pool p1 tr2 = Some p2 ->
  (waiting p1 ++ dkeys (dispatched_tasks p1) ++ dkeys (futures p1) ++ lost tr1 ≡ₚ task_uid <$> submissions tr1) /\
  NoDup (waiting p1 ++ dkeys (dispatched_tasks p1) ++ dkeys (futures p1) ++ lost tr1) /\
  batch_pipe p1 + zlen (sending p1) = zlen (waiting p1) + zlen (lost tr1) /\
  (sending p1 = [] -> lost tr1 = [] -> (empty p1 = true <-> waiting p1 = [])) /\
  (forall uid o, dget (futures p1) uid = Some o -> dget (futures p2) uid = Some o).
Proof.
  intros Hnd H1 H2.
  assert (Happ : submissions (tr1 ++ tr2) = submissions tr1 ++ submissions tr2).
  { clear. induction tr1 as [|a tr1 IH]; [done|]. simpl. rewrite (submissions_cons a (tr1 ++ tr2)), IH.
    by rewrite (submissions_cons a tr1), app_assoc. }
  rewrite Happ in Hnd.
  assert (Hc : conserved p1 (submissions tr1) (lost tr1)).
  { apply (run_conserved (new_pool n) tr1 p1 [] []); [apply new_pool_conserved| |done]. simpl.
    rewrite fmap_app in Hnd. by apply NoDup_app in Hnd as (Hnd & _ & _). }
  pose proof Hc as [Hperm Hn Hpipe _ _]. split; [exact Hperm|]. split; [|split; [exact Hpipe|split]].
  - fold (all_uids p1 (lost tr1)). by rewrite Hperm.
  - intros Hs Hl. unfold empty. rewrite Hs, Hl in Hpipe. change (zlen []) with 0 in Hpipe. rewrite !Z.add_0_r in Hpipe.
    rewrite Hpipe. apply zlen_zero.
  - intros uid o Ho. by apply (run_futures p1 tr2 p2 (submissions tr1) (lost tr1)).
Qed.

(** The runtime gets inference tasks before forward and backward tasks, and tasks of the same kind in the
    order of their submission times. *)
Theorem load_order p uid p' :
  load_batch_to_runtime p uid true = Some p' ->
  exists t, t ∈ ordered_tasks p /\ dget (dispatched_tasks p') uid = Some t /\
    forall u ty ty', u ∈ ordered_tasks p -> priority t = prioritize ty -> priority u = prioritize ty' ->
      (ty' = TInference -> ty = TInference) /\
      (ty = ty' -> f_lt (time_submitted u) (time_submitted t) = false).
Proof.
  intros H. unfold load_batch_to_runtime in H. destruct (find_minimal (ordered_tasks p) uid) as [t|] eqn:Ef; simpl in H; [|done].
  case_if; [done|]. apply find_minimal_elem in Ef as (Hin & Huid & Hmin). exists t. split; [done|]. split.
  { destruct (py_min _ _); injection H as <-; simpl; apply dget_dset_eq. }
  intros u ty ty' Hu Ht Hu'. apply Hmin in Hu as Hlt. unfold task_lt, task_key in Hlt. simpl in Hlt.
  rewrite Ht, Hu' in Hlt. split.
  - intros ->. destruct ty; [done|..]; by vm_compute in Hlt.
  - intros ->. assert (f_eq (prioritize ty') (prioritize ty') = true) as E' by (by destruct ty'; vm_compute).
    rewrite E' in Hlt. destruct (f_eq (time_submitted u) (time_submitted t)) eqn:E2; [|done].
    rewrite f_eq_key in E2. rewrite f_lt_key. destruct (f_key (time_submitted u)) as [[[a b] c]|], (f_key (time_submitted t)) as [k|]; try done.
    apply bool_decide_eq_true in E2 as <-. simpl. lia.
Qed.

(** ** Examples *)

Definition fwd_task (uid : nat) (t : Z) : Task := mkTask (prioritize TForward) (f_of_Z t) uid [ATensor [2; 3; 8]].
Definition inf_task (uid : nat) (t : Z) : Task := mkTask (prioritize TInference) (f_of_Z t) uid [ATensor [1; 1; 8]].

(** An inference task arrives while the pool's thread is behind: loading another task sets the priority of the
    pool from the tasks the thread has moved. *)
Definition stale_trace : list pool_action :=
  [Submit (fwd_task 0 1); Sent 0; RunOnce; Submit (fwd_task 1 2); Sent 1; RunOnce; Submit (inf_task 2 3); Sent 2; Load 0 true; RunOnce].

(** The priority of a pool can differ from that of its most important task: the pool may look less urgent
    than an inference task that it holds. *)
Theorem pool_priority_stale :
  exists tr p t, run_pool (new_pool 100) tr = Some p /\ t ∈ ordered_tasks p /\
    priority t = prioritize TInference /\ lex_lt (task_key t) (pool_priority p) = true.
Proof.
  exists stale_trace. eexists _, (inf_task 2 3). split; [vm_compute; reflexivity|].
  split; [vm_compute; right; left|]. split; vm_compute; reflexivity.
Qed.

(** A task whose inputs could not be moved is nowhere, its future is never done, and the pipe reports a task. *)
Example failed_move_loses :
  match run_pool (new_pool 6) [Submit (fwd_task 0 1); Sent 0; RunOnce; Load 0 false; SendException 0 RuntimeError] with
  | Some p => all_uids p [] = [] /\ empty p = false
  | None => False
  end.
Proof. vm_compute. done. Qed.

(** A task waits for its message, another is loaded and answered, a third is lost. *)
Definition pool_trace : list pool_action :=
  [Submit (fwd_task 0 1); Submit (inf_task 1 2); Sent 1; RunOnce; RunOnce; Load 1 true; Submit (inf_task 2 3); RunOnce; Load 2 false;
   SendOutputs 1 []].

Lemma pool_tasks_conserved_witness :
  exists p1 p2, run_pool (new_pool 6) pool_trace = Some p1 /\ run_pool p1 [Sent 0; Sent 2] = Some p2 /\
    (waiting p1 ++ dkeys (dispatched_tasks p1) ++ dkeys (futures p1) ++ [2%nat] ≡ₚ [0%nat; 1%nat; 2%nat]) /\
    batch_pipe p1 + zlen (sending p1) = zlen (waiting p1) + zlen (lost pool_trace) /\ dget (futures p2) 1%nat = Some (Outputs []).
Proof.
  pose (p1 := default (new_pool 6) (run_pool (new_pool 6) pool_trace)).
  assert (E1 : run_pool (new_pool 6) pool_trace = Some p1) by (vm_compute; reflexivity).
  pose (p2 := default (new_pool 6) (run_pool p1 [Sent 0; Sent 2])).
  assert (E2 : run_pool p1 [Sent 0; Sent 2] = Some p2) by (vm_compute; reflexivity).
  assert (Hnd : NoDup (task_uid <$> submissions (pool_trace ++ [Sent 0; Sent 2]))) by (apply (bool_decide_unpack _); by vm_compute).
  destruct (pool_tasks_conserved 6 pool_trace [Sent 0; Sent 2] p1 p2 Hnd E1 E2) as (H1 & _ & H2 & _ & H3).
  exists p1, p2. split; [exact E1|]. split; [exact E2|]. split; [exact H1|]. split; [exact H2|]. apply H3. vm_compute. reflexivity.
Defined.

Lemma load_order_witness :
  exists p', load_batch_to_runtime (mkPool 5 [] [fwd_task 0 1; inf_task 1 2] [] 2 [f_inf; f_inf] true [] []) 1 true = Some p' /\
  exists t, t ∈ [fwd_task 0 1; inf_task 1 2] /\ dget (dispatched_tasks p') 1%nat = Some t /\
    forall u ty ty', u ∈ [fwd_task 0 1; inf_task 1 2] -> priority t = prioritize ty -> priority u = prioritize ty' ->
      (ty' = TInference -> ty = TInference) /\
      (ty = ty' -> f_lt (time_submitted u) (time_submitted t) = false).
Proof.
  eexists. split; [vm_compute; reflexivity|].
  apply (load_order (mkPool 5 [] [fwd_task 0 1; inf_task 1 2] [] 2 [f_inf; f_inf] true [] []) 1). vm_compute. reflexivity.
Defined.
