(* ===== verification/Packaging.v ===== *)
(** * Packaging: [utils/packaging.py]

    Arguments of a remote call are sent as a flat list of tensors and a structure in which every tensor is
    replaced by a marker with its index.  Tensors are compared by identity. *)

From S2P Require Import Prelude PyString PyFloat PyDict DataStructures.

(** ** Nested structures

    [nested_flatten] and [nested_pack] of hivemind: the leaves of a structure of lists, tuples and dictionaries,
    and a structure of the same shape with other leaves ([None]: too few leaves). *)
Class Nested := {
  nest : Type -> Type;
  nested_flatten : forall {A}, nest A -> list A;
  nested_pack : forall {A B}, list B -> nest A -> option (nest B);
  nested_pack_ok : forall {A B} (l : list B) (t : nest A), length l = length (nested_flatten t) ->
    exists u, nested_pack l t = Some u /\ nested_flatten u = l;
  nested_pack_self : forall {A} (t : nest A), nested_pack (nested_flatten t) t = Some t;
  nested_pack_shape : forall {A B C} (l : list B) (l' : list C) (t : nest A) (u : nest B),
    nested_pack l t = Some u -> nested_pack l' u = nested_pack l' t;
}.

(** Flat structures, as an example. *)
#[refine, global] Instance ListNested : Nested := {|
  nest := list;
  nested_flatten A t := t;
  nested_pack A B l t := if decide (length l = length t) then Some l else None;
|}.
Proof.
  - intros A B l t H. exists l. by rewrite decide_True.
  - intros A t. by rewrite decide_True.
  - intros A B C l l' t u. case_decide as Hl; [|done]. intros [= <-]. by rewrite Hl.
Defined.

(** ** Leaves *)

Section packaging.
Context {NS : Nested} {tensor : Type} {tensor_eq : EqDecision tensor}.

Inductive leaf :=
  | LTensor (t : tensor)
  | LBytes (b : string)
  | LOther (v : pyval).

Definition mark : string := "__T".

Definition _mark_masked_tensor (index : Z) : leaf := LBytes (mark +:+ str_of_Z index).

Definition _is_masked_tensor (item : leaf) : bool :=
  match item with LBytes b => String.prefix mark b | _ => false end.

(** [int(item[3:])] *)
Definition _get_tensor_index (item : leaf) : result Z :=
  match item with
  | LBytes (String _ (String _ (String _ digits))) => get_or ValueError (py_int digits)
  | LBytes _ => Err ValueError
  | _ => Err TypeError
  end.

(** ** pack_args_kwargs *)

(** The values so far, the flat tensors and the index of each. *)
Definition pack_state : Type := list leaf * list tensor * list (tensor * Z).

Definition pack_value (st : pack_state) (value : leaf) : pack_state :=
  let '(masked, flat_tensors, tensor_to_index) := st in
  match value with
  | LTensor t =>
      (* setdefault *)
      let tensor_index := or_default (dget tensor_to_index t) (zlen flat_tensors) in
      let tensor_to_index := dset tensor_to_index t tensor_index in
      (masked ++ [_mark_masked_tensor tensor_index],
       if tensor_index =? zlen flat_tensors then flat_tensors ++ [t] else flat_tensors, tensor_to_index)
  | _ => (masked ++ [value], flat_tensors, tensor_to_index)
  end.

Definition pack_args_kwargs (args : nest leaf) : option (list tensor * nest leaf) :=
  let '(masked, flat_tensors, _) := fold_left pack_value (nested_flatten args) ([], [], []) in
  packed ← nested_pack masked args;
  Some (flat_tensors, packed).

(** ** unpack_args_kwargs *)

Definition unpack_value (flat_tensors : list tensor) (value : leaf) : result leaf :=
  if _is_masked_tensor value then
    i ← _get_tensor_index value;
    t ← znth flat_tensors i;
    Ok (LTensor t)
  else Ok value.

Definition unpack_args_kwargs (flat_tensors : list tensor) (args_structure : nest leaf) : result (nest leaf) :=
  values ← mapR (unpack_value flat_tensors) (nested_flatten args_structure);
  get_or RuntimeError (nested_pack values args_structure).

(** ** The round trip *)

(** Bytes among the arguments that are not mistaken for markers. *)
Definition unmarked (v : leaf) : Prop := _is_masked_tensor v = false.

Lemma prefix_app (s t : string) : String.prefix s (s +:+ t) = true.
Proof. induction s as [|c s IH]; simpl; [by destruct t|]. by destruct (ascii_dec c c). Qed.

Lemma get_marked_index i : _get_tensor_index (_mark_masked_tensor i) = Ok i.
Proof. change (get_or ValueError (py_int (str_of_Z i)) = Ok i). by rewrite py_int_str_of_Z. Qed.

(** The table maps each flat tensor to its position. *)
Definition indexed (flat : list tensor) (table : list (tensor * Z)) : Prop :=
  NoDup flat /\ forall t i, dget table t = Some i <-> 0 <= i /\ flat !! Z.to_nat i = Some t.

Lemma indexed_in flat table t : indexed flat table -> t ∈ flat -> exists i, dget table t = Some i.
Proof.
  intros [_ H] [k Hk]%list_elem_of_lookup. exists (Z.of_nat k). apply H. rewrite Nat2Z.id. split; [lia|done].
Qed.

Lemma unpack_value_app flat more v x : unpack_value flat v = Ok x -> _is_masked_tensor v = true ->
  (forall i, _get_tensor_index v = Ok i -> 0 <= i) -> unpack_value (flat ++ more) v = Ok x.
Proof.
  intros H Hm Hi. unfold unpack_value in *. rewrite Hm in *.
  destruct (_get_tensor_index v) as [i|]; [|done]. specialize (Hi i eq_refl). unfold mbind, result_bind in *.
  destruct (znth flat i) as [t|] eqn:Et; [|done]. apply znth_Ok_nonneg in Et; [|done].
  rewrite (znth_Some (flat ++ more) i t); [done|done|]. by apply lookup_app_l_Some.
Qed.

(** What has been packed unpacks, also when more tensors follow. *)
Definition unpacks (flat : list tensor) (masked vs : list leaf) : Prop :=
  forall more, Forall2 (fun m v => unpack_value (flat ++ more) m = Ok v) masked vs.

Lemma unpacks_app flat more masked vs : unpacks flat masked vs -> unpacks (flat ++ more) masked vs.
Proof. intros H rest. rewrite <- app_assoc. apply H. Qed.

Lemma unpacks_snoc flat masked vs m v :
  unpacks flat masked vs -> (forall more, unpack_value (flat ++ more) m = Ok v) -> unpacks flat (masked ++ [m]) (vs ++ [v]).
Proof. intros H Hm more. apply Forall2_app; [apply H|]. constructor; [apply Hm|constructor]. Qed.

Lemma unpack_marked flat i t more :
  0 <= i -> flat !! Z.to_nat i = Some t -> unpack_value (flat ++ more) (_mark_masked_tensor i) = Ok (LTensor t).
Proof.
  intros Hi Ht. unfold unpack_value. assert (_is_masked_tensor (_mark_masked_tensor i) = true) as -> by apply prefix_app.
  rewrite get_marked_index. unfold mbind, result_bind. rewrite (znth_Some _ i t); [done|done|]. by apply lookup_app_l_Some.
Qed.

Lemma pack_value_ok masked flat table vs v :
  indexed flat table -> unpacks flat masked vs -> unmarked v ->
  let '(masked', flat', table') := pack_value (masked, flat, table) v in
  indexed flat' table' /\ unpacks flat' masked' (vs ++ [v]).
Proof.
  intros Hix Hup Hv. destruct v as [t|b|o]; cbn [pack_value].
  - destruct (dget table t) as [i|] eqn:Et; cbn [or_default].
    + pose proof (proj1 (proj2 Hix t i) Et) as [Hi Hflat].
      assert (Hlt : (Z.to_nat i < length flat)%nat) by (by eapply lookup_lt_Some).
      assert ((i =? zlen flat) = false) as -> by (apply Z.eqb_neq; unfold zlen; lia). split.
      * destruct Hix as [Hnd H]. split; [done|]. intros t' i'. rewrite dget_dset. case_decide as Ht; [|apply H].
        subst t'. rewrite <- H. rewrite Et. done.
      * apply unpacks_snoc; [done|]. intros more. by apply unpack_marked.
    + rewrite Z.eqb_refl. assert (Hnot : t ∉ flat).
      { intros Hin. destruct (indexed_in _ _ _ Hix Hin) as [i Hi]. congruence. }
      destruct Hix as [Hnd H]. split.
      * split; [apply NoDup_app; split; [done|split; [|apply NoDup_singleton]]; intros x Hx ->%list_elem_of_singleton; done|].
        intros t' i'. rewrite dget_dset. case_decide as Ht.
        -- subst t'. split.
           ++ intros [= <-]. split; [apply zlen_nonneg|]. unfold zlen. rewrite Nat2Z.id. by apply list_lookup_middle.
           ++ intros [Hi Hl]. f_equal. apply lookup_app_Some in Hl as [Hl|[Hge Hl]].
              { destruct Hnot. by eapply list_elem_of_lookup_2. }
              apply list_lookup_singleton_Some in Hl as [Hl _]. unfold zlen. lia.
        -- rewrite H. split; intros [Hi Hl]; (split; [done|]).
           ++ by apply lookup_app_l_Some.
           ++ apply lookup_app_Some in Hl as [Hl|[_ Hl]]; [done|].
              apply list_lookup_singleton_Some in Hl as [_ Hl]. congruence.
      * apply unpacks_snoc; [by apply unpacks_app|]. intros more. apply unpack_marked; [apply zlen_nonneg|].
        unfold zlen. rewrite Nat2Z.id. by apply list_lookup_middle.
  - split; [done|]. apply unpacks_snoc; [done|]. intros more. unfold unpack_value. by rewrite Hv.
  - split; [done|]. by apply unpacks_snoc.
Qed.

Lemma pack_values_ok l masked flat table vs :
  indexed flat table -> unpacks flat masked vs -> Forall unmarked l ->
  let '(masked', flat', table') := fold_left pack_value l (masked, flat, table) in
  indexed flat' table' /\ unpacks flat' masked' (vs ++ l).
Proof.
  revert masked flat table vs. induction l as [|v l IH]; intros masked flat table vs Hix Hup Hl.
  - simpl. by rewrite app_nil_r.
  - apply Forall_cons in Hl as [Hv Hl]. cbn [fold_left]. pose proof (pack_value_ok _ _ _ _ v Hix Hup Hv) as Hstep.
    destruct (pack_value (masked, flat, table) v) as [[masked1 flat1] table1]. destruct Hstep as [Hix1 Hup1].
    specialize (IH masked1 flat1 table1 (vs ++ [v]) Hix1 Hup1 Hl). by rewrite <- app_assoc in IH.
Qed.

(** Unpacking what was packed restores the arguments, each tensor being sent once, provided no bytes among
    the arguments look like a marker. *)
Theorem unpack_pack_args args :
  Forall unmarked (nested_flatten args) ->
  exists ts packed, pack_args_kwargs args = Some (ts, packed) /\ NoDup ts /\ unpack_args_kwargs ts packed = Ok args.
Proof.
  intros Hm. unfold pack_args_kwargs, unpack_args_kwargs.
  pose proof (pack_values_ok (nested_flatten args) [] [] [] []) as H.
  destruct (fold_left pack_value (nested_flatten args) ([], [], [])) as [[masked flat] table].
  destruct H as [[Hnd _] Hup]; [split; [constructor|]|intros more; constructor|done|].
  { intros t i. simpl. split; [done|]. intros [_ H]. done. }
  simpl in Hup. specialize (Hup []). rewrite app_nil_r in Hup. pose proof (Forall2_length _ _ _ Hup) as Hlen.
  destruct (nested_pack_ok masked args Hlen) as (packed & Hp & Hfl). exists flat, packed. simpl. rewrite Hp.
  split; [done|]. split; [done|]. rewrite Hfl.
  assert (mapR (unpack_value flat) masked = Ok (nested_flatten args)) as -> by (by apply mapR_Forall2).
  unfold mbind, result_bind. rewrite (nested_pack_shape masked _ args packed Hp), nested_pack_self. done.
Qed.
End packaging.

(** One tensor used twice is sent once; bytes that start like a marker are taken for one. *)
Definition example_args : @nest ListNested (leaf (tensor := nat)) :=
  [LTensor 5%nat; LOther PNone; LTensor 6%nat; LTensor 5%nat; LBytes "T"].
Definition marked_bytes : @nest ListNested (leaf (tensor := nat)) := [LBytes "__T0"; LTensor 5%nat].

Lemma unpack_pack_args_witness :
  exists ts packed, pack_args_kwargs example_args = Some (ts, packed) /\ NoDup ts /\
    unpack_args_kwargs ts packed = Ok example_args.
Proof. apply (unpack_pack_args example_args). repeat constructor. Defined.

Example unpack_marked_bytes :
  (p ← pack_args_kwargs marked_bytes; Some (unpack_args_kwargs p.1 p.2)) = Some (Ok [LTensor 5%nat; LTensor 5%nat]).
Proof. vm_compute. reflexivity. Qed.
