(* ===== verification/BlockFunctions.v ===== *)
(** * BlockFunctions: [server/block_functions.py]

    The server's side of forward, backward and inference over a chain of blocks, as the connection handlers
    run it: every block is a task of a pool, which refuses tasks that are too large and otherwise answers with
    what its function computes (see TaskPool). *)

From S2P Require Import Prelude PyString PyFloat PyDict DataStructures Utils MemoryCache Backend TaskPool.

(** ** Forward and backward passes of one block

    [TransformerBackend.forward] and [.backward] run the wrapped module with an adapter. *)
Class TrainableModule {CM : CausalModule} := {
  mod_train : Z -> string -> list col -> list col;
  mod_grad : Z -> string -> list col -> list col -> list col;
  mod_train_length : forall b a x, length (mod_train b a x) = length x;
  mod_grad_length : forall b a x g, length g = length x -> length (mod_grad b a x g) = length x;
}.

(** The quantization of the blocks ([utils/convert_block.py]). *)
Inductive QuantType := QNONE | INT8 | NF4.

#[global] Instance QuantType_eq_dec : EqDecision QuantType.
Proof. solve_decision. Defined.

Definition MAX_SHORT_INFERENCE_TOKENS : Z := 128.
Definition MAX_NF4_SHORT_INFERENCE_TOKENS : Z := 1.

(** [await pool.submit_task(...)]: the first argument is a tensor of [batch_size] x [len x] x [hid]. *)
Definition submit {A} (max_batch_size batch_size len hid : Z) (run : result A) : result A :=
  if max_batch_size <? get_task_size [ATensor [batch_size; len; hid]] then Err ValueError else run.

Section block_functions.
Context {TD : TorchDtypes} {CM : CausalModule} {TM : TrainableModule}.

(** [is_dummy(prompts)]: no numbers in it. *)
Definition is_dummy_prompts (ps : list (list col)) : bool :=
  forallb (fun p => match p with [] => true | _ => false end) ps.

(** One prompt per block, [DUMMY] ones when there are none. *)
Definition split_prompts (n : nat) (prompts : option (list (list col))) : list (list col) :=
  match prompts with
  | None => replicate n []
  | Some ps => if is_dummy_prompts ps then replicate n [] else ps
  end.

(** [if not is_dummy(prompt): hidden_states[:, : prompt.shape[1]] += prompt] *)
Definition add_nondummy (x prompt : list col) : result (list col) :=
  match prompt with [] => Ok x | _ => add_prompt x prompt end.

(** ** run_rpc_forward *)

Definition forward_block (adapter : string) (batch_size hid : Z) (x : list col) (bp : TransformerBackend * list col)
    : result (list col) :=
  x ← add_nondummy x bp.2;
  submit (tb_max_batch_size bp.1) batch_size (zlen x) hid (Ok (mod_train (tb_index bp.1) adapter x)).

Definition run_rpc_forward (bs : list TransformerBackend) (adapter : string) (batch_size hid : Z) (x : list col)
    (prompts : option (list (list col))) : result (list col) :=
  _ ← raise_if (zlen bs =? 0) IndexError;
  foldR (forward_block adapter batch_size hid) x (zip bs (split_prompts (length bs) prompts)).

(** ** run_rpc_backward *)

(** The forward chain: the inputs of the blocks so far, and the current activations. *)
Definition collect_block (adapter : string) (batch_size hid : Z) (st : list (list col) * list col)
    (bp : TransformerBackend * list col) : result (list (list col) * list col) :=
  x ← add_nondummy st.2 bp.2;
  y ← submit (tb_max_batch_size bp.1) batch_size (zlen x) hid (Ok (mod_train (tb_index bp.1) adapter x));
  mret (st.1 ++ [x], y).

(** The backward chain: the gradient so far, and the gradients of prompts, last block first. *)
Definition backward_block (adapter : string) (batch_size hid : Z) (st : list col * list (list col))
    (ipb : list col * (list col * TransformerBackend)) : result (list col * list (list col)) :=
  let '(inp, (prompt, b)) := ipb in
  g ← submit (tb_max_batch_size b) batch_size (zlen inp) hid (Ok (mod_grad (tb_index b) adapter inp st.1));
  mret (g, match prompt with [] => st.2 | _ => st.2 ++ [zslice g 0 (zlen prompt)] end).

Definition run_rpc_backward (bs : list TransformerBackend) (adapter : string) (batch_size hid : Z) (x g : list col)
    (prompts : option (list (list col))) : result (list col * option (list (list col))) :=
  _ ← raise_if (zlen bs =? 0) IndexError;
  let ps := split_prompts (length bs) prompts in
  '(inter_inputs, x) ← foldR (collect_block adapter batch_size hid) ([], x) (zip (removelast bs) (removelast ps));
  last_prompt ← znth ps (-1);
  x ← add_nondummy x last_prompt;
  let inter_inputs := inter_inputs ++ [x] in
  _ ← assert_ ((zlen inter_inputs =? zlen ps) && (zlen ps =? zlen bs));
  '(g, grad_prompts_reversed) ←
    foldR (backward_block adapter batch_size hid) (g, []) (zip (rev inter_inputs) (zip (rev ps) (rev bs)));
  mret (g, match grad_prompts_reversed with [] => None | _ => Some (rev grad_prompts_reversed) end).

(** ** iterate_rpc_inference *)

Context {meta : Type}.
Abbreviation cache := (@MemoryCache (list slot)).

(** One request of the client, deserialized: hidden states, prompts (if any), hypotheses. *)
Record step_request := mkStepRequest {
  sr_batch : Z;
  sr_hid : Z;
  sr_hidden : list col;
  sr_prompts : option (list (list col));
  sr_hypo_dtype : dtype;
  sr_hypo_ids : list Z;
  sr_metadata : meta;
}.

(** What a handler knows of a session: the blocks it asked for, and the pool they share. *)
Record session_config := mkSessionConfig {
  sc_uids : list string;
  sc_backends : list TransformerBackend;
  sc_adapter : option string;
  sc_cache_handles : list (list Handle);
  sc_max_length : Z;
  sc_quant_type : QuantType;
  sc_pool_backends : list (string * TransformerBackend);    (* [_MergedInferenceStep.backends] *)
  sc_pool_max_batch_size : Z;
}.

Definition has_prompts (r : step_request) : bool :=
  match sr_prompts r with Some ps => negb (is_dummy_prompts ps) | None => false end.

(** The prompts of a request, [None] for a block without one. *)
Definition parse_prompts (n : nat) (r : step_request) : list (option (list col)) :=
  if has_prompts r then
    (fun p => match p with [] => None | _ => Some p end) <$> or_default (sr_prompts r) []
  else replicate n None.

Definition merge_max_tokens (q : QuantType) : Z :=
  if decide (q = NF4) then MAX_NF4_SHORT_INFERENCE_TOKENS else MAX_SHORT_INFERENCE_TOKENS.

Definition can_merge_pools (s : session_config) (r : step_request) : bool :=
  sr_batch r * zlen (sr_hidden r) <=? merge_max_tokens (sc_quant_type s).

(** [(InferenceMetadata(...) for uid, handles in zip(requested_uids, cache_handles))] *)
Definition inference_infos (s : session_config) (prefix_length : Z) : list InferenceMetadata :=
  (fun uh => mkInferenceInfo uh.1 prefix_length uh.2 (sc_adapter s)) <$> zip (sc_uids s) (sc_cache_handles s).

(** A task of the merged pool. *)
Definition submit_inference (garbage : nat -> list col) (s : session_config) (r : step_request) (st : cache * list col)
    (infos : list InferenceMetadata) (prompts : list (option (list col))) : result (cache * list col) :=
  submit (sc_pool_max_batch_size s) (sr_batch r) (zlen st.2) (sr_hid r)
    (merged_inference_step (sc_pool_backends s) garbage st.1 (sr_batch r) st.2 (sr_hypo_ids r) infos prompts).

Definition compute_blocks (garbage : nat -> list col) (s : session_config) (r : step_request) (prefix_length : Z)
    (prompts : list (option (list col))) (c : cache) : result (cache * list col) :=
  if can_merge_pools s r then submit_inference garbage s r (c, sr_hidden r) (inference_infos s prefix_length) prompts
  else
    foldR (fun st bip => submit_inference garbage s r st [bip.2.1] [bip.2.2]) (c, sr_hidden r)
      (zip (sc_backends s) (zip (inference_infos s prefix_length) prompts)).

(** One turn of the loop: the caches and the prefix length, and what is yielded. *)
Definition inference_iteration (garbage : nat -> list col) (s : session_config) (st : cache * Z) (r : step_request)
    : result (cache * Z * (list col * bool * meta)) :=
  let '(c, prefix_length) := st in
  _ ← raise_if (zlen (sc_backends s) =? 0) IndexError;
  _ ← assert_ (bool_decide (sr_hypo_dtype r = torch_int64));
  let prompts := parse_prompts (length (sc_backends s)) r in
  _ ← raise_if (negb (zlen (sc_backends s) =? zlen prompts)) ValueError;
  _ ← raise_if (sc_max_length s <? prefix_length + zlen (sr_hidden r)) ValueError;
  '(c, hidden_states) ←
    if 0 <? sr_batch r * zlen (sr_hidden r) * sr_hid r then compute_blocks garbage s r prefix_length prompts c
    else Ok (c, sr_hidden r);
  mret (c, prefix_length + zlen (sr_hidden r), (hidden_states, negb (has_prompts r), sr_metadata r)).

(** The generator: what it yields, and the exception that ends it (none: the requests ended). *)
Fixpoint inference_loop (garbage : nat -> list col) (s : session_config) (st : cache * Z) (rs : list step_request)
    : list (list col * bool * meta) * (cache * Z) * option exn :=
  match rs with
  | [] => ([], st, None)
  | r :: rs' =>
      match inference_iteration garbage s st r with
      | Err e => ([], st, Some e)
      | Ok (st', y) => let '(ys, st'', e) := inference_loop garbage s st' rs' in (y :: ys, st'', e)
      end
  end.

Definition iterate_rpc_inference (garbage : nat -> list col) (s : session_config) (c : cache) (rs : list step_request)
    : list (list col * bool * meta) * (cache * Z) * option exn :=
  if zlen (sc_cache_handles s) =? zlen (sc_backends s) then inference_loop garbage s (c, 0) rs
  else ([], (c, 0), Some AssertionError).
End block_functions.
Arguments step_request {CM} meta.

(** ** Forward and backward passes: reference definitions *)

Section passes.
Context {TD : TorchDtypes} {CM : CausalModule} {TM : TrainableModule}.
Context (adapter : string) (batch_size hid : Z).
Implicit Types (x g p : list col) (l : list (TransformerBackend * list col)).

(** The first columns shifted by the prompt. *)
Definition prompted x p : list col := zip_with add_col x p ++ drop (length p) x.

Fixpoint reference_forward l x : list col :=
  match l with
  | [] => x
  | (b, p) :: l' => reference_forward l' (mod_train (tb_index b) adapter (prompted x p))
  end.

(** Back-propagation, block by block: the gradient with respect to the input, and to the prompts that are not
    dummies, in the order of the blocks. *)
Fixpoint reference_backward l x g : list col * list (list col) :=
  match l with
  | [] => (g, [])
  | (b, p) :: l' =>
      let x' := prompted x p in
      let '(g', gps) := reference_backward l' (mod_train (tb_index b) adapter x') g in
      let gx := mod_grad (tb_index b) adapter x' g' in
      (gx, match p with [] => gps | _ => take (length p) gx :: gps end)
  end.

(** What a span of blocks accepts: prompts not longer than the sequence, tasks that are not too large. *)
Definition accepts n l : Prop :=
  Forall (fun bp => (length bp.2 <= n)%nat /\ batch_size * Z.of_nat n <= tb_max_batch_size bp.1) l.

Lemma prompted_nil x : prompted x [] = x.
Proof. unfold prompted. rewrite drop_0. by destruct x. Qed.

Lemma prompted_length x p : (length p <= length x)%nat -> length (prompted x p) = length x.
Proof. intros. unfold prompted. rewrite length_app, length_zip_with, length_drop. lia. Qed.

Lemma add_nondummy_ok x p : (length p <= length x)%nat -> add_nondummy x p = Ok (prompted x p).
Proof.
  intros H. destruct p as [|a p]; [by rewrite prompted_nil|]. unfold add_nondummy, add_prompt.
  rewrite (proj2 (Z.leb_le _ _)); [done|]. unfold zlen. lia.
Qed.

Lemma submit_ok {A} max n (run : result A) : batch_size * n <= max -> submit max batch_size n hid run = run.
Proof. intros H. unfold submit. simpl. by rewrite (proj2 (Z.ltb_ge _ _)). Qed.

Lemma forward_chain l x :
  accepts (length x) l -> foldR (forward_block adapter batch_size hid) x l = Ok (reference_forward l x).
Proof.
  revert x. induction l as [|[b p] l IH]; intros x Hl; [done|]. apply Forall_cons in Hl as [[Hp Hm] Hl].
  simpl in *. unfold forward_block at 1. simpl. rewrite add_nondummy_ok by done. unfold mbind, result_bind.
  rewrite submit_ok by (unfold zlen; by rewrite prompted_length). apply IH.
  by rewrite mod_train_length, prompted_length.
Qed.

(** The inputs of the blocks, prompts added, and the activations after the last block. *)
Fixpoint reference_inputs l x : list (list col) * list col :=
  match l with
  | [] => ([], x)
  | (b, p) :: l' =>
      let '(is_, y) := reference_inputs l' (mod_train (tb_index b) adapter (prompted x p)) in (prompted x p :: is_, y)
  end.

Lemma reference_inputs_length l x : length (reference_inputs l x).1 = length l.
Proof.
  revert x. induction l as [|[b p] l IH]; intros x; [done|]. simpl.
  specialize (IH (mod_train (tb_index b) adapter (prompted x p))).
  destruct (reference_inputs l _). simpl in *. by rewrite IH.
Qed.

Lemma collect_chain l acc x :
  accepts (length x) l ->
  foldR (collect_block adapter batch_size hid) (acc, x) l =
    (let '(is_, y) := reference_inputs l x in Ok (acc ++ is_, y)) /\ length (reference_inputs l x).2 = length x.
Proof.
  revert acc x. induction l as [|[b p] l IH]; intros acc x Hl; simpl; [by rewrite app_nil_r|].
  apply Forall_cons in Hl as [[Hp Hm] Hl]. simpl in *. unfold collect_block at 1. simpl.
  rewrite add_nondummy_ok by done. unfold mbind, result_bind, mret, result_ret.
  rewrite submit_ok by (unfold zlen; by rewrite prompted_length). simpl.
  destruct (IH (acc ++ [prompted x p]) (mod_train (tb_index b) adapter (prompted x p))) as [-> Hlen].
  { by rewrite mod_train_length, prompted_length. }
  destruct (reference_inputs l _). simpl in *. rewrite <- app_assoc. split; [done|].
  by rewrite Hlen, mod_train_length, prompted_length.
Qed.

(** The backward chain over the blocks of [l], whose inputs were collected. *)
Lemma backward_chain l x g :
  accepts (length x) l -> length g = length x ->
  foldR (backward_block adapter batch_size hid) (g, [])
    (zip (rev (reference_inputs l x).1) (zip (rev (snd <$> l)) (rev (fst <$> l)))) =
    Ok ((reference_backward l x g).1, rev (reference_backward l x g).2) /\
  length (reference_backward l x g).1 = length x.
Proof.
  revert x. induction l as [|[b p] l IH]; intros x Hl Hg; [done|]. apply Forall_cons in Hl as [[Hp Hm] Hl].
  cbn [fst snd] in Hp, Hm. assert (Hlx : length (mod_train (tb_index b) adapter (prompted x p)) = length x).
  { by rewrite mod_train_length, prompted_length. }
  destruct (IH (mod_train (tb_index b) adapter (prompted x p))) as [IHr IHl]; [by rewrite Hlx|congruence|].
  pose proof (reference_inputs_length l (mod_train (tb_index b) adapter (prompted x p))) as Hin.
  rewrite !fmap_cons. cbn [reference_inputs reference_backward fst snd].
  destruct (reference_inputs l _) as [is_ y]. destruct (reference_backward l _ g) as [g' gps]. cbn [fst snd rev] in *.
  split; [|by rewrite mod_grad_length, prompted_length by (rewrite ?prompted_length by done; congruence)].
  rewrite !zip_with_app by (rewrite ?length_zip_with, ?length_rev, ?length_fmap; lia).
  rewrite foldR_app, IHr. unfold mbind, result_bind. simpl.
  rewrite submit_ok by (unfold zlen; by rewrite prompted_length). unfold mret, result_ret.
  destruct p as [|a p]; [done|]. simpl rev. f_equal. f_equal. f_equal. f_equal.
  rewrite zslice_take by apply zlen_nonneg. unfold zlen. by rewrite Nat2Z.id.
Qed.
Lemma reference_inputs_snoc l b p x :
  reference_inputs (l ++ [(b, p)]) x =
    (let '(is_, y) := reference_inputs l x in (is_ ++ [prompted y p], mod_train (tb_index b) adapter (prompted y p))).
Proof.
  revert x. induction l as [|[b' p'] l IH]; intros x; [done|]. simpl. rewrite IH.
  by destruct (reference_inputs l _).
Qed.

Lemma zip_fst_snd l : zip (fst <$> l) (snd <$> l) = l.
Proof. induction l as [|[b p] l IH]; [done|]. rewrite !fmap_cons. simpl. by f_equal. Qed.

(** [run_rpc_backward] once the prompts are split: the backward pass over [l]. *)
Lemma run_backward_pass l x g :
  l <> [] -> accepts (length x) l -> length g = length x -> forall prompts,
  split_prompts (length l) prompts = snd <$> l ->
  run_rpc_backward (fst <$> l) adapter batch_size hid x g prompts =
    (let '(gx, gps) := reference_backward l x g in Ok (gx, match gps with [] => None | _ => Some gps end)).
Proof.
  intros Hne Hl Hg prompts Hs. unfold run_rpc_backward. rewrite length_fmap, Hs.
  destruct (exists_last Hne) as (l0 & [b p] & ->). clear Hne.
  assert ((zlen (fst <$> l0 ++ [(b, p)]) =? 0) = false) as ->.
  { rewrite fmap_app, zlen_app. apply Z.eqb_neq. pose proof (zlen_nonneg (fst <$> l0)). unfold zlen at 2. simpl. lia. }
  pose proof Hl as Hl'. apply Forall_app in Hl' as [Hl0 Hb]. apply Forall_cons in Hb as [[Hp Hm] _]. cbn [fst snd] in Hp, Hm.
  pose proof (backward_chain (l0 ++ [(b, p)]) x g Hl Hg) as [Hback _].
  rewrite reference_inputs_snoc in Hback.
  destruct (collect_chain l0 [] x Hl0) as [Hc Hlen]. pose proof (reference_inputs_length l0 x) as Hin.
  destruct (reference_inputs l0 x) as [is_ y]. cbn [fst snd app] in *.
  rewrite !fmap_app in *. cbn [fmap list_fmap fst snd] in *.
  rewrite !removelast_last, zip_fst_snd. unfold raise_if, mbind, result_bind. rewrite Hc, znth_last.
  rewrite add_nondummy_ok by (rewrite Hlen; done).
  assert ((zlen (is_ ++ [prompted y p]) =? zlen ((snd <$> l0) ++ [p])) && (zlen ((snd <$> l0) ++ [p]) =? zlen ((fst <$> l0) ++ [b])) = true) as ->.
  { unfold zlen. rewrite !length_app, !length_fmap, Hin. simpl. rewrite !Z.eqb_refl. done. }
  unfold assert_. rewrite Hback. unfold mret, result_ret.
  destruct (reference_backward (l0 ++ [(b, p)]) x g) as [gx gps]. cbn [fst snd]. rewrite rev_involutive.
  destruct gps as [|a gps]; [done|]. simpl. by destruct (rev gps ++ [a]) eqn:E; [apply app_nil in E as [_ ?]|].
Qed.

(** Back-propagation over two spans, one after the other. *)
Lemma reference_backward_app l k x g :
  reference_backward (l ++ k) x g =
    (let '(g1, gk) := reference_backward k (reference_forward l x) g in
     let '(g0, gl) := reference_backward l x g1 in (g0, gl ++ gk)).
Proof.
  revert x. induction l as [|[b p] l IH]; intros x; simpl; [by destruct (reference_backward k x g)|].
  rewrite IH. destruct (reference_backward k _ g) as [g1 gk]. destruct (reference_backward l _ g1) as [g0 gl].
  by destruct p.
Qed.

Lemma reference_forward_length l x : accepts (length x) l -> length (reference_forward l x) = length x.
Proof.
  revert x. induction l as [|[b p] l IH]; intros x Hl; [done|]. apply Forall_cons in Hl as [[Hp Hm] Hl]. simpl in *.
  rewrite IH; by rewrite mod_train_length, prompted_length.
Qed.
End passes.

Section pass_theorems.
Context {TD : TorchDtypes} {CM : CausalModule} {TM : TrainableModule}.
Implicit Types (x g : list col) (bs : list TransformerBackend) (ps : list (list col)).

(** The two passes of a request whose prompts are split into [ps]. *)
Lemma run_backward_pass_split adapter batch hid bs ps prompts x g :
  bs <> [] -> length ps = length bs -> split_prompts (length bs) prompts = ps ->
  accepts batch (length x) (zip bs ps) -> length g = length x ->
  run_rpc_backward bs adapter batch hid x g prompts =
    (let '(gx, gps) := reference_backward adapter (zip bs ps) x g in
     Ok (gx, match gps with [] => None | _ => Some gps end)).
Proof.
  intros Hne Hl Hs Ha Hg. rewrite <- (fst_zip bs ps) at 1 by lia. apply run_backward_pass; try done.
  - destruct bs, ps; simpl in *; done.
  - rewrite snd_zip by lia. rewrite <- Hs at 2. f_equal. rewrite length_zip_with. lia.
Qed.

Lemma run_forward_pass_split adapter batch hid bs ps prompts x :
  bs <> [] -> length ps = length bs -> split_prompts (length bs) prompts = ps -> accepts batch (length x) (zip bs ps) ->
  run_rpc_forward bs adapter batch hid x prompts = Ok (reference_forward adapter (zip bs ps) x).
Proof.
  intros Hne Hl Hs Ha. unfold run_rpc_forward. rewrite Hs. destruct (zlen bs =? 0) eqn:E; [by apply zlen_zero in E|].
  simpl. unfold mbind, result_bind. by apply forward_chain.
Qed.

(** C37: A backward request, with prompts or without, back-propagates through its blocks in reverse order, from the
    inputs recomputed by a forward pass, and returns the gradient of the inputs and, in the order of the blocks, those of
    the prompts; a chain of two spans served by two servers, each given its blocks' part of the prompts, which may be no
    prompts at all, gives what one server gives for both. The prompts are one per block and fit the inputs. *)
Theorem run_rpc_backward_correct adapter batch hid bs1 bs2 prompts1 prompts2 prompts x g :
  bs1 <> [] -> bs2 <> [] ->
  let ps1 := split_prompts (length bs1) prompts1 in
  let ps2 := split_prompts (length bs2) prompts2 in
  length ps1 = length bs1 -> length ps2 = length bs2 -> split_prompts (length (bs1 ++ bs2)) prompts = ps1 ++ ps2 ->
  accepts batch (length x) (zip (bs1 ++ bs2) (ps1 ++ ps2)) -> length g = length x ->
  run_rpc_backward (bs1 ++ bs2) adapter batch hid x g prompts =
    (let '(gx, gps) := reference_backward adapter (zip (bs1 ++ bs2) (ps1 ++ ps2)) x g in
     Ok (gx, match gps with [] => None | _ => Some gps end)) /\
  (exists y g1 gp2 g0 gp1,
    run_rpc_forward bs1 adapter batch hid x prompts1 = Ok y /\
    run_rpc_backward bs2 adapter batch hid y g prompts2 = Ok (g1, gp2) /\
    run_rpc_backward bs1 adapter batch hid x g1 prompts1 = Ok (g0, gp1) /\
    run_rpc_backward (bs1 ++ bs2) adapter batch hid x g prompts =
      Ok (g0, match or_default gp1 [] ++ or_default gp2 [] with [] => None | gps => Some gps end)).
Proof.
  intros Hne1 Hne2 ps1 ps2 Hl1 Hl2 Hp12 Hacc Hg.
  assert (Hz : zip (bs1 ++ bs2) (ps1 ++ ps2) = zip bs1 ps1 ++ zip bs2 ps2) by (by apply zip_with_app).
  rewrite Hz in *. apply Forall_app in Hacc as Hacc2. destruct Hacc2 as [Ha1 Ha2].
  assert (Hall : run_rpc_backward (bs1 ++ bs2) adapter batch hid x g prompts =
    (let '(gx, gps) := reference_backward adapter (zip bs1 ps1 ++ zip bs2 ps2) x g in
       Ok (gx, match gps with [] => None | _ => Some gps end))).
  { rewrite <- Hz. apply (run_backward_pass_split _ _ _ _ (ps1 ++ ps2)); [by destruct bs1| |by rewrite Hp12|by rewrite Hz|done].
    by rewrite !length_app, Hl1, Hl2. }
  split; [exact Hall|].
  pose proof (run_forward_pass_split adapter batch hid bs1 ps1 prompts1 x Hne1 Hl1 eq_refl Ha1) as Hf.
  assert (Hy : length (reference_forward adapter (zip bs1 ps1) x) = length x) by (by apply (reference_forward_length adapter batch)).
  rewrite reference_backward_app in Hall.
  pose proof (run_backward_pass_split adapter batch hid bs2 ps2 prompts2 (reference_forward adapter (zip bs1 ps1) x) g Hne2 Hl2 eq_refl) as Hb2.
  rewrite Hy in Hb2.
  destruct (backward_chain adapter batch hid (zip bs2 ps2) (reference_forward adapter (zip bs1 ps1) x) g) as [_ Hg1];
    [by rewrite Hy|by rewrite Hy|].
  destruct (reference_backward adapter (zip bs2 ps2) (reference_forward adapter (zip bs1 ps1) x) g) as [g1 gk].
  pose proof (run_backward_pass_split adapter batch hid bs1 ps1 prompts1 x g1 Hne1 Hl1 eq_refl Ha1) as Hb1. cbn [fst] in Hg1.
  destruct (reference_backward adapter (zip bs1 ps1) x g1) as [g0 gl].
  do 5 eexists. split; [exact Hf|]. split; [by apply Hb2|]. split; [apply Hb1; congruence|].
  rewrite Hall. f_equal. f_equal. by destruct gl, gk.
Qed.

(** A forward request with fewer prompts than blocks silently runs only as many blocks as it has prompts. *)
Theorem run_rpc_forward_truncates adapter batch hid bs ps x :
  is_dummy_prompts ps = false ->
  run_rpc_forward bs adapter batch hid x (Some ps) = run_rpc_forward (take (length ps) bs) adapter batch hid x (Some ps).
Proof.
  intros Hd. unfold run_rpc_forward, split_prompts. rewrite Hd.
  destruct ps as [|p ps]; [done|]. destruct bs as [|b bs]; [done|]. simpl. unfold mbind, result_bind.
  assert (zip bs ps = zip (take (length ps) bs) ps) as ->; [|done].
  clear. revert ps. induction bs as [|b bs IH]; intros [|p ps]; simpl; try done. by rewrite IH.
Qed.
End pass_theorems.

(** ** Inference: what a session of a server computes *)

Section inference.
Context {TD : TorchDtypes} {CM : CausalModule} {meta : Type}.
Context (garbage : nat -> list col) (Hgarbage : forall n, length (garbage n) = n).
Context (pool : list (string * TransformerBackend)) (adapter : option string).
Abbreviation cache := (@MemoryCache (list slot)).
Implicit Types (c : cache) (x y : list col) (s : session_config) (r : step_request meta).

(** A block of the session: its uid, its backend, its cache handles and the tensors they were given. *)
Record served := mkServed {
  sv_uid : string;
  sv_backend : TransformerBackend;
  sv_handles : list Handle;
  sv_tensors : list (list slot);
}.

Implicit Types (l : list served).

(** The outputs of a block for a whole sequence, from an empty past, with the session's adapter. *)
Definition block_out (v : served) x : list col :=
  (mod_forward (tb_index (sv_backend v), adapter) (take 0 <$> sv_tensors v) x).1.

Fixpoint span_out l x : list col :=
  match l with [] => x | v :: l' => span_out l' (block_out v x) end.

(** Every block's caches hold what the block has seen when the span has processed [x]. *)
Fixpoint session_at c l x : Prop :=
  match l with
  | [] => True
  | v :: l' =>
      lookup_handles c (sv_handles v) = Ok (processed (tb_index (sv_backend v), adapter) (sv_tensors v) 0 x) /\
      session_at c l' (block_out v x)
  end.

(** The blocks are served, their caches are long enough. *)
Definition served_ok n (v : served) : Prop :=
  find_backend pool (sv_uid v) = Ok (sv_backend v) /\ backend_ok (sv_backend v) /\ sv_tensors v <> [] /\
  NoDup (sv_handles v) /\ Forall (fun t => (n <= length t)%nat) (sv_tensors v).

Lemma block_out_length v x : length (block_out v x) = length x.
Proof. apply mod_forward_length. Qed.

Lemma span_out_length l x : length (span_out l x) = length x.
Proof. revert x. induction l as [|v l IH]; intros x; simpl; [done|]. by rewrite IH, block_out_length. Qed.

Lemma session_at_write c l x hs ts :
  (forall v h, v ∈ l -> h ∈ sv_handles v -> h ∉ hs) -> session_at c l x -> session_at (write_tensors c hs ts) l x.
Proof.
  revert x. induction l as [|v l IH]; intros x Hd; simpl; [done|]. intros [Hl Hs]. split.
  - rewrite lookup_handles_write_other; [done|]. intros h Hh. apply (Hd v h); [by left|done].
  - apply IH; [|done]. intros v' h Hv. apply Hd. by right.
Qed.

Definition step_infos l p : list InferenceMetadata :=
  (fun v => mkInferenceInfo (sv_uid v) p (sv_handles v) adapter) <$> l.

(** One task of the merged pool: the span's outputs for the new tokens, and the caches to match. *)
Lemma merged_steps l c c1 batch x y :
  0 < batch -> y <> [] -> Forall (served_ok (length x + length y)) l -> NoDup (concat (sv_handles <$> l)) ->
  recv_all make_zeros c = Ok c1 -> session_at c1 l x ->
  exists c' c1' z,
    foldR (merged_block pool garbage batch []) (c, y) (zip (step_infos l (zlen x)) (replicate (length l) None)) = Ok (c', z) /\
    recv_all make_zeros c' = Ok c1' /\ session_at c1' l (x ++ y) /\ span_out l (x ++ y) = span_out l x ++ z /\
    (forall h, h ∉ concat (sv_handles <$> l) ->
      dget (mc_allocated_tensors c1') h = dget (mc_allocated_tensors c1) h).
Proof.
  intros Hb. revert c c1 x y. induction l as [|v l IH]; intros c c1 x y Hy Hok Hnd Hrecv Hs.
  { exists c, c1, y. done. }
  apply Forall_cons in Hok as [(Hfind & Hbok & Hne & Hndv & Hlen) Hok]. destruct Hs as [Hl Hs].
  rewrite fmap_cons in Hnd. simpl in Hnd. apply NoDup_app in Hnd as (_ & Hdisj & Hnd).
  unfold step_infos. rewrite fmap_cons. cbn [length replicate]. simpl zip. cbn [foldR].
  unfold merged_block at 1. cbn [fst snd add_optional im_uid]. unfold mbind at 1, result_bind at 1. cbv beta iota.
  rewrite Hfind. unfold mbind at 1, result_bind at 1. cbv beta iota.
  set (b := sv_backend v) in *. set (cts := sv_tensors v) in *.
  assert (Hfx : Forall (fun t => (0 + length x <= length t)%nat) cts) by (eapply Forall_impl; [exact Hlen|simpl; lia]).
  assert (Hpl : length (processed (tb_index b, adapter) cts 0 x) = length cts) by (by apply processed_length).
  assert (Hfit : Forall (fun t => (length x + length y <= length t)%nat) (processed (tb_index b, adapter) cts 0 x)).
  { apply processed_Forall; [lia|done]. }
  rewrite (inference_step_run b (garbage (length y)) c c1 batch y []
    (mkInferenceInfo (sv_uid v) (zlen x) (sv_handles v) adapter) (processed (tb_index b, adapter) cts 0 x)
    (processed (tb_index b, adapter) cts 0 x)); try done; cbn [im_prefix_length im_cache_handles];
    [|apply zlen_nonneg| |unfold zlen; by rewrite Nat2Z.id].
  2: { destruct cts; [done|]. by destruct (processed _ _ _ _). }
  assert (Hx : Z.to_nat (zlen x) = (0 + length x)%nat) by (unfold zlen; lia). rewrite Hx.
  rewrite processed_app by (eapply Forall_impl; [exact Hlen|simpl; lia]). rewrite processed_past by done.
  set (z1 := (mod_forward (tb_index b, adapter) (mod_forward (tb_index b, adapter) (take 0 <$> cts) x).2 y).1).
  set (c2 := write_tensors c1 (sv_handles v) (processed (tb_index b, adapter) cts 0 (x ++ y))).
  assert (Hout : block_out v (x ++ y) = block_out v x ++ z1).
  { unfold block_out, z1. fold b cts. rewrite mod_chunk. destruct (mod_forward (tb_index b, adapter) (take 0 <$> cts) x) as [ox kx].
    simpl. by destruct (mod_forward (tb_index b, adapter) kx y). }
  assert (Hz1 : length z1 = length y) by (unfold z1; by rewrite mod_forward_length).
  assert (Hrecv1 : mc_pipe c1 = []) by (unfold recv_all, mret, result_ret in Hrecv; by inv_ok).
  destruct (IH c2 c2 (block_out v x) z1) as (c' & c1' & z & Hrun & Hrecv' & Hs' & Hspan & Hother).
  - intros ->. by destruct y.
  - eapply Forall_impl; [exact Hok|]. intros v'. by rewrite block_out_length, Hz1.
  - done.
  - apply recv_all_empty. unfold c2. by rewrite write_tensors_pipe.
  - apply session_at_write; [|done]. intros v' h Hv Hh Hin. apply (Hdisj h); [done|].
    apply list_elem_of_In, in_concat. exists (sv_handles v'). split; [|by apply list_elem_of_In].
    apply list_elem_of_In, list_elem_of_fmap. by exists v'.
  - exists c', c1', z. unfold zlen in Hrun. rewrite block_out_length in Hrun. fold (zlen x) in Hrun.
    split; [exact Hrun|]. split; [done|]. split; [|split].
    + simpl. rewrite Hout. fold b cts. split; [|done].
      assert (Hsame : lookup_handles c1' (sv_handles v) = lookup_handles c2 (sv_handles v)).
      { apply lookup_handles_ext. intros h Hh. apply Hother. by apply Hdisj. }
      rewrite Hsame. unfold c2. apply (lookup_handles_write _ _ _ _ Hndv Hl). fold b cts.
      rewrite Hpl. apply processed_length. eapply Forall_impl; [exact Hlen|]. simpl. rewrite length_app. lia.
    + simpl. by rewrite Hout.
    + intros h Hh. simpl in Hh. apply not_elem_of_app in Hh as [Hh1 Hh2]. rewrite Hother by done.
      unfold c2. by apply write_tensors_other.
Qed.
(** ** Merged and separate pools *)

Lemma step_on_caches_length b g batch x hypo (info : InferenceMetadata) cts out cts' :
  length g = length x -> step_on_caches b g batch x hypo info cts = Ok (out, cts') -> length out = length x.
Proof.
  intros Hg H. unfold step_on_caches in H.
  destruct (_reorder_cache_inplace cts hypo) as [cts1|]; simpl in H; [|done].
  destruct (_estimate_max_chunk_length b batch (zlen x) info) as [m|] eqn:Em; simpl in H; [|done].
  assert (0 < m) by (unfold _estimate_max_chunk_length, mret, result_ret in Em; inv_ok; lia).
  destruct (zlen x =? 0) eqn:Ex; [done|]. rewrite chunked_forward in H; [|done| |done].
  2: { intros ->. discriminate Ex. }
  pose proof (mod_forward_length (tb_index b, im_active_adapter info) (_select_layer_past cts1 (im_prefix_length info)) x) as Hl.
  destruct (mod_forward (tb_index b, im_active_adapter info) (_select_layer_past cts1 (im_prefix_length info)) x) as [o kvs].
  simpl in Hl. destruct (_update_cache_inplace _ _ _); simpl in H; [|done]. by injection H as <- _.
Qed.

Lemma add_optional_length x p x' : add_optional x p = Ok x' -> length x' = length x.
Proof.
  destruct p as [p|]; simpl; [|congruence]. unfold add_prompt. case_if; [|done]. intros [= <-]. zbool.
  rewrite length_app, length_zip_with, length_drop. unfold zlen in *. lia.
Qed.

Lemma merged_block_length batch hypo (st st' : cache * list col) ip :
  merged_block pool garbage batch hypo st ip = Ok st' -> length st'.2 = length st.2.
Proof.
  unfold merged_block. destruct (add_optional st.2 ip.2) as [h|] eqn:Eh; simpl; [|done].
  destruct (find_backend pool (im_uid ip.1)) as [b|]; simpl; [|done]. unfold inference_step.
  destruct (use_cache _ _ _ _) as [[c1 cts]|]; simpl; [|done].
  destruct (step_on_caches _ _ _ _ _ _ _) as [[out cts']|] eqn:Es; simpl; [|done]. intros [= <-]. simpl.
  apply step_on_caches_length in Es; [|done]. rewrite Es. by apply add_optional_length in Eh.
Qed.

(** Tasks for single blocks, one after another, are one task for all of them. *)
Lemma separate_steps s r (l : list (TransformerBackend * (InferenceMetadata * option (list col)))) (st : cache * list col) :
  sc_pool_backends s = pool -> sr_batch r * zlen st.2 <= sc_pool_max_batch_size s ->
  foldR (fun st bip => submit_inference garbage s r st [bip.2.1] [bip.2.2]) st l =
    foldR (merged_block pool garbage (sr_batch r) (sr_hypo_ids r)) st (snd <$> l).
Proof.
  intros Hp. revert st. induction l as [|[b [i p]] l IH]; intros st Hsz; [done|].
  rewrite fmap_cons. cbn [foldR fst snd]. unfold submit_inference at 1, submit. simpl get_task_size.
  rewrite (proj2 (Z.ltb_ge _ _)) by done. unfold merged_inference_step. simpl.
  unfold mbind, result_bind. rewrite Hp. destruct st as [c h]. simpl in *.
  destruct (merged_block pool garbage (sr_batch r) (sr_hypo_ids r) (c, h) (i, p)) as [st'|] eqn:E; [|done].
  apply merged_block_length in E. simpl in E. apply IH. unfold zlen in *. by rewrite E.
Qed.

Lemma compute_blocks_merged s r p prompts c :
  sc_pool_backends s = pool -> length (sc_uids s) = length (sc_backends s) ->
  length (sc_cache_handles s) = length (sc_backends s) -> length prompts = length (sc_backends s) ->
  sc_backends s <> [] ->
  compute_blocks garbage s r p prompts c =
    submit_inference garbage s r (c, sr_hidden r) (inference_infos s p) prompts.
Proof.
  intros Hp Hu Hh Hpr Hne. unfold compute_blocks. destruct (can_merge_pools s r); [done|].
  assert (Hi : length (inference_infos s p) = length (sc_backends s)).
  { unfold inference_infos. rewrite length_fmap, length_zip_with. lia. }
  destruct (Z.le_gt_cases (sr_batch r * zlen (sr_hidden r)) (sc_pool_max_batch_size s)) as [Hle|Hgt].
  - rewrite separate_steps by done. unfold submit_inference, submit. simpl get_task_size. cbn [fst snd].
    rewrite (proj2 (Z.ltb_ge _ _)) by done. unfold merged_inference_step, assert_.
    replace (zlen (inference_infos s p) =? zlen prompts) with true by (symmetry; apply Z.eqb_eq; unfold zlen; lia).
    rewrite Hp. unfold mbind, result_bind. f_equal. rewrite snd_zip; [done|].
    rewrite length_zip_with. lia.
  - destruct (sc_backends s) as [|b bs]; [done|]. destruct (inference_infos s p) as [|i is_]; [done|].
    destruct prompts as [|pr prs]; [done|]. simpl. unfold submit_inference, submit. simpl get_task_size. cbn [fst snd].
    by rewrite (proj2 (Z.ltb_lt _ _)) by lia.
Qed.

Definition with_quant_type s (q : QuantType) : session_config :=
  mkSessionConfig (sc_uids s) (sc_backends s) (sc_adapter s) (sc_cache_handles s) (sc_max_length s) q
    (sc_pool_backends s) (sc_pool_max_batch_size s).

Lemma inference_iteration_quant s st r q :
  sc_pool_backends s = pool -> length (sc_uids s) = length (sc_backends s) ->
  length (sc_cache_handles s) = length (sc_backends s) ->
  inference_iteration garbage (with_quant_type s q) st r = inference_iteration garbage s st r.
Proof.
  intros Hp Hu Hh. destruct st as [c p]. unfold inference_iteration. cbn [sc_backends sc_max_length with_quant_type].
  destruct (zlen (sc_backends s) =? 0) eqn:E0; [done|]. assert (Hne : sc_backends s <> []) by (by intros E; rewrite E in E0).
  destruct (bool_decide _); [|done].
  destruct (zlen (sc_backends s) =? zlen (parse_prompts (length (sc_backends s)) r)) eqn:El; [|done].
  destruct (sc_max_length s <? p + zlen (sr_hidden r)); [done|]. unfold raise_if, assert_, mbind, result_bind. simpl negb.
  cbv iota. destruct (0 <? _); [|done]. zbool.
  rewrite !compute_blocks_merged by (done || unfold zlen in *; simpl; lia). done.
Qed.
End inference.

(** Short requests go through the merged pool in one task, long ones block by block: the quantization
    type, which sets the threshold, changes neither the outputs nor the errors nor the caches of a session. *)
Theorem merged_pool_equivalent {TD : TorchDtypes} {CM : CausalModule} {meta} garbage s (c : @MemoryCache (list slot))
    (rs : list (step_request meta)) q :
  (forall n, length (garbage n) = n) -> length (sc_uids s) = length (sc_backends s) ->
  iterate_rpc_inference garbage (with_quant_type s q) c rs = iterate_rpc_inference garbage s c rs.
Proof.
  intros Hg Hu. unfold iterate_rpc_inference. cbn [sc_cache_handles sc_backends with_quant_type].
  destruct (zlen (sc_cache_handles s) =? zlen (sc_backends s)) eqn:E; [|done]. zbool.
  generalize (c, 0) as st. induction rs as [|r rs IH]; intros st; simpl; [done|].
  rewrite (inference_iteration_quant garbage Hg (sc_pool_backends s)) by (done || unfold zlen in *; lia).
  destruct (inference_iteration garbage s st r) as [[st' y]|]; [|done]. by rewrite IH.
Qed.

(** ** Sessions *)

Section session_theorems.
Context {TD : TorchDtypes} {CM : CausalModule} {meta : Type}.
Abbreviation cache := (@MemoryCache (list slot)).
Implicit Types (c : cache) (s : session_config) (r : step_request meta) (l : list served) (x : list col).

(** A request without prompts and beam hypotheses that fits into a task. *)
Definition plain_request s r : Prop :=
  sr_prompts r = None /\ sr_hypo_ids r = [] /\ sr_hypo_dtype r = torch_int64 /\ sr_hidden r <> [] /\
  0 < sr_batch r /\ 0 < sr_hid r /\ sr_batch r * zlen (sr_hidden r) <= sc_pool_max_batch_size s.

Definition total_tokens (rs : list (step_request meta)) : Z := zsum ((fun r => zlen (sr_hidden r)) <$> rs).

Definition outputs (ys : list (list col * bool * meta)) : list col := concat ((fun y => y.1.1) <$> ys).

(** The session [s] asks for the blocks of [l]. *)
Definition session_of s l : Prop :=
  sc_uids s = sv_uid <$> l /\ sc_backends s = sv_backend <$> l /\ sc_cache_handles s = sv_handles <$> l /\ l <> [].

Lemma processed_nil b cts : processed b cts 0 [] = cts.
Proof.
  unfold processed. rewrite mod_forward_nil. simpl. induction cts as [|ct cts IH]; [done|].
  rewrite fmap_cons. simpl. rewrite IH. unfold overlay. by rewrite take_0, drop_0.
Qed.

Lemma session_at_start adapter c l :
  Forall (fun v => lookup_handles c (sv_handles v) = Ok (sv_tensors v)) l -> session_at adapter c l [].
Proof.
  induction 1 as [|v l Hv _ IH]; [done|]. simpl. rewrite processed_nil. split; [done|].
  unfold block_out. by rewrite mod_forward_nil.
Qed.

Lemma inference_infos_of s l p : session_of s l -> inference_infos s p = step_infos (sc_adapter s) l p.
Proof.
  intros (Hu & _ & Hh & _). unfold inference_infos, step_infos. rewrite Hu, Hh. clear.
  induction l as [|v l IH]; [done|]. rewrite !fmap_cons. cbn [zip zip_with]. rewrite fmap_cons. simpl. by f_equal.
Qed.

Lemma iteration_correct garbage s l c c1 x r :
  (forall n, length (garbage n) = n) -> session_of s l -> plain_request s r ->
  Forall (served_ok (sc_pool_backends s) (length x + length (sr_hidden r))) l -> NoDup (concat (sv_handles <$> l)) ->
  zlen x + zlen (sr_hidden r) <= sc_max_length s ->
  recv_all make_zeros c = Ok c1 -> session_at (sc_adapter s) c1 l x ->
  exists c' c1' z,
    inference_iteration garbage s (c, zlen x) r = Ok (c', zlen (x ++ sr_hidden r), (z, true, sr_metadata r)) /\
    recv_all make_zeros c' = Ok c1' /\ session_at (sc_adapter s) c1' l (x ++ sr_hidden r) /\
    span_out (sc_adapter s) l (x ++ sr_hidden r) = span_out (sc_adapter s) l x ++ z.
Proof.
  intros Hg Hs (Hp & Hhy & Hdt & Hne & Hb & Hhid & Hsz) Hok Hnd Hmax Hrecv Hat.
  pose proof Hs as (Hu & Hbk & Hh & Hl).
  destruct (merged_steps garbage Hg (sc_pool_backends s) (sc_adapter s) l c c1 (sr_batch r) x (sr_hidden r)
    Hb Hne Hok Hnd Hrecv Hat) as (c' & c1' & z & Hrun & Hrecv' & Hat' & Hspan & _).
  exists c', c1', z. split; [|done].
  assert (Hlen : length (sc_backends s) = length l) by (by rewrite Hbk, length_fmap).
  assert (Hpos : 0 < zlen (sr_hidden r)) by (destruct (sr_hidden r); [done|unfold zlen; simpl; lia]).
  assert (Hpr : has_prompts r = false) by (unfold has_prompts; by rewrite Hp).
  unfold inference_iteration. destruct (zlen (sc_backends s) =? 0) eqn:E0.
  { apply zlen_zero in E0. rewrite Hbk in E0. by destruct l. }
  rewrite Hdt, bool_decide_true by done. unfold parse_prompts. rewrite Hpr.
  assert ((zlen (sc_backends s) =? zlen (replicate (A := option (list col)) (length (sc_backends s)) None)) = true) as ->.
  { unfold zlen. rewrite length_replicate. apply Z.eqb_refl. }
  rewrite (proj2 (Z.ltb_ge (sc_max_length s) _)) by done. rewrite (proj2 (Z.ltb_lt 0 _)) by (repeat apply Z.mul_pos_pos; lia).
  unfold raise_if, assert_, mbind, result_bind. simpl negb. cbv iota.
  assert (Hbl : sc_backends s <> []) by (rewrite Hbk; by destruct l).
  rewrite (compute_blocks_merged garbage Hg (sc_pool_backends s))
    by (rewrite ?length_replicate, ?Hu, ?Hh, ?length_fmap; done || lia).
  unfold submit_inference, submit. simpl get_task_size. cbn [fst snd].
  rewrite (proj2 (Z.ltb_ge _ _)) by done. unfold merged_inference_step.
  rewrite (inference_infos_of s l) by done. rewrite Hlen, Hhy.
  assert ((zlen (step_infos (sc_adapter s) l (zlen x)) =? zlen (replicate (A := option (list col)) (length l) None)) = true) as ->.
  { unfold zlen, step_infos. rewrite length_replicate, length_fmap. apply Z.eqb_refl. }
  unfold assert_, mbind, result_bind. rewrite Hrun. unfold mret, result_ret. by rewrite zlen_app.
Qed.

Lemma total_tokens_cons r rs : total_tokens (r :: rs) = zlen (sr_hidden r) + total_tokens rs.
Proof. done. Qed.

Lemma total_tokens_nonneg rs : 0 <= total_tokens rs.
Proof. apply zsum_all_nonneg. intros. apply zlen_nonneg. Qed.

Lemma loop_correct garbage s l : (forall n, length (garbage n) = n) -> session_of s l ->
  Forall (served_ok (sc_pool_backends s) (Z.to_nat (sc_max_length s))) l -> NoDup (concat (sv_handles <$> l)) ->
  forall rs c c1 x, Forall (plain_request s) rs -> zlen x + total_tokens rs <= sc_max_length s ->
  recv_all make_zeros c = Ok c1 -> session_at (sc_adapter s) c1 l x ->
  exists ys st,
    (forall rest, inference_loop garbage s (c, zlen x) (rs ++ rest) =
      (let '(zs, st', e) := inference_loop garbage s st rest in (ys ++ zs, st', e))) /\
    st.2 = zlen x + total_tokens rs /\ Forall (fun y => y.1.2 = true) ys /\
    span_out (sc_adapter s) l (x ++ concat (sr_hidden <$> rs)) = span_out (sc_adapter s) l x ++ outputs ys /\ length ys = length rs.
Proof.
  intros Hg Hs Hok Hnd. induction rs as [|r rs IH]; intros c c1 x Hp Hmax Hrecv Hat.
  { exists [], (c, zlen x). split; [|split; [|split; [|split]]]; simpl; rewrite ?app_nil_r; try done.
    - intros rest. by destruct (inference_loop _ _ _ rest) as [[zs st'] e].
    - unfold total_tokens. simpl. lia. }
  apply Forall_cons in Hp as [Hr Hp]. rewrite total_tokens_cons in Hmax. pose proof (total_tokens_nonneg rs).
  destruct (iteration_correct garbage s l c c1 x r Hg Hs Hr) as (c' & c1' & z & Hit & Hrecv' & Hat' & Hspan); try done.
  { eapply Forall_impl; [exact Hok|]. intros v (Hf & Hb & Hn & Hd & Hl). repeat split; try done; try apply Hb.
    eapply Forall_impl; [exact Hl|]. unfold zlen in *. simpl. lia. }
  { lia. }
  destruct (IH c' c1' (x ++ sr_hidden r)) as (ys & st & Hrun & Hst & Hpush & Hout & Hlen); try done.
  { rewrite zlen_app. lia. }
  exists ((z, true, sr_metadata r) :: ys), st. split; [|split; [|split; [|split]]].
  - intros rest. cbn [app inference_loop]. rewrite Hit, Hrun. by destruct (inference_loop _ _ st rest) as [[zs st'] e].
  - rewrite Hst, zlen_app, total_tokens_cons. lia.
  - by constructor.
  - rewrite fmap_cons. cbn [concat]. rewrite app_assoc, Hout, Hspan. unfold outputs. rewrite fmap_cons. simpl.
    by rewrite <- app_assoc.
  - simpl. by rewrite Hlen.
Qed.

(** What a session of requests without prompts computes. *)
Lemma session_outputs garbage s l c c1 rs :
  (forall n, length (garbage n) = n) -> session_of s l ->
  Forall (served_ok (sc_pool_backends s) (Z.to_nat (sc_max_length s))) l -> NoDup (concat (sv_handles <$> l)) ->
  recv_all make_zeros c = Ok c1 ->
  Forall (fun v => lookup_handles c1 (sv_handles v) = Ok (sv_tensors v)) l ->
  Forall (plain_request s) rs -> total_tokens rs <= sc_max_length s ->
  exists ys st,
    iterate_rpc_inference garbage s c rs = (ys, st, None) /\
    length ys = length rs /\ Forall (fun y => y.1.2 = true) ys /\
    concat ((fun y => y.1.1) <$> ys) = span_out (sc_adapter s) l (concat (sr_hidden <$> rs)) /\
    (forall r rest, sr_prompts r = None -> sr_hypo_dtype r = torch_int64 ->
      sc_max_length s < total_tokens rs + zlen (sr_hidden r) ->
      iterate_rpc_inference garbage s c (rs ++ r :: rest) = (ys, st, Some ValueError)).
Proof.
  intros Hg Hs Hok Hnd Hrecv Hl Hp Hmax. pose proof Hs as (_ & Hbk & Hh & Hne).
  destruct (loop_correct garbage s l Hg Hs Hok Hnd rs c c1 [] Hp) as (ys & st & Hrun & Hst & Hpush & Hout & Hlen);
    [unfold zlen; simpl; lia|done|by apply session_at_start|].
  exists ys, st. unfold iterate_rpc_inference.
  assert ((zlen (sc_cache_handles s) =? zlen (sc_backends s)) = true) as ->.
  { rewrite Hbk, Hh. unfold zlen. rewrite !length_fmap. apply Z.eqb_refl. }
  split; [|split; [done|split; [done|split]]].
  - specialize (Hrun []). rewrite app_nil_r in Hrun. change (c, zlen (A := col) []) with (c, 0) in Hrun. rewrite Hrun.
    simpl. by rewrite app_nil_r.
  - simpl in Hout. rewrite Hout. change (outputs ys) with ([] ++ outputs ys). f_equal.
    pose proof (span_out_length (sc_adapter s) l []) as H0. by destruct (span_out (sc_adapter s) l []).
  - intros r rest Hpr Hdt Hlong. change (c, zlen (A := col) []) with (c, 0) in Hrun. rewrite Hrun.
    destruct st as [c' p]. simpl in Hst. cbn [inference_loop]. unfold inference_iteration.
    destruct (zlen (sc_backends s) =? 0) eqn:E0; [apply zlen_zero in E0; rewrite Hbk in E0; by destruct l|].
    rewrite Hdt, bool_decide_true by done. unfold parse_prompts, has_prompts. rewrite Hpr.
    assert ((zlen (sc_backends s) =? zlen (replicate (A := option (list col)) (length (sc_backends s)) None)) = true) as ->.
    { unfold zlen. rewrite length_replicate. apply Z.eqb_refl. }
    rewrite (proj2 (Z.ltb_lt (sc_max_length s) _)) by (rewrite Hst; unfold zlen in *; simpl; lia).
    simpl. by rewrite app_nil_r.
Qed.

(** C3: A session of requests without prompts computes what its blocks compute on all tokens at once, whatever
    the way the tokens are split into requests; outputs may be pushed to the next server; and a request that
    would exceed the allocated length ends the session with an error after the outputs so far. *)
Theorem iterate_rpc_inference_correct garbage s l c c1 rs :
  (forall n, length (garbage n) = n) -> session_of s l ->
  Forall (served_ok (sc_pool_backends s) (Z.to_nat (sc_max_length s))) l -> NoDup (concat (sv_handles <$> l)) ->
  recv_all make_zeros c = Ok c1 ->
  Forall (fun v => lookup_handles c1 (sv_handles v) = Ok (sv_tensors v)) l ->
  Forall (plain_request s) rs -> total_tokens rs <= sc_max_length s ->
  exists ys st,
    iterate_rpc_inference garbage s c rs = (ys, st, None) /\
    length ys = length rs /\ Forall (fun y => y.1.2 = true) ys /\
    concat ((fun y => y.1.1) <$> ys) = span_out (sc_adapter s) l (concat (sr_hidden <$> rs)) /\
    (forall r rest, sr_prompts r = None -> sr_hypo_dtype r = torch_int64 ->
      sc_max_length s < total_tokens rs + zlen (sr_hidden r) ->
      iterate_rpc_inference garbage s c (rs ++ r :: rest) = (ys, st, Some ValueError)).
Proof. apply session_outputs. Qed.
End session_theorems.

(** ** Examples

    Blocks that map a number [x] to [2 * x + b]; sessions of two blocks. *)

Definition double_train (b : Z) (a : string) (x : list Z) : list Z := (fun v => 2 * v + b) <$> x.
Definition double_grad (b : Z) (a : string) (x g : list Z) : list Z := (fun v => 2 * v) <$> g.

#[refine, global] Instance DoubleModule : TrainableModule (CM := SumModule) :=
  {| mod_train := double_train; mod_grad := double_grad |}.
Proof.
  - intros. unfold double_train. by rewrite length_fmap.
  - intros. unfold double_grad. by rewrite length_fmap.
Defined.

Definition example_block (i : Z) : TransformerBackend :=
  mkBackend (make_uid "m" i) i (mkPretrained 4 2 1 None) torch_float16 8 [0] [2] 100.

Lemma run_rpc_backward_correct_witness :
  (run_rpc_backward (CM := SumModule) [example_block 0; example_block 1] "" 1 1 [1; 2; 3] [1; 1; 1] (Some [[5]; [7]])
     = Ok ([4; 4; 4], Some [[4]; [2]]) /\
   exists y g1 gp2 g0 gp1,
    run_rpc_forward (CM := SumModule) [example_block 0] "" 1 1 [1; 2; 3] (Some [[5]]) = Ok y /\
    run_rpc_backward (CM := SumModule) [example_block 1] "" 1 1 y [1; 1; 1] (Some [[7]]) = Ok (g1, gp2) /\
    run_rpc_backward (CM := SumModule) [example_block 0] "" 1 1 [1; 2; 3] g1 (Some [[5]]) = Ok (g0, gp1) /\
    run_rpc_backward (CM := SumModule) [example_block 0; example_block 1] "" 1 1 [1; 2; 3] [1; 1; 1] (Some [[5]; [7]])
      = Ok (g0, match or_default gp1 [] ++ or_default gp2 [] with [] => None | gps => Some gps end)) /\
  run_rpc_backward (CM := SumModule) [example_block 0; example_block 1] "" 1 1 [1; 2; 3] [1; 1; 1] None
    = Ok ([4; 4; 4], None).
Proof.
  split.
  - destruct (run_rpc_backward_correct (CM := SumModule) "" 1 1 [example_block 0] [example_block 1] (Some [[5]]) (Some [[7]])
      (Some [[5]; [7]]) [1; 2; 3] [1; 1; 1]) as [H1 H2]; [done|done|done|done|done|repeat constructor; simpl; lia|done|].
    split; [|exact H2]. transitivity (Ok ([4; 4; 4], Some [[4]; [2]])); [|reflexivity].
    etransitivity; [exact H1|]. vm_compute. reflexivity.
  - destruct (run_rpc_backward_correct (CM := SumModule) "" 1 1 [example_block 0] [example_block 1] None None None [1; 2; 3]
      [1; 1; 1]) as [H1 _]; [done|done|done|done|done|repeat constructor; simpl; lia|done|].
    etransitivity; [exact H1|]. vm_compute. reflexivity.
Defined.

Lemma run_rpc_forward_truncates_witness :
  run_rpc_forward (CM := SumModule) [example_block 0; example_block 1] "" 1 1 [1; 2] (Some [[5]]) =
  run_rpc_forward (CM := SumModule) [example_block 0] "" 1 1 [1; 2] (Some [[5]]).
Proof.
  exact (run_rpc_forward_truncates (CM := SumModule) "" 1 1 [example_block 0; example_block 1] [[5]] [1; 2] eq_refl).
Defined.

Definition zeros (n : nat) : list (@col SumModule) := replicate n 0.

Definition example_session : session_config :=
  mkSessionConfig [make_uid "m" 0; make_uid "m" 1] [example_block 0; example_block 1] None [[7; 8]; [9; 10]] 4 QNONE
    [(make_uid "m" 0, example_block 0); (make_uid "m" 1, example_block 1)] 100.

Definition session_cache : @MemoryCache (list Z) :=
  with_tensors (mc_init (tensor := list Z) (Some 100) None) []
    [(7, [0; 0; 0; 0]); (8, [0; 0; 0; 0]); (9, [0; 0; 0; 0]); (10, [0; 0; 0; 0])].

Definition example_request (x : list Z) : step_request (CM := SumModule) unit :=
  mkStepRequest (CM := SumModule) 1 1 x None torch_int64 [] ().

Lemma merged_pool_equivalent_witness :
  iterate_rpc_inference zeros (with_quant_type example_session NF4) session_cache [example_request [1; 2]] =
  iterate_rpc_inference zeros example_session session_cache [example_request [1; 2]].
Proof.
  apply (merged_pool_equivalent (CM := SumModule) zeros example_session session_cache [example_request [1; 2]] NF4);
    [exact (fun n => length_replicate n 0)|done].
Defined.

Definition example_served : list (served (CM := SumModule)) :=
  [mkServed (CM := SumModule) (make_uid "m" 0) (example_block 0) [7; 8] [[0; 0; 0; 0]; [0; 0; 0; 0]];
   mkServed (CM := SumModule) (make_uid "m" 1) (example_block 1) [9; 10] [[0; 0; 0; 0]; [0; 0; 0; 0]]].

Lemma iterate_rpc_inference_correct_witness :
  exists ys st,
    iterate_rpc_inference zeros example_session session_cache [example_request [1; 2]; example_request [3]] = (ys, st, None) /\
    length ys = 2%nat /\ Forall (fun y => y.1.2 = true) ys /\
    concat ((fun y => y.1.1) <$> ys) = span_out None example_served [1; 2; 3] /\
    (forall r rest, sr_prompts r = None -> sr_hypo_dtype r = torch_int64 -> 4 < 3 + zlen (sr_hidden r) ->
      iterate_rpc_inference zeros example_session session_cache ([example_request [1; 2]; example_request [3]] ++ r :: rest) =
        (ys, st, Some ValueError)).
Proof.
  apply (iterate_rpc_inference_correct (CM := SumModule) zeros example_session example_served session_cache session_cache
    [example_request [1; 2]; example_request [3]]).
  - exact (fun n => length_replicate n 0).
  - done.
  - repeat constructor; simpl; try done; try lia; set_solver.
  - repeat constructor; set_solver.
  - done.
  - repeat constructor.
  - repeat constructor; simpl; try done; lia.
  - simpl. vm_compute. discriminate.
Defined.
