(* ===== verification/HostResources.v ===== *)
(** * HostResources: what a host can give

    The size of a block ([server/block_utils.py]), room on the disk ([utils/disk_cache.py]) and the throughput
    that a server announces ([server/throughput.py]).  Measurements, files and devices are arguments. *)

From S2P Require Import Prelude PyString PyFloat PyDict DataStructures Utils Backend BlockFunctions.

Section host.
Context {TD : TorchDtypes}.

(** ** Block sizes *)

(** A dtype argument: a dtype, the string "auto", or nothing. *)
Inductive dtype_arg := DType (d : dtype) | DAuto | DNone.

#[global] Instance dtype_arg_eq_dec : EqDecision dtype_arg.
Proof. solve_decision. Defined.

Definition resolve_block_dtype (config_dtype d : dtype_arg) : dtype :=
  match d with
  | DType d => d
  | _ => match config_dtype with
         | DType c => if decide (c = torch_float32) then torch_bfloat16 else c
         | _ => torch_bfloat16
         end
  end.

(** [eps = 0.01] *)
Definition size_eps : pyfloat := f_lit 1 100.

(** [round(n_params * bytes_per_value * (1 + eps))] *)
Definition rounded_size (values : pyfloat) : result Z := f_round (f_mul values (f_add f_one size_eps)).

(** [n_params] counts the parameters of an empty block of the model. *)
Definition get_block_size (n_params : Z) (config_dtype : dtype_arg) (location : string) (d : dtype_arg)
    (quant_type : option QuantType) : result Z :=
  let full d := f_of_Z (n_params * get_size_in_bytes (resolve_block_dtype config_dtype d)) in
  if String.eqb location "memory" then
    _ ← assert_ (match d, quant_type with DNone, _ | _, None => false | _, Some _ => true end);
    match quant_type with
    | Some QNONE => rounded_size (full d)
    | Some INT8 => rounded_size (f_of_Z n_params)
    | Some NF4 => rounded_size (f_mul (f_of_Z n_params) (f_lit 17 32))              (* 4.25 / 8 *)
    | None => Err ValueError
    end
  else if String.eqb location "disk" then rounded_size (full DAuto)
  else Err NameError.

(** ** Disk space *)

Record cached_file := mkCachedFile {
  cf_file_path : string;
  cf_blob_path : string;
  cf_blob_last_accessed : pyfloat;
  cf_size_on_disk : Z;
}.

(** [os.remove(path)]: the paths that are gone; a path that does not exist any more raises. *)
Definition os_remove (gone : list string) (path : string) : result (list string) :=
  if decide (path ∈ gone) then Err FileNotFoundError else Ok (path :: gone).

(** The loop that removes files until enough is freed; the paths that are gone, the files and the space freed. *)
Fixpoint remove_files (needed : Z) (files : list cached_file) (gone : list string) (removed : list cached_file) (freed : Z)
    : list string * result (list cached_file * Z) :=
  match files with
  | [] => (gone, Ok (removed, freed))
  | f :: rest =>
      match os_remove gone (cf_file_path f) with
      | Err e => (gone, Err e)
      | Ok gone =>
          match os_remove gone (cf_blob_path f) with
          | Err e => (gone, Err e)
          | Ok gone =>
              let removed := removed ++ [f] in
              let freed := freed + cf_size_on_disk f in
              if needed <=? freed then (gone, Ok (removed, freed)) else remove_files needed rest gone removed freed
          end
      end
  end.

Definition by_last_access (f g : cached_file) : bool := f_lt (cf_blob_last_accessed f) (cf_blob_last_accessed g).

Definition available_space (free os_quota size_on_disk : Z) (max_disk_space : option Z) : Z :=
  let available := free - os_quota in
  match max_disk_space with Some m => Z.min available (m - size_on_disk) | None => available end.

(** [free_disk_space_for]: the paths removed from the disk, and the outcome. *)
Definition free_disk_space_for (size free os_quota size_on_disk : Z) (max_disk_space : option Z) (cached_files : list cached_file)
    : list string * result unit :=
  let available := available_space free os_quota size_on_disk max_disk_space in
  if size <=? available then ([], Ok ())
  else
    let needed := size - available in
    match remove_files needed (py_sorted by_last_access cached_files) [] [] 0 with
    | (gone, Err e) => (gone, Err e)
    | (gone, Ok (_, freed)) => (gone, raise_if (freed <? needed) RuntimeError)
    end.

(** ** Throughput *)

Record device := mkDevice {
  dev_type : string;
  dev_cuda_name : string;                    (* torch.cuda.get_device_name *)
}.

(** [str.upper] and [s.replace(' ', '_')] *)
Definition upper_char (c : ascii) : ascii :=
  let n := nat_of_ascii c in if (Nat.leb 97 n && Nat.leb n 122)%nat then ascii_of_nat (n - 32) else c.

Fixpoint str_map (f : ascii -> ascii) (s : string) : string :=
  match s with EmptyString => EmptyString | String c s' => String (f c) (str_map f s') end.

Definition underscores : string -> string := str_map (fun c => if Ascii.eqb c " " then "_"%char else c).

Definition get_device_name (d : device) : string :=
  if String.eqb (dev_type d) "cuda" then dev_cuda_name d +:+ " GPU" else str_map upper_char (dev_type d).

(** [str(dtype).replace("torch.", "")] *)
Definition dtype_name (d : dtype) : string :=
  match d with
  | torch_bool => "bool" | torch_qint8 => "qint8" | torch_qint32 => "qint32" | torch_uint8 => "uint8" | torch_int64 => "int64"
  | torch_float16 => "float16" | torch_bfloat16 => "bfloat16" | torch_float32 => "float32" | torch_complex64 => "complex64"
  end.

(** [quant_type.name.lower()] *)
Definition quant_name (q : QuantType) : string := match q with QNONE => "none" | INT8 => "int8" | NF4 => "nf4" end.

Definition get_dtype_name (d : dtype) (q : QuantType) : string :=
  match q with QNONE => dtype_name d | _ => dtype_name d +:+ ", quantized to " +:+ quant_name q end.

Definition throughput_info : Type := list (string * pyfloat).

Definition cache_key (model_name : string) (dev : device) (d : dtype) (q : QuantType) (tensor_parallel_devices : list device) : string :=
  let key := "model_" +:+ model_name +:+ "_device_" +:+ underscores (get_device_name dev) +:+ "_dtype_" +:+ get_dtype_name d q in
  if 1 <? zlen tensor_parallel_devices then
    fold_left (fun k id => k +:+ "_tp" +:+ str_of_Z id.1 +:+ "_" +:+ underscores (get_device_name id.2))
      (zip (zrange 0 (zlen tensor_parallel_devices)) tensor_parallel_devices) key
  else key.

(** [relay_penalty = 0.2] *)
Definition relay_penalty : pyfloat := f_lit 2 10.

(** The cache file: what it holds if it can be read as a dictionary. *)
Definition read_cache (force_eval : bool) (file : option (list (string * throughput_info))) : list (string * throughput_info) :=
  if force_eval then [] else or_default file [].

(** [get_server_throughput]: the info announced and the new contents of the cache file, if it is written. *)
Definition get_server_throughput (model_name : string) (config_dtype : dtype_arg) (dev : device) (d : dtype_arg) (num_blocks : Z)
    (q : QuantType) (tensor_parallel_devices : list device) (reachable_via_relay force_eval : bool)
    (file : option (list (string * throughput_info))) (measured : throughput_info)
    : result throughput_info * option (list (string * throughput_info)) :=
  let key := cache_key model_name dev (resolve_block_dtype config_dtype d) q tensor_parallel_devices in
  let cache := read_cache force_eval file in
  let '(info, written) :=
    match dget cache key with
    | Some info => (info, None)
    | None => (measured, Some (dset cache key measured))
    end in
  (average_blocks_used ← py_fdiv (f_of_Z (num_blocks + 1)) (f_of_Z 2);
   forward_rps ← get_or KeyError (dget info "forward_rps");
   throughput ← py_fdiv forward_rps average_blocks_used;
   network_rps ← get_or KeyError (dget info "network_rps");
   let network_rps := f_mul network_rps (if reachable_via_relay then relay_penalty else f_one) in
   mret (dset info "throughput" (f_min throughput network_rps)), written).

(** The outcome of the speed test: it did not finish, it raised, or it gave the bits per second. *)
Inductive speedtest := NoAnswer | TestFailed | Speeds (download upload : pyfloat).

(** [100e6] *)
Definition default_speed : pyfloat := f_of_Z 100000000.

Definition measure_network_rps (hidden : Z) (outcome : speedtest) : result pyfloat :=
  let bits_per_request := f_of_Z (hidden * 16) in
  let network_rps :=
    match outcome with
    | Speeds download upload =>
        rps ← py_fdiv (f_min download upload) bits_per_request;
        _ ← raise_if (f_eq rps f_zero) RuntimeError;
        mret rps
    | _ => Err RuntimeError
    end in
  match network_rps with
  | Err RuntimeError => py_fdiv default_speed bits_per_request
  | r => r
  end.

(** [n_steps * n_tokens / elapsed] *)
Definition device_rps (n_steps n_tokens : Z) (elapsed : pyfloat) : result pyfloat := py_fdiv (f_of_Z (n_steps * n_tokens)) elapsed.

(** [_measure_bits_per_second] sends what the speed test says, or its exception. *)
Definition _measure_bits_per_second (results : result (pyfloat * pyfloat)) : speedtest :=
  match results with Ok (download, upload) => Speeds download upload | Err _ => TestFailed end.

(** [measure_compute_rps]: [forward] is the block on dummy inputs, with the cache that it returns, and [perf_counter] the
    clock after that many steps; the first step is not timed. *)
Definition bench_step {kv : Type} (forward : Z -> kv -> kv) (n_tokens : Z) (inference : bool) (cache : option kv) : option kv :=
  match cache with Some c => if inference then Some (forward n_tokens c) else None | None => None end.

Definition measure_compute_rps {kv : Type} (forward : Z -> kv -> kv) (perf_counter : Z -> pyfloat) (dummy : kv)
    (n_tokens n_steps : Z) (inference : bool) : option kv * result pyfloat :=
  let cache := bench_step forward n_tokens inference (Some dummy) in
  let start_time := perf_counter 1 in
  let cache := Nat.iter (Z.to_nat n_steps) (bench_step forward n_tokens inference) cache in
  (cache, device_rps n_steps n_tokens (f_sub (perf_counter (1 + n_steps)) start_time)).

(** [measure_throughput_info], from the seconds that the two benchmarks take. *)
Definition measure_throughput_info (hidden : Z) (inference_elapsed forward_elapsed : pyfloat) (outcome : speedtest) : result throughput_info :=
  inference ← device_rps 100 1 inference_elapsed;
  forward ← device_rps 10 1024 forward_elapsed;
  network ← measure_network_rps hidden outcome;
  mret [("inference_rps", inference); ("forward_rps", forward); ("network_rps", network)].
End host.

(** The benchmark of inference runs on caches that grow from step to step. *)
Lemma bench_cache (perf_counter : Z -> pyfloat) (n_tokens n_steps : Z) : 0 <= n_steps ->
  (measure_compute_rps (fun n c => c + n) perf_counter 0 n_tokens n_steps true).1 = Some ((n_steps + 1) * n_tokens).
Proof.
  intros Hn. unfold measure_compute_rps. cbn [fst bench_step].
  assert (H : forall k, Nat.iter k (bench_step (fun n c => c + n) n_tokens true) (Some (0 + n_tokens)) = Some ((Z.of_nat k + 1) * n_tokens)).
  { induction k as [|k IH]; [cbn; f_equal; lia|]. rewrite Nat.iter_succ, IH. cbn [bench_step]. f_equal. lia. }
  by rewrite H, Z2Nat.id.
Qed.

(** ** Freeing disk space *)

Definition paths (files : list cached_file) : list string := concat ((fun f => [cf_file_path f; cf_blob_path f]) <$> files).
Definition total_size (files : list cached_file) : Z := zsum (cf_size_on_disk <$> files).

Lemma paths_cons f files : paths (f :: files) = cf_file_path f :: cf_blob_path f :: paths files.
Proof. done. Qed.

Lemma total_size_cons f files : total_size (f :: files) = cf_size_on_disk f + total_size files.
Proof. done. Qed.

Lemma total_size_nil : total_size [] = 0.
Proof. done. Qed.

Lemma os_remove_ok gone p : p ∉ gone -> os_remove gone p = Ok (p :: gone).
Proof. intros. unfold os_remove. by rewrite decide_False. Qed.

(** The loop removes the shortest prefix that is enough, or everything. *)
Lemma remove_files_spec needed files gone removed freed :
  NoDup (paths files ++ gone) -> freed < needed ->
  exists k gone', remove_files needed files gone removed freed =
      (gone', Ok (removed ++ take k files, freed + total_size (take k files))) /\
    gone' ≡ₚ paths (take k files) ++ gone /\
    (forall j, (j < k)%nat -> freed + total_size (take j files) < needed) /\
    (needed <= freed + total_size (take k files) \/ k = length files /\ freed + total_size files < needed).
Proof.
  revert gone removed freed. induction files as [|f files IH]; intros gone removed freed Hnd Hlt.
  { exists 0%nat, gone. cbn [remove_files firstn length]. rewrite app_nil_r, total_size_nil, Z.add_0_r.
    split; [done|]. split; [done|]. split; [lia|]. right. split; [done|lia]. }
  rewrite paths_cons in Hnd. cbn [remove_files]. cbn [app] in Hnd. apply NoDup_cons in Hnd as [Hf Hnd].
  apply NoDup_cons in Hnd as [Hb Hnd].
  rewrite os_remove_ok by (intros H; apply Hf; set_solver).
  rewrite os_remove_ok by (apply not_elem_of_cons; split; [intros E; apply Hf; rewrite <- E; left|]; intros H; apply Hb; set_solver).
  destruct (Z.leb_spec needed (freed + cf_size_on_disk f)) as [Hle|Hgt].
  - exists 1%nat. eexists. rewrite firstn_cons, take_0, paths_cons, total_size_cons, total_size_nil, Z.add_0_r.
    split; [done|]. split; [by constructor|]. split; [|by left].
    intros j Hj. assert (j = 0%nat) as -> by lia. rewrite take_0, total_size_nil. lia.
  - destruct (IH (cf_blob_path f :: cf_file_path f :: gone) (removed ++ [f]) (freed + cf_size_on_disk f)) as (k & gone' & Hr & Hp & Hj & He).
    { rewrite <- !Permutation_middle. apply not_elem_of_cons in Hf as [Hne Hf]. constructor; [|by constructor].
      apply not_elem_of_cons. by split. }
    { lia. }
    exists (S k), gone'. rewrite Hr, <- app_assoc. rewrite firstn_cons, paths_cons, !total_size_cons.
    split; [by rewrite Z.add_assoc|]. split.
    + rewrite Hp. cbn [app]. rewrite <- !Permutation_middle. constructor.
    + split; [intros [|j] Hjk; [rewrite take_0, total_size_nil; lia|]; rewrite firstn_cons, total_size_cons; specialize (Hj j ltac:(lia)); lia|].
      destruct He as [He|[-> He]]; [left; lia|right; split; [done|lia]].
Qed.

Lemma by_last_access_sorted files :
  Forall (fun f => is_nan (cf_blob_last_accessed f) = false) files ->
  StronglySorted (fun f g => by_last_access g f = false) (py_sorted by_last_access files).
Proof.
  intros H. apply (py_sorted_sorted _ (fun f => is_nan (cf_blob_last_accessed f) = false)); [| |done]; unfold by_last_access.
  - intros f g. apply f_lt_asym.
  - intros f g h _ Hg _. by apply f_nlt_trans.
Qed.

Lemma sorted_take_drop {A} (R : A -> A -> Prop) l k x y :
  StronglySorted R l -> x ∈ take k l -> y ∈ drop k l -> R x y.
Proof.
  intros H. revert k. induction H as [|z l Hs IH Hall]; intros [|k] Hx Hy; simpl in *; try (by inversion Hx).
  apply elem_of_cons in Hx as [->|Hx]; [|by eapply IH].
  rewrite Forall_forall in Hall. apply Hall.
  rewrite <- (take_drop k l). apply elem_of_app. by right.
Qed.

Lemma total_size_perm files files' : files ≡ₚ files' -> total_size files = total_size files'.
Proof. induction 1; rewrite ?total_size_cons; lia. Qed.

Lemma total_size_nonneg files : Forall (fun f => 0 <= cf_size_on_disk f) files -> 0 <= total_size files.
Proof. induction 1; rewrite ?total_size_cons, ?total_size_nil; lia. Qed.

Lemma total_size_app files files' : total_size (files ++ files') = total_size files + total_size files'.
Proof. unfold total_size. by rewrite fmap_app, zsum_app. Qed.

(** When every cached file has paths of its own, the least recently used files are removed and no more of them
    than needed; the call fails exactly if removing all of them does not free enough. *)
Theorem free_disk_space_spec size free os_quota size_on_disk max_disk_space files :
  NoDup (paths files) -> Forall (fun f => is_nan (cf_blob_last_accessed f) = false) files ->
  Forall (fun f => 0 <= cf_size_on_disk f) files ->
  let needed := size - available_space free os_quota size_on_disk max_disk_space in
  let sorted := py_sorted by_last_access files in
  exists k gone, free_disk_space_for size free os_quota size_on_disk max_disk_space files =
      (gone, if needed <=? total_size files then Ok () else Err RuntimeError) /\
    gone ≡ₚ paths (take k sorted) /\
    (forall f g, f ∈ take k sorted -> g ∈ drop k sorted -> by_last_access g f = false) /\
    (forall j, (j < k)%nat -> total_size (take j sorted) < needed) /\
    (needed <= total_size (take k sorted) \/ k = length sorted).
Proof.
  intros Hnd Hnan Hpos needed sorted. pose proof (total_size_nonneg _ Hpos) as H0. unfold free_disk_space_for. fold needed.
  assert (Hperm : sorted ≡ₚ files) by apply py_sorted_perm. destruct (Z.leb_spec size (available_space free os_quota size_on_disk max_disk_space)).
  { exists 0%nat, []. rewrite (proj2 (Z.leb_le _ _)) by lia. split; [done|]. split; [done|]. split; [intros f g Hf; inversion Hf|].
    split; [lia|]. left. rewrite take_0, total_size_nil. lia. }
  destruct (remove_files_spec needed sorted [] [] 0) as (k & gone & Hr & Hp & Hj & He).
  { rewrite app_nil_r. unfold paths. by rewrite Hperm. }
  { lia. }
  exists k, gone. fold sorted. rewrite Hr, Z.add_0_l. split; [|split; [by rewrite app_nil_r in Hp|]].
  - f_equal. assert (total_size files = total_size (take k sorted) + total_size (drop k sorted)) as ->.
    { by rewrite <- total_size_app, take_drop, (total_size_perm _ _ Hperm). }
    assert (Hd : 0 <= total_size (drop k sorted)) by (apply total_size_nonneg, Forall_drop; by rewrite Hperm).
    unfold raise_if. destruct (Z.ltb_spec (total_size (take k sorted)) needed), (Z.leb_spec needed (total_size (take k sorted) + total_size (drop k sorted))); try done; [|lia].
    destruct He as [He|[-> He]]; [lia|]. rewrite drop_all, total_size_nil in *. lia.
  - split; [intros f g Hf Hg; exact (sorted_take_drop _ _ _ _ _ (by_last_access_sorted _ Hnan) Hf Hg)|]. split; [intros j Hjk; by apply Hj|].
    destruct He as [He|[-> _]]; [by left|by right].
Qed.

Definition small_file (name : string) (accessed size : Z) : cached_file :=
  mkCachedFile name ("blob-" +:+ name) (f_of_Z accessed) size.

Definition three_files : list cached_file := [small_file "a" 30 5; small_file "b" 10 4; small_file "c" 20 4].

Lemma free_disk_space_spec_witness :
  exists k gone, free_disk_space_for 12 6 1 0 None three_files = (gone, Ok ()) /\
    gone ≡ₚ paths (take k (py_sorted by_last_access three_files)) /\
    (forall f g, f ∈ take k (py_sorted by_last_access three_files) -> g ∈ drop k (py_sorted by_last_access three_files) ->
      by_last_access g f = false) /\
    (forall j, (j < k)%nat -> total_size (take j (py_sorted by_last_access three_files)) < 7) /\
    (7 <= total_size (take k (py_sorted by_last_access three_files)) \/ k = length (py_sorted by_last_access three_files)).
Proof.
  apply (free_disk_space_spec 12 6 1 0 None three_files); [|repeat constructor|repeat constructor; simpl; lia].
  apply (bool_decide_unpack _). reflexivity.
Defined.

(** Revisions of a model share blobs: when two of the files to remove have the same blob, removing it a second
    time raises and the space is not freed. *)
Theorem shared_blob_fails size free os_quota size_on_disk max_disk_space files f g rest :
  py_sorted by_last_access files = f :: g :: rest -> cf_blob_path f = cf_blob_path g ->
  cf_file_path f <> cf_blob_path f -> cf_file_path g <> cf_file_path f -> cf_file_path g <> cf_blob_path g ->
  cf_size_on_disk f < size - available_space free os_quota size_on_disk max_disk_space -> 0 <= cf_size_on_disk f ->
  exists gone, free_disk_space_for size free os_quota size_on_disk max_disk_space files = (gone, Err FileNotFoundError).
Proof.
  intros Hs Hb H1 H2 H3 Hlt Hpos. unfold free_disk_space_for. rewrite (proj2 (Z.leb_gt _ _)) by lia. rewrite Hs. cbn [remove_files].
  rewrite os_remove_ok by set_solver. rewrite os_remove_ok by set_solver. rewrite (proj2 (Z.leb_gt _ _)) by lia.
  rewrite os_remove_ok by (rewrite Hb; set_solver). unfold os_remove. rewrite decide_True by (rewrite Hb; set_solver). by eexists.
Qed.

Lemma shared_blob_fails_witness :
  exists gone, free_disk_space_for 12 6 1 0 None
    [mkCachedFile "rev1" "blob" (f_of_Z 1) 4; mkCachedFile "rev2" "blob" (f_of_Z 1) 4; small_file "c" 20 4] = (gone, Err FileNotFoundError).
Proof.
  apply (shared_blob_fails 12 6 1 0 None _ (mkCachedFile "rev1" "blob" (f_of_Z 1) 4) (mkCachedFile "rev2" "blob" (f_of_Z 1) 4) [small_file "c" 20 4]);
    try reflexivity; try discriminate; cbn; lia.
Defined.

(** ** The announced throughput *)

(** A measured throughput is measured once: with the cache file that the first run writes, any later run of the
    same model, device and dtype announces the same numbers without measuring again. *)
Theorem throughput_cached {TD : TorchDtypes} model cfg dev d n q tp relay file m m' info w :
  get_server_throughput model cfg dev d n q tp relay false file m = (Ok info, Some w) ->
  get_server_throughput model cfg dev d n q tp relay false (Some w) m' = (Ok info, None).
Proof.
  unfold get_server_throughput, read_cache. cbn [or_default].
  destruct (dget (or_default file []) _) eqn:E; intros H; pose proof (f_equal fst H) as H1; pose proof (f_equal snd H) as H2;
    cbn [fst snd] in H1, H2; [done|]. injection H2 as <-. rewrite dget_dset_eq. by rewrite H1.
Qed.

Definition measured_info : throughput_info :=
  [("inference_rps", f_of_Z 10); ("forward_rps", f_of_Z 300); ("network_rps", f_of_Z 90)].

Definition gpu : device := mkDevice "cuda" "A100".

Lemma throughput_cached_witness :
  exists info, get_server_throughput "m" DNone gpu DAuto 2 NF4 [gpu] false false
      (Some [(cache_key "m" gpu torch_bfloat16 NF4 [gpu], measured_info)]) [] = (Ok info, None).
Proof.
  eexists. refine (throughput_cached "m" DNone gpu DAuto 2 NF4 [gpu] false None measured_info [] _ _ _). reflexivity.
Defined.
