(* ===== verification/Reachability.v ===== *)
(** * Reachability: [server/reachability.py]

    Whether a server can be reached: asked of the central API, or of peers that try to connect back. *)

From S2P Require Import Prelude PyFloat DataStructures.

(** The loop of [validate_reachability] over attempts: the API says yes or no, or the request raises ([None]). *)
Fixpoint ask_api (attempts : nat) (attempt_no : nat) (answer : nat -> option bool) : result unit :=
  match attempts with
  | O => Err (if decide (attempt_no = O) then NameError else RuntimeError)
  | S n =>
      match answer attempt_no with
      | Some true => Ok ()
      | Some false => ask_api n (S attempt_no) answer
      | None => Ok ()
      end
  end.

(** [wait_time = 7 * 60], [retry_delay = 15] *)
Definition default_wait_time : pyfloat := f_of_Z 420.
Definition default_retry_delay : pyfloat := f_of_Z 15.

Definition validate_reachability (wait_time retry_delay : pyfloat) (answer : nat -> option bool) : result unit :=
  ratio ← py_fdiv wait_time retry_delay;
  n ← f_floor ratio;
  ask_api (Z.to_nat (n + 1)) 0 answer.

(** The loop of [check_direct_reachability]: each peer says whether it could connect, or does not answer. *)
Fixpoint probe_peers (max_peers : Z) (probes : list (option bool)) (successes requests : Z) : Z * Z :=
  match probes with
  | [] => (successes, requests)
  | None :: rest => probe_peers max_peers rest successes requests
  | Some available :: rest =>
      let successes := successes + (if available then 1 else 0) in
      let requests := requests + 1 in
      if max_peers <=? requests then (successes, requests) else probe_peers max_peers rest successes requests
  end.

(** [threshold = 0.5] *)
Definition default_threshold : pyfloat := f_lit 1 2.

Definition check_direct_reachability (max_peers : Z) (threshold : pyfloat) (probes : list (option bool)) : option bool :=
  let '(successes, requests) := probe_peers max_peers probes 0 0 in
  if 0 <? requests then Some (f_le threshold (f_div (f_of_Z successes) (f_of_Z requests))) else None.

(** [rpc_check]: about ourselves the answer is yes; about another peer we ask it ([None]: it did not respond). *)
Definition rpc_check {PI : PeerIds} (local_id check_peer : PeerID) (call_check : PeerID -> option bool) : bool :=
  if decide (check_peer = local_id) then true else bool_decide (call_check check_peer = Some true).

(** ** What the checks conclude *)

Definition count_true (l : list bool) : Z := zsum ((fun b : bool => if b then 1 else 0) <$> l).

Lemma count_true_cons b l : count_true (b :: l) = (if b then 1 else 0) + count_true l.
Proof. done. Qed.

Lemma probe_peers_spec max_peers probes s r :
  r < max_peers ->
  let answers := take (Z.to_nat (max_peers - r)) (somes probes) in
  probe_peers max_peers probes s r = (s + count_true answers, r + zlen answers).
Proof.
  revert s r. induction probes as [|[b|] probes IH]; intros s r Hr; cbn [probe_peers somes].
  - rewrite take_nil. unfold count_true, zlen. cbn. f_equal; lia.
  - replace (Z.to_nat (max_peers - r)) with (S (Z.to_nat (max_peers - (r + 1)))) by lia.
    cbn zeta. rewrite firstn_cons, count_true_cons, zlen_cons. destruct (Z.leb_spec max_peers (r + 1)).
    + replace (Z.to_nat (max_peers - (r + 1))) with 0%nat by lia. rewrite take_0. unfold count_true, zlen. cbn. f_equal; lia.
    + rewrite IH by lia. cbn zeta. f_equal; lia.
  - by apply IH.
Qed.

Lemma count_true_bounds l : 0 <= count_true l <= zlen l.
Proof. induction l as [|b l IH]; [done|]. rewrite count_true_cons, zlen_cons. destruct b; lia. Qed.

(** Five answers at most: the division is decided by cases. *)
Definition small_ratios : bool :=
  forallb (fun r => forallb (fun s => Bool.eqb (f_le default_threshold (f_div (f_of_Z s) (f_of_Z r))) (r <=? 2 * s)) (zrange 0 (r + 1)))
    (zrange 1 6).

Lemma small_ratio s r : 0 <= s <= r -> 0 < r <= 5 -> f_le default_threshold (f_div (f_of_Z s) (f_of_Z r)) = (r <=? 2 * s).
Proof.
  intros Hs Hr. assert (H : small_ratios = true) by reflexivity. unfold small_ratios in H. rewrite forallb_forall in H.
  specialize (H r ltac:(apply list_elem_of_In, elem_of_zrange; lia)). rewrite forallb_forall in H.
  specialize (H s ltac:(apply list_elem_of_In, elem_of_zrange; lia)). by apply Bool.eqb_prop in H.
Qed.

(** A server takes itself for directly reachable when at least half of the first five peers that answered could
    connect to it, and does not know when none answered. *)
Theorem check_direct_reachability_spec probes :
  check_direct_reachability 5 default_threshold probes =
    let answers := take 5 (somes probes) in
    if decide (answers = []) then None else Some (zlen answers <=? 2 * count_true answers).
Proof.
  unfold check_direct_reachability. rewrite probe_peers_spec by lia. cbn zeta. change (Z.to_nat (5 - 0)) with 5%nat.
  rewrite !Z.add_0_l. set (l := take 5 (somes probes)). assert (Hl : zlen l <= 5) by (unfold zlen, l; rewrite length_take; lia).
  pose proof (count_true_bounds l). destruct (Z.ltb_spec 0 (zlen l)) as [H0|H0]; case_decide as Hd; [by rewrite Hd in H0| | |].
  - rewrite small_ratio by lia. done.
  - done.
  - destruct l; [done|]. unfold zlen in H0. cbn in H0. lia.
Qed.

(** A server that the API never sees gives up after 29 attempts; any error of the API counts as success. *)
Theorem validate_reachability_spec answer :
  validate_reachability default_wait_time default_retry_delay answer =
    if decide (Forall (fun i => answer i = Some false) (seq 0 29)) then Err RuntimeError else Ok ().
Proof.
  change (validate_reachability default_wait_time default_retry_delay answer) with (ask_api 29 0 answer).
  assert (H : forall n i, (0 < n + i)%nat -> ask_api n i answer =
    if decide (Forall (fun i => answer i = Some false) (seq i n)) then Err RuntimeError else Ok ()).
  { induction n as [|n IH]; intros i Hi; cbn [ask_api seq]; [by rewrite decide_False by lia|].
    destruct (answer i) as [[]|] eqn:E.
    - rewrite decide_False; [done|]. by intros [? _]%Forall_cons; congruence.
    - rewrite IH by lia. apply decide_ext. rewrite Forall_cons. tauto.
    - rewrite decide_False; [done|]. by intros [? _]%Forall_cons; congruence. }
  apply H. lia.
Qed.
