(* ===== verification/ReachabilityService.v ===== *)
(** * ReachabilityService: [ReachabilityProtocol] of [server/reachability.py]

    The thread that serves the reachability protocol, one step per statement at which it may fail or be interrupted by
    [shutdown], which another thread may call at any time. *)

From S2P Require Import Prelude DataStructures Reachability.

(** ** Asking a peer *)

(** [call_check]: what the request gives, or [None] when it raises. *)
Definition call_check (request : result bool) : result (option bool) :=
  match request with
  | Ok available => Ok (Some available)
  | Err e => if is_Exception e then Ok None else Err e
  end.

(** The timeout of the request, given [wait_timeout]. *)
Definition check_timeout {PI : PeerIds} (wait_timeout : Z) (remote_peer check_peer : PeerID) : Z :=
  if decide (check_peer = remote_peer) then wait_timeout else wait_timeout * 2.

(** ** The thread *)

(** Where [_serve_with_probe] is: before each of its statements, with the exception on its way. *)
Inductive statement :=
  | Replicating
  | KeepingLoop
  | MakingStop
  | Listing
  | CreatingProbe
  | ReportingReady
  | AddingHandlers
  | Serving
  | RemovingHandlers (raised : option exn)
  | Failing (e : exn)
  | ClosingProbe
  | Ended.

Record service := mkService {
  rs_at : statement;
  rs_loop_kept : bool;               (* self._event_loop is not None *)
  rs_stop : option bool;             (* self._stop, and whether it is set *)
  rs_ready : option (result unit);   (* the future that [attach_to_dht] may wait for *)
  rs_probe : bool;                   (* the probe is open *)
  rs_handlers : bool;                (* handlers are registered *)
}.

(** [attach_to_dht] starts the thread. *)
Definition attached : service := mkService Replicating false None None false false.

Definition go_to (p : statement) (s : service) : service :=
  mkService p (rs_loop_kept s) (rs_stop s) (rs_ready s) (rs_probe s) (rs_handlers s).
Definition set_ready (r : result unit) (s : service) : service :=
  mkService (rs_at s) (rs_loop_kept s) (rs_stop s) (Some r) (rs_probe s) (rs_handlers s).
Definition set_stop (b : bool) (s : service) : service :=
  mkService (rs_at s) (rs_loop_kept s) (Some b) (rs_ready s) (rs_probe s) (rs_handlers s).
Definition set_probe (b : bool) (s : service) : service :=
  mkService (rs_at s) (rs_loop_kept s) (rs_stop s) (rs_ready s) b (rs_handlers s).
Definition set_handlers (b : bool) (s : service) : service :=
  mkService (rs_at s) (rs_loop_kept s) (rs_stop s) (rs_ready s) (rs_probe s) b.
Definition keep_loop (s : service) : service :=
  mkService (rs_at s) true (rs_stop s) (rs_ready s) (rs_probe s) (rs_handlers s).

(** [except Exception], then [finally]. *)
Definition raised (e : exn) (s : service) : service := go_to (if is_Exception e then Failing e else ClosingProbe) s.

(** A statement of the thread; [r] is what the library call in it gives. *)
Definition thread_step (r : result unit) (s : service) : service :=
  match rs_at s with
  | Replicating => match r with Ok _ => go_to KeepingLoop s | Err e => raised e s end
  | KeepingLoop => go_to MakingStop (keep_loop s)
  | MakingStop => go_to Listing (set_stop false s)
  | Listing => match r with Ok _ => go_to CreatingProbe s | Err e => raised e s end
  | CreatingProbe => match r with Ok _ => go_to ReportingReady (set_probe true s) | Err e => raised e s end
  | ReportingReady => go_to AddingHandlers (set_ready (Ok ()) s)
  | AddingHandlers =>
      (* some may be registered when adding them fails *)
      go_to match r with Ok _ => Serving | Err e => RemovingHandlers (Some e) end (set_handlers true s)
  | Serving =>
      match r with
      | Ok _ => match rs_stop s with Some true => go_to (RemovingHandlers None) s | _ => s end
      | Err e => go_to (RemovingHandlers (Some e)) s
      end
  | RemovingHandlers pending =>
      match r with
      | Ok _ => match pending with Some e => raised e (set_handlers false s) | None => go_to ClosingProbe (set_handlers false s) end
      | Err e => raised e s
      end
  | Failing e => go_to ClosingProbe (match rs_ready s with None => set_ready (Err e) s | Some _ => s end)
  | ClosingProbe =>
      if rs_probe s then match r with Ok _ => go_to Ended (set_probe false s) | Err _ => go_to Ended s end else go_to Ended s
  | Ended => s
  end.

(** [shutdown], from another thread: it is lost while the event does not exist, and raises when the loop is closed. *)
Definition service_shutdown (s : service) : service * result unit :=
  match rs_loop_kept s, rs_stop s with
  | true, Some _ => match rs_at s with Ended => (s, Err RuntimeError) | _ => (set_stop true s, Ok ()) end
  | _, _ => (s, Ok ())
  end.

Inductive action := Thread (r : result unit) | Shutdown.

Definition act (s : service) (a : action) : service :=
  match a with Thread r => thread_step r s | Shutdown => (service_shutdown s).1 end.

Definition run_service (s : service) (l : list action) : service := fold_left act l s.

(** ** What holds of every run *)

(** The statements while the handlers may be registered. *)
Definition serving (p : statement) : bool := match p with Serving | RemovingHandlers _ => true | _ => false end.

Record service_ok (s : service) : Prop := {
  so_early : match rs_at s with Replicating | KeepingLoop | MakingStop => rs_stop s = None | _ => True end;
  so_stop : rs_stop s = None -> match rs_at s with Replicating | KeepingLoop | MakingStop | Failing _ | ClosingProbe | Ended => True | _ => False end;
  so_loop : rs_loop_kept s = false -> match rs_at s with Replicating | KeepingLoop | Failing _ | ClosingProbe | Ended => True | _ => False end;
}.

Lemma attached_ok : service_ok attached.
Proof. constructor; cbn; auto; done. Qed.

Ltac service_cases s :=
  let p := fresh "p" in let ready := fresh "ready" in
  destruct s as [p ? [[]|] ready [] ?]; unfold thread_step, raised, service_shutdown; cbn in *;
  destruct p as [| | | | | | | |[?|]|?| |]; cbn in *.

Lemma act_ok s a : service_ok s -> service_ok (act s a).
Proof.
  intros [H1 H2 H3]. destruct a as [[[]|e]|]; cbn [act]; service_cases s; try destruct (is_Exception _);
    repeat (case_match; cbn in *); constructor; cbn; naive_solver.
Qed.

Lemma run_ok l s : service_ok s -> service_ok (run_service s l).
Proof. revert s. induction l as [|a l IH]; intros s H; [done|]. by apply IH, act_ok. Qed.

(** During the run of [l] a statement of [at_] failed. *)
Definition failed_at (at_ : statement -> bool) (l : list action) : Prop :=
  exists l1 e l2, l = l1 ++ Thread (Err e) :: l2 /\ at_ (rs_at (run_service attached l1)) = true.

Definition removing (p : statement) : bool := match p with RemovingHandlers _ => true | _ => false end.
Definition closing (p : statement) : bool := match p with ClosingProbe => true | _ => false end.

Lemma failed_at_more at_ l a : failed_at at_ l -> failed_at at_ (l ++ [a]).
Proof. intros (l1 & e & l2 & -> & H). exists l1, e, (l2 ++ [a]). by rewrite <- app_assoc. Qed.

(** The handlers are gone unless removing them failed; the probe is closed unless closing it failed. *)
Lemma run_releases l :
  (rs_handlers (run_service attached l) = true -> serving (rs_at (run_service attached l)) = true \/ failed_at removing l) /\
  (rs_probe (run_service attached l) = true -> rs_at (run_service attached l) <> Ended \/ failed_at closing l).
Proof.
  induction l as [|a l [IHh IHp]] using rev_ind; [done|].
  assert (Hnow : forall at_ e, a = Thread (Err e) -> at_ (rs_at (run_service attached l)) = true -> failed_at at_ (l ++ [a])).
  { intros at_ e -> H. by exists l, e, []. }
  assert (Hmore : forall at_, failed_at at_ l -> failed_at at_ (l ++ [a])) by (intros; by apply failed_at_more).
  pose proof (Hnow removing) as Hr. pose proof (Hnow closing) as Hc. pose proof (Hmore removing) as Hmr. pose proof (Hmore closing) as Hmc.
  clear Hnow Hmore. unfold run_service in *. rewrite fold_left_app. cbn [fold_left].
  generalize dependent (fold_left act l attached). intros s IHh IHp Hr Hc.
  destruct a as [[[]|e]|]; cbn [act]; service_cases s; try destruct (is_Exception _);
    repeat (case_match; cbn in *); split; cbn; intros Hx;
    first [done|by left|by right; eauto|destruct (IHh Hx); [done|by right; auto]|destruct (IHp Hx); [done|by right; auto]].
Qed.

(** ** Progress *)

Definition rank (p : statement) : nat :=
  match p with
  | Replicating => 11 | KeepingLoop => 10 | MakingStop => 9 | Listing => 8 | CreatingProbe => 7 | ReportingReady => 6 | AddingHandlers => 5
  | Serving => 4 | RemovingHandlers _ => 3 | Failing _ => 2 | ClosingProbe => 1 | Ended => 0
  end.

(** A statement of the thread makes progress, unless it waits for the event. *)
Lemma step_progress r s :
  (rank (rs_at (thread_step r s)) < rank (rs_at s))%nat \/ rs_at s = Ended \/ (rs_at s = Serving /\ rs_stop s <> Some true).
Proof.
  destruct r as [[]|e]; service_cases s; try destruct (is_Exception _); repeat (case_match; cbn in *);
    first [left; cbn; lia|right; left; done|by right; right].
Qed.

Definition thread_actions (l : list action) : nat := length (List.filter (fun a => match a with Thread _ => true | Shutdown => false end) l).

Lemma shutdown_keeps_place s : rs_at (service_shutdown s).1 = rs_at s.
Proof. by service_cases s; repeat (case_match; cbn in *). Qed.

(** Once the event is set it stays set, and the thread runs to its end. *)
Lemma stop_stays s a : service_ok s -> rs_stop s = Some true -> rs_stop (act s a) = Some true.
Proof.
  intros [He _ _] Hs. destruct a as [[[]|e]|]; cbn [act]; service_cases s; try done; try destruct (is_Exception _);
    repeat (case_match; cbn in *); done.
Qed.

Lemma stopped_ends l s : service_ok s -> rs_stop s = Some true -> (rank (rs_at s) <= thread_actions l)%nat ->
  rs_at (run_service s l) = Ended.
Proof.
  revert s. induction l as [|a l IH]; intros s Hok Hs Hr.
  - cbn in Hr |- *. destruct (rs_at s); cbn in Hr; first [done|lia].
  - cbn [run_service fold_left]. apply IH; [by apply act_ok|by apply stop_stays|].
    destruct a as [r|]; cbn [act].
    + unfold thread_actions in Hr |- *. cbn in Hr. destruct (step_progress r s) as [H|[H|[_ H]]]; [lia| |done].
      replace (thread_step r s) with s by (unfold thread_step; by rewrite H). rewrite H. cbn. lia.
    + rewrite shutdown_keeps_place. exact Hr.
Qed.

(** Exceptions of libraries are [Exception]s, which the thread catches. *)
Definition ordinary (a : action) : Prop := match a with Thread (Err e) => is_Exception e = true | _ => True end.

(** While the future is unresolved the thread is on its way to resolve it. *)
Definition unready (p : statement) : bool :=
  match p with Replicating | KeepingLoop | MakingStop | Listing | CreatingProbe | ReportingReady | Failing _ => true | _ => false end.

Definition ready_ok (s : service) : Prop := rs_ready s = None -> unready (rs_at s) = true.

Lemma act_ready_ok s a : ordinary a -> ready_ok s -> ready_ok (act s a).
Proof.
  unfold ready_ok. intros Ha H. destruct a as [[[]|e]|]; cbn [act ordinary] in *; service_cases s;
    try rewrite Ha; repeat (case_match; cbn in *); naive_solver.
Qed.

Lemma ready_stays s a : rs_ready s <> None -> rs_ready (act s a) <> None.
Proof.
  intros H. destruct a as [[[]|e]|]; cbn [act]; service_cases s; try destruct (is_Exception _); repeat (case_match; cbn in *); done.
Qed.

(** The future is resolved: nothing that waits for it hangs. *)
Lemma ready_after l s : Forall ordinary l -> ready_ok s ->
  rs_ready s <> None \/ (rank (rs_at s) <= thread_actions l)%nat -> rs_ready (run_service s l) <> None.
Proof.
  revert s. induction l as [|a l IH]; intros s Hl Hok H.
  - destruct H as [H|H]; [done|]. intros Hn. specialize (Hok Hn). destruct (rs_at s); cbn in *; first [done|lia].
  - apply Forall_cons in Hl as [Ha Hl]. cbn [run_service fold_left]. apply IH; [done|by apply act_ready_ok|].
    destruct (rs_ready s) as [x|] eqn:Er; [left; apply ready_stays; by rewrite Er|]. destruct H as [H|H]; [done|].
    right. specialize (Hok Er). destruct a as [r|]; cbn [act].
    + unfold thread_actions in H |- *. cbn in H. destruct (step_progress r s) as [H'|[H'|[H' _]]]; [lia|by rewrite H' in Hok..].
    + rewrite shutdown_keeps_place. exact H.
Qed.

(** C32: whatever fails and whenever the service is shut down, BaseExceptions included: when the thread has ended, the
    handlers are gone unless removing them failed itself, and, even then, the probe is closed unless closing it failed
    itself; a shutdown that finds the event is accepted and ends the thread within eleven statements. Who waits for the
    start gets an answer, unless a BaseException, which the thread does not catch, ended it. *)
Theorem reachability_service_ends l :
  let s := run_service attached l in
  (rs_at s = Ended -> (rs_handlers s = false \/ failed_at removing l) /\ (rs_probe s = false \/ failed_at closing l)) /\
  (rs_loop_kept s = true -> rs_stop s <> None -> rs_at s <> Ended -> (service_shutdown s).2 = Ok () /\
    forall l', (11 <= thread_actions l')%nat -> rs_at (run_service (service_shutdown s).1 l') = Ended) /\
  (Forall ordinary l -> (11 <= thread_actions l)%nat -> rs_ready s <> None).
Proof.
  intros s. assert (Hok : service_ok s) by apply run_ok, attached_ok. split_and!.
  - intros He. destruct (run_releases l) as [Hh Hp]. fold s in Hh, Hp. rewrite He in Hh, Hp.
    split; [destruct (rs_handlers s); [right; by destruct Hh|by left]|destruct (rs_probe s); [right; by destruct Hp|by left]].
  - clearbody s. intros Hk Hs He. assert (Hsd : service_shutdown s = (set_stop true s, Ok ())).
    { unfold service_shutdown. rewrite Hk. destruct (rs_stop s); [|done]. by destruct (rs_at s). }
    rewrite Hsd. split; [done|]. intros l' Hn. apply stopped_ends; [|done|].
    + change (set_stop true s) with (set_stop true s, Ok tt : result unit).1. rewrite <- Hsd. by apply (act_ok s Shutdown).
    + etrans; [|exact Hn]. cbn. destruct (rs_at s); cbn; lia.
  - intros Hl Hn. by apply ready_after; [| |right].
Qed.

(** The service starts, is shut down, fails to remove its handlers, and closes its probe. *)
Lemma reachability_service_ends_witness :
  let l := replicate 7 (Thread (Ok ())) ++ [Shutdown; Thread (Ok ()); Thread (Err ConnectionClosed)] ++ replicate 2 (Thread (Ok ())) in
  let s := run_service attached l in
  rs_at (run_service attached (replicate 7 (Thread (Ok ())))) = Serving /\ rs_at s = Ended /\ failed_at removing l /\ rs_probe s = false /\
  rs_ready s <> None.
Proof.
  intros l s.
  assert (Hno : ~ failed_at closing l).
  { intros (l1 & e & l2 & Hl & Hc). unfold l in Hl. cbn [replicate app] in Hl.
    do 13 (destruct l1 as [|? l1]; cbn in Hl;
      [first [discriminate Hl|injection Hl as <- <-; discriminate Hc]|first [discriminate Hl|injection Hl as <- Hl]]). }
  destruct (reachability_service_ends l) as (H & _ & Hr). split; [reflexivity|]. split; [reflexivity|].
  destruct (H eq_refl) as [[Hh|Hh] [Hp|Hp]]; try (by destruct (Hno Hp)).
  - vm_compute in Hh. done.
  - split; [exact Hh|]. split; [exact Hp|]. apply Hr; [by repeat constructor|cbn; lia].
Defined.

(** A shutdown before the event exists is lost: the service goes on. *)
Lemma early_shutdown_lost :
  service_shutdown (run_service attached [Thread (Ok ())]) = (run_service attached [Thread (Ok ())], Ok ()).
Proof. reflexivity. Qed.

(** A shutdown after the thread has ended raises: the loop is closed. *)
Lemma late_shutdown_raises s : rs_at s = Ended -> rs_loop_kept s = true -> rs_stop s <> None -> (service_shutdown s).2 = Err RuntimeError.
Proof. intros He Hk Hs. unfold service_shutdown. rewrite Hk, He. by destruct (rs_stop s). Qed.

(** So it does when the probe could not be created. *)
Lemma failed_start_shutdown_raises :
  (service_shutdown (run_service attached [Thread (Ok ()); Thread (Ok ()); Thread (Ok ()); Thread (Ok ()); Thread (Err ConnectionClosed);
    Thread (Ok ()); Thread (Ok ())])).2 = Err RuntimeError.
Proof. reflexivity. Qed.
