(* ===== verification/Announcer.v ===== *)
(** * Announcer: [server/announcer.py]

    The thread that periodically tells the swarm which blocks a container serves.  The container changes the
    [server_info] that the thread announces while it runs, so the thread is a step relation: one step per
    statement that reads or writes what they share. *)

From S2P Require Import Prelude PyString PyFloat PyDict DataStructures Utils Dht Backend.

Section announcer.
Context {PI : PeerIds} {PY : Pydantic} {RND : PyRandom} {TD : TorchDtypes} {TS : TimedStorage PeerID pyfloat}.

(** ** Assignments to fields of the shared [server_info] *)

Definition si_with_state (i : ServerInfo) (s : ServerState) : ServerInfo :=
  mkServerInfo s (si_throughput i) (si_start_block i) (si_end_block i) (si_public_name i) (si_version i)
    (si_network_rps i) (si_forward_rps i) (si_inference_rps i) (si_adapters i) (si_torch_dtype i) (si_quant_type i)
    (si_using_relay i) (si_cache_tokens_left i) (si_next_pings i).

Definition si_with_blocks (i : ServerInfo) (a b : Z) : ServerInfo :=
  mkServerInfo (si_state i) (si_throughput i) (Some a) (Some b) (si_public_name i) (si_version i)
    (si_network_rps i) (si_forward_rps i) (si_inference_rps i) (si_adapters i) (si_torch_dtype i) (si_quant_type i)
    (si_using_relay i) (si_cache_tokens_left i) (si_next_pings i).

Definition si_with_cache (i : ServerInfo) (n : Z) : ServerInfo :=
  mkServerInfo (si_state i) (si_throughput i) (si_start_block i) (si_end_block i) (si_public_name i) (si_version i)
    (si_network_rps i) (si_forward_rps i) (si_inference_rps i) (si_adapters i) (si_torch_dtype i) (si_quant_type i)
    (si_using_relay i) (Some n) (si_next_pings i).

Definition si_with_pings (i : ServerInfo) (pings : option (list (string * pyfloat))) : ServerInfo :=
  mkServerInfo (si_state i) (si_throughput i) (si_start_block i) (si_end_block i) (si_public_name i) (si_version i)
    (si_network_rps i) (si_forward_rps i) (si_inference_rps i) (si_adapters i) (si_torch_dtype i) (si_quant_type i)
    (si_using_relay i) (si_cache_tokens_left i) pings.

(** ** Construction *)

(** [DTYPE_MAP]: a dtype, or the string "auto" ([None]). *)
Definition DTYPE_MAP (name : string) : option (option dtype) :=
  if String.eqb name "bfloat16" then Some (Some torch_bfloat16)
  else if String.eqb name "float16" then Some (Some torch_float16)
  else if String.eqb name "float32" then Some (Some torch_float32)
  else if String.eqb name "auto" then Some None
  else None.

Record ModuleAnnouncerThread := mkAnnouncer {
  an_module_uids : list string;
  an_peer_id : PeerID;                        (* dht.peer_id *)
  an_model_info : ModelInfo;
  an_bytes_per_token : Z;
  an_update_period : pyfloat;
  an_expiration : pyfloat;
  an_dht_prefix : string;
  an_max_pinged : Z;
  an_next_uids : list string;
}.

(** [hidden_size * get_size_in_bytes(DTYPE_MAP[torch_dtype]) // num_key_value_groups]; "auto" has no size. *)
Definition bytes_per_token (config : PretrainedConfig) (torch_dtype : option string) : result Z :=
  name ← get_or KeyError torch_dtype;
  d ← get_or KeyError (DTYPE_MAP name);
  d ← get_or AttributeError d;
  zdiv (hidden_size config * get_size_in_bytes d) (num_key_value_groups config).

(** [min(l)] *)
Definition py_min_Z (l : list Z) : result Z :=
  match l with [] => Err ValueError | x :: l' => Ok (fold_left Z.min l' x) end.

(** The constructor; it also writes the blocks into [server_info]. *)
Definition announcer_init (module_uids : list string) (peer_id : PeerID) (info : ServerInfo) (model : ModelInfo)
    (config : PretrainedConfig) (update_period expiration : pyfloat) (max_pinged : Z)
    : result (ModuleAnnouncerThread * ServerInfo) :=
  per_token ← bytes_per_token config (si_torch_dtype info);
  first ← get_or IndexError (head module_uids);
  first ← parse_uid first;
  block_indices ← mapR (fun uid => p ← parse_uid uid; mret p.2) module_uids;
  start_block ← py_min_Z block_indices;
  last_block ← py_max block_indices;
  let next_uids := (fun i => make_uid first.1 i) <$> zrange (start_block + 1) (last_block + 1 + 1) in
  mret (mkAnnouncer module_uids peer_id model per_token update_period expiration first.1 max_pinged next_uids,
        si_with_blocks info start_block (last_block + 1)).

(** ** The thread and its caller *)

(** What the thread sees of its surroundings in one step. *)
Record environment := mkEnv {
  ev_bytes_left : Z;                                   (* memory_cache.bytes_left *)
  ev_found : string -> option DHTValue;                (* the contents of the DHT *)
  ev_rtt : PeerID -> pyfloat;                          (* the round-trip times measured *)
  ev_now : pyfloat;                                    (* get_dht_time() *)
  ev_seed : Z;
  ev_seed' : Z;
}.

(** The next statement of [run]. *)
Inductive pc := Top | Pinging | Declaring | Checking | Storing | Waiting | Clearing | Done | Crashed (e : exn).

(** [announce(state)] sets the state, then the trigger, then joins the thread if the state is OFFLINE. *)
Inductive caller := Idle | Announcing (s : ServerState) | Joining.

Definition model_entry : Type := string * string * pyval * pyfloat.

Record world := mkWorld {
  w_info : ServerInfo;
  w_trigger : bool;
  w_pc : pc;
  w_caller : caller;
  w_pings : PingAggregator;
  w_declared : list (list store_entry);               (* what was stored in the DHT, in order *)
  w_models : list model_entry;
}.

Definition at_pc (w : world) (p : pc) : world :=
  mkWorld (w_info w) (w_trigger w) p (w_caller w) (w_pings w) (w_declared w) (w_models w).

Definition with_info (w : world) (i : ServerInfo) (p : pc) : world :=
  mkWorld i (w_trigger w) p (w_caller w) (w_pings w) (w_declared w) (w_models w).

Definition start (info : ServerInfo) (pa : PingAggregator) : world := mkWorld info false Top Idle pa [] [].

(** The servers are pinged: a sample of those that hold the blocks after the first, and of those that hold the
    block after the last. *)
Definition servers_to_ping (a : ModuleAnnouncerThread) (e : environment) (infos : list RemoteModuleInfo) : result (list PeerID) :=
  let middle := remove_dups (concat ((fun m => dkeys (rm_servers m)) <$> removelast infos)) in
  let pinged := filter (fun p => p <> an_peer_id a) (sample_up_to (ev_seed e) middle (an_max_pinged a)) in
  last_info ← get_or IndexError (last infos);
  mret (remove_dups (pinged ++ sample_up_to (ev_seed' e) (dkeys (rm_servers last_info)) (an_max_pinged a))).

Definition _ping_next_servers (a : ModuleAnnouncerThread) (e : environment) (pa : PingAggregator) : result PingAggregator :=
  infos ← get_remote_module_infos (ev_found e) (an_next_uids a) None true;
  pinged ← servers_to_ping a e infos;
  mret (ping pa (ev_now e) ((fun p => (p, ev_rtt e p)) <$> pinged)).

(** One statement of the thread; [None] when it waits for the trigger or has ended. *)
Definition thread_step (a : ModuleAnnouncerThread) (e : environment) (w : world) : option world :=
  match w_pc w with
  | Top =>
      Some match zdiv (ev_bytes_left e) (an_bytes_per_token a) with
           | Err x => at_pc w (Crashed x)
           | Ok n =>
               let info := si_with_cache (w_info w) n in
               if decide (si_state info = OFFLINE) then with_info w (si_with_pings info None) Declaring
               else with_info w info Pinging
           end
  | Pinging =>
      Some match _ping_next_servers a e (w_pings w) with
           | Err x => at_pc w (Crashed x)
           | Ok pa =>
               let pings := (fun kv => (to_base58 kv.1, kv.2)) <$> pa_to_dict pa in
               mkWorld (si_with_pings (w_info w) (Some pings)) (w_trigger w) Declaring (w_caller w) pa (w_declared w) (w_models w)
           end
  | Declaring =>
      Some match declare_active_modules (an_peer_id a) (an_module_uids a) (w_info w) (f_add (ev_now e) (an_expiration a)) with
           | Err x => at_pc w (Crashed x)
           | Ok entries =>
               mkWorld (w_info w) (w_trigger w) Checking (w_caller w) (w_pings w) (w_declared w ++ [entries]) (w_models w)
           end
  | Checking =>
      Some (at_pc w (if decide (si_state (w_info w) = OFFLINE) then Done
                     else if String.prefix "_" (an_dht_prefix a) then Waiting else Storing))
  | Storing =>
      Some (mkWorld (w_info w) (w_trigger w) Waiting (w_caller w) (w_pings w) (w_declared w)
              (w_models w ++ [("_peerz.models", an_dht_prefix a, model_to_dict (an_model_info a),
                               f_add (ev_now e) (an_expiration a))]))
  | Waiting => if w_trigger w then Some (at_pc w Clearing) else None
  | Clearing => Some (mkWorld (w_info w) false Top (w_caller w) (w_pings w) (w_declared w) (w_models w))
  | Done | Crashed _ => None
  end.

(** [trigger.wait] also ends when the period has passed. *)
Inductive action :=
  | Thread (e : environment)
  | Timeout
  | SetState (s : ServerState)
  | SetTrigger
  | Joined.

Definition with_caller (w : world) (c : caller) : world :=
  mkWorld (w_info w) (w_trigger w) (w_pc w) c (w_pings w) (w_declared w) (w_models w).

(** The statements of [announce]. *)
Definition announce_state (s : ServerState) (w : world) : option world :=
  match w_caller w with
  | Idle => Some (with_caller (with_info w (si_with_state (w_info w) s) (w_pc w)) (Announcing s))
  | _ => None
  end.

Definition announce_trigger (w : world) : option world :=
  match w_caller w with
  | Announcing s =>
      Some (mkWorld (w_info w) true (w_pc w) (if decide (s = OFFLINE) then Joining else Idle) (w_pings w) (w_declared w) (w_models w))
  | _ => None
  end.

Definition announce_join (w : world) : option world :=
  match w_caller w, w_pc w with
  | Joining, (Done | Crashed _) => Some (with_caller w Idle)
  | _, _ => None
  end.

Definition step (a : ModuleAnnouncerThread) (x : action) (w : world) : option world :=
  match x with
  | Thread e => thread_step a e w
  | Timeout => match w_pc w with Waiting => Some (at_pc w Clearing) | _ => None end
  | SetState s => announce_state s w
  | SetTrigger => announce_trigger w
  | Joined => announce_join w
  end.

Fixpoint run (a : ModuleAnnouncerThread) (tr : list action) (w : world) : option world :=
  match tr with
  | [] => Some w
  | x :: tr' => w' ← step a x w; run a tr' w'
  end.
End announcer.

(** ** What the thread guarantees *)

Section announcer_proofs.
Context {PI : PeerIds} {PY : Pydantic} {RND : PyRandom} {TD : TorchDtypes} {TS : TimedStorage PeerID pyfloat}.
Context (a : ModuleAnnouncerThread).
Implicit Types (w : world) (tr : list action) (s : ServerState).

(** A thread that [announcer_init] makes has uids that can be declared and a next block to look for. *)
Definition announcer_ok : Prop :=
  an_bytes_per_token a <> 0 /\ an_next_uids a <> [] /\ an_module_uids a <> [] /\
  Forall (fun uid => str_contains UID_DELIMITER uid = true /\ str_contains CHAIN_DELIMITER uid = false) (an_module_uids a).

(** The last announcement in the DHT, for all uids, says [s]. *)
Definition announced w s : Prop :=
  exists info t, last (w_declared w) = Some (_declare_active_modules (an_peer_id a) (an_module_uids a) info t) /\ si_state info = s.

Definition crashed w : Prop := exists x, w_pc w = Crashed x.

(** Reachable from the start by any interleaving of the thread and its caller. *)
Definition reachable w : Prop := exists info pa tr, run a tr (start info pa) = Some w.

Lemma run_trace_app tr tr' w : run a (tr ++ tr') w = (w' ← run a tr w; run a tr' w').
Proof. revert w. induction tr as [|x tr IH]; intros w; simpl; [done|]. destruct (step a x w); simpl; auto. Qed.

Lemma run_snoc tr x w w' : run a tr w = Some w' -> run a (tr ++ [x]) w = step a x w'.
Proof. intros H. rewrite run_trace_app, H. simpl. by destruct (step a x w'). Qed.

(** Invariants of single steps are invariants of runs. *)
Lemma run_ind (P : world -> Prop) (ok : action -> Prop) :
  (forall x w w', ok x -> P w -> step a x w = Some w' -> P w') ->
  forall tr w w', Forall ok tr -> P w -> run a tr w = Some w' -> P w'.
Proof.
  intros Hstep tr. induction tr as [|x tr IH]; intros w w' Htr HP Hrun; simpl in Hrun; [by injection Hrun as <-|].
  apply Forall_cons in Htr as [Hx Htr]. destruct (step a x w) as [w1|] eqn:E; simpl in Hrun; [|done]. eauto.
Qed.

Lemma reachable_ind (P : world -> Prop) :
  (forall info pa, P (start info pa)) -> (forall x w w', P w -> step a x w = Some w' -> P w') ->
  forall w, reachable w -> P w.
Proof.
  intros Hs Hx w (info & pa & tr & H). eapply (run_ind P (fun _ => True)); [|by apply Forall_true|apply Hs|exact H]. eauto.
Qed.

Lemma reachable_step x w w' : reachable w -> step a x w = Some w' -> reachable w'.
Proof. intros (info & pa & tr & H) Hx. exists info, pa, (tr ++ [x]). by rewrite (run_snoc _ _ _ _ H). Qed.

Lemma reachable_run tr w w' : reachable w -> run a tr w = Some w' -> reachable w'.
Proof. intros (info & pa & t & H) Hx. exists info, pa, (t ++ tr). by rewrite run_trace_app, H. Qed.

(** Opens a step: which action, and for the thread which statement. *)
Ltac step_cases H :=
  match type of H with step _ ?x _ = Some _ =>
    destruct x as [e| |s| |]; cbn [step] in H;
    [unfold thread_step in H
    |
    |unfold announce_state in H
    |unfold announce_trigger in H
    |unfold announce_join in H]
  end.

Lemma last_snoc_list {A} (l : list A) x : last (l ++ [x]) = Some x.
Proof. by rewrite last_app. Qed.

Lemma declare_ok w t :
  announcer_ok -> declare_active_modules (an_peer_id a) (an_module_uids a) (w_info w) t =
    Ok (_declare_active_modules (an_peer_id a) (an_module_uids a) (w_info w) t).
Proof.
  intros (_ & _ & _ & Hu). unfold declare_active_modules. assert (forallb (fun uid => str_contains UID_DELIMITER uid
    && negb (str_contains CHAIN_DELIMITER uid)) (an_module_uids a) = true) as ->; [|done].
  apply forallb_forall. intros uid Hin. rewrite Forall_forall in Hu. apply list_elem_of_In in Hin.
  destruct (Hu uid Hin) as [-> ->]. done.
Qed.

Lemma ping_ok e pa : announcer_ok -> exists pa', _ping_next_servers a e pa = Ok pa'.
Proof.
  intros (_ & Hn & _). unfold _ping_next_servers, servers_to_ping.
  destruct (module_infos_total (ev_found e) (an_next_uids a) None) as (ms & -> & Hm & _). simpl.
  destruct (last ms) as [m|] eqn:E; simpl; [by eexists|]. exfalso. apply Hn. apply last_None in E as ->. by rewrite <- Hm.
Qed.

(** The thread never raises. *)
Lemma never_crashes x w w' : announcer_ok -> ~ crashed w -> step a x w = Some w' -> ~ crashed w'.
Proof.
  intros Hok Hw H. unfold crashed in *. step_cases H.
  - destruct (w_pc w) eqn:E.
    + unfold zdiv in H. destruct Hok as [Hz _]. destruct (an_bytes_per_token a =? 0) eqn:E0; zbool; [done|]. simpl in H.
      case_decide; injection H as <-; simpl; by intros [].
    + destruct (ping_ok e (w_pings w) Hok) as [pa' Hp]. rewrite Hp in H. injection H as <-. simpl. by intros [].
    + rewrite declare_ok in H by done. injection H as <-. simpl. by intros [].
    + injection H as <-. simpl. case_decide; [by intros []|]. destruct (String.prefix _ _); by intros [].
    + injection H as <-. simpl. by intros [].
    + destruct (w_trigger w); [|done]. injection H as <-. simpl. by intros [].
    + injection H as <-. simpl. by intros [].
    + done.
    + done.
  - destruct (w_pc w); try done. injection H as <-. simpl. by intros [].
  - destruct (w_caller w); try done. by injection H as <-.
  - destruct (w_caller w); try done. by injection H as <-.
  - destruct (w_caller w), (w_pc w) eqn:E; try done; injection H as <-; simpl; rewrite E; done.
Qed.

(** ** No announcement is lost *)

(** Past the declaration, what was declared is the current state, or the thread will be woken. *)
Definition told w : Prop :=
  match w_pc w with
  | Checking | Storing | Waiting => announced w (si_state (w_info w)) \/ w_trigger w = true \/ exists s, w_caller w = Announcing s
  | _ => True
  end.

Lemma told_step x w w' : told w -> step a x w = Some w' -> told w'.
Proof.
  intros Hw H. unfold told in *. step_cases H.
  - destruct (w_pc w) eqn:E.
    + destruct (zdiv _ _); [|by injection H as <-]. case_decide; by injection H as <-.
    + destruct (_ping_next_servers _ _ _); by injection H as <-.
    + unfold declare_active_modules in H. destruct (assert_ _); simpl in H; [|by injection H as <-].
      injection H as <-. simpl. left. exists (w_info w), (f_add (ev_now e) (an_expiration a)). split; [|done].
      apply last_snoc_list.
    + injection H as <-. simpl. case_decide; [done|]. by destruct (String.prefix _ _).
    + by injection H as <-.
    + destruct (w_trigger w); [|done]. by injection H as <-.
    + by injection H as <-.
    + done.
    + done.
  - destruct (w_pc w); try done. by injection H as <-.
  - destruct (w_caller w); try done. injection H as <-. simpl. destruct (w_pc w); eauto.
  - destruct (w_caller w); try done. injection H as <-. simpl. destruct (w_pc w); auto.
  - destruct (w_caller w), (w_pc w) eqn:E; try done; injection H as <-; simpl; by rewrite E.
Qed.

(** C28: The thread never sleeps through a change of state: whenever it waits for the next period, no announcement is
    in progress and the trigger is not set, the last thing stored in the DHT is the current state. *)
Theorem no_lost_announcement w :
  reachable w -> w_pc w = Waiting -> w_trigger w = false -> (forall s, w_caller w <> Announcing s) ->
  announced w (si_state (w_info w)).
Proof.
  intros Hw Hpc Htr Hc. assert (H : told w).
  { revert w Hw Hpc Htr Hc. intros w Hw _ _ _. revert w Hw. apply reachable_ind; [done|apply told_step]. }
  unfold told in H. rewrite Hpc in H. destruct H as [H|[H|[s H]]]; [done|congruence|by destruct (Hc s)].
Qed.

(** ** Leaving *)

(** The thread touches neither its caller nor the announced state. *)
Lemma thread_frame e w w' :
  thread_step a e w = Some w' -> w_caller w' = w_caller w /\ si_state (w_info w') = si_state (w_info w).
Proof.
  unfold thread_step. destruct (w_pc w); intros H; try done.
  - destruct (zdiv _ _); [|by injection H as <-]. case_decide; by injection H as <-.
  - destruct (_ping_next_servers _ _ _); by injection H as <-.
  - destruct (declare_active_modules _ _ _ _); by injection H as <-.
  - by injection H as <-.
  - by injection H as <-.
  - destruct (w_trigger w); [|done]. by injection H as <-.
  - by injection H as <-.
Qed.

(** A caller that waits for the end has set the state and the trigger, and the thread will see it. *)
Definition leaving w : Prop :=
  match w_caller w with
  | Announcing s => si_state (w_info w) = s
  | Joining => si_state (w_info w) = OFFLINE /\ (w_pc w = Storing \/ w_pc w = Waiting -> w_trigger w = true)
  | Idle => True
  end.

Lemma thread_leaving e w w' : leaving w -> thread_step a e w = Some w' -> leaving w'.
Proof.
  intros Hw H. destruct (thread_frame e w w' H) as [Hc Hs]. unfold leaving in *. rewrite Hc, Hs.
  destruct (w_caller w); [done|done|]. destruct Hw as [Hoff Ht]. split; [done|].
  unfold thread_step in H. destruct (w_pc w) eqn:E; try done.
  - destruct (zdiv _ _); [case_decide|]; injection H as <-; simpl; by intros [].
  - destruct (_ping_next_servers _ _ _); injection H as <-; simpl; by intros [].
  - destruct (declare_active_modules _ _ _ _); injection H as <-; simpl; by intros [].
  - rewrite decide_True in H by done. injection H as <-. simpl. by intros [].
  - injection H as <-. simpl. auto.
  - rewrite Ht in H by auto. injection H as <-. simpl. by intros [].
  - injection H as <-. simpl. by intros [].
Qed.

Lemma leaving_step x w w' : leaving w -> step a x w = Some w' -> leaving w'.
Proof.
  intros Hw H. step_cases H.
  - by eapply thread_leaving.
  - unfold leaving in *. destruct (w_pc w) eqn:E; try done. injection H as <-. simpl. destruct (w_caller w); try done.
    destruct Hw. split; [done|]. by intros [].
  - destruct (w_caller w); try done. by injection H as <-.
  - unfold leaving in *. destruct (w_caller w); try done. injection H as <-. simpl. by case_decide; subst.
  - destruct (w_caller w), (w_pc w) eqn:E; try done; by injection H as <-.
Qed.

Lemma reachable_leaving w : reachable w -> leaving w.
Proof. revert w. apply reachable_ind; [done|apply leaving_step]. Qed.

(** The steps that are left until the thread ends, once it is told to. *)
Definition steps_left (p : pc) : nat :=
  match p with
  | Storing => 6 | Waiting => 5 | Clearing => 4 | Top => 3 | Pinging => 3 | Declaring => 2 | Checking => 1 | Done | Crashed _ => 0
  end.

Lemma leaving_thread e w :
  announcer_ok -> leaving w -> w_caller w = Joining -> ~ crashed w -> w_pc w <> Done ->
  exists w', thread_step a e w = Some w' /\ S (steps_left (w_pc w')) = steps_left (w_pc w).
Proof.
  intros Hok Hw Hc Hcr Hd. unfold leaving in Hw. rewrite Hc in Hw. destruct Hw as [Hoff Ht]. unfold thread_step.
  destruct (w_pc w) eqn:E; try done.
  - unfold zdiv. destruct Hok as [Hz _]. destruct (an_bytes_per_token a =? 0) eqn:E0; zbool; [done|].
    rewrite decide_True by done. eauto.
  - destruct (ping_ok e (w_pings w) Hok) as [pa ->]. eauto.
  - rewrite declare_ok by done. eauto.
  - rewrite decide_True by done. eauto.
  - eauto.
  - rewrite Ht by auto. eauto.
  - eauto.
  - exfalso. apply Hcr. by eexists.
Qed.

(** C30: [announce(OFFLINE)] returns: from whatever point it is called at, the thread ends after at most six more of
    its statements, whatever it finds in the DHT, and the join then succeeds. *)
Theorem offline_stops w es :
  announcer_ok -> reachable w -> w_caller w = Joining -> ~ crashed w -> (6 <= length es)%nat ->
  exists n w', (n <= 6)%nat /\ run a (Thread <$> take n es) w = Some w' /\ w_pc w' = Done /\
    exists w'', step a Joined w' = Some w'' /\ w_caller w'' = Idle.
Proof.
  intros Hok Hw Hc Hcr Hl. exists (steps_left (w_pc w)). apply reachable_leaving in Hw.
  assert (Hle : (steps_left (w_pc w) <= 6)%nat) by (destruct (w_pc w); simpl; lia).
  remember (steps_left (w_pc w)) as n eqn:En. assert (Hn : (n <= length es)%nat) by lia. clear Hl.
  revert w es En Hw Hc Hcr Hn. induction n as [|n IH]; intros w es En Hw Hc Hcr Hn.
  - exists w. rewrite take_0. split; [done|]. split; [done|].
    assert (Hd : w_pc w = Done) by (destruct (w_pc w) eqn:E; try done; exfalso; apply Hcr; by eexists).
    split; [done|]. simpl. unfold announce_join. rewrite Hc, Hd. by eexists.
  - destruct es as [|e es]; [simpl in Hn; lia|]. rewrite firstn_cons.
    destruct (leaving_thread e w) as (w1 & H1 & Hs); try done; [by intros E; rewrite E in En|].
    destruct (thread_frame e w w1 H1) as [Hc1 _].
    destruct (IH ltac:(lia) w1 es) as (w' & _ & Hrun & H); [lia|by eapply thread_leaving|congruence|
      by eapply (never_crashes (Thread e))|simpl in Hn; lia|].
    exists w'. split; [done|]. split; [|done]. rewrite fmap_cons. simpl. rewrite H1. exact Hrun.
Qed.

(** OFFLINE, and told so if the thread is past its last declaration. *)
Definition offline w : Prop :=
  si_state (w_info w) = OFFLINE /\ (w_pc w = Checking \/ w_pc w = Done -> announced w OFFLINE).

Lemma offline_step x w w' :
  (forall s, x <> SetState s) -> offline w -> step a x w = Some w' -> offline w'.
Proof.
  intros Hx (Hs & Ha) H. unfold offline. step_cases H.
  - destruct (thread_frame e w w' H) as [_ ->]. split; [done|]. unfold thread_step in H. destruct (w_pc w) eqn:E; try done.
    + destruct (zdiv _ _); [case_decide|]; injection H as <-; simpl; by intros [].
    + destruct (_ping_next_servers _ _ _); injection H as <-; simpl; by intros [].
    + unfold declare_active_modules in H. destruct (assert_ _); simpl in H; injection H as <-; simpl; [|by intros []].
      intros _. eexists _, _. by split; [apply last_snoc_list|].
    + injection H as <-. intros _. apply Ha. by left.
    + injection H as <-. simpl. by intros [].
    + destruct (w_trigger w); [|done]. injection H as <-. simpl. by intros [].
    + injection H as <-. simpl. by intros [].
  - destruct (w_pc w); try done. injection H as <-. split; [done|]. simpl. by intros [].
  - by destruct (Hx s).
  - destruct (w_caller w); try done. by injection H as <-.
  - destruct (w_caller w), (w_pc w) eqn:E; try done; injection H as <-;
      (split; [done|]); simpl; rewrite E; [exact Ha|by intros []].
Qed.

(** A container that leaves is announced as offline: if [announce(OFFLINE)] is called while the thread is not
    between its declaration and the check of the state, then however the two interleave from there, the last thing
    the DHT holds when the thread has ended is OFFLINE, for every block. *)
Theorem offline_announced w w1 tr w2 :
  w_pc w <> Checking -> w_pc w <> Done -> step a (SetState OFFLINE) w = Some w1 ->
  Forall (fun x => forall s, x <> SetState s) tr -> run a tr w1 = Some w2 -> w_pc w2 = Done ->
  announced w2 OFFLINE.
Proof.
  intros Hp1 Hp2 H1 Htr Hrun Hd.
  assert (H : offline w2) by (eapply (run_ind offline); [|exact Htr| |exact Hrun]; [intros; by eapply offline_step|];
    simpl in H1; unfold announce_state in H1; destruct (w_caller w); try done; injection H1 as <-; (split; [done|]); simpl;
    by intros []).
  apply H. by right.
Qed.

(** Otherwise it is not: if the state is set to OFFLINE after the thread has declared the blocks and before it
    checks the state, the thread ends, [announce] returns, and the DHT keeps the previous state until it expires. *)
Theorem offline_race w e :
  w_pc w = Checking -> w_caller w = Idle ->
  exists w', run a [SetState OFFLINE; Thread e; SetTrigger; Joined] w = Some w' /\ w_pc w' = Done /\ w_caller w' = Idle /\
    w_declared w' = w_declared w.
Proof.
  intros Hp Hc. simpl. unfold announce_state. rewrite Hc. simpl. unfold thread_step. cbn [w_pc with_caller with_info]. rewrite Hp.
  simpl. by eexists.
Qed.

(** ** The constructor *)

Lemma fold_min_zrange a0 b x : x <= a0 -> fold_left Z.min (zrange a0 b) x = x.
Proof.
  intros H. unfold zrange. remember (Z.to_nat (b - a0)) as n eqn:En. revert a0 En H.
  induction n as [|n IH]; intros a0 En H; [by rewrite seqZ_nil by lia|].
  rewrite seqZ_cons by lia. simpl. rewrite Z.min_l by done. replace (Z.pred (b - a0)) with (b - (a0 + 1)) by lia.
  apply IH; lia.
Qed.

Lemma fold_max_zrange a0 b x : x + 1 = a0 -> a0 <= b -> fold_left Z.max (zrange a0 b) x = b - 1.
Proof.
  unfold zrange. remember (Z.to_nat (b - a0)) as n eqn:En. revert a0 x En.
  induction n as [|n IH]; intros a0 x En H Hb; [rewrite seqZ_nil by lia; simpl; lia|].
  rewrite seqZ_cons by lia. simpl. replace (Z.max x a0) with a0 by lia.
  replace (Z.pred (b - a0)) with (b - (a0 + 1)) by lia. apply IH; lia.
Qed.

Lemma mapR_fmap_ok {A B C} (f : B -> result C) (g : A -> B) (h : A -> C) l :
  (forall x, f (g x) = Ok (h x)) -> mapR f (g <$> l) = Ok (h <$> l).
Proof.
  intros H. induction l as [|x l IH]; [done|]. rewrite !fmap_cons. cbn [mapR]. by rewrite H, IH.
Qed.

Lemma make_uid_contains p i : str_contains UID_DELIMITER (make_uid p i) = true.
Proof. unfold make_uid. rewrite str_contains_app. simpl. apply orb_true_r. Qed.
End announcer_proofs.

(** The announcer of a container that serves the blocks [s .. e - 1] announces exactly them, and watches the
    blocks that a request may need next, [s + 1 .. e]; it never raises. *)
Theorem announcer_init_ok {PI : PeerIds} {TD : TorchDtypes} prefix s e peer info model config up ex k d :
  valid_prefix prefix = true -> s < e -> si_torch_dtype info = Some d -> DTYPE_MAP d <> None -> DTYPE_MAP d <> Some None ->
  0 < num_key_value_groups config <= hidden_size config ->
  exists a, announcer_init ((fun i => make_uid prefix i) <$> zrange s e) peer info model config up ex k =
      Ok (a, si_with_blocks info s e) /\ announcer_ok a /\ an_dht_prefix a = prefix /\
    an_module_uids a = (fun i => make_uid prefix i) <$> zrange s e /\
    an_next_uids a = (fun i => make_uid prefix i) <$> zrange (s + 1) (e + 1).
Proof.
  intros Hp Hse Hd Hd1 Hd2 Hg. unfold announcer_init, bytes_per_token. rewrite Hd. simpl.
  destruct (DTYPE_MAP d) as [[ty|]|] eqn:Em; [|done|done]. simpl. unfold zdiv. rewrite (proj2 (Z.eqb_neq _ _)) by lia. simpl.
  rewrite (mapR_fmap_ok _ _ id) by (intros; simpl; by rewrite parse_make_uid).
  rewrite list_fmap_id. rewrite (zrange_cons s e) by lia. simpl. rewrite parse_make_uid by done. simpl.
  rewrite fold_min_zrange, fold_max_zrange by lia. simpl.
  replace (e - 1 + 1) with e by lia. eexists. split; [reflexivity|]. split; [|done].
  pose proof (get_size_in_bytes_pos ty). repeat split; cbn [an_bytes_per_token an_next_uids an_module_uids].
  - assert (1 <= hidden_size config * get_size_in_bytes ty / num_key_value_groups config); [|lia].
    apply Z.div_le_lower_bound; [lia|]. nia.
  - by rewrite zrange_cons by lia.
  - done.
  - assert (H1 : forall i, str_contains UID_DELIMITER (make_uid prefix i) = true /\ str_contains CHAIN_DELIMITER (make_uid prefix i) = false).
    { intros i. split; [apply make_uid_contains|by apply make_uid_no_chain]. }
    constructor; [apply H1|]. by apply Forall_fmap, Forall_true.
Qed.

(** ** Witnesses *)

Definition own_peer : @PeerID ZPeerIds := 1.

#[global] Instance PlainPings : TimedStorage (@PeerID ZPeerIds) pyfloat := {|
  ts_storage := list (@PeerID ZPeerIds * pyfloat);
  ts_get := dget;
  ts_store s k v _ := dset s k v;
  ts_items s := s;
|}.

Definition server_info_of (s : ServerState) : ServerInfo :=
  mkServerInfo s f_one None None None None None None None [] (Some "float16") None None None None.

Definition announcer_config : PretrainedConfig := mkPretrained 4 2 1 None.

Definition example_announcer : ModuleAnnouncerThread :=
  match announcer_init ((fun i => make_uid "m" i) <$> zrange 0 2) own_peer (server_info_of JOINING) (mkModelInfo 4 None)
          announcer_config f_one f_one 5 with
  | Ok (a, _) => a
  | Err _ => mkAnnouncer [] own_peer (mkModelInfo 4 None) 0 f_one f_one "" 0 []
  end.

Definition quiet : environment := mkEnv 80 (fun _ => None) (fun _ => f_one) f_one 0 0.

Definition no_pings : PingAggregator := mkPing f_one f_one ([] : @ts_storage _ _ PlainPings).

Definition announcer_start : world := start (server_info_of JOINING) no_pings.

Lemma announcer_init_ok_witness :
  exists a, announcer_init ((fun i => make_uid "m" i) <$> zrange 0 2) own_peer (server_info_of JOINING) (mkModelInfo 4 None)
      announcer_config f_one f_one 5 = Ok (a, si_with_blocks (server_info_of JOINING) 0 2) /\ announcer_ok a /\
    an_dht_prefix a = "m" /\ an_module_uids a = (fun i => make_uid "m" i) <$> zrange 0 2 /\
    an_next_uids a = (fun i => make_uid "m" i) <$> zrange 1 3.
Proof.
  apply (announcer_init_ok "m" 0 2 own_peer (server_info_of JOINING) (mkModelInfo 4 None) announcer_config f_one f_one 5 "float16");
    [reflexivity|lia|reflexivity|done|done|simpl; lia].
Defined.

(** Five statements of the thread: it has announced and waits. *)
Definition waiting_trace : list action := replicate 5 (Thread quiet).
Definition checking_trace : list action := replicate 3 (Thread quiet).
Definition leaving_trace : list action := waiting_trace ++ [SetState OFFLINE; SetTrigger].

Definition world_after (tr : list action) : world := default announcer_start (run example_announcer tr announcer_start).

Definition runs (tr : list action) : bool :=
  match run example_announcer tr announcer_start with Some _ => true | None => false end.

Lemma world_after_run tr : runs tr = true -> run example_announcer tr announcer_start = Some (world_after tr).
Proof. unfold runs, world_after. by destruct (run example_announcer tr announcer_start). Qed.

Lemma world_after_app tr tr' :
  runs (tr ++ tr') = true -> run example_announcer tr' (world_after tr) = Some (world_after (tr ++ tr')).
Proof.
  intros H. apply world_after_run in H. revert H. rewrite run_trace_app. unfold world_after at 2.
  by destruct (run example_announcer tr announcer_start).
Qed.

Lemma reachable_after tr w : run example_announcer tr announcer_start = Some w -> reachable example_announcer w.
Proof. intros H. by exists (server_info_of JOINING), no_pings, tr. Qed.

Lemma example_announcer_ok : announcer_ok example_announcer.
Proof. repeat split; [discriminate..|]. repeat constructor. Qed.

Lemma no_lost_announcement_witness : announced example_announcer (world_after waiting_trace) JOINING.
Proof.
  apply (no_lost_announcement example_announcer (world_after waiting_trace)); [|reflexivity|reflexivity|discriminate].
  apply (reachable_after waiting_trace), world_after_run. reflexivity.
Defined.

Lemma offline_stops_witness :
  exists n w', (n <= 6)%nat /\ run example_announcer (Thread <$> take n (replicate 6 quiet)) (world_after leaving_trace) = Some w' /\
    w_pc w' = Done /\ exists w'', step example_announcer Joined w' = Some w'' /\ w_caller w'' = Idle.
Proof.
  apply (offline_stops example_announcer (world_after leaving_trace) (replicate 6 quiet));
    [exact example_announcer_ok| |reflexivity|intros [? [=]]|simpl; lia].
  apply (reachable_after leaving_trace), world_after_run. reflexivity.
Defined.

Definition stopped_trace : list action := [SetTrigger; Thread quiet; Thread quiet; Thread quiet; Thread quiet; Thread quiet].

Lemma stopped_trace_ok : Forall (fun x : action => forall s, x <> SetState s) stopped_trace.
Proof. unfold stopped_trace. repeat (apply Forall_cons; split; [intros s E; discriminate E|]). apply Forall_nil_2. Qed.

Lemma set_offline_step :
  step example_announcer (SetState OFFLINE) (world_after waiting_trace) = Some (world_after (waiting_trace ++ [SetState OFFLINE])).
Proof.
  pose proof (world_after_app waiting_trace [SetState OFFLINE] eq_refl) as H. cbn [run] in H.
  destruct (step example_announcer (SetState OFFLINE) (world_after waiting_trace)); [exact H|discriminate H].
Qed.

Lemma offline_announced_witness :
  announced example_announcer (world_after ((waiting_trace ++ [SetState OFFLINE]) ++ stopped_trace)) OFFLINE.
Proof.
  apply (offline_announced example_announcer (world_after waiting_trace) (world_after (waiting_trace ++ [SetState OFFLINE])) stopped_trace);
    [discriminate|discriminate|exact set_offline_step|exact stopped_trace_ok|apply world_after_app; reflexivity|reflexivity].
Defined.

Lemma offline_race_witness :
  exists w', run example_announcer [SetState OFFLINE; Thread quiet; SetTrigger; Joined] (world_after checking_trace) = Some w' /\
    w_pc w' = Done /\ w_caller w' = Idle /\ w_declared w' = w_declared (world_after checking_trace).
Proof. apply (offline_race example_announcer (world_after checking_trace) quiet); reflexivity. Defined.
