(* ===== verification/BlockLoading.v ===== *)
(** * BlockLoading: [server/from_pretrained.py]

    The weights of one block of a model: finding the files of a repository that hold them, locally or on the hub,
    downloading with room on the disk, and putting the tensors into the block. *)

From S2P Require Import Prelude PyString PyFloat PyDict DataStructures Utils Backend BlockFunctions HostResources Announcer.

(** ** Strings *)

(** [s[len(prefix):]] *)
Definition str_drop (n : nat) (s : string) : string := String.substring n (String.length s - n) s.

(** [s.endswith(suffix)] *)
Definition str_ends_with (suffix s : string) : bool :=
  (String.length suffix <=? String.length s)%nat &&
  String.eqb (str_drop (String.length s - String.length suffix) s) suffix.

(** [always_needs_auth] of [utils/hf_auth.py]: a model name that is not a directory. *)
Definition always_needs_auth (is_dir : string -> bool) (model_name : option string) : bool :=
  match model_name with
  | Some name => negb (is_dir name) && String.prefix "meta-llama/Llama-2-" name
  | None => false
  end.

(** [Optional[Union[str, bool]]] *)
Inductive auth_token := TokenStr (s : string) | TokenBool (b : bool).

(** The token that [_load_state_dict_from_repo] uses. *)
Definition effective_token (is_dir : string -> bool) (model_name : string) (token : option auth_token) : option auth_token :=
  if always_needs_auth is_dir (Some model_name) && match token with None => true | Some _ => false end
  then Some (TokenBool true) else token.

Section loading.
Context {TD : TorchDtypes}.
Context {tensor : Type} (tensor_dtype : tensor -> dtype) (cast : dtype -> tensor -> tensor).

Definition StateDict : Type := list (string * tensor).

(** ** Files

    [read_file] is [torch.load] or [safe_open] on a path; both can raise. *)
Context (read_file : string -> result StateDict).

Definition has_prefix (block_prefix : string) (kv : string * tensor) : bool := String.prefix block_prefix kv.1.

Definition _load_state_dict_from_local_file (path : string) (block_prefix : option string) : result StateDict :=
  if str_ends_with ".bin" path then read_file path
  else if str_ends_with ".safetensors" path then
    d ← read_file path;
    Ok (match block_prefix with
        | None => d
        | Some p => List.filter (has_prefix p) d
        end)
  else Err ValueError.

(** ** Downloads

    What an attempt finds: the size of the file on the hub, the state of the disk, the path after the download. *)
Record download := mkDownload {
  dl_file_size : result (option Z);
  dl_free : Z;
  dl_size_on_disk : Z;
  dl_cached_files : list cached_file;
  dl_path : result (option string);
}.

(** [os_quota = 1024**3] *)
Definition os_quota : Z := 1024 ^ 3.

Definition try_download (max_disk_space : option Z) (a : download) (block_prefix : option string) : result StateDict :=
  size ← dl_file_size a;
  _ ← match size with
      | Some n => (free_disk_space_for n (dl_free a) os_quota (dl_size_on_disk a) max_disk_space (dl_cached_files a)).2
      | None => Ok ()
      end;
  path ← dl_path a;
  path ← get_or RuntimeError path;
  _load_state_dict_from_local_file path block_prefix.

(** [while True], with a pause after every [Exception]; [None]: no attempt has succeeded yet. *)
Fixpoint download_loop (max_disk_space : option Z) (attempts : list download) (block_prefix : option string)
    : option (result StateDict) :=
  match attempts with
  | [] => None
  | a :: rest =>
      match try_download max_disk_space a block_prefix with
      | Ok d => Some (Ok d)
      | Err e => if is_Exception e then download_loop max_disk_space rest block_prefix else Some (Err e)
      end
  end.

(** The first part of [_load_state_dict_from_repo_file]: [cached] is the path in the local cache, if the file is there. *)
Definition load_cached (cached : result (option string)) (block_prefix : option string) : result (option StateDict) :=
  path ← cached;
  match path with
  | Some p => d ← _load_state_dict_from_local_file p block_prefix; Ok (Some d)
  | None => Ok None
  end.

Definition _load_state_dict_from_repo_file (cached : result (option string)) (max_disk_space : option Z)
    (attempts : list download) (block_prefix : option string) : option (result StateDict) :=
  match load_cached cached block_prefix with
  | Ok (Some d) => Some (Ok d)
  | Ok None => download_loop max_disk_space attempts block_prefix
  | Err e => if is_Exception e then download_loop max_disk_space attempts block_prefix else Some (Err e)
  end.

(** ** Repositories *)

Definition INDEX_FILES : list string :=
  ["model.safetensors.index.json"; "model.safetensors"; "pytorch_model.bin.index.json"; "pytorch_model.bin"].

(** The answer of [get_hf_file_metadata]. *)
Inductive metadata_answer := FileExists | EntryNotFoundError | MetadataError (e : exn).

(** A repository as a server sees it: the local cache and the hub at the revision asked for, the index at the
    default revision ([None] path: not there), and the downloads of every file. *)
Record repository := mkRepo {
  rp_cached : string -> result (option string);
  rp_metadata : string -> metadata_answer;
  rp_index_path : string -> result (option string);
  rp_read_index : string -> result (list (string * string));   (* weight_map *)
  rp_downloads : string -> list download;
}.

Fixpoint find_cached (r : repository) (files : list string) : result (option string) :=
  match files with
  | [] => Ok None
  | filename :: rest =>
      path ← rp_cached r filename;
      match path with Some _ => Ok (Some filename) | None => find_cached r rest end
  end.

Fixpoint find_on_hub (r : repository) (files : list string) : result string :=
  match files with
  | [] => Err ValueError
  | filename :: rest =>
      match rp_metadata r filename with
      | FileExists => Ok filename
      | EntryNotFoundError => find_on_hub r rest
      | MetadataError e => Err e
      end
  end.

Definition _find_index_file (r : repository) : result string :=
  found ← find_cached r INDEX_FILES;
  match found with Some f => Ok f | None => find_on_hub r INDEX_FILES end.

(** The set of files that hold the parameters of the block. *)
Definition block_files (block_prefix : string) (weight_map : list (string * string)) : list string :=
  remove_dups (snd <$> List.filter (fun pf => String.prefix block_prefix pf.1) weight_map).

Definition index_filenames (r : repository) (index_file block_prefix : string) : result (list string) :=
  if str_ends_with ".index.json" index_file then
    path ← rp_index_path r index_file;
    path ← get_or ValueError path;
    weight_map ← rp_read_index r path;
    let filenames := block_files block_prefix weight_map in
    _ ← raise_if (zlen filenames =? 0) RuntimeError;
    Ok filenames
  else Ok [index_file].

(** The parameters of the block in a shard, under their names in the block. *)
Definition strip_shard (block_prefix : string) (shard : StateDict) : StateDict :=
  (fun kv => (str_drop (String.length block_prefix) kv.1, kv.2)) <$> List.filter (has_prefix block_prefix) shard.

Fixpoint load_shards (r : repository) (block_prefix : string) (max_disk_space : option Z) (filenames : list string)
    (state_dict : StateDict) : option (result StateDict) :=
  match filenames with
  | [] => Some (Ok state_dict)
  | filename :: rest =>
      match _load_state_dict_from_repo_file (rp_cached r filename) max_disk_space (rp_downloads r filename)
              (Some block_prefix) with
      | None => None
      | Some (Err e) => Some (Err e)
      | Some (Ok shard) =>
          load_shards r block_prefix max_disk_space rest (dupdate state_dict (strip_shard block_prefix shard))
      end
  end.

(** [hub]: the repository as it answers with a token. *)
Definition _load_state_dict_from_repo (is_dir : string -> bool) (hub : option auth_token -> repository) (model_name : string)
    (token : option auth_token) (block_prefix : string) (max_disk_space : option Z) : option (result StateDict) :=
  let r := hub (effective_token is_dir model_name token) in
  match (index_file ← _find_index_file r; index_filenames r index_file block_prefix) with
  | Err e => Some (Err e)
  | Ok filenames => load_shards r block_prefix max_disk_space filenames []
  end.

(** ** Blocks *)

(** An empty block: the names of its parameters, and of all it loads from a state dict. *)
Record empty_block := mkEmptyBlock {
  eb_parameters : list string;
  eb_keys : list string;
}.

(** [str(param.dtype).startswith(("torch.uint", "torch.int", "torch.bool"))] *)
Definition keeps_dtype (d : dtype) : bool :=
  String.prefix "uint" (dtype_name d) || String.prefix "int" (dtype_name d) || String.prefix "bool" (dtype_name d).

Definition convert_param (torch_dtype : dtype) (param : tensor) : tensor :=
  if keeps_dtype (tensor_dtype param) then param else cast torch_dtype param.

(** [f"{config.block_prefix}.{block_index}."] *)
Definition make_block_prefix (prefix : string) (block_index : Z) : string :=
  prefix +:+ "." +:+ str_of_Z block_index +:+ ".".

(** [torch_dtype in DTYPE_MAP.values()] *)
Definition known_dtype (d : dtype_arg) : bool :=
  match d with
  | DType d => bool_decide (d ∈ [torch_bfloat16; torch_float16; torch_float32])
  | DAuto => true
  | DNone => false
  end.

(** [load_pretrained_block]: the parameters that the block gets. *)
Definition load_pretrained_block (is_dir : string -> bool) (hub : option auth_token -> repository) (model_name : string)
    (token : option auth_token) (config_prefix : string) (block_index : Z) (config_dtype torch_dtype : dtype_arg)
    (block : empty_block) (max_disk_space : option Z) : option (result StateDict) :=
  if negb (known_dtype torch_dtype) then Some (Err AssertionError)
  else
    let d := resolve_block_dtype config_dtype torch_dtype in
    match _load_state_dict_from_repo is_dir hub model_name token (make_block_prefix config_prefix block_index) max_disk_space with
    | None => None
    | Some (Err e) => Some (Err e)
    | Some (Ok state_dict) =>
        Some (_ ← assert_ (forallb (fun k => dmem state_dict k) (eb_keys block));
              mapR (fun name =>
                      param ← get_or AssertionError (dget state_dict name);
                      Ok (name, convert_param d param)) (eb_parameters block))
    end.
End loading.

(** ** Prefixes *)

Lemma str_drop_0 s : str_drop 0 s = s.
Proof. unfold str_drop. rewrite Nat.sub_0_r. induction s as [|c s IH]; simpl; [done|]. by rewrite IH. Qed.

Lemma str_drop_app p s : str_drop (String.length p) (p +:+ s) = s.
Proof.
  induction p as [|c p IH]; [apply str_drop_0|]. unfold str_drop in *. cbn [String.length String.append String.substring Nat.sub].
  exact IH.
Qed.

Lemma prefix_split p s : String.prefix p s = true <-> s = p +:+ str_drop (String.length p) s.
Proof.
  split.
  - revert s. induction p as [|c p IH]; intros s H; [by rewrite str_drop_0|].
    destruct s as [|c' s]; [done|]. cbn [String.prefix] in H. destruct (ascii_dec c c') as [->|]; [|done].
    change (String c' s = String c' (p +:+ str_drop (String.length p) s)). f_equal. by apply IH.
  - intros ->. generalize (str_drop (String.length p) s). intros t. clear s.
    induction p as [|c p IH]; [by destruct t|]. simpl. destruct (ascii_dec c c); [exact IH|done].
Qed.

Lemma append_inj p s t : p +:+ s = p +:+ t -> s = t.
Proof. intros H. by rewrite <- (str_drop_app p s), H, str_drop_app. Qed.

(** ** What is loaded *)

Section loading_proofs.
Context {TD : TorchDtypes}.
Context {tensor : Type} (tensor_dtype : tensor -> dtype) (cast : dtype -> tensor -> tensor).
Abbreviation StateDict := (@StateDict tensor).
Context (read_file : string -> result StateDict).
Implicit Types (d shard whole : StateDict).

(** All tensors of [d] are tensors of [whole]. *)
Definition part_of whole d : Prop := forall k v, (k, v) ∈ d -> dget whole k = Some v.

(** The paths at which a file of the repository can be found. *)
Definition path_of (r : repository) (filename path : string) : Prop :=
  rp_cached r filename = Ok (Some path) \/
  exists a, a ∈ rp_downloads r filename /\ dl_path a = Ok (Some path).

(** The files that hold a whole model. *)
Definition whole_file (filename : string) : Prop := filename ∈ ["model.safetensors"; "pytorch_model.bin"].

(** An index of the repository says that the tensor [k] is in the file [f]. *)
Definition indexed (r : repository) (k f : string) : Prop :=
  exists path weight_map, rp_read_index r path = Ok weight_map /\ (k, f) ∈ weight_map.

(** A repository of the model [whole]: its files hold tensors of the model and no others, a file that is not split
    holds all of them, a shard those that an index says, and an index says it of every tensor. *)
Record intact (r : repository) whole : Prop := {
  it_part : forall f path d, path_of r f path -> read_file path = Ok d -> part_of whole d;
  it_covers : forall path weight_map k v, rp_read_index r path = Ok weight_map -> dget whole k = Some v ->
    exists f, (k, f) ∈ weight_map;
  it_holds : forall f path d k v, path_of r f path -> read_file path = Ok d ->
    whole_file f \/ indexed r k f -> dget whole k = Some v -> (k, v) ∈ d;
}.

Lemma elem_filter_list {A} (f : A -> bool) (l : list A) x : x ∈ List.filter f l <-> f x = true /\ x ∈ l.
Proof. rewrite !list_elem_of_In, filter_In. tauto. Qed.

(** A local file gives its tensors of the block, and perhaps others. *)
Lemma local_file_spec path p d :
  _load_state_dict_from_local_file read_file path (Some p) = Ok d ->
  exists all, read_file path = Ok all /\ (forall kv, kv ∈ d -> kv ∈ all) /\
    forall kv, kv ∈ all -> has_prefix p kv = true -> kv ∈ d.
Proof.
  unfold _load_state_dict_from_local_file. destruct (str_ends_with ".bin" path); [intros H; eauto|].
  destruct (str_ends_with ".safetensors" path); [|done].
  destruct (read_file path) as [all|e] eqn:E; [|done]. cbn. intros [= <-]. exists all.
  split; [done|]. split; intros kv; rewrite elem_filter_list; tauto.
Qed.

(** The first attempt that succeeds decides, after failures that are [Exception]s. *)
Lemma download_loop_ok max_disk_space attempts p d :
  download_loop read_file max_disk_space attempts p = Some (Ok d) <->
  exists before a rest, attempts = before ++ a :: rest /\ try_download read_file max_disk_space a p = Ok d /\
    Forall (fun b => exists e, try_download read_file max_disk_space b p = Err e /\ is_Exception e = true) before.
Proof.
  split.
  - induction attempts as [|a attempts IH]; cbn [download_loop]; [done|].
    destruct (try_download read_file max_disk_space a p) as [d'|e] eqn:E.
    + intros [= ->]. by exists [], a, attempts.
    + destruct (is_Exception e) eqn:Ee; [|done]. intros (before & b & rest & -> & Hb & Hf)%IH.
      exists (a :: before), b, rest. split; [done|]. split; [done|]. constructor; eauto.
  - intros (before & a & rest & -> & Ha & Hf). induction Hf as [|b before (e & Hb & He) _ IH]; cbn.
    + by rewrite Ha.
    + by rewrite Hb, He.
Qed.

Lemma try_download_path max_disk_space a p d :
  try_download read_file max_disk_space a (Some p) = Ok d ->
  exists path, dl_path a = Ok (Some path) /\ _load_state_dict_from_local_file read_file path (Some p) = Ok d.
Proof.
  unfold try_download. destruct (dl_file_size a) as [size|]; [|done]. cbn.
  destruct (match size with Some n => _ | None => _ end) as [[]|]; [|done]. cbn.
  destruct (dl_path a) as [[path|]|]; [|done|done]. cbn. intros H. by exists path.
Qed.

(** However a file is loaded, it comes from one of its paths. *)
Lemma repo_file_path r f max_disk_space p d :
  _load_state_dict_from_repo_file read_file (rp_cached r f) max_disk_space (rp_downloads r f) (Some p) = Some (Ok d) ->
  exists path, path_of r f path /\ _load_state_dict_from_local_file read_file path (Some p) = Ok d.
Proof.
  assert (Hdl : download_loop read_file max_disk_space (rp_downloads r f) (Some p) = Some (Ok d) ->
    exists path, path_of r f path /\ _load_state_dict_from_local_file read_file path (Some p) = Ok d).
  { intros (before & a & rest & Hl & Ha & _)%download_loop_ok.
    apply try_download_path in Ha as (path & Hp & Hload). exists path. split; [|done].
    right. exists a. split; [|done]. rewrite Hl. apply elem_of_app. right. left. }
  unfold _load_state_dict_from_repo_file, load_cached.
  destruct (rp_cached r f) as [[path|]|e] eqn:Ec; cbn; [|done|].
  - destruct (_load_state_dict_from_local_file read_file path (Some p)) as [d'|e] eqn:El; cbn.
    + intros [= <-]. exists path. split; [by left|done].
    + by destruct (is_Exception e).
  - by destruct (is_Exception e).
Qed.

(** *** Shards *)

Lemma dget_dupdate_shard d shard k :
  (forall v v', (k, v) ∈ shard -> (k, v') ∈ shard -> v = v') ->
  (forall v, (k, v) ∈ shard -> dget (dupdate d shard) k = Some v) /\
  ((forall v, (k, v) ∉ shard) -> dget (dupdate d shard) k = dget d k).
Proof.
  induction shard as [|[k1 v1] shard IH] using rev_ind; intros Huniq; [split; [intros v Hin; by inversion Hin|done]|].
  destruct IH as [Hin Hout]; [intros ????; apply Huniq; apply elem_of_app; by left|].
  unfold dupdate in *. rewrite fold_left_app. cbn [fold_left fst snd]. rewrite dget_dset. destruct (decide (k1 = k)) as [->|Hk].
  - assert (H1 : (k, v1) ∈ shard ++ [(k, v1)]) by (apply elem_of_app; right; by left).
    split; [intros v Hv; by rewrite (Huniq _ _ Hv H1)|intros Hno; by destruct (Hno v1)].
  - split.
    + intros v [Hv|Hv]%elem_of_app; [by apply Hin|]. apply list_elem_of_singleton in Hv. congruence.
    + intros Hno. apply Hout. intros v Hv. apply (Hno v), elem_of_app. by left.
Qed.

Lemma elem_strip_shard p shard k v : (k, v) ∈ strip_shard p shard <-> (p +:+ k, v) ∈ shard.
Proof.
  unfold strip_shard. rewrite list_elem_of_fmap. split.
  - intros ([k' v'] & [= -> ->] & [Hp Hin]%elem_filter_list). apply prefix_split in Hp. cbn [fst snd] in *. by rewrite <- Hp.
  - intros Hin. exists (p +:+ k, v). cbn [fst snd]. rewrite str_drop_app. split; [done|]. apply elem_filter_list.
    split; [apply prefix_of_app|done].
Qed.

(** What is loaded so far: only tensors of the model, under their names in the block. *)
Definition stripped (p : string) whole d : Prop := forall k v, dget d k = Some v -> dget whole (p +:+ k) = Some v.

Lemma load_shards_spec r p max_disk_space whole files d d' :
  intact r whole -> stripped p whole d ->
  load_shards read_file r p max_disk_space files d = Some (Ok d') ->
  stripped p whole d' /\ (forall k v, dget d k = Some v -> dget d' k = Some v) /\
  forall f k v, f ∈ files -> whole_file f \/ indexed r (p +:+ k) f -> dget whole (p +:+ k) = Some v ->
    dget d' k = Some v.
Proof.
  intros Hint. revert d. induction files as [|f files IH]; intros d Hd; cbn [load_shards].
  - intros [= <-]. split; [done|]. split; [done|]. intros f k v Hin. by inversion Hin.
  - destruct (_load_state_dict_from_repo_file _ _ _ _ _) as [[shard|e]|] eqn:Ef; [|done|done].
    apply repo_file_path in Ef as (path & Hpath & Hload). apply local_file_spec in Hload as (all & Hread & Hsub & Hall).
    assert (Hpart : forall k v, (k, v) ∈ strip_shard p shard -> dget whole (p +:+ k) = Some v).
    { intros k v Hin%elem_strip_shard. by eapply (it_part r whole Hint), Hsub. }
    assert (Hu : forall k v v', (k, v) ∈ strip_shard p shard -> (k, v') ∈ strip_shard p shard -> v = v').
    { intros k v v' H1%Hpart H2%Hpart. congruence. }
    assert (Hd1 : stripped p whole (dupdate d (strip_shard p shard)) /\
      forall k v, dget d k = Some v -> dget (dupdate d (strip_shard p shard)) k = Some v).
    { split; intros k v Hk; destruct (dget_dupdate_shard d (strip_shard p shard) k (Hu k)) as [Hin Hout];
        destruct (decide (k ∈ dkeys (strip_shard p shard))) as [Hkey|Hkey].
      - apply list_elem_of_fmap in Hkey as ([k' v'] & -> & Hkv). cbn in *. rewrite (Hin v' Hkv) in Hk.
        injection Hk as <-. by apply Hpart.
      - rewrite Hout in Hk; [by apply Hd|]. intros v' Hv. apply Hkey, list_elem_of_fmap. by exists (k, v').
      - apply list_elem_of_fmap in Hkey as ([k' v'] & -> & Hkv). cbn in *. rewrite (Hin v' Hkv).
        pose proof (Hpart _ _ Hkv) as H1. pose proof (Hd _ _ Hk) as H2. congruence.
      - rewrite Hout; [done|]. intros v' Hv. apply Hkey, list_elem_of_fmap. by exists (k, v'). }
    destruct Hd1 as [Hs1 Hm1]. intros Hrun. apply IH in Hrun as (Hs & Hm & Hk); [|done].
    split; [done|]. split; [by eauto|]. intros f' k v [->|Hin]%elem_of_cons Hholds Hw; [|by eapply Hk].
    apply Hm. apply (dget_dupdate_shard d (strip_shard p shard) k (Hu k)). apply elem_strip_shard, Hall.
    + by eapply (it_holds r whole Hint).
    + apply prefix_of_app.
Qed.

(** *** Repositories *)

Lemma elem_block_files p weight_map k f : (p +:+ k, f) ∈ weight_map -> f ∈ block_files p weight_map.
Proof.
  intros Hin. apply elem_of_remove_dups, list_elem_of_fmap. exists (p +:+ k, f). split; [done|].
  apply elem_filter_list. split; [apply prefix_of_app|done].
Qed.

Lemma find_cached_elem r files f : find_cached r files = Ok (Some f) -> f ∈ files.
Proof.
  induction files as [|g files IH]; cbn [find_cached]; [done|]. destruct (rp_cached r g) as [[path|]|]; cbn; [|intros H|done].
  - intros [= ->]. by left.
  - right. by apply IH.
Qed.

Lemma find_on_hub_elem r files f : find_on_hub r files = Ok f -> f ∈ files.
Proof.
  induction files as [|g files IH]; cbn [find_on_hub]; [done|]. destruct (rp_metadata r g); [|intros H|done].
  - intros [= ->]. by left.
  - right. by apply IH.
Qed.

Lemma find_index_elem r f : _find_index_file r = Ok f -> f ∈ INDEX_FILES.
Proof.
  unfold _find_index_file. destruct (find_cached r INDEX_FILES) as [[g|]|] eqn:E; cbn [mbind result_bind]; [|intros H|done].
  - intros [= ->]. by apply find_cached_elem in E.
  - by apply find_on_hub_elem in H.
Qed.

(** The files to load hold every tensor of the block. *)
Lemma index_filenames_cover r whole index_file p files k v :
  intact r whole -> index_file ∈ INDEX_FILES -> index_filenames r index_file p = Ok files ->
  dget whole (p +:+ k) = Some v -> exists f, f ∈ files /\ (whole_file f \/ indexed r (p +:+ k) f).
Proof.
  intros Hint Hf Hfiles Hv. unfold index_filenames in Hfiles. destruct (str_ends_with ".index.json" index_file) eqn:Ee.
  - destruct (rp_index_path r index_file) as [[path|]|]; [|done|done]. cbn in Hfiles.
    destruct (rp_read_index r path) as [weight_map|] eqn:Er; [|done]. cbn in Hfiles.
    destruct (it_covers r whole Hint path weight_map _ v Er Hv) as [f Hin]. exists f.
    unfold raise_if in Hfiles. destruct (_ =? 0); [done|]. injection Hfiles as <-.
    split; [by eapply elem_block_files|]. right. by exists path, weight_map.
  - injection Hfiles as <-. exists index_file. split; [by left|]. left. unfold whole_file.
    unfold INDEX_FILES in Hf. repeat (apply elem_of_cons in Hf as [->|Hf]; [first [done|by left|by right; left]|]).
    by inversion Hf.
Qed.

(** What [_load_state_dict_from_repo] returns is the block: exactly the tensors of the model whose names start with
    the prefix, whether the model is split into shards or not, cached or downloaded, in either format. *)
Lemma load_repo_exact is_dir hub model_name token whole p max_disk_space state_dict k :
  intact (hub (effective_token is_dir model_name token)) whole ->
  _load_state_dict_from_repo read_file is_dir hub model_name token p max_disk_space = Some (Ok state_dict) ->
  dget state_dict k = dget whole (p +:+ k).
Proof.
  intros Hint. unfold _load_state_dict_from_repo. revert Hint. generalize (hub (effective_token is_dir model_name token)).
  intros r Hint.
  destruct (_find_index_file r) as [index_file|] eqn:Ef; cbn [mbind result_bind]; [|done].
  destruct (index_filenames r index_file p) as [files|] eqn:Efiles; [|done].
  intros Hrun. eapply load_shards_spec in Hrun as (Hs & _ & Hall); [|exact Hint|by intros ???].
  destruct (dget whole (p +:+ k)) as [v|] eqn:Ev.
  - apply find_index_elem in Ef. destruct (index_filenames_cover _ _ _ _ _ _ _ Hint Ef Efiles Ev) as (f & Hf & Hh).
    by eapply Hall.
  - destruct (dget state_dict k) as [v|] eqn:Ek; [|done]. apply Hs in Ek. congruence.
Qed.

(** *** Progress *)

(** A file can be had: from the cache, or from an attempt to download it before which everything that went wrong was
    an [Exception]. *)
Definition available (r : repository) (max_disk_space : option Z) (p f : string) : Prop :=
  (exists d, load_cached read_file (rp_cached r f) (Some p) = Ok (Some d)) \/
  ((load_cached read_file (rp_cached r f) (Some p) = Ok None \/
    exists e, load_cached read_file (rp_cached r f) (Some p) = Err e /\ is_Exception e = true) /\
   exists before a rest d, rp_downloads r f = before ++ a :: rest /\
     try_download read_file max_disk_space a (Some p) = Ok d /\
     Forall (fun b => exists e, try_download read_file max_disk_space b (Some p) = Err e /\ is_Exception e = true) before).

Lemma repo_file_available r max_disk_space p f :
  available r max_disk_space p f <->
  exists d, _load_state_dict_from_repo_file read_file (rp_cached r f) max_disk_space (rp_downloads r f) (Some p) = Some (Ok d).
Proof.
  unfold available, _load_state_dict_from_repo_file. split.
  - intros [[d Hd]|[Hc (before & a & rest & d & Hd)]].
    + rewrite Hd. by exists d.
    + exists d. assert (Hl : download_loop read_file max_disk_space (rp_downloads r f) (Some p) = Some (Ok d)).
      { apply download_loop_ok. by exists before, a, rest. }
      by destruct Hc as [->|(e & -> & ->)].
  - intros [d Hd]. destruct (load_cached _ _ _) as [[d'|]|e]; [left; by exists d'| |destruct (is_Exception e) eqn:Ee; [|done]];
      apply download_loop_ok in Hd as (before & a & rest & Hd); right; (split; [|by exists before, a, rest, d]); eauto.
Qed.

Lemma load_shards_returns r p max_disk_space files d :
  Forall (available r max_disk_space p) files ->
  exists d', load_shards read_file r p max_disk_space files d = Some (Ok d').
Proof.
  intros H. revert d. induction H as [|f files Hf _ IH]; intros d; cbn [load_shards]; [by exists d|].
  apply repo_file_available in Hf as [shard ->]. apply IH.
Qed.

(** C21: if the repository holds the block and its files can be had, in the cache or after any number of failed
    attempts, [load_pretrained_block] returns a block with every parameter set to the tensor of the model under the
    prefix of this block, cast to the dtype asked for unless it holds integers or booleans. *)
Theorem load_pretrained_block_exact is_dir hub model_name token whole config_prefix block_index config_dtype torch_dtype
    block max_disk_space index_file files :
  let r := hub (effective_token is_dir model_name token) in
  let p := make_block_prefix config_prefix block_index in
  intact r whole -> known_dtype torch_dtype = true ->
  _find_index_file r = Ok index_file -> index_filenames r index_file p = Ok files ->
  Forall (available r max_disk_space p) files ->
  (forall name, name ∈ eb_parameters block -> name ∈ eb_keys block) ->
  (forall name, name ∈ eb_keys block -> dget whole (p +:+ name) <> None) ->
  exists params, load_pretrained_block tensor_dtype cast read_file is_dir hub model_name token config_prefix block_index
      config_dtype torch_dtype block max_disk_space = Some (Ok params) /\ params.*1 = eb_parameters block /\
    forall name param, (name, param) ∈ params -> exists v, dget whole (p +:+ name) = Some v /\
      param = convert_param tensor_dtype cast (resolve_block_dtype config_dtype torch_dtype) v.
Proof.
  intros r p Hint Hd Hf Hfiles Hav Hkeys Hhas. unfold load_pretrained_block. fold p. rewrite Hd. cbn [negb].
  destruct (load_shards_returns r p max_disk_space files [] Hav) as [sd Hsd].
  assert (Hload : _load_state_dict_from_repo read_file is_dir hub model_name token p max_disk_space = Some (Ok sd)).
  { unfold _load_state_dict_from_repo. fold r. rewrite Hf. cbn [mbind result_bind]. by rewrite Hfiles. }
  rewrite Hload. assert (Hget : forall k, dget sd k = dget whole (p +:+ k)) by (intros k; by eapply load_repo_exact).
  rewrite (proj2 (forallb_forall _ _)).
  2: { intros k Hk%list_elem_of_In. unfold dmem. rewrite Hget. specialize (Hhas k Hk). by destruct (dget whole _). }
  cbn [assert_ mbind result_bind]. generalize (resolve_block_dtype config_dtype torch_dtype) as dt. intros dt.
  assert (Hall : Forall (fun name => dget whole (p +:+ name) <> None) (eb_parameters block)).
  { apply Forall_forall. intros name Hn. apply Hhas. by apply Hkeys. }
  clear -Hget Hall. induction Hall as [|name names Hn _ IH]; [exists []; split_and!; [done..|]; intros ?? H; by inversion H|].
  destruct IH as (params & Hrun & Hnames & Hp). cbn [mapR]. rewrite Hget.
  destruct (dget whole (p +:+ name)) as [v|] eqn:Ev; [|done]. cbn [get_or mbind result_bind].
  injection Hrun as Hrun. rewrite Hrun. eexists. split; [reflexivity|]. split; [by rewrite fmap_cons, Hnames|].
  intros name' param [[= -> ->]|Hin]%elem_of_cons; [by exists v|by apply Hp].
Qed.
End loading_proofs.

(** ** The parameters of different blocks do not mix *)

Lemma str_append_assoc (s t u : string) : (s +:+ t) +:+ u = s +:+ (t +:+ u).
Proof. induction s as [|c s IH]; [done|]. change (String c ((s +:+ t) +:+ u) = String c (s +:+ (t +:+ u))). by rewrite IH. Qed.

(** The prefix of a block ends in a dot, so that block 1 is not a prefix of block 10. *)
Lemma block_prefix_owner prefix i j name :
  String.prefix (make_block_prefix prefix i) (make_block_prefix prefix j +:+ name) = true -> i = j.
Proof.
  intros H%prefix_split. revert H. generalize (str_drop (String.length (make_block_prefix prefix i)) (make_block_prefix prefix j +:+ name)).
  intros rest. unfold make_block_prefix. rewrite !str_append_assoc. intros H%append_inj%(append_inj ".").
  assert (Hs : forall n s, split_on "."%char (str_of_Z n +:+ ("." +:+ s)) = str_of_Z n :: split_on "."%char s).
  { intros n s. apply split_on_app. by apply str_of_Z_no_sep. }
  apply (f_equal (split_on "."%char)) in H. rewrite !Hs in H. injection H as H _. by apply str_of_Z_inj in H.
Qed.

(** ** An example *)

Section example.
Local Definition two_shards : repository :=
  mkRepo (fun f => if String.eqb f "model-2.safetensors" then Ok (Some "cache/model-2.safetensors") else Ok None)
    (fun f => if String.eqb f "model.safetensors.index.json" then FileExists else EntryNotFoundError)
    (fun _ => Ok (Some "index"))
    (fun path => if String.eqb path "index"
                 then Ok [("h.1.w", "model-1.safetensors"); ("h.1.b", "model-2.safetensors"); ("h.10.w", "model-2.safetensors")]
                 else Err FileNotFoundError)
    (fun f => if String.eqb f "model-1.safetensors"
              then [mkDownload (Err FileNotFoundError) 0 0 [] (Ok None); mkDownload (Ok (Some 7)) (2 ^ 40) 0 [] (Ok (Some "hub/model-1.safetensors"))]
              else []).

Local Definition read_two (path : string) : result (list (string * (dtype * Z))) :=
  if String.eqb path "cache/model-2.safetensors"
  then Ok [("h.1.b", (torch_int64, 5)); ("h.10.w", (torch_float32, 9))]
  else if String.eqb path "hub/model-1.safetensors" then Ok [("h.1.w", (torch_float32, 4))]
  else Err FileNotFoundError.

Local Definition model_two : list (string * (dtype * Z)) :=
  [("h.1.w", (torch_float32, 4)); ("h.1.b", (torch_int64, 5)); ("h.10.w", (torch_float32, 9))].

Local Definition cast_to (d : dtype) (t : dtype * Z) : dtype * Z := (d, t.2).

Lemma two_shards_path f path : path_of two_shards f path ->
  (f = "model-2.safetensors" /\ path = "cache/model-2.safetensors") \/ (f = "model-1.safetensors" /\ path = "hub/model-1.safetensors").
Proof.
  unfold path_of, two_shards. cbn [rp_cached rp_downloads]. intros [H|(a & Ha & Hp)].
  - destruct (String.eqb_spec f "model-2.safetensors") as [->|]; [|done]. injection H as <-. by left.
  - destruct (String.eqb_spec f "model-1.safetensors") as [->|]; [|by inversion Ha]. right. split; [done|].
    apply elem_of_cons in Ha as [->|[->|Ha]%elem_of_cons]; [done|by injection Hp as <-|by inversion Ha].
Qed.

Lemma two_shards_indexed k f : indexed two_shards k f ->
  (k, f) ∈ [("h.1.w", "model-1.safetensors"); ("h.1.b", "model-2.safetensors"); ("h.10.w", "model-2.safetensors")].
Proof.
  intros (path & l & H & Hin). unfold two_shards in H. cbn [rp_read_index] in H.
  destruct (String.eqb path "index"); [|done]. by injection H as <-.
Qed.

Lemma model_two_keys k v : dget model_two k = Some v -> (k, v) ∈ model_two.
Proof. apply dget_elem. Qed.

Lemma two_shards_intact : intact read_two two_shards model_two.
Proof.
  split.
  - intros f path d [[-> ->]|[-> ->]]%two_shards_path; intros [= <-] k v Hin;
      repeat (apply elem_of_cons in Hin as [[= -> ->]|Hin]; [done|]); by inversion Hin.
  - intros path l k v H Hv%model_two_keys. unfold two_shards in H. cbn [rp_read_index] in H.
    destruct (String.eqb path "index"); [|done]. injection H as <-. unfold model_two in Hv.
    repeat (apply elem_of_cons in Hv as [[= -> ->]|Hv]; [eexists; rewrite !elem_of_cons; eauto|]). by inversion Hv.
  - intros f path d k v Hpath Hr Hf Hv%model_two_keys.
    apply two_shards_path in Hpath as [[-> ->]|[-> ->]]; injection Hr as <-;
      (destruct Hf as [Hf|Hf%two_shards_indexed];
        [by repeat (apply elem_of_cons in Hf as [Hf|Hf]; [done|]); inversion Hf|]);
      repeat (apply elem_of_cons in Hf as [Hf|Hf]; [try discriminate Hf|]); try (by inversion Hf);
      injection Hf as ->; unfold model_two in Hv;
      repeat (apply elem_of_cons in Hv as [Hv|Hv];
        [first [discriminate Hv|injection Hv as ->; rewrite !elem_of_cons; by eauto]|]); by inversion Hv.
Qed.

(** One shard is cached, the other is downloaded at the second attempt. *)
Lemma load_pretrained_block_exact_witness :
  exists params, load_pretrained_block fst cast_to read_two (fun _ => false) (fun _ => two_shards) "org/model" None "h" 1 DNone (DType torch_float16)
      (mkEmptyBlock ["w"; "b"] ["w"; "b"]) None = Some (Ok params) /\ params.*1 = ["w"; "b"] /\
    forall name param, (name, param) ∈ params -> exists v, dget model_two ("h.1." +:+ name) = Some v /\
      param = convert_param fst cast_to torch_float16 v.
Proof.
  apply (load_pretrained_block_exact fst cast_to read_two (fun _ => false) (fun _ => two_shards) "org/model" None model_two "h" 1 DNone (DType torch_float16)
    (mkEmptyBlock ["w"; "b"] ["w"; "b"]) None "model.safetensors.index.json" ["model-1.safetensors"; "model-2.safetensors"]).
  - exact two_shards_intact.
  - reflexivity.
  - reflexivity.
  - vm_compute. reflexivity.
  - constructor; [|constructor; [|constructor]].
    + right. split; [left; reflexivity|]. eexists [_], _, [], _. split; [reflexivity|]. split; [vm_compute; reflexivity|].
      constructor; [|constructor]. eexists. split; reflexivity.
    + left. eexists. vm_compute. reflexivity.
  - intros name H. exact H.
  - intros name H. change (name ∈ ["w"; "b"]) in H. repeat (apply elem_of_cons in H as [->|H]; [by vm_compute|]). by inversion H.
Defined.

(** The block that is loaded: the floating-point parameter is cast, the integers are not. *)
Example two_shards_loaded :
  load_pretrained_block fst cast_to read_two (fun _ => false) (fun _ => two_shards) "org/model" None "h" 1 DNone (DType torch_float16)
    (mkEmptyBlock ["w"; "b"] ["w"; "b"]) None = Some (Ok [("w", (torch_float16, 4)); ("b", (torch_int64, 5))]).
Proof. vm_compute. reflexivity. Qed.
End example.
