(* ===== verification/CacheLocks.v ===== *)
(** * CacheLocks: the locks of [utils/disk_cache.py]

    Servers on one machine share a directory of downloaded blocks and adapters: looking for a file takes a shared lock,
    making room for a new one and downloading it an exclusive lock.  The loads of [server/from_pretrained.py] and
    [utils/peft.py] are threads of a step relation: one step per lock, lookup, removal, download or read, and a process
    may be killed between any two of them.  [load_peft] downloads under the shared lock too, and the index of a sharded
    model is read under no lock, as the code has it.  The system's [flock] is part of the model: it grants shared locks
    together and an exclusive one alone. *)

From S2P Require Import Prelude.

(** [fcntl.LOCK_SH] and [fcntl.LOCK_EX] *)
Inductive lock_mode := LOCK_SH | LOCK_EX.

#[global] Instance lock_mode_eq_dec : EqDecision lock_mode.
Proof. solve_decision. Defined.

(** What a loader loads: a file of weights, the index of a sharded model, or the two files of an adapter. *)
Inductive job :=
  | Weights (file : string)
  | Index (file : string)
  | Adapter (config weights : string).

(** Where a loader is: before the lock that allows reads, under it, with the path of the cached file, out of it because
    there is none or it could not be read, under the lock that allows writes, with the path of the file that it
    downloaded.  An adapter's config and weights are fetched and read in turn under either lock. *)
Inductive loader :=
  | Begins
  | Reads
  | FoundLocally
  | Missed
  | Writes
  | Downloaded
  | ConfigFound (mode : lock_mode)
  | ConfigRead (mode : lock_mode)
  | WeightsFound (mode : lock_mode)
  | Loaded
  | Vanished                       (* the file of its path is gone: the load raises *)
  | IndexFound
  | IndexVanished                  (* [open(path)] of the index raises *)
  | Killed.

Record world := mkWorld {
  wd_files : gset string;                          (* in the cache directory *)
  wd_locks : list (nat * lock_mode);               (* what the system has granted on [blocks.lock], by loader *)
  wd_loaders : list (job * loader);                (* what to load, and where the loader is *)
}.

(** [fcntl.flock]: shared locks exclude exclusive ones; it waits until the lock is granted. *)
Definition grants (mode : lock_mode) (locks : list (nat * lock_mode)) : bool :=
  match mode with
  | LOCK_SH => forallb (fun l => bool_decide (l.2 = LOCK_SH)) locks
  | LOCK_EX => bool_decide (locks = [])
  end.

(** The lock file is closed: the system releases the lock. *)
Definition release (i : nat) (locks : list (nat * lock_mode)) : list (nat * lock_mode) := filter (fun l => l.1 <> i) locks.

Inductive action :=
  | _blocks_lock (mode : lock_mode)        (* entering [allow_cache_reads] or [allow_cache_writes] *)
  | Lookup                                 (* [get_file_from_repo(..., local_files_only=True)] *)
  | Remove (file : string)                 (* [os.remove] in [free_disk_space_for] *)
  | Download                               (* [get_file_from_repo(..., local_files_only=False)] *)
  | Load                                   (* [_load_state_dict_from_local_file] *)
  | Fetch                                  (* [get_file_from_repo] in [get_adapter_from_repo] *)
  | Read                                   (* [PeftConfig.from_json_file] or [load_specific_module] *)
  | Raise                                  (* any exception under a lock, which is logged *)
  | Get_index                              (* [get_file_from_repo(...)] of the index *)
  | Open_index                             (* [with open(path) as f: index = json.load(f)] *)
  | Kill.

(** A file is loaded from a path: it has to be there. *)
Definition load_file (files : gset string) (file : string) (l : loader) : loader := if decide (file ∈ files) then l else Vanished.

(** One action of loader [i] in [_load_state_dict_from_repo_file]: the files, the locks and where the loader is; [None] when
    it is not at that point. *)
Definition load_repo_file (i : nat) (a : action) (file : string) (l : loader) (files : gset string) (locks : list (nat * lock_mode))
    : option (gset string * list (nat * lock_mode) * loader) :=
  match a, l with
  | _blocks_lock LOCK_SH, Begins => if grants LOCK_SH locks then Some (files, (i, LOCK_SH) :: locks, Reads) else None
  | Lookup, Reads => if decide (file ∈ files) then Some (files, locks, FoundLocally) else Some (files, release i locks, Missed)
  | Load, FoundLocally => Some (files, release i locks, load_file files file Loaded)
  | _blocks_lock LOCK_EX, Missed => if grants LOCK_EX locks then Some (files, (i, LOCK_EX) :: locks, Writes) else None
  | Remove f, Writes => Some (files ∖ {[f]}, locks, Writes)
  | Download, Writes => Some (files ∪ {[file]}, locks, Downloaded)
  | Load, Downloaded => Some (files, release i locks, load_file files file Loaded)
  | Raise, (Reads | FoundLocally | Writes | Downloaded) => Some (files, release i locks, Missed)
  | _, _ => None
  end.

(** In [load_peft]: the two files are fetched, which downloads a missing one, and read under either lock. *)
Definition load_peft_files (i : nat) (a : action) (config weights : string) (l : loader) (files : gset string)
    (locks : list (nat * lock_mode)) : option (gset string * list (nat * lock_mode) * loader) :=
  match a, l with
  | _blocks_lock LOCK_SH, Begins => if grants LOCK_SH locks then Some (files, (i, LOCK_SH) :: locks, Reads) else None
  | Fetch, Reads => Some (files ∪ {[config]}, locks, ConfigFound LOCK_SH)
  | Read, ConfigFound mode =>
      if decide (config ∈ files) then Some (files, locks, ConfigRead mode) else Some (files, release i locks, Vanished)
  | Fetch, ConfigRead mode => Some (files ∪ {[weights]}, locks, WeightsFound mode)
  | Read, WeightsFound mode => Some (files, release i locks, load_file files weights Loaded)
  | _blocks_lock LOCK_EX, Missed => if grants LOCK_EX locks then Some (files, (i, LOCK_EX) :: locks, Writes) else None
  | Remove f, Writes => Some (files ∖ {[f]}, locks, Writes)
  | Fetch, Writes => Some (files ∪ {[config]}, locks, ConfigFound LOCK_EX)
  | Raise, (Reads | Writes | ConfigFound _ | ConfigRead _ | WeightsFound _) => Some (files, release i locks, Missed)
  | _, _ => None
  end.

(** In [_load_state_dict_from_repo]. *)
Definition load_index (a : action) (file : string) (l : loader) (files : gset string) (locks : list (nat * lock_mode))
    : option (gset string * list (nat * lock_mode) * loader) :=
  match a, l with
  | Get_index, Begins => Some (files ∪ {[file]}, locks, IndexFound)
  | Open_index, IndexFound => Some (files, locks, if decide (file ∈ files) then Loaded else IndexVanished)
  | _, _ => None
  end.

(** One action of a loader; a process that is killed closes its files. *)
Definition act (i : nat) (a : action) (j : job) (l : loader) (files : gset string) (locks : list (nat * lock_mode))
    : option (gset string * list (nat * lock_mode) * loader) :=
  match a, j with
  | Kill, _ => Some (files, release i locks, Killed)
  | _, Weights file => load_repo_file i a file l files locks
  | _, Adapter config weights => load_peft_files i a config weights l files locks
  | _, Index file => load_index a file l files locks
  end.

Definition step (w : world) (ev : nat * action) : option world :=
  '(j, l) ← wd_loaders w !! ev.1;
  '(files, locks, l') ← act ev.1 ev.2 j l (wd_files w) (wd_locks w);
  Some (mkWorld files locks (<[ev.1 := (j, l')]> (wd_loaders w))).

Fixpoint run (w : world) (tr : list (nat * action)) : option world :=
  match tr with [] => Some w | ev :: tr' => step w ev ≫= fun w' => run w' tr' end.

(** Loaders that begin, on a directory with the given files. *)
Definition start (files : gset string) (jobs : list job) : world := mkWorld files [] ((fun j => (j, Begins)) <$> jobs).

(** ** No file is removed while it is loaded *)

(** The lock that a loader holds. *)
Definition mode_of (l : loader) : option lock_mode :=
  match l with
  | Reads | FoundLocally => Some LOCK_SH
  | Writes | Downloaded => Some LOCK_EX
  | ConfigFound mode | ConfigRead mode | WeightsFound mode => Some mode
  | _ => None
  end.

(** The file that it has a path of, which it is about to read under its lock. *)
Definition path_of (j : job) (l : loader) : option string :=
  match j, l with
  | Weights file, (FoundLocally | Downloaded) => Some file
  | Adapter config _, ConfigFound _ => Some config
  | Adapter _ weights, WeightsFound _ => Some weights
  | _, _ => None
  end.

(** The places of each kind of load. *)
Definition placed (j : job) (l : loader) : bool :=
  match l, j with
  | (Begins | Loaded | Vanished | Killed), _ => true
  | (IndexFound | IndexVanished), Index _ => true
  | (Reads | Missed | Writes), (Weights _ | Adapter _ _) => true
  | (FoundLocally | Downloaded), Weights _ => true
  | (ConfigFound _ | ConfigRead _ | WeightsFound _), Adapter _ _ => true
  | _, _ => false
  end.

Record locked (w : world) : Prop := {
  lk_held : forall i m, (i, m) ∈ wd_locks w <-> exists j l, wd_loaders w !! i = Some (j, l) /\ mode_of l = Some m;
  lk_exclusive : forall i, (i, LOCK_EX) ∈ wd_locks w -> forall k m, (k, m) ∈ wd_locks w -> k = i;
  lk_present : forall i j l f, wd_loaders w !! i = Some (j, l) -> path_of j l = Some f -> f ∈ wd_files w;
  lk_vanished : forall i j l, wd_loaders w !! i = Some (j, l) -> l <> Vanished;
  lk_placed : forall i j l, wd_loaders w !! i = Some (j, l) -> placed j l = true;
}.

Lemma start_locked files jobs : locked (start files jobs).
Proof.
  assert (H : forall i j l, ((fun j => (j, Begins)) <$> jobs) !! i = Some (j, l) -> l = Begins).
  { intros i j l Hl. rewrite list_lookup_fmap in Hl. by apply fmap_Some in Hl as (x & _ & [= -> ->]). }
  split; cbn.
  - intros i m. split; [intros Hn; inversion Hn|]. by intros (j & l & ->%H & Hm).
  - intros i Hn. inversion Hn.
  - intros i j l f ->%H. by destruct j.
  - by intros i j l ->%H.
  - by intros i j l ->%H.
Qed.

Lemma release_elem i j m locks : (j, m) ∈ release i locks <-> j <> i /\ (j, m) ∈ locks.
Proof. unfold release. rewrite list_elem_of_filter. done. Qed.

Lemma act_effect i a j l files locks files' locks' l' : act i a j l files locks = Some (files', locks', l') ->
  (locks' = locks /\ mode_of l' = mode_of l \/ locks' = release i locks /\ mode_of l' = None \/
   exists m, grants m locks = true /\ locks' = (i, m) :: locks /\ mode_of l = None /\ mode_of l' = Some m) /\
  (files ⊆ files' \/ mode_of l = Some LOCK_EX) /\ (forall f, path_of j l' = Some f -> f ∈ files') /\
  (l' = Vanished -> exists f, path_of j l = Some f /\ f ∉ files) /\ (placed j l = true -> placed j l' = true).
Proof.
  intros H. destruct a as [[]| |f| | | | | | | |], j, l; cbn [act load_repo_file load_peft_files load_index] in H; unfold load_file in H; try done;
    try (destruct (grants _ locks) eqn:Hg; [|done]); repeat case_decide; injection H as <- <- <-;
    (split; [first [by left|by right; left|right; right; eexists; by split; [exact Hg|]]|]);
    (split; [first [by left|by right|left; set_solver]|]);
    (split; [intros ?; cbn; first [done|intros [= <-]; set_solver]|split; [first [done|intros _; by eexists]|done]]).
Qed.

Lemma act_locked w i a jb l files locks l' :
  locked w -> wd_loaders w !! i = Some (jb, l) -> act i a jb l (wd_files w) (wd_locks w) = Some (files, locks, l') ->
  locked (mkWorld files locks (<[i := (jb, l')]> (wd_loaders w))).
Proof.
  intros [Hheld Hex Hpres Hvan Hpl] Hi (Hlocks & Hfiles & Hpath & Hv & Hp')%act_effect.
  pose proof (lookup_lt_Some _ _ _ Hi) as Hlt.
  assert (Hmine : forall m, (i, m) ∈ wd_locks w <-> mode_of l = Some m).
  { intros m. rewrite Hheld. split; [|by eauto]. intros (f & l0 & Hl & Hm). by simplify_eq. }
  assert (Hother : forall j m, j <> i -> (j, m) ∈ locks <-> (j, m) ∈ wd_locks w).
  { intros j m Hj. destruct Hlocks as [[-> _]|[[-> _]|(m' & _ & -> & _ & _)]]; [done|rewrite release_elem; tauto|].
    rewrite elem_of_cons. split; [intros [?|?]; [congruence|done]|by right]. }
  assert (Hown : forall m, (i, m) ∈ locks <-> mode_of l' = Some m).
  { intros m. destruct Hlocks as [[-> Hm]|[[-> Hm]|(m' & _ & -> & Hm & Hm')]].
    - by rewrite Hmine, Hm.
    - rewrite release_elem, Hm. split; [by intros [? _]|done].
    - rewrite elem_of_cons, Hmine, Hm, Hm'. split; [intros [[= ->]|?]; done|]. intros [= ->]. by left. }
  split; cbn [wd_locks wd_loaders wd_files].
  - intros j m. destruct (decide (j = i)) as [->|Hj].
    + rewrite Hown, list_lookup_insert_eq by done. split; [by eauto|]. intros (f & l0 & Hl & Hm). by simplify_eq.
    + rewrite Hother, Hheld, list_lookup_insert_ne by done. done.
  - intros j Hj k m Hk.
    assert (Hnew : forall m', grants m' (wd_locks w) = true -> locks = (i, m') :: wd_locks w -> k = j).
    { intros m' Hg ->. apply elem_of_cons in Hj, Hk. destruct m'.
      - cbn in Hg. rewrite forallb_forall in Hg.
        destruct Hj as [[=]|Hj]. apply list_elem_of_In, Hg in Hj. cbn in Hj. by apply bool_decide_eq_true in Hj.
      - apply bool_decide_eq_true in Hg. rewrite Hg in Hj, Hk. destruct Hj as [[= ->]|Hj], Hk as [[= -> ->]|Hk]; try done; by inversion Hj || inversion Hk. }
    destruct Hlocks as [[-> _]|[[-> _]|(m' & Hg & -> & _ & _)]]; [by eapply Hex| |by eapply Hnew].
    apply release_elem in Hj as [_ Hj]. apply release_elem in Hk as [_ Hk]. by eapply Hex.
  - intros j jb0 l0 f Hj Hp. destruct (decide (j = i)) as [->|Hne].
    + rewrite list_lookup_insert_eq in Hj by done. injection Hj as <- <-. by apply Hpath.
    + rewrite list_lookup_insert_ne in Hj by done. pose proof (Hpres _ _ _ _ Hj Hp) as Hin.
      destruct Hfiles as [Hsub|Hw]; [by apply Hsub|]. exfalso. apply Hne.
      assert (exists m, mode_of l0 = Some m) as [m Hm] by (destruct jb0, l0; try done; by eexists).
      apply (Hex i) with m; [by apply Hmine|]. apply Hheld. by eauto.
  - intros j jb0 l0 Hj. destruct (decide (j = i)) as [->|Hne].
    + rewrite list_lookup_insert_eq in Hj by done. injection Hj as <- <-. intros (f & Hp & Hn)%Hv.
      by apply Hn, (Hpres i jb l).
    + rewrite list_lookup_insert_ne in Hj by done. by eapply Hvan.
  - intros j jb0 l0 Hj. destruct (decide (j = i)) as [->|Hne].
    + rewrite list_lookup_insert_eq in Hj by done. injection Hj as <- <-. by eapply Hp', Hpl.
    + rewrite list_lookup_insert_ne in Hj by done. by eapply Hpl.
Qed.

Lemma step_spec w i a w' : step w (i, a) = Some w' ->
  exists j l files locks l', wd_loaders w !! i = Some (j, l) /\
    act i a j l (wd_files w) (wd_locks w) = Some (files, locks, l') /\
    w' = mkWorld files locks (<[i := (j, l')]> (wd_loaders w)).
Proof.
  intros Es. unfold step in Es. cbn [fst snd] in Es. destruct (wd_loaders w !! i) as [[j l]|] eqn:Hi; [|done]. cbn in Es.
  destruct (act i a j l (wd_files w) (wd_locks w)) as [[[files locks] l']|] eqn:Ha; [|done]. injection Es as <-.
  by exists j, l, files, locks, l'.
Qed.

Lemma run_locked tr w w' : locked w -> run w tr = Some w' -> locked w'.
Proof.
  revert w. induction tr as [|[i a] tr IH]; intros w Hw H; cbn [run] in H; [by injection H as <-|].
  destruct (step w (i, a)) as [w1|] eqn:Es; [|done]. cbn in H. apply (IH w1); [|done].
  apply step_spec in Es as (j & l & files & locks & l' & Hi & Ha & ->). by eapply act_locked.
Qed.

(** Only the holder of the exclusive lock removes files. *)
Lemma removed_under_lock w i a w' : step w (i, a) = Some w' ->
  wd_files w ⊆ wd_files w' \/ exists j l, wd_loaders w !! i = Some (j, l) /\ mode_of l = Some LOCK_EX.
Proof.
  intros (j & l & files & locks & l' & Hi & (_ & [Hf|Hf] & _)%act_effect & ->)%step_spec; [by left|]. right. by exists j, l.
Qed.

(** ** Loads never wait for ever *)

(** The next action of a loader, but for the locks that it waits for. *)
Definition next_action (j : job) (l : loader) : option action :=
  match l, j with
  | Begins, Index _ => Some Get_index
  | Begins, _ => Some (_blocks_lock LOCK_SH)
  | Reads, Weights _ => Some Lookup
  | (FoundLocally | Downloaded), Weights _ => Some Load
  | Missed, (Weights _ | Adapter _ _) => Some (_blocks_lock LOCK_EX)
  | Writes, Weights _ => Some Download
  | (Reads | Writes | ConfigRead _), Adapter _ _ => Some Fetch
  | (ConfigFound _ | WeightsFound _), Adapter _ _ => Some Read
  | IndexFound, Index _ => Some Open_index
  | _, _ => None
  end.

(** The load has ended. *)
Definition ended (l : loader) : bool := match l with Loaded | Vanished | IndexVanished | Killed => true | _ => false end.

Lemma next_action_some j l : placed j l = true -> ended l = false -> exists a, next_action j l = Some a.
Proof. destruct l, j; cbn; try done; by eexists. Qed.

Lemma holder_acts i j l a files locks : next_action j l = Some a -> mode_of l <> None -> is_Some (act i a j l files locks).
Proof.
  intros Ha Hm. destruct l, j; cbn in Ha; try done; injection Ha as <-; cbn; try case_decide; try done; by eexists.
Qed.

Lemma free_acts i j l a files : next_action j l = Some a -> is_Some (act i a j l files []).
Proof. intros Ha. destruct l, j; cbn in Ha; try done; injection Ha as <-; cbn; try case_decide; by eexists. Qed.

Lemma step_act w i a j l : wd_loaders w !! i = Some (j, l) -> is_Some (act i a j l (wd_files w) (wd_locks w)) ->
  is_Some (step w (i, a)).
Proof. intros Hi [[[fs ls] l'] Ha]. unfold step. cbn [fst snd]. rewrite Hi. cbn. rewrite Ha. by eexists. Qed.

(** Whoever holds a lock can go on; when nobody does, everybody can. *)
Lemma locked_progress w i j l : locked w -> wd_loaders w !! i = Some (j, l) -> ended l = false ->
  exists i' j' l' a', wd_loaders w !! i' = Some (j', l') /\ next_action j' l' = Some a' /\ is_Some (step w (i', a')).
Proof.
  intros Hw Hi He. destruct (wd_locks w) as [|[k m] locks] eqn:El.
  - destruct (next_action_some j l) as [a Ha]; [by eapply lk_placed|done|].
    exists i, j, l, a. split_and!; [done..|]. eapply step_act; [done|]. rewrite El. by apply free_acts.
  - destruct (proj1 (lk_held w Hw k m)) as (j' & l' & Hj & Hm); [rewrite El; by left|].
    destruct (next_action_some j' l') as [a' Ha']; [by eapply lk_placed|by destruct l'|].
    exists k, j', l', a'. split_and!; [done..|]. eapply step_act; [done|]. apply holder_acts; [done|]. by rewrite Hm.
Qed.

(** C18: what the locks of [disk_cache.py] give the loads that take them - of files of weights and of adapters; the index
    of a sharded model is read under no lock - in every interleaving of the loads of the servers of a machine, with
    processes killed at any point: a file that such a load has found, or has just downloaded, is still there when it is
    read, so that no such load finds it removed; files are removed under the exclusive lock only, and while one loader
    holds it nobody else holds a lock, the downloads of adapters, which happen under the shared lock too, included; and as
    long as a load has not ended, some loader can take its next step: the locks never deadlock. *)
Theorem locks_protect_loads files jobs tr w : run (start files jobs) tr = Some w ->
  (forall i j l, wd_loaders w !! i = Some (j, l) -> l <> Vanished /\ (forall f, path_of j l = Some f -> f ∈ wd_files w)) /\
  (forall i a w', step w (i, a) = Some w' -> wd_files w ⊆ wd_files w' \/
     exists j l, wd_loaders w !! i = Some (j, l) /\ mode_of l = Some LOCK_EX) /\
  (forall i i' j j' l l', wd_loaders w !! i = Some (j, l) -> wd_loaders w !! i' = Some (j', l') ->
     mode_of l = Some LOCK_EX -> mode_of l' <> None -> i' = i) /\
  (forall i j l, wd_loaders w !! i = Some (j, l) -> ended l = false ->
     exists i' j' l' a', wd_loaders w !! i' = Some (j', l') /\ next_action j' l' = Some a' /\ is_Some (step w (i', a'))).
Proof.
  intros Hw%run_locked; [|apply start_locked]. split_and!.
  - intros i j l Hi. split; [by eapply lk_vanished|]. intros f. by eapply lk_present.
  - intros i a w'. apply removed_under_lock.
  - intros i i' j j' l l' Hi Hj Hl Hl'. destruct (mode_of l') as [m|] eqn:Em; [|done].
    apply (lk_exclusive w Hw i) with m; apply (lk_held w Hw); eauto.
  - intros i j l Hi He. by eapply locked_progress.
Qed.

(** Two servers want one block, and a third an adapter: the first makes room by removing the adapter's config, which the
    third, that waits for the lock, downloads again under the shared lock; the second is killed. *)
Definition example_jobs : list job := [Weights "block0"; Weights "block0"; Adapter "config" "lora"]%string.

Definition example_run : list (nat * action) :=
  [(0%nat, _blocks_lock LOCK_SH); (1%nat, _blocks_lock LOCK_SH); (0%nat, Lookup); (1%nat, Lookup); (0%nat, _blocks_lock LOCK_EX);
   (0%nat, Remove "config"); (0%nat, Download); (1%nat, Kill); (0%nat, Load); (2%nat, _blocks_lock LOCK_SH); (2%nat, Fetch);
   (2%nat, Read); (2%nat, Fetch)]%string.

Example example_reaches : (fun w => (wd_loaders w, wd_locks w)) <$> run (start {["config"]} example_jobs) example_run
  = Some ([(Weights "block0", Loaded); (Weights "block0", Killed); (Adapter "config" "lora", WeightsFound LOCK_SH)]%string,
          [(2%nat, LOCK_SH)]).
Proof. vm_compute. reflexivity. Qed.

(** While the first removes files, the third cannot begin to read. *)
Example example_waits : run (start {["config"]} example_jobs) (take 6 example_run ++ [(2%nat, _blocks_lock LOCK_SH)]) = None.
Proof. vm_compute. reflexivity. Qed.

(** Two servers may download one adapter at the same time, both under the shared lock. *)
Example adapters_downloaded_together :
  (fun w => (wd_loaders w, wd_locks w)) <$> run (start ∅ [Adapter "config" "lora"; Adapter "config" "lora"]%string)
    [(0%nat, _blocks_lock LOCK_SH); (1%nat, _blocks_lock LOCK_SH); (0%nat, Fetch); (1%nat, Fetch)]
  = Some ([(Adapter "config" "lora", ConfigFound LOCK_SH); (Adapter "config" "lora", ConfigFound LOCK_SH)]%string,
          [(1%nat, LOCK_SH); (0%nat, LOCK_SH)]).
Proof. vm_compute. reflexivity. Qed.

Definition example_world : world := default (start ∅ []) (run (start {["config"%string]} example_jobs) example_run).

Lemma example_world_is : run (start {["config"%string]} example_jobs) example_run = Some example_world.
Proof. vm_compute. reflexivity. Qed.

Lemma locks_protect_loads_witness : "lora"%string ∈ wd_files example_world /\
  exists i' j' l' a', wd_loaders example_world !! i' = Some (j', l') /\ next_action j' l' = Some a' /\
    is_Some (step example_world (i', a')).
Proof.
  destruct (locks_protect_loads {["config"%string]} example_jobs example_run example_world example_world_is)
    as (Hpath & _ & _ & Hgo). split.
  - apply (Hpath 2%nat (Adapter "config" "lora") (WeightsFound LOCK_SH)); vm_compute; reflexivity.
  - apply (Hgo 2%nat (Adapter "config" "lora") (WeightsFound LOCK_SH)); vm_compute; reflexivity.
Defined.

(** The index of a sharded model is read under no lock: between the lookup of its path and [open] another server may
    remove it, and the load raises. *)
Example index_may_vanish : (fun w => wd_loaders w) <$> run (start {["index.json"]} [Index "index.json"; Weights "block0"]%string)
  [(0%nat, Get_index); (1%nat, _blocks_lock LOCK_SH); (1%nat, Lookup); (1%nat, _blocks_lock LOCK_EX); (1%nat, Remove "index.json"); (0%nat, Open_index)]%string
  = Some [(Index "index.json", IndexVanished); (Weights "block0", Writes)]%string.
Proof. vm_compute. reflexivity. Qed.
