(* ===== verification/Container.v ===== *)
(** * Container: [server/container.py]

    A container loads some blocks of the model and serves them until it is shut down.  Loading and converting a
    block, and the processes it starts, are outside the model: what happens is recorded as events. *)

From S2P Require Import Prelude PyString PyFloat PyDict DataStructures Utils Dht Backend BlockFunctions HostResources Reachability Announcer.

(** ** Task pools of the blocks *)

(** The pools of [TransformerBackend], by identity. *)
Inductive pool_id := InferencePool (uid : string) | ForwardPool (uid : string) | BackwardPool (uid : string) | MergedPool.

#[global] Instance pool_id_eq_dec : EqDecision pool_id.
Proof. solve_decision. Defined.

Record backend_pools := mkPools {
  bp_inference : pool_id;
  bp_forward : pool_id;
  bp_backward : pool_id;
}.

Definition new_pools (uid : string) : backend_pools := mkPools (InferencePool uid) (ForwardPool uid) (BackwardPool uid).

Definition get_pools (b : backend_pools) : list pool_id := [bp_forward b; bp_backward b; bp_inference b].

Definition merge_inference_pools_inplace (backends : list (string * backend_pools)) : result (list (string * backend_pools)) :=
  _ ← assert_ (negb (zlen backends =? 0));
  mret ((fun kv => (kv.1, mkPools MergedPool (bp_forward kv.2) (bp_backward kv.2))) <$> backends).

(** [RuntimeWithDeduplicatedPools]: hivemind's runtime collects the pools of all backends. *)
Definition runtime_pools (backends : list (string * backend_pools)) : list pool_id :=
  remove_dups (concat ((fun kv => get_pools kv.2) <$> backends)).

(** ** Building a container *)

Inductive event :=
  | StartAnnouncer (module_uids : list string)
  | Announce (s : ServerState)
  | LoadBlock (block_index : Z)
  | MakeBackend (uid : string)
  | ShutdownBackend (uid : string)
  | StartHandler (handler_index : Z)
  | RunRuntime
  | ClearReady
  | ShutdownHandler (handler_index : Z)
  | ShutdownPool (p : pool_id)
  | ShutdownRuntime.

Section container.
Context {PI : PeerIds} {TD : TorchDtypes}.
Context {module : Type}.                                     (* a block as PyTorch holds it *)

(** What loading gives, how the API answers about the peer, and what the constructor's library calls give. *)
Record builder := mkBuilder {
  bd_load_pretrained_block : Z -> result module;
  bd_convert_block : module -> Z -> result module;
  bd_backend : string -> module -> result TransformerBackend;
  bd_answer : nat -> option bool;
  bd_construct : result unit;                                (* the queues, the handlers and the runtime *)
  bd_background : result unit;                               (* [run_in_background] *)
}.

Record create_args := mkCreateArgs {
  ca_peer_id : PeerID;
  ca_dht_prefix : string;
  ca_block_config : PretrainedConfig;
  ca_server_info : ServerInfo;
  ca_model_info : ModelInfo;
  ca_block_indices : list Z;
  ca_update_period : pyfloat;
  ca_expiration : pyfloat;
  ca_num_handlers : Z;
  ca_tensor_parallel_devices : list Z;
  ca_should_validate_reachability : bool;
}.

Record container := mkContainer {
  ct_announcer : ModuleAnnouncerThread;
  ct_backends : list (string * TransformerBackend);
  ct_handlers : list (Z * QuantType);                        (* the index and the quantization of each handler *)
  ct_pools : list pool_id;
  ct_server_info : ServerInfo;
}.

(** [max_pinged = 5] *)
Definition default_max_pinged : Z := 5.

Definition load_block (bd : builder) (uid : string) (block_index : Z) : result TransformerBackend :=
  block ← bd_load_pretrained_block bd block_index;
  block ← bd_convert_block bd block block_index;
  b ← bd_backend bd uid block;
  _ ← tb_check b;
  mret b.

(** The loop over the blocks: what was loaded so far, and an exception if there is one. *)
Fixpoint load_blocks (bd : builder) (blocks : list (string * TransformerBackend)) (todo : list (string * Z))
    : list event * list (string * TransformerBackend) * result unit :=
  match todo with
  | [] => ([], blocks, Ok ())
  | (uid, i) :: rest =>
      match load_block bd uid i with
      | Err e => ([LoadBlock i], blocks, Err e)
      | Ok b => let '(evs, blocks', r) := load_blocks bd (dset blocks uid b) rest in (LoadBlock i :: MakeBackend uid :: evs, blocks', r)
      end
  end.

(** [QuantType[server_info.quant_type.upper()]] *)
Definition quant_of (name : option string) : result QuantType :=
  name ← get_or AttributeError name;
  let u := str_map upper_char name in
  if String.eqb u "NONE" then Ok QNONE else if String.eqb u "INT8" then Ok INT8 else if String.eqb u "NF4" then Ok NF4 else Err KeyError.

(** [ModuleContainer.run]: the handlers and the runtime are started. *)
Definition run_events (handlers : list (Z * QuantType)) : list event := (StartHandler <$> handlers.*1) ++ [RunRuntime].

(** The constructor, with [start=True]. *)
Definition container_init (bd : builder) (args : create_args) (a : ModuleAnnouncerThread) (info : ServerInfo)
    (blocks : list (string * TransformerBackend)) (pools : list pool_id) : list event * result container :=
  match mapR (fun i => q ← quant_of (si_quant_type info); mret (i, q)) (zrange 0 (ca_num_handlers args)) with
  | Err e => ([], Err e)
  | Ok handlers =>
      match bd_construct bd, bd_background bd with
      | Err e, _ => ([], Err e)
      | Ok _, Err e => ([Announce ONLINE], Err e)
      | Ok _, Ok _ =>
          (Announce ONLINE :: run_events handlers, Ok (mkContainer a blocks handlers pools (si_with_state info ONLINE)))
      end
  end.

(** Nothing fails in the constructor. *)
Definition constructs (bd : builder) : Prop := bd_construct bd = Ok () /\ bd_background bd = Ok ().

(** [ModuleContainer.create] *)
Definition create (bd : builder) (args : create_args) : list event * result container :=
  let module_uids := (fun i => make_uid (ca_dht_prefix args) i) <$> ca_block_indices args in
  match announcer_init module_uids (ca_peer_id args) (si_with_state (ca_server_info args) JOINING) (ca_model_info args)
          (ca_block_config args) (ca_update_period args) (ca_expiration args) default_max_pinged with
  | Err e => ([], Err e)
  | Ok (a, info) =>
      if zlen (ca_tensor_parallel_devices args) <? 1 then ([StartAnnouncer module_uids], Err AssertionError)
      else
        let '(evs, blocks, loaded) := load_blocks bd [] (zip module_uids (ca_block_indices args)) in
        let ready :=
          _ ← loaded;
          merged ← merge_inference_pools_inplace ((fun kv => (kv.1, new_pools kv.1)) <$> blocks);
          _ ← (if ca_should_validate_reachability args
               then validate_reachability default_wait_time default_retry_delay (bd_answer bd) else Ok ());
          mret (runtime_pools merged) in
        match ready with
        | Err e => (StartAnnouncer module_uids :: evs ++ (ShutdownBackend <$> dkeys blocks) ++ [Announce OFFLINE], Err e)
        | Ok pools =>
            let '(evs', r) := container_init bd args a info blocks pools in (StartAnnouncer module_uids :: evs ++ evs', r)
        end
  end.

(** [is_healthy] *)
Definition is_healthy (handler_alive : Z -> bool) (pool_alive : pool_id -> bool) (c : container) : bool :=
  forallb (fun h => handler_alive h.1) (ct_handlers c) && forallb pool_alive (ct_pools c).

(** [ModuleContainer.shutdown] *)
Definition shutdown (pool_alive : pool_id -> bool) (c : container) : list event :=
  [Announce OFFLINE; ClearReady] ++ (ShutdownHandler <$> (ct_handlers c).*1)
  ++ (ShutdownPool <$> List.filter pool_alive (ct_pools c)) ++ [ShutdownRuntime] ++ (ShutdownBackend <$> dkeys (ct_backends c)).
End container.
Arguments builder : clear implicits.

(** ** What is made is shut down *)

Definition made (evs : list event) : list string := omap (fun e => match e with MakeBackend u => Some u | _ => None end) evs.
Definition shut (evs : list event) : list string := omap (fun e => match e with ShutdownBackend u => Some u | _ => None end) evs.

Lemma made_cons e evs : made (e :: evs) = match e with MakeBackend u => u :: made evs | _ => made evs end.
Proof. by destruct e. Qed.

Lemma shut_cons e evs : shut (e :: evs) = match e with ShutdownBackend u => u :: shut evs | _ => shut evs end.
Proof. by destruct e. Qed.

Lemma made_app evs evs' : made (evs ++ evs') = made evs ++ made evs'.
Proof. apply omap_app. Qed.

Lemma shut_app evs evs' : shut (evs ++ evs') = shut evs ++ shut evs'.
Proof. apply omap_app. Qed.

Lemma shut_backends us : shut (ShutdownBackend <$> us) = us.
Proof. induction us as [|u us IH]; [done|]. cbn. by f_equal. Qed.

Lemma made_none {A} (f : A -> event) (l : list A) : (forall x u, f x <> MakeBackend u) -> made (f <$> l) = [].
Proof. intros H. induction l as [|x l IH]; [done|]. cbn. destruct (f x) eqn:E; try apply IH. by destruct (H x uid). Qed.

Lemma shut_none {A} (f : A -> event) (l : list A) : (forall x u, f x <> ShutdownBackend u) -> shut (f <$> l) = [].
Proof. intros H. induction l as [|x l IH]; [done|]. cbn. destruct (f x) eqn:E; try apply IH. by destruct (H x uid). Qed.

(** The pools of the blocks after merging: two of their own each, and the shared one. *)
Lemma runtime_pools_merged uids :
  NoDup uids -> uids <> [] ->
  exists merged, merge_inference_pools_inplace ((fun u => (u, new_pools u)) <$> uids) = Ok merged /\
    runtime_pools merged ≡ₚ MergedPool :: (ForwardPool <$> uids) ++ (BackwardPool <$> uids).
Proof.
  intros Hnd Hne. unfold merge_inference_pools_inplace. destruct uids as [|u us] eqn:E; [done|]. rewrite <- E in *.
  assert (negb (zlen ((fun u => (u, new_pools u)) <$> uids) =? 0) = true) as ->.
  { by rewrite E. }
  cbn. eexists. split; [done|]. unfold runtime_pools. apply NoDup_Permutation.
  - apply NoDup_remove_dups.
  - constructor; [|apply NoDup_app; split; [|split]].
    + rewrite elem_of_app, !list_elem_of_fmap. intros [(? & [=] & _)|(? & [=] & _)].
    + apply NoDup_fmap_2; [|done]. by intros ?? [= ->].
    + intros p (x & -> & _)%list_elem_of_fmap (y & [=] & _)%list_elem_of_fmap.
    + apply NoDup_fmap_2; [|done]. by intros ?? [= ->].
  - intros p. rewrite elem_of_remove_dups, list_elem_of_In, in_concat. rewrite elem_of_cons, elem_of_app, !list_elem_of_fmap. split.
    + intros (l & Hl & Hp). apply list_elem_of_In in Hl, Hp. rewrite <- !list_fmap_compose in Hl.
      apply list_elem_of_fmap in Hl as (x & -> & Hx). cbn in Hp. set_solver.
    + intros H. assert (Hin : forall x, x ∈ uids -> exists l, In l ((fun kv => get_pools kv.2) <$>
        ((fun kv => (kv.1, mkPools MergedPool (bp_forward kv.2) (bp_backward kv.2))) <$> ((fun u => (u, new_pools u)) <$> uids))) /\
        l = [ForwardPool x; BackwardPool x; MergedPool]).
      { intros x Hx. eexists. split; [|done]. apply list_elem_of_In. rewrite <- !list_fmap_compose. apply list_elem_of_fmap. by exists x. }
      destruct H as [->|[(x & -> & Hx)|(x & -> & Hx)]].
      * destruct (Hin u) as (l & Hl & ->); [rewrite E; left|]. eexists. split; [exact Hl|]. cbn. tauto.
      * destruct (Hin x Hx) as (l & Hl & ->). eexists. split; [exact Hl|]. cbn. tauto.
      * destruct (Hin x Hx) as (l & Hl & ->). eexists. split; [exact Hl|]. cbn. tauto.
Qed.

Section container_proofs.
Context {PI : PeerIds} {TD : TorchDtypes} {module : Type}.
Implicit Types (bd : builder module) (args : create_args).

Lemma made_load bd blocks todo evs blocks' r :
  load_blocks bd blocks todo = (evs, blocks', r) -> NoDup (dkeys blocks ++ todo.*1) ->
  dkeys blocks' = dkeys blocks ++ made evs /\ shut evs = [] /\ (forall s, Announce s ∉ evs) /\
  (r = Ok () -> made evs = todo.*1) /\
  (r = Ok () -> forall u b, dget blocks' u = Some b -> dget blocks u = Some b \/ exists i, (u, i) ∈ todo /\ load_block bd u i = Ok b).
Proof.
  revert blocks evs blocks' r. induction todo as [|[u i] todo IH]; intros blocks evs blocks' r H Hnd; cbn [load_blocks] in H.
  { injection H as <- <- <-. cbn. rewrite app_nil_r. repeat split; [intros s Hs; inversion Hs|auto]. }
  rewrite fmap_cons in Hnd. cbn [fst] in Hnd. destruct (load_block bd u i) as [b|e] eqn:El.
  - destruct (load_blocks bd (dset blocks u b) todo) as [[evs1 b1] r1] eqn:E. injection H as <- <- <-.
    assert (Hk : dkeys (dset blocks u b) = dkeys blocks ++ [u]).
    { apply dkeys_dset_absent. apply NoDup_app in Hnd as (_ & Hd & _). intros Hu. apply (Hd u Hu). left. }
    destruct (IH _ _ _ _ E) as (H1 & H2 & H3 & H4 & H5).
    { rewrite Hk, <- app_assoc. done. }
    rewrite H1, Hk, <- app_assoc. split; [done|]. split; [done|]. split.
    + intros s Hs. apply elem_of_cons in Hs as [[=]|Hs]. apply elem_of_cons in Hs as [[=]|Hs]. by apply (H3 s).
    + split; [intros Hr; cbn; f_equal; by apply H4|]. intros Hr u' b' Hg. destruct (H5 Hr u' b' Hg) as [Hg'|(j & Hj & Hb)].
      * rewrite dget_dset in Hg'. case_decide; [subst|by left]. injection Hg' as <-. right. exists i. split; [left|done].
      * right. exists j. split; [by right|done].
  - injection H as <- <- <-. cbn. rewrite app_nil_r. repeat split; try done. intros s Hs. apply elem_of_cons in Hs as [[=]|Hs]. inversion Hs.
Qed.

(** Loading blocks does nothing but loading and making them. *)
Lemma load_events bd blocks todo evs blocks' r :
  load_blocks bd blocks todo = (evs, blocks', r) -> Forall (fun e => (exists i, e = LoadBlock i) \/ exists u, e = MakeBackend u) evs.
Proof.
  revert blocks evs blocks' r. induction todo as [|[u j] todo IH]; intros blocks evs blocks' r H; cbn [load_blocks] in H.
  { injection H as <- <- <-. constructor. }
  destruct (load_block bd u j) as [b|e].
  - destruct (load_blocks bd (dset blocks u b) todo) as [[evs1 b1] r1] eqn:E. injection H as <- <- <-.
    constructor; [by left; exists j|]. constructor; [by right; exists u|]. by eapply IH.
  - injection H as <- <- <-. constructor; [by left; exists j|constructor].
Qed.

Lemma load_no_handlers bd blocks todo evs blocks' r i : load_blocks bd blocks todo = (evs, blocks', r) -> StartHandler i ∉ evs.
Proof. intros H Hi. apply load_events in H. rewrite Forall_forall in H. destruct (H _ Hi) as [[? [=]]|[? [=]]]. Qed.

Lemma make_uid_inj p i j : make_uid p i = make_uid p j -> i = j.
Proof.
  unfold make_uid. intros H. apply str_of_Z_inj. revert H. induction p as [|c p IH]; cbn; intros H; [by injection H|].
  injection H as H. by apply IH.
Qed.

Lemma uids_nodup p l : NoDup l -> NoDup ((fun i => make_uid p i) <$> l).
Proof. intros H. apply NoDup_fmap_2; [|done]. intros i j. apply make_uid_inj. Qed.

Lemma zip_uids (f : Z -> string) (l : list Z) : (zip (f <$> l) l).*1 = f <$> l.
Proof. induction l as [|x l IH]; [done|]. cbn. by rewrite IH. Qed.

Lemma load_all bd args evs blocks r :
  NoDup (ca_block_indices args) ->
  load_blocks bd [] (zip ((fun i => make_uid (ca_dht_prefix args) i) <$> ca_block_indices args) (ca_block_indices args)) = (evs, blocks, r) ->
  dkeys blocks = made evs /\ shut evs = [] /\ (forall s, Announce s ∉ evs) /\
  (r = Ok () -> made evs = (fun i => make_uid (ca_dht_prefix args) i) <$> ca_block_indices args) /\
  (r = Ok () -> forall u b, dget blocks u = Some b -> exists i, u = make_uid (ca_dht_prefix args) i /\ load_block bd u i = Ok b).
Proof.
  intros Hnd H. destruct (made_load _ _ _ _ _ _ H) as (H1 & H2 & H3 & H4 & H5).
  { cbn. rewrite zip_uids. by apply uids_nodup. }
  rewrite zip_uids in H4. split; [done|]. split; [done|]. split; [done|]. split; [done|].
  intros Hr u b Hg. destruct (H5 Hr u b Hg) as [[=]|(i & Hi & Hb)]. exists i. split; [|done].
  apply list_elem_of_lookup in Hi as [k Hk]. apply lookup_zip_Some in Hk as [Hk1 Hk2].
  rewrite list_lookup_fmap, Hk2 in Hk1. by injection Hk1.
Qed.

(** A failed attempt to build a container. *)
Lemma create_failed bd args evs e q :
  constructs bd -> NoDup (ca_block_indices args) -> ca_tensor_parallel_devices args <> [] -> quant_of (si_quant_type (ca_server_info args)) = Ok q ->
  create bd args = (evs, Err e) ->
  evs = [] \/
  exists before, evs = before ++ (ShutdownBackend <$> made before) ++ [Announce OFFLINE] /\ shut before = [] /\
    (forall s, Announce s ∉ before).
Proof.
  intros [Hbc Hbb] Hnd Hdev Hq. unfold create. destruct (announcer_init _ _ _ _ _ _ _ _) as [[a info]|x] eqn:Ea; [|intros [= <- <-]; by left].
  destruct (Z.ltb_spec (zlen (ca_tensor_parallel_devices args)) 1) as [Hz|_].
  { destruct (ca_tensor_parallel_devices args); [done|]. unfold zlen in Hz. cbn [length] in Hz. lia. }
  destruct (load_blocks _ _ _) as [[evs0 blocks] loaded] eqn:El. destruct (load_all _ _ _ _ _ Hnd El) as (H1 & H2 & H3 & _).
  match goal with |- context [match ?r with Ok _ => _ | Err _ => _ end] => destruct r as [pools|x] end.
  - assert (Hi : si_quant_type info = si_quant_type (ca_server_info args)).
    { unfold announcer_init in Ea. by inv_ok. }
    unfold container_init. rewrite Hi, Hq. cbn [mbind result_bind].
    assert (Hm : forall l, mapR (fun i : Z => mret (i, q)) l = Ok ((fun i => (i, q)) <$> l)).
    { intros l. induction l as [|i l IHl]; [done|]. cbn [mapR]. unfold mret at 1, result_ret at 1. by rewrite IHl. }
    cbn. rewrite Hm, Hbc, Hbb. by intros [=].
  - intros [= <- <-]. right. exists (StartAnnouncer ((fun i => make_uid (ca_dht_prefix args) i) <$> ca_block_indices args) :: evs0).
    rewrite H1. split; [done|]. split; [done|]. intros s Hs. apply elem_of_cons in Hs as [[=]|Hs]. by apply (H3 s).
Qed.

(** A container that cannot be built leaves nothing behind: whatever step before the constructor fails, every block that was loaded is
    shut down, the last announcement is OFFLINE, ONLINE was never announced, and the exception is passed on. *)
Theorem create_cleans_up bd args evs e q :
  constructs bd -> NoDup (ca_block_indices args) -> ca_tensor_parallel_devices args <> [] -> quant_of (si_quant_type (ca_server_info args)) = Ok q ->
  create bd args = (evs, Err e) ->
  evs = [] \/
  exists before, evs = before ++ (ShutdownBackend <$> made before) ++ [Announce OFFLINE] /\ shut before = [] /\
    (forall s, Announce s ∉ before).
Proof. apply create_failed. Qed.

(** A container that was built, and its shutdown. *)
Lemma container_built bd args evs c alive :
  NoDup (ca_block_indices args) -> create bd args = (evs, Ok c) ->
  made evs = (fun i => make_uid (ca_dht_prefix args) i) <$> ca_block_indices args /\ shut evs = [] /\
  (forall u b, dget (ct_backends c) u = Some b -> exists i, u = make_uid (ca_dht_prefix args) i /\ load_block bd u i = Ok b) /\
  (exists before, evs = before ++ Announce ONLINE :: (StartHandler <$> zrange 0 (ca_num_handlers args)) ++ [RunRuntime] /\
    made before = made evs /\ forall s, Announce s ∉ before) /\
  exists after, shutdown alive c = Announce OFFLINE :: after /\ shut after = made evs /\
    (forall i, StartHandler i ∈ evs -> ShutdownHandler i ∈ after) /\ forall p, p ∈ ct_pools c -> alive p = true -> ShutdownPool p ∈ after.
Proof.
  intros Hnd. unfold create. destruct (announcer_init _ _ _ _ _ _ _ _) as [[a info]|x]; [|intros [=]].
  destruct (zlen (ca_tensor_parallel_devices args) <? 1); [intros [=]|].
  destruct (load_blocks _ _ _) as [[evs0 blocks] loaded] eqn:El. destruct (load_all _ _ _ _ _ Hnd El) as (H1 & H2 & H3 & H4 & H5).
  destruct loaded as [[]|x]; [|intros [=]]. specialize (H4 eq_refl). specialize (H5 eq_refl).
  match goal with |- context [match ?r with Ok _ => _ | Err _ => _ end] => destruct r as [pools|x]; [|intros [=]] end.
  destruct (container_init bd args a info blocks pools) as [evs' r] eqn:Ei. intros [= <- ->].
  unfold container_init in Ei. destruct (mapR _ (zrange 0 _)) as [handlers|] eqn:Eh; [|discriminate Ei].
  destruct (bd_construct bd), (bd_background bd); try discriminate Ei. injection Ei as <- <-.
  assert (Hh : handlers.*1 = zrange 0 (ca_num_handlers args)).
  { clear -Eh. revert handlers Eh. induction (zrange 0 (ca_num_handlers args)) as [|i l IH]; intros handlers Eh; cbn [mapR] in Eh; [by injection Eh as <-|].
    inv_ok. rewrite fmap_cons. cbn. f_equal. by apply IH. }
  unfold run_events. rewrite Hh. cbn [ct_backends ct_handlers ct_pools].
  assert (Hmr : made ((StartHandler <$> zrange 0 (ca_num_handlers args)) ++ [RunRuntime]) = []).
  { rewrite made_app. rewrite made_none by done. done. }
  assert (Hsr : shut ((StartHandler <$> zrange 0 (ca_num_handlers args)) ++ [RunRuntime]) = []).
  { rewrite shut_app. rewrite shut_none by done. done. }
  assert (Hm : made (StartAnnouncer ((fun i => make_uid (ca_dht_prefix args) i) <$> ca_block_indices args) :: evs0 ++
      Announce ONLINE :: (StartHandler <$> zrange 0 (ca_num_handlers args)) ++ [RunRuntime]) = made evs0).
  { by rewrite made_cons, made_app, made_cons, Hmr, app_nil_r. }
  rewrite Hm. split; [done|]. split; [by rewrite shut_cons, shut_app, shut_cons, H2, Hsr|]. split; [done|]. split.
  - eexists (_ :: evs0). split; [reflexivity|]. split; [done|]. intros s Hs. apply elem_of_cons in Hs as [[=]|Hs]. by apply (H3 s).
  - eexists. split; [reflexivity|]. cbn [ct_handlers ct_pools ct_backends]. rewrite Hh. split; [|split].
    + rewrite shut_cons, !shut_app, shut_none, shut_none, shut_backends by done. done.
    + intros i Hi. apply elem_of_cons. right. apply elem_of_app. left. apply list_elem_of_fmap. exists i. split; [done|].
      revert Hi. rewrite elem_of_cons, elem_of_app, elem_of_cons, elem_of_app. intros [[=]|[Hi|[[=]|[Hi|Hi]]]].
      * exfalso. clear -El Hi. revert Hi. eapply load_no_handlers. exact El.
      * by apply list_elem_of_fmap in Hi as (j & [= ->] & Hj).
      * apply list_elem_of_singleton in Hi. discriminate Hi.
    + intros p Hp Ha. apply elem_of_cons. right. apply elem_of_app. right. apply elem_of_app. left. apply list_elem_of_fmap.
      exists p. split; [done|]. apply list_elem_of_In, filter_In. split; [by apply list_elem_of_In|done].
Qed.

(** A container that is built serves exactly the requested blocks: each was loaded, ONLINE is announced once all
    of them are there, and shutting it down announces OFFLINE first and then stops every handler that was started,
    every pool that is alive and every block. *)
Theorem container_lifecycle bd args evs c alive :
  NoDup (ca_block_indices args) -> create bd args = (evs, Ok c) ->
  made evs = (fun i => make_uid (ca_dht_prefix args) i) <$> ca_block_indices args /\ shut evs = [] /\
  (forall u b, dget (ct_backends c) u = Some b -> exists i, u = make_uid (ca_dht_prefix args) i /\ load_block bd u i = Ok b) /\
  (exists before, evs = before ++ Announce ONLINE :: (StartHandler <$> zrange 0 (ca_num_handlers args)) ++ [RunRuntime] /\
    made before = made evs /\ forall s, Announce s ∉ before) /\
  exists after, shutdown alive c = Announce OFFLINE :: after /\ shut after = made evs /\
    (forall i, StartHandler i ∈ evs -> ShutdownHandler i ∈ after) /\ forall p, p ∈ ct_pools c -> alive p = true -> ShutdownPool p ∈ after.
Proof. apply container_built. Qed.

(** The runtime serves two task pools per block and the shared inference pool, each of them once. *)
Theorem container_pools bd args evs c :
  NoDup (ca_block_indices args) -> create bd args = (evs, Ok c) ->
  let uids := (fun i => make_uid (ca_dht_prefix args) i) <$> ca_block_indices args in
  ct_pools c ≡ₚ MergedPool :: (ForwardPool <$> uids) ++ (BackwardPool <$> uids).
Proof.
  intros Hnd. unfold create. destruct (announcer_init _ _ _ _ _ _ _ _) as [[a info]|x]; [|intros [=]].
  destruct (zlen (ca_tensor_parallel_devices args) <? 1); [intros [=]|].
  destruct (load_blocks _ _ _) as [[evs0 blocks] loaded] eqn:El. destruct (load_all _ _ _ _ _ Hnd El) as (H1 & _ & _ & H4 & _).
  destruct loaded as [[]|x]; [|intros [=]]. specialize (H4 eq_refl). cbn [mbind result_bind].
  assert (Hb : (fun kv : string * TransformerBackend => (kv.1, new_pools kv.1)) <$> blocks =
    (fun u => (u, new_pools u)) <$> ((fun i => make_uid (ca_dht_prefix args) i) <$> ca_block_indices args)).
  { rewrite <- H4, <- H1. unfold dkeys. by rewrite <- list_fmap_compose. }
  rewrite Hb. destruct (merge_inference_pools_inplace _) as [merged|x] eqn:Em; [|intros [=]].
  destruct (runtime_pools_merged ((fun i => make_uid (ca_dht_prefix args) i) <$> ca_block_indices args)) as (merged' & Em' & Hp).
  { by apply uids_nodup. }
  { intros E. by rewrite E in Em. }
  rewrite Em in Em'. injection Em' as <-.
  destruct (if ca_should_validate_reachability args then _ else _) as [[]|x]; [|intros [=]]. cbn.
  destruct (container_init bd args a info blocks (runtime_pools merged)) as [evs' r] eqn:Ei. intros [= _ ->].
  unfold container_init in Ei. destruct (mapR _ _) in Ei; [|discriminate Ei].
  destruct (bd_construct bd), (bd_background bd); try discriminate Ei. by injection Ei as _ <-.
Qed.

(** Building a container starts its announcer first, and only there. *)
Lemma create_starts_once bd args evs r : create bd args = (evs, r) -> Forall (fun e => forall us, e <> StartAnnouncer us) (tail evs).
Proof.
  unfold create. destruct (announcer_init _ _ _ _ _ _ _ _) as [[a info]|x]; [|intros [= <- <-]; constructor].
  destruct (zlen (ca_tensor_parallel_devices args) <? 1); [intros [= <- <-]; constructor|].
  destruct (load_blocks _ _ _) as [[evs0 blocks] loaded] eqn:El. apply load_events in El.
  assert (H0 : Forall (fun e => forall us, e <> StartAnnouncer us) evs0).
  { eapply Forall_impl; [exact El|]. by intros e [[? ->]|[? ->]]. }
  match goal with |- context [match ?r with Ok _ => _ | Err _ => _ end] => destruct r as [pools|x] end.
  - unfold container_init. destruct (mapR _ _) as [hs|x], (bd_construct bd), (bd_background bd); intros [= <- <-]; cbn [tail];
      apply Forall_app; (split; [done|]); try (by repeat constructor).
    constructor; [done|]. unfold run_events. apply Forall_app. split; [by apply Forall_fmap, Forall_true|by constructor].
  - intros [= <- <-]. cbn [tail]. apply Forall_app. split; [done|]. apply Forall_app. split; [by apply Forall_fmap, Forall_true|by constructor].
Qed.

Lemma shutdown_starts_none alive (c : container) : Forall (fun e => forall us, e <> StartAnnouncer us) (shutdown alive c).
Proof.
  unfold shutdown. repeat first [apply Forall_app; split | apply Forall_cons; split; [done|] | apply Forall_nil_2 | by apply Forall_fmap, Forall_true].
Qed.

Lemma created_quant bd args evs c : create bd args = (evs, Ok c) -> si_quant_type (ct_server_info c) = si_quant_type (ca_server_info args).
Proof.
  unfold create. destruct (announcer_init _ _ _ _ _ _ _ _) as [[a info]|x] eqn:Ea; [|intros [=]].
  assert (Hi : si_quant_type info = si_quant_type (ca_server_info args)) by (unfold announcer_init in Ea; by inv_ok).
  destruct (zlen (ca_tensor_parallel_devices args) <? 1); [intros [=]|].
  destruct (load_blocks _ _ _) as [[evs0 blocks] loaded].
  match goal with |- context [match ?r with Ok _ => _ | Err _ => _ end] => destruct r as [pools|x]; [|intros [=]] end.
  unfold container_init. destruct (mapR _ _), (bd_construct bd), (bd_background bd); intros [= _ <-]. exact Hi.
Qed.
End container_proofs.

(** ** Witnesses *)

Definition plain_builder (fails_at : Z) : builder unit :=
  mkBuilder (fun i => if i =? fails_at then Err RuntimeError else Ok ()) (fun m _ => Ok m)
    (fun uid _ => Ok (mkBackend uid 0 announcer_config torch_float16 8 [0] [2] 100)) (fun _ => Some true) (Ok ()) (Ok ()).

Definition nf4_info : ServerInfo :=
  mkServerInfo JOINING f_one None None None None None None None [] (Some "float16") (Some "nf4") None None None.

Definition two_blocks : create_args :=
  mkCreateArgs own_peer "m" announcer_config nf4_info (mkModelInfo 4 None) [0; 1] f_one f_one 2 [0] true.

Definition built (bd : builder unit) : list event := (create bd two_blocks).1.

Lemma two_blocks_distinct : NoDup (ca_block_indices two_blocks).
Proof. apply (bool_decide_unpack _). reflexivity. Qed.

Lemma create_cleans_up_witness :
  built (plain_builder 1) = [] \/
  exists before, built (plain_builder 1) = before ++ (ShutdownBackend <$> made before) ++ [Announce OFFLINE] /\ shut before = [] /\
    (forall s, Announce s ∉ before).
Proof.
  apply (create_cleans_up (plain_builder 1) two_blocks _ RuntimeError NF4); [done|exact two_blocks_distinct|discriminate|reflexivity|reflexivity].
Defined.

(** Nothing is cleaned up after a failure of the constructor: its blocks stay loaded, and its announcer goes on. *)
Example constructor_leaks :
  let '(evs, r) := create (mkBuilder (bd_load_pretrained_block (plain_builder 9)) (bd_convert_block (plain_builder 9))
    (bd_backend (plain_builder 9)) (bd_answer (plain_builder 9)) (Err RuntimeError) (Ok ())) two_blocks in
  is_ok r = false /\ made evs = [make_uid "m" 0; make_uid "m" 1] /\ shut evs = [] /\ Announce OFFLINE ∉ evs.
Proof. vm_compute. split_and!; try done. set_solver. Qed.

Definition served_blocks : container :=
  match (create (plain_builder 9) two_blocks).2 with
  | Ok c => c
  | Err _ => mkContainer example_announcer [] [] [] nf4_info
  end.

Lemma container_lifecycle_witness :
  made (built (plain_builder 9)) = [make_uid "m" 0; make_uid "m" 1] /\ shut (built (plain_builder 9)) = [] /\
  (forall u b, dget (ct_backends served_blocks) u = Some b -> exists i, u = make_uid "m" i /\ load_block (plain_builder 9) u i = Ok b) /\
  (exists before, built (plain_builder 9) = before ++ Announce ONLINE :: (StartHandler <$> zrange 0 2) ++ [RunRuntime] /\
    made before = made (built (plain_builder 9)) /\ forall s, Announce s ∉ before) /\
  exists after, shutdown (fun _ => true) served_blocks = Announce OFFLINE :: after /\ shut after = made (built (plain_builder 9)) /\
    (forall i, StartHandler i ∈ built (plain_builder 9) -> ShutdownHandler i ∈ after) /\
    forall p, p ∈ ct_pools served_blocks -> true = true -> ShutdownPool p ∈ after.
Proof.
  apply (container_lifecycle (plain_builder 9) two_blocks _ served_blocks (fun _ => true)); [exact two_blocks_distinct|reflexivity].
Defined.

Lemma container_pools_witness :
  ct_pools served_blocks ≡ₚ MergedPool :: [ForwardPool (make_uid "m" 0); ForwardPool (make_uid "m" 1)]
    ++ [BackwardPool (make_uid "m" 0); BackwardPool (make_uid "m" 1)].
Proof. apply (container_pools (plain_builder 9) two_blocks (built (plain_builder 9)) served_blocks); [exact two_blocks_distinct|reflexivity]. Defined.
