(* ===== verification/Discovery.v ===== *)
(** * Discovery: from the announcements of servers to the routing table of a client

    Servers declare their blocks with [declare_active_modules], hivemind's DHT keeps the declarations, a client's
    [RemoteSequenceManager._update] reads them back and makes its table of spans.  The components are those of Dht,
    SequenceInfo and SequenceManager; this file composes them. *)

From S2P Require Import Prelude PyString PyFloat PyDict DataStructures Utils Dht SequenceInfo SequenceManager Container.

Section discovery.
Context {PI : PeerIds} {PY : Pydantic} {RND : PyRandom} {BL : Blacklist}.

(** ** Servers *)

(** What a server declares, again and again: its information and when the declaration expires. *)
Record provider := mkProvider {
  pv_peer : PeerID;
  pv_start : Z;
  pv_end : Z;
  pv_declared : list (ServerInfo * pyfloat);
}.

Definition module_uids (prefix : string) (a b : Z) : list string := (fun i => make_uid prefix i) <$> zrange a b.

Definition declarations (prefix : string) (pv : provider) : result (list store_entry) :=
  l ← mapR (fun d => declare_active_modules (pv_peer pv) (module_uids prefix (pv_start pv) (pv_end pv)) d.1 d.2) (pv_declared pv);
  mret (concat l).

(** What a server says of itself now *)
Definition current (pv : provider) : option ServerInfo := fst <$> last (pv_declared pv).

(** A server has declared itself, and says which blocks it has. *)
Record provider_ok (n : Z) (pv : provider) : Prop := {
  po_range : 0 <= pv_start pv /\ pv_start pv < pv_end pv /\ pv_end pv <= n;
  po_declared : pv_declared pv <> [];
  po_infos : forall info exp, (info, exp) ∈ pv_declared pv ->
    valid_info info = true /\ si_start_block info = Some (pv_start pv) /\ si_end_block info = Some (pv_end pv);
}.

(** ** The DHT *)

Definition entry_key (e : store_entry) : string := e.1.1.1.
Definition entry_subkey (e : store_entry) : string := e.1.1.2.
Definition entry_value (e : store_entry) : list pyval := e.1.2.

(** The declarations of the servers in some order: what is stored by a peer is what it has declared, in its order. *)
Record published (prefix : string) (pvs : list provider) (entries : list store_entry) : Prop := {
  pb_each : forall pv, pv ∈ pvs -> declarations prefix pv = Ok (filter (fun e => entry_subkey e = to_base58 (pv_peer pv)) entries);
  pb_all : forall e, e ∈ entries -> exists pv, pv ∈ pvs /\ entry_subkey e = to_base58 (pv_peer pv);
}.

(** The value of a subkey is the one stored last, since declarations expire in the order in which they are made. *)
Definition stored (entries : list store_entry) (key subkey : string) : option (list pyval) :=
  entry_value <$> last (filter (fun e => entry_key e = key /\ entry_subkey e = subkey) entries).

(** [node.get_many]: under each key the dictionary of its subkeys, and nothing when there are none.  The entries are those
    that have not expired. *)
Definition delivers (entries : list store_entry) (found : string -> option DHTValue) : Prop := forall key,
  match found key with
  | Some (DictValue d) => dict_wf d /\ forall subkey, dget d subkey = PList <$> stored entries key subkey
  | Some OtherValue => False
  | None => forall subkey, stored entries key subkey = None
  end.

(** A DHT that does so: the entries of a key, stored one after another. *)
Definition simple_dht (entries : list store_entry) (key : string) : option DHTValue :=
  match filter (fun e => entry_key e = key) entries with
  | [] => None
  | l => Some (DictValue (fold_left (fun d e => dset d (entry_subkey e) (PList (entry_value e))) l []))
  end.

(** ** What is stored *)

Lemma filter_and {A} (P Q : A -> Prop) `{forall x, Decision (P x)} `{forall x, Decision (Q x)} (l : list A) :
  filter (fun x => P x /\ Q x) l = filter P (filter Q l).
Proof.
  induction l as [|x l IH]; [done|]. rewrite !filter_cons. destruct (decide (Q x)) as [Hq|Hq].
  - rewrite filter_cons. destruct (decide (P x)) as [Hp|Hp]; case_decide as Ha; try tauto; by rewrite IH.
  - case_decide as Ha; [tauto|done].
Qed.

Lemma stored_by entries key subkey :
  stored entries key subkey = entry_value <$> last (filter (fun e => entry_key e = key) (filter (fun e => entry_subkey e = subkey) entries)).
Proof. unfold stored. by rewrite filter_and. Qed.

Lemma declared_entries prefix pv es : declarations prefix pv = Ok es ->
  es = concat ((fun d => _declare_active_modules (pv_peer pv) (module_uids prefix (pv_start pv) (pv_end pv)) d.1 d.2) <$> pv_declared pv).
Proof.
  unfold declarations. intros H. destruct (mapR _ _) as [l|] eqn:Em; [|done]. injection H as <-. f_equal.
  apply mapR_Forall2 in Em. induction Em as [|d e ds es Hd _ IH]; [done|]. cbn. f_equal; [|done].
  unfold declare_active_modules in Hd. by destruct (forallb _ _); [injection Hd as <-|].
Qed.

(** One declaration under a key: the information of the server, if the key is one of its blocks. *)
Lemma entries_of_key key peer uids info exp : NoDup uids ->
  filter (fun e => entry_key e = key) (_declare_active_modules peer uids info exp) =
  if decide (key ∈ uids) then [(key, to_base58 peer, to_tuple info, exp)] else [].
Proof.
  unfold _declare_active_modules. induction uids as [|u uids IH]; intros Hnd.
  - rewrite decide_False; [done|]. by intros H%elem_of_nil.
  - apply NoDup_cons in Hnd as [Hu Hnd]. cbn [map]. rewrite filter_cons, IH by done. change (entry_key _) with u.
    destruct (decide (u = key)) as [->|Hne].
    + destruct (decide (key ∈ uids)) as [?|_]; [done|]. rewrite decide_True; [done|by left].
    + destruct (decide (key ∈ uids)) as [Hin|Hin]; [by rewrite decide_True by (by right)|].
      rewrite decide_False; [done|]. intros [->|?]%elem_of_cons; done.
Qed.

Lemma stored_declared prefix pv entries key info :
  declarations prefix pv = Ok (filter (fun e => entry_subkey e = to_base58 (pv_peer pv)) entries) -> current pv = Some info ->
  stored entries key (to_base58 (pv_peer pv)) =
  if decide (key ∈ module_uids prefix (pv_start pv) (pv_end pv)) then Some (to_tuple info) else None.
Proof.
  intros Hd Hc. rewrite stored_by, (declared_entries _ _ _ Hd). clear Hd. unfold current in Hc.
  destruct (last (pv_declared pv)) as [[i exp]|] eqn:El; [|done]. injection Hc as ->.
  apply last_Some in El as [l ->]. rewrite fmap_app, concat_app, filter_app. cbn [fmap list_fmap concat]. rewrite app_nil_r.
  rewrite (entries_of_key key (pv_peer pv) _ info exp) by (apply uids_nodup, zrange_NoDup).
  destruct (decide _) as [Hin|Hin]; cbn [fst snd]; [by rewrite last_snoc|]. rewrite app_nil_r.
  assert (Hnil : filter (fun e => entry_key e = key) (concat ((fun d => _declare_active_modules (pv_peer pv)
    (module_uids prefix (pv_start pv) (pv_end pv)) d.1 d.2) <$> l)) = []); [|by rewrite Hnil].
  clear exp. induction l as [|[i e] l IH]; [done|]. cbn. rewrite filter_app, IH, app_nil_r.
  rewrite entries_of_key by (apply uids_nodup, zrange_NoDup). by rewrite decide_False.
Qed.

Lemma stored_nobody prefix pvs entries key subkey : published prefix pvs entries ->
  (forall pv, pv ∈ pvs -> subkey <> to_base58 (pv_peer pv)) -> stored entries key subkey = None.
Proof.
  intros Hp Hn. unfold stored. destruct (last _) as [e|] eqn:El; [|done]. exfalso.
  apply last_Some_elem_of in El. apply list_elem_of_filter in El as [[_ Hs] Hin].
  destruct (pb_all _ _ _ Hp e Hin) as (pv & Hpv & Hs'). apply (Hn pv Hpv). by rewrite <- Hs.
Qed.

Lemma elem_of_uids prefix a b i : make_uid prefix i ∈ module_uids prefix a b <-> a <= i < b.
Proof.
  unfold module_uids. rewrite list_elem_of_fmap. split.
  - intros (j & ->%make_uid_inj & Hj). by apply elem_of_zrange.
  - intros H. exists i. split; [done|]. by apply elem_of_zrange.
Qed.

(** ** What a client reads *)

#[local] Instance has_adapter_dec adapter info : Decision (has_adapter adapter info).
Proof. unfold has_adapter. destruct adapter; apply _. Defined.

Lemma to_base58_inj p q : to_base58 p = to_base58 q -> p = q.
Proof. intros H. apply (f_equal from_base58) in H. rewrite !from_to_base58 in H. by injection H. Qed.

Lemma add_server_valid adapter servers p info : valid_info info = true ->
  add_server adapter servers (to_base58 p, PList (to_tuple info)) =
  Ok (if decide (has_adapter adapter info) then dset servers p info else servers).
Proof.
  intros Hv. unfold add_server. cbn [fst snd]. rewrite from_to_base58. unfold get_or, mbind, result_bind.
  rewrite tuple_roundtrip by done. unfold has_adapter_dec, has_adapter. destruct adapter as [a|]; [|by rewrite decide_True].
  destruct (decide (a = "")) as [->|Ha]; cbn; [by rewrite decide_True by (by left)|].
  rewrite bool_decide_false by done. cbn. destruct (decide (a ∈ si_adapters info)) as [Hin|Hin].
  - rewrite bool_decide_true, decide_True by (done || by right). done.
  - rewrite bool_decide_false, decide_False by (done || by intros [?|?]). done.
Qed.

Definition announced_entry (kv : string * pyval) : Prop :=
  exists p info, kv = (to_base58 p, PList (to_tuple info)) /\ valid_info info = true.

Lemma same_tuple info info' : valid_info info = true -> valid_info info' = true -> to_tuple info = to_tuple info' -> info = info'.
Proof.
  intros H H' He. pose proof (tuple_roundtrip info H) as Hr. rewrite He, (tuple_roundtrip info' H') in Hr. by injection Hr.
Qed.

Lemma entry_inj p q info i : valid_info info = true -> valid_info i = true ->
  (to_base58 p, PList (to_tuple info)) = (to_base58 q, PList (to_tuple i)) -> p = q /\ info = i.
Proof.
  intros Hv Hi H. split; [apply to_base58_inj, (f_equal fst H)|]. apply same_tuple; [done..|].
  exact (f_equal (fun kv : string * pyval => match kv.2 with PList l => l | _ => [] end) H).
Qed.

Lemma read_servers adapter d servers : Forall announced_entry d -> dict_wf d -> dict_wf servers ->
  (forall p, p ∈ dkeys servers -> to_base58 p ∉ dkeys d) ->
  exists m, foldR (add_server adapter) servers d = Ok m /\ dict_wf m /\
    forall p info, (p, info) ∈ m <->
      (p, info) ∈ servers \/ (to_base58 p, PList (to_tuple info)) ∈ d /\ valid_info info = true /\ has_adapter adapter info.
Proof.
  revert servers. induction d as [|kv d IH]; intros servers Hd Hwf Hs Hdis.
  - exists servers. split; [done|]. split; [done|]. intros p info. split; [by left|]. intros [?|[Hin _]]; [done|inversion Hin].
  - apply Forall_cons in Hd as [(q & i & -> & Hi) Hd]. unfold dict_wf in Hwf. cbn in Hwf. apply NoDup_cons in Hwf as [Hq Hwf].
    cbn [foldR]. rewrite add_server_valid by done. cbn [mbind result_bind].
    assert (Hqs : q ∉ dkeys servers) by (intros Hin; apply (Hdis q Hin); by left).
    destruct (decide (has_adapter adapter i)) as [Ha|Ha].
    + destruct (IH (dset servers q i)) as (m & Hm & Hmwf & Hall); [done|done|by apply dict_wf_dset| |].
      { intros p [->|Hp]%elem_dkeys_dset; [done|]. intros Hin. apply (Hdis p Hp). by right. }
      exists m. split; [done|]. split; [done|]. intros p info. rewrite (Hall p info), dset_absent by done.
      rewrite elem_of_app, list_elem_of_singleton, elem_of_cons. split.
      * intros [[?|[= -> ->]]|[? ?]]; [by left|right; split; [by left|done]|right; split; [by right|done]].
      * intros [?|[[He|?] [Hv ?]]]; [by left; left| |by right]. apply entry_inj in He as [-> ->]; [|done..]. by left; right.
    + destruct (IH servers) as (m & Hm & Hmwf & Hall); [done|done|done| |].
      { intros p Hp Hin. apply (Hdis p Hp). by right. }
      exists m. split; [done|]. split; [done|]. intros p info. rewrite (Hall p info), elem_of_cons. split.
      * intros [?|[? ?]]; [by left|right; split; [by right|done]].
      * intros [?|[[He|?] [Hv ?]]]; [by left| |by right]. by apply entry_inj in He as [-> ->].
Qed.

(** ** The routing table *)

Definition of_infos (n : Z) (pvs : list provider) : Prop := Forall (provider_ok n) pvs /\ NoDup (pv_peer <$> pvs).

(** The span that a server announces, for a client that looks for servers with an adapter, online, and allowed. *)
Definition offers (m : SequenceManager) (pv : provider) (sp : RemoteSpanInfo) : Prop :=
  exists info, current pv = Some info /\ si_state info = ONLINE /\ has_adapter (cfg_active_adapter (sm_config m)) info /\
    allowed_peer m (pv_peer pv) = true /\ sp = mkSpan (pv_peer pv) (pv_start pv) (pv_end pv) info.

Lemma current_ok n pv : provider_ok n pv -> exists info, current pv = Some info /\ valid_info info = true /\
  si_start_block info = Some (pv_start pv) /\ si_end_block info = Some (pv_end pv).
Proof.
  intros [_ Hd Hi]. unfold current. destruct (last (pv_declared pv)) as [[info exp]|] eqn:El.
  - exists info. split; [done|]. apply last_Some_elem_of in El. by apply (Hi info exp).
  - by apply last_None in El.
Qed.

Lemma delivered prefix n pvs entries found i : published prefix pvs entries -> delivers entries found -> of_infos n pvs ->
  exists d, (found (make_uid prefix i) = Some (DictValue d) \/ found (make_uid prefix i) = None /\ d = []) /\ dict_wf d /\
    Forall announced_entry d /\
    forall p info, valid_info info = true -> ((to_base58 p, PList (to_tuple info)) ∈ d <->
      exists pv, pv ∈ pvs /\ pv_peer pv = p /\ current pv = Some info /\ pv_start pv <= i < pv_end pv).
Proof.
  intros Hp Hd [Hok Hnd]. rewrite Forall_forall in Hok. set (key := make_uid prefix i).
  assert (Hst : forall subkey v, stored entries key subkey = Some v -> exists pv info, pv ∈ pvs /\ subkey = to_base58 (pv_peer pv) /\
    current pv = Some info /\ valid_info info = true /\ pv_start pv <= i < pv_end pv /\ v = to_tuple info).
  { intros subkey v Hs. destruct (decide (Exists (fun pv => subkey = to_base58 (pv_peer pv)) pvs)) as [Hex|Hex].
    - apply Exists_exists in Hex as (pv & Hpv & ->). destruct (current_ok n pv (Hok pv Hpv)) as (info & Hc & Hv & _).
      rewrite (stored_declared prefix pv entries key info) in Hs by (done || by apply Hp).
      destruct (decide _) as [Hin|]; [|done]. injection Hs as <-. apply elem_of_uids in Hin. exists pv, info. split_and!; done || lia.
    - rewrite (stored_nobody prefix pvs entries key subkey Hp) in Hs; [done|]. intros pv Hpv ->. apply Hex, Exists_exists. eauto. }
  assert (Hto : forall pv info, pv ∈ pvs -> current pv = Some info -> pv_start pv <= i < pv_end pv ->
    stored entries key (to_base58 (pv_peer pv)) = Some (to_tuple info)).
  { intros pv info Hpv Hc Hi. rewrite (stored_declared prefix pv entries key info) by (done || by apply Hp).
    rewrite decide_True; [done|]. by apply elem_of_uids. }
  specialize (Hd key). destruct (found key) as [[d|]|] eqn:Ef; [|done|].
  - destruct Hd as [Hwf Hget]. exists d. split; [by left|]. split; [done|]. split.
    + apply Forall_forall. intros [k v] Hin. apply elem_dget in Hin; [|done]. rewrite Hget in Hin.
      apply fmap_Some in Hin as (t & Hs & ->). destruct (Hst k t Hs) as (pv & info & _ & -> & _ & Hv & _ & ->).
      by exists (pv_peer pv), info.
    + intros p info Hv. split.
      * intros Hin. apply elem_dget in Hin; [|done]. rewrite Hget in Hin. apply fmap_Some in Hin as (t & Hs & [= <-]).
        destruct (Hst _ _ Hs) as (pv & info' & Hpv & Hk & Hc & Hv' & Hi & Ht). apply to_base58_inj in Hk as ->.
        apply same_tuple in Ht as ->; [|done..]. by exists pv.
      * intros (pv & Hpv & <- & Hc & Hi). apply dget_elem. by rewrite Hget, (Hto pv info).
  - exists []. split; [by right|]. split; [apply dict_wf_nil|]. split; [done|]. intros p info Hv. split; [intros Hin; inversion Hin|].
    intros (pv & Hpv & <- & Hc & Hi). specialize (Hd (to_base58 (pv_peer pv))). by rewrite (Hto pv info) in Hd.
Qed.

Lemma fetched prefix n pvs entries found adapter i : published prefix pvs entries -> delivers entries found -> of_infos n pvs ->
  exists m, fetch_module found adapter (make_uid prefix i) = Ok m /\ rm_uid m = make_uid prefix i /\ dict_wf (rm_servers m) /\
    forall p info, (p, info) ∈ rm_servers m <->
      exists pv, pv ∈ pvs /\ pv_peer pv = p /\ current pv = Some info /\ pv_start pv <= i < pv_end pv /\ has_adapter adapter info.
Proof.
  intros Hp Hd Hok. destruct (delivered prefix n pvs entries found i Hp Hd Hok) as (d & Hfound & Hwf & Hann & Hall).
  destruct (read_servers adapter d [] Hann Hwf) as (m & Hm & Hmwf & Hin); [apply dict_wf_nil|by intros ? ?%elem_of_nil|].
  exists (mkModuleInfo (make_uid prefix i) m). split; [|split; [done|split; [done|]]].
  - unfold fetch_module. destruct Hfound as [-> |[-> ->]]; [by rewrite Hm|]. cbn in Hm. by injection Hm as <-.
  - intros p info. cbn [rm_servers]. rewrite (Hin p info). split.
    + intros [He|(He & Hv & Ha)]; [inversion He|]. apply Hall in He as (pv & Hpv & Hpeer & Hc & Hi); [|done]. by exists pv.
    + intros (pv & Hpv & Hpeer & Hc & Hi & Ha). right.
      assert (Hv : valid_info info = true).
      { destruct (current_ok n pv) as (i0 & Hc0 & Hv & _); [by apply (proj1 (Forall_forall _ _) (proj1 Hok))|]. congruence. }
      split; [|done]. apply Hall; [done|]. by exists pv.
Qed.

Lemma lookup_zrange n i : 0 <= i < n -> zrange 0 n !! Z.to_nat i = Some i.
Proof. intros H. unfold zrange. apply list_lookup_fmap_Some. exists (Z.to_nat i). rewrite Z.sub_0_r. split; [lia|]. apply lookup_seq. lia. Qed.

(** The servers of a block that a client may use, and whether it has banned them all. *)
Definition usable (m : SequenceManager) (i : Z) (pv : provider) : Prop :=
  exists info, current pv = Some info /\ pv_start pv <= i < pv_end pv /\
    has_adapter (cfg_active_adapter (sm_config m)) info /\ allowed_peer m (pv_peer pv) = true.

Definition all_banned (m : SequenceManager) (pvs : list provider) (i : Z) : Prop :=
  forall pv, pv ∈ pvs -> usable m i pv -> bl_contains (sm_banned_peers m) (pv_peer pv) = true.

(** A table that knows the servers of each block: the banned ones only where there is no other. *)
Definition knows (m : SequenceManager) (pvs : list provider) (table : list RemoteModuleInfo) : Prop :=
  forall i x, 0 <= i -> table !! Z.to_nat i = Some x -> i < zlen table /\
    forall p info, (p, info) ∈ rm_servers x <-> exists pv, pv ∈ pvs /\ pv_peer pv = p /\ current pv = Some info /\
      usable m i pv /\ (bl_contains (sm_banned_peers m) p = false \/ all_banned m pvs i).

(** What a client knows about the blocks [0 .. n) after reading them. *)
Lemma known_servers (m : SequenceManager) prefix n pvs entries found : published prefix pvs entries -> delivers entries found ->
  of_infos n pvs -> 0 <= n ->
  exists mods, get_remote_module_infos found (module_uids prefix 0 n) (cfg_active_adapter (sm_config m)) true = Ok mods /\
    map rm_uid mods = module_uids prefix 0 n /\ zlen (map (filter_block m) mods) = n /\ knows m pvs (map (filter_block m) mods).
Proof.
  intros Hp Hd Hok Hn.
  destruct (module_infos_total found (module_uids prefix 0 n) (cfg_active_adapter (sm_config m))) as (mods & Hget & Huids & _).
  assert (Hlen : zlen (map (filter_block m) mods) = n).
  { unfold zlen. rewrite length_map, <- (length_map rm_uid mods), Huids. unfold module_uids. rewrite length_fmap, zrange_length. lia. }
  exists mods. split; [done|]. split; [done|]. split; [done|]. intros i x Hi Hx. rewrite Hlen. apply list_lookup_fmap_Some in Hx as (y & -> & Hy).
  unfold get_remote_module_infos, _get_remote_module_infos in Hget. cbn [mbind result_bind assert_] in Hget.
  apply mapR_Forall2 in Hget. destruct (Forall2_lookup_r _ _ _ _ _ Hget Hy) as (uid & Hu & Hf).
  unfold module_uids in Hu. apply list_lookup_fmap_Some in Hu as (j & -> & Hj).
  assert (Hin : i < n). { apply lookup_lt_Some in Hj. rewrite zrange_length in Hj. lia. }
  rewrite lookup_zrange in Hj by lia. injection Hj as <-. split; [done|]. intros p info.
  destruct (fetched prefix n pvs entries found (cfg_active_adapter (sm_config m)) i Hp Hd Hok) as (z & Hz & _ & _ & Hall).
  rewrite Hz in Hf. injection Hf as ->. rewrite filter_block_exact.
  assert (Hus : forall q info', ((q, info') ∈ rm_servers y /\ allowed_peer m q = true) <->
    exists pv, pv ∈ pvs /\ pv_peer pv = q /\ current pv = Some info' /\ usable m i pv).
  { intros q info'. rewrite (Hall q info'). unfold usable. split.
    - intros [(pv & H1 & <- & H3 & H4 & H5) Ha]. exists pv. split_and!; try done. by exists info'.
    - intros (pv & H1 & <- & H3 & info1 & H4 & H5 & H6 & Ha). split; [|done]. exists pv. split_and!; try done; try lia. congruence. }
  cbn [fst]. rewrite Hus. split.
  - intros [(pv & H1 & <- & H3 & H4) Hb]. exists pv. split_and!; try done. destruct Hb as [?|Hb]; [by left|right].
    intros pv' Hpv' Hu'. pose proof Hu' as (info' & Hc' & _). apply (Hb (pv_peer pv', info')), Hus. by exists pv'.
  - intros (pv & H1 & <- & H3 & H4 & Hb). split; [by exists pv|]. destruct Hb as [?|Hb]; [by left|right].
    intros [q info'] (pv' & Hpv' & <- & _ & Hu')%Hus. by apply Hb.
Qed.

Lemma same_provider pvs pv pv' : NoDup (pv_peer <$> pvs) -> pv ∈ pvs -> pv' ∈ pvs -> pv_peer pv = pv_peer pv' -> pv = pv'.
Proof.
  intros Hnd (i & Hi)%list_elem_of_lookup (j & Hj)%list_elem_of_lookup He.
  assert (i = j) as ->; [|congruence].
  eapply (NoDup_lookup _ i j (pv_peer pv) Hnd); rewrite list_lookup_fmap; [by rewrite Hi|by rewrite Hj, He].
Qed.

Lemma known_consistent m pvs table : of_infos (zlen table) pvs -> knows m pvs table -> consistent 0 table.
Proof.
  intros [Hok Hnd] Hall i x p info Hi Hx Hin. rewrite Forall_forall in Hok.
  destruct (Hall i x Hi Hx) as [_ Hx']. apply Hx' in Hin as (pv & Hpv & Hpeer & Hc & (info1 & Hc1 & Hr & _) & _).
  destruct (current_ok _ pv (Hok pv Hpv)) as (info0 & Hc0 & _ & Hs & He). rewrite Hc in Hc0. injection Hc0 as <-.
  exists (pv_start pv), (pv_end pv). split; [done|]. split; [done|]. split; [lia|]. intros j y info' Hj Hy.
  destruct (Hall j y Hj Hy) as [_ Hy']. intros (pv' & Hpv' & Hpeer' & Hc' & _)%Hy'.
  rewrite (same_provider pvs pv' pv) in Hc' by (done || congruence). congruence.
Qed.

Lemma announced_provider n pv info : provider_ok n pv -> current pv = Some info ->
  announced 0 n (pv_peer pv) info = mkSpan (pv_peer pv) (pv_start pv) (pv_end pv) info.
Proof.
  intros Hok Hc. destruct (current_ok n pv Hok) as (info0 & Hc0 & _ & Hs & He). rewrite Hc in Hc0. injection Hc0 as <-.
  destruct (po_range _ _ Hok) as (H1 & H2 & H3). unfold announced. rewrite Hs, He. cbn. f_equal; lia.
Qed.

(** Which servers a client routes over: those that it has not banned, and banned ones when some block of theirs is only on
    banned servers. *)
Definition routable (m : SequenceManager) (pvs : list provider) (pv : provider) : Prop :=
  bl_contains (sm_banned_peers m) (pv_peer pv) = false \/
  exists i, pv_start pv <= i < pv_end pv /\ all_banned m pvs i.

Lemma table_spans m pvs table spans : of_infos (zlen table) pvs -> knows m pvs table -> block_offset table = Ok 0 ->
  compute_spans table ONLINE = Ok spans ->
  forall sp, sp ∈ dvalues spans <-> exists pv, pv ∈ pvs /\ offers m pv sp /\ routable m pvs pv.
Proof.
  intros Hok Hall Hoff Hc sp. pose proof Hok as [Hf _]. rewrite Forall_forall in Hf.
  destruct (spans_exact table 0 ONLINE spans Hoff (known_consistent m pvs table Hok Hall) Hc) as [Hto Hfrom].
  pose proof (computed_spans_ok _ _ _ Hc) as [Hwf _]. split.
  - intros Hin. apply list_elem_of_fmap in Hin as ([p sp'] & -> & Hin). apply (elem_dget _ _ _ Hwf) in Hin.
    destruct (Hfrom p sp' Hin) as (i & x & info & Hi & Hx & Hs & Hst & ->). cbn [snd].
    destruct (Hall i x Hi Hx) as [_ Hx']. apply Hx' in Hs as (pv & Hpv & <- & Hcur & (info1 & Hc1 & Hr & Ha & Hal) & Hb).
    rewrite Hcur in Hc1. injection Hc1 as <-. exists pv. split; [done|]. split.
    + exists info. split_and!; try done; [|by apply announced_provider, Hcur; apply Hf].
      destruct (si_state info); cbn in Hst; lia || done.
    + destruct Hb as [?|Hb]; [by left|right]. by exists i.
  - intros (pv & Hpv & (info & Hcur & Hst & Ha & Hal & ->) & Hb). destruct (po_range _ _ (Hf pv Hpv)) as (H1 & H2 & H3).
    assert (exists i, pv_start pv <= i < pv_end pv /\ (bl_contains (sm_banned_peers m) (pv_peer pv) = false \/ all_banned m pvs i))
      as (i & Hi & Hb').
    { destruct Hb as [Hb|(i & Hi & Hb)]; [exists (pv_start pv); split; [lia|by left]|exists i; split; [done|by right]]. }
    assert (H0 : 0 <= i) by lia.
    destruct (lookup_lt_is_Some_2 table (Z.to_nat i)) as [x Hx]; [unfold zlen in H3; lia|].
    destruct (Hall i x H0 Hx) as [_ Hx'].
    destruct (Hto i x (pv_peer pv) info H0 Hx) as [Hget _].
    { apply Hx'. exists pv. split_and!; try done. by exists info. }
    { by rewrite Hst. }
    rewrite (announced_provider _ pv info) in Hget by (done || by apply Hf).
    apply list_elem_of_fmap. exists (pv_peer pv, mkSpan (pv_peer pv) (pv_start pv) (pv_end pv) info). split; [done|].
    by apply dget_elem.
Qed.

(** The table after a refresh *)
Lemma refreshed (m : SequenceManager) prefix n pvs entries found now seed pings :
  published prefix pvs entries -> delivers entries found -> of_infos n pvs -> valid_prefix prefix = true -> 0 < n ->
  sm_block_uids m = module_uids prefix 0 n -> uids_ok m ->
  exists m', _update m found now seed pings = (m', Ok ()) /\ sm_ready m' = true /\ sm_block_uids m' = sm_block_uids m /\
    uids_ok m' /\ manager_ok m' /\
    forall sp, sp ∈ sq_spans_by_priority (sm_info m') <-> exists pv, pv ∈ pvs /\ offers m pv sp /\ routable m pvs pv.
Proof.
  intros Hp Hd Hok Hpre Hn Huids Hu.
  destruct (known_servers m prefix n pvs entries found Hp Hd Hok) as (mods & Hget & Hmods & Hlen & Hall); [lia|].
  set (table := map (filter_block m) mods) in *.
  assert (Hcons : module_uids prefix 0 n = make_uid prefix 0 :: module_uids prefix 1 n).
  { unfold module_uids. by rewrite (zrange_cons 0 n) by lia. }
  destruct (update_table m found now seed pings (make_uid prefix 0) (module_uids prefix 1 n) prefix 0 mods)
    as (m' & spans & Hupd & Hready & Hb & Hu' & Hmok & Hc & Hperm & Hon);
    [done|by rewrite Huids|by apply parse_make_uid|by rewrite Huids|by rewrite Huids|].
  exists m'. split_and!; try done. intros sp. rewrite Hperm.
  assert (Hoff : block_offset table = Ok 0).
  { eapply block_offset_uid; [|by apply (parse_make_uid prefix 0)]. unfold table. by rewrite map_filter_block_uid, Hmods, Hcons. }
  rewrite <- Hlen in Hok. by apply (table_spans m pvs table spans Hok Hall Hoff Hc).
Qed.

(** C13: whatever the order in which the servers of a model have declared their blocks, a client that refreshes its table
    routes exactly over the spans of the servers which are online (by their last declaration), have the client's adapter,
    are allowed and not banned: one span for each, from its first to its last block, with the information that was declared
    last.  A server that is banned is among them only when it holds a block all of whose servers (allowed, with the adapter,
    in whatever state) are banned; nothing declared before, and no other server, is. *)
Theorem announced_spans_are_routed (m : SequenceManager) prefix n pvs entries found now seed pings :
  published prefix pvs entries -> delivers entries found -> of_infos n pvs -> valid_prefix prefix = true -> 0 < n ->
  sm_block_uids m = module_uids prefix 0 n -> uids_ok m ->
  exists m', _update m found now seed pings = (m', Ok ()) /\ sm_ready m' = true /\
    NoDup (sp_peer_id <$> sq_spans_by_priority (sm_info m')) /\
    forall sp, sp ∈ sq_spans_by_priority (sm_info m') <-> exists pv, pv ∈ pvs /\ offers m pv sp /\ routable m pvs pv.
Proof.
  intros Hp Hd Hok Hpre Hn Huids Hu.
  destruct (refreshed m prefix n pvs entries found now seed pings Hp Hd Hok Hpre Hn Huids Hu)
    as (m' & Hupd & Hr & _ & _ & Hmok & Hall).
  exists m'. split_and!; try done. by destruct Hmok as (_ & Hnd & _).
Qed.
End discovery.

(** ** A DHT that delivers *)

Lemma last_app_nonempty {A} (l k : list A) x : last k = Some x -> last (l ++ k) = Some x.
Proof. intros (k' & ->)%last_Some. by rewrite app_assoc, last_snoc. Qed.

Lemma fold_stored (l : list store_entry) subkey :
  dict_wf (fold_left (fun d e => dset d (entry_subkey e) (PList (entry_value e))) l []) /\
  dget (fold_left (fun d e => dset d (entry_subkey e) (PList (entry_value e))) l []) subkey =
  PList <$> (entry_value <$> last (filter (fun e => entry_subkey e = subkey) l)).
Proof.
  induction l as [|e l [Hwf IH]] using rev_ind; [split; [apply dict_wf_nil|done]|]. rewrite fold_left_app. cbn [fold_left].
  split; [by apply dict_wf_dset|]. rewrite filter_app. destruct (decide (entry_subkey e = subkey)) as [He|He].
  - rewrite He, dget_dset_eq. rewrite (filter_cons _ e []), decide_True by done. by rewrite filter_nil, last_snoc.
  - rewrite dget_dset_ne by done. rewrite (filter_cons _ e []), decide_False by done. by rewrite filter_nil, app_nil_r.
Qed.

Lemma simple_dht_delivers entries : delivers entries (simple_dht entries).
Proof.
  intros key. unfold simple_dht. pose proof (fold_stored (filter (fun e => entry_key e = key) entries)) as Hf.
  assert (Hst : forall subkey, stored entries key subkey =
    entry_value <$> last (filter (fun e => entry_subkey e = subkey) (filter (fun e => entry_key e = key) entries))).
  { intros subkey. unfold stored. rewrite <- filter_and. do 2 f_equal. apply list_filter_iff. intros e. tauto. }
  destruct (filter (fun e => entry_key e = key) entries) as [|e l] eqn:El.
  - intros subkey. by rewrite Hst.
  - split; [exact (proj1 (Hf ""%string))|]. intros subkey. rewrite Hst. apply Hf.
Qed.

(** ** Example

    Server 1 was joining and is online now, with the blocks [0, 2); server 2 is online with the block 2; server 3 is joining. *)
Definition example_provider (p a b : Z) (sts : list ServerState) : @provider ZPeerIds :=
  mkProvider (PI := ZPeerIds) p a b ((fun st => (swarm_info st a b, f_one)) <$> sts).

Definition example_providers : list (@provider ZPeerIds) :=
  [example_provider 1 0 2 [JOINING; ONLINE]; example_provider 2 2 3 [ONLINE]; example_provider 3 0 3 [JOINING]].

Definition example_entries : list store_entry := concat (from_ok [] (mapR (declarations "m") example_providers)).

Definition client_banning (banned : list Z) : @SequenceManager ZPeerIds SetBlacklist :=
  mkManager (default_config (PI := ZPeerIds) [] None) (make_empty (PI := ZPeerIds) (module_uids "m" 0 3)) None
    banned None None [] false false false.

Definition example_client : @SequenceManager ZPeerIds SetBlacklist := client_banning [].

Lemma example_published : published "m" example_providers example_entries.
Proof.
  split.
  - intros pv Hpv. unfold example_providers in Hpv. rewrite !elem_of_cons in Hpv.
    destruct Hpv as [->|[->|[->|Hpv]]]; [vm_compute; reflexivity..|]. inversion Hpv.
  - intros e He. assert (Hall : Forall (fun e => Exists (fun pv => entry_subkey e = to_base58 (pv_peer pv)) example_providers) example_entries).
    { apply (bool_decide_unpack _). vm_compute. exact I. }
    rewrite Forall_forall in Hall. apply Hall, Exists_exists in He as (pv & ? & ?). eauto.
Qed.

Lemma example_provider_ok n p a b sts : 0 <= a -> a < b -> b <= n -> sts <> [] -> provider_ok n (example_provider p a b sts).
Proof.
  intros Ha Hb Hn Hs. split; [done| |].
  - by destruct sts.
  - intros info exp (st & [= -> ->] & _)%list_elem_of_fmap. split; [|done]. unfold valid_info, swarm_info. cbn.
    by rewrite !(proj2 (Z.leb_le _ _)) by lia.
Qed.

Lemma example_infos : of_infos 3 example_providers.
Proof.
  split; [|apply (bool_decide_unpack _); vm_compute; exact I].
  unfold example_providers. repeat (apply Forall_cons; split; [by apply example_provider_ok|]). constructor.
Qed.

(** Server 2 is the only one that is online with block 2; a client that has banned it and server 3 routes over it, and one
    that has banned only it does not, since server 3, which is joining, is not banned. *)
Lemma announced_spans_are_routed_witness :
  (exists m', _update example_client (simple_dht example_entries) f_one 0 (fun _ => []) = (m', Ok ()) /\
    mkSpan (PI := ZPeerIds) 1 0 2 (swarm_info ONLINE 0 2) ∈ sq_spans_by_priority (sm_info m') /\
    mkSpan (PI := ZPeerIds) 1 0 2 (swarm_info JOINING 0 2) ∉ sq_spans_by_priority (sm_info m')) /\
  (exists m', _update (client_banning [2; 3]) (simple_dht example_entries) f_one 0 (fun _ => []) = (m', Ok ()) /\
    mkSpan (PI := ZPeerIds) 2 2 3 (swarm_info ONLINE 2 3) ∈ sq_spans_by_priority (sm_info m')) /\
  (exists m', _update (client_banning [2]) (simple_dht example_entries) f_one 0 (fun _ => []) = (m', Ok ()) /\
    forall sp, sp ∈ sq_spans_by_priority (sm_info m') -> sp_peer_id sp <> 2).
Proof.
  pose proof (fun banned => announced_spans_are_routed (client_banning banned) "m" 3 example_providers example_entries
    (simple_dht example_entries) f_one 0 (fun _ => []) example_published (simple_dht_delivers _) example_infos eq_refl eq_refl
    eq_refl eq_refl) as Hrun.
  split; [|split].
  - destruct (Hrun []) as (m' & Hupd & _ & _ & Hall). exists m'. split; [exact Hupd|]. split.
    + apply Hall. exists (example_provider 1 0 2 [JOINING; ONLINE]). split; [by left|]. split; [by exists (swarm_info ONLINE 0 2)|by left].
    + intros (pv & Hpv & (info & Hc & Hon & _ & _ & He) & _)%Hall. injection He as _ _ _ <-. discriminate Hon.
  - destruct (Hrun [2; 3]) as (m' & Hupd & _ & _ & Hall). exists m'. split; [exact Hupd|]. apply Hall.
    exists (example_provider 2 2 3 [ONLINE]). split; [by right; left|]. split; [by exists (swarm_info ONLINE 2 3)|].
    right. exists 2. split; [simpl; lia|]. intros pv Hpv (info & _ & Hr & _). unfold example_providers in Hpv.
    rewrite !elem_of_cons in Hpv. destruct Hpv as [-> |[-> |[-> |Hpv]]]; [simpl in Hr; lia|reflexivity|reflexivity|inversion Hpv].
  - destruct (Hrun [2]) as (m' & Hupd & _ & _ & Hall). exists m'. split; [exact Hupd|].
    intros sp (pv & Hpv & (info & Hc & Hon & _ & _ & ->) & Hb)%Hall. cbn [sp_peer_id]. unfold example_providers in Hpv.
    rewrite !elem_of_cons in Hpv. destruct Hpv as [-> |[-> |[-> |Hpv]]]; [done| |done|inversion Hpv]. intros _.
    destruct Hb as [Hb|(i & Hi & Hb)]; [discriminate Hb|].
    assert (Hb3 : bl_contains (sm_banned_peers (client_banning [2])) 3 = true); [|discriminate Hb3].
    apply (Hb (example_provider 3 0 3 [JOINING])); [by right; right; left|]. exists (swarm_info JOINING 0 3).
    split; [done|]. split; [simpl in *; lia|done].
Defined.
