(* ===== verification/Interfaces.v ===== *)
(** * Interfaces: what the components promise to each other

    The client's sessions are verified against these classes: a router that forms sequences of
    servers, transformer blocks that are causal, and a server that runs a span of blocks. *)

From S2P Require Import Prelude PyString PyFloat PyDict DataStructures Utils Dht SequenceInfo SequenceManager.

(** ** The router

    The part of [RemoteSequenceManager] that sessions and autograd use. *)

Class Router {PI : PeerIds} := {
  router : Type;
  rt_block_uids : router -> list string;
  rt_config : router -> ClientConfig;
  rt_make_sequence : router -> Z -> Z -> string -> option Z -> router * result (list RemoteSpanInfo);
  rt_on_request_failure : router -> option PeerID -> router;
  rt_on_request_success : router -> PeerID -> router;
  rt_make_fixed : forall r a b mode c,
    rt_block_uids (rt_make_sequence r a b mode c).1 = rt_block_uids r /\
    rt_config (rt_make_sequence r a b mode c).1 = rt_config r;
  rt_failure_fixed : forall r p,
    rt_block_uids (rt_on_request_failure r p) = rt_block_uids r /\
    rt_config (rt_on_request_failure r p) = rt_config r;
  rt_success_fixed : forall r p,
    rt_block_uids (rt_on_request_success r p) = rt_block_uids r /\
    rt_config (rt_on_request_success r p) = rt_config r;
  rt_chain : forall r a b c r' l,
    0 <= a -> a < b -> b <= zlen (rt_block_uids r) ->
    rt_make_sequence r a b "min_latency" c = (r', Ok l) -> chain a l b;
  rt_chain_over : forall r a b c r' l,
    0 <= a -> a < b -> b <= zlen (rt_block_uids r) ->
    rt_make_sequence r a b "max_throughput" c = (r', Ok l) ->
    exists l' s, l = l' ++ [s] /\ chain a l' (sp_start s) /\ sp_start s < b <= sp_end s;
}.

Definition rt_len {PI : PeerIds} {RT : Router} (r : router) : Z := zlen (rt_block_uids r).

(** Routes are found over any blocks from the states in [P], and neither a route nor the success of a request leaves
    [P].  For the sequence manager of the client this holds while the servers announce all the blocks
    (SwarmRouter.v, [stable_routes]). *)
Record routes_stay {PI : PeerIds} {RT : Router} (P : router -> Prop) : Prop := {
  ry_found : forall r a b c, P r -> 0 <= a -> a < b -> b <= rt_len r ->
    exists r' l, rt_make_sequence r a b "min_latency" c = (r', Ok l) /\ P r';
  ry_success : forall r p, P r -> P (rt_on_request_success r p);
}.

(** ** Blocks and servers *)

(** A transformer block maps a sequence of hidden states (one per token) to a sequence of the
    same length; it is causal: the outputs for a prefix do not depend on what follows. *)
Class Blocks := {
  token : Type;
  block : Z -> list token -> list token;
  block_length : forall i l, length (block i l) = length l;
  block_causal : forall i l k, take (length l) (block i (l ++ k)) = block i l;
}.

(** Blocks [a, b) one after another. *)
Definition run_blocks {BK : Blocks} (a b : Z) (l : list token) : list token :=
  fold_left (fun x i => block i x) (zrange a b) l.

(** The server's side of an inference session is a state machine: [serve_open a b m] opens a session for the blocks
    [a, b) and at most [m] tokens; [serve] gives it new hidden states, the deep prompts of its blocks and the beam
    hypotheses, and it answers with the outputs for the new hidden states or refuses.  [holds] says which hidden
    states a session has processed; what it answers is then what its blocks compute on all of them.  A server may
    refuse whatever it is asked for. *)
Class InferenceServer {BK : Blocks} := {
  prompt : Type;
  server_state : Type;
  serve_open : Z -> Z -> Z -> server_state;
  serve : Z -> Z -> server_state -> list token -> list prompt -> list Z -> server_state * result (list token);
  holds : Z -> Z -> Z -> server_state -> list token -> Prop;
  open_holds : forall a b m, a < b -> holds a b m (serve_open a b m) [];
  serve_holds : forall a b m st seen x st' y, a < b -> holds a b m st seen -> serve a b st x [] [] = (st', Ok y) ->
    holds a b m st' (seen ++ x) /\ y = drop (length seen) (run_blocks a b (seen ++ x));
}.

(** The servers of the blocks [0, N) refuse nothing that fits into a session of [m] tokens. *)
Definition servers_answer {BK : Blocks} {IS : InferenceServer} (N m : Z) : Prop := forall a b st seen x,
  0 <= a -> a < b -> b <= N -> holds a b m st seen -> zlen (seen ++ x) <= m -> exists st' y, serve a b st x [] [] = (st', Ok y).

Section blocks.
Context {BK : Blocks}.

Lemma run_blocks_length a b l : length (run_blocks a b l) = length l.
Proof.
  unfold run_blocks. revert l. induction (zrange a b) as [|i js IH]; intros l; simpl; [done|].
  by rewrite IH, block_length.
Qed.

Lemma run_blocks_causal a b l k : take (length l) (run_blocks a b (l ++ k)) = run_blocks a b l.
Proof.
  unfold run_blocks. revert l k. induction (zrange a b) as [|i js IH]; intros l k; simpl.
  - by rewrite take_app_length.
  - assert (Hs : block i (l ++ k) = block i l ++ drop (length l) (block i (l ++ k))).
    { rewrite <- (block_causal i l k) at 1. by rewrite take_drop. }
    rewrite Hs, <- (block_length i l). by rewrite IH.
Qed.

(** The outputs for a prefix and the outputs for the rest. *)
Lemma run_blocks_app a b l k :
  run_blocks a b (l ++ k) = run_blocks a b l ++ drop (length l) (run_blocks a b (l ++ k)).
Proof. rewrite <- (run_blocks_causal a b l k) at 1. by rewrite take_drop. Qed.

Lemma run_blocks_split a b c l : a <= b -> b <= c -> run_blocks b c (run_blocks a b l) = run_blocks a c l.
Proof. intros. unfold run_blocks. rewrite <- fold_left_app. by rewrite <- zrange_app. Qed.

Lemma run_blocks_nil a b l : b <= a -> run_blocks a b l = l.
Proof. intros. unfold run_blocks. by rewrite zrange_nil. Qed.
End blocks.

(** ** Forward and backward passes over a span

    What [rpc_forward] and [rpc_backward] of a server compute for blocks [a, b): activations and
    gradients are lists of rows (the batch dimension), prompts are given per layer and row (none: no
    prompts).  Passes compose over adjacent spans and treat the rows independently. *)
Class SpanServer := {
  row : Type;
  prm : Type;
  fwd_span : Z -> Z -> list row -> list (list prm) -> list row;
  bwd_span : Z -> Z -> list row -> list row -> list (list prm) -> list row * list (list prm);
  fwd_length : forall a b x ps, length (fwd_span a b x ps) = length x;
  fwd_nil : forall a x ps, fwd_span a a x ps = x;
  fwd_compose : forall a b c x ps qs, a <= b -> b <= c ->
    (ps = [] /\ qs = [] \/ zlen ps = b - a /\ zlen qs = c - b) ->
    fwd_span b c (fwd_span a b x ps) qs = fwd_span a c x (ps ++ qs);
  bwd_nil : forall a x g ps, bwd_span a a x g ps = (g, []);
  bwd_compose : forall a b c x g ps qs, a <= b -> b <= c ->
    (ps = [] /\ qs = [] \/ zlen ps = b - a /\ zlen qs = c - b) ->
    bwd_span a c x g (ps ++ qs) =
      (let '(g1, gq) := bwd_span b c (fwd_span a b x ps) g qs in
       let '(g0, gp) := bwd_span a b x g1 ps in (g0, gp ++ gq));
  fwd_rows : forall a b x y, fwd_span a b (x ++ y) [] = fwd_span a b x [] ++ fwd_span a b y [];
  bwd_rows : forall a b x y g h, length x = length g ->
    (bwd_span a b (x ++ y) (g ++ h) []).1 = (bwd_span a b x g []).1 ++ (bwd_span a b y h []).1;
}.

(** ** Instances for examples *)

(** Hidden states are numbers and block [i] replaces each by [i] plus the sum so far. *)
Fixpoint prefix_sums (acc : Z) (l : list Z) : list Z :=
  match l with [] => [] | x :: l' => (acc + x) :: prefix_sums (acc + x) l' end.

#[refine, global] Instance SumBlocks : Blocks := {| token := Z; block i l := prefix_sums i l |}.
Proof.
  - intros i l. revert i. induction l; intros i; simpl; [done|]. by rewrite IHl.
  - intros i l k. revert i. induction l; intros i; simpl; [done|]. by rewrite IHl.
Defined.

(** A server that keeps what it has seen and answers with what its blocks compute. *)
#[refine, global] Instance ExactServer {BK : Blocks} : InferenceServer :=
  {| prompt := unit; server_state := list token; serve_open a b m := [];
     serve a b seen x ps hs := (seen ++ x, Ok (drop (length seen) (run_blocks a b (seen ++ x))));
     holds a b m st seen := st = seen |}.
Proof.
  - done.
  - intros a b m st seen x st' y _ -> [= <- <-]. done.
Defined.

Lemma exact_answers {BK : Blocks} N m : servers_answer (IS := ExactServer) N m.
Proof. intros a b st seen x _ _ _ _ _. by eexists _, _. Qed.

(** A router over a fixed swarm in which server [i] holds block [i] only. *)
Definition block_server (i : Z) : @RemoteSpanInfo ZPeerIds := mkSpan (PI := ZPeerIds) i i (i + 1) (swarm_info ONLINE i (i + 1)).

Lemma block_servers_chain a b : a <= b -> chain (PI := ZPeerIds) a (block_server <$> zrange a b) b.
Proof.
  intros H. remember (Z.to_nat (b - a)) as n eqn:Hn. revert a H Hn. induction n as [|n IH]; intros a H Hn.
  - assert (a = b) as -> by lia. by rewrite zrange_nil.
  - rewrite zrange_cons by lia. simpl. split; [done|]. split; [lia|]. apply IH; lia.
Qed.

#[refine] Instance FixedRouter : @Router ZPeerIds :=
  {| router := list string;
     rt_block_uids r := r;
     rt_config r := default_config (PI := ZPeerIds) [] (Some 5);
     rt_make_sequence r a b mode c := (r, Ok (block_server <$> zrange a b));
     rt_on_request_failure r p := r;
     rt_on_request_success r p := r |}.
Proof.
  - done.
  - done.
  - done.
  - intros r a b c r' l _ Hab _ [= <- <-]. apply block_servers_chain. lia.
  - intros r a b c r' l _ Hab _ [= <- <-]. exists (block_server <$> zrange a (b - 1)), (block_server (b - 1)).
    split; [|split; [apply block_servers_chain; simpl; lia|simpl; lia]].
    replace b with (b - 1 + 1) at 1 by lia. rewrite zrange_snoc, fmap_app by lia. done.
Defined.

Lemma fixed_routes : @routes_stay ZPeerIds FixedRouter (fun _ => True).
Proof. split; [|done]. intros r a b c _ _ _ _. by eexists r, _. Qed.

(** Rows are numbers; block [i] maps [x] to [2 * x + i], so its derivative is 2. *)
Definition affine (a b : Z) (x : Z) : Z := fold_left (fun x i => 2 * x + i) (zrange a b) x.

#[refine, global] Instance AffineServer : SpanServer :=
  {| row := Z; prm := Empty_set;
     fwd_span a b x ps := affine a b <$> x;
     bwd_span a b x g ps := ((fun g => 2 ^ Z.max 0 (b - a) * g) <$> g, []) |}.
Proof.
  - intros. by rewrite length_fmap.
  - intros. unfold affine. rewrite zrange_nil by lia. by apply list_fmap_id.
  - intros a b c x ps qs Ha Hb _. rewrite <- list_fmap_compose. apply list_fmap_ext. intros i y _.
    unfold affine. simpl. by rewrite (zrange_app a b c), fold_left_app by lia.
  - intros a x g ps. rewrite Z.sub_diag. f_equal. rewrite <- (list_fmap_id g) at 2.
    apply list_fmap_ext. intros i y _. change (2 ^ Z.max 0 0) with 1. unfold id. lia.
  - intros a b c x g ps qs Ha Hb _. simpl. f_equal. rewrite <- list_fmap_compose. apply list_fmap_ext.
    intros i y _. unfold compose. rewrite !Z.max_r by lia. rewrite Z.mul_assoc, <- Z.pow_add_r by lia. f_equal. f_equal. lia.
  - intros. by rewrite fmap_app.
  - intros. simpl. by rewrite fmap_app.
Defined.
