(* ===== verification/SwarmRouter.v ===== *)
(** * SwarmRouter: [RemoteSequenceManager] as the router of sessions

    The interface of the router (Interfaces.v) is what sessions and autograd use of the sequence manager.  Here the
    manager itself, as modelled in SequenceManager.v, implements it: its state is the manager and a clock, and what the
    clock shows is the DHT, the time, the random choices and the pings at the moment of a call, and whether the updating
    thread has refreshed the table since the call before.  While the servers announce all the blocks, routes are found:
    this discharges the hypothesis under which sessions and generation are shown to return. *)

From S2P Require Import Prelude PyString PyFloat PyDict DataStructures Utils Dht SequenceInfo SequenceManager Routing Container Discovery Interfaces.

Section swarm_router.
Context {PI : PeerIds} {PY : Pydantic} {RND : PyRandom} {BL : Blacklist} {PF : PathFinder} {WC : WeightedChoice}.
Implicit Types (m : SequenceManager).

(** ** The manager at one moment *)

Record moment := mkMoment {
  mo_found : string -> option DHTValue;
  mo_now : pyfloat;
  mo_seed : Z;
  mo_pings : list PeerID -> list (PeerID * pyfloat);
  mo_refreshed : bool;              (* the thread has updated the table since the last call *)
}.

Definition turn_at m (w : moment) : SequenceManager := thread_turn m (mo_found w) (mo_now w) (mo_seed w) (mo_pings w).

Definition elapsed m (w : moment) : SequenceManager := if mo_refreshed w then turn_at m w else m.

(** A call of [make_sequence].  It waits for the table at most once, since every update succeeds ([ready_in_time]). *)
Definition take_route m (w : moment) (a b : Z) (mode : string) (cache : option Z)
    : SequenceManager * result (list RemoteSpanInfo) :=
  let m := elapsed m w in
  default (m, Err TimeoutError)
    (make_sequence m (mo_now w) (mo_seed w) (mo_pings w) [mo_found w] a (Some b) mode cache).

(** ** What calls keep *)

(** The manager of a nonempty list of blocks, whose table describes servers whenever it is ready *)
Record manager_wf m : Prop := {
  mw_uids : uids_ok m;
  mw_named : exists uid uids p i, sm_block_uids m = uid :: uids /\ parse_uid uid = Ok (p, i);
  mw_table : sm_ready m = true -> manager_ok m;
}.

Record same_client m m' : Prop := {
  sa_uids : sm_block_uids m' = sm_block_uids m;
  sa_config : sm_config m' = sm_config m;
  sa_allowed : sm_allowed_servers m' = sm_allowed_servers m;
  sa_blocked : sm_blocked_servers m' = sm_blocked_servers m;
  sa_banned : sm_banned_peers m' = sm_banned_peers m;
}.

#[local] Instance same_client_refl : Reflexive same_client.
Proof. done. Qed.
#[local] Instance same_client_trans : Transitive same_client.
Proof. intros m1 m2 m3 [] []. split; congruence. Qed.

Lemma turn_same m w : manager_wf m -> same_client m (turn_at m w).
Proof.
  intros [Hu (uid & uids & p & i & Huids & Hp) _].
  destruct (_update_spec (sm_with_flags m (sm_ready m) false (sm_thread_started m)) (mo_found w) (mo_now w) (mo_seed w)
    (mo_pings w) uid uids p i Hu Huids Hp) as (m' & Hupd & _ & Hb & _).
  unfold turn_at, thread_turn. rewrite Hupd. cbn [fst]. unfold _update in Hupd.
  destruct (get_remote_module_infos _ _ _ _); [|done]. destruct (update_ _ _ _) as [si r].
  destruct (_ ← r; _); [|done]. injection Hupd as <-. by split.
Qed.

Lemma turn_wf m w : manager_wf m -> manager_wf (turn_at m w) /\ sm_ready (turn_at m w) = true.
Proof.
  intros Hwf. pose proof (turn_same m w Hwf) as [Hs _ _ _ _]. destruct Hwf as [Hu (uid & uids & p & i & Huids & Hp) _].
  destruct (_update_spec (sm_with_flags m (sm_ready m) false (sm_thread_started m)) (mo_found w) (mo_now w) (mo_seed w)
    (mo_pings w) uid uids p i Hu Huids Hp) as (m' & Hupd & Hr & _ & Hu' & Hok & _).
  unfold turn_at, thread_turn in *. rewrite Hupd in *. cbn [fst] in *. split; [|done]. split; [done| |done].
  exists uid, uids, p, i. by rewrite Hs.
Qed.

Lemma elapsed_wf m w : manager_wf m -> manager_wf (elapsed m w) /\ same_client m (elapsed m w).
Proof. intros H. unfold elapsed. destruct (mo_refreshed w); [|done]. split; [by apply turn_wf|by apply turn_same]. Qed.

(** The table that a call works with: that of the manager, or that of the update it waits for. *)
Definition with_table m (w : moment) : SequenceManager :=
  let m1 := sm_with_flags m (sm_ready m) (sm_trigger m) true in
  if sm_ready m then m1 else turn_at (sm_update m1) w.

Lemma ready_in_time m w : manager_wf m ->
  ensure_ready m (mo_now w) (mo_seed w) (mo_pings w) [mo_found w] = Some (with_table m w).
Proof.
  intros Hwf. unfold ensure_ready, with_table. cbn [sm_ready sm_with_flags].
  destruct (sm_ready m); [done|]. set (m1 := sm_update _).
  assert (Hwf1 : manager_wf m1) by (destruct Hwf; by split).
  destruct (turn_wf m1 w Hwf1) as [_ Hr]. cbn [wait_ready].
  change (thread_turn m1 (mo_found w) (mo_now w) (mo_seed w) (mo_pings w)) with (turn_at m1 w). by rewrite Hr.
Qed.

Lemma with_table_wf m w : manager_wf m ->
  manager_wf (with_table m w) /\ same_client m (with_table m w) /\ sm_ready (with_table m w) = true.
Proof.
  intros Hwf. unfold with_table. cbv zeta. destruct (sm_ready m) eqn:Er.
  - destruct Hwf as [Hu Hn Ht]. split; [|done]. split; [done|done|]. intros _. by apply Ht.
  - set (m1 := sm_update _). assert (Hwf1 : manager_wf m1) by (destruct Hwf; by split).
    destruct (turn_wf m1 w Hwf1) as [[Hu Hn Ht] Hr]. destruct (turn_same m1 w Hwf1). split; [|done]. split; [done|done|].
    intros _. by apply Ht.
Qed.

(** ** A call *)

Lemma take_route_eq m w a b mode cache : manager_wf m ->
  (mode = "min_latency" -> take_route m w a b mode cache =
    (with_table (elapsed m w) w, _make_sequence_with_min_latency (with_table (elapsed m w) w) a b cache)) /\
  (mode = "max_throughput" -> take_route m w a b mode cache =
    default (elapsed m w, Err TimeoutError)
      (r ← _make_sequence_with_max_throughput (with_table (elapsed m w) w) (mo_seed w) a b; Some (with_table (elapsed m w) w, r))).
Proof.
  intros Hwf. destruct (elapsed_wf m w Hwf) as [Hwf' _]. unfold take_route, make_sequence. rewrite (ready_in_time _ _ Hwf').
  by split; intros ->.
Qed.

Lemma take_route_wf m w a b mode cache : manager_wf m ->
  manager_wf (take_route m w a b mode cache).1 /\ same_client m (take_route m w a b mode cache).1.
Proof.
  intros Hwf. destruct (elapsed_wf m w Hwf) as [Hwf1 Hs1]. destruct (with_table_wf (elapsed m w) w Hwf1) as (Hwf2 & Hs2 & _).
  assert (Hs : same_client m (with_table (elapsed m w) w)) by (by transitivity (elapsed m w)).
  unfold take_route, make_sequence. rewrite (ready_in_time _ _ Hwf1). cbn [mbind option_bind].
  case_bool_decide; [done|]. case_bool_decide; [|done].
  destruct (_make_sequence_with_max_throughput _ _ _ _); done.
Qed.

Lemma failure_wf m p : manager_wf m -> manager_wf (on_request_failure m p) /\
  sm_block_uids (on_request_failure m p) = sm_block_uids m /\ sm_config (on_request_failure m p) = sm_config m.
Proof.
  intros [Hu Hn Ht]. unfold on_request_failure.
  set (infos := match p with Some p => _ | None => _ end).
  assert (Hi : map rm_uid infos = map rm_uid (sq_block_infos (sm_info m))).
  { unfold infos. destruct p; [|done]. cbn [sm_info sm_with_banned]. by rewrite map_map. }
  assert (Huids : map rm_uid infos = sm_block_uids m) by (by rewrite Hi).
  destruct (existsb no_servers infos), p; (split; [split; [exact Huids|exact Hn|done || exact Ht]|done]).
Qed.

Lemma success_wf m p : manager_wf m -> manager_wf (on_request_success m p).
Proof. intros [Hu Hn Ht]. by split. Qed.

(** A throughput route ends with the span that reaches the end of the request. *)
Lemma max_throughput_over m fuel seed i e acc l :
  manager_ok m -> 0 <= i -> i < e -> e <= sm_len m ->
  max_throughput_loop fuel (sq_spans_containing_block (sm_info m)) (sm_rtts m) seed i e acc = Some (Ok l) ->
  exists k s, l = acc ++ k ++ [s] /\ chain i k (sp_start s) /\ sp_start s < e <= sp_end s.
Proof.
  intros Hm. revert seed i acc. induction fuel as [|fuel IH]; intros seed i acc Hi Hie He; cbn [max_throughput_loop].
  - rewrite (proj2 (Z.ltb_lt i e)) by lia. done.
  - rewrite (proj2 (Z.ltb_lt i e)) by lia. cbn [negb]. rewrite row_of_ok by (done || lia).
    destruct (filter (contains_block i) _) as [|x xs]; [done|].
    set (ch := np_choice _ _ _ _). destruct (_ && _) eqn:Eb; [|done]. apply andb_prop in Eb as [Hs Ht]. zbool.
    destruct (Z.ltb_spec (sp_end ch) e) as [Hlt|Hge].
    + intros (k & s & -> & Hk & Hend)%IH; [|lia..]. exists (sp_with_start ch i :: k), s. rewrite <- app_assoc.
      split; [done|]. split; [|done]. cbn [chain]. by split.
    + assert (forall fuel, max_throughput_loop fuel (sq_spans_containing_block (sm_info m)) (sm_rtts m) (seed + 1) (sp_end ch) e
        (acc ++ [sp_with_start ch i]) = Some (Ok (acc ++ [sp_with_start ch i]))) as ->.
      { intros f. destruct f; cbn [max_throughput_loop]; by rewrite (proj2 (Z.ltb_ge (sp_end ch) e)). }
      intros [= <-]. exists [], (sp_with_start ch i). split; [done|]. by split.
Qed.

(** ** The router *)

Section router.
Context (world : nat -> moment).

Record managed := mkManaged {
  mr_manager : SequenceManager;
  mr_time : nat;
  mr_wf : manager_wf mr_manager;
}.

Definition managed_route (r : managed) (a b : Z) (mode : string) (cache : option Z) : managed * result (list RemoteSpanInfo) :=
  let m := mr_manager r in
  let w := world (mr_time r) in
  (mkManaged (take_route m w a b mode cache).1 (S (mr_time r)) (proj1 (take_route_wf m w a b mode cache (mr_wf r))),
   (take_route m w a b mode cache).2).

#[refine] Instance ManagerRouter : Router := {|
  router := managed;
  rt_block_uids r := sm_block_uids (mr_manager r);
  rt_config r := sm_config (mr_manager r);
  rt_make_sequence := managed_route;
  rt_on_request_failure r p :=
    mkManaged (on_request_failure (mr_manager r) p) (mr_time r) (proj1 (failure_wf (mr_manager r) p (mr_wf r)));
  rt_on_request_success r p :=
    mkManaged (on_request_success (mr_manager r) p) (mr_time r) (success_wf (mr_manager r) p (mr_wf r));
|}.
Proof.
  - intros r a b mode c. cbn. destruct (take_route_wf (mr_manager r) (world (mr_time r)) a b mode c (mr_wf r)) as [_ []]. by split.
  - intros r p. cbn. by destruct (failure_wf (mr_manager r) p (mr_wf r)) as (_ & ? & ?).
  - done.
  - intros r a b c r' l Ha Hab Hb H. injection H as _ H. set (w := world (mr_time r)) in H.
    rewrite (proj1 (take_route_eq (mr_manager r) w a b _ c (mr_wf r)) eq_refl) in H.
    destruct (elapsed_wf _ w (mr_wf r)) as [Hwf1 Hs1]. destruct (with_table_wf _ w Hwf1) as (Hwf2 & Hs2 & Hr).
    apply min_latency_chain in H; [done|by apply mw_table|done|done|].
    unfold sm_len. by rewrite (sa_uids _ _ Hs2), (sa_uids _ _ Hs1).
  - intros r a b c r' l Ha Hab Hb H. injection H as _ H. set (w := world (mr_time r)) in H.
    rewrite (proj2 (take_route_eq (mr_manager r) w a b _ c (mr_wf r)) eq_refl) in H.
    destruct (elapsed_wf _ w (mr_wf r)) as [Hwf1 Hs1]. destruct (with_table_wf _ w Hwf1) as (Hwf2 & Hs2 & Hr).
    destruct (_make_sequence_with_max_throughput _ _ _ _) as [[l'|e]|] eqn:El; [|done..].
    cbn in H. injection H as ->. apply max_throughput_over in El as (k & s & -> & Hc); [by exists k, s|by apply mw_table|done..|].
    unfold sm_len. by rewrite (sa_uids _ _ Hs2), (sa_uids _ _ Hs1).
Defined.

(** ** While the swarm holds the blocks

    At every moment the DHT delivers what servers have declared that together are online with all the blocks, for this
    client, and none of which says that it performs no inference steps. *)

Section stable.
Context (prefix : string) (n : Z) (Hpre : valid_prefix prefix = true) (Hn : 0 < n).

Record announced_at m (w : moment) (pvs : list provider) (entries : list store_entry) : Prop := {
  aa_published : published prefix pvs entries;
  aa_delivers : delivers entries (mo_found w);
  aa_infos : of_infos n pvs;
  aa_held : forall i, 0 <= i < n -> exists pv sp, pv ∈ pvs /\ offers m pv sp /\ contains_block i sp;
  aa_speed : forall pv sp, pv ∈ pvs -> offers m pv sp -> zero_rps sp = false;
}.

Definition good_table m : Prop := (forall i, 0 <= i < n -> held m i) /\ no_zero_rps m 0 n.

Record stable (r : managed) : Prop := {
  st_uids : sm_block_uids (mr_manager r) = module_uids prefix 0 n;
  st_free : forall p, bl_contains (sm_banned_peers (mr_manager r)) p = false;
  st_swarm : forall t, (mr_time r <= t)%nat -> exists pvs entries, announced_at (mr_manager r) (world t) pvs entries;
  st_table : sm_ready (mr_manager r) = true -> good_table (mr_manager r);
}.

Lemma offers_same m m' pv sp : same_client m m' -> offers m pv sp -> offers m' pv sp.
Proof. intros [_ Hc Ha Hb _] (info & H1 & H2 & H3 & H4 & ->). exists info. unfold allowed_peer in *. by rewrite Hc, Ha, Hb. Qed.

Lemma same_client_sym m m' : same_client m m' -> same_client m' m.
Proof. intros []. by split. Qed.

Lemma announced_same m m' w pvs entries : same_client m m' -> announced_at m w pvs entries -> announced_at m' w pvs entries.
Proof.
  intros Hs [Hp Hd Hi Hh Hz]. split; try done.
  - intros i Hi'. destruct (Hh i Hi') as (pv & sp & ? & ? & ?). exists pv, sp. split_and!; try done. by eapply offers_same.
  - intros pv sp Hpv Ho. apply (Hz pv); [done|]. eapply offers_same; [by apply same_client_sym|done].
Qed.

Lemma turn_good m w pvs entries : manager_wf m -> sm_block_uids m = module_uids prefix 0 n ->
  (forall p, bl_contains (sm_banned_peers m) p = false) -> announced_at m w pvs entries -> good_table (turn_at m w).
Proof.
  intros Hwf Huids Hfree [Hp Hd Hi Hh Hz]. unfold turn_at, thread_turn.
  set (m1 := sm_with_flags m (sm_ready m) false (sm_thread_started m)).
  destruct (refreshed m1 prefix n pvs entries (mo_found w) (mo_now w) (mo_seed w) (mo_pings w) Hp Hd Hi Hpre Hn Huids
    (mw_uids _ Hwf)) as (m' & -> & _ & _ & _ & _ & Hall). cbn [fst]. split.
  - intros i Hi'. destruct (Hh i Hi') as (pv & sp & Hpv & Ho & Hc). exists sp. split; [|done]. apply Hall.
    exists pv. split; [done|]. split; [exact Ho|by left].
  - intros s i Hs _ _. apply Hall in Hs as (pv & Hpv & Ho & _). by apply (Hz pv).
Qed.

Lemma same_good m (b1 b2 b3 : bool) : good_table m -> good_table (sm_with_flags m b1 b2 b3).
Proof. done. Qed.

Lemma route_good m w pvs entries : manager_wf m -> sm_block_uids m = module_uids prefix 0 n ->
  (forall p, bl_contains (sm_banned_peers m) p = false) -> announced_at m w pvs entries ->
  (sm_ready m = true -> good_table m) -> good_table (with_table (elapsed m w) w).
Proof.
  intros Hwf Huids Hfree Ha Hg.
  assert (He : sm_ready (elapsed m w) = true -> good_table (elapsed m w)).
  { unfold elapsed. destruct (mo_refreshed w); [|done]. intros _. by eapply turn_good. }
  destruct (elapsed_wf m w Hwf) as [Hwf1 Hs]. unfold with_table. cbv zeta.
  destruct (sm_ready (elapsed m w)) eqn:Er; [by apply same_good, He|].
  eapply turn_good; [by destruct Hwf1; split| | |eapply announced_same; [|exact Ha]].
  - exact (eq_trans (sa_uids _ _ Hs) Huids).
  - intros p. etrans; [|exact (Hfree p)]. exact (f_equal (fun b => bl_contains b p) (sa_banned _ _ Hs)).
  - destruct Hs. by split.
Qed.

(** Routes are found, for any blocks, and the swarm stays as it is; so it does when requests succeed. *)
Lemma stable_routes : @routes_stay PI ManagerRouter stable.
Proof.
  split.
  - intros r a b c [Huids Hfree Hsw Hg] Ha Hab Hb. pose proof (mr_wf r) as Hwf.
    destruct (Hsw (mr_time r)) as (pvs & entries & Hat); [lia|].
    pose proof (route_good _ _ _ _ Hwf Huids Hfree Hat Hg) as Hgood.
    destruct (elapsed_wf _ (world (mr_time r)) Hwf) as [Hwf1 Hs1].
    destruct (with_table_wf _ (world (mr_time r)) Hwf1) as (Hwf2 & Hs2 & Hr2).
    assert (Hs : same_client (mr_manager r) (with_table (elapsed (mr_manager r) (world (mr_time r))) (world (mr_time r)))) by (by etrans).
    assert (Hlen : b <= n).
    { unfold rt_len in Hb. cbn in Hb. rewrite Huids in Hb. unfold module_uids, zlen in Hb. rewrite length_fmap, zrange_length in Hb. lia. }
    destruct (min_latency_found (with_table (elapsed (mr_manager r) (world (mr_time r))) (world (mr_time r))) a b c)
      as (l & Hl & _).
    { by apply mw_table. }
    { intros s i Hs' Hi. apply (proj2 Hgood); [done|lia]. }
    { intros i Hi. apply (proj1 Hgood). lia. }
    { done. }
    { done. }
    { unfold sm_len. rewrite (sa_uids _ _ Hs). exact Hb. }
    pose proof (proj1 (take_route_eq (mr_manager r) (world (mr_time r)) a b "min_latency" c Hwf) eq_refl) as Htake.
    exists (managed_route r a b "min_latency" c).1, l. split.
    { assert (Hok : (managed_route r a b "min_latency" c).2 = Ok l) by (cbn; by rewrite Htake).
      rewrite <- Hok. apply surjective_pairing. }
    split; cbn [managed_route fst mr_manager mr_time]; rewrite ?Htake; cbn [fst].
    + by rewrite (sa_uids _ _ Hs).
    + intros p. by rewrite (sa_banned _ _ Hs).
    + intros t Ht. destruct (Hsw t) as (pvs' & es' & H'); [lia|]. exists pvs', es'. by eapply announced_same.
    + done.
  - intros r p [Huids Hfree Hsw Hg]. split.
    + exact Huids.
    + intros q. cbn. rewrite bl_success_contains, Hfree. by rewrite andb_false_r.
    + intros s Hs. destruct (Hsw s Hs) as (pvs & entries & []). by exists pvs, entries.
    + exact Hg.
Qed.
End stable.
End router.
End swarm_router.

(** ** Example

    The client of Discovery.v's example, which has no table yet, and its swarm, which does not change; before each call
    the updating thread has taken a turn. *)

Definition example_moment : @moment ZPeerIds :=
  mkMoment (PI := ZPeerIds) (simple_dht example_entries) f_one 0 (fun _ => []) true.

Definition example_world : nat -> @moment ZPeerIds := fun _ => example_moment.

Lemma example_client_wf : manager_wf example_client.
Proof. split; [reflexivity| |discriminate]. exists "m.0", ["m.1"; "m.2"], "m", 0. by split. Qed.

Definition example_managed : managed := mkManaged example_client 0 example_client_wf.

Abbreviation ExampleRouter := (ManagerRouter (PI := ZPeerIds) (BL := SetBlacklist) example_world).

Lemma example_stable : stable example_world "m" 3 example_managed.
Proof.
  split; [reflexivity|reflexivity| |discriminate].
  intros t _. exists example_providers, example_entries.
  split; [exact example_published|apply simple_dht_delivers|exact example_infos| |].
  - intros i Hi. destruct (decide (i < 2)).
    + exists (example_provider 1 0 2 [JOINING; ONLINE]), (mkSpan (PI := ZPeerIds) 1 0 2 (swarm_info ONLINE 0 2)).
      split; [by left|]. split; [by exists (swarm_info ONLINE 0 2)|unfold contains_block; simpl; lia].
    + exists (example_provider 2 2 3 [ONLINE]), (mkSpan (PI := ZPeerIds) 2 2 3 (swarm_info ONLINE 2 3)).
      split; [by right; left|]. split; [by exists (swarm_info ONLINE 2 3)|unfold contains_block; simpl; lia].
  - intros pv sp Hpv (info & Hc & _ & _ & _ & ->). unfold example_providers in Hpv. rewrite !elem_of_cons in Hpv.
    destruct Hpv as [-> |[-> |[-> |Hpv]]]; [injection Hc as <-; reflexivity..|inversion Hpv].
Qed.

Lemma example_routes : @routes_stay ZPeerIds ExampleRouter (stable example_world "m" 3).
Proof. apply stable_routes; [reflexivity|lia]. Qed.
