(* ===== verification/InferenceSession.v ===== *)
(** * InferenceSession: [client/inference_session.py]

    A multi-step inference session over a chain of servers: each server session keeps the inputs
    it was given, so that the attention caches of a failed server can be rebuilt elsewhere. *)

From S2P Require Import Prelude PyString PyFloat PyDict DataStructures Utils Dht SequenceInfo SequenceManager.
From S2P Require Import Discovery Interfaces SwarmRouter.

Section inference_session.
Context {PI : PeerIds} {RT : Router} {BK : Blocks} {IS : InferenceServer}.

(** What the network does to the n-th remote call: nothing, or an exception. *)
Context (net : nat -> option exn).

(** ** _ServerInferenceSession

    [ss_next_session] is the [session_id] of the next session object; [ss_remote] is
    the state of the session on the server's side. *)

Record ServerSession := mkSession {
  ss_span : RemoteSpanInfo;
  ss_uid : string;
  ss_num_blocks : Z;
  ss_session_id : Z;
  ss_max_length : Z;
  ss_metadata : RequestMetadata;
  ss_stepped : bool;
  ss_closed : bool;
  ss_stream_open : bool;
  ss_position : Z;
  ss_history : option (list token);
  ss_next_session : option Z;
  ss_remote : server_state;
}.

Definition ss_init (span : RemoteSpanInfo) (uid : string) (session_id max_length : Z) (md : RequestMetadata)
    : ServerSession :=
  mkSession span uid (str_count CHAIN_DELIMITER uid + 1) session_id max_length md false false true 0 None None
    (serve_open (sp_start span) (sp_end span) max_length).

Definition ss_with_history (s : ServerSession) (h : option (list token)) : ServerSession :=
  mkSession (ss_span s) (ss_uid s) (ss_num_blocks s) (ss_session_id s) (ss_max_length s) (ss_metadata s)
    (ss_stepped s) (ss_closed s) (ss_stream_open s) (ss_position s) h (ss_next_session s) (ss_remote s).
Definition ss_with_next (s : ServerSession) (n : option Z) : ServerSession :=
  mkSession (ss_span s) (ss_uid s) (ss_num_blocks s) (ss_session_id s) (ss_max_length s) (ss_metadata s)
    (ss_stepped s) (ss_closed s) (ss_stream_open s) (ss_position s) (ss_history s) n (ss_remote s).
Definition ss_with_stepped (s : ServerSession) : ServerSession :=
  mkSession (ss_span s) (ss_uid s) (ss_num_blocks s) (ss_session_id s) (ss_max_length s) (ss_metadata s)
    true (ss_closed s) (ss_stream_open s) (ss_position s) (ss_history s) (ss_next_session s) (ss_remote s).
Definition ss_answered (s : ServerSession) (n : Z) (remote : server_state) : ServerSession :=
  mkSession (ss_span s) (ss_uid s) (ss_num_blocks s) (ss_session_id s) (ss_max_length s) (ss_metadata s)
    (ss_stepped s) (ss_closed s) (ss_stream_open s) (ss_position s + n) (ss_history s) (ss_next_session s) remote.
Definition ss_shut (s : ServerSession) : ServerSession :=
  mkSession (ss_span s) (ss_uid s) (ss_num_blocks s) (ss_session_id s) (ss_max_length s) (ss_metadata s)
    (ss_stepped s) true false (ss_position s) (ss_history s) (ss_next_session s) (ss_remote s).

(** ** InferenceSession *)

Record Session := mkInference {
  is_manager : router;
  is_closed : bool;
  is_server_sessions : list ServerSession;
  is_position : Z;
  is_max_length : Z;
  is_calls : nat;          (* remote calls made so far *)
  is_uuids : Z;            (* identifiers drawn so far *)
}.

Definition is_init (m : router) (max_length : Z) : Session := mkInference m false [] 0 max_length 0 0.

Definition is_num_blocks (w : Session) : Z := rt_len (is_manager w).

Definition is_with_manager (w : Session) (m : router) : Session :=
  mkInference m (is_closed w) (is_server_sessions w) (is_position w) (is_max_length w) (is_calls w) (is_uuids w).
Definition is_with_sessions (w : Session) (l : list ServerSession) : Session :=
  mkInference (is_manager w) (is_closed w) l (is_position w) (is_max_length w) (is_calls w) (is_uuids w).
Definition is_with_position (w : Session) (p : Z) : Session :=
  mkInference (is_manager w) (is_closed w) (is_server_sessions w) p (is_max_length w) (is_calls w) (is_uuids w).

(** One remote call: the world moves on and the network may raise. *)
Definition rpc (w : Session) : Session * result unit :=
  (mkInference (is_manager w) (is_closed w) (is_server_sessions w) (is_position w) (is_max_length w)
     (S (is_calls w)) (is_uuids w),
   match net (is_calls w) with None => Ok () | Some e => Err e end).

Definition fresh_uuid (w : Session) : Session * Z :=
  (mkInference (is_manager w) (is_closed w) (is_server_sessions w) (is_position w) (is_max_length w)
     (is_calls w) (is_uuids w + 1), is_uuids w).

(** *** Closing *)

(** [_ServerInferenceSession.close] with [_aclose_stream]: only a session that has stepped says
    goodbye to its server; the [StopAsyncIteration] that ends the stream is expected. *)
Definition ss_close (w : Session) (s : ServerSession) : Session * ServerSession * result unit :=
  if negb (ss_stream_open s) then (w, s, Ok ())
  else if ss_stepped s then
    let '(w', r) := rpc w in
    match r with
    | Ok _ | Err StopAsyncIteration => (w', ss_shut s, Ok ())
    | Err e => (w', s, Err e)
    end
  else (w, ss_shut s, Ok ()).

(** [_exit_server_sessions]: in reverse order, swallowing every [Exception]. *)
Fixpoint _exit_server_sessions (w : Session) (l : list ServerSession) : Session * list ServerSession :=
  match l with
  | [] => (w, [])
  | s :: l' =>
      let '(w1, l1) := _exit_server_sessions w l' in
      let '(w2, s', _) := ss_close w1 s in
      (w2, s' :: l1)
  end.

(** [close] of the whole session. *)
Definition is_close (w : Session) : Session :=
  if is_closed w then w
  else
    let '(w', _) := _exit_server_sessions w (is_server_sessions w) in
    mkInference (is_manager w') true [] (is_position w') (is_max_length w') (is_calls w') (is_uuids w').

(** *** Opening *)

(** [_enter_server_sessions]: a failure closes the sessions opened so far. *)
Fixpoint enter_loop (w : Session) (opened : list ServerSession) (spans : list RemoteSpanInfo)
    : Session * result (list ServerSession) :=
  match spans with
  | [] => (w, Ok opened)
  | span :: spans' =>
      let span_uids := join_with CHAIN_DELIMITER
        (zslice (rt_block_uids (is_manager w)) (sp_start span) (sp_end span)) in
      let metadata := mkMeta get_points (cfg_active_adapter (rt_config (is_manager w))) None in
      let '(w1, r) := rpc w in
      match r with
      | Err e => let '(w2, _) := _exit_server_sessions w1 opened in (w2, Err e)
      | Ok _ =>
          let '(w2, session_id) := fresh_uuid w1 in
          enter_loop w2 (opened ++ [ss_init span span_uids session_id (is_max_length w2) metadata]) spans'
      end
  end.

Definition _enter_server_sessions (w : Session) (spans : list RemoteSpanInfo) : Session * result (list ServerSession) :=
  enter_loop w [] spans.

(** *** A request to one server *)

Record inference_request := mkRequest {
  rq_uid : string;
  rq_tensors : list token;
  rq_prompts : list prompt;
  rq_hypo_ids : list Z;
  rq_session_id : Z;
  rq_step_id : Z;
  rq_session_metadata : option (Z * RequestMetadata);
  rq_next_servers : option (list (string * Z * Z * Z));
}.

Definition find_session (l : list ServerSession) (id : Z) : option ServerSession :=
  find (fun s => ss_session_id s =? id) l.

(** [_collect_next_servers]: follows the links while the sessions have stepped. The fuel is the
    number of sessions; the links never point backwards. *)
Fixpoint collect_next (fuel : nat) (l : list ServerSession) (next : option Z) : list (string * Z * Z * Z) :=
  match fuel, next with
  | S fuel', Some id =>
      match find_session l id with
      | Some s =>
          if ss_stepped s
          then (to_base58 (sp_peer_id (ss_span s)), ss_session_id s, sp_start (ss_span s), sp_end (ss_span s))
                 :: collect_next fuel' l (ss_next_session s)
          else []
      | None => []
      end
  | _, _ => []
  end.

Definition _collect_next_servers (l : list ServerSession) (s : ServerSession) : list (string * Z * Z * Z) :=
  collect_next (length l) l (ss_next_session s).

(** The request that [_ServerInferenceSession.step] builds; all the history goes with the first. *)
Definition build_request (w : Session) (s : ServerSession) (inputs : list token) (prompts : list prompt)
    (hypo_ids : list Z) (step_id : Z) : inference_request :=
  let next_servers := _collect_next_servers (is_server_sessions w) s in
  mkRequest (ss_uid s) inputs prompts hypo_ids (ss_session_id s) step_id
    (if ss_stepped s then None else Some (ss_max_length s, ss_metadata s))
    (if ss_stepped s && cfg_use_server_to_server (rt_config (is_manager w)) && negb (zlen next_servers =? 0)
     then Some next_servers else None).

(** [history] after the new inputs are recorded. *)
Definition extend_history (s : ServerSession) (inputs : list token) : list token :=
  match ss_history s with
  | None => inputs
  | Some h => if zlen h =? ss_position s then h ++ inputs else h
  end.

(** [_ServerInferenceSession.step], on session [i] of the list. The server's side is [serve]. *)
Definition ss_step (w : Session) (i : nat) (s : ServerSession) (inputs : list token) (prompts : list prompt)
    (hypo_ids : list Z) (step_id : Z) : Session * result (list token) :=
  let put (w : Session) (s : ServerSession) := is_with_sessions w (<[i := s]> (is_server_sessions w)) in
  if ss_closed s then (w, Err SessionClosed)
  else
    let n_input_tokens := zlen inputs in
    let history := extend_history s inputs in
    let s1 := ss_with_history s (Some history) in
    if negb (zlen history =? ss_position s1 + n_input_tokens) then (put w s1, Err AssertionError)
    else
      let inputs := if ss_stepped s1 then inputs else history in
      let request := build_request w s1 inputs prompts hypo_ids step_id in
      let s2 := ss_with_stepped s1 in
      let '(w1, r) := rpc (put w s2) in
      match r with
      | Err e => (w1, Err e)
      | Ok _ =>
          let '(remote, answer) := serve (sp_start (ss_span s2)) (sp_end (ss_span s2)) (ss_remote s2)
            (rq_tensors request) (rq_prompts request) (rq_hypo_ids request) in
          match answer with
          | Err e => (put w1 (ss_answered s2 0 remote), Err e)
          | Ok outputs =>
              if negb (zlen outputs =? zlen inputs) then (put w1 (ss_answered s2 0 remote), Err AssertionError)
              else (put w1 (ss_answered s2 n_input_tokens remote), Ok outputs)
          end
      end.

(** *** Forming and repairing the chain *)

(** [l[server_idx : server_idx + 1] = updated] *)
Definition replace_at {A} (l : list A) (i : nat) (updated : list A) : list A :=
  take i l ++ updated ++ drop (S i) l.

(** The loop that re-links the sessions around the updated ones. *)
Definition relink (l : list ServerSession) (lo hi : Z) : list ServerSession :=
  fold_left (fun l i =>
    match l !! Z.to_nat i, l !! Z.to_nat (i + 1) with
    | Some s, Some s' => <[Z.to_nat i := ss_with_next s (Some (ss_session_id s'))]> l
    | _, _ => l
    end) (zrange lo hi) l.

(** [updated_spans[-1].end = min(updated_spans[-1].end, update_end)] *)
Fixpoint clip_last (spans : list RemoteSpanInfo) (update_end : Z) : result (list RemoteSpanInfo) :=
  match spans with
  | [] => Err IndexError
  | [s] => Ok [sp_with_end s (Z.min (sp_end s) update_end)]
  | s :: spans' => l ← clip_last spans' update_end; Ok (s :: l)
  end.

Definition _update_sequence (w : Session) (server_idx : nat) (block_idx : Z) : Session * result unit :=
  let failed := take 1 (drop server_idx (is_server_sessions w)) in
  let '(w1, failed') := _exit_server_sessions w failed in
  let w2 := is_with_sessions w1 (replace_at (is_server_sessions w1) server_idx failed') in
  let update_end := match is_server_sessions w2 !! server_idx with
                    | Some s => sp_end (ss_span s)
                    | None => is_num_blocks w2
                    end in
  let '(m, r) := rt_make_sequence (is_manager w2) block_idx update_end "min_latency" (Some (is_max_length w2)) in
  let w3 := is_with_manager w2 m in
  match (spans ← r; clip_last spans update_end) with
  | Err e => (w3, Err e)
  | Ok updated_spans =>
      let '(w4, r) := _enter_server_sessions w3 updated_spans in
      match r with
      | Err e => (w4, Err e)
      | Ok updated =>
          let updated := match is_server_sessions w4 !! server_idx, updated with
                         | Some old, s :: rest => ss_with_history s (ss_history old) :: rest
                         | _, l => l
                         end in
          let sessions := replace_at (is_server_sessions w4) server_idx updated in
          let lo := Z.max (Z.of_nat server_idx - 1) 0 in
          let hi := Z.min (Z.of_nat server_idx + zlen updated_spans) (zlen sessions - 1) in
          (is_with_sessions w4 (relink sessions lo hi), Ok ())
      end
  end.

(** *** One step through all the servers *)

(** The [try] block: the session that was used, if it got that far, and the outputs. *)
Definition attempt (w : Session) (server_idx : nat) (block_idx : Z) (attempt_no : Z) (inputs : list token)
    (prompts : list prompt) (hypo_ids : list Z) (step_id : Z)
    : Session * option ServerSession * result (list token) :=
  let '(w1, r) := if (zlen (is_server_sessions w) =? 0) || (1 <=? attempt_no)
                  then _update_sequence w server_idx block_idx else (w, Ok ()) in
  match r with
  | Err e => (w1, None, Err e)
  | Ok _ =>
      match is_server_sessions w1 !! server_idx with
      | None => (w1, None, Err IndexError)
      | Some s =>
          let '(w2, out) := ss_step w1 server_idx s inputs
            (zslice prompts (sp_start (ss_span s)) (sp_end (ss_span s))) hypo_ids step_id in
          (w2, Some s, out)
      end
  end.

(** The [while] and [for] loops; [fuel] bounds the number of attempts. *)
Fixpoint step_loop (fuel : nat) (w : Session) (server_idx : nat) (block_idx : Z) (attempt_no : Z)
    (inputs : list token) (prompts : list prompt) (hypo_ids : list Z) (step_id : Z)
    : option (Session * result (list token)) :=
  if is_num_blocks w <=? block_idx then Some (w, Ok inputs)
  else
    match fuel with
    | O => None
    | S fuel' =>
        let '(w1, used, r) := attempt w server_idx block_idx attempt_no inputs prompts hypo_ids step_id in
        match r, used with
        | Ok outputs, Some s =>
            let w2 := is_with_manager w1 (rt_on_request_success (is_manager w1) (sp_peer_id (ss_span s))) in
            step_loop fuel' w2 (S server_idx) (sp_end (ss_span s)) 0 outputs prompts hypo_ids step_id
        | Ok outputs, None => Some (w1, Err AttributeError)
        | Err e, _ =>
            if negb (is_Exception e) then Some (w1, Err e)
            else
              let w2 := is_with_manager w1
                (rt_on_request_failure (is_manager w1) (sp_peer_id ∘ ss_span <$> used)) in
              if bool_decide (cfg_max_retries (rt_config (is_manager w2)) = Some (attempt_no + 1))
              then Some (w2, Err e)
              else step_loop fuel' w2 server_idx block_idx (attempt_no + 1) inputs prompts hypo_ids step_id
        end
    end.

(** The inputs of a step: hidden states with their batch size and width; prompts and hypotheses
    with the shapes that are checked. *)
Record step_args := mkArgs {
  ar_batch : Z;
  ar_hidden_size : Z;
  ar_inputs : list token;
  ar_prompts : option (list Z * list prompt);
  ar_hypo_ids : option (bool * list Z);   (* is the dtype int64? *)
}.

Definition is_dummy_shape (shape : list Z) : bool := foldr Z.mul 1 shape =? 0.

Definition check_prompts (w : Session) (a : step_args) : result (list prompt) :=
  match ar_prompts a with
  | None => Ok []
  | Some (shape, data) =>
      if is_dummy_shape shape then Ok []
      else match shape with
           | [d0; d1; d2; d3] =>
               _ ← assert_ (d0 =? is_num_blocks w);
               _ ← assert_ ((d1 =? ar_batch a) || (d1 =? 1));
               _ ← assert_ (d2 <=? zlen (ar_inputs a));
               _ ← assert_ (d3 =? ar_hidden_size a);
               Ok data
           | _ => Err AssertionError
           end
  end.

Definition check_hypo_ids (a : step_args) : result (list Z) :=
  match ar_hypo_ids a with
  | None => Ok []
  | Some (is_int64, ids) =>
      if zlen ids =? 0 then Ok []
      else _ ← assert_ (zlen ids =? ar_batch a); _ ← assert_ is_int64; Ok ids
  end.

(** [inputs[:, -n:]] *)
Definition last_tokens (n : Z) (l : list token) : list token := if n =? 0 then l else zslice l (- n) (zlen l).

Definition is_step (fuel : nat) (w : Session) (a : step_args) : option (Session * result (list token)) :=
  if is_closed w then Some (w, Err AssertionError)
  else
    match (prompts ← check_prompts w a; hypo_ids ← check_hypo_ids a; Ok (prompts, hypo_ids)) with
    | Err e => Some (w, Err e)
    | Ok (prompts, hypo_ids) =>
        let '(w1, step_id) := fresh_uuid w in
        let n_input_tokens := zlen (ar_inputs a) in
        if is_max_length w1 <? is_position w1 + n_input_tokens then Some (w1, Err ValueError)
        else
          match step_loop fuel w1 0 0 0 (ar_inputs a) prompts hypo_ids step_id with
          | None => None
          | Some (w2, Err e) => Some (w2, Err e)
          | Some (w2, Ok outputs) =>
              Some (is_with_position w2 (is_position w2 + n_input_tokens), Ok (last_tokens n_input_tokens outputs))
          end
    end.
End inference_session.

(** ** What the operations on the chain change *)

Section session_proofs.
Context {PI : PeerIds} {RT : Router} {BK : Blocks} {IS : InferenceServer}.
Context (net : nat -> option exn).

(** The parts of a session that matter for the results. *)
Definition session_core : Type := RemoteSpanInfo * bool * bool * Z * option (list token) * server_state.

Definition core (s : ServerSession) : session_core :=
  (ss_span s, ss_stepped s, ss_closed s, ss_position s, ss_history s, ss_remote s).

(** A session that was just opened, for at most [m] tokens. *)
Definition new_core (m : Z) (span : RemoteSpanInfo) (h : option (list token)) : session_core :=
  (span, false, false, 0, h, serve_open (sp_start span) (sp_end span) m).

(** What a step never changes. *)
Record same_world (w w' : Session) : Prop := {
  sw_uids : rt_block_uids (is_manager w') = rt_block_uids (is_manager w);
  sw_config : rt_config (is_manager w') = rt_config (is_manager w);
  sw_position : is_position w' = is_position w;
  sw_max_length : is_max_length w' = is_max_length w;
  sw_closed : is_closed w' = is_closed w;
}.

#[local] Instance same_world_preorder : PreOrder same_world.
Proof.
  split; [by split|]. intros w1 w2 w3 [] []. split; congruence.
Qed.

Definition maybe_shut (s s' : ServerSession) : Prop := s' = s \/ s' = ss_shut s.

Lemma rpc_same w : same_world w (rpc net w).1.
Proof. by split. Qed.

Lemma ss_close_spec w s w' s' r :
  ss_close net w s = (w', s', r) ->
  same_world w w' /\ is_manager w' = is_manager w /\ is_server_sessions w' = is_server_sessions w /\ maybe_shut s s'.
Proof.
  unfold ss_close, rpc. destruct (negb (ss_stream_open s)); [intros [= <- <- <-]; by repeat split; left|].
  destruct (ss_stepped s); [|intros [= <- <- <-]; by repeat split; right].
  destruct (net (is_calls w)) as [[]|]; intros [= <- <- <-]; repeat split; (by left) || (by right).
Qed.

Lemma exit_spec w l w' l' :
  _exit_server_sessions net w l = (w', l') ->
  same_world w w' /\ is_manager w' = is_manager w /\ is_server_sessions w' = is_server_sessions w /\
  Forall2 maybe_shut l l'.
Proof.
  revert w' l'. induction l as [|s l IH]; intros w' l'; simpl; [by intros [= <- <-]|].
  destruct (_exit_server_sessions net w l) as [w1 l1] eqn:E1.
  destruct (ss_close net w1 s) as [[w2 s'] r] eqn:E2. intros [= <- <-].
  destruct (IH _ _ eq_refl) as (H1 & M1 & S1 & F1). apply ss_close_spec in E2 as (H2 & M2 & S2 & F2).
  split; [by transitivity w1|]. split; [congruence|]. split; [congruence|]. by constructor.
Qed.

Lemma enter_spec w opened spans w' r :
  enter_loop net w opened spans = (w', r) ->
  same_world w w' /\ is_manager w' = is_manager w /\ is_server_sessions w' = is_server_sessions w /\
  forall l, r = Ok l -> exists new, l = opened ++ new /\ core <$> new = (fun s => new_core (is_max_length w) s None) <$> spans.
Proof.
  revert w opened. induction spans as [|span spans IH]; intros w opened; cbn [enter_loop].
  - intros [= <- <-]. repeat split. intros l [= <-]. exists []. by rewrite app_nil_r.
  - unfold rpc. destruct (net (is_calls w)) as [e|].
    + set (w1 := mkInference _ _ _ _ _ _ _).
      destruct (_exit_server_sessions net w1 opened) as [w2 l2] eqn:E. intros [= <- <-].
      apply exit_spec in E as (H & M & S & _). split; [by transitivity w1|]. by repeat split.
    + unfold fresh_uuid. cbn [is_manager is_closed is_server_sessions is_position is_max_length is_calls is_uuids].
      intros H. apply IH in H as (H & M & S & Hl). split; [by (etransitivity; [|exact H])|]. split; [done|].
      split; [done|]. intros l Hr. apply Hl in Hr as (new & -> & Hc).
      eexists (_ :: new). split; [by rewrite <- app_assoc|]. cbn [fmap list_fmap]. by rewrite Hc.
Qed.

Lemma relink_core l lo hi : core <$> relink l lo hi = core <$> l.
Proof.
  unfold relink. apply (fold_left_invariant (fun l' => core <$> l' = core <$> l)); [|done].
  intros l' i _ Hl. destruct (l' !! Z.to_nat i) as [s|] eqn:E1; [|done].
  destruct (l' !! Z.to_nat (i + 1)) as [s'|]; [|done].
  rewrite list_fmap_insert, <- Hl. apply list_insert_id. by rewrite list_lookup_fmap, E1.
Qed.

Lemma clip_chain a l e : chain a l e -> l <> [] -> clip_last l e = Ok l.
Proof.
  revert a. induction l as [|s l IH]; intros a Hc Hne; [done|]. destruct l as [|s' l].
  - destruct Hc as (_ & _ & Hc). simpl in Hc. subst e. simpl. rewrite Z.min_id. by destruct s.
  - destruct Hc as (_ & _ & Hc).
    change (clip_last (s :: s' :: l) e) with (l0 ← clip_last (s' :: l) e; Ok (s :: l0)).
    by rewrite (IH _ Hc).
Qed.

Lemma clip_nonempty l e l' : clip_last l e = Ok l' -> exists s rest, l' = s :: rest /\ length l = length l'.
Proof.
  revert l'. induction l as [|s l IH]; intros l' H; [done|]. destruct l as [|s' l].
  - injection H as <-. eauto.
  - change (clip_last (s :: s' :: l) e) with (l0 ← clip_last (s' :: l) e; Ok (s :: l0)) in H.
    destruct (clip_last (s' :: l) e) as [l0|] eqn:E; [|done]. injection H as <-.
    destruct (IH _ eq_refl) as (x & rest & -> & Hlen). eexists _, _. split; [done|]. simpl in *. congruence.
Qed.

(** *** Replacing the failed session *)

Lemma replace_at_split {A} (l : list A) i : replace_at l i (take 1 (drop i l)) = l.
Proof.
  unfold replace_at. change (S i) with (1 + i)%nat. rewrite Nat.add_comm, <- drop_drop.
  by rewrite take_drop, take_drop.
Qed.

Lemma take_one {A} (l : list A) i : take 1 (drop i l) = match l !! i with Some x => [x] | None => [] end.
Proof.
  destruct (l !! i) as [x|] eqn:E.
  - by rewrite (drop_S l x i) by done.
  - apply lookup_ge_None in E. by rewrite drop_ge.
Qed.

Lemma replace_at_out {A} (l : list A) i u : (length l <= i)%nat -> replace_at l i u = l ++ u.
Proof.
  intros H. unfold replace_at. rewrite take_ge, drop_ge by lia. by rewrite app_nil_r.
Qed.

Lemma replace_at_twice {A} (l : list A) i f u :
  length f = length (take 1 (drop i l)) -> replace_at (replace_at l i f) i u = replace_at l i u.
Proof.
  rewrite take_one. destruct (l !! i) as [x|] eqn:E; intros Hf.
  - destruct f as [|y [|z f]]; try done. apply lookup_lt_Some in E. unfold replace_at.
    rewrite take_app_le by (rewrite length_take; lia). rewrite take_take, Nat.min_id. f_equal. f_equal.
    rewrite drop_app_ge by (rewrite length_take; lia). rewrite length_take.
    replace (S i - i `min` length l)%nat with 1%nat by lia. done.
  - destruct f; [|done]. apply lookup_ge_None in E. rewrite (replace_at_out l i []), app_nil_r by done. done.
Qed.

Lemma replace_at_lookup {A} (l : list A) i f :
  length f = length (take 1 (drop i l)) -> replace_at l i f !! i = f !! 0%nat.
Proof.
  rewrite take_one. destruct (l !! i) as [x|] eqn:E; intros Hf.
  - destruct f as [|y [|z f]]; try done. apply lookup_lt_Some in E. unfold replace_at.
    rewrite lookup_app_r by (rewrite length_take; lia). rewrite length_take.
    by replace (i - i `min` length l)%nat with 0%nat by lia.
  - destruct f; [|done]. apply lookup_ge_None in E. rewrite (replace_at_out l i []), app_nil_r by done.
    by apply lookup_ge_None.
Qed.

(** The end of the part of the chain that [_update_sequence] renews. *)
Definition renew_end (w : Session) (server_idx : nat) : Z :=
  match is_server_sessions w !! server_idx with Some s => sp_end (ss_span s) | None => is_num_blocks w end.

Definition old_history (w : Session) (server_idx : nat) : option (list token) :=
  match is_server_sessions w !! server_idx with Some s => ss_history s | None => None end.

Lemma update_sequence_spec w i b w' r :
  _update_sequence net w i b = (w', r) ->
  same_world w w' /\
  match r with
  | Err _ => exists f, is_server_sessions w' = replace_at (is_server_sessions w) i f /\
      Forall2 maybe_shut (take 1 (drop i (is_server_sessions w))) f
  | Ok _ => exists span spans,
      (exists c r' l, rt_make_sequence (is_manager w) b (renew_end w i) "min_latency" c = (r', Ok l) /\
         clip_last l (renew_end w i) = Ok (span :: spans)) /\
      core <$> is_server_sessions w' =
        replace_at (core <$> is_server_sessions w) i
          (new_core (is_max_length w) span (old_history w i) :: ((fun s => new_core (is_max_length w) s None) <$> spans))
  end.
Proof.
  unfold _update_sequence. set (old := is_server_sessions w).
  destruct (_exit_server_sessions net w (take 1 (drop i old))) as [w1 f] eqn:E1.
  apply exit_spec in E1 as (H1 & M1 & S1 & F1). rewrite S1. fold old.
  set (w2 := is_with_sessions w1 (replace_at old i f)).
  assert (Hlf : length f = length (take 1 (drop i old))) by (symmetry; by eapply Forall2_length).
  assert (Hs2 : same_world w w2) by (transitivity w1; [done|by split]).
  assert (Hsp : match f !! 0%nat with Some s => sp_end (ss_span s) | None => is_num_blocks w end = renew_end w i
    /\ match f !! 0%nat with Some s => ss_history s | None => None end = old_history w i).
  { unfold renew_end, old_history. fold old. rewrite take_one in F1. destruct (old !! i) as [s|].
    - inversion F1 as [|? s' ? ? Hs' Hn]; subst. by destruct Hs' as [-> | ->].
    - inversion F1. done. }
  destruct Hsp as [Hend Hhist].
  change (is_server_sessions w2) with (replace_at old i f). rewrite replace_at_lookup by done.
  assert (is_num_blocks w2 = is_num_blocks w) as ->.
  { unfold is_num_blocks, rt_len. by rewrite (sw_uids _ _ Hs2). }
  rewrite Hend. change (is_manager w2) with (is_manager w1). rewrite M1.
  destruct (rt_make_sequence (is_manager w) b (renew_end w i) "min_latency" (Some (is_max_length w2))) as [m rr] eqn:Em.
  pose proof (rt_make_fixed (is_manager w) b (renew_end w i) "min_latency" (Some (is_max_length w2))) as [Hu Hcfg].
  rewrite Em in Hu, Hcfg. simpl in Hu, Hcfg.
  set (w3 := is_with_manager w2 m).
  assert (Hs3 : same_world w w3).
  { destruct Hs2. split; try done; unfold w3, is_with_manager; cbn [is_manager]; congruence. }
  destruct (spans ← rr; clip_last spans (renew_end w i)) as [upd|e] eqn:Ecl.
  2:{ intros [= <- <-]. split; [done|]. cbn [is_server_sessions is_with_manager is_with_sessions w2 w3].
      eauto. }
  destruct rr as [l|e]; [|done]. cbn [mbind result_bind] in Ecl.
  destruct (clip_nonempty _ _ _ Ecl) as (span & spans & -> & _).
  destruct (_enter_server_sessions net w3 (span :: spans)) as [w4 re] eqn:E4.
  apply enter_spec in E4 as (H4 & M4 & S4 & Hnew).
  assert (Hs4 : same_world w w4) by (by transitivity w3).
  destruct re as [upd|e].
  2:{ intros [= <- <-]. split; [done|]. rewrite S4. cbn [is_server_sessions is_with_manager is_with_sessions w2 w3].
      eauto. }
  destruct (Hnew upd eq_refl) as (new & -> & Hcore). clear Hnew. rewrite fmap_cons in Hcore. rewrite (sw_max_length _ _ Hs3) in Hcore.
  destruct new as [|s new]; [done|]. rewrite fmap_cons in Hcore. simpl app.
  assert (Hc0 : core s = new_core (is_max_length w) span None) by congruence.
  assert (Hcn : core <$> new = (fun s => new_core (is_max_length w) s None) <$> spans) by congruence. clear Hcore.
  rewrite S4. change (is_server_sessions w3) with (replace_at old i f). rewrite replace_at_lookup by done.
  intros [= <- <-]. split; [destruct Hs4; by split|].
  exists span, spans. split; [eauto 6|]. cbn [is_server_sessions is_with_sessions].
  rewrite relink_core, replace_at_twice by done. unfold replace_at.
  rewrite !fmap_app, fmap_take, fmap_drop. f_equal. f_equal. rewrite <- Hhist.
  unfold core, new_core in Hc0. injection Hc0 as <- Hst Hcl Hp Hh Hre.
  destruct (f !! 0%nat) as [s'|]; rewrite fmap_cons, Hcn; f_equal; unfold core, new_core; simpl; congruence.
Qed.

(** ** What the sessions know

    [hist] is the text the whole session has processed, [x] the inputs of the current step. *)

Abbreviation cores w := (core <$> is_server_sessions w).
Definition c_span (c : session_core) : RemoteSpanInfo :=
  match c with (span, _, _, _, _, _) => span end.
Definition c_history (c : session_core) : option (list token) :=
  match c with (_, _, _, _, h, _) => h end.

(** The session has seen [hist], has kept it, and so has its server. *)
Definition good (m : Z) (hist : list token) (c : session_core) : Prop :=
  exists span st, c = (span, true, false, zlen hist, Some (run_blocks 0 (sp_start span) hist), st) /\
    holds (sp_start span) (sp_end span) m st (run_blocks 0 (sp_start span) hist).

(** Ready for the current step; in the first step a session may be new. *)
Definition ready (m : Z) (hist x : list token) (c : session_core) : Prop :=
  good m hist c \/
  hist = [] /\ exists span h, c = new_core m span h /\ (h = None \/ h = Some (run_blocks 0 (sp_start span) x)).

Record at_block (m : Z) (hist x : list token) cs (i : nat) (b N : Z) : Prop := {
  ab_done : chain 0 (c_span <$> take i cs) b;
  ab_todo : chain b (c_span <$> drop i cs) N;
  ab_good : Forall (good m (hist ++ x)) (take i cs);
  ab_ready : Forall (ready m hist x) (drop i cs);
}.

(** In the first step: session [i] failed (or there are no sessions from [i] on). *)
Record failed_at (m : Z) (x : list token) cs (i : nat) (b N : Z) : Prop := {
  fa_range : 0 <= b < N;
  fa_done : chain 0 (c_span <$> take i cs) b;
  fa_good : Forall (good m x) (take i cs);
  fa_todo : match drop i cs with
            | [] => True
            | c :: rest => chain b (c_span <$> c :: rest) N /\
                (c_history c = None \/ c_history c = Some (run_blocks 0 b x)) /\ Forall (ready m [] x) rest
            end;
}.

Lemma maybe_shut_core l l' :
  Forall2 maybe_shut l l' ->
  (c_span ∘ core) <$> l' = (c_span ∘ core) <$> l /\ (c_history ∘ core) <$> l' = (c_history ∘ core) <$> l.
Proof.
  induction 1 as [|s s' l l' Hs _ [IH1 IH2]]; [done|]. rewrite !fmap_cons, IH1, IH2.
  destruct Hs as [-> | ->]; done.
Qed.

Lemma core_lookup w i c : cores w !! i = Some c -> exists s, is_server_sessions w !! i = Some s /\ c = core s.
Proof. rewrite list_lookup_fmap. intros (s & Hs & ->)%fmap_Some. eauto. Qed.

Lemma zlen_run a b l : zlen (run_blocks a b l) = zlen l.
Proof. unfold zlen. by rewrite run_blocks_length. Qed.

(** *** One request *)

(** A server of [a, b) refuses a request of a session for [m] tokens that brings it to [n] tokens. *)
Definition refused (a b m n : Z) (e : exn) : Prop := exists st seen y st',
  holds a b m st seen /\ zlen (seen ++ y) = n /\ serve a b st y [] [] = (st', Err e).

Lemma not_refused N a b m n e : servers_answer N m -> 0 <= a -> a < b -> b <= N -> n <= m -> ~ refused a b m n e.
Proof.
  intros Ha H0 Hab HN Hn (st & seen & y & st' & Hh & Hz & Hs).
  destruct (Ha a b st seen y H0 Hab HN Hh) as (st1 & o & H1); [lia|]. congruence.
Qed.

Lemma ss_step_ready m hist x w i s b inputs id w' r :
  is_server_sessions w !! i = Some s -> ready m hist x (core s) -> sp_start (ss_span s) = b -> 0 <= b ->
  b < sp_end (ss_span s) -> inputs = drop (length hist) (run_blocks 0 b (hist ++ x)) ->
  ss_step net w i s inputs [] [] id = (w', r) ->
  same_world w w' /\
  match r with
  | Ok out => out = drop (length hist) (run_blocks 0 (sp_end (ss_span s)) (hist ++ x)) /\
      exists c, cores w' = <[i := c]> (cores w) /\ c_span c = ss_span s /\ good m (hist ++ x) c
  | Err e => ((exists n, net n = Some e) \/ refused b (sp_end (ss_span s)) m (zlen (hist ++ x)) e) /\
      exists c, cores w' = <[i := c]> (cores w) /\ c_span c = ss_span s /\
      c_history c = Some (run_blocks 0 b (hist ++ x))
  end.
Proof.
  intros Hi Hready Hb Hb0 Hbe Hin. pose proof (lookup_lt_Some _ _ _ Hi) as Hlt.
  set (P := run_blocks 0 b (hist ++ x)).
  assert (Hlen : zlen inputs = zlen x).
  { subst inputs. unfold zlen. rewrite length_drop, run_blocks_length, length_app. lia. }
  (* what both kinds of sessions do with the inputs *)
  assert (Hc : ss_closed s = false /\ extend_history s inputs = P /\
    zlen P = ss_position s + zlen inputs /\ ss_position s + zlen inputs = zlen (hist ++ x) /\
    exists sent rem, (if ss_stepped s then inputs else P) = sent /\ rem ++ sent = P /\ length rem = length hist /\
      holds (sp_start (ss_span s)) (sp_end (ss_span s)) m (ss_remote s) rem).
  { assert (HP : zlen P = zlen hist + zlen inputs) by (unfold P; by rewrite zlen_run, zlen_app, Hlen).
    rewrite zlen_app, <- Hlen. unfold core, new_core in Hready. unfold extend_history.
    destruct Hready as [(span & st & Hg & Hol)|(-> & span & h & Hg & Hh)];
      injection Hg as Hsp Hst Hcl Hpos Hhi Hre; rewrite Hst, Hcl, Hpos, Hhi, Hre, Hsp;
      rewrite Hsp in Hb, Hbe; subst b.
    - rewrite zlen_run, Z.eqb_refl. split; [done|].
      assert (Heq : run_blocks 0 (sp_start span) hist ++ inputs = P).
      { rewrite Hin. symmetry. apply run_blocks_app. }
      rewrite Heq. split; [done|]. split; [done|]. split; [done|].
      exists inputs, (run_blocks 0 (sp_start span) hist). by rewrite run_blocks_length.
    - simpl in Hin. rewrite drop_0 in Hin. simpl in P. fold P in Hin.
      assert (HP0 : match h with Some h => if zlen h =? 0 then h ++ inputs else h | None => inputs end = P).
      { destruct Hh as [-> | ->]; [done|]. rewrite zlen_run. fold P.
        destruct (Z.eqb_spec (zlen x) 0) as [H0|]; [|done].
        destruct inputs as [|t l]; [by rewrite app_nil_r|]. rewrite zlen_cons in Hlen.
        pose proof (zlen_nonneg l). lia. }
      rewrite HP0. split; [done|]. split; [done|]. change (zlen (@nil token)) with 0 in *.
      split; [lia|]. split; [done|]. exists P, []. repeat split. by apply open_holds. }
  destruct Hc as (Hcl & Hext & HlenP & Hpos & sent & rem & Hsent & Hrem & Hlr & Hol).
  unfold ss_step. rewrite Hcl, Hext. cbn [ss_with_history ss_position ss_stepped].
  rewrite (proj2 (Z.eqb_eq _ _) HlenP). cbn [negb]. rewrite Hsent.
  cbn [build_request rq_tensors rq_prompts rq_hypo_ids ss_with_stepped ss_span ss_remote].
  destruct (rpc net _) as [w1 rr] eqn:Er. unfold rpc in Er. injection Er as <- <-.
  assert (Hcore : forall s', core <$> <[i := s']> (is_server_sessions w) = <[i := core s']> (cores w))
    by (intros; by rewrite list_fmap_insert).
  match goal with |- context [net ?n] => destruct (net n) as [e|] eqn:Enet end.
  { intros [= <- <-]. split; [by split|]. split; [eauto|]. cbn [is_server_sessions is_with_sessions].
    rewrite Hcore. eexists. split; [done|]. done. }
  destruct (serve _ _ _ _ _ _) as [remote [o|e]] eqn:Es; cbn [ss_with_history ss_span ss_remote] in Es; rewrite Hb in Es.
  - destruct (serve_holds _ _ _ _ _ _ _ _ Hbe (eq_ind _ (fun a => holds a _ _ _ _) Hol _ Hb) Es) as [Hol' Ho].
    rewrite Hrem, Hlr in Ho. unfold P in Ho. rewrite run_blocks_split in Ho by lia. rewrite Hrem in Hol'.
    assert (Hz : zlen o = zlen (if ss_stepped s then inputs else P)).
    { rewrite Hsent. pose proof (f_equal zlen Hrem) as Hl. rewrite Ho, zlen_app in *. unfold P in Hl.
      unfold zlen in *. rewrite length_drop, !run_blocks_length in *. lia. }
    rewrite Hsent in Hz. rewrite Hz, Z.eqb_refl. cbn [negb]. intros [= <- <-]. split; [by split|]. split; [done|].
    cbn [is_server_sessions is_with_sessions]. rewrite list_insert_insert_eq, Hcore.
    eexists. split; [done|]. split; [done|]. exists (ss_span s), remote. unfold core, ss_answered. simpl.
    rewrite Hcl, Hpos, Hb. done.
  - intros [= <- <-]. split; [by split|]. split.
    + right. exists (ss_remote s), rem, sent, remote.
      split; [by rewrite <- Hb|]. split; [|done]. rewrite Hrem. apply zlen_run.
    + cbn [is_server_sessions is_with_sessions]. rewrite list_insert_insert_eq, Hcore.
      eexists. split; [done|]. done.
Qed.

(** *** Repairing the chain *)

Lemma chain_split a l b : chain a l b -> forall i, exists c, chain a (take i l) c /\ chain c (drop i l) b.
Proof. intros H i. apply chain_app. by rewrite take_drop. Qed.

Lemma new_ready m x (spans : list RemoteSpanInfo) : Forall (ready m [] x) ((fun s => new_core m s None) <$> spans).
Proof.
  apply Forall_fmap, Forall_forall. intros span _. right. split; [done|]. exists span, None. by split; [|left].
Qed.

Lemma spans_new m (spans : list RemoteSpanInfo) : c_span <$> ((fun s => new_core m s None) <$> spans) = spans.
Proof. rewrite <- list_fmap_compose. by apply list_fmap_id. Qed.

(** A repair leaves a chain that is ready from block [b] on. *)
Lemma repair_ready m x w i b N w' :
  N = is_num_blocks w -> is_max_length w = m -> failed_at m x (cores w) i b N -> (i <= length (is_server_sessions w))%nat ->
  _update_sequence net w i b = (w', Ok ()) -> at_block m [] x (cores w') i b N.
Proof.
  intros HN Hm [Hb Hdone Hgood Htodo] Hi Hu. apply update_sequence_spec in Hu as [_ (span & spans & Hroute & Hcores)].
  destruct Hroute as (c & r' & l & Hmk & Hclip). rewrite Hcores, Hm. unfold replace_at.
  assert (Hli : length (take i (cores w)) = i) by (rewrite length_take, length_fmap; lia).
  assert (Hh : old_history w i = None \/ old_history w i = Some (run_blocks 0 b x)).
  { unfold old_history. destruct (is_server_sessions w !! i) as [s|] eqn:E; [|by left].
    rewrite <- fmap_drop, (drop_S _ s i) in Htodo by done. by destruct Htodo as (_ & ? & _). }
  assert (Hrest : chain (renew_end w i) (c_span <$> drop (S i) (cores w)) N /\
    Forall (ready m [] x) (drop (S i) (cores w)) /\ b < renew_end w i <= N).
  { unfold renew_end. destruct (is_server_sessions w !! i) as [s|] eqn:E.
    - rewrite <- fmap_drop, (drop_S _ s i) in Htodo by done. destruct Htodo as ((_ & Hlt & Hch) & _ & Hr).
      rewrite <- fmap_drop. split; [done|]. split; [done|]. apply chain_le in Hch. simpl in *. lia.
    - apply lookup_ge_None in E. rewrite drop_ge by (rewrite length_fmap; lia).
      split; [by rewrite <- HN|]. split; [done|]. lia. }
  destruct Hrest as (Hch & Hr & Hlt).
  assert (Hle : renew_end w i <= zlen (rt_block_uids (is_manager w))) by (unfold is_num_blocks, rt_len in HN; lia).
  pose proof (rt_chain _ _ _ _ _ _ (proj1 Hb) (proj1 Hlt) Hle Hmk) as Hl.
  assert (Hne : l <> []) by (intros ->; simpl in Hl; lia).
  rewrite (clip_chain b l _ Hl Hne) in Hclip. injection Hclip as ->.
  split.
  - by rewrite take_app_length'.
  - rewrite drop_app_length' by done. rewrite fmap_app. apply chain_app. exists (renew_end w i).
    split; [|done]. rewrite fmap_cons, spans_new. done.
  - by rewrite take_app_length'.
  - rewrite drop_app_length' by done. apply Forall_app. split; [|done]. constructor; [|apply new_ready].
    right. split; [done|]. exists span, (old_history w i). split; [done|].
    destruct Hl as [<- _]. done.
Qed.

(** A repair that fails leaves the sessions as they were, but for one that may be closed. *)
Lemma repair_fails m x w i b N w' e :
  failed_at m x (cores w) i b N -> _update_sequence net w i b = (w', Err e) -> failed_at m x (cores w') i b N.
Proof.
  intros [Hb Hdone Hgood Htodo] Hu. apply update_sequence_spec in Hu as [_ (f & -> & Hf)].
  rewrite take_one in Hf. rewrite <- fmap_drop in Htodo.
  destruct (is_server_sessions w !! i) as [s|] eqn:E.
  - pose proof (lookup_lt_Some _ _ _ E) as Hlt.
    inversion Hf as [|? s' ? f' Hs Hf']; subst. inversion Hf'; subst.
    rewrite (drop_S _ s i), fmap_cons, fmap_drop in Htodo by done. unfold replace_at.
    assert (Hli : length (take i (cores w)) = i) by (rewrite length_take, length_fmap; lia).
    rewrite !fmap_app, fmap_take, fmap_drop. split; [done| | |].
    + by rewrite take_app_length'.
    + by rewrite take_app_length'.
    + rewrite drop_app_length' by done. by destruct Hs as [-> | ->].
  - apply lookup_ge_None in E. inversion Hf; subst. rewrite replace_at_out, app_nil_r by done.
    split; try done. by rewrite <- fmap_drop.
Qed.

(** *** One server of the chain *)

Lemma at_block_nth m hist x cs i b N :
  at_block m hist x cs i b N -> b < N ->
  exists c rest, drop i cs = c :: rest /\ cs !! i = Some c /\ drop (S i) cs = rest /\ sp_start (c_span c) = b /\
    b < sp_end (c_span c) /\ chain (sp_end (c_span c)) (c_span <$> rest) N /\ ready m hist x c /\
    Forall (ready m hist x) rest.
Proof.
  intros [_ Ht _ Hr] Hb. destruct (drop i cs) as [|c rest] eqn:E; [simpl in Ht; lia|].
  exists c, rest. assert (Hi : cs !! i = Some c).
  { rewrite <- (Nat.add_0_r i), <- lookup_drop, E. done. }
  rewrite (drop_S _ c i) in E by done. injection E as E. apply Forall_cons in Hr as [? ?].
  destruct Ht as (? & ? & ?). by repeat split.
Qed.

Lemma take_S_insert {A} (l : list A) i c : (i < length l)%nat -> take (S i) (<[i := c]> l) = take i l ++ [c].
Proof.
  intros H. rewrite (take_S_r _ _ c) by (by apply list_lookup_insert_eq). by rewrite take_insert_ge by lia.
Qed.

Lemma use_ready m hist x w i b N s inputs id w' r :
  at_block m hist x (cores w) i b N -> 0 <= b -> b < N -> is_server_sessions w !! i = Some s ->
  inputs = drop (length hist) (run_blocks 0 b (hist ++ x)) ->
  ss_step net w i s inputs [] [] id = (w', r) ->
  same_world w w' /\
  match r with
  | Ok out => out = drop (length hist) (run_blocks 0 (sp_end (ss_span s)) (hist ++ x)) /\
      at_block m hist x (cores w') (S i) (sp_end (ss_span s)) N /\ b < sp_end (ss_span s)
  | Err _ => (hist = [] -> failed_at m x (cores w') i b N) /\
      exists s', is_server_sessions w' !! i = Some s' /\ ss_history s' = Some (run_blocks 0 b (hist ++ x))
  end.
Proof.
  intros Hat Hb0 HbN Hs Hin Hst. pose proof Hat as [Hdone Htodo Hgood Hready].
  destruct (at_block_nth _ _ _ _ _ _ _ Hat HbN) as (c & rest & Hd & Hc & Hd' & Hsb & Hbe & Hch & Hrc & Hrr).
  rewrite list_lookup_fmap, Hs in Hc. injection Hc as <-.
  pose proof (lookup_lt_Some _ _ _ Hs) as Hlt.
  pose proof (ss_step_ready m hist x w i s b inputs id w' r Hs Hrc Hsb Hb0 Hbe Hin Hst) as [Hsame Hr].
  split; [done|]. destruct r as [out|e].
  - destruct Hr as (-> & c & Hcw & Hspan & Hg). split; [done|]. split; [|done]. rewrite Hcw.
    assert (Hlc : (i < length (cores w))%nat) by (by rewrite length_fmap).
    split; rewrite ?take_S_insert, ?drop_insert_lt by (done || lia).
    + rewrite fmap_app. apply chain_app. exists b. split; [done|]. simpl. rewrite Hspan. by rewrite <- Hsb at 1.
    + rewrite Hd'. done.
    + apply Forall_app. split; [done|]. by constructor.
    + by rewrite Hd'.
  - destruct Hr as (_ & c & Hcw & Hspan & Hh). split.
    + intros ->. rewrite Hcw. split; [done| | |].
      * by rewrite take_insert_ge by lia.
      * by rewrite take_insert_ge by lia.
      * rewrite (drop_S _ c i) by (apply list_lookup_insert_eq; by rewrite length_fmap).
        rewrite drop_insert_lt, Hd' by lia. split; [|by split; [right|]].
        rewrite fmap_cons, Hspan. by split.
    + assert (Hl : cores w' !! i = Some c) by (rewrite Hcw; apply list_lookup_insert_eq; by rewrite length_fmap).
      apply core_lookup in Hl as (s' & Hs' & ->). eauto.
Qed.

(** *** The whole step *)

Lemma manager_change w m :
  rt_block_uids m = rt_block_uids (is_manager w) -> rt_config m = rt_config (is_manager w) ->
  same_world w (is_with_manager w m).
Proof. by split. Qed.

Lemma is_num_blocks_same w w' : same_world w w' -> is_num_blocks w' = is_num_blocks w.
Proof. intros [Hu _ _ _ _]. unfold is_num_blocks, rt_len. by rewrite Hu. Qed.

(** A repaired session that has to replay a history cannot step: the assertion on the length of
    its history fails, on every attempt. *)
Lemma stuck fuel w i b att inputs ps hs id s h w' out :
  1 <= att -> b < is_num_blocks w -> is_server_sessions w !! i = Some s -> ss_history s = Some h ->
  zlen h <> 0 -> zlen h <> zlen inputs -> step_loop net fuel w i b att inputs ps hs id <> Some (w', Ok out).
Proof.
  revert w s att. induction fuel as [|fuel IH]; intros w s att Hatt Hb Hs Hh H0 Hn.
  - simpl. case_if; zbool; [lia|done].
  - cbn [step_loop]. case_if; zbool; [lia|]. unfold attempt. rewrite (proj2 (Z.leb_le 1 att) Hatt), orb_true_r.
    assert (Hnext : forall w1 used (e : exn), same_world w w1 ->
      (exists s', is_server_sessions w1 !! i = Some s' /\ ss_history s' = Some h) ->
      (if negb (is_Exception e) then Some (w1, Err e)
       else let w2 := is_with_manager w1 (rt_on_request_failure (is_manager w1) used) in
         if bool_decide (cfg_max_retries (rt_config (is_manager w2)) = Some (att + 1))
         then Some (w2, Err e)
         else step_loop net fuel w2 i b (att + 1) inputs ps hs id) <> Some (w', Ok out)).
    { intros w1 used e Hsame (s' & Hs' & Hh'). case_if; [done|]. cbn zeta. case_if; [done|].
      eapply (IH _ s'); [lia| |done|done|done|done].
      rewrite (is_num_blocks_same w); [done|]. transitivity w1; [done|].
      apply manager_change; apply rt_failure_fixed. }
    destruct (_update_sequence net w i b) as [w1 r] eqn:Hu. apply update_sequence_spec in Hu as [Hsame Hspec].
    destruct r as [[]|e].
    + destruct Hspec as (span & spans & _ & Hcores).
      assert (Hi : cores w1 !! i = Some (new_core (is_max_length w) span (Some h))).
      { rewrite Hcores. unfold replace_at, old_history. rewrite Hs, Hh.
        apply lookup_lt_Some in Hs. rewrite lookup_app_r by (rewrite length_take, length_fmap; lia).
        rewrite length_take, length_fmap. by replace (i - i `min` length (is_server_sessions w))%nat with 0%nat by lia. }
      apply core_lookup in Hi as (s1 & Hs1 & Hc1). rewrite Hs1.
      unfold core, new_core in Hc1. injection Hc1 as Hsp Hst Hcl Hpos Hhi Hre.
      unfold ss_step. rewrite <- Hcl. unfold extend_history. rewrite <- Hhi, <- Hpos.
      rewrite (proj2 (Z.eqb_neq _ _) H0). cbn [ss_with_history ss_position]. rewrite <- Hpos.
      rewrite (proj2 (Z.eqb_neq (zlen h) (0 + zlen inputs))) by lia. cbn [negb].
      apply Hnext; [transitivity w1; [done|by split]|]. cbn [is_server_sessions is_with_sessions].
      rewrite list_lookup_insert_eq by (by eapply lookup_lt_Some). eexists. by split.
    + destruct Hspec as (f & Hf & Hms). apply (Hnext w1 None e); [done|]. rewrite Hf.
      rewrite replace_at_lookup by (symmetry; by eapply Forall2_length).
      rewrite take_one, Hs in Hms. inversion Hms as [|? s' ? ? Hss]; subst. exists s'. split; [done|].
      by destruct Hss as [-> | ->].
Qed.

(** The chain has processed [text]. *)
Definition seen (text : list token) (w : Session) : Prop :=
  chain 0 (c_span <$> cores w) (is_num_blocks w) /\ Forall (good (is_max_length w) text) (cores w).

Lemma at_block_end m hist x cs i N : at_block m hist x cs i N N -> chain 0 (c_span <$> cs) N /\ Forall (good m (hist ++ x)) cs.
Proof.
  intros [Hd Ht Hg _]. assert (Hnil : drop i cs = []).
  { destruct (drop i cs) as [|c rest]; [done|]. destruct Ht as (_ & ? & Hc). apply chain_le in Hc. lia. }
  rewrite <- (take_drop i cs), Hnil, app_nil_r. done.
Qed.

Lemma at_block_le m hist x cs i b N : at_block m hist x cs i b N -> b <= N.
Proof. intros [_ Ht _ _]. by eapply chain_le. Qed.

Lemma loop_ok m fuel hist x w i b att inputs id w' out :
  is_max_length w = m -> 0 <= b -> 0 <= att ->
  (att = 0 /\ at_block m hist x (cores w) i b (is_num_blocks w) \/
   hist = [] /\ (i <= length (is_server_sessions w))%nat /\ failed_at m x (cores w) i b (is_num_blocks w) /\
     (1 <= att \/ is_server_sessions w = [])) ->
  inputs = drop (length hist) (run_blocks 0 b (hist ++ x)) ->
  step_loop net fuel w i b att inputs [] [] id = Some (w', Ok out) ->
  out = drop (length hist) (run_blocks 0 (is_num_blocks w) (hist ++ x)) /\ same_world w w' /\ seen (hist ++ x) w'.
Proof.
  revert w i b att inputs. induction fuel as [|fuel IH]; intros w i b att inputs Hm Hb0 Hatt Hinv Hin Hrun.
  - simpl in Hrun. case_if; [|done]. zbool. injection Hrun as <- <-.
    destruct Hinv as [[_ Hat]|(_ & _ & [? _ _ _] & _)]; [|lia].
    assert (b = is_num_blocks w) as -> by (apply at_block_le in Hat; lia).
    apply at_block_end in Hat. unfold seen. by rewrite Hm.
  - cbn [step_loop] in Hrun. case_if; zbool.
    { injection Hrun as <- <-. destruct Hinv as [[_ Hat]|(_ & _ & [? _ _ _] & _)]; [|lia].
      assert (b = is_num_blocks w) as -> by (apply at_block_le in Hat; lia). apply at_block_end in Hat. unfold seen. by rewrite Hm. }
    assert (Hnext : forall w1 used (e : exn) hist', hist' = hist -> same_world w w1 -> hist' = [] ->
      (i <= length (is_server_sessions w1))%nat -> failed_at m x (cores w1) i b (is_num_blocks w) ->
      (if negb (is_Exception e) then Some (w1, Err e)
       else let w2 := is_with_manager w1 (rt_on_request_failure (is_manager w1) used) in
         if bool_decide (cfg_max_retries (rt_config (is_manager w2)) = Some (att + 1))
         then Some (w2, Err e)
         else step_loop net fuel w2 i b (att + 1) inputs [] [] id) = Some (w', Ok out) ->
      out = drop (length hist) (run_blocks 0 (is_num_blocks w) (hist ++ x)) /\ same_world w w' /\ seen (hist ++ x) w').
    { intros w1 used e hist' -> Hsame Hnil Hlen Hf. case_if; [done|]. cbn zeta. case_if; [done|]. intros Hr.
      set (w2 := is_with_manager _ _) in Hr.
      assert (Hs2 : same_world w w2) by (transitivity w1; [done|apply manager_change; apply rt_failure_fixed]).
      rewrite <- (is_num_blocks_same w w2 Hs2). rewrite <- (is_num_blocks_same w w2 Hs2) in Hf.
      apply IH in Hr as (-> & Hs' & Hseen); [|by rewrite (sw_max_length _ _ Hs2)|lia|lia|right; split; [done|]; split; [done|]; split; [done|left; lia]|done].
      split; [done|]. split; [by transitivity w2|done]. }
    assert (Huse : forall w1, same_world w w1 -> at_block m hist x (cores w1) i b (is_num_blocks w) ->
      (hist = [] \/ att = 0) ->
      (let '(w1, used, r) :=
         match is_server_sessions w1 !! i with
         | None => (w1, None, Err IndexError)
         | Some s =>
             let '(w2, out) := ss_step net w1 i s inputs (zslice [] (sp_start (ss_span s)) (sp_end (ss_span s))) [] id in
             (w2, Some s, out)
         end in
       match r, used with
       | Ok outputs, Some s =>
           step_loop net fuel (is_with_manager w1 (rt_on_request_success (is_manager w1) (sp_peer_id (ss_span s))))
             (S i) (sp_end (ss_span s)) 0 outputs [] [] id
       | Ok outputs, None => Some (w1, Err AttributeError)
       | Err e, _ =>
           if negb (is_Exception e) then Some (w1, Err e)
           else let w2 := is_with_manager w1 (rt_on_request_failure (is_manager w1) (sp_peer_id ∘ ss_span <$> used)) in
             if bool_decide (cfg_max_retries (rt_config (is_manager w2)) = Some (att + 1))
             then Some (w2, Err e)
             else step_loop net fuel w2 i b (att + 1) inputs [] [] id
       end) = Some (w', Ok out) ->
      out = drop (length hist) (run_blocks 0 (is_num_blocks w) (hist ++ x)) /\ same_world w w' /\ seen (hist ++ x) w').
    { intros w1 Hsame Hat Hcase.
      destruct (at_block_nth _ _ _ _ _ _ _ Hat ltac:(lia)) as (c & rest & _ & Hc & _).
      apply core_lookup in Hc as (s & Hs & _). rewrite Hs.
      assert (zslice (@nil prompt) (sp_start (ss_span s)) (sp_end (ss_span s)) = []) as ->.
      { unfold zslice. by rewrite drop_nil, take_nil. }
      destruct (ss_step net w1 i s inputs [] [] id) as [w2 r] eqn:Est.
      pose proof (use_ready m hist x w1 i b _ s inputs id w2 r Hat Hb0 ltac:(lia) Hs Hin Est) as [Hs2 Hr].
      assert (Hsame2 : same_world w w2) by (by transitivity w1).
      destruct r as [o|e].
      - destruct Hr as (-> & Hat' & Hlt). intros Hr. set (w3 := is_with_manager _ _) in Hr.
        assert (Hs3 : same_world w w3) by (transitivity w2; [done|apply manager_change; apply rt_success_fixed]).
        rewrite <- (is_num_blocks_same w w3 Hs3) in *.
        apply IH in Hr as (-> & Hs' & Hseen); [|by rewrite (sw_max_length _ _ Hs3)|lia|lia|by left|done].
        split; [done|]. split; [by transitivity w3|done].
      - destruct Hr as (Hf & s' & Hs' & Hh').
        destruct (decide (hist = [])) as [Hnil|Hne].
        + apply (Hnext w2 (Some (sp_peer_id (ss_span s))) e hist eq_refl); [done|done| |by apply Hf].
          apply lookup_lt_Some in Hs'. lia.
        + intros Hr. exfalso. destruct Hcase as [?|Hatt0]; [done|]. subst att.
          case_if; [done|]. cbn zeta in Hr. case_if; [done|]. revert Hr.
          eapply stuck; [lia| |exact Hs'|exact Hh'| |].
          * rewrite (is_num_blocks_same w); [done|]. transitivity w2; [done|].
            apply manager_change; apply rt_failure_fixed.
          * rewrite zlen_run, zlen_app. pose proof (zlen_nonneg x). destruct hist; [done|].
            rewrite zlen_cons. pose proof (zlen_nonneg hist). lia.
          * subst inputs. unfold zlen. rewrite length_drop, !run_blocks_length, length_app.
            destruct hist; [done|]. simpl. lia. }
    unfold attempt in Hrun.
    destruct ((zlen (is_server_sessions w) =? 0) || (1 <=? att)) eqn:Eneed.
    + destruct Hinv as [[-> Hat]|(-> & Hlen & Hf & _)].
      { exfalso. apply orb_true_iff in Eneed as [En|En]; [|done]. apply zlen_zero in En.
        destruct (at_block_nth _ _ _ _ _ _ _ Hat ltac:(lia)) as (c & _ & _ & Hc & _).
        apply core_lookup in Hc as (s & Hs & _). by rewrite En in Hs. }
      destruct (_update_sequence net w i b) as [w1 [[]|e]] eqn:Hu.
      * pose proof (update_sequence_spec _ _ _ _ _ Hu) as [Hs1 _].
        apply (Huse w1); [done|by eapply repair_ready|by left|exact Hrun].
      * pose proof (update_sequence_spec _ _ _ _ _ Hu) as [Hs1 (f & Hf1 & Hms)].
        apply (Hnext w1 None e [] eq_refl); [done|done| |by eapply repair_fails|exact Hrun].
        rewrite Hf1. apply Forall2_length in Hms. rewrite <- (replace_at_split (is_server_sessions w) i) in Hlen.
        unfold replace_at in *. rewrite !length_app, <- Hms in *. done.
    + destruct Hinv as [[-> Hat]|(_ & _ & _ & Hor)].
      * apply (Huse w); [done|done|by right|exact Hrun].
      * exfalso. apply orb_false_iff in Eneed as [E1 E2]. zbool. destruct Hor as [?|Hnil]; [lia|].
        rewrite Hnil in E1. done.
Qed.

(** The state between two steps: [text] has been processed; at first there are no sessions. *)
Record between_steps (text : list token) (w : Session) : Prop := {
  bs_open : is_closed w = false;
  bs_position : is_position w = zlen text;
  bs_sessions : text = [] /\ is_server_sessions w = [] \/ seen text w;
}.

(** Inputs without deep prompts and beam hypotheses. *)
Definition plain (batch hidden : Z) (x : list token) : step_args := mkArgs batch hidden x None None.

Lemma between_start text w x :
  0 < is_num_blocks w -> between_steps text w ->
  at_block (is_max_length w) text x (cores w) 0 0 (is_num_blocks w) \/
  text = [] /\ (0 <= length (is_server_sessions w))%nat /\ failed_at (is_max_length w) x (cores w) 0 0 (is_num_blocks w) /\
    is_server_sessions w = [].
Proof.
  intros HN [_ _ [[-> Hs]|[Hc Hg]]].
  - right. rewrite Hs. split; [done|]. split; [simpl; lia|]. split; [|done]. split; simpl; try done; lia.
  - left. split; [done|done|constructor|]. rewrite drop_0. eapply Forall_impl; [exact Hg|]. intros c Hcg. by left.
Qed.

Lemma last_tokens_all n (l : list token) : zlen l = n -> last_tokens n l = l.
Proof.
  intros <-. unfold last_tokens. destruct (Z.eqb_spec (zlen l) 0); [done|].
  pose proof (zlen_nonneg l). unfold zslice, clamp. fold (zlen l).
  rewrite (proj2 (Z.ltb_lt (- zlen l) 0)) by lia. rewrite (proj2 (Z.ltb_ge (zlen l) 0)) by lia.
  rewrite Z.add_opp_diag_l, Z.max_id, Z.min_id, drop_0, Z.sub_0_r. apply take_ge. unfold zlen. lia.
Qed.

Lemma step_output_length text x N : zlen (drop (length text) (run_blocks 0 N (text ++ x))) = zlen x.
Proof. unfold zlen. rewrite length_drop, run_blocks_length, length_app. lia. Qed.

(** What a step that returns did, from a state between steps. *)
Lemma step_full fuel text w x batch hidden w' out :
  0 < is_num_blocks w -> between_steps text w ->
  is_step net fuel w (plain batch hidden x) = Some (w', Ok out) ->
  out = drop (length text) (run_blocks 0 (is_num_blocks w) (text ++ x)) /\
  between_steps (text ++ x) w' /\ seen (text ++ x) w' /\ zlen (text ++ x) <= is_max_length w /\
  rt_block_uids (is_manager w') = rt_block_uids (is_manager w) /\ is_max_length w' = is_max_length w.
Proof.
  intros HN Hb Hstep. pose proof Hb as [Hop Hpos Hs]. unfold is_step in Hstep. rewrite Hop in Hstep.
  cbn [plain check_prompts check_hypo_ids ar_prompts ar_hypo_ids ar_inputs mbind result_bind fresh_uuid
       is_max_length is_position] in Hstep.
  case_if; [done|]. zbool. set (w1 := mkInference _ _ _ _ _ _ _) in Hstep.
  destruct (step_loop net fuel w1 0 0 0 x [] [] (is_uuids w)) as [[w2 [o|e]]|] eqn:El; [|done|done].
  injection Hstep as <- <-.
  apply (loop_ok (is_max_length w) fuel text x) in El as (-> & Hsame & Hseen); [|done|lia|lia| |].
  2:{ destruct (between_start text w x HN Hb) as [?|(? & ? & ? & ?)]; [by left|right; eauto]. }
  2:{ by rewrite run_blocks_nil, drop_app_length by lia. }
  change (is_num_blocks w1) with (is_num_blocks w).
  rewrite last_tokens_all by apply step_output_length. split; [done|].
  destruct Hsame as [Hu _ Hp Hm Hc]. simpl in Hu, Hp, Hm, Hc.
  split; [split|split; [|split]]; simpl; try done.
  - by rewrite Hc.
  - rewrite Hp, Hpos, zlen_app. done.
  - by right.
  - rewrite zlen_app. lia.
Qed.

Lemma step_sound fuel text w x batch hidden w' out :
  0 < is_num_blocks w -> between_steps text w ->
  is_step net fuel w (plain batch hidden x) = Some (w', Ok out) ->
  out = drop (length text) (run_blocks 0 (is_num_blocks w) (text ++ x)) /\
  between_steps (text ++ x) w' /\ seen (text ++ x) w' /\ zlen (text ++ x) <= is_max_length w.
Proof. intros HN Hb Hstep. by destruct (step_full _ _ _ _ _ _ _ _ HN Hb Hstep) as (? & ? & ? & ? & _). Qed.

(** C4: whatever fails on the way, a step that returns gives exactly what the model computes: the
    outputs of all the blocks on the whole text, for the new tokens; afterwards every session of
    the chain has processed the text including them, and the maximum length is respected. *)
Theorem session_step_correct fuel text w x batch hidden w' out :
  0 < is_num_blocks w -> between_steps text w ->
  is_step net fuel w (plain batch hidden x) = Some (w', Ok out) ->
  out = drop (length text) (run_blocks 0 (is_num_blocks w) (text ++ x)) /\
  between_steps (text ++ x) w' /\ seen (text ++ x) w' /\ zlen (text ++ x) <= is_max_length w.
Proof. apply step_sound. Qed.

(** *** Without failures *)

Lemma enter_ok w opened spans :
  (forall n, net n = None) -> exists w' l, enter_loop net w opened spans = (w', Ok l).
Proof.
  intros Hnet. revert w opened. induction spans as [|span spans IH]; intros w opened; cbn [enter_loop]; [eauto|].
  unfold rpc. rewrite Hnet. cbn [fresh_uuid]. apply IH.
Qed.

(** Requests leave the router alone. *)
Lemma ss_step_manager w i s inputs prompts hypo_ids id w' r :
  ss_step net w i s inputs prompts hypo_ids id = (w', r) -> is_manager w' = is_manager w.
Proof.
  unfold ss_step, rpc. destruct (ss_closed s); [by intros [= <- _]|]. cbv zeta.
  destruct (negb _); [by intros [= <- _]|].
  destruct (net _); [by intros [= <- _]|]. destruct (serve _ _ _ _ _ _) as [remote [o|e]]; [|by intros [= <- _]].
  destruct (negb _); by intros [= <- _].
Qed.

Section routed.
Context (P : router -> Prop) (HP : routes_stay P).

Lemma first_update_ok w :
  (forall n, net n = None) -> is_server_sessions w = [] -> 0 < is_num_blocks w -> P (is_manager w) ->
  exists w', _update_sequence net w 0 0 = (w', Ok ()) /\ P (is_manager w').
Proof.
  intros Hnet Hs HN HPw. unfold _update_sequence. rewrite Hs. cbn [drop take _exit_server_sessions].
  rewrite ?Hs.
  destruct (ry_found P HP (is_manager w) 0 (is_num_blocks w) (Some (is_max_length w)) HPw) as (m & l & Hm & HPm); [lia|lia|by unfold is_num_blocks|].
  match goal with |- context [rt_make_sequence ?m ?a ?b "min_latency" ?c] =>
    change (rt_make_sequence m a b "min_latency" c)
      with (rt_make_sequence (is_manager w) 0 (is_num_blocks w) "min_latency" (Some (is_max_length w))) end.
  rewrite Hm. cbn [mbind result_bind].
  match goal with |- context [clip_last l ?e] => change e with (is_num_blocks w) end.
  assert (Hc : chain 0 l (is_num_blocks w)) by (eapply rt_chain; [| | |exact Hm]; unfold is_num_blocks, rt_len; lia || done).
  rewrite (clip_chain 0 l _ Hc) by (intros ->; simpl in Hc; lia).
  match goal with |- context [_enter_server_sessions net ?w3 l] =>
    destruct (enter_ok w3 [] l Hnet) as (w4 & new & He) end.
  unfold _enter_server_sessions. rewrite He. eexists. split; [done|].
  apply enter_spec in He as (_ & Hm4 & _). cbn [is_manager is_with_sessions]. by rewrite Hm4.
Qed.

Lemma loop_returns m fuel text x w i b id :
  P (is_manager w) -> (forall n, net n = None) -> servers_answer (is_num_blocks w) m -> zlen (text ++ x) <= m ->
  at_block m text x (cores w) i b (is_num_blocks w) -> 0 <= b ->
  is_num_blocks w - b <= Z.of_nat fuel ->
  exists w' out, step_loop net fuel w i b 0 (drop (length text) (run_blocks 0 b (text ++ x))) [] [] id = Some (w', Ok out) /\ P (is_manager w').
Proof.
  intros HPw Hnet. revert w i b HPw. induction fuel as [|fuel IH]; intros w i b HPw Hans Hm Hat Hb0 Hf.
  - simpl. case_if; zbool; [eauto|lia].
  - cbn [step_loop]. case_if; [eauto|]. zbool. unfold attempt.
    destruct (at_block_nth _ _ _ _ _ _ _ Hat ltac:(lia)) as (c & rest & Hd & Hc & Hd' & Hsb & Hbe & Hch & Hrc & _).
    apply chain_le in Hch. apply core_lookup in Hc as (s & Hs & ->).
    assert (Hne : (zlen (is_server_sessions w) =? 0) = false).
    { apply not_true_iff_false. intros Hz%zlen_zero. by rewrite Hz in Hs. }
    rewrite Hne. cbn [orb Z.leb Z.compare]. rewrite Hs.
    assert (zslice (@nil prompt) (sp_start (ss_span s)) (sp_end (ss_span s)) = []) as ->.
    { unfold zslice. by rewrite drop_nil, take_nil. }
    destruct (ss_step net w i s _ [] [] id) as [w2 r] eqn:Est.
    pose proof (use_ready m text x w i b _ s _ id w2 r Hat Hb0 ltac:(lia) Hs eq_refl Est) as [Hs2 Hr].
    pose proof (ss_step_ready m text x w i s b _ id w2 r Hs Hrc Hsb Hb0 Hbe eq_refl Est) as [_ Hr'].
    destruct r as [o|e]; [|destruct Hr' as [[[n Hn]|Hn] _]; [by rewrite Hnet in Hn|by apply (not_refused (is_num_blocks w)) in Hn]].
    destruct Hr as (-> & Hat' & Hlt). set (w3 := is_with_manager _ _).
    assert (Hs3 : same_world w w3) by (transitivity w2; [done|apply manager_change; apply rt_success_fixed]).
    apply IH; [apply (ry_success P HP); by rewrite (ss_step_manager _ _ _ _ _ _ _ _ _ Est)|by rewrite (is_num_blocks_same w w3 Hs3)|done|by rewrite (is_num_blocks_same w w3 Hs3)|lia|rewrite (is_num_blocks_same w w3 Hs3); lia].
Qed.

(** A step without failures. *)
Lemma step_returns fuel text w x batch hidden :
  P (is_manager w) -> 0 < is_num_blocks w -> between_steps text w -> (forall n, net n = None) -> servers_answer (is_num_blocks w) (is_max_length w) ->
  zlen (text ++ x) <= is_max_length w ->
  is_num_blocks w <= Z.of_nat fuel ->
  exists w' out, is_step net fuel w (plain batch hidden x) = Some (w', Ok out) /\ P (is_manager w').
Proof.
  intros HPw HN Hb Hnet Hans Hmax Hfuel. pose proof Hb as [Hop Hpos _]. unfold is_step. rewrite Hop.
  cbn [plain check_prompts check_hypo_ids ar_prompts ar_hypo_ids ar_inputs mbind result_bind fresh_uuid
       is_max_length is_position].
  rewrite Hpos, <- zlen_app. case_if; zbool; [lia|]. set (w1 := mkInference _ _ _ _ _ _ _).
  assert (Hloop : exists w' out, step_loop net fuel w1 0 0 0 x [] [] (is_uuids w) = Some (w', Ok out) /\ P (is_manager w')).
  { assert (Hx : x = drop (length text) (run_blocks 0 0 (text ++ x)))
      by (by rewrite run_blocks_nil, drop_app_length by lia).
    destruct (between_start text w x HN Hb) as [Hat|(-> & Hl & Hf & Hnil)].
    - destruct (loop_returns _ fuel text x w1 0 0 (is_uuids w) HPw Hnet Hans Hmax Hat ltac:(lia)) as (w' & out & Hrun & HP').
      { change (is_num_blocks w1) with (is_num_blocks w). lia. }
      rewrite <- Hx in Hrun. eauto.
    - destruct (first_update_ok w1 Hnet Hnil HN HPw) as (w2 & Hu & HP2).
      pose proof (repair_ready _ x w1 0 0 _ w2 eq_refl eq_refl Hf Hl Hu) as Hat.
      pose proof (update_sequence_spec _ _ _ _ _ Hu) as [Hs2 _].
      pose proof (at_block_nth _ _ _ _ _ _ _ Hat HN) as (c & rest & _ & Hc & _).
      apply core_lookup in Hc as (s & Hs & _).
      rewrite <- (is_num_blocks_same w1 w2 Hs2) in Hat. change (is_num_blocks w) with (is_num_blocks w1) in Hans.
      rewrite <- (is_num_blocks_same w1 w2 Hs2) in Hans.
      assert (Hge : is_num_blocks w2 - 0 <= Z.of_nat fuel).
      { rewrite (is_num_blocks_same w1 w2 Hs2). change (is_num_blocks w1) with (is_num_blocks w). lia. }
      destruct (loop_returns _ fuel [] x w2 0 0 (is_uuids w) HP2 Hnet Hans Hmax Hat ltac:(lia) Hge) as (w' & out & Hrun & HP').
      exists w', out. split; [|done]. rewrite run_blocks_nil in Hrun by lia. cbn [length app drop] in Hrun. rewrite <- Hrun.
      destruct fuel as [|fuel']; [simpl in Hfuel; lia|]. cbn [step_loop].
      rewrite (is_num_blocks_same w1 w2 Hs2). case_if; [zbool; change (is_num_blocks w1) with (is_num_blocks w) in *; lia|].
      unfold attempt. change (is_server_sessions w1) with (is_server_sessions w). rewrite Hnil.
      change ((zlen (@nil ServerSession) =? 0) || (1 <=? 0)) with true.
      rewrite Hu. cbv beta iota. rewrite Hs. assert (Hne : (zlen (is_server_sessions w2) =? 0) = false).
      { apply not_true_iff_false. intros Hz%zlen_zero. by rewrite Hz in Hs. }
      rewrite Hne. change (false || (1 <=? 0)) with false. cbv beta iota. rewrite ?Hs. reflexivity. }
  destruct Hloop as (w' & out & -> & HP'). eexists _, _. split; [done|]. exact HP'.
Qed.

End routed.

(** C36: when no call fails, the servers answer and the router finds routes (from the states of [P], which requests do not
    leave; the sequence manager over a swarm that announces all the blocks is such a router, see [stable_routes]), a step
    that stays within the maximum length returns outputs, and the router is left in such a state for the next step. *)
Theorem session_step_returns (P : router -> Prop) fuel text w x batch hidden :
  routes_stay P -> P (is_manager w) -> 0 < is_num_blocks w -> between_steps text w -> (forall n, net n = None) ->
  servers_answer (is_num_blocks w) (is_max_length w) -> zlen (text ++ x) <= is_max_length w ->
  is_num_blocks w <= Z.of_nat fuel ->
  exists w' out, is_step net fuel w (plain batch hidden x) = Some (w', Ok out) /\ P (is_manager w').
Proof. intros HP. by apply step_returns. Qed.

(** a server that fails in a later step cannot be replaced: the session that is to replay the
    history starts at position zero, so the assertion on the length of the history fails, and the
    step never returns outputs, however often it is retried. *)
Theorem session_midway_failure fuel text w x batch hidden e w' out :
  0 < is_num_blocks w -> text <> [] -> between_steps text w ->
  net (is_calls w) = Some e ->
  is_step net fuel w (plain batch hidden x) <> Some (w', Ok out).
Proof.
  intros HN Htext Hb Hnet. pose proof Hb as [Hop Hpos _]. unfold is_step. rewrite Hop.
  cbn [plain check_prompts check_hypo_ids ar_prompts ar_hypo_ids ar_inputs mbind result_bind fresh_uuid
       is_max_length is_position].
  case_if; [done|]. set (w1 := mkInference _ _ _ _ _ _ _).
  assert (Hloop : forall w2 o, step_loop net fuel w1 0 0 0 x [] [] (is_uuids w) <> Some (w2, Ok o)).
  { intros w2 o. destruct fuel as [|fuel']; cbn [step_loop]; case_if; try done; zbool;
      try (change (is_num_blocks w1) with (is_num_blocks w) in *; lia).
    destruct (between_start text w x HN Hb) as [Hat|(? & _)]; [|done].
    pose proof (at_block_nth _ _ _ _ _ _ _ Hat HN) as (c & rest & _ & Hc & _ & Hsb & Hbe & _ & Hrc & _).
    apply core_lookup in Hc as (s & Hs & ->). unfold attempt.
    assert (Hne : (zlen (is_server_sessions w1) =? 0) = false).
    { apply not_true_iff_false. intros Hz%zlen_zero. unfold w1 in Hz. simpl in Hz. by rewrite Hz in Hs. }
    rewrite Hne. cbn [orb Z.leb Z.compare]. change (is_server_sessions w1) with (is_server_sessions w). rewrite Hs.
    assert (zslice (@nil prompt) (sp_start (ss_span s)) (sp_end (ss_span s)) = []) as ->.
    { unfold zslice. by rewrite drop_nil, take_nil. }
    destruct (ss_step net w1 0 s x [] [] (is_uuids w)) as [w3 r] eqn:Est.
    assert (Hx : x = drop (length text) (run_blocks 0 0 (text ++ x)))
      by (by rewrite run_blocks_nil, drop_app_length by lia).
    pose proof (use_ready (is_max_length w) text x w1 0 0 _ s x (is_uuids w) w3 r Hat ltac:(lia) HN Hs Hx Est) as [Hsame Hr].
    destruct r as [out3|e3].
    - exfalso. unfold ss_step in Est.
      repeat (match type of Est with context [if ?b then _ else _] =>
        lazymatch b with ss_stepped _ => fail | _ => destruct b end end; [done|]).
      unfold rpc in Est. cbn [is_calls is_with_sessions w1] in Est. rewrite Hnet in Est. done.
    - destruct Hr as (_ & s' & Hs' & Hh'). case_if; [done|]. cbn zeta. case_if; [done|].
      eapply stuck; [lia| |exact Hs'|exact Hh'| |].
      + rewrite (is_num_blocks_same w1); [done|]. transitivity w3; [done|].
        apply manager_change; apply rt_failure_fixed.
      + rewrite zlen_run, zlen_app. pose proof (zlen_nonneg x). destruct text; [done|].
        rewrite zlen_cons. pose proof (zlen_nonneg text). lia.
      + rewrite zlen_run, zlen_app. destruct text; [done|]. rewrite zlen_cons. pose proof (zlen_nonneg text). lia. }
  destruct (step_loop net fuel w1 0 0 0 x [] [] (is_uuids w)) as [[w2 [o|e2]]|] eqn:El; [|done|done].
  exfalso. by apply (Hloop w2 o).
Qed.
End session_proofs.

(** ** A session over three servers, one of which fails during the first step *)

Definition flaky (n : nat) : option exn := if (n =? 4)%nat then Some TimeoutError else None.

Definition start_session : Session (PI := ZPeerIds) (RT := FixedRouter) (BK := SumBlocks) :=
  is_init (RT := FixedRouter) ["m.0"; "m.1"; "m.2"] 8.

Abbreviation run_step := (is_step (RT := FixedRouter) (BK := SumBlocks) (IS := ExactServer)).

Lemma first_step_run :
  exists w, run_step flaky 9 start_session (plain 1 1 [1; 2; 3]) = Some (w, Ok [4; 9; 20]) /\
    is_num_blocks w = 3 /\ is_max_length w = 8.
Proof.
  assert (H : (fun p => (is_num_blocks p.1, is_max_length p.1, p.2)) <$>
    run_step flaky 9 start_session (plain 1 1 [1; 2; 3]) = Some (3, 8, Ok [4; 9; 20])) by (vm_compute; reflexivity).
  destruct (run_step _ _ _ _) as [[w r]|]; [|discriminate H].
  injection H as H1 H2 ->. eauto.
Qed.

Lemma start_between : between_steps (PI := ZPeerIds) (RT := FixedRouter) (BK := SumBlocks) [] start_session.
Proof. split; [done|done|left; done]. Qed.

(** A session in the middle of a generation. *)
Lemma after_first_step :
  exists w, between_steps (PI := ZPeerIds) (RT := FixedRouter) (BK := SumBlocks) [1; 2; 3] w /\
    is_num_blocks w = 3 /\ is_max_length w = 8.
Proof.
  destruct first_step_run as (w & H & Hn & Hm). exists w.
  destruct (step_sound (PI := ZPeerIds) (RT := FixedRouter) (BK := SumBlocks) (IS := ExactServer) flaky 9 []
    start_session [1; 2; 3] 1 1 w [4; 9; 20] eq_refl start_between H) as (_ & Hb & _).
  split; [exact Hb|]. split; [exact Hn|exact Hm].
Qed.

Lemma session_step_correct_witness :
  exists w, run_step flaky 9 start_session (plain 1 1 [1; 2; 3]) = Some (w, Ok [4; 9; 20]) /\
    [4; 9; 20] = run_blocks (BK := SumBlocks) 0 3 [1; 2; 3] /\
    between_steps (PI := ZPeerIds) (RT := FixedRouter) (BK := SumBlocks) [1; 2; 3] w.
Proof.
  destruct first_step_run as (w & H & _). exists w. split; [exact H|].
  destruct (session_step_correct (PI := ZPeerIds) (RT := FixedRouter) (BK := SumBlocks) (IS := ExactServer)
    flaky 9 [] start_session [1; 2; 3] 1 1 w [4; 9; 20] eq_refl start_between H) as (Ho & Hb & _).
  split; [exact Ho|exact Hb].
Defined.

(** The sequence manager of a client that knows no server yet opens its first session over the swarm of SwarmRouter.v's
    example, and steps twice. *)
Definition managed_session : Session (PI := ZPeerIds) (RT := ExampleRouter) (BK := SumBlocks) :=
  is_init (RT := ExampleRouter) example_managed 8.

Lemma managed_between : between_steps (PI := ZPeerIds) (RT := ExampleRouter) (BK := SumBlocks) [] managed_session.
Proof. split; [done|done|left; done]. Qed.

Abbreviation managed_step := (is_step (RT := ExampleRouter) (BK := SumBlocks) (IS := ExactServer) (fun _ => None) 3).

Lemma session_step_returns_witness :
  exists w out w' out', managed_step managed_session (plain 1 1 [1; 2; 3]) = Some (w, Ok out) /\
    managed_step w (plain 1 1 [5]) = Some (w', Ok out').
Proof.
  destruct (session_step_returns (PI := ZPeerIds) (RT := ExampleRouter) (BK := SumBlocks) (IS := ExactServer)
    (fun _ => None) (stable example_world "m" 3) 3 [] managed_session [1; 2; 3] 1 1 example_routes example_stable
    eq_refl managed_between (fun _ => eq_refl) (exact_answers _ _)) as (w & out & Hw & HP); [discriminate|discriminate|].
  exists w, out.
  destruct (step_full (PI := ZPeerIds) (RT := ExampleRouter) (BK := SumBlocks) (IS := ExactServer) (fun _ => None) 3 []
    managed_session [1; 2; 3] 1 1 w out eq_refl managed_between Hw) as (_ & Hb & _ & _ & Hsame).
  assert (Hn : is_num_blocks w = 3 /\ is_max_length w = 8) by (destruct Hsame as [Hu Hm]; split; [exact (f_equal zlen Hu)|exact Hm]).
  destruct Hn as [Hn Hm].
  destruct (session_step_returns (PI := ZPeerIds) (RT := ExampleRouter) (BK := SumBlocks) (IS := ExactServer)
    (fun _ => None) (stable example_world "m" 3) 3 [1; 2; 3] w [5] 1 1 example_routes HP) as (w' & out' & Hw' & _).
  - rewrite Hn. reflexivity.
  - exact Hb.
  - done.
  - apply exact_answers.
  - rewrite Hm. discriminate.
  - rewrite Hn. discriminate.
  - exists w', out'. split; [exact Hw|exact Hw'].
Defined.

(** The next remote call fails: the step is lost. *)
Lemma session_midway_failure_witness :
  exists w, is_num_blocks w = 3 /\ forall w' out, run_step (fun _ => Some TimeoutError) 30 w (plain 1 1 [5]) <> Some (w', Ok out).
Proof.
  destruct after_first_step as (w & Hb & Hn & Hm). exists w. split; [exact Hn|]. intros w' out.
  apply (session_midway_failure (PI := ZPeerIds) (RT := FixedRouter) (BK := SumBlocks) (IS := ExactServer)
    (fun _ => Some TimeoutError) 30 [1; 2; 3] w [5] 1 1 TimeoutError); [rewrite Hn; lia|discriminate|exact Hb|reflexivity].
Defined.
