(* ===== verification/SequentialAutograd.v ===== *)
(** * SequentialAutograd: [client/sequential_autograd.py] and [client/remote_forward_backward.py]

    Fault-tolerant forward and backward passes through a chain of servers: a failed part of the
    chain is routed again, and in the backward pass recomputed. *)

From S2P Require Import Prelude PyString PyFloat PyDict DataStructures Utils Dht SequenceInfo SequenceManager.
From S2P Require Import Interfaces InferenceSession.

Definition MAX_TOKENS_IN_BATCH : Z := 1024.

Section sequential_autograd.
Context {PI : PeerIds} {RT : Router} {SS : SpanServer}.
Context (net : nat -> option exn).

(** The size of the serialized inputs of a span, [hivemind]'s [MAX_UNARY_PAYLOAD_SIZE], and the
    number of positional arguments in the schema that the servers announce. *)
Context (payload_size : list (list row) -> list (list prm) -> Z) (MAX_UNARY_PAYLOAD_SIZE : Z) (args_schema : Z).

Abbreviation tensor := (list row).
Abbreviation prompts_t := (list (list prm)).

(** What a pass shares with the others: the router, and how many remote calls were made. *)
Record task := mkTask { tk_manager : router; tk_calls : nat }.

Definition on_failure (w : task) (p : option PeerID) : task := mkTask (rt_on_request_failure (tk_manager w) p) (tk_calls w).
Definition on_success (w : task) (p : PeerID) : task := mkTask (rt_on_request_success (tk_manager w) p) (tk_calls w).

Definition call (w : task) : task * result unit :=
  (mkTask (tk_manager w) (S (tk_calls w)),
   match net (tk_calls w) with None => Ok () | Some e => Err e end).

(** ** run_remote_forward and run_remote_backward *)

Inductive rpc_method := Unary | Stream.

(** [forward_fn = _forward_stream if size > MAX_UNARY_PAYLOAD_SIZE // 2 else _forward_unary] *)
Definition choose_method (size : Z) : rpc_method :=
  if MAX_UNARY_PAYLOAD_SIZE / 2 <? size then Stream else Unary.

Record span_request := mkSpanRequest {
  sr_method : rpc_method;
  sr_uid : string;
  sr_inputs : tensor;
  sr_grads : list tensor;
  sr_prompts : prompts_t;
  sr_metadata : RequestMetadata;
}.

Definition span_uids (w : task) (sp : RemoteSpanInfo) : string :=
  join_with CHAIN_DELIMITER (zslice (rt_block_uids (tk_manager w)) (sp_start sp) (sp_end sp)).

Definition span_metadata (w : task) : RequestMetadata :=
  mkMeta get_points (cfg_active_adapter (rt_config (tk_manager w))) None.

(** Two tensors, the inputs and the prompts, have to cover the schema. *)
Definition run_remote_forward (w : task) (sp : RemoteSpanInfo) (inputs : tensor) (prompts : prompts_t)
    : task * result tensor :=
  let req := mkSpanRequest (choose_method (payload_size [inputs] prompts)) (span_uids w sp) inputs [] prompts
               (span_metadata w) in
  if negb (args_schema + 1 <=? 2) then (w, Err AssertionError)
  else
    let '(w', r) := call w in
    match r with
    | Err e => (w', Err e)
    | Ok _ => (w', Ok (fwd_span (sp_start sp) (sp_end sp) (sr_inputs req) (sr_prompts req)))
    end.

(** Three tensors: inputs, output gradients and prompts; the schema has one output. The answer is
    the input gradients and, with prompts, the gradients of the prompts. *)
Definition run_remote_backward (w : task) (sp : RemoteSpanInfo) (inputs grad : tensor) (prompts : prompts_t)
    : task * result (tensor * list prompts_t) :=
  let req := mkSpanRequest (choose_method (payload_size [inputs; grad] prompts)) (span_uids w sp) inputs [grad] prompts
               (span_metadata w) in
  if negb (args_schema + 1 + 1 <=? 3) then (w, Err AssertionError)
  else
    let '(w', r) := call w in
    match r with
    | Err e => (w', Err e)
    | Ok _ =>
        let '(g, gp) := bwd_span (sp_start sp) (sp_end sp) (sr_inputs req) grad (sr_prompts req) in
        (w', Ok (g, match prompts with [] => [] | _ => [gp] end))
    end.

(** ** sequential_forward *)

Definition slice_prompts (prompts : prompts_t) (sp : RemoteSpanInfo) : prompts_t :=
  zslice prompts (sp_start sp) (sp_end sp).

(** The [try] block: the remaining sequences, the span that was tried, and its outputs. *)
Definition forward_attempt (w : task) (sequences : list RemoteSpanInfo) (block_idx end_index attempt_no : Z)
    (inputs : tensor) (prompts : prompts_t)
    : task * list RemoteSpanInfo * option RemoteSpanInfo * result tensor :=
  let '(w1, r) :=
    if (zlen sequences =? 0) || (1 <=? attempt_no) then
      let '(m, r) := rt_make_sequence (tk_manager w) block_idx end_index "max_throughput" None in
      (mkTask m (tk_calls w), l ← r; clip_last l end_index)
    else (w, Ok sequences) in
  match r with
  | Err e => (w1, sequences, None, Err e)
  | Ok [] => (w1, [], None, Err IndexError)
  | Ok (span :: rest) =>
      let '(w2, out) := run_remote_forward w1 span inputs (slice_prompts prompts span) in
      match out with
      | Err e => (w2, rest, Some span, Err e)
      | Ok outputs =>
          if zlen outputs =? zlen inputs then (w2, rest, Some span, Ok outputs)
          else (w2, rest, Some span, Err AssertionError)
      end
  end.

(** What [except Exception] decides: give up with the error, or go on in the new state. *)
Definition handle_failure (w : task) (p : option PeerID) (attempt_no : Z) (e : exn) : task * option exn :=
  if negb (is_Exception e) then (w, Some e)
  else
    let w' := on_failure w p in
    if bool_decide (cfg_max_retries (rt_config (tk_manager w')) = Some (attempt_no + 1))
    then (w', Some e) else (w', None).

Fixpoint forward_loop (fuel : nat) (w : task) (sequences : list RemoteSpanInfo) (block_idx end_index attempt_no : Z)
    (inputs : tensor) (prompts : prompts_t) (intermediate_inputs : list tensor) (done_sequences : list RemoteSpanInfo)
    : option (task * result (tensor * list tensor * list RemoteSpanInfo)) :=
  if end_index <=? block_idx then Some (w, Ok (inputs, intermediate_inputs, done_sequences))
  else
    match fuel with
    | O => None
    | S fuel' =>
        let '(w1, rest, used, r) := forward_attempt w sequences block_idx end_index attempt_no inputs prompts in
        match r, used with
        | Ok outputs, Some span =>
            forward_loop fuel' (on_success w1 (sp_peer_id span)) rest (sp_end span) end_index 0 outputs prompts
              (intermediate_inputs ++ [inputs]) (done_sequences ++ [span])
        | Ok _, None => Some (w1, Err AttributeError)
        | Err e, _ =>
            match handle_failure w1 (sp_peer_id <$> used) attempt_no e with
            | (w2, Some e) => Some (w2, Err e)
            | (w2, None) => forward_loop fuel' w2 rest block_idx end_index (attempt_no + 1) inputs prompts
                              intermediate_inputs done_sequences
            end
        end
    end.

Definition sequential_forward (fuel : nat) (w : task) (inputs : tensor) (prompts : prompts_t)
    (start_index : Z) (end_index : option Z) : option (task * result (tensor * list tensor * list RemoteSpanInfo)) :=
  let n := zlen (rt_block_uids (tk_manager w)) in
  let end_index := or_default end_index n in
  match (_ ← assert_ ((0 <=? start_index) && (end_index <=? n));
         assert_ ((zlen prompts =? 0) || (zlen prompts =? n))) with
  | Err e => Some (w, Err e)
  | Ok _ => forward_loop fuel w [] start_index end_index 0 inputs prompts [] []
  end.

(** ** sequential_backward

    The two stacks are lists with the top first ([extend] pushes in order, [pop] takes the last). *)

Record backward_state := mkBackward {
  bk_task : task;
  bk_inputs : list tensor;
  bk_sequences : list RemoteSpanInfo;
}.

(** [extend] both stacks with the backup, then [pop] both. *)
Definition push_backup (st : backward_state) (w : task) (backup_inputs : list tensor)
    (backup_sequences : list RemoteSpanInfo) (sp : RemoteSpanInfo)
    : result (backward_state * tensor * RemoteSpanInfo) :=
  _ ← assert_ (zlen backup_inputs =? zlen backup_sequences);
  first ← znth backup_sequences 0;
  _ ← assert_ (sp_start first =? sp_start sp);
  last ← znth backup_sequences (-1);
  _ ← assert_ (sp_end last =? sp_end sp);
  match rev backup_inputs ++ bk_inputs st, rev backup_sequences ++ bk_sequences st with
  | inputs :: ins, span :: spans => Ok (mkBackward w ins spans, inputs, span)
  | _, _ => Err IndexError
  end.

(** The [try] block on the current inputs and span, which a retry may replace. *)
Definition backward_attempt (ffuel : nat) (st : backward_state) (inputs : tensor) (sp : RemoteSpanInfo)
    (attempt_no : Z) (grad : tensor) (prompts : prompts_t)
    : option (backward_state * tensor * RemoteSpanInfo * result (tensor * list prompts_t)) :=
  let ready :=
    if 1 <=? attempt_no then
      match sequential_forward ffuel (bk_task st) inputs prompts (sp_start sp) (Some (sp_end sp)) with
      | None => None
      | Some (w, Err e) => Some (mkBackward w (bk_inputs st) (bk_sequences st), inputs, sp, Err e)
      | Some (w, Ok (_, backup_inputs, backup_sequences)) =>
          match push_backup st w backup_inputs backup_sequences sp with
          | Err e => Some (mkBackward w (bk_inputs st) (bk_sequences st), inputs, sp, Err e)
          | Ok (st', inputs', sp') => Some (st', inputs', sp', Ok ())
          end
      end
    else Some (st, inputs, sp, Ok ()) in
  match ready with
  | None => None
  | Some (st, inputs, sp, Err e) => Some (st, inputs, sp, Err e)
  | Some (st, inputs, sp, Ok _) =>
      let '(w, r) := run_remote_backward (bk_task st) sp inputs grad (slice_prompts prompts sp) in
      Some (mkBackward w (bk_inputs st) (bk_sequences st), inputs, sp, r)
  end.

(** [None] in [current]: the [while] loop takes the next span. *)
Fixpoint backward_loop (fuel ffuel : nat) (st : backward_state) (current : option (tensor * RemoteSpanInfo))
    (attempt_no : Z) (grad : tensor) (prompts : prompts_t) (grad_prompts_reversed : list prompts_t)
    : option (task * result (tensor * list prompts_t)) :=
  match current, bk_inputs st, bk_sequences st with
  | None, inputs :: ins, sp :: spans =>
      match fuel with
      | O => None
      | S fuel' => backward_loop fuel' ffuel (mkBackward (bk_task st) ins spans) (Some (inputs, sp)) 0 grad prompts
                     grad_prompts_reversed
      end
  | None, _, _ => Some (bk_task st, Ok (grad, grad_prompts_reversed))
  | Some (inputs, sp), _, _ =>
      match fuel with
      | O => None
      | S fuel' =>
          match backward_attempt ffuel st inputs sp attempt_no grad prompts with
          | None => None
          | Some (st', inputs', sp', Ok (grad', span_grad_prompts)) =>
              backward_loop fuel' ffuel
                (mkBackward (on_success (bk_task st') (sp_peer_id sp')) (bk_inputs st') (bk_sequences st')) None 0
                grad' prompts (grad_prompts_reversed ++ span_grad_prompts)
          | Some (st', inputs', sp', Err e) =>
              match handle_failure (bk_task st') (Some (sp_peer_id sp')) attempt_no e with
              | (w, Some e) => Some (w, Err e)
              | (w, None) => backward_loop fuel' ffuel (mkBackward w (bk_inputs st') (bk_sequences st'))
                               (Some (inputs', sp')) (attempt_no + 1) grad prompts grad_prompts_reversed
              end
          end
      end
  end.

(** [torch.cat(grad_prompts_reversed[::-1], dim=0)], [None] when there are no prompts. *)
Definition cat_grad_prompts (l : list prompts_t) : option prompts_t :=
  match l with [] => None | _ => Some (concat (rev l)) end.

Definition sequential_backward (fuel ffuel : nat) (w : task) (grad_outputs : tensor) (intermediate_inputs : list tensor)
    (prompts : prompts_t) (forward_sequences : list RemoteSpanInfo)
    : option (task * result (tensor * option prompts_t)) :=
  if negb (zlen intermediate_inputs =? zlen forward_sequences) then Some (w, Err AssertionError)
  else
    match backward_loop fuel ffuel (mkBackward w (rev intermediate_inputs) (rev forward_sequences)) None 0
            grad_outputs prompts [] with
    | None => None
    | Some (w', Err e) => Some (w', Err e)
    | Some (w', Ok (g, gps)) => Some (w', Ok (g, cat_grad_prompts gps))
    end.

(** ** _RemoteSequentialAutogradFunction *)

(** [tensor.split(batch_size)]: an empty tensor gives one empty chunk. *)
Fixpoint split_rows {A} (fuel : nat) (batch_size : nat) (x : list A) : list (list A) :=
  match fuel with
  | O => [x]
  | S fuel' =>
      if (length x <=? batch_size)%nat then [x]
      else take batch_size x :: split_rows fuel' batch_size (drop batch_size x)
  end.

Definition tensor_split {A} (batch_size : Z) (x : list A) : list (list A) := split_rows (length x) (Z.to_nat batch_size) x.

(** [prompts.split(batch_size, dim=1)]: the rows of every layer. *)
Definition split_dim1 (batch_size : Z) (prompts : prompts_t) : list prompts_t :=
  match prompts with
  | [] => []
  | layer :: _ =>
      (fun j => (fun rows => default [] (tensor_split batch_size rows !! j)) <$> prompts)
        <$> seq 0 (length (tensor_split batch_size layer))
  end.

(** [is_dummy(prompts)]: no elements. *)
Definition no_prompts (prompts : prompts_t) : bool := (length (concat prompts) =? 0)%nat.

(** [max(MAX_TOKENS_IN_BATCH // inputs.shape[1], 1)] *)
Definition rows_per_batch (seq_length : Z) : result Z :=
  if seq_length =? 0 then Err ZeroDivisionError else Ok (Z.max (MAX_TOKENS_IN_BATCH / seq_length) 1).

(** [asyncio.gather]: the passes run concurrently, each with its own view [(w, fuel)] of the
    router and the network; the first exception is raised. *)
Fixpoint gather {A B} (f : task -> A -> option (task * result B)) (views : list task) (l : list A) {struct l}
    : option (result (list B)) :=
  match l, views with
  | [], _ => Some (Ok [])
  | x :: l', w :: views' =>
      match f w x, gather f views' l' with
      | Some (_, Ok y), Some (Ok ys) => Some (Ok (y :: ys))
      | Some (_, Err e), _ => Some (Err e)
      | _, Some (Err e) => Some (Err e)
      | _, _ => None
      end
  | _ :: _, [] => None
  end.

(** What [forward] keeps for [backward]. *)
Record autograd_ctx := mkCtx {
  cx_prompt_batches : list prompts_t;
  cx_intermediate_inputs : list (list tensor);
  cx_sequences : list (list RemoteSpanInfo);
}.

Definition autograd_forward (fuel : nat) (views : list task) (seq_length : Z) (inputs : tensor) (prompts : prompts_t)
    : option (result (tensor * autograd_ctx)) :=
  match rows_per_batch seq_length with
  | Err e => Some (Err e)
  | Ok batch_size =>
      let input_batches := tensor_split batch_size inputs in
      let prompt_batches := if no_prompts prompts then replicate (length input_batches) []
                            else split_dim1 batch_size prompts in
      match gather (fun w x => sequential_forward fuel w x.1 x.2 0 None) views (zip input_batches prompt_batches) with
      | None => None
      | Some (Err e) => Some (Err e)
      | Some (Ok outputs) =>
          if negb (zlen outputs =? zlen input_batches) then Some (Err AssertionError)
          else Some (Ok (concat ((fun o => o.1.1) <$> outputs),
                         mkCtx prompt_batches ((fun o => o.1.2) <$> outputs) ((fun o => o.2) <$> outputs)))
      end
  end.

(** [torch.cat(grad_prompt_batches, dim=1)] *)
Definition cat_dim1 (l : list prompts_t) : prompts_t :=
  match l with [] => [] | p :: l' => fold_left (zip_with app) l' p end.

Definition autograd_backward (fuel ffuel : nat) (views : list task) (seq_length : Z) (grad_outputs : tensor)
    (ctx : autograd_ctx) : option (result (tensor * option prompts_t)) :=
  match rows_per_batch seq_length with
  | Err e => Some (Err e)
  | Ok batch_size =>
      let grads := tensor_split batch_size grad_outputs in
      if negb ((zlen (cx_intermediate_inputs ctx) =? zlen grads) && (zlen grads =? zlen (cx_sequences ctx)))
      then Some (Err AssertionError)
      else
        match gather (fun w x => sequential_backward fuel ffuel w x.1.1.1 x.1.1.2 x.1.2 x.2) views
                (zip (zip (zip grads (cx_intermediate_inputs ctx)) (cx_prompt_batches ctx)) (cx_sequences ctx)) with
        | None => None
        | Some (Err e) => Some (Err e)
        | Some (Ok outputs) =>
            Some (Ok (concat (fst <$> outputs), cat_dim1 <$> mapM snd outputs))
        end
  end.
End sequential_autograd.

(** ** The forward pass computes the blocks *)

Section forward_proofs.
Context {PI : PeerIds} {RT : Router} {SS : SpanServer}.
Context (net : nat -> option exn).
Context (payload_size : list (list row) -> list (list prm) -> Z) (MAX_UNARY_PAYLOAD_SIZE : Z) (args_schema : Z).
Abbreviation tensor := (list row).
Abbreviation prompts_t := (list (list prm)).
Abbreviation forward_loop := (forward_loop net payload_size MAX_UNARY_PAYLOAD_SIZE args_schema).
Abbreviation forward_attempt := (forward_attempt net payload_size MAX_UNARY_PAYLOAD_SIZE args_schema).
Abbreviation sequential_forward := (sequential_forward net payload_size MAX_UNARY_PAYLOAD_SIZE args_schema).

(** One prompt per block, or no prompts. *)
Definition prompts_ok (n : Z) (P : prompts_t) : Prop := P = [] \/ zlen P = n.

Lemma zslice_nil {A} a b : zslice (@nil A) a b = [].
Proof. unfold zslice. by rewrite drop_nil, take_nil. Qed.

Lemma slices n P a b c :
  prompts_ok n P -> 0 <= a -> a <= b -> b <= c -> c <= n ->
  zslice P a b ++ zslice P b c = zslice P a c /\
  (zslice P a b = [] /\ zslice P b c = [] \/ zlen (zslice P a b) = b - a /\ zlen (zslice P b c) = c - b).
Proof.
  intros [->|HP] Ha Hb Hc Hn; [rewrite !zslice_nil; by split; [|left]|]. unfold zlen in *.
  rewrite zslice_app_adjacent by lia. split; [done|right]. rewrite !zslice_length by lia. lia.
Qed.

(** Activations entering block [b] when the pass starts with [x] at block [a]. *)
Definition act (P : prompts_t) (x : tensor) (a b : Z) : tensor := fwd_span a b x (zslice P a b).

Lemma act_step n P x a b c :
  prompts_ok n P -> 0 <= a -> a <= b -> b <= c -> c <= n ->
  fwd_span b c (act P x a b) (zslice P b c) = act P x a c.
Proof.
  intros HP Ha Hb Hc Hn. unfold act. destruct (slices n P a b c) as [<- Hl]; [done..|]. by apply fwd_compose.
Qed.

Record passed (P : prompts_t) (x : tensor) (start b : Z) (ins : list tensor) (spans : list RemoteSpanInfo) : Prop := {
  pa_chain : chain start spans b;
  pa_inputs : ins = (fun s => act P x start (sp_start s)) <$> spans;
}.

Lemma over_clip l' s b : sp_start s < b <= sp_end s ->
  exists s', clip_last (l' ++ [s]) b = Ok (l' ++ [s']) /\ sp_start s' = sp_start s /\ sp_end s' = b.
Proof.
  intros H. exists (sp_with_end s b). split; [|done]. induction l' as [|y l' IH].
  - simpl. rewrite Z.min_r by lia. done.
  - change ((y :: l') ++ [s]) with (y :: (l' ++ [s])).
    destruct (l' ++ [s]) as [|z l] eqn:E; [by destruct l'|].
    change (clip_last (y :: z :: l) b) with (l0 ← clip_last (z :: l) b; Ok (y :: l0)). by rewrite IH.
Qed.

Lemma route_chain r a b c r' l l' :
  0 <= a -> a < b -> b <= zlen (rt_block_uids r) ->
  rt_make_sequence r a b "max_throughput" c = (r', Ok l) -> clip_last l b = Ok l' -> chain a l' b.
Proof.
  intros Ha Hab Hb Hm Hc. destruct (rt_chain_over r a b c r' l Ha Hab Hb Hm) as (k & s & -> & Hk & Hs).
  destruct (over_clip k s b Hs) as (s' & Hc' & Hs1 & Hs2). rewrite Hc in Hc'. injection Hc' as ->.
  apply chain_app. exists (sp_start s). split; [done|]. simpl. rewrite Hs1, Hs2. repeat split; lia.
Qed.

Lemma call_manager w w' r : call net w = (w', r) -> tk_manager w' = tk_manager w.
Proof. unfold call. by intros [= <- <-]. Qed.

Lemma run_forward_spec w sp x P w' r :
  run_remote_forward net payload_size MAX_UNARY_PAYLOAD_SIZE args_schema w sp x P = (w', r) ->
  tk_manager w' = tk_manager w /\ forall out, r = Ok out -> out = fwd_span (sp_start sp) (sp_end sp) x P.
Proof.
  unfold run_remote_forward. case_if; [by intros [= <- <-]|]. destruct (call net w) as [w1 [[]|e]] eqn:Ecall;
    intros [= <- <-]; (split; [by eapply call_manager|]); [by intros out [= <-]|done].
Qed.

Lemma forward_attempt_spec w seqs b e att x0 start P w' rest used r n :
  n = zlen (rt_block_uids (tk_manager w)) -> prompts_ok n P ->
  0 <= start -> start <= b -> b < e -> e <= n ->
  (1 <= att \/ seqs = [] \/ chain b seqs e) ->
  forward_attempt w seqs b e att (act P x0 start b) P = (w', rest, used, r) ->
  rt_block_uids (tk_manager w') = rt_block_uids (tk_manager w) /\
  match r with
  | Ok out => exists span, used = Some span /\ sp_start span = b /\ b < sp_end span <= e /\
      out = act P x0 start (sp_end span) /\ chain (sp_end span) rest e
  | Err _ => True
  end.
Proof.
  intros Hn HP Hs Hsb Hbe Hen Hseq. unfold forward_attempt.
  assert (Hmain : forall w1 l, rt_block_uids (tk_manager w1) = rt_block_uids (tk_manager w) -> chain b l e ->
    match l with
    | [] => (w1, [], None, Err IndexError)
    | span :: rest =>
        let '(w2, out) := run_remote_forward net payload_size MAX_UNARY_PAYLOAD_SIZE args_schema w1 span
                            (act P x0 start b) (slice_prompts P span) in
        match out with
        | Err e => (w2, rest, Some span, Err e)
        | Ok outputs =>
            if zlen outputs =? zlen (act P x0 start b) then (w2, rest, Some span, Ok outputs)
            else (w2, rest, Some span, Err AssertionError)
        end
    end = (w', rest, used, r) ->
    rt_block_uids (tk_manager w') = rt_block_uids (tk_manager w) /\
    match r with
    | Ok out => exists span, used = Some span /\ sp_start span = b /\ b < sp_end span <= e /\
        out = act P x0 start (sp_end span) /\ chain (sp_end span) rest e
    | Err _ => True
    end).
  { intros w1 l Hw1 Hc. destruct l as [|span l]; [by intros [= <- <- <- <-]|].
    destruct (run_remote_forward _ _ _ _ _ _ _ _) as [w2 out] eqn:E. apply run_forward_spec in E as [Hm Ho].
    destruct Hc as (Hst & Hlt & Hc). pose proof (chain_le _ _ _ Hc).
    destruct out as [o|e']; [|intros [= <- <- <- <-]; by rewrite Hm].
    case_if; intros [= <- <- <- <-]; (split; [by rewrite Hm|]); [|done].
    exists span. repeat split; try done. rewrite (Ho o eq_refl). unfold slice_prompts. rewrite Hst.
    apply (act_step n); [done|lia..]. }
  destruct ((zlen seqs =? 0) || (1 <=? att)) eqn:Eneed.
  - destruct (rt_make_sequence (tk_manager w) b e "max_throughput" None) as [m rr] eqn:Em.
    pose proof (rt_make_fixed (tk_manager w) b e "max_throughput" None) as [Hu _]. rewrite Em in Hu. simpl in Hu.
    destruct rr as [l|e1]; cbn [mbind result_bind]; [|by intros [= <- <- <- <-]].
    destruct (clip_last l e) as [l'|e1] eqn:Ec; [|by intros [= <- <- <- <-]].
    apply Hmain; [done|]. eapply route_chain; [| | |exact Em|exact Ec]; lia.
  - apply orb_false_iff in Eneed as [E1 E2]. zbool. destruct Hseq as [?|[->|Hc]]; [lia|done|]. by apply Hmain.
Qed.

Lemma handle_failure_uids w p att e w' o :
  handle_failure w p att e = (w', o) -> rt_block_uids (tk_manager w') = rt_block_uids (tk_manager w).
Proof.
  unfold handle_failure. case_if; [by intros [= <- <-]|]. cbn zeta.
  case_if; intros [= <- <-]; apply rt_failure_fixed.
Qed.

Lemma forward_loop_ok fuel w seqs b e att P x start ins spans w' out ins' spans' n :
  n = zlen (rt_block_uids (tk_manager w)) -> prompts_ok n P -> 0 <= start -> start <= b -> b <= e -> e <= n ->
  (1 <= att \/ seqs = [] \/ chain b seqs e) -> 0 <= att -> passed P x start b ins spans ->
  forward_loop fuel w seqs b e att (act P x start b) P ins spans = Some (w', Ok (out, ins', spans')) ->
  out = act P x start e /\ passed P x start e ins' spans' /\
  rt_block_uids (tk_manager w') = rt_block_uids (tk_manager w).
Proof.
  revert w seqs b att ins spans. induction fuel as [|fuel IH];
    intros w seqs b att ins spans Hn HP Hs Hsb Hbe Hen Hseq Hatt Hpa; cbn [forward_loop]; case_if; zbool; try done.
  1,2: intros [= <- <- <- <-]; by assert (b = e) as -> by lia.
  destruct (forward_attempt w seqs b e att (act P x start b) P) as [[[w1 rest] used] r] eqn:Ea.
  apply (forward_attempt_spec _ _ _ _ _ _ _ _ _ _ _ _ n) in Ea as [Hu Hr]; [|done|done|lia|lia|lia|lia|done].
  destruct r as [o|e1].
  - destruct Hr as (span & -> & Hst & Hlt & -> & Hc). intros Hrun.
    assert (Hu2 : rt_block_uids (tk_manager (on_success w1 (sp_peer_id span))) = rt_block_uids (tk_manager w)).
    { rewrite <- Hu. apply rt_success_fixed. }
    apply IH in Hrun as (-> & Hp' & Hu'); [|by rewrite Hu2|done|lia|lia|lia|lia|by right; right|lia|].
    + split; [done|]. split; [done|]. by rewrite Hu', Hu2.
    + destruct Hpa as [Hch ->]. split.
      * apply chain_app. exists b. split; [done|]. simpl. repeat split; lia.
      * rewrite fmap_app. simpl. by rewrite Hst.
  - destruct (handle_failure w1 (sp_peer_id <$> used) att e1) as [w2 o] eqn:Eh. apply handle_failure_uids in Eh.
    destruct o as [|]; [done|]. intros Hrun.
    apply IH in Hrun as (-> & Hp' & Hu'); [|by rewrite Eh, Hu|done|lia|lia|lia|lia|left; lia|lia|done].
    split; [done|]. split; [done|]. by rewrite Hu', Eh.
Qed.

(** What a forward pass that returns did. *)
Lemma forward_sound fuel w x P start e w' out ins spans :
  sequential_forward fuel w x P start e = Some (w', Ok (out, ins, spans)) ->
  let n := zlen (rt_block_uids (tk_manager w)) in
  let stop := or_default e n in
  start <= stop ->
  out = fwd_span start stop x (zslice P start stop) /\ chain start spans stop /\
  ins = (fun s => fwd_span start (sp_start s) x (zslice P start (sp_start s))) <$> spans.
Proof.
  unfold sequential_forward. cbn zeta. intros H Hle.
  set (n := zlen (rt_block_uids (tk_manager w))) in *. set (stop := or_default e n) in *.
  destruct (_ ← _; _) as [u|] eqn:Ea in H; [|done]. unfold assert_ in Ea.
  destruct ((0 <=? start) && (stop <=? n)) eqn:Hrange; [|done]. simpl in Ea.
  destruct ((zlen P =? 0) || (zlen P =? n)) eqn:Hprompts; [|done]. apply andb_true_iff in Hrange as [Ha1 Ha2]. zbool.
  assert (HP : prompts_ok n P).
  { apply orb_true_iff in Hprompts as [Hz|Hz]; [left; by apply zlen_zero|right; by apply Z.eqb_eq]. }
  assert (Hx : x = act P x start start) by (unfold act; by rewrite fwd_nil).
  rewrite Hx in H at 1.
  apply (forward_loop_ok _ _ _ _ _ _ _ _ _ _ _ _ _ _ _ n) in H as (-> & [Hc ->] & _);
    [done|done|done|lia|lia|lia|lia|by right; left|lia|by split].
Qed.

(** C19: whatever fails on the way, a forward pass that returns gives the outputs of all its blocks;
    the spans it reports form a chain over these blocks and the saved inputs are what entered them. *)
Theorem sequential_forward_correct fuel w x P start e w' out ins spans :
  sequential_forward fuel w x P start e = Some (w', Ok (out, ins, spans)) ->
  let n := zlen (rt_block_uids (tk_manager w)) in
  let stop := or_default e n in
  start <= stop ->
  out = fwd_span start stop x (zslice P start stop) /\ chain start spans stop /\
  ins = (fun s => fwd_span start (sp_start s) x (zslice P start (sp_start s))) <$> spans.
Proof. apply forward_sound. Qed.

(** ** The backward pass computes the gradients *)

Abbreviation backward_attempt := (backward_attempt net payload_size MAX_UNARY_PAYLOAD_SIZE args_schema).
Abbreviation backward_loop := (backward_loop net payload_size MAX_UNARY_PAYLOAD_SIZE args_schema).
Abbreviation sequential_backward := (sequential_backward net payload_size MAX_UNARY_PAYLOAD_SIZE args_schema).

(** The gradients of blocks [b, stop): with respect to their inputs and prompts. *)
Definition grads (P : prompts_t) (x g : tensor) (start stop b : Z) : tensor * prompts_t :=
  bwd_span b stop (act P x start b) g (zslice P b stop).

Lemma grads_step n P x g start stop a b :
  prompts_ok n P -> 0 <= start -> start <= a -> a <= b -> b <= stop -> stop <= n ->
  grads P x g start stop a =
    (let '(g1, gq) := grads P x g start stop b in
     let '(g0, gp) := bwd_span a b (act P x start a) g1 (zslice P a b) in (g0, gp ++ gq)).
Proof.
  intros HP H0 H1 H2 H3 H4. unfold grads. destruct (slices n P a b stop) as [<- Hl]; [done|lia..|].
  rewrite (bwd_compose a b stop) by done. by rewrite (act_step n P x start a b) by (done || lia).
Qed.

Section backward.
Context (n : Z) (P : prompts_t) (x g : tensor) (start stop : Z).
Context (HP : prompts_ok n P) (Hstart : 0 <= start) (Hstop : stop <= n).

(** The stacks cover the blocks from [start] to [c]; what lies beyond is done. *)
Record stacked (st : backward_state) (c : Z) : Prop := {
  sk_uids : zlen (rt_block_uids (tk_manager (bk_task st))) = n;
  sk_chain : chain start (rev (bk_sequences st)) c;
  sk_inputs : bk_inputs st = (fun s => act P x start (sp_start s)) <$> bk_sequences st;
}.

Definition is_current (inputs : tensor) (sp : RemoteSpanInfo) (st : backward_state) (c : Z) : Prop :=
  stacked st (sp_start sp) /\ start <= sp_start sp /\ sp_start sp < sp_end sp /\ sp_end sp = c /\ c <= stop /\
  inputs = act P x start (sp_start sp).

(** The gradients of the prompts that have been collected, latest first. *)
Definition collected (gps : list prompts_t) (c : Z) : Prop :=
  if decide (P = []) then gps = []
  else (c = stop \/ gps <> []) /\ concat (rev gps) = snd (grads P x g start stop c).

Lemma stacked_pop st c inputs ins sp spans :
  stacked st c -> c <= stop -> bk_inputs st = inputs :: ins -> bk_sequences st = sp :: spans ->
  is_current inputs sp (mkBackward (bk_task st) ins spans) c.
Proof.
  intros [Hu Hc Hi] Hcs Ei Es. rewrite Es in Hc, Hi. rewrite Ei in Hi. simpl in Hc, Hi. injection Hi as Hin Hins.
  apply chain_app in Hc as (b & Hc1 & Hc2). simpl in Hc2. destruct Hc2 as (Hb & Hlt & He). subst.
  split; [by split|]. pose proof (chain_le _ _ _ Hc1). repeat split; lia || done.
Qed.

Lemma run_backward_spec w sp ins gr Q w' r :
  run_remote_backward net payload_size MAX_UNARY_PAYLOAD_SIZE args_schema w sp ins gr Q = (w', r) ->
  tk_manager w' = tk_manager w /\
  forall g' gps, r = Ok (g', gps) -> exists gp, bwd_span (sp_start sp) (sp_end sp) ins gr Q = (g', gp) /\
    gps = match Q with [] => [] | _ => [gp] end.
Proof.
  unfold run_remote_backward. case_if; [by intros [= <- <-]|].
  destruct (call net w) as [w1 [[]|e]] eqn:Ecall.
  - simpl. destruct (bwd_span _ _ _ _ _) as [g1 gp]. intros [= <- <-]. split; [by eapply call_manager|].
    intros g' gps [= <- <-]. eauto.
  - intros [= <- <-]. split; [by eapply call_manager|done].
Qed.

Lemma push_backup_ok st w ins spans sp st' inputs' sp' inputs c :
  is_current inputs sp st c -> zlen (rt_block_uids (tk_manager w)) = n ->
  chain (sp_start sp) spans (sp_end sp) ->
  ins = (fun s => fwd_span (sp_start sp) (sp_start s) inputs (zslice P (sp_start sp) (sp_start s))) <$> spans ->
  push_backup st w ins spans sp = Ok (st', inputs', sp') -> is_current inputs' sp' st' c.
Proof.
  intros (Hst & H0 & Hlt & Hend & Hc & Hin) Hw Hch Hins Hp. unfold push_backup in Hp. inv_ok.
  destruct (rev ins ++ bk_inputs st) as [|i0 is0] eqn:Ei; [done|].
  destruct (rev spans ++ bk_sequences st) as [|s0 ss0] eqn:Es; [done|]. injection Hp as <- <- <-.
  destruct Hst as [Hu Hcs Hi].
  apply (stacked_pop (mkBackward w (i0 :: is0) (s0 :: ss0)) c); [|done|done|done].
  rewrite <- Ei, <- Es. split; simpl; [done| |].
  - rewrite rev_app_distr, rev_involutive. apply chain_app. exists (sp_start sp). rewrite <- Hend. done.
  - rewrite fmap_app, <- Hi. f_equal. rewrite Hins, fmap_rev. f_equal. apply list_fmap_ext. intros k s Hk.
    rewrite Hin. apply (act_step n); [done|lia|lia| |].
    + apply list_elem_of_lookup_2, list_elem_of_split in Hk as (l1 & l2 & ->).
      apply chain_app in Hch as (m & Hch1 & Hch2). destruct Hch2 as (? & _). apply chain_le in Hch1. lia.
    + apply list_elem_of_lookup_2, list_elem_of_split in Hk as (l1 & l2 & ->).
      apply chain_app in Hch as (m & _ & Hch2). destruct Hch2 as (? & ? & Hch2).
      apply chain_le in Hch2. lia.
Qed.

Lemma attempt_uids w seqs b e att y Q w' rest used r :
  forward_attempt w seqs b e att y Q = (w', rest, used, r) ->
  rt_block_uids (tk_manager w') = rt_block_uids (tk_manager w).
Proof.
  unfold forward_attempt. set (p := if (zlen seqs =? 0) || (1 <=? att) then _ else _).
  assert (Hp : rt_block_uids (tk_manager (fst p)) = rt_block_uids (tk_manager w)).
  { unfold p. case_if; [|done]. pose proof (rt_make_fixed (tk_manager w) b e "max_throughput" None) as [Hm _].
    destruct (rt_make_sequence _ _ _ _ _). done. }
  destruct p as [w1 [[|span l]|e1]]; simpl in Hp; try (by intros [= <- <- <- <-]).
  destruct (run_remote_forward _ _ _ _ _ _ _ _) as [w2 out] eqn:Er. apply run_forward_spec in Er as [Hm _].
  destruct out as [o|]; [case_if|]; intros [= <- <- <- <-]; by rewrite Hm.
Qed.

Lemma forward_loop_uids fuel w seqs b e att y Q ins spans w' r :
  forward_loop fuel w seqs b e att y Q ins spans = Some (w', r) ->
  rt_block_uids (tk_manager w') = rt_block_uids (tk_manager w).
Proof.
  revert w seqs b att y ins spans. induction fuel as [|fuel IH];
    intros w seqs b att y ins spans; cbn [forward_loop]; case_if; try (by intros [= <- <-]).
  destruct (forward_attempt w seqs b e att y Q) as [[[w1 rest] used] r1] eqn:Ea. apply attempt_uids in Ea.
  destruct r1 as [o|e1].
  - destruct used as [span|]; [|by intros [= <- <-]]. intros Hr%IH. rewrite Hr, <- Ea. apply rt_success_fixed.
  - destruct (handle_failure w1 (sp_peer_id <$> used) att e1) as [w2 [e2|]] eqn:Eh; apply handle_failure_uids in Eh.
    + intros [= <- <-]. congruence.
    + intros Hr%IH. congruence.
Qed.

Lemma forward_uids fuel w y Q a e w' r :
  sequential_forward fuel w y Q a e = Some (w', r) -> rt_block_uids (tk_manager w') = rt_block_uids (tk_manager w).
Proof.
  unfold sequential_forward. destruct (_ ← _; _) as [u|]; [|by intros [= <- <-]]. apply forward_loop_uids.
Qed.

Lemma current_retask inputs sp st c w :
  is_current inputs sp st c -> zlen (rt_block_uids (tk_manager w)) = n ->
  is_current inputs sp (mkBackward w (bk_inputs st) (bk_sequences st)) c.
Proof. intros ([_ ? ?] & ?) Hw. by repeat (split; [by split|]). Qed.

Lemma current_uids inputs sp st c : is_current inputs sp st c -> zlen (rt_block_uids (tk_manager (bk_task st))) = n.
Proof. by intros ([? _ _] & _). Qed.

(** One attempt keeps the current span within what is left, or computes its gradients. *)
Lemma backward_attempt_ok ffuel st inputs sp att c gr st' inputs' sp' r :
  is_current inputs sp st c ->
  backward_attempt ffuel st inputs sp att gr P = Some (st', inputs', sp', r) ->
  is_current inputs' sp' st' c /\
  forall g' gps, r = Ok (g', gps) -> exists gp,
    bwd_span (sp_start sp') c (act P x start (sp_start sp')) gr (zslice P (sp_start sp') c) = (g', gp) /\
    gps = match zslice P (sp_start sp') c with [] => [] | _ => [gp] end.
Proof.
  intros Hcur. unfold backward_attempt. set (ready := if 1 <=? att then _ else _).
  assert (Hready : forall st1 i1 s1 r1, ready = Some (st1, i1, s1, r1) -> is_current i1 s1 st1 c).
  { unfold ready. intros st1 i1 s1 r1. case_if; [|by intros [= <- <- <- <-]].
    destruct (sequential_forward ffuel (bk_task st) inputs P (sp_start sp) (Some (sp_end sp))) as [[w rf]|] eqn:Ef;
      [|done].
    assert (Hw : zlen (rt_block_uids (tk_manager w)) = n).
    { rewrite (forward_uids _ _ _ _ _ _ _ _ Ef). by eapply current_uids. }
    destruct rf as [[[o bi] bs]|e]; [|intros [= <- <- <- <-]; by apply current_retask].
    destruct (push_backup st w bi bs sp) as [[[st2 i2] s2]|e] eqn:Ep;
      [|intros [= <- <- <- <-]; by apply current_retask].
    intros [= <- <- <- <-]. pose proof Hcur as (_ & _ & Hlt & _ & _).
    apply forward_sound in Ef as (_ & Hch & Hbi); [|simpl; lia].
    by eapply (push_backup_ok st w bi bs sp). }
  destruct ready as [[[[st1 i1] s1] [u|e]]|] eqn:Er; [|intros [= <- <- <- <-]; split; [by eapply Hready|done]|done].
  specialize (Hready _ _ _ _ eq_refl).
  destruct (run_remote_backward _ _ _ _ _ _ _ _ _) as [w rb] eqn:Eb. intros [= <- <- <- <-].
  apply run_backward_spec in Eb as [Hm Hb]. split.
  - apply current_retask; [done|]. rewrite Hm. by eapply current_uids.
  - intros g' gps Hr. destruct (Hb g' gps Hr) as (gp & Hg & Hgps).
    destruct Hready as (_ & _ & _ & Hend & _ & Hin). unfold slice_prompts in *. rewrite Hend, Hin in *. eauto.
Qed.

Lemma collected_step sp_s c gps gp :
  collected gps c -> 0 <= sp_s -> start <= sp_s -> sp_s < c -> c <= stop ->
  forall g', bwd_span sp_s c (act P x start sp_s) (fst (grads P x g start stop c)) (zslice P sp_s c) = (g', gp) ->
  g' = fst (grads P x g start stop sp_s) /\
  collected (gps ++ match zslice P sp_s c with [] => [] | _ => [gp] end) sp_s.
Proof.
  intros Hcol H0 H1 H2 H3 g' Hb. rewrite (grads_step n P x g start stop sp_s c HP) by lia.
  unfold collected in *. destruct (grads P x g start stop c) as [g1 gq] eqn:Eg. simpl in Hb, Hcol. rewrite Hb. simpl.
  split; [done|]. case_decide as HPn.
  - rewrite Hcol, HPn, zslice_nil. done.
  - destruct HP as [?|Hlen]; [done|].
    rewrite (grads_step n P x g start stop sp_s c HP), Eg, Hb by lia. simpl.
    assert (Hl : zlen (zslice P sp_s c) = c - sp_s).
    { unfold zlen in *. rewrite zslice_length; lia. }
    destruct (zslice P sp_s c) as [|p l] eqn:El; [unfold zlen in Hl; simpl in Hl; lia|].
    rewrite rev_app_distr. simpl. destruct Hcol as [_ ->]. split; [right; by destruct gps|done].
Qed.

Lemma backward_loop_ok fuel ffuel st cur att c gps w' out gps' :
  0 <= att -> start <= c -> c <= stop -> collected gps c ->
  match cur with None => stacked st c | Some (inputs, sp) => is_current inputs sp st c end ->
  backward_loop fuel ffuel st cur att (fst (grads P x g start stop c)) P gps = Some (w', Ok (out, gps')) ->
  out = fst (grads P x g start stop start) /\ collected gps' start.
Proof.
  revert st cur att c gps. induction fuel as [|fuel IH]; intros st cur att c gps Ha H0 Hcs Hcol Hinv Hrun;
    destruct cur as [[inputs sp]|]; cbn [backward_loop] in Hrun; try done.
  - destruct Hinv as [_ Hc Hi].
    destruct (bk_inputs st) as [|i js] eqn:Ei, (bk_sequences st) as [|s ss] eqn:Es; try done.
    simpl in Hc. subst c. by injection Hrun as <- <- <-.
  - destruct (backward_attempt ffuel st inputs sp att _ P) as [[[[st1 i1] s1] r]|] eqn:Ea; [|done].
    apply (backward_attempt_ok _ _ _ _ _ c) in Ea as [Hcur Hr]; [|done].
    pose proof Hcur as (Hst & Hge & Hlt & Hend & _).
    destruct r as [[g' gp]|e].
    + destruct (Hr g' gp eq_refl) as (gp1 & Hb & ->).
      apply collected_step with (gps := gps) in Hb as [-> Hcol']; [|done|lia|lia|lia|lia].
      apply IH in Hrun; [done|lia|lia|lia|done|].
      destruct Hst as [Hu Hc Hi]. split; simpl; [|done|done].
      by rewrite (proj1 (rt_success_fixed _ _)).
    + destruct (handle_failure (bk_task st1) (Some (sp_peer_id s1)) att e) as [w2 [e2|]] eqn:Eh; [done|].
      apply handle_failure_uids in Eh. apply IH in Hrun; [done|lia|lia|lia|done|].
      apply current_retask; [done|]. rewrite Eh. by eapply current_uids.
  - destruct Hinv as [Hu Hc Hi].
    destruct (bk_inputs st) as [|i js] eqn:Ei, (bk_sequences st) as [|s ss] eqn:Es; try done.
    + simpl in Hc. subst c. by injection Hrun as <- <- <-.
    + apply IH in Hrun; [done|lia|lia|lia|done|].
      apply (stacked_pop st c); [by split; rewrite ?Es, ?Ei|done|done|done].
Qed.
End backward.

(** The gradients of a backward pass that returns. *)
Lemma backward_sound fuel ffuel w x g P start stop ins spans w' out gp :
  passed P x start stop ins spans -> prompts_ok (zlen (rt_block_uids (tk_manager w))) P ->
  0 <= start -> start < stop -> stop <= zlen (rt_block_uids (tk_manager w)) ->
  sequential_backward fuel ffuel w g ins P spans = Some (w', Ok (out, gp)) ->
  let '(gx, gps) := bwd_span start stop x g (zslice P start stop) in
  out = gx /\ gp = if decide (P = []) then None else Some gps.
Proof.
  intros [Hc ->] HP H0 Hlt Hn Hrun. unfold SequentialAutograd.sequential_backward in Hrun.
  destruct (negb _) in Hrun; [done|].
  set (n := zlen (rt_block_uids (tk_manager w))) in *.
  assert (Hg : g = fst (grads P x g start stop stop)) by (unfold grads; by rewrite bwd_nil).
  rewrite Hg in Hrun at 1.
  destruct (backward_loop _ _ _ _ _ _ _ _) as [[w1 [[o gps]|]]|] eqn:El; [|done|done].
  injection Hrun as <- <- <-.
  apply (backward_loop_ok n P x g start stop HP H0 Hn) in El as [Ho Hcol]; [|lia|lia|lia| |].
  - unfold grads, act in Ho, Hcol. unfold collected in Hcol. unfold grads, act in Hcol.
    rewrite fwd_nil in Ho, Hcol. destruct (bwd_span start stop x g _) as [gx gps']. split; [done|].
    case_decide; [by subst|]. simpl in Hcol. destruct Hcol as [Hne <-]. unfold cat_grad_prompts.
    destruct gps as [|q gps]; [|done]. destruct Hne as [?|?]; [lia|done].
  - unfold collected. case_decide; [done|]. split; [by left|]. unfold grads. by rewrite bwd_nil.
  - split; simpl; [done|by rewrite rev_involutive|by rewrite fmap_rev].
Qed.

(** C14: whatever fails on the way, a backward pass that returns gives the gradients of all the
    blocks of the forward pass, with respect to its inputs and, if there are any, its prompts in
    the order of the layers. *)
Theorem sequential_backward_correct fuel ffuel w x g P start stop ins spans w' out gp :
  passed P x start stop ins spans -> prompts_ok (zlen (rt_block_uids (tk_manager w))) P ->
  0 <= start -> start < stop -> stop <= zlen (rt_block_uids (tk_manager w)) ->
  sequential_backward fuel ffuel w g ins P spans = Some (w', Ok (out, gp)) ->
  let '(gx, gps) := bwd_span start stop x g (zslice P start stop) in
  out = gx /\ gp = if decide (P = []) then None else Some gps.
Proof. apply backward_sound. Qed.

(** ** Without failures the forward pass returns *)

Lemma forward_attempt_returns w seqs b e x start P n :
  (forall k, net k = None) -> args_schema <= 1 ->
  (forall r a b c, exists r' l, rt_make_sequence r a b "max_throughput" c = (r', Ok l)) ->
  n = zlen (rt_block_uids (tk_manager w)) -> prompts_ok n P -> 0 <= start -> start <= b -> b < e -> e <= n ->
  (seqs = [] \/ chain b seqs e) ->
  exists w' rest span out, forward_attempt w seqs b e 0 (act P x start b) P = (w', rest, Some span, Ok out).
Proof.
  intros Hnet Hsch Hroute Hn HP Hs Hsb Hbe Hen Hseq. unfold SequentialAutograd.forward_attempt.
  assert (Hmain : forall w1 l, chain b l e -> exists w' rest span out,
    match l with
    | [] => (w1, [], None, Err IndexError)
    | span :: rest =>
        let '(w2, out) := run_remote_forward net payload_size MAX_UNARY_PAYLOAD_SIZE args_schema w1 span
                            (act P x start b) (slice_prompts P span) in
        match out with
        | Err e => (w2, rest, Some span, Err e)
        | Ok outputs =>
            if zlen outputs =? zlen (act P x start b) then (w2, rest, Some span, Ok outputs)
            else (w2, rest, Some span, Err AssertionError)
        end
    end = (w', rest, Some span, Ok out)).
  { intros w1 l Hc. destruct l as [|span l]; [simpl in Hc; lia|].
    unfold run_remote_forward, call. rewrite (proj2 (Z.leb_le (args_schema + 1) 2)) by lia. cbn [negb].
    rewrite Hnet. assert (Hlen : forall y, zlen (fwd_span (sp_start span) (sp_end span) y (slice_prompts P span)) = zlen y)
      by (intros; unfold zlen; by rewrite fwd_length).
    cbn [sr_inputs sr_prompts]. rewrite Hlen, Z.eqb_refl. eauto. }
  rewrite orb_false_r. destruct Hseq as [->|Hc].
  - cbn [zlen length Z.of_nat Z.eqb].
    destruct (Hroute (tk_manager w) b e None) as (m & l & Hm). rewrite Hm. cbn [mbind result_bind].
    destruct (rt_chain_over (tk_manager w) b e None m l) as (k & s & -> & Hk & Hs1); [lia|lia|lia|done|].
    destruct (over_clip k s e Hs1) as (s' & Hclip & Hst & Hse). rewrite Hclip. apply Hmain.
    apply chain_app. exists (sp_start s). split; [done|]. simpl. rewrite Hst, Hse. repeat split; lia.
  - case_if; [|by apply Hmain]. apply zlen_zero in E as ->. simpl in Hc. lia.
Qed.

Lemma forward_loop_returns fuel w seqs b x P ins spans n :
  (forall k, net k = None) -> args_schema <= 1 ->
  (forall r a b c, exists r' l, rt_make_sequence r a b "max_throughput" c = (r', Ok l)) ->
  zlen (rt_block_uids (tk_manager w)) = n -> prompts_ok n P -> 0 <= b -> b <= n -> n - b <= Z.of_nat fuel ->
  (seqs = [] \/ chain b seqs n) ->
  exists w' r, forward_loop fuel w seqs b n 0 (act P x 0 b) P ins spans = Some (w', Ok r).
Proof.
  intros Hnet Hsch Hroute. revert w seqs b ins spans.
  induction fuel as [|fuel IH]; intros w seqs b ins spans Hw HP Hb0 Hbn Hf Hseq;
    cbn [SequentialAutograd.forward_loop]; case_if; zbool; try (by eauto); [lia|].
  destruct (forward_attempt_returns w seqs b n x 0 P n) as (w1 & rest & span & out & Ha); [done..|lia|lia|lia|lia|done|].
  rewrite Ha. apply (forward_attempt_spec _ _ _ _ _ _ _ _ _ _ _ _ n) in Ha as [Hu Hr];
    [|done|done|lia|lia|lia|lia|by right].
  destruct Hr as (span' & [= <-] & Hst & Hlt & -> & Hc).
  apply IH; [|done|lia|lia|lia|by right].
  unfold on_success. cbn [tk_manager]. by rewrite (proj1 (rt_success_fixed _ _)), Hu.
Qed.

(** If the servers answer and routes are found, the forward pass returns. *)
Theorem sequential_forward_returns fuel w x P :
  (forall k, net k = None) -> args_schema <= 1 ->
  (forall r a b c, exists r' l, rt_make_sequence r a b "max_throughput" c = (r', Ok l)) ->
  prompts_ok (zlen (rt_block_uids (tk_manager w))) P ->
  zlen (rt_block_uids (tk_manager w)) <= Z.of_nat fuel ->
  exists w' r, sequential_forward fuel w x P 0 None = Some (w', Ok r).
Proof.
  intros Hnet Hsch Hroute HP Hfuel. unfold SequentialAutograd.sequential_forward.
  set (n := zlen (rt_block_uids (tk_manager w))) in *. cbn [or_default].
  rewrite !Z.leb_refl. cbn [assert_ andb mbind result_bind].
  assert ((zlen P =? 0) || (zlen P =? n) = true) as ->.
  { destruct HP as [-> | ->]; [done|]. rewrite Z.eqb_refl. apply orb_true_r. }
  cbn [assert_]. pose proof (zlen_nonneg (rt_block_uids (tk_manager w))) as Hn0. fold n in Hn0.
  assert (Hx : x = act P x 0 0) by (unfold act; by rewrite fwd_nil). rewrite Hx.
  apply forward_loop_returns; try done; [lia|by left].
Qed.

(** ** Batches *)

Lemma split_rows_concat {A} fuel k (y : list A) : (0 < k)%nat -> concat (split_rows fuel k y) = y.
Proof.
  intros Hk. revert y. induction fuel as [|fuel IH]; intros y; simpl; [by rewrite app_nil_r|].
  case_if; simpl; [by rewrite app_nil_r|]. by rewrite IH, take_drop.
Qed.

(** Two tensors with as many rows are split alike. *)
Lemma split_rows_lengths {A} fuel k (y z : list A) :
  length y = length z -> length <$> split_rows fuel k y = length <$> split_rows fuel k z.
Proof.
  revert y z. induction fuel as [|fuel IH]; intros y z H; simpl; [by rewrite H|]. rewrite H.
  case_if; simpl; [by rewrite H|]. rewrite !length_take, H. f_equal. apply IH. by rewrite !length_drop, H.
Qed.

Lemma gather_ok {A B} (f : task -> A -> option (task * result B)) views l ys :
  gather f views l = Some (Ok ys) -> Forall2 (fun x y => exists w w', w ∈ views /\ f w x = Some (w', Ok y)) l ys.
Proof.
  revert views ys. induction l as [|x l IH]; intros views ys; simpl.
  - intros H. injection H as <-. constructor.
  - destruct views as [|w views]; [done|].
    destruct (f w x) as [[w' [y|e]]|] eqn:Ef, (gather f views l) as [[zs|e']|] eqn:Eg; try done.
    intros H. injection H as <-. constructor; [exists w, w'; split; [left|done]|].
    eapply Forall2_impl; [by apply IH|]. intros ? ? (w1 & w2 & Hin & ?). exists w1, w2. split; [by right|done].
Qed.

Lemma fwd_concat a b (l : list tensor) : concat ((fun y => fwd_span a b y []) <$> l) = fwd_span a b (concat l) [].
Proof.
  induction l as [|y l IH]; simpl.
  - pose proof (fwd_length a b [] []) as Hl. by destruct (fwd_span a b [] []).
  - change (fwd_span a b y [] ++ concat ((fun y => fwd_span a b y []) <$> l) = fwd_span a b (y ++ concat l) []).
    by rewrite IH, fwd_rows.
Qed.

(** Without prompts every part gets the same empty prompts. *)
Lemma zip_replicate_Forall2 {A B C} (P : A * B -> C -> Prop) (l : list A) (b : B) (ys : list C) :
  Forall2 P (zip l (replicate (length l) b)) ys -> Forall2 (fun a c => P (a, b) c) l ys.
Proof.
  revert ys. induction l as [|a l IH]; intros ys H; cbn in H; inversion H; subst; constructor; [done|by apply IH].
Qed.

(** What the parts of a batch computed. *)
Lemma autograd_forward_parts fuel views seq_length x out ctx n :
  (forall w, w ∈ views -> zlen (rt_block_uids (tk_manager w)) = n) ->
  autograd_forward net payload_size MAX_UNARY_PAYLOAD_SIZE args_schema fuel views seq_length x []
    = Some (Ok (out, ctx)) ->
  exists k, rows_per_batch seq_length = Ok k /\ concat (tensor_split k x) = x /\ out = fwd_span 0 n x [] /\
    exists ys, Forall2 (fun part y => y.1.1 = fwd_span 0 n part [] /\ chain 0 y.2 n /\
        y.1.2 = (fun s => fwd_span 0 (sp_start s) part []) <$> y.2) (tensor_split k x) ys /\
      ctx = mkCtx (replicate (length (tensor_split k x)) []) ((fun o => o.1.2) <$> ys) ((fun o => o.2) <$> ys).
Proof.
  intros Hviews. unfold autograd_forward. destruct (rows_per_batch seq_length) as [k|e] eqn:Ek; [|done].
  assert (Hk : (0 < Z.to_nat k)%nat).
  { unfold rows_per_batch in Ek. case_if; [done|]. injection Ek as <-. lia. }
  cbn [no_prompts concat length Nat.eqb]. destruct (gather _ _ _) as [[ys|e]|] eqn:Eg; [|done|done].
  case_if; [done|]. intros [= <- <-]. apply gather_ok in Eg.
  exists k. split; [done|]. split; [by apply split_rows_concat|].
  assert (Hys : Forall2 (fun part y => y.1.1 = fwd_span 0 n part [] /\ chain 0 y.2 n /\
    y.1.2 = (fun s => fwd_span 0 (sp_start s) part []) <$> y.2) (tensor_split k x) ys).
  { apply zip_replicate_Forall2 in Eg. eapply Forall2_impl; [exact Eg|]. intros part [[o i] s] (w & w' & Hw & Hf).
    apply forward_sound in Hf; cbn [or_default fst snd] in *; rewrite (Hviews w Hw) in *.
    - destruct Hf as (-> & Hc & ->). rewrite zslice_nil. split; [done|]. split; [done|].
      apply list_fmap_ext. intros. by rewrite zslice_nil.
    - rewrite <- (Hviews w Hw). apply zlen_nonneg. }
  split; [|by exists ys]. rewrite <- (split_rows_concat (length x) (Z.to_nat k) x Hk), <- fwd_concat. f_equal.
  fold (tensor_split k x). clear -Hys. induction Hys as [|part y l ys (Hy & _) _ IH]; [done|].
  rewrite !fmap_cons. by rewrite Hy, IH.
Qed.

(** C33: splitting a batch, running the parts concurrently and concatenating gives the outputs of all
    blocks on the whole batch; the saved inputs and spans of every part are those of its chain. *)
Theorem autograd_forward_correct fuel views seq_length x out ctx n :
  (forall w, w ∈ views -> zlen (rt_block_uids (tk_manager w)) = n) ->
  autograd_forward net payload_size MAX_UNARY_PAYLOAD_SIZE args_schema fuel views seq_length x []
    = Some (Ok (out, ctx)) ->
  exists k, rows_per_batch seq_length = Ok k /\ concat (tensor_split k x) = x /\
    out = fwd_span 0 n x [] /\
    Forall2 (fun part ps => chain 0 ps.2 n /\ ps.1 = (fun s => fwd_span 0 (sp_start s) part []) <$> ps.2)
      (tensor_split k x) (zip (cx_intermediate_inputs ctx) (cx_sequences ctx)).
Proof.
  intros Hviews H. destruct (autograd_forward_parts _ _ _ _ _ _ _ Hviews H) as (k & Hk & Hc & -> & ys & Hys & ->).
  exists k. split; [done|]. split; [done|]. split; [done|].
  clear -Hys. induction Hys as [|part y l ys (_ & Hc & Hi) _ IH]; [constructor|].
  cbn [cx_intermediate_inputs cx_sequences] in *. rewrite !fmap_cons. cbn [zip zip_with]. constructor; [done|exact IH].
Qed.

(** Gradients of the parts of a batch, side by side. *)
Lemma bwd_concat a b (l m : list tensor) :
  Forall2 (fun y g => length y = length g) l m ->
  concat ((fun p => (bwd_span a b p.1 p.2 []).1) <$> zip l m) = (bwd_span a b (concat l) (concat m) []).1.
Proof.
  induction 1 as [|y g l m Hl _ IH].
  - cbn. pose proof (f_equal length (bwd_rows a b [] [] [] [] eq_refl)) as Hz. cbn [app] in Hz. rewrite length_app in Hz.
    by destruct (bwd_span a b [] [] []).1; [|simpl in Hz; lia].
  - cbn [zip zip_with concat]. rewrite fmap_cons. cbn [concat fst snd]. by rewrite IH, bwd_rows.
Qed.

(** [tensor_split] cuts tensors of the same length at the same places. *)
Lemma tensor_split_lengths {A B} k (y : list A) (z : list B) :
  length y = length z -> Forall2 (fun a b => length a = length b) (tensor_split k y) (tensor_split k z).
Proof.
  intros Hl. unfold tensor_split. rewrite <- Hl. generalize (length y) as fuel. intros fuel.
  revert y z Hl. induction fuel as [|fuel IH]; intros y z Hl; cbn [split_rows]; [by repeat constructor|].
  rewrite <- Hl. case_match; [by repeat constructor|]. constructor; [by rewrite !length_take, Hl|].
  apply IH. by rewrite !length_drop, Hl.
Qed.

(** The backward passes of all parts. *)
Lemma gather_backward_parts fuel ffuel views n (parts : list tensor) ys grads outputs :
  (forall w, w ∈ views -> zlen (rt_block_uids (tk_manager w)) = n) -> 0 < n ->
  Forall2 (fun part y => y.1.1 = fwd_span 0 n part [] /\ chain 0 y.2 n /\
    y.1.2 = (fun s => fwd_span 0 (sp_start s) part []) <$> y.2) parts ys ->
  length grads = length parts ->
  gather (fun w x => sequential_backward fuel ffuel w
                       x.1.1.1 x.1.1.2 x.1.2 x.2) views
    (zip (zip (zip grads ((fun o : tensor * list tensor * list RemoteSpanInfo => o.1.2) <$> ys))
       (replicate (length parts) [])) ((fun o => o.2) <$> ys)) = Some (Ok outputs) ->
  outputs = (fun p => ((bwd_span 0 n p.1 p.2 []).1, None)) <$> zip parts grads.
Proof.
  intros Hviews Hn Hys Hlen Hg. apply gather_ok in Hg. revert grads outputs Hlen Hg.
  induction Hys as [|part y parts ys (_ & Hc & Hi) _ IH]; intros [|g grads] outputs Hlen Hg; try done.
  - by apply Forall2_nil_inv_l in Hg as ->.
  - cbn in Hg. apply Forall2_cons_inv_l in Hg as ([go gp] & outputs' & (w & w' & Hw & Hb) & Hg & ->).
    cbn [fst snd] in Hb. apply (backward_sound _ _ _ part g [] 0 n) in Hb.
    + rewrite zslice_nil in Hb. cbn [zip zip_with fmap list_fmap fst snd].
      destruct (bwd_span 0 n part g []) as [gx gps]. destruct Hb as [-> ->].
      f_equal. apply IH; [by injection Hlen|exact Hg].
    + split; [exact Hc|]. rewrite Hi. apply list_fmap_ext. intros. unfold act. by rewrite zslice_nil.
    + by left.
    + lia.
    + lia.
    + rewrite (Hviews w Hw). lia.
Qed.

(** A batch that went forward comes back as the gradient of all blocks on the whole batch. *)
Theorem autograd_backward_correct fuel fuel' ffuel views views' seq_length x out ctx g gx gps n :
  (forall w, w ∈ views \/ w ∈ views' -> zlen (rt_block_uids (tk_manager w)) = n) -> 0 < n -> length g = length x ->
  autograd_forward net payload_size MAX_UNARY_PAYLOAD_SIZE args_schema fuel views seq_length x []
    = Some (Ok (out, ctx)) ->
  autograd_backward net payload_size MAX_UNARY_PAYLOAD_SIZE args_schema fuel' ffuel views' seq_length g ctx
    = Some (Ok (gx, gps)) ->
  gx = (bwd_span 0 n x g []).1 /\ gps = None.
Proof.
  intros Hviews Hn Hl Hf Hb. eapply autograd_forward_parts in Hf as (k & Hk & Hc & _ & ys & Hys & ->);
    [|intros w Hw; apply Hviews; by left].
  unfold autograd_backward in Hb. rewrite Hk in Hb. case_if; [done|].
  destruct (gather _ _ _) as [[outputs|e]|] eqn:Eg; [|done|done]. injection Hb as <- <-.
  assert (Hkp : (0 < Z.to_nat k)%nat).
  { unfold rows_per_batch in Hk. case_if; [done|]. injection Hk as <-. lia. }
  pose proof (tensor_split_lengths k x g (eq_sym Hl)) as Hparts.
  eapply gather_backward_parts in Eg; [|intros w Hw; apply Hviews; by right|done|exact Hys|
    by rewrite (Forall2_length _ _ _ Hparts)].
  subst outputs. split.
  - rewrite <- list_fmap_compose. rewrite (list_fmap_ext _ (fun p => (bwd_span 0 n p.1 p.2 []).1)) by done.
    rewrite bwd_concat by done. unfold tensor_split. by rewrite !split_rows_concat.
  - assert (Hne : tensor_split k x <> []).
    { intros Hz. unfold tensor_split in Hz. destruct (length x); cbn in Hz; [done|]. by case_match. }
    destruct (tensor_split k x) as [|p1 ps]; [done|]. inversion Hparts; subst. done.
Qed.
End forward_proofs.

(** ** A pass over three blocks where the second call fails *)

Definition second_fails (n : nat) : option exn := if (n =? 1)%nat then Some TimeoutError else None.
Definition three_blocks : task (PI := ZPeerIds) (RT := FixedRouter) := mkTask (RT := FixedRouter) ["m.0"; "m.1"; "m.2"] 0.

Definition no_result : task (PI := ZPeerIds) (RT := FixedRouter) * (list Z * list (list Z) * list (@RemoteSpanInfo ZPeerIds)) :=
  (three_blocks, ([], [], [])).

(** The evaluation of a run to its outcome alone. *)
Definition succeeds {W R} (o : option (W * result R)) : bool :=
  match o with Some (_, Ok _) => true | _ => false end.

Definition forward_result :=
  match sequential_forward (RT := FixedRouter) (SS := AffineServer) second_fails (fun _ _ => 0) 0 1 9 three_blocks [1; 2]
          [] 0 None with
  | Some (w, Ok r) => (w, r)
  | _ => no_result
  end.

Lemma forward_run :
  sequential_forward (RT := FixedRouter) (SS := AffineServer) second_fails (fun _ _ => 0) 0 1 9 three_blocks [1; 2] [] 0 None
  = Some (forward_result.1, Ok (forward_result.2.1.1, forward_result.2.1.2, forward_result.2.2)).
Proof.
  assert (H : succeeds (sequential_forward (RT := FixedRouter) (SS := AffineServer) second_fails (fun _ _ => 0) 0 1 9
    three_blocks [1; 2] [] 0 None) = true) by (vm_compute; reflexivity).
  unfold forward_result. by destruct (sequential_forward _ _ _ _ _ _ _ _ _ _) as [[w [[[a b] c]|e]]|].
Qed.

Lemma sequential_forward_correct_witness :
  forward_result.2.1.1 = fwd_span (SpanServer := AffineServer) 0 3 [1; 2] [] /\
  chain (PI := ZPeerIds) 0 forward_result.2.2 3 /\
  forward_result.2.1.2 = (fun s => fwd_span (SpanServer := AffineServer) 0 (sp_start s) [1; 2] []) <$> forward_result.2.2.
Proof.
  apply (sequential_forward_correct (PI := ZPeerIds) (RT := FixedRouter) (SS := AffineServer) second_fails
    (fun _ _ => 0) 0 1 9 three_blocks [1; 2] [] 0 None forward_result.1 forward_result.2.1.1 forward_result.2.1.2
    forward_result.2.2 forward_run).
  discriminate.
Defined.

Lemma forward_passed : passed (PI := ZPeerIds) (SS := AffineServer) [] [1; 2] 0 3 forward_result.2.1.2 forward_result.2.2.
Proof.
  destruct (forward_sound (PI := ZPeerIds) (RT := FixedRouter) (SS := AffineServer) second_fails
    (fun _ _ => 0) 0 1 9 three_blocks [1; 2] [] 0 None forward_result.1 forward_result.2.1.1 forward_result.2.1.2
    forward_result.2.2 forward_run ltac:(discriminate)) as (_ & Hc & Hi).
  split; [exact Hc|exact Hi].
Qed.

Definition backward_result :=
  match sequential_backward (RT := FixedRouter) (SS := AffineServer) second_fails (fun _ _ => 0) 0 1 9 9 three_blocks [1; 1]
          forward_result.2.1.2 [] forward_result.2.2 with
  | Some (w, Ok r) => (w, r)
  | _ => (three_blocks, ([], None))
  end.

Lemma backward_run :
  sequential_backward (RT := FixedRouter) (SS := AffineServer) second_fails (fun _ _ => 0) 0 1 9 9 three_blocks [1; 1]
    forward_result.2.1.2 [] forward_result.2.2 = Some (backward_result.1, Ok (backward_result.2.1, backward_result.2.2)).
Proof.
  assert (H : succeeds (sequential_backward (RT := FixedRouter) (SS := AffineServer) second_fails (fun _ _ => 0) 0 1 9 9
    three_blocks [1; 1] forward_result.2.1.2 [] forward_result.2.2) = true) by (vm_compute; reflexivity).
  unfold backward_result. by destruct (sequential_backward _ _ _ _ _ _ _ _ _ _ _) as [[w [[a b]|e]]|].
Qed.

(** The gradient through three blocks of slope 2. *)
Lemma sequential_backward_correct_witness : backward_result.2.1 = [8; 8] /\ backward_result.2.2 = None.
Proof.
  exact (sequential_backward_correct (PI := ZPeerIds) (RT := FixedRouter) (SS := AffineServer) second_fails (fun _ _ => 0)
    0 1 9 9 three_blocks [1; 2] [1; 1] [] 0 3 forward_result.2.1.2 forward_result.2.2 backward_result.1 backward_result.2.1
    backward_result.2.2 forward_passed (or_introl eq_refl) ltac:(lia) ltac:(lia) ltac:(discriminate) backward_run).
Defined.

Lemma sequential_forward_returns_witness :
  exists w' r, sequential_forward (RT := FixedRouter) (SS := AffineServer) (fun _ => None) (fun _ _ => 0) 0 1 3 three_blocks
    [1; 2] [] 0 None = Some (w', Ok r).
Proof.
  apply (sequential_forward_returns (PI := ZPeerIds) (RT := FixedRouter) (SS := AffineServer));
    [done|lia| |by left|discriminate].
  intros r a b c. eexists _, _. reflexivity.
Defined.

Definition batches_result :=
  match autograd_forward (RT := FixedRouter) (SS := AffineServer) second_fails (fun _ _ => 0) 0 1 9
          [three_blocks; three_blocks] 1024 [1; 2] [] with
  | Some (Ok r) => r
  | _ => ([], mkCtx [] [] [])
  end.

Lemma batches_run :
  autograd_forward (RT := FixedRouter) (SS := AffineServer) second_fails (fun _ _ => 0) 0 1 9
    [three_blocks; three_blocks] 1024 [1; 2] [] = Some (Ok (batches_result.1, batches_result.2)).
Proof.
  assert (H : is_Some (o ← autograd_forward (RT := FixedRouter) (SS := AffineServer) second_fails (fun _ _ => 0) 0 1 9
    [three_blocks; three_blocks] 1024 [1; 2] []; if is_ok o then Some () else None)) by (vm_compute; eauto).
  unfold batches_result. destruct (autograd_forward _ _ _ _ _ _ _ _ _) as [[[a b]|e]|]; [done|..]; by destruct H.
Qed.

Lemma autograd_forward_correct_witness :
  exists k, rows_per_batch 1024 = Ok k /\ concat (tensor_split k [1; 2]) = [1; 2] /\
    batches_result.1 = fwd_span (SpanServer := AffineServer) 0 3 [1; 2] [] /\
    Forall2 (fun part ps => chain (PI := ZPeerIds) 0 ps.2 3 /\
        ps.1 = (fun s => fwd_span (SpanServer := AffineServer) 0 (sp_start s) part []) <$> ps.2)
      (tensor_split k [1; 2]) (zip (cx_intermediate_inputs batches_result.2) (cx_sequences batches_result.2)).
Proof.
  apply (autograd_forward_correct (PI := ZPeerIds) (RT := FixedRouter) (SS := AffineServer) second_fails (fun _ _ => 0) 0 1 9
    [three_blocks; three_blocks] 1024 [1; 2] batches_result.1 batches_result.2 3); [|exact batches_run].
  intros w Hw. apply elem_of_cons in Hw as [->|Hw]; [reflexivity|]. by apply list_elem_of_singleton in Hw as ->.
Defined.

Definition batches_backward :=
  match autograd_backward (RT := FixedRouter) (SS := AffineServer) second_fails (fun _ _ => 0) 0 1 9 9
          [three_blocks; three_blocks] 1024 [1; 1] batches_result.2 with
  | Some (Ok r) => r
  | _ => ([], None)
  end.

Lemma batches_backward_run :
  autograd_backward (RT := FixedRouter) (SS := AffineServer) second_fails (fun _ _ => 0) 0 1 9 9
    [three_blocks; three_blocks] 1024 [1; 1] batches_result.2 = Some (Ok (batches_backward.1, batches_backward.2)).
Proof.
  assert (H : is_Some (o ← autograd_backward (RT := FixedRouter) (SS := AffineServer) second_fails (fun _ _ => 0) 0 1 9 9
    [three_blocks; three_blocks] 1024 [1; 1] batches_result.2; if is_ok o then Some () else None)) by (vm_compute; eauto).
  unfold batches_backward. destruct (autograd_backward _ _ _ _ _ _ _ _ _ _) as [[[a b]|e]|]; [done|..]; by destruct H.
Qed.

Lemma autograd_backward_correct_witness :
  batches_backward.1 = (bwd_span (SpanServer := AffineServer) 0 3 [1; 2] [1; 1] []).1 /\ batches_backward.2 = None.
Proof.
  apply (autograd_backward_correct (PI := ZPeerIds) (RT := FixedRouter) (SS := AffineServer) second_fails (fun _ _ => 0) 0 1
    9 9 9 [three_blocks; three_blocks] [three_blocks; three_blocks] 1024 [1; 2] batches_result.1 batches_result.2 [1; 1]
    batches_backward.1 batches_backward.2 3); [|lia|done|exact batches_run|exact batches_backward_run].
  intros w Hw. assert (w ∈ [three_blocks; three_blocks]) as Hw' by (by destruct Hw).
  apply elem_of_cons in Hw' as [->|Hw']; [reflexivity|]. by apply list_elem_of_singleton in Hw' as ->.
Defined.
