(* ===== verification/RemoteSequential.v ===== *)
(** * RemoteSequential: [client/remote_sequential.py]

    The module a client puts in the place of the model's blocks.  Inside an inference session it steps the
    session, outside of one it is a differentiable function of its inputs.  The sessions are objects with an
    identity: which of them is active is a context variable. *)

From S2P Require Import Prelude PyString PyFloat PyDict DataStructures Utils Dht SequenceInfo SequenceManager.
From S2P Require Import Effects Interfaces InferenceSession SequentialAutograd.

(** [x is None] *)
Definition is_none {A} (o : option A) : bool := match o with None => true | Some _ => false end.

(** ** A sequence of blocks

    [__init__], [__getitem__], [__iter__] and [__len__], over the sequence manager that holds the uids. *)
Section blocks_of.
Context {PI : PeerIds} {PD : Pydantic} {BL : Blacklist} {RND : PyRandom}.

Record rs_args := mkRsArgs {
  ra_config : ClientConfig;
  ra_num_hidden_layers : Z;
  ra_sequence_manager : option SequenceManager;
  ra_dht : bool;               (* is there a DHT instance? *)
  ra_start_block : option Z;
  ra_end_block : option Z;
}.

Definition rs_init (a : rs_args) : result SequenceManager :=
  _ ← assert_ (is_none (ra_sequence_manager a) ||
               (negb (ra_dht a) && is_none (ra_start_block a) && is_none (ra_end_block a)));
  match ra_sequence_manager a with
  | Some m => Ok m
  | None =>
      let start_block := or_default (ra_start_block a) 0 in
      let end_block := or_default (ra_end_block a) (ra_num_hidden_layers a) in
      let prefix := or_default (cfg_dht_prefix (ra_config a)) "None" in
      let block_uids := make_uid prefix <$> zrange start_block end_block in
      sm_init (ra_config a) block_uids (ra_dht a) None None
  end.

Definition rs_len (m : SequenceManager) : Z := sm_len m.

(** [self[i]] for one block: [slice(i, i + 1)]. *)
Definition rs_getitem (m : SequenceManager) (a b : Z) : result SequenceManager := sm_getitem m a b.

(** [list(iter(self))] *)
Definition rs_iter (m : SequenceManager) : result (list SequenceManager) :=
  mapR (fun i => rs_getitem m i (i + 1)) (zrange 0 (rs_len m)).
End blocks_of.

(** ** The state of a client *)

(** Activations are sent to [rpc_forward] with one row per sequence and to [rpc_inference] with one column per
    token: the two layouts of a tensor, and the promise that a server runs the same blocks for both. *)
Class Layout {BK : Blocks} {IS : InferenceServer} {SS : SpanServer} := {
  rows_of : list token -> list row;
  tokens_of : list row -> list token;
  prompt_rows : prompt -> list prm;
  tokens_of_rows : forall x, tokens_of (rows_of x) = x;
  fwd_rows_of : forall a b x, fwd_span a b (rows_of x) [] = rows_of (run_blocks a b x);
}.

(** [RemotePastKeyValues] of [client/remote_generation.py]: the number of tokens the session has processed. *)
Record RemotePastKeyValues := mkCache {
  pk_seen_tokens : Z;
  pk_hypo_ids : option (list Z);
}.

Section client.
Context {PI : PeerIds} {RT : Router} {BK : Blocks} {IS : InferenceServer} {SS : SpanServer} {LY : Layout}.

(** A column of token ids, one per sequence of the batch. *)
Context {tid : Type}.

(** A session object: the session and the attribute [output_ids] that [generate] keeps in it. *)
Record session_object := mkSessionObject {
  so_session : Session;
  so_output_ids : option (list tid);
}.

(** All sessions share the sequence manager and the network.  [cl_active] and [cl_skipped] are the context
    variables [active_session] and [skipped_tokens]; objects are referred to by their index. *)
Record client := mkClient {
  cl_manager : router;
  cl_sessions : list session_object;
  cl_active : option nat;
  cl_skipped : Z;
  cl_caches : list RemotePastKeyValues;
  cl_calls : nat;
  cl_uuids : Z;
}.

Definition cl_with_active (st : client) (a : option nat) : client :=
  mkClient (cl_manager st) (cl_sessions st) a (cl_skipped st) (cl_caches st) (cl_calls st) (cl_uuids st).
Definition cl_with_skipped (st : client) (n : Z) : client :=
  mkClient (cl_manager st) (cl_sessions st) (cl_active st) n (cl_caches st) (cl_calls st) (cl_uuids st).
Definition cl_with_caches (st : client) (l : list RemotePastKeyValues) : client :=
  mkClient (cl_manager st) (cl_sessions st) (cl_active st) (cl_skipped st) l (cl_calls st) (cl_uuids st).
Definition cl_with_manager (st : client) (m : router) : client :=
  mkClient m (cl_sessions st) (cl_active st) (cl_skipped st) (cl_caches st) (cl_calls st) (cl_uuids st).
Definition cl_with_sessions (st : client) (l : list session_object) : client :=
  mkClient (cl_manager st) l (cl_active st) (cl_skipped st) (cl_caches st) (cl_calls st) (cl_uuids st).

(** A session as its methods see it, and what they leave behind. *)
Definition checkout (st : client) (so : session_object) : Session :=
  let s := so_session so in
  mkInference (cl_manager st) (is_closed s) (is_server_sessions s) (is_position s) (is_max_length s)
    (cl_calls st) (cl_uuids st).

Definition checkin (st : client) (i : nat) (w : Session) : client :=
  mkClient (is_manager w) (alter (fun so => mkSessionObject w (so_output_ids so)) i (cl_sessions st))
    (cl_active st) (cl_skipped st) (cl_caches st) (is_calls w) (is_uuids w).

Definition on_session {A} (i : nat) (f : Session -> option (Session * result A)) : prog client A := fun st =>
  match cl_sessions st !! i with
  | None => None
  | Some so =>
      match f (checkout st so) with
      | None => None
      | Some (w, r) => Some (checkin st i w, r)
      end
  end.

(** ** Active sessions *)

Context (net : nat -> option exn).

Definition active_session : prog client (option nat) := reads cl_active.

Definition position : prog client Z :=
  active ← active_session;
  match active with
  | None => ret 0
  | Some i => on_session i (fun w => Some (w, Ok (is_position w)))
  end.

(** [with self.use_session(session): body] *)
Definition use_session {A} (session : option nat) (body : prog client A) : prog client A :=
  token ← reads cl_active;
  _ ← writes (fun st => cl_with_active st session);
  finally body (fun st => cl_with_active st token).

(** [InferenceSession(self.sequence_manager, max_length=max_length)] *)
Definition new_session (max_length : Z) : prog client nat := fun st =>
  let s := mkSessionObject (is_init (cl_manager st) max_length) None in
  Some (cl_with_sessions st (cl_sessions st ++ [s]), Ok (length (cl_sessions st))).

(** [InferenceSession.__enter__] *)
Definition enter_session (i : nat) : prog client unit :=
  on_session i (fun w => Some (w, assert_ (negb (is_closed w) && (zlen (is_server_sessions w) =? 0)))).

(** [InferenceSession.__exit__] *)
Definition exit_session (i : nat) (st : client) : client :=
  match cl_sessions st !! i with
  | None => st
  | Some so => checkin st i (is_close net (checkout st so))
  end.

(** [with self.inference_session(max_length=max_length) as session: body] *)
Definition inference_session {A} (max_length : Z) (body : nat -> prog client A) : prog client A :=
  i ← new_session max_length;
  _ ← enter_session i;
  finally (use_session (Some i) (body i)) (exit_session i).

(** ** forward

    Outside of a session the batches of a pass run concurrently: [views] is what each of them sees of the
    router and the network, [after] the router they leave behind. *)
Context (payload_size : list (list row) -> list (list prm) -> Z) (MAX_UNARY_PAYLOAD_SIZE : Z) (args_schema : Z).
Context (views : client -> list task) (after : client -> router).

(** [_RemoteSequentialAutogradFunction.apply(inputs, prompts, self.sequence_manager)] *)
Definition autograd_apply (fuel : nat) (inputs : list token) (prompts : list (list prm)) : prog client (list token) := fun st =>
  match autograd_forward net payload_size MAX_UNARY_PAYLOAD_SIZE args_schema fuel (views st) (zlen inputs)
          (rows_of inputs) prompts with
  | None => None
  | Some (Err e) => Some (cl_with_manager st (after st), Err e)
  | Some (Ok (outputs, _)) => Some (cl_with_manager st (after st), Ok (tokens_of outputs))
  end.

Definition forward (fuel : nat) (a : step_args) : prog client (list token) :=
  active ← active_session;
  match active with
  | None =>
      _ ← lift (assert_ (is_none (ar_hypo_ids a)));
      autograd_apply fuel (ar_inputs a)
        (match ar_prompts a with None => [] | Some (_, data) => prompt_rows <$> data end)
  | Some i => on_session i (fun w => is_step net fuel w a)
  end.
End client.

(** ** What the operations keep *)

Section client_proofs.
Context {PI : PeerIds} {RT : Router} {BK : Blocks} {IS : InferenceServer} {SS : SpanServer} {LY : Layout}.
Context {tid : Type}.
Context (net : nat -> option exn).
Context (payload_size : list (list row) -> list (list prm) -> Z) (MAX_UNARY_PAYLOAD_SIZE : Z) (args_schema : Z).
Abbreviation client := (@client PI RT BK IS tid).
Context (views : client -> list task) (after : client -> router).
Abbreviation forward := (forward net payload_size MAX_UNARY_PAYLOAD_SIZE args_schema views after).
Implicit Types (st : client) (w : Session).

Definition num_blocks st : Z := zlen (rt_block_uids (cl_manager st)).

(** Session [i] has processed the hidden states [text]. *)
Definition session_at st (i : nat) (text : list token) : Prop :=
  exists so, cl_sessions st !! i = Some so /\ between_steps text (checkout st so).

Definition output_ids_of st (i : nat) : option (list tid) := cl_sessions st !! i ≫= so_output_ids.
Definition max_length_of st (i : nat) : option Z := (fun so => is_max_length (so_session so)) <$> cl_sessions st !! i.

(** The same client after a step of session [i]: everything but that session, the router's state and the
    network is as before, and the session has kept its identity. *)
Record same_client (i : nat) st st' : Prop := {
  sc_uids : rt_block_uids (cl_manager st') = rt_block_uids (cl_manager st);
  sc_active : cl_active st' = cl_active st;
  sc_skipped : cl_skipped st' = cl_skipped st;
  sc_length : length (cl_sessions st') = length (cl_sessions st);
  sc_output : output_ids_of st' i = output_ids_of st i;
  sc_max : max_length_of st' i = max_length_of st i;
  sc_others : forall j, j <> i -> cl_sessions st' !! j = cl_sessions st !! j;
}.

#[global] Instance same_client_preorder i : PreOrder (same_client i).
Proof.
  split; [by split|]. intros st1 st2 st3 [] []. split; try congruence. intros j Hj. by rewrite sc_others1, sc_others0.
Qed.

Lemma checkout_checkin st i w so :
  checkout (checkin st i w) (mkSessionObject w (so_output_ids so)) = w.
Proof. by destruct w. Qed.

Lemma checkin_lookup st i w so :
  cl_sessions st !! i = Some so -> cl_sessions (checkin st i w) !! i = Some (mkSessionObject w (so_output_ids so)).
Proof. intros Hso. unfold checkin. cbn [cl_sessions]. by rewrite list_lookup_alter_eq, Hso. Qed.

Lemma checkin_same st i w so :
  cl_sessions st !! i = Some so -> rt_block_uids (is_manager w) = rt_block_uids (cl_manager st) ->
  is_max_length w = is_max_length (so_session so) -> same_client i st (checkin st i w).
Proof.
  intros Hso Hu Hm. pose proof (checkin_lookup st i w so Hso) as Hc. split; try done.
  - cbn [cl_sessions checkin]. apply length_alter.
  - unfold output_ids_of. by rewrite Hc, Hso.
  - unfold max_length_of. rewrite Hc, Hso. simpl. by rewrite Hm.
  - intros j Hj. cbn [cl_sessions checkin]. by rewrite list_lookup_alter_ne.
Qed.

(** A step of the active session. *)
Lemma forward_step fuel st st' i text x batch hidden out :
  cl_active st = Some i -> 0 < num_blocks st -> session_at st i text ->
  forward fuel (plain batch hidden x) st = Some (st', Ok out) ->
  out = drop (length text) (run_blocks 0 (num_blocks st) (text ++ x)) /\
  session_at st' i (text ++ x) /\ same_client i st st' /\ cl_caches st' = cl_caches st.
Proof.
  intros Ha HN (so & Hso & Hb) Hrun. apply bind_returns in Hrun as (st1 & a & Hact & Hrun).
  injection Hact as <- <-. rewrite Ha in Hrun. unfold on_session in Hrun. rewrite Hso in Hrun.
  destruct (is_step net fuel (checkout st so) (plain batch hidden x)) as [[w r]|] eqn:Est; [|done].
  injection Hrun as <- ->.
  pose proof (step_full net fuel text (checkout st so) x batch hidden w out) as Hfull.
  destruct Hfull as (-> & Hb' & _ & _ & Hu & Hm); [done|done|done|].
  split; [done|]. split.
  - exists (mkSessionObject w (so_output_ids so)). split; [by apply checkin_lookup|]. by rewrite checkout_checkin.
  - split; [by eapply checkin_same|done].
Qed.

(** the module is the same function inside a new session and outside of all sessions: all the blocks
    on its inputs. *)
Theorem forward_session_agnostic fuel fuel' st st0 st' st0' i x batch hidden out out0 :
  0 < num_blocks st -> num_blocks st0 = num_blocks st ->
  (forall v, v ∈ views st0 -> zlen (rt_block_uids (tk_manager v)) = num_blocks st0) ->
  cl_active st = Some i -> session_at st i [] -> cl_active st0 = None ->
  forward fuel (plain batch hidden x) st = Some (st', Ok out) ->
  forward fuel' (plain batch hidden x) st0 = Some (st0', Ok out0) ->
  out = run_blocks 0 (num_blocks st) x /\ out0 = out.
Proof.
  intros HN H0 Hviews Ha Hs Ha0 Hrun Hrun0.
  destruct (forward_step fuel st st' i [] x batch hidden out) as (-> & _); [done..|].
  split; [done|]. apply bind_returns in Hrun0 as (st1 & a & Hact & Hrun0). injection Hact as <- <-.
  rewrite Ha0 in Hrun0. apply bind_returns in Hrun0 as (st1 & [] & Hl & Hrun0). injection Hl as <-.
  unfold autograd_apply in Hrun0. cbn [plain ar_inputs ar_prompts] in Hrun0.
  destruct (autograd_forward net payload_size MAX_UNARY_PAYLOAD_SIZE args_schema fuel' (views st0) (zlen x) (rows_of x) []) as [[[o ctx]|e]|] eqn:Ef; [|done|done].
  injection Hrun0 as <- <-. eapply autograd_forward_parts in Ef as (k & _ & _ & -> & _); [|exact Hviews].
  by rewrite fwd_rows_of, tokens_of_rows, H0.
Qed.

(** ** Sessions as context managers *)

Lemma use_session_restores {A} s (body : prog client A) st st' r :
  use_session s body st = Some (st', r) ->
  cl_active st' = cl_active st /\
  exists st1, body (cl_with_active st s) = Some (st1, r) /\ st' = cl_with_active st1 (cl_active st).
Proof.
  intros H. unfold use_session in H. cbn in H.
  apply finally_returns in H as (st1 & Hb & ->). split; [done|]. eauto.
Qed.

(** Creating and entering a session. *)
Definition opened st (n : Z) : client :=
  let i := length (cl_sessions st) in
  let s := is_init (cl_manager st) n in
  checkin (cl_with_sessions st (cl_sessions st ++ [mkSessionObject s None])) i (checkout st (mkSessionObject s None)).

Lemma new_lookup {A} (l : list A) so : (l ++ [so]) !! length l = Some so.
Proof. by rewrite lookup_app_r, Nat.sub_diag by lia. Qed.

Lemma inference_session_unfold {A} n (body : nat -> prog client A) st :
  inference_session net n body st =
  finally (use_session (Some (length (cl_sessions st))) (body (length (cl_sessions st))))
    (exit_session net (length (cl_sessions st))) (opened st n).
Proof.
  unfold inference_session. rewrite (bind_ok _ _ _ _ _ eq_refl).
  etransitivity; [apply bind_ok with (w' := opened st n) (a := ())|done].
  unfold enter_session, on_session. cbn [cl_sessions cl_with_sessions]. by rewrite new_lookup.
Qed.

Lemma opened_session st n :
  session_at (opened st n) (length (cl_sessions st)) [] /\ output_ids_of (opened st n) (length (cl_sessions st)) = None /\
  max_length_of (opened st n) (length (cl_sessions st)) = Some n /\
  length (cl_sessions (opened st n)) = S (length (cl_sessions st)).
Proof.
  assert (Hl : cl_sessions (opened st n) !! length (cl_sessions st) =
    Some (mkSessionObject (checkout st (mkSessionObject (is_init (cl_manager st) n) None)) None)).
  { unfold opened. cbn [cl_sessions checkin cl_with_sessions]. by rewrite list_lookup_alter_eq, new_lookup. }
  unfold session_at, output_ids_of, max_length_of. rewrite Hl.
  split; [eexists; split; [done|]; split; [done|done|by left]|]. split; [done|]. split; [done|].
  unfold opened. cbn [cl_sessions checkin cl_with_sessions]. rewrite length_alter, length_app. simpl. lia.
Qed.

Lemma is_close_closed w : is_closed (is_close net w) = true.
Proof. unfold is_close. destruct (is_closed w) eqn:E; [done|]. by destruct (_exit_server_sessions net w (is_server_sessions w)). Qed.

(** inside [with inference_session(...)] a new session is the active one; however the block is left, the
    previous session is active again and the new one is closed. *)
Theorem inference_session_scoped {A} n (body : nat -> prog client A) st st' r :
  (forall i st1 st2 r', body i st1 = Some (st2, r') -> (length (cl_sessions st1) <= length (cl_sessions st2))%nat) ->
  inference_session net n body st = Some (st', r) ->
  let i := length (cl_sessions st) in
  cl_active st' = cl_active st /\
  (exists st1 st2, body i st1 = Some (st2, r) /\ cl_active st1 = Some i /\ session_at st1 i [] /\
     max_length_of st1 i = Some n) /\
  exists so, cl_sessions st' !! i = Some so /\ is_closed (so_session so) = true.
Proof.
  intros Hgrow H i. rewrite inference_session_unfold in H. apply finally_returns in H as (st3 & H & ->).
  apply use_session_restores in H as (Ha & st2 & Hbody & ->).
  destruct (opened_session st n) as (Hs & _ & Hm & Hlen).
  pose proof (Hgrow _ _ _ _ Hbody) as Hle. cbn [cl_sessions cl_with_active] in Hle. rewrite Hlen in Hle.
  destruct (lookup_lt_is_Some_2 (cl_sessions st2) i) as [so Hso]; [lia|].
  unfold exit_session. cbn [cl_sessions cl_with_active]. fold i. rewrite Hso. split; [done|]. split.
  - eexists _, st2. split; [exact Hbody|]. split; [done|]. split; [exact Hs|exact Hm].
  - eexists. split; [by apply (checkin_lookup (cl_with_active st2 (cl_active st)))|]. apply is_close_closed.
Qed.

Lemma on_session_length {A} i (f : Session -> option (Session * result A)) st st' r :
  on_session i f st = Some (st', r) -> length (cl_sessions st') = length (cl_sessions st).
Proof.
  unfold on_session. destruct (cl_sessions st !! i); [|done]. destruct (f _) as [[w r']|]; [|done].
  intros [= <- <-]. apply length_alter.
Qed.

(** No pass creates or drops sessions. *)
Lemma forward_length fuel a st st' r :
  forward fuel a st = Some (st', r) -> length (cl_sessions st') = length (cl_sessions st).
Proof.
  intros H. unfold RemoteSequential.forward in H. rewrite (bind_ok _ _ _ st (cl_active st)) in H by done.
  destruct (cl_active st); [by apply on_session_length in H|].
  destruct (is_none _); [|by injection H as <- <-]. rewrite (bind_ok _ _ _ st ()) in H by done.
  unfold autograd_apply in H. destruct (autograd_forward net _ _ _ _ _ _ _ _) as [[[]|]|]; [..|done]; by injection H as <- <-.
Qed.
End client_proofs.

(** ** The blocks of a sequence *)

Section blocks_of_proofs.
Context {PI : PeerIds} {PD : Pydantic} {BL : Blacklist} {RND : PyRandom}.
Implicit Types (m : SequenceManager).

Lemma sm_init_uids config uids has_dht banned m :
  sm_init config uids has_dht None banned = Ok m -> sm_block_uids m = uids.
Proof. unfold sm_init. intros H. inv_ok. reflexivity. Qed.

Lemma sm_getitem_uids m a b m' : sm_getitem m a b = Ok m' -> sm_block_uids m' = zslice (sm_block_uids m) a b.
Proof.
  unfold sm_getitem. intros H. destruct (sq_getitem (sm_info m) a b) as [si|] eqn:E; [|done].
  unfold sq_getitem in E. inv_ok. cbn in H. unfold sm_init in H. inv_ok. reflexivity.
Qed.

Lemma zslice_singles {A} (l : list A) : (fun i => zslice l i (i + 1)) <$> zrange 0 (zlen l) = (fun x => [x]) <$> l.
Proof.
  apply list_eq. intros i. rewrite !list_lookup_fmap. destruct (l !! i) as [x|] eqn:E.
  - apply lookup_lt_Some in E as Hi.
    assert (zrange 0 (zlen l) !! i = Some (Z.of_nat i)) as ->.
    { unfold zrange. apply lookup_seqZ. unfold zlen. lia. }
    simpl. f_equal. rewrite zslice_nonneg by lia. rewrite Nat2Z.id, (drop_S l x i E).
    by replace (Z.to_nat (Z.of_nat i + 1 - Z.of_nat i)) with 1%nat by lia.
  - apply lookup_ge_None in E. rewrite (proj2 (lookup_ge_None (zrange 0 (zlen l)) i)); [done|].
    rewrite zrange_length. unfold zlen. lia.
Qed.

(** iterating over the module gives its blocks one by one, in order. *)
Theorem rs_iter_blocks m l : rs_iter m = Ok l -> sm_block_uids <$> l = (fun uid => [uid]) <$> sm_block_uids m.
Proof.
  unfold rs_iter, rs_len, sm_len, rs_getitem. rewrite <- zslice_singles. generalize (zrange 0 (zlen (sm_block_uids m))).
  intros idx Hl. apply mapR_Forall2 in Hl. induction Hl as [|i m' idx l Hi _ IH]; [done|].
  cbn [fmap list_fmap]. f_equal; [by apply sm_getitem_uids|exact IH].
Qed.

(** Without a manager of its own the module covers the requested blocks, all of them by default. *)
Theorem rs_init_blocks a m :
  rs_init a = Ok m -> ra_sequence_manager a = None ->
  sm_block_uids m = make_uid (or_default (cfg_dht_prefix (ra_config a)) "None") <$>
    zrange (or_default (ra_start_block a) 0) (or_default (ra_end_block a) (ra_num_hidden_layers a)).
Proof.
  unfold rs_init. intros H Hn. rewrite Hn in H. cbn in H. by apply sm_init_uids in H.
Qed.
End blocks_of_proofs.

(** ** Examples *)

(** The gradient of prefix sums: suffix sums, once per block. *)
Fixpoint suffix_sums (l : list Z) : list Z :=
  match l with [] => [] | x :: l' => (x + default 0 (head (suffix_sums l'))) :: suffix_sums l' end.

Definition back_sums (a b : Z) (g : list Z) : list Z := Nat.iter (Z.to_nat (b - a)) suffix_sums g.

#[refine] Instance SumSpans : SpanServer :=
  {| row := list Z; prm := Empty_set;
     fwd_span a b x ps := run_blocks (BK := SumBlocks) a b <$> x;
     bwd_span a b x g ps := (back_sums a b <$> g, []) |}.
Proof.
  - intros. by rewrite length_fmap.
  - intros. rewrite <- (list_fmap_id x) at 2. apply list_fmap_ext. intros i y _. exact (run_blocks_nil (BK := SumBlocks) a a y (Z.le_refl a)).
  - intros a b c x ps qs Ha Hb _. rewrite <- list_fmap_compose. apply list_fmap_ext. intros i y _.
    exact (run_blocks_split (BK := SumBlocks) a b c y Ha Hb).
  - intros a x g ps. f_equal. rewrite <- (list_fmap_id g) at 2. apply list_fmap_ext. intros i y _.
    unfold back_sums. by rewrite Z.sub_diag.
  - intros a b c x g ps qs Ha Hb _. cbn. f_equal. rewrite <- list_fmap_compose. apply list_fmap_ext.
    intros i y _. unfold compose, back_sums. rewrite <- Nat.iter_add. f_equal. lia.
  - intros. apply fmap_app.
  - intros. apply fmap_app.
Defined.

#[refine] Instance SumLayout : Layout (BK := SumBlocks) (IS := ExactServer) (SS := SumSpans) :=
  {| rows_of x := [x]; tokens_of l := match l with x :: _ => x | [] => [] end; prompt_rows _ := [] |}.
Proof. all: done. Defined.

Definition one_client (active : option nat) : client (PI := ZPeerIds) (RT := FixedRouter) (BK := SumBlocks) (tid := Z) :=
  mkClient (RT := FixedRouter) ["m.0"; "m.1"; "m.2"] [] active 0 [] 0 0.

Definition one_view (st : client (PI := ZPeerIds) (RT := FixedRouter) (BK := SumBlocks) (tid := Z))
    : list (task (PI := ZPeerIds) (RT := FixedRouter)) := [mkTask (RT := FixedRouter) (cl_manager st) 0].

Abbreviation run_forward := (forward (PI := ZPeerIds) (RT := FixedRouter) (BK := SumBlocks) (IS := ExactServer)
  (SS := SumSpans) (LY := SumLayout) (tid := Z) (fun _ => None) (fun _ _ => 0) 0 1 one_view cl_manager).

(** The outcome of a program, without its final state. *)
Definition outcome {W A} (o : option (W * result A)) : option (result A) := snd <$> o.

Lemma outcome_run {W A} (o : option (W * result A)) (a : A) : outcome o = Some (Ok a) -> exists w, o = Some (w, Ok a).
Proof. destruct o as [[w r]|]; [|done]. intros [= ->]. eauto. Qed.

Definition three_tokens := plain (BK := SumBlocks) (IS := ExactServer) 1 1 [1; 2; 3].
Definition in_session := cl_with_active (opened (one_client None) 8) (Some 0%nat).

Lemma forward_session_agnostic_witness :
  exists st' st0', run_forward 9 three_tokens in_session = Some (st', Ok [4; 9; 20]) /\
    run_forward 9 three_tokens (one_client None) = Some (st0', Ok [4; 9; 20]) /\
    [4; 9; 20] = run_blocks (BK := SumBlocks) 0 3 [1; 2; 3].
Proof.
  destruct (outcome_run (run_forward 9 three_tokens in_session) [4; 9; 20]) as [st' H]; [vm_compute; reflexivity|].
  destruct (outcome_run (run_forward 9 three_tokens (one_client None)) [4; 9; 20]) as [st0' H0]; [vm_compute; reflexivity|].
  exists st', st0'. split; [exact H|]. split; [exact H0|].
  apply (forward_session_agnostic (PI := ZPeerIds) (RT := FixedRouter) (BK := SumBlocks) (IS := ExactServer)
    (SS := SumSpans) (LY := SumLayout) (tid := Z) (fun _ => None) (fun _ _ => 0) 0 1 one_view cl_manager 9 9
    in_session (one_client None) st' st0' 0 [1; 2; 3] 1 1 [4; 9; 20] [4; 9; 20]); [done|done| |done| |done|exact H|exact H0].
  - intros v Hv. by apply list_elem_of_singleton in Hv as ->.
  - destruct (opened_session (PI := ZPeerIds) (RT := FixedRouter) (BK := SumBlocks) (one_client None) 8) as (Hs & _). exact Hs.
Defined.

Lemma inference_session_scoped_witness :
  exists st' so, inference_session (PI := ZPeerIds) (RT := FixedRouter) (BK := SumBlocks) (fun _ => None) 8
      (fun _ => run_forward 9 three_tokens) (one_client None) = Some (st', Ok [4; 9; 20]) /\
    cl_active st' = None /\ cl_sessions st' !! 0%nat = Some so /\ is_closed (so_session so) = true.
Proof.
  destruct (outcome_run (inference_session (PI := ZPeerIds) (RT := FixedRouter) (BK := SumBlocks) (tid := Z) (fun _ => None) 8
      (fun _ => run_forward 9 three_tokens) (one_client None)) [4; 9; 20]) as [st' H]; [vm_compute; reflexivity|].
  destruct (inference_session_scoped (PI := ZPeerIds) (RT := FixedRouter) (BK := SumBlocks) (tid := Z)
    (fun _ => None) 8 (fun _ => run_forward 9 three_tokens) (one_client None) st' (Ok [4; 9; 20])) as (Ha & _ & so & Hso & Hc);
    [|exact H|exists st', so; split; [exact H|]; split; [exact Ha|]; split; [exact Hso|exact Hc]].
  intros i st1 st2 r' Hr.
  pose proof (forward_length (PI := ZPeerIds) (RT := FixedRouter) (BK := SumBlocks) (IS := ExactServer) (SS := SumSpans)
    (LY := SumLayout) (tid := Z) (fun _ => None) (fun _ _ => 0) 0 1 one_view cl_manager 9 three_tokens st1 st2 r' Hr) as ->.
  apply le_n.
Defined.
