(* ===== verification/LMHead.v ===== *)
(** * LMHead: [client/lm_head.py]

    The language-model head of a client: the logits of a hidden state, computed at once or, for half precision
    weights on a CPU, in chunks of rows that are cast to float32 one after another. *)

From S2P Require Import Prelude.

(** [F.linear]: one logit per row of the weights, in the precision of the weights or in float32. *)
Class Linear := {
  hidden : Type;
  weight_row : Type;
  logit : Type;
  dot : weight_row -> hidden -> logit;
  dot_float : weight_row -> hidden -> logit;
}.

Inductive float_dtype := Float16 | BFloat16 | Float32.

(** [config.use_chunked_forward] *)
Inductive chunked_option := ChunkedAuto | ChunkedIs (b : bool).

(** What [__init__] asks of the host: [platform.machine()] and the [CPUFeature]s. *)
Record host_cpu := mkCpu {
  cpu_x86_64 : bool;
  cpu_AVX512f : bool;
  cpu_OS_AVX512 : bool;
}.

Section lm_head.
Context {LN : Linear}.

Record LMHead := mkHead {
  lh_weight : option (list weight_row);   (* [None]: tied to the embeddings, set while loading *)
  lh_dtype : float_dtype;
  lh_on_cpu : bool;
  lh_out_features : Z;
  lh_use_chunked_forward : bool;
  lh_chunked_forward_step : Z;
}.

(** [__init__]: weights of its own are zeros until they are loaded. *)
Definition lm_head_init (tie_word_embeddings : bool) (zero_row : weight_row) (vocab_size : Z) (dtype : float_dtype)
    (on_cpu : bool) (use_chunked_forward : chunked_option) (chunked_forward_step : Z) (cpu : host_cpu) : LMHead :=
  mkHead (if negb tie_word_embeddings then Some (replicate (Z.to_nat vocab_size) zero_row) else None)
    dtype on_cpu vocab_size
    (match use_chunked_forward with
     | ChunkedAuto => if cpu_x86_64 cpu then negb (cpu_AVX512f cpu && cpu_OS_AVX512 cpu) else true
     | ChunkedIs b => b
     end)
    chunked_forward_step.

(** [output[..., i : i + step] = values]: the slice is clipped at the end of [output]; there have to be as many
    values as places, or a single one, which is repeated. *)
Definition assign_slice (output : list (option logit)) (i step : Z) (values : list logit)
    : result (list (option logit)) :=
  let a := Z.to_nat i in
  let places := (Z.to_nat (Z.min (i + step) (zlen output)) - a)%nat in
  let put l := take a output ++ (Some <$> l) ++ drop (a + places) output in
  if (length values =? places)%nat then Ok (put values)
  else match values with
       | [v] => Ok (put (replicate places v))
       | _ => Err RuntimeError
       end.

(** [range(0, n, step)] *)
Definition range_step (n step : Z) : list Z :=
  (fun k => Z.of_nat k * step) <$> seq 0 (Z.to_nat ((n + step - 1) / step)).

(** The places of [torch.empty] hold nothing that is defined. *)
Definition chunked_forward (h : LMHead) (weight : list weight_row) (x : hidden) : result (list (option logit)) :=
  let step := lh_chunked_forward_step h in
  _ ← assert_ (0 <? step);
  foldR (fun output i =>
           let chunk := zslice weight i (i + step) in
           assign_slice output i step ((fun row => dot_float row x) <$> chunk))
    (replicate (Z.to_nat (lh_out_features h)) None) (range_step (lh_out_features h) step).

Definition is_half (d : float_dtype) : bool := match d with Float16 | BFloat16 => true | Float32 => false end.

(** Are the logits computed in chunks? *)
Definition chunks (h : LMHead) : bool := is_half (lh_dtype h) && lh_on_cpu h && lh_use_chunked_forward h.

(** [forward] on one hidden state. *)
Definition lm_head_forward (h : LMHead) (x : hidden) : result (list (option logit)) :=
  weight ← get_or AttributeError (lh_weight h);
  if chunks h then chunked_forward h weight x
  else Ok (Some <$> ((fun row => dot row x) <$> weight)).

(** ** Chunks make no difference *)

(** The output after [k] chunks. *)
Definition filled (values : list logit) (m : nat) : list (option logit) :=
  (Some <$> take m values) ++ replicate (length values - m) None.

Lemma assign_filled values i step :
  0 < step -> 0 <= i -> i < zlen values ->
  assign_slice (filled values (Z.to_nat i)) i step (take (Z.to_nat step) (drop (Z.to_nat i) values)) =
  Ok (filled values (Z.to_nat (i + step))).
Proof.
  intros Hs H0 Hi. unfold zlen in Hi. set (a := Z.to_nat i). set (t := Z.to_nat step). set (n := length values).
  assert (Hlen : length (filled values a) = n).
  { unfold filled. rewrite length_app, length_fmap, length_take, length_replicate. fold n. lia. }
  unfold assign_slice, zlen. rewrite Hlen. fold a t.
  assert (Hp : (Z.to_nat (Z.min (i + step) (Z.of_nat n)) - a)%nat = (t `min` (n - a))%nat) by lia. rewrite Hp.
  rewrite length_take, length_drop. fold n. rewrite Nat.eqb_refl.
  f_equal. unfold filled. fold n. replace (Z.to_nat (i + step)) with (a + t)%nat by lia.
  rewrite take_app_length' by (rewrite length_fmap, length_take; lia).
  rewrite drop_app_ge by (rewrite length_fmap, length_take; lia).
  rewrite drop_replicate, length_fmap, length_take. rewrite app_assoc, <- fmap_app. f_equal.
  - f_equal. rewrite <- (take_drop a (take (a + t) values)). f_equal.
    + by rewrite take_take, Nat.min_l by lia.
    + by rewrite skipn_firstn_comm, Nat.add_comm, Nat.add_sub.
  - f_equal. fold n. lia.
Qed.

Lemma zslice_map {A B} (f : A -> B) (l : list A) a b : f <$> zslice l a b = zslice (f <$> l) a b.
Proof. unfold zslice, clamp. by rewrite length_fmap, fmap_take, fmap_drop. Qed.

(** however large the chunks, every logit is computed, once, and is the one that a single multiplication in
    float32 gives. *)
Theorem chunked_forward_linear h weight x :
  zlen weight = lh_out_features h -> 0 < lh_chunked_forward_step h ->
  chunked_forward h weight x = Ok (Some <$> ((fun row => dot_float row x) <$> weight)).
Proof.
  intros Hw Hs. unfold chunked_forward. set (step := lh_chunked_forward_step h) in *.
  assert ((0 <? step) = true) as -> by lia. cbn [assert_ mbind result_bind]. rewrite <- Hw.
  set (values := (fun row => dot_float row x) <$> weight).
  assert (Hv : zlen values = zlen weight) by (unfold values, zlen; by rewrite length_fmap).
  assert (Hk : forall k, (Z.of_nat k <= (zlen weight + step - 1) / step) ->
    foldR (fun output i => assign_slice output i step ((fun row => dot_float row x) <$> zslice weight i (i + step)))
      (replicate (Z.to_nat (zlen weight)) None) ((fun k => Z.of_nat k * step) <$> seq 0 k)
    = Ok (filled values (Z.to_nat (Z.of_nat k * step)))).
  { induction k as [|k IH]; intros Hle.
    - cbn [seq fmap list_fmap foldR]. unfold filled. change (Z.to_nat (Z.of_nat 0 * step)) with 0%nat.
      rewrite take_0, Nat.sub_0_r. cbn [fmap list_fmap app]. do 2 f_equal. unfold values, zlen. rewrite length_fmap. lia.
    - rewrite seq_S, fmap_app, foldR_app, IH by lia. cbn [mbind result_bind fmap list_fmap foldR].
      rewrite Nat.add_0_l, zslice_map, zslice_nonneg by nia. fold values.
      replace (Z.to_nat (Z.of_nat k * step + step - Z.of_nat k * step)) with (Z.to_nat step) by lia.
      assert (Z.of_nat k * step < zlen values).
      { rewrite Hv. pose proof (Z.mul_div_le (zlen weight + step - 1) step Hs). nia. }
      rewrite assign_filled by (lia || nia). do 2 f_equal. lia. }
  unfold range_step. pose proof (zlen_nonneg weight) as H0.
  assert (Hq : 0 <= (zlen weight + step - 1) / step) by (apply Z.div_pos; lia).
  rewrite Hk by lia. rewrite Z2Nat.id by lia. f_equal. unfold filled.
  assert (Hge : zlen weight <= (zlen weight + step - 1) / step * step).
  { pose proof (Z.mod_pos_bound (zlen weight + step - 1) step Hs).
    pose proof (Z.div_mod (zlen weight + step - 1) step). lia. }
  unfold zlen in *. rewrite take_ge by lia.
  replace (length values - _)%nat with 0%nat by lia. by rewrite app_nil_r.
Qed.

(** What the head computes, when it computes anything. *)
Definition logits_of (h : LMHead) (weight : list weight_row) (x : hidden) : list logit :=
  (fun row => (if chunks h then dot_float else dot) row x) <$> weight.

Lemma lm_head_forward_ok h weight x :
  lh_weight h = Some weight -> zlen weight = lh_out_features h -> 0 < lh_chunked_forward_step h ->
  lm_head_forward h x = Ok (Some <$> logits_of h weight x).
Proof.
  intros Hh Hw Hs. unfold lm_head_forward, logits_of. rewrite Hh. cbn.
  destruct (chunks h); [by apply chunked_forward_linear|done].
Qed.

(** A head without chunks fails in no case, one with chunks only if the chunks are empty. *)
Lemma chunked_forward_fails h weight x :
  lh_chunked_forward_step h <= 0 -> chunked_forward h weight x = Err AssertionError.
Proof. intros Hs. unfold chunked_forward. by assert ((0 <? lh_chunked_forward_step h) = false) as -> by lia. Qed.
End lm_head.

(** ** An example: five rows in chunks of two *)

#[export] Instance ZLinear : Linear :=
  {| hidden := Z; weight_row := Z; logit := Z; dot w x := w * x; dot_float w x := w * x |}.

Definition small_head : LMHead (LN := ZLinear) := mkHead (LN := ZLinear) (Some [1; 2; 3; 4; 5]) BFloat16 true 5 true 2.

Lemma chunked_forward_linear_witness :
  chunked_forward (LN := ZLinear) small_head [1; 2; 3; 4; 5] 10 = Ok [Some 10; Some 20; Some 30; Some 40; Some 50].
Proof. apply (chunked_forward_linear (LN := ZLinear) small_head [1; 2; 3; 4; 5] 10); [reflexivity|reflexivity]. Defined.
