(* ===== verification/Generation.v ===== *)
(** * Generation: [client/remote_generation.py], [client/ptune.py] and the models in [models]

    Generating text over remote blocks: [generate] prepares a session, hands over to the loop of transformers and
    keeps what it generated for the next call.  The loop asks the model which tokens are not processed yet and
    runs them through the session.  The batch has a uniform shape: a column of token ids is one [tid]. *)

From S2P Require Import Prelude PyString PyFloat PyDict DataStructures Utils Dht SequenceInfo SequenceManager.
From S2P Require Import Effects Interfaces InferenceSession SequentialAutograd RemoteSequential LMHead.

(** ** The parts of transformers

    The embeddings and norms of a model; [generate] of [GenerationMixin], which runs the model on all tokens so far,
    appends the token that the processors and the sampling choose ([select]), and stops at the limit or when the
    sequence is [finished]; and [prepare_inputs_for_generation] of the models that do not define their own, which
    keeps the tokens that the cache has not seen, given all but a processed prefix of them. *)
Class Transformers {BK : Blocks} {LN : Linear} := {
  tid : Type;
  word_embeddings : tid -> token;
  word_embeddings_layernorm : token -> token;
  ln_f : token -> hidden;
  select : list tid -> list logit -> tid;
  finished : list tid -> bool;
  super_start : option (list tid) -> list tid;
  super_limit : option Z -> option Z -> Z -> Z;
  super_supports_cache_class : bool;
  super_prepare : list tid -> Z -> option Z -> list tid * option (list Z) * option (list Z);
  super_generate : forall {W}, (list tid -> Z -> option nat -> prog W (list logit * nat)) -> Z -> list tid ->
    option nat -> prog W (list tid);
  super_start_some : forall ids, super_start (Some ids) = ids;
  super_limit_new : forall max_length k n, super_limit max_length (Some k) n = n + k;
  super_limit_length : forall l n, super_limit (Some l) None n = l;
  super_prepare_rest : forall text cut seen, 0 <= cut -> cut <= seen -> seen < zlen text ->
    exists cache_position, super_prepare (zslice text cut (zlen text)) (zlen text) (Some seen) =
      (zslice text seen (zlen text), Some (zrange seen (zlen text)), cache_position) /\
      (cache_position = None \/ cache_position = Some (zrange seen (zlen text)));
  super_generate_step : forall W (iteration : list tid -> Z -> option nat -> prog W (list logit * nat)) limit ids past w,
    zlen ids < limit ->
    super_generate iteration limit ids past w =
      (iteration ids (zlen ids) past ≫= fun '(scores, past') =>
         let ids' := ids ++ [select ids scores] in
         if finished ids' || (limit <=? zlen ids') then ret ids'
         else super_generate iteration limit ids' (Some past')) w;
}.

Section generation.
Context {PI : PeerIds} {RT : Router} {BK : Blocks} {IS : InferenceServer} {SS : SpanServer} {LY : Layout}.
Context {LN : Linear} {TF : Transformers}.
Context (net : nat -> option exn).
Context (payload_size : list (list row) -> list (list prm) -> Z) (MAX_UNARY_PAYLOAD_SIZE : Z) (args_schema : Z).
Abbreviation client := (@client PI RT BK IS tid).
Context (views : client -> list task) (after : client -> router).

(** Fuel of a step of a session: the number of attempts. *)
Context (fuel : nat).
Abbreviation h_forward := (forward net payload_size MAX_UNARY_PAYLOAD_SIZE args_schema views after fuel).
Implicit Types (st : client).

(** ** Prompt tuning *)

(** A client model: the configuration, its prompts and its head. *)
Record model := mkModel {
  md_tuning_mode : option string;
  md_pre_seq_len : Z;
  md_batch_size : Z;
  md_hidden_size : Z;
  md_prompt_embeddings : list token;
  md_intermediate_prompts : list Z * list prompt;
  md_lm_head : LMHead;
}.

(** [tuning_mode and "ptune" in tuning_mode] *)
Definition uses_ptune (tuning_mode : option string) : bool :=
  match tuning_mode with
  | None => false
  | Some mode => match String.index 0 "ptune" mode with Some _ => true | None => false end
  end.

(** [init_prompts]: which embeddings are created.  The message of the [NotImplementedError] reads an attribute
    that a model does not have. *)
Inductive prompt_parameters := NoPrompts | PromptEmbeddings | DeepPromptEmbeddings.

Definition init_prompts (tuning_mode : option string) (pre_seq_len : Z) : result prompt_parameters :=
  if uses_ptune tuning_mode then
    _ ← assert_ (0 <? pre_seq_len);
    Ok (if bool_decide (tuning_mode = Some "deep_ptune") then DeepPromptEmbeddings else PromptEmbeddings)
  else
    match tuning_mode with
    | Some mode => if String.eqb mode "" then Ok NoPrompts else Err AttributeError
    | None => Ok NoPrompts
    end.

(** The shape and the data of [DUMMY]. *)
Definition DUMMY : list Z * list prompt := ([0], []).

Definition get_prompt (m : model) : list token * (list Z * list prompt) :=
  (md_prompt_embeddings m,
   if bool_decide (md_tuning_mode m = Some "deep_ptune") then md_intermediate_prompts m else DUMMY).

(** ** RemotePastKeyValues

    The caches are objects, by index. *)

Definition get_seq_length (c : RemotePastKeyValues) : Z := pk_seen_tokens c.
Definition get_max_length (c : RemotePastKeyValues) : option Z := None.

Definition new_cache : prog client nat := fun st =>
  Some (cl_with_caches st (cl_caches st ++ [mkCache 0 None]), Ok (length (cl_caches st))).

Definition update_seen (p : nat) (new_seen : Z) : prog client unit :=
  writes (fun st => cl_with_caches st
    (alter (fun c => mkCache (pk_seen_tokens c + new_seen) (pk_hypo_ids c)) p (cl_caches st))).

Definition reorder_cache (c : RemotePastKeyValues) (beam_idx : list Z) : result RemotePastKeyValues :=
  Err NotImplementedError.

(** [_reorder_cache]: [dataclasses.replace] with a field that the constructor does not take. *)
Definition _reorder_cache (c : RemotePastKeyValues) (beam_idx : list Z) : result RemotePastKeyValues := Err TypeError.

(** [past_key_values.hypo_ids if past_key_values is not None else None] *)
Definition hypo_ids_of (past : option nat) st : option (bool * list Z) :=
  p ← past; c ← cl_caches st !! p; ids ← pk_hypo_ids c; Some (true, ids).

(** The object itself, or a new one. *)
Definition cache_or_new (past : option nat) : prog client nat :=
  match past with Some p => ret p | None => new_cache end.

(** ** The models' forward passes *)

Record model_inputs := mkInputs {
  mi_input_ids : list tid;
  mi_past_key_values : option nat;
  mi_position_ids : option (list Z);
  mi_cache_position : option (list Z);
}.

(** [use_prompts]: prompts go in front of the first tokens of a session. *)
Definition add_prompts (m : model) (inputs_embeds : list token)
    : prog client (bool * list token * option (list Z * list prompt)) :=
  pos ← (if uses_ptune (md_tuning_mode m) then position else ret (-1));
  if uses_ptune (md_tuning_mode m) && (pos =? 0) then
    let '(prompts, intermediate_prompts) := get_prompt m in
    ret (true, prompts ++ inputs_embeds, Some intermediate_prompts)
  else ret (false, inputs_embeds, None).

(** [self.h(hidden_states, prompts=..., hypo_ids=...)] *)
Definition run_h (m : model) (hidden_states : list token) (deep : option (list Z * list prompt)) (past : option nat)
    : prog client (list token) :=
  hypo_ids ← reads (hypo_ids_of past);
  h_forward (mkArgs (md_batch_size m) (md_hidden_size m) hidden_states deep hypo_ids).

(** [hidden_states[:, self.pre_seq_len :] if use_prompts] *)
Definition remove_prefix (m : model) (use_prompts : bool) (hidden_states : list token) : list token :=
  if use_prompts then zslice hidden_states (md_pre_seq_len m) (zlen hidden_states) else hidden_states.

(** The norm and [view(output_shape)]. *)
Definition last_hidden_state (ids : list tid) (hidden_states : list token) : result (list hidden) :=
  _ ← raise_if (negb (zlen hidden_states =? zlen ids)) RuntimeError;
  Ok (ln_f <$> hidden_states).

(** Differences between consecutive positions are one. *)
Fixpoint consecutive (l : list Z) : bool :=
  match l with
  | a :: ((b :: _) as l') => (b - a =? 1) && consecutive l'
  | _ => true
  end.

Definition check_positions (inp : model_inputs) : result unit :=
  _ ← match mi_cache_position inp with
      | None => Ok ()
      | Some c => assert_ (bool_decide (mi_position_ids inp = Some c))
      end;
  assert_ (match mi_position_ids inp with None => true | Some l => consecutive l end).

(** [DistributedBloomModel.forward] *)
Definition bloom_forward (m : model) (inp : model_inputs) : prog client (list hidden * nat) :=
  '(use_prompts, inputs_embeds, deep) ← add_prompts m (word_embeddings <$> mi_input_ids inp);
  hidden_states ← run_h m (word_embeddings_layernorm <$> inputs_embeds) deep (mi_past_key_values inp);
  let hidden_states := remove_prefix m use_prompts hidden_states in
  past ← cache_or_new (mi_past_key_values inp);
  _ ← update_seen past (zlen hidden_states);
  out ← lift (last_hidden_state (mi_input_ids inp) hidden_states);
  ret (out, past).

(** [DistributedLlamaModel.forward]: the prefix counts as seen, and the embeddings have no norm. *)
Definition llama_forward (m : model) (inp : model_inputs) : prog client (list hidden * nat) :=
  _ ← lift (check_positions inp);
  '(use_prompts, hidden_states, deep) ← add_prompts m (word_embeddings <$> mi_input_ids inp);
  hidden_states ← run_h m hidden_states deep (mi_past_key_values inp);
  past ← cache_or_new (mi_past_key_values inp);
  _ ← update_seen past (zlen hidden_states);
  out ← lift (last_hidden_state (mi_input_ids inp) (remove_prefix m use_prompts hidden_states));
  ret (out, past).

(** [DistributedMixtralModel.forward]: the tokens count as seen before they are processed. *)
Definition mixtral_forward (m : model) (inp : model_inputs) : prog client (list hidden * nat) :=
  _ ← lift (assert_ (match mi_position_ids inp with None => true | Some l => consecutive l end));
  '(use_prompts, hidden_states, deep) ← add_prompts m (word_embeddings <$> mi_input_ids inp);
  past ← cache_or_new (mi_past_key_values inp);
  _ ← update_seen past (zlen hidden_states);
  hidden_states ← run_h m hidden_states deep (Some past);
  out ← lift (last_hidden_state (mi_input_ids inp) (remove_prefix m use_prompts hidden_states));
  ret (out, past).

(** [DistributedFalconModel.forward]: every pass answers a new cache object that has seen nothing. *)
Definition falcon_forward (m : model) (inp : model_inputs) : prog client (list hidden * nat) :=
  _ ← lift (assert_ (match mi_position_ids inp with None => true | Some l => consecutive l end));
  '(use_prompts, inputs_embeds, deep) ← add_prompts m (word_embeddings <$> mi_input_ids inp);
  hidden_states ← run_h m inputs_embeds deep (mi_past_key_values inp);
  out ← lift (last_hidden_state (mi_input_ids inp) (remove_prefix m use_prompts hidden_states));
  past ← new_cache;
  ret (out, past).

(** ** prepare_inputs_for_generation

    What the loop passes: all tokens so far, the length of the attention mask, and the cache object. *)

(** [DistributedBloomForCausalLM.prepare_inputs_for_generation]: tokens that the cache has seen are left out. *)
Definition omit_seen (input_ids : list tid) (mask_length : Z) (past_length : Z) : list tid :=
  if zlen input_ids <? mask_length then zslice input_ids (- (mask_length - past_length)) (zlen input_ids)
  else if past_length <? zlen input_ids then zslice input_ids past_length (zlen input_ids)
  else input_ids.

Definition bloom_prepare (input_ids : list tid) (mask_length : Z) (past : option nat) : prog client model_inputs :=
  cache ← reads (fun st => p ← past; cl_caches st !! p);
  let input_ids := match cache with
                   | None => input_ids
                   | Some c => omit_seen input_ids mask_length (get_seq_length c)
                   end in
  let position_ids := zrange 0 mask_length in
  let position_ids := match cache with
                      | None => position_ids
                      | Some _ => zslice position_ids (- zlen input_ids) mask_length
                      end in
  ret (mkInputs input_ids past (Some position_ids) None).

(** [_SkipTokensMixin.prepare_inputs_for_generation] *)
Definition skip_tokens_prepare (input_ids : list tid) (mask_length : Z) (past : option nat) : prog client model_inputs :=
  skipped ← reads cl_skipped;
  let input_ids := zslice input_ids skipped (zlen input_ids) in
  _ ← writes (fun st => cl_with_skipped st 0);
  seen ← reads (fun st => p ← past; get_seq_length <$> cl_caches st !! p);
  let '(ids, position_ids, cache_position) := super_prepare input_ids mask_length seen in
  ret (mkInputs ids past position_ids cache_position).

(** ** generate *)

(** A model with a head: which class prepares the inputs, and which one is run.  The class of BLOOM defines
    [prepare_inputs_for_generation] itself, so the one of [_SkipTokensMixin] is not called. *)
Inductive architecture := Bloom | Falcon | Llama | Mixtral.

Definition prepare_inputs_for_generation (arch : architecture) :=
  match arch with Bloom => bloom_prepare | Falcon | Llama | Mixtral => skip_tokens_prepare end.

Definition model_forward (arch : architecture) :=
  match arch with
  | Bloom => bloom_forward
  | Falcon => falcon_forward
  | Llama => llama_forward
  | Mixtral => mixtral_forward
  end.

Definition supports_cache_class (arch : architecture) : bool :=
  match arch with Bloom => true | Falcon | Llama | Mixtral => super_supports_cache_class end.

(** The logits of the last position; all of them are defined. *)
Definition last_logits (m : model) (hidden_states : list hidden) : result (list logit) :=
  x ← get_or IndexError (last hidden_states);
  scores ← lm_head_forward (md_lm_head m) x;
  get_or RuntimeError (mapM id scores).

(** What the loop does for one token: prepare the inputs, run the model, take the last logits. *)
Definition iteration (arch : architecture) (m : model) (input_ids : list tid) (mask_length : Z) (past : option nat)
    : prog client (list logit * nat) :=
  inp ← prepare_inputs_for_generation arch input_ids mask_length past;
  '(hidden_states, past') ← model_forward arch m inp;
  scores ← lift (last_logits m hidden_states);
  ret (scores, past').

Inductive do_sample_value := SampleBool (b : bool) | SampleInt (n : Z).

(** The keyword arguments that the wrapper looks at; [Some None] is an explicit [None]. *)
Record gen_kwargs := mkKwargs {
  gk_input_ids : option (list tid);
  gk_max_length : option (option Z);
  gk_max_new_tokens : option Z;
  gk_do_sample : option do_sample_value;
  gk_past_key_values : option nat;
}.

Definition _fix_generate_kwargs (kw : gen_kwargs) : gen_kwargs :=
  mkKwargs (gk_input_ids kw)
    (match gk_max_length kw with Some None => None | o => o end)
    (gk_max_new_tokens kw)
    (match gk_do_sample kw with Some (SampleInt n) => Some (SampleBool (negb (n =? 0))) | o => o end)
    (gk_past_key_values kw).

(** [kwargs.get("max_length")] *)
Definition get_max (kw : gen_kwargs) : option Z := gk_max_length kw ≫= id.

(** [session_max_length] *)
Definition session_length (m : model) (inputs : option (list tid)) (kw : gen_kwargs) : result Z :=
  _ ← assert_ (negb (Bool.eqb (is_none (get_max kw)) (is_none (gk_max_new_tokens kw))));
  match get_max kw, gk_max_new_tokens kw with
  | Some l, _ => Ok (md_pre_seq_len m + l)
  | None, Some k => Ok (md_pre_seq_len m + (match inputs with Some ids => zlen ids | None => 0 end + k))
  | None, None => Err TypeError
  end.

(** [session.output_ids] *)
Definition get_output_ids (s : nat) st : option (list tid) := cl_sessions st !! s ≫= so_output_ids.
Definition set_output_ids (s : nat) (ids : list tid) : prog client unit :=
  writes (fun st => cl_with_sessions st (alter (fun so => mkSessionObject (so_session so) (Some ids)) s (cl_sessions st))).

(** [session.last_token_id]: the last column of [output_ids], which can be replaced. *)
Definition last_token_id (s : nat) st : option (list tid) :=
  ids ← get_output_ids s st; Some (zslice ids (-1) (zlen ids)).

Definition set_last_token_id (s : nat) (value : tid) : prog client unit :=
  ids ← reads (get_output_ids s);
  match ids with
  | None => raise RuntimeError
  | Some ids => set_output_ids s (match ids with [] => [] | _ => removelast ids ++ [value] end)
  end.

(** The tokens to start from: those of the previous call in this session come first. *)
Definition resumed_inputs (prev : list tid) (inputs : option (list tid)) : option (list tid) :=
  if 0 <? zlen prev then Some (prev ++ default [] inputs) else inputs.

(** The body of [with context_manager as session]. *)
Definition generate_in (arch : architecture) (m : model) (inputs : option (list tid)) (kw : gen_kwargs) (s : nat)
    : prog client (list tid) :=
  prev ← reads (fun st => default [] (get_output_ids s st));
  let n_prev_tokens := zlen prev in
  let inputs := resumed_inputs prev inputs in
  _ ← (if 0 <? n_prev_tokens then writes (fun st => cl_with_skipped st (Z.max 0 (n_prev_tokens - 1))) else ret ());
  past ← (if supports_cache_class arch && is_none (gk_past_key_values kw) then
            p ← new_cache;
            pos ← on_session s (fun w => Some (w, Ok (is_position w)));
            _ ← update_seen p pos;
            ret (Some p)
          else ret (gk_past_key_values kw));
  let ids := super_start inputs in
  sequences ← super_generate (iteration arch m) (super_limit (get_max kw) (gk_max_new_tokens kw) (zlen ids)) ids past;
  _ ← set_output_ids s sequences;
  ret (zslice sequences n_prev_tokens (zlen sequences)).

Definition generate (arch : architecture) (m : model) (inputs : option (list tid)) (session : option nat)
    (kw : gen_kwargs) : prog client (list tid) :=
  let kw := _fix_generate_kwargs kw in
  let inputs := match inputs with Some ids => Some ids | None => gk_input_ids kw end in
  active ← active_session;
  match session, active with
  | Some s, _ => use_session (Some s) (generate_in arch m inputs kw s)
  | None, Some s => generate_in arch m inputs kw s
  | None, None =>
      session_max_length ← lift (session_length m inputs kw);
      inference_session net session_max_length (generate_in arch m inputs kw)
  end.
End generation.

(** ** Generating in a session is decoding *)

(** Opens the first statement of a program that returned. *)
Tactic Notation "open_run" hyp(H) "as" ident(st) ident(a) ident(E) := apply bind_returns in H as (st & a & E & H).

Section generation_proofs.
Context {PI : PeerIds} {RT : Router} {BK : Blocks} {IS : InferenceServer} {SS : SpanServer} {LY : Layout}.
Context {LN : Linear} {TF : Transformers}.
Context (net : nat -> option exn).
Context (payload_size : list (list row) -> list (list prm) -> Z) (MAX_UNARY_PAYLOAD_SIZE : Z) (args_schema : Z).
Abbreviation client := (@client PI RT BK IS tid).
Context (views : client -> list task) (after : client -> router) (fuel : nat).
Abbreviation h_forward := (forward net payload_size MAX_UNARY_PAYLOAD_SIZE args_schema views after fuel).
Abbreviation model_forward := (model_forward net payload_size MAX_UNARY_PAYLOAD_SIZE args_schema views after fuel).
Abbreviation iteration := (iteration net payload_size MAX_UNARY_PAYLOAD_SIZE args_schema views after fuel).
Abbreviation generate_in := (generate_in net payload_size MAX_UNARY_PAYLOAD_SIZE args_schema views after fuel).
Abbreviation generate := (generate net payload_size MAX_UNARY_PAYLOAD_SIZE args_schema views after fuel).
Implicit Types (st : client) (ids : list tid).

(** What enters the first block for a token. *)
Definition embed (arch : architecture) (t : tid) : token :=
  match arch with Bloom => word_embeddings_layernorm (word_embeddings t) | _ => word_embeddings t end.

(** *** The reference: decoding without caches

    The whole model on the whole text for every token. *)
Definition next_token (arch : architecture) (m : model) (weight : list weight_row) (N : Z) ids : option tid :=
  x ← last (run_blocks 0 N (embed arch <$> ids));
  Some (select ids (logits_of (md_lm_head m) weight (ln_f x))).

Fixpoint decode (arch : architecture) (m : model) (weight : list weight_row) (N : Z) (n : nat) ids : list tid :=
  match n with
  | O => ids
  | S n' =>
      match next_token arch m weight N ids with
      | None => ids
      | Some t => let ids' := ids ++ [t] in if finished ids' then ids' else decode arch m weight N n' ids'
      end
  end.

(** A model without prompt tuning whose head has weights for the whole vocabulary. *)
Record plain_model (m : model) (weight : list weight_row) : Prop := {
  pm_tuning : uses_ptune (md_tuning_mode m) = false;
  pm_weight : lh_weight (md_lm_head m) = Some weight;
  pm_rows : zlen weight = lh_out_features (md_lm_head m);
  pm_step : 0 < lh_chunked_forward_step (md_lm_head m);
}.

Lemma last_logits_ok m weight (l : list hidden) x :
  plain_model m weight -> last l = Some x -> last_logits m l = Ok (logits_of (md_lm_head m) weight x).
Proof.
  intros [_ Hw Hr Hs] Hl. unfold last_logits. rewrite Hl. cbn [get_or mbind result_bind].
  rewrite (lm_head_forward_ok _ _ _ Hw Hr Hs). cbn [mbind result_bind].
  assert (forall l : list logit, mapM id (Some <$> l) = Some l) as ->; [|done].
  induction l0 as [|y l0 IH]; [done|]. cbn [fmap list_fmap mapM]. fold (@fmap list _ _ _ (@Some logit) l0). by rewrite IH.
Qed.

(** *** The state between two tokens *)

(** The session [i] has processed the first [s] tokens, and the cache object [p] knows. *)
Record generating (arch : architecture) (i p : nat) (s : nat) ids st : Prop := {
  gn_active : cl_active st = Some i;
  gn_blocks : 0 < num_blocks st;
  gn_session : session_at st i (embed arch <$> take s ids);
  gn_seen : cl_caches st !! p = Some (mkCache (Z.of_nat s) None);
  gn_skipped : arch = Bloom \/ 0 <= cl_skipped st <= Z.of_nat s;
}.

(** Everything but the session, the caches and the skipped tokens. *)
Definition same_but (i : nat) st st' : Prop := same_client i (cl_with_skipped st 0) (cl_with_skipped st' 0).

#[global] Instance same_but_preorder i : PreOrder (same_but i).
Proof. split; [intros st; unfold same_but; reflexivity|]. intros st1 st2 st3 H1 H2. unfold same_but in *. by etransitivity. Qed.

Lemma same_client_but i st st' : same_client i st st' -> same_but i st st'.
Proof. intros []. by split. Qed.

Lemma caches_but i st l : same_but i st (cl_with_caches st l).
Proof. by split. Qed.

Lemma skipped_but i st n : same_but i st (cl_with_skipped st n).
Proof. by split. Qed.

Lemma same_but_blocks i st st' : same_but i st st' -> num_blocks st' = num_blocks st.
Proof. intros H. exact (f_equal zlen (sc_uids _ _ _ H)). Qed.

Lemma session_at_skipped st i text n : session_at (cl_with_skipped st n) i text <-> session_at st i text.
Proof. done. Qed.

(** *** Preparing the inputs *)

Lemma consecutive_zrange a b : consecutive (zrange a b) = true.
Proof.
  remember (Z.to_nat (b - a)) as n eqn:Hn. revert a Hn. induction n as [|n IH]; intros a Hn.
  - by rewrite zrange_nil by lia.
  - rewrite zrange_cons by lia. specialize (IH (a + 1) ltac:(lia)).
    destruct (Z.ltb_spec (a + 1) b).
    + rewrite zrange_cons in * by lia. cbn [consecutive] in *. rewrite IH. by replace (a + 1 - a =? 1) with true by lia.
    + by rewrite zrange_nil by lia.
Qed.

Lemma zslice_rest {A} (l : list A) (s : nat) : (s <= length l)%nat -> zslice l (Z.of_nat s) (zlen l) = drop s l.
Proof. intros. rewrite zslice_drop by lia. by rewrite Nat2Z.id. Qed.

(** The inputs are the tokens that are not processed yet. *)
Lemma prepare_rest arch i p s ids st :
  arch <> Falcon -> generating arch i p s ids st -> (s < length ids)%nat ->
  exists inp st1, prepare_inputs_for_generation arch ids (zlen ids) (Some p) st = Some (st1, Ok inp) /\
    mi_input_ids inp = drop s ids /\ mi_past_key_values inp = Some p /\
    (arch = Bloom \/ check_positions inp = Ok ()) /\
    generating arch i p s ids st1 /\ same_but i st st1 /\ cl_caches st1 = cl_caches st /\
    (arch = Bloom \/ cl_skipped st1 = 0).
Proof.
  intros Harch Hg Hs. destruct Hg as [Ha HN Hsess Hc Hsk]. assert (arch = Bloom \/ arch <> Bloom) as [->|Hb] by (destruct arch; auto).
  - cbn [prepare_inputs_for_generation]. unfold bloom_prepare.
    rewrite (bind_ok _ _ _ st (Some (mkCache (Z.of_nat s) None))); [|unfold reads; cbn; by rewrite Hc].
    eexists _, st. split; [done|]. split; [|split; [done|]].
    + cbn [mi_input_ids get_seq_length pk_seen_tokens]. unfold omit_seen. rewrite Z.ltb_irrefl.
      assert ((Z.of_nat s <? zlen ids) = true) as -> by (unfold zlen; lia). apply zslice_rest. lia.
    + split; [by left|]. split; [by split|]. split; [reflexivity|]. split; [done|by left].
  - destruct Hsk as [?|Hsk]; [done|].
    assert (Hp : prepare_inputs_for_generation arch = skip_tokens_prepare) by (by destruct arch). rewrite Hp.
    unfold skip_tokens_prepare. rewrite (bind_ok _ _ _ st (cl_skipped st)) by done.
    rewrite (bind_ok _ _ _ (cl_with_skipped st 0) ()) by done.
    rewrite (bind_ok _ _ _ (cl_with_skipped st 0) (Some (Z.of_nat s))); [|unfold reads; cbn; by rewrite Hc].
    destruct (super_prepare_rest ids (cl_skipped st) (Z.of_nat s)) as (cp & -> & Hcp);
      [lia|lia|unfold zlen; lia|].
    eexists _, (cl_with_skipped st 0). split; [done|]. cbn [mi_input_ids mi_past_key_values].
    split; [apply zslice_rest; lia|]. split; [done|]. split.
    + right. unfold check_positions. cbn [mi_cache_position mi_position_ids]. rewrite consecutive_zrange.
      by destruct Hcp as [->| ->]; [|rewrite bool_decide_true by done].
    + split; [split; [done|done|done|done|right; cbn; lia]|]. split; [apply skipped_but|]. split; [done|by right].
Qed.

(** *** Running the model *)

Lemma add_prompts_none m l st : uses_ptune (md_tuning_mode m) = false -> add_prompts m l st = Some (st, Ok (false, l, None)).
Proof. intros H. unfold add_prompts. rewrite H. rewrite (bind_ok _ _ _ st (-1)) by done. done. Qed.

(** The session after the hidden states [x], which come after [text]. *)
Lemma run_h_ok m x c p st st' i text out :
  cl_active st = Some i -> 0 < num_blocks st -> session_at st i text -> cl_caches st !! p = Some (mkCache c None) ->
  run_h net payload_size MAX_UNARY_PAYLOAD_SIZE args_schema views after fuel m x None (Some p) st = Some (st', Ok out) ->
  out = drop (length text) (run_blocks 0 (num_blocks st) (text ++ x)) /\ session_at st' i (text ++ x) /\
  same_client i st st' /\ cl_caches st' = cl_caches st.
Proof.
  intros Ha HN Hs Hc H. unfold run_h in H. open_run H as st1 hypo Hh. injection Hh as <- <-.
  cbn in H. rewrite Hc in H. by eapply forward_step in H.
Qed.

(** The cache object after [n] more tokens. *)
Definition seen_more (p : nat) (n : Z) st : client :=
  cl_with_caches st (alter (fun c => mkCache (pk_seen_tokens c + n) (pk_hypo_ids c)) p (cl_caches st)).

Lemma seen_more_lookup p n st c :
  cl_caches st !! p = Some (mkCache c None) -> cl_caches (seen_more p n st) !! p = Some (mkCache (c + n) None).
Proof. intros H. cbn. by rewrite list_lookup_alter_eq, H. Qed.

Lemma seen_more_same i p n st st' : same_client i st st' -> same_client i st (seen_more p n st').
Proof. intros []. by split. Qed.

Lemma last_hidden_state_ok ids l : length l = length ids -> last_hidden_state ids l = Ok (ln_f <$> l).
Proof. intros H. unfold last_hidden_state, zlen. by rewrite H, Z.eqb_refl. Qed.

Lemma embed_split arch ids s : (embed arch <$> take s ids) ++ (embed arch <$> drop s ids) = embed arch <$> ids.
Proof. by rewrite <- fmap_app, take_drop. Qed.

Lemma rest_length arch N ids s :
  length (drop (length (embed arch <$> take s ids)) (run_blocks 0 N (embed arch <$> ids))) = length (drop s ids).
Proof. rewrite length_drop, length_fmap, run_blocks_length, length_fmap, length_take, length_drop. lia. Qed.

Lemma forward_rest arch m i p s ids inp st st' out past' :
  arch <> Falcon -> uses_ptune (md_tuning_mode m) = false -> generating arch i p s ids st -> (s < length ids)%nat ->
  mi_input_ids inp = drop s ids -> mi_past_key_values inp = Some p ->
  model_forward arch m inp st = Some (st', Ok (out, past')) ->
  past' = p /\ out = ln_f <$> drop s (run_blocks 0 (num_blocks st) (embed arch <$> ids)) /\
  session_at st' i (embed arch <$> ids) /\ cl_caches st' !! p = Some (mkCache (zlen ids) None) /\
  same_client i st st'.
Proof.
  intros Harch Hpt [Ha HN Hs Hc _] Hlt Hids Hpast H.
  assert (Hn : zlen (drop s ids) = zlen ids - Z.of_nat s) by (unfold zlen; rewrite length_drop; lia).
  assert (Hdrop : forall N, drop (length (embed arch <$> take s ids)) (run_blocks 0 N (embed arch <$> ids)) =
    drop s (run_blocks 0 N (embed arch <$> ids))) by (intros; rewrite length_fmap, length_take, Nat.min_l by lia; done).
  pose proof (fun N => rest_length arch N ids s) as Hlen.
  destruct arch; [|done| |]; cbn [Generation.model_forward] in H.
  - unfold bloom_forward in H. rewrite (bind_ok _ _ _ _ _ (add_prompts_none m _ st Hpt)), Hpast, Hids in H.
    open_run H as st1 hs Hrun. rewrite <- list_fmap_compose in Hrun.
    apply (run_h_ok _ _ _ _ _ _ _ _ _ Ha HN Hs Hc) in Hrun as (-> & Hs1 & Hsame & Hc1).
    change (fmap (compose word_embeddings_layernorm word_embeddings) (drop s ids)) with (embed Bloom <$> drop s ids) in *.
    rewrite embed_split in *. specialize (Hlen (num_blocks st)).
    rewrite (bind_ok _ _ _ st1 p) in H by done. cbn [remove_prefix] in H.
    rewrite (bind_ok _ _ _ (seen_more p (zlen (drop s ids)) st1) ()) in H by (unfold update_seen, zlen; by rewrite Hlen).
    rewrite (bind_lift _ _ _ _ (last_hidden_state_ok _ _ Hlen)) in H.
    injection H as <- <- <-. rewrite Hdrop. split; [done|]. split; [done|]. split; [exact Hs1|]. split; [|by apply seen_more_same].
    rewrite (seen_more_lookup _ _ _ (Z.of_nat s)) by (by rewrite Hc1). do 2 f_equal. lia.
  - unfold llama_forward in H. open_run H as st1 u Hu. injection Hu as <- Hu.
    rewrite (bind_ok _ _ _ _ _ (add_prompts_none m _ st Hpt)), Hpast, Hids in H.
    open_run H as st1 hs Hrun. change (word_embeddings <$> drop s ids) with (embed Llama <$> drop s ids) in *.
    apply (run_h_ok _ _ _ _ _ _ _ _ _ Ha HN Hs Hc) in Hrun as (-> & Hs1 & Hsame & Hc1).
    rewrite embed_split in *. specialize (Hlen (num_blocks st)).
    rewrite (bind_ok _ _ _ st1 p) in H by done. cbn [remove_prefix] in H.
    rewrite (bind_ok _ _ _ (seen_more p (zlen (drop s ids)) st1) ()) in H by (unfold update_seen, zlen; by rewrite Hlen).
    rewrite (bind_lift _ _ _ _ (last_hidden_state_ok _ _ Hlen)) in H.
    injection H as <- <- <-. rewrite Hdrop. split; [done|]. split; [done|]. split; [exact Hs1|]. split; [|by apply seen_more_same].
    rewrite (seen_more_lookup _ _ _ (Z.of_nat s)) by (by rewrite Hc1). do 2 f_equal. lia.
  - unfold mixtral_forward in H. open_run H as st1 u Hu. injection Hu as <- Hu.
    rewrite (bind_ok _ _ _ _ _ (add_prompts_none m _ st Hpt)), Hpast, Hids in H.
    rewrite (bind_ok _ _ _ st p) in H by done.
    rewrite (bind_ok _ _ _ (seen_more p (zlen (drop s ids)) st) ()) in H by (unfold update_seen, zlen; by rewrite length_fmap).
    open_run H as st1 hs Hrun. change (word_embeddings <$> drop s ids) with (embed Mixtral <$> drop s ids) in *.
    apply (run_h_ok _ _ (Z.of_nat s + zlen (drop s ids)) _ (seen_more p (zlen (drop s ids)) st) _ i _ _ Ha HN Hs) in Hrun
      as (-> & Hs1 & Hsame & Hc1); [|by apply seen_more_lookup].
    change (num_blocks (seen_more p (zlen (drop s ids)) st)) with (num_blocks st) in *.
    rewrite embed_split in *. specialize (Hlen (num_blocks st)). cbn [remove_prefix] in H.
    rewrite (bind_lift _ _ _ _ (last_hidden_state_ok _ _ Hlen)) in H.
    injection H as <- <- <-. rewrite Hdrop. split; [done|]. split; [done|]. split; [exact Hs1|]. split.
    + rewrite Hc1, (seen_more_lookup _ _ _ (Z.of_nat s)) by done. do 2 f_equal. lia.
    + destruct Hsame. by split.
Qed.

(** *** One token *)

Lemma last_drop {A} (l : list A) s : (s < length l)%nat -> last (drop s l) = last l.
Proof.
  intros Hs. rewrite <- (take_drop s l) at 2. rewrite last_app. destruct (last (drop s l)) eqn:E; [done|].
  apply last_None, (f_equal length) in E. rewrite length_drop in E. simpl in E. lia.
Qed.

Lemma iteration_ok arch m weight i p s ids st st' scores past' :
  arch <> Falcon -> plain_model m weight -> generating arch i p s ids st -> (s < length ids)%nat ->
  iteration arch m ids (zlen ids) (Some p) st = Some (st', Ok (scores, past')) ->
  past' = p /\
  next_token arch m weight (num_blocks st) ids = Some (select ids scores) /\
  (forall t, generating arch i p (length ids) (ids ++ [t]) st') /\ same_but i st st' /\
  (arch = Bloom \/ cl_skipped st' = 0).
Proof.
  intros Harch Hm Hg Hlt H. unfold Generation.iteration in H.
  destruct (prepare_rest arch i p s ids st Harch Hg Hlt) as (inp & st1 & Hprep & Hids & Hpast & _ & Hg1 & Hb1 & _ & Hsk).
  rewrite (bind_ok _ _ _ _ _ Hprep) in H. open_run H as st2 r Hf. destruct r as [out past].
  apply (forward_rest _ _ i p s ids) in Hf as (-> & -> & Hs2 & Hc2 & Hsame); [|done|apply Hm|done|done|done|done].
  assert (Hl : last (run_blocks 0 (num_blocks st1) (embed arch <$> ids)) <> None).
  { intros Hz%last_None. apply (f_equal length) in Hz. rewrite run_blocks_length, length_fmap in Hz. simpl in Hz. lia. }
  destruct (last _) as [x|] eqn:Hx; [|done]. clear Hl.
  assert (Hlast : last (ln_f <$> drop s (run_blocks 0 (num_blocks st1) (embed arch <$> ids))) = Some (ln_f x)).
  { rewrite fmap_last, last_drop by (rewrite run_blocks_length, length_fmap; lia). by rewrite Hx. }
  rewrite (bind_lift _ _ _ _ (last_logits_ok _ _ _ _ Hm Hlast)) in H. injection H as <- <- <-.
  rewrite (same_but_blocks _ _ _ Hb1) in Hx. split; [done|]. split; [unfold next_token; by rewrite Hx|].
  assert (Hsk2 : arch = Bloom \/ cl_skipped st2 = 0).
  { destruct Hsk as [?|Hsk]; [by left|right]. by rewrite (sc_skipped _ _ _ Hsame). }
  split; [|split; [by transitivity st1; [|apply same_client_but]|done]].
  intros t. destruct Hg1 as [Ha1 HN1 _ _ _]. split.
  - by rewrite (sc_active _ _ _ Hsame).
  - unfold num_blocks in *. by rewrite (sc_uids _ _ _ Hsame).
  - by rewrite take_app_length.
  - exact Hc2.
  - destruct Hsk2 as [?|Hz]; [by left|right; lia].
Qed.

(** *** The loop *)

Lemma loop_decodes arch m weight i p n : forall s ids st st' out limit,
  arch <> Falcon -> plain_model m weight -> generating arch i p s ids st -> (s < length ids)%nat ->
  zlen ids < limit -> n = Z.to_nat (limit - zlen ids) ->
  super_generate (iteration arch m) limit ids (Some p) st = Some (st', Ok out) ->
  out = decode arch m weight (num_blocks st) n ids /\ (length ids < length out)%nat /\
  session_at st' i (embed arch <$> take (length out - 1) out) /\ same_but i st st' /\
  (arch = Bloom \/ cl_skipped st' = 0).
Proof.
  induction n as [|n IH]; intros s ids st st' out limit Harch Hm Hg Hlt Hlim Hn H; [lia|].
  rewrite super_generate_step in H by done. open_run H as st1 r Hit. destruct r as [scores past'].
  apply (iteration_ok arch m weight i p s) in Hit as (-> & Hnext & Hg1 & Hb1 & Hsk); [|done..].
  cbn [decode]. rewrite Hnext. cbv zeta in H |- *. set (t := select ids scores) in *. set (ids' := ids ++ [t]) in *.
  assert (Hl' : zlen ids' = zlen ids + 1) by (unfold ids'; by rewrite zlen_app).
  assert (Hlen' : length ids' = S (length ids)) by (unfold ids'; rewrite length_app; simpl; lia).
  assert (Hstop : forall st2, Some (st1, Ok ids') = Some (st2, Ok out) ->
    out = ids' /\ (length ids < length out)%nat /\ session_at st2 i (embed arch <$> take (length out - 1) out) /\
    same_but i st st2 /\ (arch = Bloom \/ cl_skipped st2 = 0)).
  { intros st2 Heq. injection Heq as <- <-. split; [done|]. split; [lia|]. split; [|done].
    destruct (Hg1 t) as [_ _ Hs1 _ _]. rewrite Hlen'. by replace (S (length ids) - 1)%nat with (length ids) by lia. }
  destruct (finished ids'); cbn [orb] in H; [by apply Hstop|].
  destruct (Z.leb_spec limit (zlen ids')).
  - apply Hstop in H as (-> & Hrest). split; [|done]. assert (n = 0%nat) as -> by lia. done.
  - apply (IH (length ids)) in H as (-> & Hlen & Hs2 & Hb2 & Hsk2); [|done|done|apply Hg1|lia|done|lia].
    rewrite (same_but_blocks _ _ _ Hb1). split; [done|]. split; [rewrite (same_but_blocks _ _ _ Hb1) in Hlen; lia|].
    rewrite (same_but_blocks _ _ _ Hb1) in Hs2. split; [done|]. split; [by transitivity st1|done].
Qed.

(** *** One call of generate *)

(** Session [i] has generated the text [prev]: the last token is not processed yet. *)
Record resumable (arch : architecture) (i : nat) (prev : list tid) st : Prop := {
  re_blocks : 0 < num_blocks st;
  re_output : default [] (output_ids_of st i) = prev;
  re_session : session_at st i (embed arch <$> take (length prev - 1) prev);
  re_skipped : arch = Bloom \/ prev <> [] \/ cl_skipped st = 0;
}.

(** Where decoding starts and how long the text may become. *)
Definition start_ids (prev : list tid) (inputs : option (list tid)) (kw : gen_kwargs) : list tid :=
  prev ++ default [] (match inputs with Some ids => Some ids | None => gk_input_ids kw end).

Definition limit_of (kw : gen_kwargs) ids : Z := super_limit (get_max kw) (gk_max_new_tokens kw) (zlen ids).

Lemma decode_extends arch m weight N n ids : exists l, decode arch m weight N n ids = ids ++ l.
Proof.
  revert ids. induction n as [|n IH]; intros ids; cbn [decode]; [exists []; by rewrite app_nil_r|].
  destruct (next_token arch m weight N ids) as [t|]; [|exists []; by rewrite app_nil_r].
  destruct (finished _); [by exists [t]|]. destruct (IH (ids ++ [t])) as [l ->]. exists (t :: l). by rewrite <- app_assoc.
Qed.

Lemma session_at_length st i text : session_at st i text ->
  exists so, cl_sessions st !! i = Some so /\ is_position (so_session so) = zlen text.
Proof. intros (so & Hso & [_ Hp _]). exists so. split; [done|exact Hp]. Qed.

(** The state in which the loop starts: a new cache object knows the position of the session. *)
Lemma start_generating arch i prev ids st (pos : Z) so :
  resumable arch i prev st -> cl_active st = Some i -> cl_sessions st !! i = Some so ->
  pos = Z.of_nat (length prev - 1) -> prev `prefix_of` ids -> is_position (so_session so) = pos ->
  let st1 := if 0 <? zlen prev then cl_with_skipped st (Z.max 0 (zlen prev - 1)) else st in
  let st2 := cl_with_caches st1 (cl_caches st1 ++ [mkCache 0 None]) in
  let st4 := seen_more (length (cl_caches st1)) pos (checkin st2 i (checkout st2 so)) in
  generating arch i (length (cl_caches st1)) (length prev - 1) ids st4 /\ same_but i st st4 /\ (arch = Bloom \/ 0 <= cl_skipped st4).
Proof.
  intros [HN Hout Hs Hsk] Ha Hso -> [l ->] Hpos st1 st2 st4.
  assert (Hs1 : cl_sessions st1 = cl_sessions st) by (unfold st1; by destruct (0 <? zlen prev)).
  assert (Ha1 : cl_active st1 = cl_active st) by (unfold st1; by destruct (0 <? zlen prev)).
  assert (Hm1 : cl_manager st1 = cl_manager st) by (unfold st1; by destruct (0 <? zlen prev)).
  assert (Hsk1 : arch = Bloom \/ 0 <= cl_skipped st1 <= Z.of_nat (length prev - 1)).
  { destruct Hsk as [?|Hsk]; [by left|right]. unfold st1, zlen in *. destruct prev as [|t prev].
    - destruct Hsk as [?|Hz]; [done|]. change (0 <? Z.of_nat (length [])) with false. cbv iota. cbn [length Nat.sub]. lia.
    - cbn [length Nat.sub]. destruct (Z.ltb_spec 0 (Z.of_nat (S (length prev)))); cbn [cl_skipped cl_with_skipped]; lia. }
  assert (Hl4 : cl_sessions st4 !! i = Some (mkSessionObject (checkout st2 so) (so_output_ids so))).
  { unfold st4, seen_more. cbn [cl_sessions cl_with_caches]. apply checkin_lookup. unfold st2. cbn. by rewrite Hs1. }
  assert (Hb : checkout st4 (mkSessionObject (checkout st2 so) (so_output_ids so)) = checkout st so).
  { unfold checkout. unfold st4, seen_more, st2. cbn. rewrite Hm1. unfold st1. by destruct (0 <? zlen prev). }
  split; [|split].
  - split.
    + unfold st4, st2. cbn. congruence.
    + unfold num_blocks, st4, st2 in *. cbn. by rewrite Hm1.
    + exists (mkSessionObject (checkout st2 so) (so_output_ids so)). split; [done|]. rewrite Hb.
      destruct Hs as (so' & Hso' & Hbet). rewrite Hso in Hso'. injection Hso' as <-.
      by rewrite take_app_le by lia.
    + unfold st4. rewrite (seen_more_lookup _ _ _ 0); [done|]. unfold st2. cbn. by rewrite lookup_app_r, Nat.sub_diag by lia.
    + exact Hsk1.
  - assert (H13 : same_client i st2 (checkin st2 i (checkout st2 so))).
    { eapply checkin_same; [unfold st2; cbn; by rewrite Hs1|done|done]. }
    transitivity st2; [|transitivity (checkin st2 i (checkout st2 so)); [by apply same_client_but|apply caches_but]].
    transitivity st1; [|apply caches_but]. unfold st1. destruct (0 <? zlen prev); [apply skipped_but|reflexivity].
  - destruct Hsk1 as [?|?]; [by left|right]. unfold st4, st2. cbn. lia.
Qed.

(** What a call has changed: session [i] has now generated [full]. *)
Record generated (arch : architecture) (i : nat) (full : list tid) st st' : Prop := {
  gd_active : cl_active st' = cl_active st;
  gd_blocks : num_blocks st' = num_blocks st;
  gd_output : output_ids_of st' i = Some full;
  gd_session : session_at st' i (embed arch <$> take (length full - 1) full);
  gd_skipped : arch = Bloom \/ cl_skipped st' = 0;
  gd_length : length (cl_sessions st') = length (cl_sessions st);
  gd_others : forall j, j <> i -> cl_sessions st' !! j = cl_sessions st !! j;
}.

Lemma set_output_generated arch i full st st' :
  session_at st' i (embed arch <$> take (length full - 1) full) -> same_but i st st' ->
  (arch = Bloom \/ cl_skipped st' = 0) ->
  exists st2, set_output_ids i full st' = Some (st2, Ok ()) /\ generated arch i full st st2.
Proof.
  intros (so & Hso & Hb) Hsame Hsk. eexists. split; [done|].
  pose proof Hsame as [Hu Ha _ Hl _ _ Ho]. cbn in Hu, Ha, Hl, Ho.
  assert (Hl2 : alter (fun so => mkSessionObject (so_session so) (Some full)) i (cl_sessions st') !! i =
    Some (mkSessionObject (so_session so) (Some full))) by (by rewrite list_lookup_alter_eq, Hso).
  split; try done.
  - exact (f_equal zlen Hu).
  - unfold output_ids_of. cbn [cl_sessions cl_with_sessions]. by rewrite Hl2.
  - eexists. cbn [cl_sessions cl_with_sessions]. split; [exact Hl2|exact Hb].
  - cbn [cl_sessions cl_with_sessions]. by rewrite length_alter.
  - intros j Hj. cbn [cl_sessions cl_with_sessions]. rewrite list_lookup_alter_ne by done. by apply Ho.
Qed.

(** The hypotheses on the arguments of a call. *)
Record call_ok (arch : architecture) (m : model) (weight : list weight_row) (inputs : option (list tid))
    (kw : gen_kwargs) (prev : list tid) : Prop := {
  co_arch : arch <> Falcon;
  co_model : plain_model m weight;
  co_cache : supports_cache_class arch = true /\ gk_past_key_values kw = None;
  co_inputs : prev <> [] \/ inputs <> None;
  co_text : prev ++ default [] inputs <> [];
  co_limit : zlen (prev ++ default [] inputs) < limit_of kw (prev ++ default [] inputs);
}.

Lemma resumed_start prev inputs :
  prev <> [] \/ inputs <> None -> super_start (resumed_inputs prev inputs) = prev ++ default [] inputs.
Proof.
  intros H. unfold resumed_inputs. destruct prev as [|t prev].
  - destruct inputs as [ids|]; [apply super_start_some|by destruct H].
  - assert ((0 <? zlen (t :: prev)) = true) as -> by (rewrite zlen_cons; pose proof (zlen_nonneg prev); lia).
    apply super_start_some.
Qed.

(** A call up to the loop, and what follows it. *)
Lemma generate_in_start arch m weight inputs kw i prev st :
  call_ok arch m weight inputs kw prev -> resumable arch i prev st -> cl_active st = Some i ->
  let ids := prev ++ default [] inputs in
  exists p st4, generating arch i p (length prev - 1) ids st4 /\ same_but i st st4 /\ (length prev - 1 < length ids)%nat /\
    cl_manager st4 = cl_manager st /\
    generate_in arch m inputs kw i st =
      (super_generate (iteration arch m) (limit_of kw ids) ids (Some p) ≫= fun sequences =>
         _ ← set_output_ids i sequences; ret (zslice sequences (zlen prev) (zlen sequences))) st4.
Proof.
  intros [Harch Hm [Hsup Hpk] Hin Hne Hlim] Hre Ha ids. pose proof Hre as [HN Hout Hsess _].
  destruct (session_at_length _ _ _ Hsess) as (so & Hso & Hpos).
  assert (Hpos' : is_position (so_session so) = Z.of_nat (length prev - 1)).
  { rewrite Hpos. unfold zlen. rewrite length_fmap, length_take. lia. }
  assert (Hids : (length prev - 1 < length ids)%nat).
  { assert (length ids <> 0)%nat by (unfold ids in *; by destruct (prev ++ default [] inputs)).
    unfold ids in *. rewrite length_app in *. lia. }
  set (st1 := if 0 <? zlen prev then cl_with_skipped st (Z.max 0 (zlen prev - 1)) else st).
  destruct (start_generating arch i prev ids st _ so Hre Ha Hso eq_refl) as (Hgen & Hb4 & _);
    [by exists (default [] inputs)|done|]. fold st1 in Hgen, Hb4.
  set (st2 := cl_with_caches st1 (cl_caches st1 ++ [mkCache 0 None])) in *.
  set (p := length (cl_caches st1)) in *. set (st4 := seen_more p _ _) in *.
  exists p, st4. split; [done|]. split; [done|]. split; [done|].
  split; [unfold st4, st2, st1; cbn; by destruct (0 <? zlen prev)|].
  unfold Generation.generate_in. rewrite (bind_ok _ _ _ st prev) by (unfold reads; by rewrite <- Hout).
  cbv zeta. rewrite (bind_ok _ _ _ st1 ()) by (unfold st1; by destruct (0 <? zlen prev)).
  rewrite Hsup, Hpk. cbn [andb is_none]. rewrite (bind_ok _ _ _ st4 (Some p)).
  - by rewrite (resumed_start _ _ Hin).
  - rewrite (bind_ok _ _ _ st2 p) by done.
    rewrite (bind_ok _ _ _ (checkin st2 i (checkout st2 so)) (Z.of_nat (length prev - 1))).
    + by rewrite (bind_ok _ _ _ st4 ()) by done.
    + unfold on_session. assert (cl_sessions st2 !! i = Some so) as ->.
      { unfold st2, st1. cbn. by destruct (0 <? zlen prev). }
      cbn. by rewrite Hpos'.
Qed.

Lemma generate_in_ok arch m weight inputs kw i prev st st' out :
  call_ok arch m weight inputs kw prev -> resumable arch i prev st -> cl_active st = Some i ->
  generate_in arch m inputs kw i st = Some (st', Ok out) ->
  let ids := prev ++ default [] inputs in
  let full := decode arch m weight (num_blocks st) (Z.to_nat (limit_of kw ids - zlen ids)) ids in
  prev ++ out = full /\ generated arch i full st st'.
Proof.
  intros Hok Hre Ha H ids full.
  destruct (generate_in_start arch m weight inputs kw i prev st Hok Hre Ha) as (p & st4 & Hgen & Hb4 & Hids & _ & Heq).
  rewrite Heq in H. fold ids in H, Hgen, Hids. destruct Hok as [Harch Hm _ _ _ Hlim].
  open_run H as st5 seqs Hloop.
  apply (loop_decodes arch m weight i p (Z.to_nat (limit_of kw ids - zlen ids)) (length prev - 1)) in Hloop
    as (-> & Hlen & Hs5 & Hb5 & Hsk5); [|done..].
  rewrite (same_but_blocks _ _ _ Hb4) in H, Hs5. fold full in H, Hs5.
  destruct (set_output_generated arch i full st st5 Hs5) as (st6 & Hset & Hgd); [by transitivity st4|done|].
  rewrite (bind_ok _ _ _ _ _ Hset) in H. injection H as <- <-. split; [|done].
  destruct (decode_extends arch m weight (num_blocks st) (Z.to_nat (limit_of kw ids - zlen ids)) ids) as [l Hl].
  fold full in Hl. rewrite zslice_drop; [|apply zlen_nonneg|reflexivity]. unfold zlen. rewrite Nat2Z.id.
  rewrite Hl. unfold ids. rewrite <- app_assoc, drop_app_length. done.
Qed.

(** *** generate *)

(** [inputs], or the keyword argument [input_ids]. *)
Definition given (inputs : option (list tid)) (kw : gen_kwargs) : option (list tid) :=
  match inputs with Some ids => Some ids | None => gk_input_ids kw end.

(** The text after a call that starts from [prev]. *)
Definition generated_text (arch : architecture) (m : model) (weight : list weight_row) (N : Z) (prev : list tid)
    (inputs : option (list tid)) (kw : gen_kwargs) : list tid :=
  let ids := prev ++ default [] (given inputs kw) in
  decode arch m weight N (Z.to_nat (limit_of kw ids - zlen ids)) ids.

Lemma fixed_max kw : get_max (_fix_generate_kwargs kw) = get_max kw.
Proof. unfold get_max, _fix_generate_kwargs. cbn. by destruct (gk_max_length kw) as [[l|]|]. Qed.

Lemma fixed_call_ok arch m weight inputs kw prev :
  call_ok arch m weight inputs kw prev -> call_ok arch m weight inputs (_fix_generate_kwargs kw) prev.
Proof. intros []. split; try done. unfold limit_of in *. by rewrite fixed_max. Qed.

(** A call in a session, active or given. *)
Lemma generate_session_ok arch m weight inputs session kw i prev st st' out :
  call_ok arch m weight (given inputs kw) kw prev -> resumable arch i prev st ->
  session = Some i \/ session = None /\ cl_active st = Some i ->
  generate arch m inputs session kw st = Some (st', Ok out) ->
  prev ++ out = generated_text arch m weight (num_blocks st) prev inputs kw /\
  generated arch i (generated_text arch m weight (num_blocks st) prev inputs kw) st st'.
Proof.
  intros Hok%fixed_call_ok Hre Hs H. unfold Generation.generate in H.
  rewrite (bind_ok _ _ _ st (cl_active st)) in H by done.
  change (gk_input_ids (_fix_generate_kwargs kw)) with (gk_input_ids kw) in H. fold (given inputs kw) in H.
  unfold generated_text, limit_of. rewrite <- fixed_max.
  destruct Hs as [->|[-> Ha]].
  - apply use_session_restores in H as (Ha' & st1 & H & ->).
    destruct (generate_in_ok arch m weight (given inputs kw) (_fix_generate_kwargs kw) i prev
      (cl_with_active st (Some i)) st1 out Hok) as [Hout []]; [by destruct Hre; split|done|done|].
    split; [exact Hout|]. by split.
  - rewrite Ha in H. by apply (generate_in_ok arch m weight _ _ i prev) in H.
Qed.

Lemma generated_resumable arch i full st st' :
  0 < num_blocks st -> generated arch i full st st' -> resumable arch i full st'.
Proof.
  intros HN []. split; [by rewrite gd_blocks0|by rewrite gd_output0|done|]. destruct gd_skipped0; auto.
Qed.

(** C5: for BLOOM, LLaMA and Mixtral, without prompt tuning and with no cache given by the caller ([call_ok]): when a
    call to [generate] in a session over the swarm returns, its text is what decoding with the whole model, from the
    beginning and without caches, gives; the tokens of earlier calls are not returned again, the session remembers the
    whole text and is ready for the next call.  Falcon, whose passes answer a
    cache that has seen nothing ([falcon_forward]), is left out, and with prompt tuning a resumed BLOOM leaves out new
    tokens ([bloom_ptune_loses]). *)
Theorem generate_correct arch m weight inputs session kw i prev st st' out :
  call_ok arch m weight (given inputs kw) kw prev -> resumable arch i prev st ->
  session = Some i \/ session = None /\ cl_active st = Some i ->
  generate arch m inputs session kw st = Some (st', Ok out) ->
  prev ++ out = generated_text arch m weight (num_blocks st) prev inputs kw /\
  output_ids_of st' i = Some (prev ++ out) /\ resumable arch i (prev ++ out) st' /\ cl_active st' = cl_active st.
Proof.
  intros Hok Hre Hs H. destruct (generate_session_ok _ _ _ _ _ _ _ _ _ _ _ Hok Hre Hs H) as [Hout Hgd].
  rewrite <- Hout in Hgd. split; [done|]. split; [apply Hgd|]. split; [|apply Hgd].
  eapply generated_resumable; [|exact Hgd]. apply Hre.
Qed.

(** Decoding can be interrupted where the text is not finished. *)
Lemma decode_plus arch m weight N a b ids :
  a = 0%nat \/ finished (decode arch m weight N a ids) = false ->
  decode arch m weight N (a + b) ids = decode arch m weight N b (decode arch m weight N a ids).
Proof.
  revert ids. induction a as [|a IH]; intros ids Hf; [done|]. destruct Hf as [?|Hf]; [done|].
  cbn [decode Nat.add] in *. destruct (next_token arch m weight N ids) as [t|] eqn:E.
  - cbv zeta in *. destruct (finished (ids ++ [t])) eqn:Ef; [by rewrite Ef in Hf|]. apply IH. auto.
  - destruct b; cbn [decode]; [done|]. by rewrite E.
Qed.

(** generating in two calls, the second one without new text, gives the tokens of one longer call. *)
Theorem generate_resumes arch m weight ids kw1 kw2 k1 k2 i st st1 st2 out1 out2 :
  call_ok arch m weight (Some ids) kw1 [] -> resumable arch i [] st ->
  gk_max_new_tokens kw1 = Some k1 -> gk_max_new_tokens kw2 = Some k2 -> 0 < k2 -> gk_input_ids kw2 = None ->
  gk_past_key_values kw2 = None ->
  generate arch m (Some ids) (Some i) kw1 st = Some (st1, Ok out1) ->
  generate arch m None (Some i) kw2 st1 = Some (st2, Ok out2) -> finished out1 = false ->
  out1 ++ out2 = decode arch m weight (num_blocks st) (Z.to_nat k1 + Z.to_nat k2) ids.
Proof.
  intros Hok1 Hre Hk1 Hk2 H0 Hin Hpk H1 H2 Hf.
  destruct (generate_session_ok arch m weight (Some ids) (Some i) kw1 i [] st st1 out1) as [Hout1 Hgd];
    [done|done|by left|done|].
  assert (Hre1 : resumable arch i out1 st1).
  { rewrite <- Hout1 in Hgd. eapply generated_resumable; [|exact Hgd]. apply Hre. }
  assert (Hlim : forall kw k l, gk_max_new_tokens kw = Some k -> limit_of kw l - zlen l = k).
  { intros kw k l Hk. unfold limit_of. rewrite Hk, super_limit_new. lia. }
  assert (Hne : out1 <> []).
  { cbn [app] in Hout1. rewrite Hout1. unfold generated_text. intros Hz.
    destruct (decode_extends arch m weight (num_blocks st) (Z.to_nat (limit_of kw1 ([] ++ default [] (given (Some ids) kw1)) -
      zlen ([] ++ default [] (given (Some ids) kw1)))) ([] ++ default [] (given (Some ids) kw1))) as [l Hl].
    rewrite Hl in Hz. cbn in Hz. apply app_eq_nil in Hz as [-> _]. by apply (co_text _ _ _ _ _ _ Hok1). }
  destruct (generate_session_ok arch m weight None (Some i) kw2 i out1 st1 st2 out2) as [Hout2 _]; [|done|by left|done|].
  { destruct Hok1 as [? ? [? _] _ _ _]. unfold given. rewrite Hin. split; try done; [by left| |].
    - cbn. by rewrite app_nil_r.
    - cbn. rewrite app_nil_r. pose proof (Hlim kw2 k2 out1 Hk2). lia. }
  rewrite Hout2. unfold generated_text, given. rewrite Hin. cbn [default]. rewrite app_nil_r, (Hlim kw2 k2) by done.
  rewrite (gd_blocks _ _ _ _ _ Hgd). cbn [app] in Hout1. unfold generated_text in Hout1. cbn [given app default] in Hout1.
  change (id ids) with ids in Hout1.
  rewrite (Hlim kw1 k1) in Hout1 by done. rewrite decode_plus by (right; by rewrite <- Hout1). by rewrite <- Hout1.
Qed.

(** ** Without failures generate returns *)

Section returns.
Context (Hnet : forall n, net n = None).
Context (P : router -> Prop) (HP : routes_stay P).

Lemma run_h_returns m x c p st i text n :
  P (cl_manager st) -> num_blocks st <= Z.of_nat fuel ->
  cl_active st = Some i -> 0 < num_blocks st -> session_at st i text -> cl_caches st !! p = Some (mkCache c None) ->
  max_length_of st i = Some n -> servers_answer (num_blocks st) n -> zlen (text ++ x) <= n ->
  exists st' out, run_h net payload_size MAX_UNARY_PAYLOAD_SIZE args_schema views after fuel m x None (Some p) st
    = Some (st', Ok out) /\ P (cl_manager st').
Proof.
  intros HPst Hf Ha HN (so & Hso & Hb) Hc Hmax Hans Hn. unfold max_length_of in Hmax. rewrite Hso in Hmax. injection Hmax as Hmax.
  destruct (step_returns net P HP fuel text (checkout st so) x (md_batch_size m) (md_hidden_size m)) as (w & out & Hw & HPw);
    [exact HPst|done|done|done|cbn; by rewrite Hmax|cbn; lia|done|].
  exists (checkin st i w), out. split; [|exact HPw]. unfold run_h. rewrite (bind_ok _ _ _ st None).
  - unfold RemoteSequential.forward. rewrite (bind_ok _ _ _ st (Some i)) by (unfold active_session, reads; by rewrite Ha).
    unfold on_session. rewrite Hso. unfold plain in Hw. by rewrite Hw.
  - unfold reads. cbn. by rewrite Hc.
Qed.

Lemma forward_returns arch m i p s ids inp st n :
  P (cl_manager st) ->
  arch <> Falcon -> uses_ptune (md_tuning_mode m) = false -> generating arch i p s ids st -> (s < length ids)%nat ->
  mi_input_ids inp = drop s ids -> mi_past_key_values inp = Some p ->
  (arch = Bloom \/ check_positions inp = Ok ()) -> num_blocks st <= Z.of_nat fuel ->
  max_length_of st i = Some n -> servers_answer (num_blocks st) n -> zlen ids <= n ->
  exists st' r, model_forward arch m inp st = Some (st', Ok r) /\ P (cl_manager st').
Proof.
  intros HPst Harch Hpt [Ha HN Hs Hc _] Hlt Hids Hpast Hpos Hf Hmax Hans Hn.
  pose proof (fun N => rest_length arch N ids s) as Hlen.
  assert (Hx : zlen ((embed arch <$> take s ids) ++ (embed arch <$> drop s ids)) <= n).
  { rewrite embed_split. unfold zlen in *. by rewrite length_fmap. }
  destruct arch; [|done| |]; cbn [Generation.model_forward].
  - destruct (run_h_returns m (embed Bloom <$> drop s ids) _ p st i _ n HPst Hf Ha HN Hs Hc Hmax Hans Hx) as (st1 & out & Hrun & HP1).
    pose proof Hrun as Hok. apply (run_h_ok _ _ _ _ _ _ _ _ _ Ha HN Hs Hc) in Hok as (-> & _).
    rewrite embed_split in *. specialize (Hlen (num_blocks st)).
    eexists _, _. split.
    { unfold bloom_forward. rewrite (bind_ok _ _ _ _ _ (add_prompts_none m _ st Hpt)), Hpast, Hids.
    rewrite <- list_fmap_compose, (bind_ok _ _ _ _ _ Hrun), (bind_ok _ _ _ st1 p) by done. cbn [remove_prefix].
    rewrite (bind_ok _ _ _ (seen_more p (zlen (drop s ids)) st1) ()) by (unfold update_seen, zlen; by rewrite Hlen).
    by rewrite (bind_lift _ _ _ _ (last_hidden_state_ok _ _ Hlen)). }
    exact HP1.
  - destruct Hpos as [?|Hpos]; [done|].
    destruct (run_h_returns m (embed Llama <$> drop s ids) _ p st i _ n HPst Hf Ha HN Hs Hc Hmax Hans Hx) as (st1 & out & Hrun & HP1).
    pose proof Hrun as Hok. apply (run_h_ok _ _ _ _ _ _ _ _ _ Ha HN Hs Hc) in Hok as (-> & _).
    rewrite embed_split in *. specialize (Hlen (num_blocks st)).
    eexists _, _. split.
    { unfold llama_forward. rewrite (bind_lift _ _ _ _ Hpos).
    rewrite (bind_ok _ _ _ _ _ (add_prompts_none m _ st Hpt)), Hpast, Hids.
    rewrite (bind_ok _ _ _ _ _ Hrun), (bind_ok _ _ _ st1 p) by done. cbn [remove_prefix].
    rewrite (bind_ok _ _ _ (seen_more p (zlen (drop s ids)) st1) ()) by (unfold update_seen, zlen; by rewrite Hlen).
    by rewrite (bind_lift _ _ _ _ (last_hidden_state_ok _ _ Hlen)). }
    exact HP1.
  - destruct Hpos as [?|Hpos]; [done|]. set (st0 := seen_more p (zlen (drop s ids)) st).
    destruct (run_h_returns m (embed Mixtral <$> drop s ids) (Z.of_nat s + zlen (drop s ids)) p st0 i
      (embed Mixtral <$> take s ids) n HPst Hf Ha HN Hs) as (st1 & out & Hrun & HP1); [by apply seen_more_lookup|done|done|done|].
    pose proof Hrun as Hok. apply (run_h_ok _ _ (Z.of_nat s + zlen (drop s ids)) _ st0 _ i _ _ Ha HN Hs) in Hok
      as (-> & _); [|by apply seen_more_lookup].
    rewrite embed_split in *. specialize (Hlen (num_blocks st0)).
    unfold check_positions in Hpos. eexists _, _. split.
    { unfold mixtral_forward.
    rewrite (bind_lift _ _ _ ()).
    2:{ destruct (mi_cache_position inp); [|exact Hpos]. by destruct (assert_ (bool_decide _)). }
    rewrite (bind_ok _ _ _ _ _ (add_prompts_none m _ st Hpt)), Hpast, Hids, (bind_ok _ _ _ st p) by done.
    rewrite (bind_ok _ _ _ st0 ()) by (unfold update_seen, zlen; by rewrite length_fmap).
    rewrite (bind_ok _ _ _ _ _ Hrun). cbn [remove_prefix].
    by rewrite (bind_lift _ _ _ _ (last_hidden_state_ok _ _ Hlen)). }
    exact HP1.
Qed.

Lemma prepare_manager arch ids mask past st st' inp :
  arch <> Falcon -> prepare_inputs_for_generation arch ids mask past st = Some (st', Ok inp) -> cl_manager st' = cl_manager st.
Proof.
  intros Harch H. assert (arch = Bloom \/ prepare_inputs_for_generation arch = skip_tokens_prepare) as [-> |Hp] by (destruct arch; auto).
  - cbn [prepare_inputs_for_generation] in H. unfold bloom_prepare in H.
    rewrite (bind_ok _ _ _ st (past ≫= fun p => cl_caches st !! p)) in H by done. by injection H as <- _.
  - rewrite Hp in H. unfold skip_tokens_prepare in H. rewrite (bind_ok _ _ _ st (cl_skipped st)) in H by done.
    rewrite (bind_ok _ _ _ (cl_with_skipped st 0) ()) in H by done.
    open_run H as st1 o Ho. injection Ho as <- <-. destruct (super_prepare _ _ _) as [[l pos] cp]. by injection H as <- _.
Qed.

Lemma iteration_returns arch m weight i p s ids st n :
  P (cl_manager st) ->
  arch <> Falcon -> plain_model m weight -> generating arch i p s ids st -> (s < length ids)%nat ->
  num_blocks st <= Z.of_nat fuel -> max_length_of st i = Some n -> servers_answer (num_blocks st) n -> zlen ids <= n ->
  exists st' scores past, iteration arch m ids (zlen ids) (Some p) st = Some (st', Ok (scores, past)) /\
    P (cl_manager st').
Proof.
  intros HPst Harch Hm Hg Hlt Hf Hmax Hans Hn.
  destruct (prepare_rest arch i p s ids st Harch Hg Hlt) as (inp & st1 & Hprep & Hids & Hpast & Hpos & Hg1 & Hb1 & _).
  destruct (forward_returns arch m i p s ids inp st1 n) as (st2 & [out past] & Hfw & HP2);
    [by rewrite (prepare_manager _ _ _ _ _ _ _ Harch Hprep)|done|apply Hm|done|done|done|done|done|by rewrite (same_but_blocks _ _ _ Hb1)| |by rewrite (same_but_blocks _ _ _ Hb1)|done|].
  { rewrite <- Hmax. exact (sc_max _ _ _ Hb1). }
  pose proof Hfw as Hok.
  apply (forward_rest _ _ i p s ids) in Hok as (-> & -> & _); [|done|apply Hm|done|done|done|done].
  destruct (last (ln_f <$> drop s (run_blocks 0 (num_blocks st1) (embed arch <$> ids)))) as [x|] eqn:Hlast.
  - exists st2, (logits_of (md_lm_head m) weight x), p. split; [|done]. unfold Generation.iteration.
    rewrite (bind_ok _ _ _ _ _ Hprep), (bind_ok _ _ _ _ _ Hfw).
    by rewrite (bind_lift _ _ _ _ (last_logits_ok _ _ _ _ Hm Hlast)).
  - exfalso. apply last_None, (f_equal length) in Hlast.
    rewrite length_fmap, length_drop, run_blocks_length, length_fmap in Hlast. simpl in Hlast. lia.
Qed.

Lemma generation_returns arch m weight i p n : forall s ids st limit M,
  P (cl_manager st) -> arch <> Falcon -> plain_model m weight -> generating arch i p s ids st -> (s < length ids)%nat ->
  zlen ids < limit -> n = Z.to_nat (limit - zlen ids) ->
  num_blocks st <= Z.of_nat fuel -> max_length_of st i = Some M -> servers_answer (num_blocks st) M -> limit - 1 <= M ->
  exists st' out, super_generate (iteration arch m) limit ids (Some p) st = Some (st', Ok out) /\ same_but i st st' /\
    P (cl_manager st').
Proof.
  induction n as [|n IH]; intros s ids st limit M HPst Harch Hm Hg Hlt Hlim Hn Hf Hmax Hans HM; [lia|].
  destruct (iteration_returns arch m weight i p s ids st M) as (st1 & scores & past & Hit & HP1); [done..|lia|].
  rewrite super_generate_step, (bind_ok _ _ _ _ _ Hit) by done.
  apply (iteration_ok arch m weight i p s) in Hit as (-> & _ & Hg1 & Hb1 & _); [|done..].
  cbv zeta. set (ids' := ids ++ [select ids scores]).
  assert (Hl' : zlen ids' = zlen ids + 1) by (unfold ids'; by rewrite zlen_app).
  destruct (finished ids' || (limit <=? zlen ids')) eqn:Hstop; [eexists _, _; split; [done|]; split; [exact Hb1|exact HP1]|].
  apply orb_false_elim in Hstop as [_ Hle].
  destruct (IH (length ids) ids' st1 limit M) as (st' & out & Hrun & Hb2 & HP2);
    [done|done|done|apply Hg1|unfold ids'; rewrite length_app; simpl; lia|lia|lia|by rewrite (same_but_blocks _ _ _ Hb1)
    |by rewrite <- Hmax; exact (sc_max _ _ _ Hb1)|by rewrite (same_but_blocks _ _ _ Hb1)|done|].
  exists st', out. split; [exact Hrun|]. split; [by transitivity st1|exact HP2].
Qed.

Lemma generate_in_returns arch m weight inputs kw i prev st M :
  P (cl_manager st) ->
  call_ok arch m weight inputs kw prev -> resumable arch i prev st -> cl_active st = Some i ->
  num_blocks st <= Z.of_nat fuel -> max_length_of st i = Some M -> servers_answer (num_blocks st) M -> limit_of kw (prev ++ default [] inputs) - 1 <= M ->
  exists st' out, generate_in arch m inputs kw i st = Some (st', Ok out).
Proof.
  intros HPst Hok Hre Ha Hf Hmax Hans HM.
  destruct (generate_in_start arch m weight inputs kw i prev st Hok Hre Ha) as (p & st4 & Hgen & Hb4 & Hids & Hm4 & ->).
  destruct Hok as [Harch Hm _ _ _ Hlim].
  destruct (generation_returns arch m weight i p _ _ _ st4 _ M ltac:(by rewrite Hm4) Harch Hm Hgen Hids Hlim eq_refl)
    as (st5 & out & Hrun & _);
    [by rewrite (same_but_blocks _ _ _ Hb4)|by rewrite <- Hmax; exact (sc_max _ _ _ Hb4)|by rewrite (same_but_blocks _ _ _ Hb4)|done|].
  rewrite (bind_ok _ _ _ _ _ Hrun). eexists _, _. done.
Qed.

(** The capacity that is reserved is enough. *)
Lemma session_length_suffices m ids kw n :
  0 <= md_pre_seq_len m -> session_length m (Some ids) (_fix_generate_kwargs kw) = Ok n -> limit_of kw ids <= n.
Proof.
  intros Hpre. unfold session_length. rewrite fixed_max. change (gk_max_new_tokens (_fix_generate_kwargs kw)) with (gk_max_new_tokens kw).
  unfold limit_of. destruct (get_max kw) as [l|], (gk_max_new_tokens kw) as [k|]; cbn; try done; intros [= <-].
  - rewrite super_limit_length. lia.
  - rewrite super_limit_new. lia.
Qed.

(** What a call outside of all sessions does. *)
Lemma alone_generates arch m weight inputs ids kw st :
  P (cl_manager st) -> call_ok arch m weight (given inputs kw) kw [] -> given inputs kw = Some ids ->
  (is_none (get_max kw) <> is_none (gk_max_new_tokens kw)) ->
  0 <= md_pre_seq_len m -> (arch = Bloom \/ cl_skipped st = 0) ->
  0 < num_blocks st <= Z.of_nat fuel -> cl_active st = None ->
  (forall n, session_length m (Some ids) (_fix_generate_kwargs kw) = Ok n -> servers_answer (num_blocks st) n) ->
  exists st', generate arch m inputs None kw st =
      Some (st', Ok (generated_text arch m weight (num_blocks st) [] inputs kw)) /\
    cl_active st' = None /\
    exists so, cl_sessions st' !! length (cl_sessions st) = Some so /\ is_closed (so_session so) = true.
Proof.
  intros HPst Hok Hids Hone Hpre Hsk [HN Hf] Ha Hans. set (i := length (cl_sessions st)).
  assert (exists n, session_length m (given inputs kw) (_fix_generate_kwargs kw) = Ok n) as [n Hn].
  { unfold session_length. rewrite fixed_max. change (gk_max_new_tokens (_fix_generate_kwargs kw)) with (gk_max_new_tokens kw).
    destruct (get_max kw), (gk_max_new_tokens kw); cbn in *; eauto; by destruct Hone. }
  set (st1 := cl_with_active (opened st n) (Some i)).
  destruct (opened_session st n) as (Hs & Ho & Hmax & Hlen). fold i in Hs, Ho, Hmax, Hlen.
  assert (Hre : resumable arch i [] st1).
  { split; [exact HN|exact (f_equal (default []) Ho)|exact Hs|]. destruct Hsk; auto. }
  pose proof Hn as Hcap. rewrite Hids in Hcap. specialize (Hans n Hcap). apply session_length_suffices in Hcap; [|done].
  pose proof (fixed_call_ok _ _ _ _ _ _ Hok) as Hok'.
  destruct (generate_in_returns arch m weight (given inputs kw) (_fix_generate_kwargs kw) i [] st1 n HPst Hok' Hre eq_refl Hf Hmax Hans)
    as (st2 & out & Hrun).
  { unfold limit_of. rewrite fixed_max, Hids. cbn [app default].
    change (limit_of kw ids - 1 <= n). lia. }
  pose proof Hrun as Hgen. apply (generate_in_ok arch m weight _ _ i [] st1) in Hgen as [Hout Hgd]; [|done..].
  assert (Hout' : out = generated_text arch m weight (num_blocks st) [] inputs kw).
  { cbn [app] in Hout. rewrite Hout. unfold generated_text, limit_of. by rewrite fixed_max. }
  pose proof (gd_length _ _ _ _ _ Hgd) as Hl2. change (length (cl_sessions st1)) with (length (cl_sessions (opened st n))) in Hl2.
  destruct (lookup_lt_is_Some_2 (cl_sessions st2) i) as [so Hso]; [lia|].
  exists (exit_session net i (cl_with_active st2 (cl_active (opened st n)))). split; [|split].
  - unfold Generation.generate. rewrite (bind_ok _ _ _ st None) by (unfold active_session, reads; by rewrite Ha).
    change (gk_input_ids (_fix_generate_kwargs kw)) with (gk_input_ids kw). fold (given inputs kw).
    rewrite (bind_lift _ _ _ _ Hn), inference_session_unfold. unfold finally at 1, use_session.
    rewrite (bind_ok _ _ _ (opened st n) (cl_active (opened st n))) by done.
    rewrite (bind_ok _ _ _ st1 ()) by done. unfold finally. fold i. by rewrite Hrun, Hout'.
  - unfold exit_session. cbn [cl_sessions cl_with_active]. by rewrite Hso.
  - unfold exit_session. cbn [cl_sessions cl_with_active]. rewrite Hso. eexists.
    split; [by apply (checkin_lookup (cl_with_active st2 _))|]. apply is_close_closed.
Qed.

(** When the servers answer and routes are found, a call outside of all sessions returns what decoding gives: the session
    that it opens is long enough, and it is closed in the end. *)
Theorem generate_alone arch m weight inputs ids kw st :
  P (cl_manager st) -> call_ok arch m weight (given inputs kw) kw [] -> given inputs kw = Some ids ->
  (is_none (get_max kw) <> is_none (gk_max_new_tokens kw)) ->
  0 <= md_pre_seq_len m -> (arch = Bloom \/ cl_skipped st = 0) ->
  0 < num_blocks st <= Z.of_nat fuel -> cl_active st = None ->
  (forall n, session_length m (Some ids) (_fix_generate_kwargs kw) = Ok n -> servers_answer (num_blocks st) n) ->
  exists st', generate arch m inputs None kw st =
      Some (st', Ok (generated_text arch m weight (num_blocks st) [] inputs kw)) /\
    cl_active st' = None /\
    exists so, cl_sessions st' !! length (cl_sessions st) = Some so /\ is_closed (so_session so) = true.
Proof. apply alone_generates. Qed.
End returns.
End generation_proofs.

(** ** Where the tokens get lost

    BLOOM's own [prepare_inputs_for_generation] never resets the skipped tokens: they stay set for the next model. *)
Section divergences.
Context {PI : PeerIds} {RT : Router} {BK : Blocks} {IS : InferenceServer} {SS : SpanServer} {LY : Layout}.
Context {LN : Linear} {TF : Transformers}.
Abbreviation client := (@client PI RT BK IS tid).
Implicit Types (st : client).

Lemma bloom_keeps_skipped ids mask past st st' inp :
  bloom_prepare ids mask past st = Some (st', Ok inp) -> cl_skipped st' = cl_skipped st.
Proof. intros H. unfold bloom_prepare in H. rewrite (bind_ok _ _ _ st (past ≫= fun p => cl_caches st !! p)) in H by done. by injection H as <- <-. Qed.

(** The next model that skips tokens drops as many of the text of a session that has processed nothing. *)
Lemma leftover_skips ids n st :
  0 <= n -> cl_skipped st = n ->
  exists inp, skip_tokens_prepare ids (zlen ids) None st = Some (cl_with_skipped st 0, Ok inp) /\
    mi_input_ids inp = (super_prepare (drop (Z.to_nat n) ids) (zlen ids) None).1.1.
Proof.
  intros Hn Hsk. unfold skip_tokens_prepare. rewrite (bind_ok _ _ _ st n) by (unfold reads; by rewrite Hsk).
  rewrite (bind_ok _ _ _ (cl_with_skipped st 0) ()) by done.
  rewrite (bind_ok _ _ _ (cl_with_skipped st 0) None) by done. rewrite zslice_drop; [|done|reflexivity].
  destruct (super_prepare _ _ _) as [[l pos] cp]. by eexists.
Qed.

(** With prompt tuning the position of a session counts the prompts, so a resumed BLOOM leaves out as many of the
    new tokens. *)
Lemma bloom_ptune_loses text (processed pre : nat) :
  (processed + pre < length text)%nat ->
  omit_seen text (zlen text) (Z.of_nat (pre + processed)) = drop pre (drop processed text).
Proof.
  intros H. unfold omit_seen. rewrite Z.ltb_irrefl.
  assert ((Z.of_nat (pre + processed) <? zlen text) = true) as -> by (apply Z.ltb_lt; unfold zlen; lia).
  rewrite zslice_rest by lia. by rewrite drop_drop, Nat.add_comm.
Qed.
End divergences.

(** ** Examples *)

Fixpoint example_loop {W} (n : nat) (iteration : list Z -> Z -> option nat -> prog W (list Z * nat)) (limit : Z)
    (select : list Z -> list Z -> Z) (finished : list Z -> bool) (ids : list Z) (past : option nat) : prog W (list Z) :=
  match n with
  | O => ret ids
  | S n' =>
      '(scores, past') ← iteration ids (zlen ids) past;
      let ids' := ids ++ [select ids scores] in
      if finished ids' || (limit <=? zlen ids') then ret ids'
      else example_loop n' iteration limit select finished ids' (Some past')
  end.

Definition example_select (ids scores : list Z) : Z := zsum scores mod 7.
Definition example_finished (ids : list Z) : bool := bool_decide (last ids = Some 100).

#[refine] Instance SmallTransformers : Transformers (BK := SumBlocks) (LN := ZLinear) :=
  {| tid := Z;
     word_embeddings t := t;
     word_embeddings_layernorm x := x;
     ln_f x := x;
     select := example_select;
     finished := example_finished;
     super_start o := default [1] o;
     super_limit max_length max_new n := match max_new with Some k => n + k | None => default 20 max_length end;
     super_supports_cache_class := true;
     super_prepare ids mask seen :=
       let s := default 0 seen in
       (zslice ids (zlen ids - (mask - s)) (zlen ids), Some (zrange s mask), Some (zrange s mask));
     super_generate W it limit ids past :=
       example_loop (Z.to_nat (limit - zlen ids)) it limit example_select example_finished ids past |}.
Proof.
  - done.
  - done.
  - done.
  - intros text cut seen H0 H1 H2. change (default 0 (Some seen)) with seen. cbv zeta. eexists. split; [|by right].
    rewrite (zslice_drop text cut) by (lia || done). rewrite (zslice_drop text seen) by (lia || done).
    assert (Hl : zlen (drop (Z.to_nat cut) text) = zlen text - cut) by (unfold zlen in *; rewrite length_drop; lia).
    rewrite zslice_drop; [|rewrite Hl; lia|reflexivity]. rewrite Hl, drop_drop. do 3 f_equal. lia.
  - intros W it limit ids past w Hlt.
    assert (exists n, Z.to_nat (limit - zlen ids) = S n /\ forall t : Z, Z.to_nat (limit - zlen (ids ++ [t])) = n) as (n & -> & Hn).
    { exists (Z.to_nat (limit - zlen ids - 1)). split; [lia|]. intros t. rewrite zlen_app. change (zlen [t]) with 1. lia. }
    cbn [example_loop]. unfold mbind, prog_bind. destruct (it ids (zlen ids) past w) as [[w' [[scores p]|e]]|]; [|done|done].
    by rewrite Hn.
Defined.

Definition small_model : model (BK := SumBlocks) (IS := ExactServer) (LN := ZLinear) :=
  mkModel (BK := SumBlocks) (IS := ExactServer) (LN := ZLinear) None 0 1 1 [] ([0], []) small_head.

Definition kwargs (k : Z) : gen_kwargs (TF := SmallTransformers) := mkKwargs (TF := SmallTransformers) None (Some None) (Some k) None None.

Abbreviation small_generate := (generate (PI := ZPeerIds) (RT := FixedRouter) (BK := SumBlocks) (IS := ExactServer)
  (SS := SumSpans) (LY := SumLayout) (LN := ZLinear) (TF := SmallTransformers) (fun _ => None) (fun _ _ => 0) 0 1
  one_view cl_manager 9).
Abbreviation small_text := (generated_text (BK := SumBlocks) (IS := ExactServer) (LN := ZLinear) (TF := SmallTransformers)).

Definition fresh_client := opened (PI := ZPeerIds) (RT := FixedRouter) (BK := SumBlocks) (tid := Z) (one_client None) 8.

Lemma small_plain : plain_model (BK := SumBlocks) (IS := ExactServer) (LN := ZLinear) small_model [1; 2; 3; 4; 5].
Proof. by split. Qed.

Lemma small_call arch inputs k prev :
  arch <> Falcon -> 0 < k -> prev <> [] \/ inputs <> None -> prev ++ default [] inputs <> [] ->
  call_ok (TF := SmallTransformers) (IS := ExactServer) arch small_model [1; 2; 3; 4; 5] inputs (kwargs k) prev.
Proof.
  intros Ha Hk Hin Hne. split; [done|exact small_plain|by destruct arch|done|done|].
  unfold limit_of. change (gk_max_new_tokens (kwargs k)) with (Some k). rewrite super_limit_new. lia.
Qed.

Lemma fresh_resumable arch :
  resumable (PI := ZPeerIds) (RT := FixedRouter) (LN := ZLinear) (TF := SmallTransformers) arch 0 [] fresh_client.
Proof.
  destruct (opened_session (PI := ZPeerIds) (RT := FixedRouter) (BK := SumBlocks) (tid := Z) (one_client None) 8) as (Hs & Ho & _).
  split; [done|exact (f_equal (default []) Ho)|exact Hs|by right; right].
Qed.

Lemma generate_correct_witness :
  exists st', small_generate Llama small_model (Some [1; 2; 3]) (Some 0%nat) (kwargs 2) fresh_client = Some (st', Ok [1; 2; 3; 6; 1]) /\
    [1; 2; 3; 6; 1] = small_text Llama small_model [1; 2; 3; 4; 5] 3 [] (Some [1; 2; 3]) (kwargs 2).
Proof.
  destruct (outcome_run (small_generate Llama small_model (Some [1; 2; 3]) (Some 0%nat) (kwargs 2) fresh_client) [1; 2; 3; 6; 1])
    as [st' H]; [vm_compute; reflexivity|].
  exists st'. split; [exact H|].
  apply (generate_correct (PI := ZPeerIds) (RT := FixedRouter) (LN := ZLinear) (TF := SmallTransformers) (fun _ => None)
    (fun _ _ => 0) 0 1 one_view cl_manager 9 Llama small_model [1; 2; 3; 4; 5] (Some [1; 2; 3]) (Some 0%nat) (kwargs 2) 0 []
    fresh_client st' [1; 2; 3; 6; 1]); [|apply fresh_resumable|by left|exact H].
  apply small_call; [done|lia|by right|done].
Defined.

Lemma generate_resumes_witness :
  exists st1 st2, small_generate Bloom small_model (Some [1; 2; 3]) (Some 0%nat) (kwargs 2) fresh_client = Some (st1, Ok [1; 2; 3; 6; 1]) /\
    small_generate Bloom small_model None (Some 0%nat) (kwargs 2) st1 = Some (st2, Ok [2; 4]) /\
    [1; 2; 3; 6; 1] ++ [2; 4] = decode (TF := SmallTransformers) Bloom small_model [1; 2; 3; 4; 5] 3 (2 + 2) [1; 2; 3].
Proof.
  destruct (outcome_run ((out1 ← small_generate Bloom small_model (Some [1; 2; 3]) (Some 0%nat) (kwargs 2);
    out2 ← small_generate Bloom small_model None (Some 0%nat) (kwargs 2); ret (out1, out2)) fresh_client)
    ([1; 2; 3; 6; 1], [2; 4])) as [st2 H]; [vm_compute; reflexivity|].
  apply bind_returns in H as (st1 & out1 & H1 & H). apply bind_returns in H as (st2' & out2 & H2 & H).
  injection H as <- -> ->. exists st1, st2'. split; [exact H1|]. split; [exact H2|].
  apply (generate_resumes (PI := ZPeerIds) (RT := FixedRouter) (LN := ZLinear) (TF := SmallTransformers) (fun _ => None)
    (fun _ _ => 0) 0 1 one_view cl_manager 9 Bloom small_model [1; 2; 3; 4; 5] [1; 2; 3] (kwargs 2) (kwargs 2) 2 2 0
    fresh_client st1 st2' [1; 2; 3; 6; 1] [2; 4]);
    [|apply fresh_resumable|done|done|done|done|done|exact H1|exact H2|done].
  apply small_call; [done|lia|by right|done].
Defined.

Lemma generate_alone_witness :
  exists st', small_generate Mixtral small_model (Some [1; 2; 3]) None (kwargs 3) (one_client None) =
      Some (st', Ok (small_text Mixtral small_model [1; 2; 3; 4; 5] 3 [] (Some [1; 2; 3]) (kwargs 3))) /\
    cl_active st' = None /\
    exists so, cl_sessions st' !! 0%nat = Some so /\ is_closed (so_session so) = true.
Proof.
  apply (generate_alone (PI := ZPeerIds) (RT := FixedRouter) (LN := ZLinear) (TF := SmallTransformers) (fun _ => None)
    (fun _ _ => 0) 0 1 one_view cl_manager 9 (fun _ => eq_refl) (fun _ => True) fixed_routes
    Mixtral small_model [1; 2; 3; 4; 5] (Some [1; 2; 3]) [1; 2; 3] (kwargs 3) (one_client None));
    [done| |done|done|done|by right| |done|intros n _; apply exact_answers].
  - apply small_call; [done|lia|by right|done].
  - split; vm_compute; congruence.
Defined.
