(* ===== verification/RoutingThread.v ===== *)
(** * RoutingThread: the thread that refreshes the routing table

    [_SequenceManagerUpdateThread] of [client/routing/sequence_manager.py] next to the threads that make requests, one
    step per statement at which they can interleave.  SequenceManager.v has the operations as one piece; here they are
    cut where another thread may come in between, and put together again they are those operations. *)

From S2P Require Import Prelude PyString PyFloat PyDict DataStructures Utils Dht SequenceInfo SequenceManager Discovery.

Section routing_thread.
Context {PI : PeerIds} {PY : Pydantic} {RND : PyRandom} {BL : Blacklist}.

(** ** State *)

(** Where [run] is: before each of its statements and those of [_update].  A thread that waits for its trigger knows
    whether its last update came to its end. *)
Inductive place :=
  | NotStarted
  | Checking                                   (* while not self.should_shutdown *)
  | Resolving                                  (* self.ref_update_manager() *)
  | Clearing                                   (* self.trigger.clear() *)
  | Fetching                                   (* get_remote_module_infos *)
  | Filtering (infos : list RemoteModuleInfo)  (* the allow and block lists and the bans *)
  | Storing (infos : list RemoteModuleInfo)    (* with self.lock_changes *)
  | Pinging (peers : list PeerID)
  | Reporting                                  (* self.ready.set() *)
  | Waiting (updated : bool)                   (* self.trigger.wait(self.update_period) *)
  | Exited.

(** The thread that holds [lock_changes] in [on_request_failure] and calls [update], which clears [ready] once more. *)
Inductive failing := BeforeUpdate | InUpdate.

Record world := mkWorld {
  w_manager : SequenceManager;
  w_at : place;
  w_stop : bool;       (* should_shutdown *)
  w_gone : bool;       (* the manager was collected: the weak reference gives None *)
  w_setters : nat;     (* threads that are about to execute self._thread.trigger.set() *)
  w_failing : option failing;
}.

(** A new manager, or a slice of one, with the thread it creates. *)
Definition created (m : SequenceManager) : world := mkWorld m NotStarted false false 0 None.

Definition with_manager (w : world) (m : SequenceManager) : world := mkWorld m (w_at w) (w_stop w) (w_gone w) (w_setters w) (w_failing w).
Definition move (w : world) (p : place) : world := mkWorld (w_manager w) p (w_stop w) (w_gone w) (w_setters w) (w_failing w).
Definition move_with (w : world) (m : SequenceManager) (p : place) : world := mkWorld m p (w_stop w) (w_gone w) (w_setters w) (w_failing w).
Definition with_setters (w : world) (n : nat) : world := mkWorld (w_manager w) (w_at w) (w_stop w) (w_gone w) n (w_failing w).
Definition with_failing (w : world) (f : option failing) : world := mkWorld (w_manager w) (w_at w) (w_stop w) (w_gone w) (w_setters w) f.

Definition set_ready (b : bool) (m : SequenceManager) : SequenceManager := sm_with_flags m b (sm_trigger m) (sm_thread_started m).
Definition set_trigger (b : bool) (m : SequenceManager) : SequenceManager := sm_with_flags m (sm_ready m) b (sm_thread_started m).
Definition with_rtts (m : SequenceManager) (rtts : list (PeerID * pyfloat)) : SequenceManager :=
  mkManager (sm_config m) (sm_info m) (sm_rpc_info m) (sm_banned_peers m) (sm_allowed_servers m) (sm_blocked_servers m) rtts
    (sm_ready m) (sm_trigger m) (sm_thread_started m).

(** ** The thread *)

(** What the thread meets on its way: the DHT, the clock, the random generator and the answers to its pings. *)
Record environment := mkEnvironment {
  en_found : string -> option DHTValue;
  en_now : pyfloat;
  en_seed : Z;
  en_pings : list PeerID -> list (PeerID * pyfloat);
}.

(** The part of [_update] under the lock, with the choice of the servers to ping. *)
Definition store (e : environment) (m : SequenceManager) (infos : list RemoteModuleInfo) : SequenceManager * result (list PeerID) :=
  let '(si, r) := update_ (sm_info m) infos (en_now e) in
  let m1 := sm_with_info m si in
  (m1, _ ← r; pinged_servers m1 (en_seed e) (sq_spans_containing_block si)).

(** One statement; [None] while the thread waits, or does not run. An exception in [_update] is logged. *)
Definition thread_step (e : environment) (w : world) : option world :=
  let m := w_manager w in
  match w_at w with
  | NotStarted | Exited => None
  | Checking => Some (move w (if w_stop w then Exited else Resolving))
  | Resolving => Some (move w (if w_gone w then Exited else Clearing))
  | Clearing => Some (move_with w (set_trigger false m) Fetching)
  | Fetching =>
      Some (move w (match get_remote_module_infos (en_found e) (sm_block_uids m) (cfg_active_adapter (sm_config m)) true with
                    | Ok infos => Filtering infos
                    | Err _ => Waiting false
                    end))
  | Filtering infos => Some (move w (Storing (map (filter_block m) infos)))
  | Storing infos =>
      match w_failing w with
      | Some _ => None
      | None =>
          let '(m1, r) := store e m infos in
          Some (move_with w m1 (match r with Ok peers => Pinging peers | Err _ => Waiting false end))
      end
  | Pinging peers => Some (move_with w (with_rtts m (en_pings e peers)) Reporting)
  | Reporting => Some (move_with w (set_ready true m) (Waiting true))
  | Waiting _ => if sm_trigger m then Some (move w Checking) else None
  end.

(** [self.trigger.wait] returns after [update_period] as well. *)
Definition timeout (w : world) : option world :=
  match w_at w with Waiting _ => Some (move w Checking) | _ => None end.

(** ** The other threads *)

Definition is_alive (w : world) : bool := match w_at w with NotStarted | Exited => false | _ => true end.

(** [if not self.is_alive(): self._thread.start()], which a thread that has run already refuses. *)
Definition start_thread (w : world) : world * result unit :=
  if is_alive w then (w, Ok ())
  else
    match w_at w with
    | NotStarted => (move_with w (sm_with_flags (w_manager w) (sm_ready (w_manager w)) (sm_trigger (w_manager w)) true) Checking, Ok ())
    | _ => (w, Err RuntimeError)
    end.

(** [ready.clear()], the first half of [update]. *)
Definition clear_ready (w : world) : world :=
  with_setters (with_manager w (set_ready false (w_manager w))) (S (w_setters w)).

(** [trigger.set()], the last statement of [update] and, as far as others see it, of [shutdown]. *)
Definition raise_trigger (w : world) : option world :=
  match w_setters w with
  | O => None
  | S n => Some (with_setters (with_manager w (set_trigger true (w_manager w))) n)
  end.

(** [on_request_failure]: the ban, then the part under the lock, up to the call of [update]. *)
Definition ban (p : PeerID) (w : world) : world :=
  with_manager w (sm_with_banned (w_manager w) (bl_register_failure (sm_banned_peers (w_manager w)) p)).

Definition without_peer (peer_id : option PeerID) (m : SequenceManager) : SequenceManager :=
  let si := sm_info m in
  let infos := match peer_id with Some p => map (pop_server p) (sq_block_infos si) | None => sq_block_infos si end in
  sm_with_info m (mkSeqInfo (sq_block_uids si) infos (sq_spans_by_priority si) (sq_spans_containing_block si) (sq_last_updated_time si)).

Definition drop_peer (peer_id : option PeerID) (w : world) : option world :=
  match w_failing w with
  | Some _ => None
  | None =>
      let m := without_peer peer_id (w_manager w) in
      Some (if existsb no_servers (sq_block_infos (sm_info m)) then with_failing (with_manager w (set_ready false m)) (Some BeforeUpdate)
            else with_manager w m)
  end.

(** The statements of that [update]; with the last one the lock is released. *)
Definition failure_update (w : world) : option world :=
  match w_failing w with
  | None => None
  | Some BeforeUpdate => Some (with_failing (with_manager w (set_ready false (w_manager w))) (Some InUpdate))
  | Some InUpdate => Some (with_failing (with_manager w (set_trigger true (w_manager w))) None)
  end.

(** [self.should_shutdown = True], the first half of [shutdown]. *)
Definition request_stop (w : world) : world := mkWorld (w_manager w) (w_at w) true (w_gone w) (S (w_setters w)) (w_failing w).

(** The manager is collected; not while the thread holds [update_manager]. *)
Definition collect (w : world) : option world :=
  match w_at w with
  | Clearing | Fetching | Filtering _ | Storing _ | Pinging _ | Reporting => None
  | p => Some (mkWorld (w_manager w) p (w_stop w) true (w_setters w) (w_failing w))
  end.

(** ** Interleavings *)

Inductive action :=
  | Thread (e : environment)
  | Timeout
  | Start
  | ClearReady
  | SetTrigger
  | Ban (p : PeerID)
  | Drop (peer_id : option PeerID)
  | UpdateInLock
  | Success (p : PeerID)
  | Stop
  | Collect.

Definition step (a : action) (w : world) : option world :=
  match a with
  | Thread e => thread_step e w
  | Timeout => timeout w
  | Start => Some (start_thread w).1
  | ClearReady => Some (clear_ready w)
  | SetTrigger => raise_trigger w
  | Ban p => Some (ban p w)
  | Drop p => drop_peer p w
  | UpdateInLock => failure_update w
  | Success p => Some (with_manager w (on_request_success (w_manager w) p))
  | Stop => Some (request_stop w)
  | Collect => collect w
  end.

Fixpoint run (tr : list action) (w : world) : option world :=
  match tr with
  | [] => Some w
  | a :: tr' => w' ← step a w; run tr' w'
  end.

Lemma trace_app tr tr' w : run (tr ++ tr') w = w' ← run tr w; run tr' w'.
Proof. revert w. induction tr as [|a tr IH]; intros w; [done|]. cbn. destruct (step a w); [apply IH|done]. Qed.

(** ** Uninterrupted, the statements are the operations of SequenceManager.v *)

Lemma update_uninterrupted w : run [ClearReady; SetTrigger] w = Some (with_manager w (sm_update (w_manager w))).
Proof. by destruct w as [[] ? ? ? ? ?]. Qed.

Lemma failure_uninterrupted w p : w_failing w = None ->
  exists n, run ([Ban p; Drop (Some p)] ++ replicate n UpdateInLock) w = Some (with_manager w (on_request_failure (w_manager w) (Some p))).
Proof.
  destruct w as [[] pl st go k f]. cbn [w_failing]. intros ->.
  destruct (existsb no_servers (map (pop_server p) (sq_block_infos sm_info))) eqn:E; [exists 2%nat|exists 0%nat];
    cbn [app replicate run step]; unfold drop_peer, on_request_failure; cbn; rewrite E; done.
Qed.

(** The statements of [_update], from its first one on. *)
Lemma stages_uninterrupted e w :
  w_at w = Fetching -> w_failing w = None ->
  exists n, run (replicate n (Thread e)) w =
    let '(m', r) := _update (w_manager w) (en_found e) (en_now e) (en_seed e) (en_pings e) in Some (move_with w m' (Waiting (is_ok r))).
Proof.
  destruct w as [m pl st go k f]. cbn [w_at w_manager w_failing]. intros -> ->. unfold _update.
  destruct (get_remote_module_infos (en_found e) (sm_block_uids m) (cfg_active_adapter (sm_config m)) true) as [infos|er] eqn:Ei.
  - destruct (update_ (sm_info m) (map (filter_block m) infos) (en_now e)) as [si r] eqn:Eu.
    destruct (_ ← r; pinged_servers (sm_with_info m si) (en_seed e) (sq_spans_containing_block si)) as [peers|er] eqn:Ep;
      [exists 5%nat|exists 3%nat];
      do 3 (cbn [replicate run step thread_step w_at w_manager w_failing move move_with mbind option_bind]; rewrite ?Ei; unfold store; rewrite ?Eu, ?Ep); done.
  - exists 1%nat. cbn [replicate run step thread_step w_at w_manager]. by rewrite Ei.
Qed.

(** A turn of the thread is the update of the whole table. *)
Lemma turn_uninterrupted e w :
  w_at w = Clearing -> w_failing w = None ->
  exists n ok, run (replicate n (Thread e)) w =
    Some (move_with w (thread_turn (w_manager w) (en_found e) (en_now e) (en_seed e) (en_pings e)) (Waiting ok)).
Proof.
  intros Hw Hf. destruct (stages_uninterrupted e (move_with w (set_trigger false (w_manager w)) Fetching) eq_refl Hf) as [n Hn].
  exists (S n). unfold thread_turn. cbn [w_manager move_with] in Hn. unfold set_trigger in Hn at 2.
  destruct (_update _ _ _ _ _) as [m' r]. exists (is_ok r). cbn [replicate run step]. unfold thread_step at 1. rewrite Hw. exact Hn.
Qed.

(** ** No request is lost *)

(** A table that is not ready while the thread sleeps is asked for again, or could not be had. *)
Definition remembered (w : world) : Prop :=
  match w_at w with
  | Waiting ok => sm_ready (w_manager w) = true \/ sm_trigger (w_manager w) = true \/ (0 < w_setters w)%nat \/ w_failing w <> None \/ ok = false
  | _ => True
  end.

Lemma drop_peer_flags p w w' : drop_peer p w = Some w' ->
  w_at w' = w_at w /\ w_setters w' = w_setters w /\ sm_trigger (w_manager w') = sm_trigger (w_manager w) /\
  (sm_ready (w_manager w') = sm_ready (w_manager w) \/ w_failing w' <> None) /\ w_failing w = None.
Proof. unfold drop_peer. destruct (w_failing w) eqn:E; [done|]. intros [= <-]. destruct (existsb _ _); cbn; split_and!; auto. Qed.

Lemma remembered_step a w w' : remembered w -> step a w = Some w' -> remembered w'.
Proof.
  intros H Hs. destruct a; cbn [step] in Hs.
  - unfold thread_step in Hs. destruct (w_at w) eqn:Ep; try (injection Hs as <-); try done; unfold remembered; cbn.
    + by destruct (w_stop w).
    + by destruct (w_gone w).
    + repeat case_match; simplify_eq; auto 7.
    + destruct (w_failing w); [done|]. destruct (store e (w_manager w) infos) as [m1 [peers|er]]; injection Hs as <-; cbn; auto.
    + by left.
    + destruct (sm_trigger (w_manager w)); by simplify_eq.
  - unfold timeout in Hs. by destruct (w_at w); simplify_eq.
  - injection Hs as <-. unfold start_thread, is_alive. destruct (w_at w) eqn:Ep; cbn; try done; unfold remembered in *; by rewrite Ep in *.
  - injection Hs as <-. unfold remembered, clear_ready. cbn. destruct (w_at w); try done. right; right; left. lia.
  - unfold raise_trigger in Hs. destruct (w_setters w); simplify_eq. unfold remembered. cbn. destruct (w_at w); auto.
  - injection Hs as <-. unfold remembered in *. exact H.
  - destruct (drop_peer_flags _ _ _ Hs) as (Hp & Hn & Ht & Hr & Hf). unfold remembered in *. rewrite Hp, Hn, Ht.
    destruct (w_at w); try done. rewrite Hf in H. destruct Hr as [-> | Hr]; [naive_solver|by auto].
  - unfold failure_update in Hs. unfold remembered. destruct (w_failing w) as [[]|]; simplify_eq; cbn; destruct (w_at w); try done; auto.
  - injection Hs as <-. unfold remembered in *. exact H.
  - injection Hs as <-. unfold remembered in *. cbn. destruct (w_at w); try done. right; right; left. lia.
  - unfold collect in Hs. unfold remembered in *. destruct (w_at w) eqn:Ep; simplify_eq; cbn; done.
Qed.

(** The trigger stays set until the thread clears it. *)
Lemma trigger_step a w w' : sm_trigger (w_manager w) = true -> step a w = Some w' ->
  sm_trigger (w_manager w') = true \/ (exists e, a = Thread e) /\ w_at w = Clearing.
Proof.
  intros H Hs. destruct a; cbn [step] in Hs.
  - unfold thread_step in Hs. destruct (w_at w) eqn:Ep; try (simplify_eq; cbn; by auto).
    + right. split; [by eexists|done].
    + destruct (w_failing w); [done|]. unfold store in Hs. destruct (update_ _ _ _). injection Hs as <-. by left.
    + rewrite H in Hs. injection Hs as <-. by left.
  - unfold timeout in Hs. left. by destruct (w_at w); simplify_eq.
  - injection Hs as <-. left. unfold start_thread, is_alive. by destruct (w_at w).
  - injection Hs as <-. by left.
  - unfold raise_trigger in Hs. destruct (w_setters w); simplify_eq. by left.
  - injection Hs as <-. by left.
  - left. by destruct (drop_peer_flags _ _ _ Hs) as (_ & _ & -> & _).
  - unfold failure_update in Hs. left. destruct (w_failing w) as [[]|]; by simplify_eq.
  - injection Hs as <-. by left.
  - injection Hs as <-. by left.
  - unfold collect in Hs. left. destruct (w_at w); by simplify_eq.
Qed.

Lemma trigger_served tr w w' : sm_trigger (w_manager w) = true -> run tr w = Some w' ->
  sm_trigger (w_manager w') = true \/
  exists tr1 e tr2 w1, tr = tr1 ++ Thread e :: tr2 /\ run tr1 w = Some w1 /\ w_at w1 = Clearing.
Proof.
  revert w. induction tr as [|a tr IH]; intros w H Hr; cbn in Hr; [simplify_eq; by left|].
  destruct (step a w) as [w1|] eqn:Es; [|done]. destruct (trigger_step a w w1 H Es) as [H1|[[e ->] Hc]].
  - destruct (IH w1 H1 Hr) as [?|(tr1 & e & tr2 & w2 & -> & H2 & Hc)]; [by left|]. right. exists (a :: tr1), e, tr2, w2. cbn. by rewrite Es.
  - right. by exists [], e, tr, w.
Qed.

Lemma remembered_run tr w w' : remembered w -> run tr w = Some w' -> remembered w'.
Proof.
  revert w. induction tr as [|a tr IH]; intros w H Hr; cbn in Hr; [by simplify_eq|].
  destruct (step a w) as [w1|] eqn:Es; [|done]. by eapply IH; [eapply remembered_step|].
Qed.

(** C27: However requests, failures, updates and shutdowns interleave: when the thread sleeps, a table that is not ready is
    about to be refreshed or could not be had the last time, so nobody waits for it in vain; and whenever the trigger was
    set, it still is, so that the thread goes on, or the thread has begun an update after that. *)
Theorem update_requests_served m tr w ok :
  run tr (created m) = Some w -> w_at w = Waiting ok ->
  (sm_ready (w_manager w) = false ->
     sm_trigger (w_manager w) = true \/ (0 < w_setters w)%nat \/ w_failing w <> None \/ ok = false) /\
  (forall tr1 tr2 w1, tr = tr1 ++ tr2 -> run tr1 (created m) = Some w1 -> sm_trigger (w_manager w1) = true ->
     sm_trigger (w_manager w) = true \/
     exists tr3 e tr4 w2, tr2 = tr3 ++ Thread e :: tr4 /\ run tr3 w1 = Some w2 /\ w_at w2 = Clearing).
Proof.
  intros Hr Hw. split.
  - intros Hn. assert (H : remembered w) by (by eapply remembered_run; [|exact Hr]). unfold remembered in H. rewrite Hw, Hn in H. naive_solver.
  - intros tr1 tr2 w1 -> H1 Ht. rewrite trace_app, H1 in Hr. exact (trigger_served tr2 w1 w Ht Hr).
Qed.

(** ** The thread comes to rest *)

(** The statements before the thread sleeps or ends. *)
Definition rank (p : place) : nat :=
  match p with
  | Checking => 8 | Resolving => 7 | Clearing => 6 | Fetching => 5 | Filtering _ => 4 | Storing _ => 3 | Pinging _ => 2 | Reporting => 1
  | NotStarted | Waiting _ | Exited => 0
  end.

(** What a statement leaves alone, and that it is one less. *)
Record advanced (w w' : world) : Prop := {
  ad_rank : (rank (w_at w') < rank (w_at w))%nat;
  ad_started : w_at w' <> NotStarted;
  ad_stop : w_stop w' = w_stop w;
  ad_gone : w_gone w' = w_gone w;
  ad_failing : w_failing w' = w_failing w;
  ad_trigger : (rank (w_at w) <= 5)%nat -> sm_trigger (w_manager w') = sm_trigger (w_manager w);
  ad_ready : w_at w' = Waiting true -> sm_ready (w_manager w') = true;
  ad_exit : w_at w' = Exited -> w_stop w = true \/ w_gone w = true;
}.

Lemma thread_advances e w : (0 < rank (w_at w))%nat -> w_failing w = None -> exists w', thread_step e w = Some w' /\ advanced w w'.
Proof.
  intros H Hf. unfold thread_step. rewrite Hf. destruct (w_at w) eqn:Ep; cbn in H; try lia; try (destruct (store e (w_manager w) infos) as [m1 r] eqn:Es);
    (eexists; split; [reflexivity|]); constructor; cbn; rewrite ?Ep; cbn; try done; try lia;
    repeat case_match; cbn in *; simplify_eq; try done; try lia; auto.
  all: intros _; unfold store in Es; destruct (update_ _ _ _); by simplify_eq.
Qed.

Lemma comes_to_rest e w : w_at w <> NotStarted -> w_failing w = None ->
  exists n w', (n <= rank (w_at w))%nat /\ run (replicate n (Thread e)) w = Some w' /\ rank (w_at w') = 0%nat /\ w_at w' <> NotStarted /\
    w_stop w' = w_stop w /\ w_gone w' = w_gone w /\
    ((rank (w_at w) <= 5)%nat -> sm_trigger (w_manager w') = sm_trigger (w_manager w)) /\
    ((0 < rank (w_at w))%nat -> (w_at w' = Waiting true -> sm_ready (w_manager w') = true) /\ (w_at w' = Exited -> w_stop w = true \/ w_gone w = true)).
Proof.
  remember (rank (w_at w)) as k eqn:Ek. revert w Ek. induction k as [k IH] using lt_wf_ind. intros w -> Hs Hf.
  destruct (decide (rank (w_at w) = 0%nat)) as [E|E].
  - exists 0%nat, w. rewrite E. split_and!; first [done|lia].
  - destruct (thread_advances e w) as (w1 & Hst & [A1 A2 A3 A4 A8 A5 A6 A7]); [lia|done|].
    destruct (IH _ A1 w1 eq_refl A2 (eq_trans A8 Hf)) as (n & w2 & Hn & Hr & B1 & B2 & B3 & B4 & B5 & B6).
    exists (S n), w2. split_and!; [lia| |done|done|congruence|congruence| |].
    + cbn [replicate run step]. by rewrite Hst.
    + intros H. rewrite B5 by lia. by apply A5.
    + intros _. destruct (decide (rank (w_at w1) = 0%nat)) as [E1|E1].
      * rewrite E1 in Hn. destruct n; [|lia]. cbn in Hr. injection Hr as <-. done.
      * rewrite <- A3, <- A4. apply B6. lia.
Qed.

Lemma rests_where w : rank (w_at w) = 0%nat -> w_at w <> NotStarted -> w_at w = Exited \/ exists ok, w_at w = Waiting ok.
Proof. destruct (w_at w); cbn; try done; try lia; eauto. Qed.

Lemma woken e w ok : w_at w = Waiting ok -> sm_trigger (w_manager w) = true -> thread_step e w = Some (move w Checking).
Proof. intros Hw Ht. unfold thread_step. by rewrite Hw, Ht. Qed.

Lemma stopped_at_check e w : w_at w = Checking -> w_stop w = true -> thread_step e w = Some (move w Exited).
Proof. intros Hw Hs. unfold thread_step. by rewrite Hw, Hs. Qed.

(** A thread that has been told to stop ends after a few statements, or when its period ends: the latter only if it has
    cleared the trigger of [shutdown], between the check of [should_shutdown] and its sleep. *)
Theorem thread_stops e w : w_stop w = true -> w_at w <> NotStarted -> w_failing w = None ->
  exists n w', (n <= 10)%nat /\ run (replicate n (Thread e)) w = Some w' /\
    (w_at w' = Exited \/
     (sm_trigger (w_manager w') = false /\ run [Timeout; Thread e] w' = Some (move w' Exited))) /\
    (sm_trigger (w_manager w) = true -> w_at w <> Resolving -> w_at w <> Clearing -> w_at w' = Exited).
Proof.
  intros Hs Hn Hf. destruct (comes_to_rest e w Hn Hf) as (n & w1 & Hk & Hr & H0 & H1 & H2 & _ & H3 & _).
  assert (Hk8 : (rank (w_at w) <= 8)%nat) by (destruct (w_at w); cbn; lia).
  destruct (rests_where w1 H0 H1) as [He|[ok Hw]]; [exists n, w1; split_and!; [lia|done|by left|done]|].
  destruct (sm_trigger (w_manager w1)) eqn:Et.
  - exists (n + 2)%nat, (move w1 Exited). split_and!; [lia| |by left|done].
    rewrite replicate_add, trace_app, Hr. cbn [mbind option_bind replicate run step]. rewrite (woken e w1 ok Hw Et). cbn [mbind option_bind run step].
    by rewrite stopped_at_check by (by cbn; rewrite ?H2).
  - exists n, w1. split_and!; [lia|done| |].
    + right. split; [done|]. cbn [run step]. unfold timeout. rewrite Hw. cbn. by rewrite H2, Hs.
    + intros Ht Hnr Hnc. destruct (decide (rank (w_at w) <= 5)%nat) as [E|E]; [specialize (H3 E); congruence|].
      assert (Hc : w_at w = Checking) by (destruct (w_at w); cbn in E; try done; lia).
      exfalso. destruct n as [|n]; [injection Hr as ->; congruence|]. cbn [replicate run step] in Hr. rewrite (stopped_at_check e w Hc Hs) in Hr. cbn in Hr.
      destruct n as [|n]; cbn in Hr; [|done]. injection Hr as <-. discriminate Hw.
Qed.

(** A running thread that is asked for an update completes one, after which the table is ready unless it could not be had. *)
Theorem update_completes e w : w_stop w = false -> w_gone w = false -> w_failing w = None -> w_at w <> NotStarted -> w_at w <> Exited ->
  ((exists ok, w_at w = Waiting ok) -> sm_trigger (w_manager w) = true) ->
  exists n w' ok, (n <= 9)%nat /\ run (replicate n (Thread e)) w = Some w' /\ w_at w' = Waiting ok /\ (ok = true -> sm_ready (w_manager w') = true).
Proof.
  intros Hs Hg Hf Hn Hx Ht.
  assert (Hgo : forall w1, w_stop w1 = false -> w_gone w1 = false -> w_failing w1 = None -> (0 < rank (w_at w1))%nat -> exists n w' ok, (n <= 8)%nat /\
    run (replicate n (Thread e)) w1 = Some w' /\ w_at w' = Waiting ok /\ (ok = true -> sm_ready (w_manager w') = true)).
  { intros w1 Hs1 Hg1 Hf1 Hr1. destruct (comes_to_rest e w1) as (n & w2 & Hk & Hr & H0 & H1 & _ & _ & _ & Hq); [by destruct (w_at w1); cbn in Hr1; try lia|done|].
    destruct (Hq Hr1) as [Hrd He]. destruct (rests_where w2 H0 H1) as [E|[ok E]]; [destruct (He E); congruence|].
    exists n, w2, ok. split_and!; [|done|done|by intros ->; apply Hrd]. etrans; [exact Hk|]. destruct (w_at w1); cbn; lia. }
  destruct (decide (rank (w_at w) = 0%nat)) as [E|E].
  - destruct (rests_where w E Hn) as [?|[ok Hw]]; [done|].
    destruct (Hgo (move w Checking)) as (n & w2 & ok' & Hk & Hr & Hrest); [done..|cbn; lia|].
    exists (S n), w2, ok'. split_and!; [lia| |apply Hrest..]. cbn [replicate run step]. rewrite (woken e w ok Hw) by eauto. exact Hr.
  - destruct (Hgo w) as (n & w2 & ok' & Hk & Hrest); [done..|lia|]. exists n, w2, ok'. split; [lia|done].
Qed.

(** Once the thread has ended, requests for a table are refused. *)
Lemma start_after_end w : w_at w = Exited -> start_thread w = (w, Err RuntimeError).
Proof. intros Hw. unfold start_thread, is_alive. by rewrite Hw. Qed.

(** ** Two requests that are not honoured *)

(** A shutdown whose trigger is set after the thread has checked [should_shutdown] is cleared with it: the thread goes to
    sleep, and who joins it waits for the whole period. *)
Lemma shutdown_signal_lost e m m' ok w :
  run [Start; Thread e; Thread e; Stop; SetTrigger] (created m) = Some w ->
  _update (set_trigger false (w_manager w)) (en_found e) (en_now e) (en_seed e) (en_pings e) = (m', ok) -> sm_trigger m' = false ->
  w_stop w = true /\ exists n w', run (replicate n (Thread e)) w = Some w' /\ w_at w' = Waiting (is_ok ok) /\ thread_step e w' = None.
Proof.
  intros Hr Hu Ht. cbn in Hr. injection Hr as <-. split; [done|].
  destruct (stages_uninterrupted e (move_with (mkWorld (set_trigger true (sm_with_flags m (sm_ready m) (sm_trigger m) true)) Clearing true false 0 None)
    (set_trigger false (set_trigger true (sm_with_flags m (sm_ready m) (sm_trigger m) true))) Fetching) eq_refl eq_refl) as [n Hn].
  cbn [w_manager move_with] in Hn. cbn [w_manager with_manager with_setters move move_with request_stop] in Hu. rewrite Hu in Hn.
  exists (S n), (mkWorld m' (Waiting (is_ok ok)) true false 0 None). split_and!; [|done|]; cbn; [exact Hn|by rewrite Ht].
Qed.

(** Storing new records writes over what a failed request has removed from the old ones. *)
Lemma replace_popped p uids old news : length old = length uids -> length news = length uids ->
  replace_servers uids old news = (news, Ok ()) -> replace_servers uids (map (pop_server p) old) news = (news, Ok ()).
Proof.
  revert old news. induction uids as [|u uids IH]; intros [|o old] [|x news] Ho Hn H; try done. cbn in *.
  case_decide; [|by simplify_eq]. destruct (replace_servers uids old news) as [rest r] eqn:E. injection H as Hx -> ->.
  rewrite (IH old news) by (first [lia|done]). cbn. by rewrite Hx.
Qed.

(** A ban that comes after the thread has applied the bans, before it takes the lock, does not reach the new table. *)
Lemma late_ban_ignored e m infos p :
  length (sq_block_infos (sm_info m)) = length (sq_block_uids (sm_info m)) -> length infos = length (sq_block_uids (sm_info m)) ->
  replace_servers (sq_block_uids (sm_info m)) (sq_block_infos (sm_info m)) infos = (infos, Ok ()) -> is_ok (_sort_spans infos) = true ->
  sm_info (store e (without_peer (Some p) (w_manager (ban p (created m)))) infos).1 = sm_info (store e m infos).1.
Proof.
  intros Ho Hn Hr Hs. unfold store, update_, without_peer. cbn. rewrite (replace_popped p _ _ _ Ho Hn Hr), Hr.
  assert (Hz : (zlen infos =? zlen (sq_block_uids (sm_info m))) = true) by (unfold zlen; rewrite Hn; apply Z.eqb_refl).
  rewrite Hz. cbn. by destruct (_sort_spans infos) as [[prio rows]|].
Qed.

End routing_thread.

(** ** Example

    The client of Discovery.v makes its table, is asked for another one, and makes it. *)
Definition example_environment : environment := mkEnvironment (simple_dht example_entries) f_one 0 (fun _ => []).

Definition example_turn : list action := replicate 8 (Thread example_environment).
Definition before_request : list action := Start :: example_turn ++ [ClearReady; SetTrigger].
Definition after_request : list action := Thread example_environment :: example_turn.

Definition world_after (tr : list action) : world := or_default (run tr (created example_client)) (created example_client).

Lemma example_world_run tr : bool_decide (is_Some (run tr (created example_client))) = true -> run tr (created example_client) = Some (world_after tr).
Proof. intros [w Hw]%bool_decide_eq_true. unfold world_after. by rewrite Hw. Qed.

Definition sleeps (w : world) : bool := match w_at w with Waiting ok => ok | _ => false end.

Lemma sleeps_waiting w : sleeps w = true -> w_at w = Waiting true.
Proof. unfold sleeps. by destruct (w_at w) as [| | | | | | | | |[]|]. Qed.

Lemma update_requests_served_witness :
  exists tr3 e tr4 w2, after_request = tr3 ++ Thread e :: tr4 /\ run tr3 (world_after before_request) = Some w2 /\ w_at w2 = Clearing.
Proof.
  destruct (update_requests_served example_client (before_request ++ after_request) (world_after (before_request ++ after_request)) true) as [_ H].
  - apply example_world_run. vm_compute. reflexivity.
  - apply sleeps_waiting. vm_compute. reflexivity.
  - destruct (H before_request after_request (world_after before_request) eq_refl) as [Ht|Hs]; [| |exfalso|exact Hs].
    + apply example_world_run. vm_compute. reflexivity.
    + vm_compute. reflexivity.
    + assert (Hn : sm_trigger (w_manager (world_after (before_request ++ after_request))) = false) by (vm_compute; reflexivity).
      rewrite Hn in Ht. discriminate Ht.
Defined.
