(* ===== verification/HandlerSessions.v ===== *)
(** * HandlerSessions: the session queues of [server/handler.py]

    A server runs several connection handlers, each in its own process.  A session of [rpc_inference] lives in
    one of them, but another server may deliver its [rpc_push] to any of them: handlers tell each other which
    sessions they own through one event queue per handler and forward pushed requests the same way. *)

From S2P Require Import Prelude PyString PyDict.

Section handler_sessions.
Context {request : Type}.

(** [Event] with its payload: who sends it, or the pushed request. *)
Inductive event :=
  | NEW_SESSION (session_id : string) (owner : nat)
  | END_SESSION (session_id : string) (owner : nat)
  | PUSH (session_id : string) (r : request)
  | SHUTDOWN.

(** The part of [TransformerConnectionHandler] that sessions use; a session queue holds requests and [None]. *)
Record handler := mkHandler {
  session_queues : list (string * list (option request));
  session_handlers : list (string * nat);
  listening : bool;
}.

Definition new_handler : handler := mkHandler [] [] true.

(** All handlers, and the event queue of each. *)
Record processes := mkProcesses {
  handlers : list handler;
  event_queues : list (list event);
}.

Definition start (num_handlers : nat) : processes :=
  mkProcesses (replicate num_handlers new_handler) (replicate num_handlers []).

Definition with_handler (w : processes) (i : nat) (h : handler) : processes :=
  mkProcesses (<[i := h]> (handlers w)) (event_queues w).

(** [other_queue.put_nowait(e)] for every handler but [i] *)
Definition broadcast (i : nat) (e : event) (qs : list (list event)) : list (list event) :=
  imap (fun j q => if decide (j = i) then q else q ++ [e]) qs.

Definition send (w : processes) (k : nat) (e : event) : processes :=
  mkProcesses (handlers w) (alter (fun q => q ++ [e]) k (event_queues w)).

(** ** _managed_session *)

Definition open_session (i : nat) (sid : string) (w : processes) : result processes :=
  h ← get_or IndexError (handlers w !! i);
  _ ← assert_ (negb (dmem (session_queues h) sid));
  let h' := mkHandler (dset (session_queues h) sid []) (dset (session_handlers h) sid i) (listening h) in
  mret (mkProcesses (<[i := h']> (handlers w)) (broadcast i (NEW_SESSION sid i) (event_queues w))).

(** The [finally] block: the queue is dropped (a pending [get] on it receives [None]), and [del] raises a
    [KeyError] if the session is not in the table any more; the other handlers are told only after that. *)
Definition close_session (i : nat) (sid : string) (w : processes) : processes * result unit :=
  match handlers w !! i with
  | None => (w, Err IndexError)
  | Some h =>
      match dget (session_queues h) sid with
      | None => (w, Err KeyError)
      | Some _ =>
          let queues := dpop (session_queues h) sid in
          match dget (session_handlers h) sid with
          | None => (with_handler w i (mkHandler queues (session_handlers h) (listening h)), Err KeyError)
          | Some _ =>
              let h' := mkHandler queues (dpop (session_handlers h) sid) (listening h) in
              (mkProcesses (<[i := h']> (handlers w)) (broadcast i (END_SESSION sid i) (event_queues w)), Ok ())
          end
      end
  end.

(** ** Pushes *)

Definition put (h : handler) (sid : string) (r : option request) : option handler :=
  q ← dget (session_queues h) sid;
  Some (mkHandler (dset (session_queues h) sid (q ++ [r])) (session_handlers h) (listening h)).

Definition _put_into_session_queue (i : nat) (sid : string) (r : request) (w : processes) : result processes :=
  h ← get_or IndexError (handlers w !! i);
  match dget (session_handlers h) sid with
  | None => Ok w
  | Some k =>
      if decide (k = i) then
        h' ← get_or KeyError (put h sid (Some r));
        Ok (with_handler w i h')
      else Ok (send w k (PUSH sid r))
  end.

(** [await self._session_queues[session_id].get()]: [None] when the queue is empty and the call waits. *)
Definition _get_from_session_queue (i : nat) (sid : string) (w : processes)
    : option (result (processes * option request)) :=
  match handlers w !! i with
  | None => Some (Err IndexError)
  | Some h =>
      match dget (session_handlers h) sid with
      | None => Some (Err KeyError)
      | Some k =>
          if decide (k = i) then
            match dget (session_queues h) sid with
            | None => Some (Err KeyError)
            | Some [] => None
            | Some (r :: q) =>
                Some (Ok (with_handler w i (mkHandler (dset (session_queues h) sid q) (session_handlers h) (listening h)), r))
            end
          else Some (Err AssertionError)
      end
  end.

(** ** _listen_to_event_queue *)

Definition handle_event (h : handler) (e : event) : handler :=
  match e with
  | SHUTDOWN => mkHandler (session_queues h) (session_handlers h) false
  | NEW_SESSION sid k => mkHandler (session_queues h) (dset (session_handlers h) sid k) (listening h)
  | END_SESSION sid _ => mkHandler (session_queues h) (dpop (session_handlers h) sid) (listening h)
  | PUSH sid r => or_default (put h sid (Some r)) h
  end.

(** One turn of the loop of handler [i]; [None] when it has to wait or has ended. *)
Definition listen (i : nat) (w : processes) : option processes :=
  h ← handlers w !! i;
  q ← event_queues w !! i;
  match q with
  | e :: q' => if listening h then Some (mkProcesses (<[i := handle_event h e]> (handlers w)) (<[i := q']> (event_queues w))) else None
  | [] => None
  end.

(** ** Interleavings *)

Inductive action :=
  | Open (i : nat) (sid : string)
  | Close (i : nat) (sid : string)
  | Push (i : nat) (sid : string) (r : request)
  | Get (i : nat) (sid : string)
  | Listen (i : nat).

(** A step of a handler; one that raises leaves what it has done so far. *)
Definition step (a : action) (w : processes) : option processes :=
  match a with
  | Open i sid => Some (from_ok w (open_session i sid w))
  | Close i sid => Some (close_session i sid w).1
  | Push i sid r => Some (from_ok w (_put_into_session_queue i sid r w))
  | Get i sid =>
      match _get_from_session_queue i sid w with
      | None => None
      | Some (Ok (w', _)) => Some w'
      | Some (Err _) => Some w
      end
  | Listen i => listen i w
  end.

Fixpoint run (tr : list action) (w : processes) : option processes :=
  match tr with
  | [] => Some w
  | a :: tr' => w' ← step a w; run tr' w'
  end.
End handler_sessions.
Arguments event : clear implicits.
Arguments handler : clear implicits.
Arguments processes : clear implicits.
Arguments action : clear implicits.

(** ** What the handlers know of one session *)

Section one_session.
Context {request : Type} (sid : string).
Abbreviation handler_ := (handler request).
Implicit Types (h : handler_) (q : list (event request)) (w : processes request) (e : event request).

Definition event_sid e : option string :=
  match e with NEW_SESSION s _ | END_SESSION s _ | PUSH s _ => Some s | SHUTDOWN => None end.

(** The table entry of the session after an event, and after a queue of events. *)
Definition entry_after (o : option nat) e : option nat :=
  match e with
  | NEW_SESSION s k => if decide (s = sid) then Some k else o
  | END_SESSION s _ => if decide (s = sid) then None else o
  | _ => o
  end.

Definition entry h : option nat := dget (session_handlers h) sid.
Definition future h q : option nat := fold_left entry_after q (entry h).

(** The requests for the session among events, and among the items of a queue. *)
Definition pushed q : list request :=
  somes ((fun e => match e with PUSH s r => if decide (s = sid) then Some r else None | _ => None end) <$> q).

Inductive life := Unborn | Live (k : nat) | Dead (k : nat).

#[global] Instance life_eq_dec : EqDecision life.
Proof. solve_decision. Defined.

(** What handler [j] holds about the session, and what it will be told. *)
Definition knows (l : life) (j : nat) h q : Prop :=
  match l with
  | Unborn => dget (session_queues h) sid = None /\ entry h = None /\ Forall (fun e => event_sid e <> Some sid) q
  | Live k =>
      if decide (j = k) then
        is_Some (dget (session_queues h) sid) /\ entry h = Some k /\
        Forall (fun e => event_sid e = Some sid -> exists r, e = PUSH sid r) q
      else
        dget (session_queues h) sid = None /\ (entry h = None \/ entry h = Some k) /\ future h q = Some k /\
        Forall (fun e => event_sid e = Some sid -> e = NEW_SESSION sid k) q
  | Dead k =>
      if decide (j = k) then
        dget (session_queues h) sid = None /\ entry h = None /\
        Forall (fun e => event_sid e = Some sid -> exists r, e = PUSH sid r) q
      else
        dget (session_queues h) sid = None /\ (entry h = None \/ entry h = Some k) /\ future h q = None /\
        Forall (fun e => event_sid e = Some sid -> e = NEW_SESSION sid k \/ e = END_SESSION sid k) q
  end.

(** The items of the session's queue, and the pushes on their way to its owner. *)
Definition queued w (k : nat) : list (option request) :=
  match handlers w !! k with Some h => or_default (dget (session_queues h) sid) [] | None => [] end.
Definition in_flight w (k : nat) : list request :=
  match event_queues w !! k with Some q => pushed q | None => [] end.

(** The requests accepted for the session, those its owner got, and where the others are. *)
Record invariant (l : life) w (acc got : list request) : Prop := {
  iv_length : length (handlers w) = length (event_queues w);
  iv_knows : forall j h q, handlers w !! j = Some h -> event_queues w !! j = Some q -> knows l j h q;
  iv_balance : match l with
               | Unborn => acc = [] /\ got = []
               | Live k => (k < length (handlers w))%nat /\
                   exists rs, queued w k = Some <$> rs /\ got ++ rs ++ in_flight w k ≡ₚ acc
               | Dead k => (k < length (handlers w))%nat
               end;
}.

Lemma entry_handle h e : entry (handle_event h e) = entry_after (entry h) e.
Proof.
  unfold entry. destruct e as [s k|s k|s r|]; simpl; try done.
  - by rewrite dget_dset.
  - by rewrite dget_dpop.
  - unfold put, or_default. by destruct (dget (session_queues h) s).
Qed.

Lemma future_handle h e q : future (handle_event h e) q = future h (e :: q).
Proof. unfold future. simpl. by rewrite entry_handle. Qed.

Lemma future_snoc h q e : future h (q ++ [e]) = entry_after (future h q) e.
Proof. unfold future. by rewrite fold_left_app. Qed.

Lemma entry_after_other o e : event_sid e <> Some sid -> entry_after o e = o.
Proof. destruct e; simpl; intros H; try done; by rewrite decide_False by congruence. Qed.

Lemma queues_handle_other h e s :
  event_sid e <> Some s -> dget (session_queues (handle_event h e)) s = dget (session_queues h) s.
Proof.
  destruct e as [s' k|s' k|s' r|]; simpl; intros H; try done. unfold put, or_default.
  destruct (dget (session_queues h) s') as [q|]; simpl; [|done]. by rewrite dget_dset_ne by congruence.
Qed.

Lemma queues_handle_table h e :
  (forall r, e <> PUSH sid r) -> dget (session_queues (handle_event h e)) sid = dget (session_queues h) sid.
Proof.
  intros H. destruct e as [s k|s k|s r|]; simpl; try done. apply (queues_handle_other h (PUSH s r)).
  simpl. intros [= ->]. by apply (H r).
Qed.

Lemma pushed_app q q' : pushed (q ++ q') = pushed q ++ pushed q'.
Proof.
  unfold pushed. rewrite fmap_app. induction (_ <$> q) as [|[r|] l IH]; simpl; by rewrite ?IH.
Qed.

Lemma pushed_other e : event_sid e <> Some sid -> pushed [e] = [].
Proof. destruct e; simpl; intros H; try done. unfold pushed. simpl. by rewrite decide_False by congruence. Qed.

(** Telling a handler about another session changes nothing here. *)
Lemma knows_other_event l j h q e : event_sid e <> Some sid -> knows l j h q -> knows l j h (q ++ [e]).
Proof.
  intros He. assert (Hf : future h (q ++ [e]) = future h q) by (by rewrite future_snoc, entry_after_other).
  assert (Hsnoc : forall P : event request -> Prop, Forall P q -> P e -> Forall P (q ++ [e])).
  { intros P Hq Hp. apply Forall_app. by repeat constructor. }
  unfold knows. rewrite Hf. destruct l; [|case_decide as Hd..]; intros H; repeat split; try tauto;
    apply Hsnoc; [apply H|done|apply H|congruence|apply H|congruence|apply H|congruence|apply H|congruence].
Qed.

(** Nor does a handler that changes what it holds about other sessions. *)
Lemma knows_same l j h h' q :
  dget (session_queues h') sid = dget (session_queues h) sid -> entry h' = entry h -> knows l j h q -> knows l j h' q.
Proof. intros Hq He. unfold knows, future. by rewrite Hq, He. Qed.

(** A handler takes the first event of its queue. *)
Lemma knows_handle l j h e q : knows l j h (e :: q) -> knows l j (handle_event h e) q.
Proof.
  unfold knows. rewrite entry_handle, future_handle. destruct l as [|k|k].
  - intros (Hq & He & Hall). apply Forall_cons in Hall as [Hs Hall].
    by rewrite queues_handle_other, entry_after_other.
  - case_decide as Hj.
    + intros (Hq & He & Hall). apply Forall_cons in Hall as [Hs Hall]. split; [|split]; [| |done].
      * destruct (decide (event_sid e = Some sid)) as [E|E]; [|by rewrite queues_handle_other].
        destruct (Hs E) as [r ->]. simpl. unfold put. destruct Hq as [x Hx]. rewrite Hx. simpl.
        rewrite dget_dset_eq. eauto.
      * destruct (decide (event_sid e = Some sid)) as [E|E]; [by destruct (Hs E) as [r ->]|by rewrite entry_after_other].
    + intros (Hq & He & Hf & Hall). apply Forall_cons in Hall as [Hs Hall]. split; [|split]; [| |done].
      * rewrite queues_handle_table; [done|]. intros r ->. by discriminate Hs.
      * destruct (decide (event_sid e = Some sid)) as [E|E]; [|by rewrite entry_after_other].
        rewrite (Hs E). simpl. rewrite decide_True by done. by right.
  - case_decide as Hj.
    + intros (Hq & He & Hall). apply Forall_cons in Hall as [Hs Hall]. split; [|split]; [| |done].
      * destruct (decide (event_sid e = Some sid)) as [E|E]; [|by rewrite queues_handle_other].
        destruct (Hs E) as [r ->]. simpl. unfold put. by rewrite Hq.
      * destruct (decide (event_sid e = Some sid)) as [E|E]; [by destruct (Hs E) as [r ->]|by rewrite entry_after_other].
    + intros (Hq & He & Hf & Hall). apply Forall_cons in Hall as [Hs Hall]. split; [|split]; [| |done].
      * rewrite queues_handle_table; [done|]. intros r ->. by destruct Hs.
      * destruct (decide (event_sid e = Some sid)) as [E|E]; [|by rewrite entry_after_other].
        destruct (Hs E) as [-> | ->]; simpl; rewrite decide_True by done; auto.
Qed.
(** ** Steps *)

(** The requests for the session that a step accepts, and that it hands to the session. *)
Definition accepts (a : action request) w : list request :=
  match a with
  | Push i s r =>
      match decide (s = sid), handlers w !! i with
      | left _, Some h => match entry h with Some _ => [r] | None => [] end
      | _, _ => []
      end
  | _ => []
  end.

Definition obtains (a : action request) w : list request :=
  match a with
  | Get i s => if decide (s = sid) then match _get_from_session_queue i s w with Some (Ok (_, Some r)) => [r] | _ => [] end else []
  | _ => []
  end.

(** A step that concerns other sessions. *)
Lemma invariant_other l w w' acc got :
  length (handlers w') = length (handlers w) -> length (event_queues w') = length (event_queues w) ->
  (forall j h', handlers w' !! j = Some h' -> exists h, handlers w !! j = Some h /\
    dget (session_queues h') sid = dget (session_queues h) sid /\ entry h' = entry h) ->
  (forall j q', event_queues w' !! j = Some q' -> exists q, event_queues w !! j = Some q /\
    (q' = q \/ exists e, event_sid e <> Some sid /\ q' = q ++ [e])) ->
  invariant l w acc got -> invariant l w' acc got.
Proof.
  intros Hlh Hlq Hh Hq [Hlen Hk Hb]. split; [by rewrite Hlh, Hlq| |].
  - intros j h' q' Hj Hj'. destruct (Hh _ _ Hj) as (h & Hjh & Hqs & He). destruct (Hq _ _ Hj') as (q & Hjq & Hqq).
    apply (knows_same l j h); [done|done|]. specialize (Hk j h q Hjh Hjq).
    destruct Hqq as [->|(e & Hne & ->)]; [done|by apply knows_other_event].
  - rewrite Hlh. destruct l as [|k|k]; [done| |done]. destruct Hb as (Hlt & rs & Hqd & Hp). split; [done|].
    exists rs. rewrite <- Hqd. split.
    + unfold queued. destruct (lookup_lt_is_Some_2 (handlers w') k) as [h' Hh']; [by rewrite Hlh|].
      destruct (Hh _ _ Hh') as (h & Hjh & Hqs & _). by rewrite Hh', Hjh, Hqs.
    + rewrite <- Hp. do 2 f_equiv. unfold in_flight.
      destruct (lookup_lt_is_Some_2 (event_queues w') k) as [q' Hq']; [by rewrite Hlq, <- Hlen|].
      destruct (Hq _ _ Hq') as (q & Hjq & Hqq). rewrite Hq', Hjq.
      destruct Hqq as [->|(e & Hne & ->)]; [done|]. by rewrite pushed_app, (pushed_other e), app_nil_r.
Qed.

Lemma lookup_broadcast i e (qs : list (list (event request))) j :
  broadcast i e qs !! j = (fun q => if decide (j = i) then q else q ++ [e]) <$> qs !! j.
Proof. unfold broadcast. by rewrite list_lookup_imap. Qed.

Lemma length_broadcast i e (qs : list (list (event request))) : length (broadcast i e qs) = length qs.
Proof. unfold broadcast. apply length_imap. Qed.

(** A handler of its own changes what it holds about other sessions, and may tell the others. *)
Lemma invariant_replace l w i h h' qs acc got :
  handlers w !! i = Some h -> dget (session_queues h') sid = dget (session_queues h) sid -> entry h' = entry h ->
  length qs = length (event_queues w) ->
  (forall j q', qs !! j = Some q' -> exists q, event_queues w !! j = Some q /\
    (q' = q \/ exists e, event_sid e <> Some sid /\ q' = q ++ [e])) ->
  invariant l w acc got -> invariant l (mkProcesses (<[i := h']> (handlers w)) qs) acc got.
Proof.
  intros Hi Hq He Hl Hqs. apply invariant_other; simpl; [by rewrite length_insert|done| |done].
  intros j hj Hj. destruct (decide (i = j)) as [<-|Hne].
  - rewrite list_lookup_insert_eq in Hj by (by eapply lookup_lt_Some). injection Hj as <-. eauto.
  - rewrite list_lookup_insert_ne in Hj by done. eauto.
Qed.

Lemma same_queues w j q' :
  event_queues w !! j = Some q' -> exists q, event_queues w !! j = Some q /\
    (q' = q \/ exists e, event_sid e <> Some sid /\ q' = q ++ [e]).
Proof. eauto. Qed.

Lemma broadcast_other i e w j q' : event_sid e <> Some sid ->
  broadcast i e (event_queues w) !! j = Some q' -> exists q, event_queues w !! j = Some q /\
    (q' = q \/ exists e, event_sid e <> Some sid /\ q' = q ++ [e]).
Proof.
  intros He. rewrite lookup_broadcast. destruct (event_queues w !! j) as [q|]; [|done]. simpl. intros [= <-].
  exists q. split; [done|]. case_decide; [by left|right]. by exists e.
Qed.

Lemma open_other l w i s acc got :
  s <> sid -> invariant l w acc got -> invariant l (from_ok w (open_session i s w)) acc got.
Proof.
  intros Hs Hinv. unfold open_session. destruct (handlers w !! i) as [h|] eqn:Eh; [|done]. simpl.
  unfold assert_. destruct (negb _); [|done]. simpl. eapply invariant_replace; [exact Eh| | | | |done]; simpl.
  - by rewrite dget_dset_ne.
  - unfold entry. simpl. by rewrite dget_dset_ne.
  - apply length_broadcast.
  - intros j q'. apply broadcast_other. simpl. congruence.
Qed.

Lemma close_other l w i s acc got :
  s <> sid -> invariant l w acc got -> invariant l (close_session i s w).1 acc got.
Proof.
  intros Hs Hinv. unfold close_session. destruct (handlers w !! i) as [h|] eqn:Eh; [|done]. simpl.
  assert (Hpop : forall {V} (d : list (string * V)), dget (dpop d s) sid = dget d sid).
  { intros V d. rewrite dget_dpop. by rewrite decide_False. }
  destruct (dget (session_queues h) s); [|done].
  destruct (dget (session_handlers h) s); simpl; (eapply invariant_replace; [exact Eh| | | | |done]); simpl;
    unfold entry; simpl; rewrite ?Hpop; try done.
  - apply length_broadcast.
  - intros j q'. apply broadcast_other. simpl. congruence.
  - apply same_queues.
Qed.

Lemma put_other h s (x : option request) h' :
  s <> sid -> put h s x = Some h' -> dget (session_queues h') sid = dget (session_queues h) sid /\ entry h' = entry h.
Proof.
  intros Hs. unfold put. destruct (dget (session_queues h) s); simpl; [|done]. intros [= <-]. simpl.
  by rewrite dget_dset_ne.
Qed.

Lemma push_other l w i s r acc got :
  s <> sid -> invariant l w acc got -> invariant l (from_ok w (_put_into_session_queue i s r w)) acc got.
Proof.
  intros Hs Hinv. unfold _put_into_session_queue. destruct (handlers w !! i) as [h|] eqn:Eh; [|done]. simpl.
  destruct (dget (session_handlers h) s) as [k|]; [|done]. case_decide.
  - destruct (put h s (Some r)) as [h'|] eqn:Ep; [|done]. apply put_other in Ep as [Hq He]; [|done]. simpl.
    eapply invariant_replace; [exact Eh|done|done|done| |done]. apply same_queues.
  - simpl. eapply invariant_other; [..|exact Hinv]; simpl; [done|by rewrite length_alter|eauto|].
    intros j q'. destruct (decide (j = k)) as [->|Hne].
    + rewrite list_lookup_alter_eq. destruct (event_queues w !! k) as [q|]; [|done]. intros [= <-]. exists q.
      split; [done|right]. exists (PUSH s r). simpl. split; [congruence|done].
    + rewrite list_lookup_alter_ne by done. apply same_queues.
Qed.

Lemma get_other l w i s w' x acc got :
  s <> sid -> invariant l w acc got -> _get_from_session_queue i s w = Some (Ok (w', x)) -> invariant l w' acc got.
Proof.
  intros Hs Hinv. unfold _get_from_session_queue. destruct (handlers w !! i) as [h|] eqn:Eh; [|done].
  destruct (dget (session_handlers h) s); [|done]. case_decide; [|done].
  destruct (dget (session_queues h) s) as [[|y q]|]; [done| |done]. intros [= <- <-].
  eapply invariant_replace; [exact Eh| |done|done| |done]; simpl; [by rewrite dget_dset_ne|]. apply same_queues.
Qed.
(** *** Steps of the session itself *)

Lemma invariant_lookup l w acc got i h : invariant l w acc got -> handlers w !! i = Some h ->
  exists q, event_queues w !! i = Some q /\ knows l i h q.
Proof.
  intros [Hlen Hk _] Hi. destruct (lookup_lt_is_Some_2 (event_queues w) i) as [q Hq].
  { rewrite <- Hlen. by eapply lookup_lt_Some. }
  eauto.
Qed.

(** Nobody but the owner has a queue for the session. *)
Lemma knows_queue l j h q : knows l j h q -> is_Some (dget (session_queues h) sid) -> l = Live j.
Proof.
  unfold knows. intros H [x Hx]. destruct l as [|k|k].
  - destruct H as [H _]. congruence.
  - case_decide; [by subst|]. destruct H as [H _]. congruence.
  - case_decide; destruct H as [H _]; congruence.
Qed.

Lemma open_own w i : invariant Unborn w [] [] ->
  invariant (if decide (i < length (handlers w))%nat then Live i else Unborn) (from_ok w (open_session i sid w)) [] [].
Proof.
  intros Hinv. case_decide as Hi.
  2:{ unfold open_session. rewrite lookup_ge_None_2 by lia. done. }
  destruct (lookup_lt_is_Some_2 (handlers w) i Hi) as [h Hh].
  destruct (invariant_lookup _ _ _ _ _ _ Hinv Hh) as (q & Hq & Hqs & He & Hall).
  unfold open_session. rewrite Hh. simpl. unfold dmem. rewrite Hqs. simpl.
  destruct Hinv as [Hlen Hk _]. split; simpl.
  - by rewrite length_insert, length_broadcast.
  - intros j hj qj Hj Hqj. rewrite lookup_broadcast in Hqj. destruct (event_queues w !! j) as [qj0|] eqn:Ej; [|done].
    injection Hqj as <-. unfold knows. case_decide as Hji.
    + subst j. rewrite list_lookup_insert_eq in Hj by done. injection Hj as <-. simpl. unfold entry. simpl.
      rewrite !dget_dset_eq. split; [eauto|]. split; [done|]. rewrite Hq in Ej. injection Ej as <-.
      eapply Forall_impl; [exact Hall|]. intros e Hne Heq. done.
    + rewrite list_lookup_insert_ne in Hj by done. destruct (Hk j hj qj0 Hj Ej) as (Hqs' & He' & Hall').
      split; [done|]. split; [by left|]. split; [by rewrite future_snoc; simpl; rewrite decide_True|].
      apply Forall_app. split; [|by repeat constructor]. eapply Forall_impl; [exact Hall'|]. intros e Hne Heq. done.
  - rewrite length_insert. split; [done|]. exists []. unfold queued, in_flight. simpl.
    rewrite list_lookup_insert_eq by done. simpl. rewrite dget_dset_eq. split; [done|].
    rewrite lookup_broadcast, Hq. simpl. rewrite decide_True by done.
    assert (pushed q = []) as ->; [|done]. clear -Hall. induction Hall as [|e q He _ IH]; [done|].
    change (e :: q) with ([e] ++ q). by rewrite pushed_app, IH, pushed_other.
Qed.

Lemma close_own l w i acc got : invariant l w acc got ->
  invariant (if decide (l = Live i) then Dead i else l) (close_session i sid w).1 acc got.
Proof.
  intros Hinv. unfold close_session. destruct (handlers w !! i) as [h|] eqn:Hh.
  2:{ case_decide; [|done]. subst l. destruct Hinv as [_ _ [Hlt _]]. apply lookup_ge_None_1 in Hh. lia. }
  destruct (invariant_lookup _ _ _ _ _ _ Hinv Hh) as (q & Hq & Hkn).
  destruct (dget (session_queues h) sid) as [x|] eqn:Ex.
  2:{ case_decide; [|done]. subst l. unfold knows in Hkn. rewrite decide_True in Hkn by done.
      destruct Hkn as [[y Hy] _]. congruence. }
  assert (l = Live i) as -> by (eapply knows_queue; [exact Hkn|eauto]). rewrite decide_True by done.
  unfold knows in Hkn. rewrite decide_True in Hkn by done. destruct Hkn as (_ & He & Hall).
  unfold entry in He. rewrite He. simpl. destruct Hinv as [Hlen Hk [Hlt _]]. split; simpl.
  - by rewrite length_insert, length_broadcast.
  - intros j hj qj Hj Hqj. rewrite lookup_broadcast in Hqj. destruct (event_queues w !! j) as [qj0|] eqn:Ej; [|done].
    injection Hqj as <-. unfold knows. case_decide as Hji.
    + subst j. rewrite list_lookup_insert_eq in Hj by done. injection Hj as <-. simpl. unfold entry. simpl.
      rewrite !dget_dpop, !decide_True by done. rewrite Hq in Ej. injection Ej as <-. done.
    + rewrite list_lookup_insert_ne in Hj by done. specialize (Hk j hj qj0 Hj Ej). unfold knows in Hk.
      rewrite decide_False in Hk by done. destruct Hk as (Hqs' & He' & Hf & Hall'). split; [done|]. split; [done|].
      split; [by rewrite future_snoc; simpl; rewrite decide_True|]. apply Forall_app.
      split; [|constructor; [by right|constructor]]. eapply Forall_impl; [exact Hall'|]. intros e Hne Heq. left. auto.
  - by rewrite length_insert.
Qed.

Lemma put_own h (x : option request) (q : list (option request)) h' :
  dget (session_queues h) sid = Some q -> put h sid x = Some h' ->
  dget (session_queues h') sid = Some (q ++ [x]) /\ entry h' = entry h.
Proof. intros Hq. unfold put. rewrite Hq. simpl. intros [= <-]. simpl. by rewrite dget_dset_eq. Qed.

Lemma queued_at w k h : handlers w !! k = Some h -> queued w k = or_default (dget (session_queues h) sid) [].
Proof. intros H. unfold queued. by rewrite H. Qed.

Lemma in_flight_at w k q : event_queues w !! k = Some q -> in_flight w k = pushed q.
Proof. intros H. unfold in_flight. by rewrite H. Qed.

Lemma pushed_own r : pushed [PUSH sid r] = [r].
Proof. unfold pushed. simpl. by rewrite decide_True. Qed.

(** The state after handler [k] has changed, its own state and its event queue, and no other. *)
Lemma invariant_owner k w h h' q q' acc got acc' got' :
  invariant (Live k) w acc got -> handlers w !! k = Some h -> event_queues w !! k = Some q ->
  knows (Live k) k h' q' ->
  (forall rs, queued w k = Some <$> rs -> got ++ rs ++ pushed q ≡ₚ acc ->
    exists rs', or_default (dget (session_queues h') sid) [] = Some <$> rs' /\ got' ++ rs' ++ pushed q' ≡ₚ acc') ->
  invariant (Live k) (mkProcesses (<[k := h']> (handlers w)) (<[k := q']> (event_queues w))) acc' got'.
Proof.
  intros [Hlen Hk (Hlt & rs & Hqd & Hp)] Hh Hq Hkn Hbal. assert (Hltq : (k < length (event_queues w))%nat) by lia.
  split; cbn [handlers event_queues].
  - by rewrite !length_insert.
  - intros j hj qj Hj Hqj. destruct (decide (j = k)) as [->|Hne].
    + rewrite list_lookup_insert_eq in Hj by lia. rewrite list_lookup_insert_eq in Hqj by lia. injection Hj as <-. by injection Hqj as <-.
    + rewrite list_lookup_insert_ne in Hj by done. rewrite list_lookup_insert_ne in Hqj by done. by apply Hk.
  - rewrite length_insert. split; [done|]. rewrite (in_flight_at _ _ q Hq) in Hp. destruct (Hbal rs Hqd Hp) as (rs' & H1 & H2).
    exists rs'. rewrite (queued_at _ k h'), (in_flight_at _ k q') by (simpl; by apply list_lookup_insert_eq). done.
Qed.

Lemma insert_same {A} (l : list A) i x : l !! i = Some x -> <[i := x]> l = l.
Proof. apply list_insert_id. Qed.

Lemma push_own l w i r acc got : invariant l w acc got ->
  invariant l (from_ok w (_put_into_session_queue i sid r w)) (acc ++ accepts (Push i sid r) w) got.
Proof.
  intros Hinv. unfold _put_into_session_queue, accepts. destruct (decide (sid = sid)) as [_|]; [|done].
  destruct (handlers w !! i) as [h|] eqn:Hh; [|by rewrite app_nil_r].
  destruct (invariant_lookup _ _ _ _ _ _ Hinv Hh) as (q & Hq & Hkn). simpl. fold (entry h).
  destruct (entry h) as [k|] eqn:He; [|by rewrite app_nil_r]. case_decide as Hki.
  - subst k. unfold knows in Hkn. destruct l as [|k|k].
    + destruct Hkn as (_ & He' & _). congruence.
    + destruct (decide (i = k)) as [->|Hne].
      2:{ destruct Hkn as (_ & [?|?] & _); congruence. }
      destruct Hkn as ([x Hx] & _ & Hall). destruct (put h sid (Some r)) as [h'|] eqn:Ep.
      2:{ unfold put in Ep. rewrite Hx in Ep. done. }
      destruct (put_own _ _ _ _ Hx Ep) as [Hx' He']. cbn [get_or from_ok mbind result_bind]. unfold with_handler.
      rewrite <- (insert_same (event_queues w) k q Hq). eapply invariant_owner; [done|done|done| |].
      * unfold knows. destruct (decide (k = k)); [|done]. split; [eauto|]. split; [congruence|done].
      * intros rs Hrs Hp. rewrite (queued_at _ _ h Hh), Hx in Hrs. simpl in Hrs. subst x.
        exists (rs ++ [r]). rewrite Hx'. simpl. split; [by rewrite fmap_app|]. rewrite <- Hp. solve_Permutation.
    + destruct (decide (i = k)) as [->|Hne]; [destruct Hkn as (_ & He' & _); congruence|].
      destruct Hkn as (_ & [?|?] & _); congruence.
  - simpl. destruct Hinv as [Hlen Hk Hb]. unfold knows in Hkn. destruct l as [|k'|k'].
    + destruct Hkn as (_ & He' & _). congruence.
    + destruct (decide (i = k')) as [->|Hne]; [destruct Hkn as (_ & He' & _); congruence|].
      assert (k = k') as -> by (destruct Hkn as (_ & [?|?] & _); congruence).
      destruct Hb as (Hlt & rs & Hqd & Hp).
      destruct (lookup_lt_is_Some_2 (event_queues w) k') as [q' Hq']; [lia|].
      destruct (lookup_lt_is_Some_2 (handlers w) k') as [h' Hh']; [lia|].
      assert (send w k' (PUSH sid r) = mkProcesses (<[k' := h']> (handlers w)) (<[k' := q' ++ [PUSH sid r]]> (event_queues w))) as ->.
      { unfold send. rewrite insert_same by done. f_equal. apply list_eq. intros j.
        destruct (decide (j = k')) as [->|Hj].
        - rewrite list_lookup_alter_eq, list_lookup_insert_eq by (by eapply lookup_lt_Some). by rewrite Hq'.
        - by rewrite list_lookup_alter_ne, list_lookup_insert_ne. }
      eapply invariant_owner; [split; [done|done|eauto]|done|done| |].
      * specialize (Hk _ _ _ Hh' Hq'). unfold knows in *. rewrite decide_True in Hk |- * by done.
        destruct Hk as (Hx & He' & Hall). split; [done|]. split; [done|]. apply Forall_app. split; [done|].
        constructor; [eauto|constructor].
      * intros rs' Hrs' Hp'. exists rs'. rewrite (queued_at _ _ _ Hh') in Hrs'. split; [done|].
        rewrite pushed_app, pushed_own, <- Hp'. solve_Permutation.
    + destruct (decide (i = k')) as [->|Hne]; [destruct Hkn as (_ & He' & _); congruence|].
      assert (k = k') as -> by (destruct Hkn as (_ & [?|?] & _); congruence).
      split; cbn [handlers event_queues send]; [by rewrite length_alter| |done].
      intros j hj qj Hj Hqj. destruct (decide (j = k')) as [->|Hjk].
      * rewrite list_lookup_alter_eq in Hqj. destruct (event_queues w !! k') as [q'|] eqn:Hq'; [|done]. injection Hqj as <-.
        specialize (Hk _ _ _ Hj Hq'). unfold knows in *. rewrite decide_True in Hk |- * by done.
        destruct Hk as (Hx & He' & Hall). split; [done|]. split; [done|]. apply Forall_app. split; [done|].
        constructor; [eauto|constructor].
      * rewrite list_lookup_alter_ne in Hqj by done. by apply Hk.
Qed.

Lemma get_own l w i w' x acc got : invariant l w acc got ->
  _get_from_session_queue i sid w = Some (Ok (w', x)) ->
  exists r, x = Some r /\ invariant l w' acc (got ++ [r]).
Proof.
  intros Hinv. unfold _get_from_session_queue. destruct (handlers w !! i) as [h|] eqn:Hh; [|done].
  destruct (invariant_lookup _ _ _ _ _ _ Hinv Hh) as (q & Hq & Hkn).
  destruct (dget (session_handlers h) sid) as [k|] eqn:He; [|done]. case_decide as Hki; [|done]. subst k.
  destruct (dget (session_queues h) sid) as [[|y xs]|] eqn:Ex; [done| |done]. intros [= <- <-].
  assert (l = Live i) as -> by (eapply knows_queue; [exact Hkn|eauto]).
  destruct (iv_balance _ _ _ _ Hinv) as (Hlt & rs & Hqd & Hp). pose proof Hqd as Hqd'.
  rewrite (queued_at _ _ h Hh), Ex in Hqd'. simpl in Hqd'. destruct rs as [|r rs]; [done|]. injection Hqd' as -> ->.
  exists r. split; [done|]. unfold with_handler. rewrite <- (insert_same (event_queues w) i q Hq).
  eapply invariant_owner; [exact Hinv|done|done| |].
  - unfold knows in *. rewrite decide_True in Hkn |- * by done. destruct Hkn as (_ & He' & Hall). simpl.
    rewrite dget_dset_eq. eauto.
  - intros rs' Hrs' Hp'. rewrite (queued_at _ _ h Hh), Ex in Hrs'. simpl in Hrs'.
    destruct rs' as [|r' rs']; [done|]. injection Hrs' as <- Hrs'. exists rs'. simpl. rewrite dget_dset_eq. simpl.
    split; [done|]. rewrite <- Hp'. solve_Permutation.
Qed.

Lemma listen_own l w i w' acc got : invariant l w acc got -> listen i w = Some w' -> invariant l w' acc got.
Proof.
  intros Hinv. unfold listen. destruct (handlers w !! i) as [h|] eqn:Hh; simpl; [|done].
  destruct (event_queues w !! i) as [[|e q]|] eqn:Hq; simpl; [done| |done].
  destruct (listening h); [|done]. intros [= <-]. destruct (invariant_lookup _ _ _ _ _ _ Hinv Hh) as (q0 & Hq0 & Hkn).
  rewrite Hq in Hq0. injection Hq0 as <-. pose proof (knows_handle _ _ _ _ _ Hkn) as Hkn'.
  destruct (decide (l = Live i)) as [->|Hne].
  - eapply invariant_owner; [exact Hinv|done|done|exact Hkn'|]. intros rs Hrs Hp.
    rewrite (queued_at _ _ h Hh) in Hrs. unfold knows in Hkn. rewrite decide_True in Hkn by done.
    destruct Hkn as ([x Hx] & _ & Hall). apply Forall_cons in Hall as [Hs _]. rewrite Hx in Hrs. simpl in Hrs. subst x.
    change (e :: q) with ([e] ++ q) in Hp. rewrite pushed_app in Hp.
    destruct (decide (event_sid e = Some sid)) as [E|E].
    + destruct (Hs E) as [r ->]. exists (rs ++ [r]). simpl. unfold put. rewrite Hx. simpl. rewrite dget_dset_eq. simpl.
      split; [by rewrite fmap_app|]. rewrite pushed_own in Hp. rewrite <- Hp. solve_Permutation.
    + exists rs. rewrite queues_handle_other, Hx by done. simpl. rewrite pushed_other in Hp by done. done.
  - destruct Hinv as [Hlen Hk Hb]. split; cbn [handlers event_queues].
    + by rewrite !length_insert.
    + intros j hj qj Hj Hqj. destruct (decide (j = i)) as [->|Hji].
      * rewrite list_lookup_insert_eq in Hj by (by eapply lookup_lt_Some).
        rewrite list_lookup_insert_eq in Hqj by (by eapply lookup_lt_Some). injection Hj as <-. by injection Hqj as <-.
      * rewrite list_lookup_insert_ne in Hj by done. rewrite list_lookup_insert_ne in Hqj by done. by apply Hk.
    + rewrite length_insert. destruct l as [|k|k]; [done| |done]. destruct Hb as (Hlt & rs & Hqd & Hp). split; [done|].
      exists rs. unfold queued, in_flight in *. simpl. rewrite !list_lookup_insert_ne by congruence. done.
Qed.
(** *** Every step *)

Lemma step_invariant l w acc got a w' :
  invariant l w acc got -> (forall i, a = Open i sid -> l = Unborn) -> step a w = Some w' ->
  exists l', invariant l' w' (acc ++ accepts a w) (got ++ obtains a w) /\
    (l' <> Unborn -> l <> Unborn \/ exists i, a = Open i sid).
Proof.
  intros Hinv Hopen Hstep. destruct a as [i s|i s|i s r|i s|i]; cbn [step accepts obtains] in *; rewrite ?app_nil_r.
  - injection Hstep as <-. destruct (decide (s = sid)) as [->|Hne].
    + pose proof (Hopen i eq_refl) as ->. destruct (iv_balance _ _ _ _ Hinv) as [-> ->].
      eexists. split; [by apply open_own|]. eauto.
    + exists l. split; [by apply open_other|]. naive_solver.
  - injection Hstep as <-. destruct (decide (s = sid)) as [->|Hne].
    + eexists. split; [by apply close_own|]. case_decide; subst; naive_solver.
    + exists l. split; [by apply close_other|]. naive_solver.
  - injection Hstep as <-. destruct (decide (s = sid)) as [->|Hne].
    + exists l. split; [|naive_solver]. pose proof (push_own l w i r acc got Hinv) as H. unfold accepts in H.
      by destruct (decide (sid = sid)).
    + exists l. rewrite app_nil_r. split; [by apply push_other|naive_solver].
  - destruct (_get_from_session_queue i s w) as [[[w1 x]|e]|] eqn:Eg; [| |done]; injection Hstep as <-; exists l.
    + destruct (decide (s = sid)) as [->|Hne].
      * destruct (get_own _ _ _ _ _ _ _ Hinv Eg) as (r & -> & H). simpl. split; [done|naive_solver].
      * rewrite app_nil_r. split; [by eapply get_other|naive_solver].
    + case_decide; rewrite app_nil_r; (split; [done|naive_solver]).
  - exists l. split; [by eapply listen_own|naive_solver].
Qed.
End one_session.

(** What a run accepts for the session and hands to it. *)
Fixpoint log {request} (f : action request -> processes request -> list request) (tr : list (action request))
    (w : processes request) : list request :=
  match tr with
  | [] => []
  | a :: tr' => f a w ++ match step a w with Some w' => log f tr' w' | None => [] end
  end.

(** The sessions that a run opens. *)
Definition opened {request} (tr : list (action request)) : list string :=
  somes ((fun a => match a with Open _ s => Some s | _ => None end) <$> tr).

Section session_theorems.
Context {request : Type}.
Implicit Types (w : processes request) (tr : list (action request)).

Lemma run_invariant sid tr : forall l w acc got w',
  invariant sid l w acc got -> NoDup (opened tr) -> (l <> Unborn -> sid ∉ opened tr) -> run tr w = Some w' ->
  exists l', invariant sid l' w' (acc ++ log (accepts sid) tr w) (got ++ log (obtains sid) tr w).
Proof.
  induction tr as [|a tr IH]; intros l w acc got w' Hinv Hnd Hfresh Hrun.
  - injection Hrun as <-. exists l. simpl. by rewrite !app_nil_r.
  - cbn [run] in Hrun. destruct (step a w) as [w1|] eqn:Es; simpl in Hrun; [|done].
    assert (Hop : opened (a :: tr) = match a with Open _ s => s :: opened tr | _ => opened tr end) by (by destruct a).
    rewrite Hop in Hnd, Hfresh.
    destruct (step_invariant sid l w acc got a w1 Hinv) as (l1 & Hinv1 & Hun); [|done|].
    { intros i ->. destruct (decide (l = Unborn)) as [|Hl]; [done|]. destruct (Hfresh Hl). by left. }
    destruct (IH l1 w1 _ _ w' Hinv1) as (l' & Hinv'); [| |done|].
    + destruct a; try done. by apply NoDup_cons in Hnd as [_ ?].
    + intros Hl1. destruct (decide (l = Unborn)) as [->|Hl].
      * destruct (Hun Hl1) as [?|[i ->]]; [done|]. by apply NoDup_cons in Hnd as [? _].
      * specialize (Hfresh Hl). destruct a; try done. set_solver.
    + exists l'. cbn [log]. rewrite Es, !app_assoc. done.
Qed.
Lemma start_invariant sid n : invariant (request := request) sid Unborn (start n) [] [].
Proof.
  split; simpl; [by rewrite !length_replicate| |done].
  intros j h q [-> _]%lookup_replicate [-> _]%lookup_replicate. repeat split. constructor.
Qed.

Lemma reach_invariant sid n tr w : NoDup (opened tr) -> run tr (start n) = Some w ->
  exists l, invariant sid l w (log (accepts sid) tr (start n)) (log (obtains sid) tr (start n)).
Proof. intros Hnd Hrun. by apply (run_invariant sid tr Unborn (start n) [] [] w (start_invariant sid n)). Qed.

(** C17: While a session is open, every request pushed to it at any handler that knows of it has been taken by the
    session, waits in its queue or is on its way there: none is lost, duplicated or given to another session;
    no other handler has a queue for it, and those that have read their events know its owner. *)
Theorem session_pushes_delivered n tr w sid k h :
  NoDup (opened tr) -> run tr (start n) = Some w ->
  handlers w !! k = Some h -> is_Some (dget (session_queues h) sid) ->
  (exists rs q, dget (session_queues h) sid = Some (Some <$> rs) /\ event_queues w !! k = Some q /\
    log (obtains sid) tr (start n) ++ rs ++ pushed sid q ≡ₚ log (accepts sid) tr (start n)) /\
  (forall j hj, j <> k -> handlers w !! j = Some hj ->
    dget (session_queues hj) sid = None /\
    (event_queues w !! j = Some [] -> dget (session_handlers hj) sid = Some k)).
Proof.
  intros Hnd Hrun Hh Hs. destruct (reach_invariant sid n tr w Hnd Hrun) as [l Hinv].
  destruct (invariant_lookup _ _ _ _ _ _ _ Hinv Hh) as (q & Hq & Hkn).
  assert (l = Live k) as -> by (by eapply knows_queue). split.
  - destruct (iv_balance _ _ _ _ _ Hinv) as (_ & rs & Hrs & Hp). destruct Hs as [x Hx].
    rewrite (queued_at _ _ _ h Hh), Hx in Hrs. simpl in Hrs. subst x. exists rs, q.
    rewrite (in_flight_at _ _ _ q Hq) in Hp. done.
  - intros j hj Hj Hhj. destruct (invariant_lookup _ _ _ _ _ _ _ Hinv Hhj) as (qj & Hqj & Hknj).
    unfold knows in Hknj. rewrite decide_False in Hknj by done. destruct Hknj as (Hqn & _ & Hf & _).
    split; [done|]. rewrite Hqj. intros [= ->]. exact Hf.
Qed.

(** Sessions are forgotten: when all handlers have read their events, their tables name only sessions that are
    open, with their owners. *)
Theorem sessions_forgotten n tr w sid j h k :
  NoDup (opened tr) -> run tr (start n) = Some w -> (forall i q, event_queues w !! i = Some q -> q = []) ->
  handlers w !! j = Some h -> dget (session_handlers h) sid = Some k ->
  exists hk, handlers w !! k = Some hk /\ is_Some (dget (session_queues hk) sid).
Proof.
  intros Hnd Hrun Hempty Hh Hk. destruct (reach_invariant sid n tr w Hnd Hrun) as [l Hinv].
  destruct (invariant_lookup _ _ _ _ _ _ _ Hinv Hh) as (q & Hq & Hkn). rewrite (Hempty _ _ Hq) in Hkn.
  assert (l = Live k) as ->.
  { unfold knows, future, entry in Hkn. simpl in Hkn. destruct l as [|k'|k'].
    - destruct Hkn as (_ & ? & _). congruence.
    - destruct (decide (j = k')); [destruct Hkn as (_ & ? & _)|destruct Hkn as (_ & _ & ? & _)]; congruence.
    - destruct (decide (j = k')); [destruct Hkn as (_ & ? & _)|destruct Hkn as (_ & _ & ? & _)]; congruence. }
  destruct (iv_balance _ _ _ _ _ Hinv) as (Hlt & _). destruct (lookup_lt_is_Some_2 (handlers w) k Hlt) as [hk Hhk].
  exists hk. split; [done|]. destruct (invariant_lookup _ _ _ _ _ _ _ Hinv Hhk) as (qk & _ & Hknk).
  unfold knows in Hknk. rewrite decide_True in Hknk by done. apply Hknk.
Qed.
End session_theorems.

(** ** Examples *)

(** Handler 0 opens a session; a request for it is pushed at handler 1, which has heard of it. *)
Definition push_trace : list (action Z) := [Open 0 "s"; Listen 1; Push 1 "s" 7; Listen 0; Push 0 "s" 8; Get 0 "s"].

Lemma session_pushes_delivered_witness :
  exists w, run push_trace (start 2) = Some w /\
  (exists rs q, dget [("s", [Some 8])] "s" = Some (Some <$> rs) /\ event_queues w !! 0%nat = Some q /\
    log (obtains "s") push_trace (start 2) ++ rs ++ pushed "s" q ≡ₚ log (accepts "s") push_trace (start 2)).
Proof.
  eexists. split; [vm_compute; reflexivity|].
  apply (session_pushes_delivered 2 push_trace _ "s" 0 (mkHandler [("s", [Some 8])] [("s", 0%nat)] true));
    [|vm_compute; reflexivity|reflexivity|simpl; eauto].
  apply NoDup_singleton.
Defined.

Definition close_trace : list (action Z) := [Open 0 "s"; Open 1 "t"; Close 0 "s"; Listen 1; Listen 1; Listen 0].

Lemma sessions_forgotten_witness :
  exists w hk, run close_trace (start 2) = Some w /\ handlers w !! 1%nat = Some hk /\ is_Some (dget (session_queues hk) "t").
Proof.
  eexists. 
  destruct (sessions_forgotten 2 close_trace
    (mkProcesses [mkHandler [] [("t", 1%nat)] true; mkHandler [("t", [])] [("t", 1%nat)] true] [[]; []])
    "t" 0 (mkHandler [] [("t", 1%nat)] true) 1) as (hk & H1 & H2).
  - vm_compute. repeat constructor; set_solver.
  - vm_compute. reflexivity.
  - intros [|[|i]] q; simpl; intros [= <-]; done.
  - reflexivity.
  - reflexivity.
  - exists hk. split; [vm_compute; reflexivity|]. split; [exact H1|exact H2].
Defined.

(** Session identifiers are checked for uniqueness within a handler only: when two handlers have sessions of one
    name, closing the first makes closing the second raise. *)
Example duplicate_session_close :
  exists w, run (request := Z) [Open 0 "s"; Open 1 "s"; Listen 0; Close 1 "s"; Listen 0] (start 2) = Some w /\
    (close_session 0 "s" w).2 = Err KeyError.
Proof. eexists. split; vm_compute; reflexivity. Qed.
