(* ===== verification/HandlerProcess.v ===== *)
(** * HandlerProcess: the process of a connection handler and its log

    The start and the end of a [TransformerConnectionHandler] of [server/handler.py], with the event queue of
    HandlerSessions.v, and what [_log_request] says of a request. *)

From S2P Require Import Prelude PyString PyDict DataStructures HandlerSessions.
From Stdlib Require Import DecimalString.

(** ** What the log says *)

(** [str.isdigit] on ASCII strings *)
Definition isdigit (s : string) : bool := negb (String.eqb s "") && str_forall is_digit s.

(** The blocks of a request as they are shown. *)
Inductive friendly := Span (first past_last : Z) | Uids (uids : list string) | NotAvailable.

Definition friendly_uids (uids : option (list string)) : friendly :=
  match uids with
  | None => NotAvailable
  | Some uids =>
      let tails := (fun uid => List.last (split_on "." uid) "") <$> List.filter (str_contains ".") uids in
      match omap py_int (List.filter isdigit tails) with
      | [] => Uids uids
      | n :: ns => Span (foldl Z.min n ns) (foldl Z.max n ns + 1)
      end
  end.

(** [str(remote_id)[-6:]] *)
Definition last_chars (k : nat) (s : string) : string := String.substring (String.length s - k) k s.

Inductive log_level := LogWarning | LogDebug | LogInfo.

Record log_entry := mkLogEntry {
  le_level : log_level;
  le_method : string;
  le_blocks : friendly;
  le_remote_peer : string;
  le_detail : option string;
}.

Definition _log_request (method : string) (uids : option (list string)) (remote_id : string) (debug warning : option string) : log_entry :=
  let level := match warning, debug with Some _, _ => LogWarning | None, Some _ => LogDebug | None, None => LogInfo end in
  mkLogEntry level method (friendly_uids uids) ("..." +:+ last_chars 6 remote_id)
    (match warning with Some w => Some w | None => debug end).

(** ** Start and end *)

Section process.
Context {request : Type}.

(** What a handler process does to itself and to its queue, in order. *)
Inductive process_event := StartListener | AddHandlers | SendShutdown | QueueShutdown | JoinProcess | Terminate.

(** [add_p2p_handlers]: the listener is started once, before requests are accepted. *)
Definition add_p2p_handlers (listener_task : bool) : list process_event * bool :=
  ((if listener_task then [] else [StartListener]) ++ [AddHandlers], true).

(** [shutdown]: whether the process is alive before it, and still after [join]. *)
Definition shutdown (alive still_alive : bool) : list process_event :=
  if alive then [SendShutdown; QueueShutdown; JoinProcess] ++ (if still_alive then [Terminate] else []) else [].

(** The event that [shutdown] puts into the handler's own queue. *)
Definition queue_shutdown (i : nat) (w : processes request) : processes request := send w i SHUTDOWN.
(** A handler that is shut down first deals with the events that are already in its queue, then it stops listening. *)
Lemma shutdown_drains i (w : processes request) h q : handlers w !! i = Some h -> event_queues w !! i = Some q ->
  listening h = true -> SHUTDOWN ∉ q ->
  exists w', run (replicate (S (length q)) (Listen i)) (queue_shutdown i w) = Some w' /\
    handlers w' !! i = Some (handle_event (fold_left handle_event q h) SHUTDOWN) /\ event_queues w' !! i = Some [].
Proof.
  intros Hh Hq Hl Hs.
  assert (Hd : forall (q : list (event request)) (w : processes request) h, handlers w !! i = Some h -> event_queues w !! i = Some (q ++ [SHUTDOWN]) -> listening h = true -> SHUTDOWN ∉ q ->
    exists w', run (replicate (S (length q)) (Listen i)) w = Some w' /\
      handlers w' !! i = Some (handle_event (fold_left handle_event q h) SHUTDOWN) /\ event_queues w' !! i = Some []).
  { clear. induction q as [|e q IH]; intros w h Hh Hq Hl Hs.
    - eexists. cbn [length replicate run step]. unfold listen. rewrite Hh, Hq. cbn. rewrite Hl. split; [reflexivity|]. cbn.
      rewrite !list_lookup_insert_eq by (by eapply lookup_lt_Some). done.
    - set (w1 := mkProcesses (<[i := handle_event h e]> (handlers w)) (<[i := q ++ [SHUTDOWN]]> (event_queues w))).
      destruct (IH w1 (handle_event h e)) as (w' & Hr & Hrest).
      + cbn. by rewrite list_lookup_insert_eq by (by eapply lookup_lt_Some).
      + cbn. by rewrite list_lookup_insert_eq by (by eapply lookup_lt_Some).
      + destruct e as [s k|s k|s r|]; [done|done| |by destruct Hs; left]. cbn. unfold put, or_default. by destruct (dget (session_queues h) s).
      + intros Hin. apply Hs. by right.
      + exists w'. split; [|exact Hrest]. cbn [length]. change (replicate (S (S (length q))) (Listen i)) with (@Listen request i :: replicate (S (length q)) (Listen i)).
        cbn [run step]. unfold listen. rewrite Hh, Hq. cbn. rewrite Hl. exact Hr. }
  apply (Hd q); [done| |done|done]. unfold queue_shutdown, send. cbn. by rewrite list_lookup_alter_eq, Hq.
Qed.
End process.

(** ** The blocks of a request over a span *)

Lemma uint_is_digits d : str_forall is_digit (NilEmpty.string_of_uint d) = true.
Proof. induction d; simpl; by rewrite ?IHd. Qed.

Lemma isdigit_str_of_Z z : 0 <= z -> isdigit (str_of_Z z) = true.
Proof.
  intros Hz. unfold isdigit, str_of_Z. destruct z as [|p|p]; [done| |lia]. cbn. unfold NilZero.string_of_uint.
  destruct (Pos.to_uint p) eqn:E; [done|..]; cbn; by rewrite uint_is_digits.
Qed.

Lemma uid_tail prefix i : str_contains "." prefix = false -> List.last (split_on "." (make_uid prefix i)) "" = str_of_Z i.
Proof. intros H. unfold make_uid. rewrite split_on_app by done. rewrite split_on_none by (by apply str_of_Z_no_sep). done. Qed.

Lemma fold_min a b : a < b -> foldl Z.min a (zrange (a + 1) b) = a.
Proof.
  intros H. replace b with (a + 1 + (b - a - 1)) by lia. generalize (Z.to_nat (b - a - 1)) (Z2Nat.id (b - a - 1) ltac:(lia)).
  intros n <-. induction n as [|n IH].
  - by rewrite zrange_nil by lia.
  - replace (a + 1 + Z.of_nat (S n)) with (a + 1 + Z.of_nat n + 1) by lia. rewrite zrange_snoc by lia. rewrite foldl_app, IH. cbn. lia.
Qed.

Lemma fold_max a b : a < b -> foldl Z.max a (zrange (a + 1) b) + 1 = b.
Proof.
  intros H. replace b with (a + 1 + (b - a - 1)) by lia. generalize (Z.to_nat (b - a - 1)) (Z2Nat.id (b - a - 1) ltac:(lia)).
  intros n <-. induction n as [|n IH].
  - rewrite zrange_nil by lia. cbn. lia.
  - replace (a + 1 + Z.of_nat (S n)) with (a + 1 + Z.of_nat n + 1) by lia. rewrite zrange_snoc by lia. rewrite foldl_app. cbn. lia.
Qed.

(** A request over consecutive blocks is logged with the first of them and the one past the last. *)
Theorem friendly_span prefix a b : str_contains "." prefix = false -> 0 <= a -> a < b ->
  friendly_uids (Some ((fun i => make_uid prefix i) <$> zrange a b)) = Span a b.
Proof.
  intros Hp Ha Hb. unfold friendly_uids.
  assert (Ht : forall l, Forall (fun i => 0 <= i) l ->
    omap py_int (List.filter isdigit ((fun uid => List.last (split_on "." uid) "") <$> List.filter (str_contains ".") ((fun i => make_uid prefix i) <$> l))) = l).
  { induction l as [|i l IH]; intros Hl; [done|]. apply Forall_cons in Hl as [Hi Hl]. cbn [fmap list_fmap List.filter].
    assert (Hc : str_contains "." (make_uid prefix i) = true) by (unfold make_uid; rewrite str_contains_app; cbn; by rewrite orb_true_r).
    rewrite Hc. cbn [fmap list_fmap]. rewrite uid_tail by done. cbn [List.filter]. rewrite isdigit_str_of_Z by done.
    cbn. rewrite py_int_str_of_Z. f_equal. by apply IH. }
  rewrite Ht.
  - rewrite zrange_cons by lia. by rewrite fold_min, fold_max by lia.
  - apply Forall_forall. intros i Hi%elem_of_zrange. lia.
Qed.
