(* ===== verification/Handler.v ===== *)
(** * Handler: [server/handler.py]

    The requests of a connection handler: parsing and checking a request, running it on the blocks
    (BlockFunctions), the steps of an inference session (from the client, or pushed by another server), pushing
    outputs to the next server, and the serialized answers.  Sessions across handlers are in HandlerSessions. *)

From S2P Require Import Prelude PyString PyFloat PyDict DataStructures Utils MemoryCache Backend Packaging BlockFunctions.

(** ** Tensors on the wire

    A deserialized tensor: hidden states, deep prompts, or integers; other shapes are not sent by the clients. *)
Inductive tensor {CM : CausalModule} :=
  | THidden (batch hid : Z) (x : list col)
  | TPrompts (ps : list (list col))
  | TInts (d : dtype) (l : list Z).

(** Serialization of tensors, and of the structure of a call, by hivemind. *)
Class WireFormat {CM : CausalModule} {NS : Nested} := {
  wire : Type;
  deserialize_torch_tensor : wire -> tensor;
  serialize_torch_tensor : tensor -> Z -> wire;             (* with a compression *)
  wire_size0 : wire -> Z;                                   (* tensor.size[0] *)
  structure_of : pyval -> nest (leaf (tensor := tensor));   (* args_structure, unpacked *)
  call_args : nest (leaf (tensor := tensor)) -> list (leaf (tensor := tensor));   (* its positional part *)
}.

(** [ExpertRequest]: the metadata is unpacked from msgpack (none: empty). *)
Record ExpertRequest {CM : CausalModule} {NS : Nested} {WF : WireFormat} := mkExpertRequest {
  req_uid : string;
  req_tensors : list wire;
  req_metadata : option pyval;
}.

Arguments mkExpertRequest {CM NS WF} _ _ _.

(** The state of [TransformerConnectionHandler] that the requests read. *)
Record HandlerConfig := mkHandlerConfig {
  module_backends : list (string * TransformerBackend);
  hc_dht_prefix : string;
  hc_adapters : list string;
  inference_max_length : Z;
  hc_quant_type : QuantType;
  hc_schema_compression : Z;                  (* of the schema of inputs and outputs *)
  hc_pool_max_batch_size : Z;                 (* of the merged inference pool *)
}.

Definition metadata_dict : Type := list (pyval * pyval).

(** [metadata.get(key, d)] *)
Definition md_get (md : metadata_dict) (key : string) (d : pyval) : pyval := or_default (kwarg md key) d.

(** [bool(v)] *)
Definition truthy (v : pyval) : bool :=
  match v with
  | PNone => false
  | PBool b => b
  | PInt z => negb (z =? 0)
  | PFloat f => negb (f_eq f f_zero)
  | PStr s => negb (String.eqb s "")
  | PList l => negb (zlen l =? 0)
  | PDict d => negb (zlen d =? 0)
  end.

(** [isinstance(v, (float, int))] *)
Definition is_number (v : pyval) : bool :=
  match v with PInt _ | PBool _ | PFloat _ => true | _ => false end.

(** [isinstance(v, int)] and its value *)
Definition as_python_int (v : pyval) : option Z :=
  match v with PInt z => Some z | PBool b => Some (if b then 1 else 0) | _ => None end.

Section handler.
Context {TD : TorchDtypes} {CM : CausalModule} {TM : TrainableModule} {NS : Nested} {WF : WireFormat}.
Context (float_of_str : string -> option pyfloat).                        (* float(s) *)
Abbreviation leaf_ := (leaf (tensor := tensor)).
Implicit Types (h : HandlerConfig) (r : ExpertRequest) (md : metadata_dict).

(** ** Parsing *)

Definition request_metadata r : result metadata_dict :=
  match req_metadata r with
  | None => Ok []
  | Some (PDict d) => Ok d
  | Some _ => Err AttributeError
  end.

Definition _check_uids h (uids : string) : result (list string) :=
  let uids := split_on CHAIN_DELIMITER uids in
  _ ← raise_if (zlen uids =? 0) RuntimeError;
  _ ← mapR (fun uid => raise_if (negb (dmem (module_backends h) uid)) RuntimeError) uids;
  mret uids.

Definition requested_backends h (uids : list string) : result (list TransformerBackend) :=
  mapR (fun uid => get_or KeyError (dget (module_backends h) uid)) uids.

Definition _get_active_adapter h md : result string :=
  match md_get md "active_adapter" (PStr "") with
  | PStr s => if truthy (PStr s) && negb (bool_decide (s ∈ hc_adapters h)) then Err KeyError else Ok s
  | v => if truthy v then Err KeyError else Ok ""
  end.

(** The arguments of a call: its tensors, or what [unpack_args_kwargs] makes of them. *)
Definition call_leaves (flat_tensors : list tensor) md : result (list leaf_) :=
  match md_get md "args_structure" PNone with
  | PNone => Ok (LTensor <$> flat_tensors)
  | s => u ← unpack_args_kwargs flat_tensors (structure_of s); mret (call_args u)
  end.

(** [hidden_states.to(dtype)], [hidden_states.ndim == 3] *)
Definition as_hidden (v : leaf_) : result (Z * Z * list col) :=
  match v with
  | LTensor (THidden batch hid x) => Ok (batch, hid, x)
  | LTensor _ => Err AssertionError
  | _ => Err AttributeError
  end.

(** [tensor.numel() == 0] *)
Definition is_dummy (t : tensor) : bool :=
  match t with
  | THidden batch hid x => batch * zlen x * hid =? 0
  | TPrompts ps => is_dummy_prompts ps
  | TInts _ l => zlen l =? 0
  end.

(** [prompts is None or is_dummy(prompts)], or a tensor of prompts *)
Definition as_prompts (v : leaf_) : result (option (list (list col))) :=
  match v with
  | LOther PNone => Ok None
  | LTensor t =>
      if is_dummy t then Ok None
      else match t with TPrompts ps => Ok (Some ps) | _ => Err RuntimeError end
  | _ => Err AttributeError
  end.

(** ** Serialized outputs *)

(** [metadata["output_compression"]]: a sequence of [n] integers. *)
Definition output_compression md (n : Z) (default : list Z) : result (list Z) :=
  match md_get md "output_compression" PNone with
  | PNone => Ok default
  | PList l =>
      zs ← mapR (fun v => get_or AssertionError (as_python_int v)) l;
      _ ← assert_ (zlen zs =? n);
      mret zs
  | _ => Err AssertionError
  end.

Definition _serialize_outputs h (output : tensor) md : result (list wire) :=
  _ ← assert_ (match output with THidden _ _ _ => true | _ => false end);
  cs ← output_compression md 1 [hc_schema_compression h];
  mret (zip_with serialize_torch_tensor [output] cs).

Definition _serialize_grads h (grads : list tensor) md : result (list wire) :=
  _ ← assert_ ((zlen grads =? 1) || (zlen grads =? 2));
  cs ← output_compression md (zlen grads) (replicate (length grads) (hc_schema_compression h));
  mret (zip_with serialize_torch_tensor grads cs).

(** ** Forward and backward *)

(** What [rpc_forward] and [rpc_backward] share: the blocks, the metadata, the adapter and the arguments. *)
Definition parse_pass h (uid : string) (flat : list tensor) (meta : result metadata_dict)
    : result (list TransformerBackend * metadata_dict * string * list leaf_) :=
  uids ← _check_uids h uid;
  bs ← requested_backends h uids;
  md ← meta;
  adapter ← _get_active_adapter h md;
  _ ← assert_ (is_number (md_get md "points" (PInt 0)));
  leaves ← call_leaves flat md;
  mret (bs, md, adapter, leaves).

Definition forward_pass h (uid : string) (flat : list tensor) (meta : result metadata_dict) : result (list wire) :=
  '(bs, md, adapter, leaves) ← parse_pass h uid flat meta;
  match leaves with
  | hidden :: prompts :: _ =>
      '(batch, hid, x) ← as_hidden hidden;
      ps ← as_prompts prompts;
      y ← run_rpc_forward bs adapter batch hid x ps;
      _serialize_outputs h (THidden batch hid y) md
  | _ => Err ValueError
  end.

Definition backward_pass h (uid : string) (flat : list tensor) (meta : result metadata_dict) : result (list wire) :=
  '(bs, md, adapter, leaves) ← parse_pass h uid flat meta;
  match leaves with
  | inputs :: grad_outputs :: prompts :: _ =>
      '(batch, hid, x) ← as_hidden inputs;
      '(_, _, g) ← as_hidden grad_outputs;
      ps ← as_prompts prompts;
      '(gx, gps) ← run_rpc_backward bs adapter batch hid x g ps;
      _serialize_grads h (THidden batch hid gx :: match gps with Some gps => [TPrompts gps] | None => [] end) md
  | _ => Err ValueError
  end.

Definition rpc_forward h r : result (list wire) :=
  forward_pass h (req_uid r) (deserialize_torch_tensor <$> req_tensors r) (request_metadata r).

Definition rpc_backward h r : result (list wire) :=
  backward_pass h (req_uid r) (deserialize_torch_tensor <$> req_tensors r) (request_metadata r).

(** [_unpack] in [_gather_inputs]: the uid and the metadata of the first message; all must have its uid. *)
Definition gather_message (st : option string * option (result metadata_dict) * list wire) r
    : result (option string * option (result metadata_dict) * list wire) :=
  let '(block_uid, metadata, tensors) := st in
  _ ← raise_if (match block_uid with Some u => negb (String.eqb u (req_uid r)) | None => false end) ValueError;
  mret (Some (or_default block_uid (req_uid r)), Some (or_default metadata (request_metadata r)), tensors ++ req_tensors r).

(** The messages of a stream joined; tensors that were split into parts are put together by hivemind. *)
Definition _gather_inputs (join_parts : list wire -> list tensor) (requests : list ExpertRequest)
    : result (string * list tensor * metadata_dict) :=
  '(block_uid, metadata, parts) ← foldR gather_message (None, None, []) requests;
  uid ← get_or AssertionError block_uid;
  md ← match metadata with Some (Ok md) => Ok md | _ => Err AssertionError end;
  mret (uid, join_parts parts, md).

Definition rpc_forward_stream h (join_parts : list wire -> list tensor) (split : wire -> list wire)
    (requests : list ExpertRequest) : result (list wire) :=
  '(uid, flat, md) ← _gather_inputs join_parts requests;
  ts ← forward_pass h uid flat (Ok md);
  mret (concat (split <$> ts)).

Definition rpc_backward_stream h (join_parts : list wire -> list tensor) (split : wire -> list wire)
    (requests : list ExpertRequest) : result (list wire) :=
  '(uid, flat, md) ← _gather_inputs join_parts requests;
  ts ← backward_pass h uid flat (Ok md);
  mret (concat (split <$> ts)).

(** ** The steps of an inference session

    [_iterate_inference_steps] waits for the next message of the client and for a pushed request; what comes
    first is an arrival.  When both are there the client's message is taken and the other one kept. *)
Inductive arrival :=
  | FromClient (r : ExpertRequest)
  | ClientClosed                             (* the client's stream ends: StopAsyncIteration in a generator *)
  | FromQueue (r : option ExpertRequest)     (* [None] is put when the session is closed *)
  | StepTimeout.

(** How the generator ends: it returns, raises, or still waits after all arrivals. *)
Inductive ending := Returned | RaisedErr (e : exn) | Waits.

Definition step_id md : option pyval := match md_get md "step_id" PNone with PNone => None | v => Some v end.

Definition not_processed (processed : list pyval) (id : option pyval) : bool :=
  match id with None => true | Some v => bool_decide (v ∉ processed) end.

Fixpoint iterate_inference_steps (request : ExpertRequest) (processed : list pyval) (arrivals : list arrival)
    : list (ExpertRequest * metadata_dict) * ending :=
  match req_tensors request with
  | [] => ([], Returned)
  | _ =>
      match request_metadata request with
      | Err e => ([], RaisedErr e)
      | Ok md =>
          let id := step_id md in
          let fresh := not_processed processed id in
          let processed' := if fresh then match id with Some v => v :: processed | None => processed end else processed in
          let '(steps, e) :=
            match arrivals with
            | [] => ([], Waits)
            | FromClient r :: rest => iterate_inference_steps r processed' rest
            | ClientClosed :: _ => ([], RaisedErr RuntimeError)
            | FromQueue (Some r) :: rest => iterate_inference_steps r processed' rest
            | FromQueue None :: _ => ([], RaisedErr AttributeError)
            | StepTimeout :: _ => ([], Returned)
            end in
          (if fresh then (request, md) :: steps else steps, e)
      end
  end.

(** ** rpc_inference *)

Definition py_float (v : pyval) : result pyfloat :=
  match v with
  | PFloat f => Ok f
  | PInt z => Ok (f_of_Z z)
  | PBool b => Ok (f_of_Z (if b then 1 else 0))
  | PStr s => get_or ValueError (float_of_str s)
  | _ => Err TypeError
  end.

(** What the opening request of a session asks for. *)
Record session_open := mkSessionOpen {
  so_uids : list string;
  so_backends : list TransformerBackend;
  so_max_length : Z;
  so_session_id : pyval;
  so_alloc_timeout : pyfloat;
  so_batch_size : Z;
  so_adapter : string;
  so_args_structure : pyval;
}.

Definition open_inference h r : result session_open :=
  uids ← _check_uids h (req_uid r);
  md ← request_metadata r;
  bs ← requested_backends h uids;
  alloc_timeout ← py_float (md_get md "alloc_timeout" (PFloat f_zero));
  _ ← raise_if (zlen uids =? 0) ValueError;
  max_length ← get_or AssertionError (as_python_int (md_get md "max_length" PNone));
  _ ← assert_ (is_number (md_get md "points" (PInt 0)));
  _ ← raise_if (negb ((0 <=? max_length) && (max_length <=? inference_max_length h))) ValueError;
  adapter ← _get_active_adapter h md;
  mret (mkSessionOpen uids bs max_length (md_get md "session_id" PNone) alloc_timeout
          (match req_tensors r with t :: _ => wire_size0 t | [] => 1 end) adapter (md_get md "args_structure" PNone)).

(** [nested_pack(handles, descriptors)]: the handles grouped by block. *)
Fixpoint group_handles (handles : list Handle) (descriptors : list (list TensorDescriptor)) : list (list Handle) :=
  match descriptors with
  | [] => []
  | ds :: rest => take (length ds) handles :: group_handles (drop (length ds) handles) rest
  end.

(** The descriptors that [_allocate_cache] asks memory for, by block. *)
Definition _allocate_cache (bs : list TransformerBackend) (batch_size max_length : Z) : result (list (list TensorDescriptor)) :=
  mapR (fun b => get_inference_cache_descriptors b batch_size max_length) bs.

Definition session_config_of h (o : session_open) (handles : list (list Handle)) : session_config :=
  mkSessionConfig (so_uids o) (so_backends o) (Some (so_adapter o)) handles (so_max_length o) (hc_quant_type h)
    (module_backends h) (hc_pool_max_batch_size h).

(** A step of the session, deserialized. *)
Definition parse_step (args_structure : pyval) (st : ExpertRequest * metadata_dict) : result (step_request metadata_dict) :=
  let '(r, md) := st in
  leaves ← call_leaves (deserialize_torch_tensor <$> req_tensors r) [(PStr "args_structure", args_structure)];
  match leaves with
  | hidden :: prompts :: hypo_ids :: _ =>
      '(batch, hid, x) ← match as_hidden hidden with Err AssertionError => Err ValueError | v => v end;
      ps ← as_prompts prompts;
      match hypo_ids with
      | LTensor (TInts d l) => Ok (mkStepRequest batch hid x ps d l md)
      | LTensor _ => Err AssertionError
      | _ => Err AttributeError
      end
  | _ => Err ValueError
  end.

(** The steps up to the first that does not parse. *)
Fixpoint parse_steps (args_structure : pyval) (l : list (ExpertRequest * metadata_dict))
    : list (step_request metadata_dict) * option exn :=
  match l with
  | [] => ([], None)
  | st :: l' =>
      match parse_step args_structure st with
      | Err e => ([], Some e)
      | Ok s => let '(ss, e) := parse_steps args_structure l' in (s :: ss, e)
      end
  end.

(** [_push_outputs]: the peer and the request to send; nothing if there is no next server, or on any exception
    (which is only logged). *)
Definition next_server (v : pyval) : option (string * pyval * Z * Z) :=
  match v with
  | PList [PStr peer_id; session_id; a; b] =>
      match as_python_int a, as_python_int b with
      | Some next_start, Some next_end => Some (peer_id, session_id, next_start, next_end)
      | _, _ => None
      end
  | _ => None
  end.

Definition md_update md (kvs : metadata_dict) : metadata_dict := fold_left (fun d kv => dset d kv.1 kv.2) kvs md.

Definition next_uid h (next_start next_end : Z) : string :=
  join_with CHAIN_DELIMITER ((fun i => make_uid (hc_dht_prefix h) i) <$> zrange next_start next_end).

Definition _push_outputs h (request : ExpertRequest) (serialized_outputs : wire) md : option (string * ExpertRequest) :=
  match md_get md "next_servers" PNone with
  | PList (server :: rest) =>
      '(peer_id, session_id, next_start, next_end) ← next_server server;
      Some (peer_id, mkExpertRequest (next_uid h next_start next_end) (serialized_outputs :: drop 1 (req_tensors request))
        (Some (PDict (md_update md [(PStr "session_id", session_id); (PStr "next_servers", PList rest); (PStr "pushed", PBool true)]))))
  | _ => None
  end.

Record inference_run := mkInferenceRun {
  ir_responses : list wire;                            (* the outputs of each step *)
  ir_pushes : list (string * ExpertRequest);           (* what is sent to the next servers *)
  ir_cache : @MemoryCache (list slot);
  ir_ending : ending;
}.

(** The session after the allocation of [handles]: the steps that arrive are run, every output is answered and,
    if allowed, pushed to the next server with the tensors of the [request] that opened the session. *)
Definition inference_session h (garbage : nat -> list col) (o : session_open) (request : ExpertRequest)
    (handles : list (list Handle)) (c : @MemoryCache (list slot)) (arrivals : list arrival) : inference_run :=
  let '(steps, e) := iterate_inference_steps request [] arrivals in
  let '(parsed, pe) := parse_steps (so_args_structure o) steps in
  let '(ys, (c', _), ie) := iterate_rpc_inference garbage (session_config_of h o handles) c parsed in
  let out (y : list col * bool * metadata_dict) (p : step_request metadata_dict) :=
    serialize_torch_tensor (THidden (sr_batch p) (sr_hid p) y.1.1) (hc_schema_compression h) in
  let outs := zip_with out ys parsed in
  mkInferenceRun outs
    (somes (zip_with (fun w (y : list col * bool * metadata_dict) => if y.1.2 then _push_outputs h request w y.2 else None) outs ys)) c'
    (match ie, pe with Some e, _ => RaisedErr e | None, Some e => RaisedErr e | None, None => e end).

(** ** rpc_push *)

(** The session and the request that [rpc_push] puts into the session's queue; unlike other requests, one without
    metadata does not parse. *)
Definition rpc_push h r : result (pyval * ExpertRequest) :=
  _ ← _check_uids h (req_uid r);
  md ← match req_metadata r with
       | Some (PDict d) => Ok d
       | Some _ => Err TypeError
       | None => Err ValueError
       end;
  session_id ← get_or KeyError (kwarg md "session_id");
  mret (session_id, r).

(** ** rpc_info *)

Definition rpc_info h (c : @MemoryCache (list slot)) (version : string) (client_mode : bool)
    (get_info : TransformerBackend -> list (string * pyval)) (uid : string) : result (list (string * pyval)) :=
  b ← match uid with
      | EmptyString => match module_backends h with (_, b) :: _ => Ok b | [] => Err RuntimeError end
      | _ => get_or KeyError (dget (module_backends h) uid)
      end;
  per_token ← cache_bytes_per_token b;
  most ← py_max (snd <$> per_token);
  tokens ← zdiv (bytes_left c) most;
  let result := [("version", PStr version); ("dht_client_mode", PBool client_mode); ("cache_tokens_available", PInt tokens)] in
  match uid with
  | EmptyString => Ok result
  | _ =>
      let block_info := get_info b in
      _ ← raise_if (existsb (fun k => dmem block_info k) (dkeys result)) RuntimeError;
      mret (dupdate result block_info)
  end.
End handler.

(** ** The steps of a session are processed once *)

Section handler_proofs.
Context {TD : TorchDtypes} {CM : CausalModule} {TM : TrainableModule} {NS : Nested} {WF : WireFormat}.
Context (float_of_str : string -> option pyfloat).
Implicit Types (h : HandlerConfig) (r : ExpertRequest) (md : metadata_dict) (a : list arrival).

(** The requests that arrive before the session ends: up to the first that is empty or has no metadata, or the
    first arrival that is not a request. *)
Fixpoint received r a : list (ExpertRequest * metadata_dict) :=
  match req_tensors r, request_metadata r with
  | _ :: _, Ok md =>
      (r, md) :: match a with
                 | FromClient r' :: a' | FromQueue (Some r') :: a' => received r' a'
                 | _ => []
                 end
  | _, _ => []
  end.

Definition ids (l : list (ExpertRequest * metadata_dict)) : list pyval := somes ((fun s => step_id s.2) <$> l).

Lemma ids_cons s l : ids (s :: l) = match step_id s.2 with Some v => v :: ids l | None => ids l end.
Proof. unfold ids. rewrite fmap_cons. simpl. by destruct (step_id s.2). Qed.

(** The steps of a session among the requests received: in order, no identifier twice or among those processed
    before, and none left out. *)
Definition once (processed : list pyval) (steps recv : list (ExpertRequest * metadata_dict)) : Prop :=
  steps `sublist_of` recv /\ NoDup (ids steps) /\ (forall v, v ∈ ids steps -> v ∉ processed) /\
  (forall s, s ∈ recv -> match step_id s.2 with None => s ∈ steps | Some v => v ∈ processed \/ v ∈ ids steps end).

Lemma once_nil processed : once processed [] [].
Proof. repeat split; try constructor; intros ? H; inversion H. Qed.

Definition processed_after (processed : list pyval) (id : option pyval) : list pyval :=
  if not_processed processed id then match id with Some v => v :: processed | None => processed end else processed.

Lemma once_cons processed r md steps recv :
  once (processed_after processed (step_id md)) steps recv ->
  once processed (if not_processed processed (step_id md) then (r, md) :: steps else steps) ((r, md) :: recv).
Proof.
  unfold processed_after. destruct (step_id md) as [v|] eqn:Ev; cbn [not_processed].
  - case_bool_decide as Hv; intros (Hsub & Hnd & Hnew & Hall); split; [by constructor| |by constructor|].
    + rewrite ids_cons. simpl. rewrite Ev. split; [|split].
      * constructor; [|done]. intros Hin. apply (Hnew v Hin). by left.
      * intros v' [->|Hin]%elem_of_cons; [done|]. intros Hp. apply (Hnew v' Hin). by right.
      * intros s [->|Hs]%elem_of_cons; [simpl; rewrite Ev; right; left|]. specialize (Hall s Hs).
        destruct (step_id s.2) as [v'|]; [|by right]. destruct Hall as [[->|?]%elem_of_cons|?];
          [right; left|by left|right; by right].
    + split; [done|]. split; [done|]. intros s [->|Hs]%elem_of_cons; [simpl; rewrite Ev; left|by apply Hall].
      by destruct (decide (v ∈ processed)).
  - intros (Hsub & Hnd & Hnew & Hall). split; [by constructor|]. rewrite ids_cons. simpl. rewrite Ev.
    split; [done|]. split; [done|]. intros s [->|Hs]%elem_of_cons; [simpl; rewrite Ev; left|].
    specialize (Hall s Hs). destruct (step_id s.2); [done|by right].
Qed.

Lemma steps_once a : forall r processed, once processed (iterate_inference_steps r processed a).1 (received r a).
Proof.
  induction a as [|x a IH]; intros r processed; simpl;
    (destruct (req_tensors r) as [|t ts]; [apply once_nil|]);
    (destruct (request_metadata r) as [md|e]; [|apply once_nil]);
    fold (processed_after processed (step_id md)).
  - simpl. apply once_cons, once_nil.
  - destruct x as [r'| |[r'|]|]; simpl; try (apply once_cons, once_nil);
      specialize (IH r' (processed_after processed (step_id md)));
      destruct (iterate_inference_steps r' _ a) as [steps e]; by apply once_cons.
Qed.

(** The requests received that are to be taken: a request is added unless one with its step identifier is there. *)
Definition take_step (taken : list (ExpertRequest * metadata_dict)) (s : ExpertRequest * metadata_dict)
    : list (ExpertRequest * metadata_dict) :=
  match step_id s.2 with
  | Some v => if bool_decide (v ∈ ids taken) then taken else taken ++ [s]
  | None => taken ++ [s]
  end.

Definition first_steps (recv : list (ExpertRequest * metadata_dict)) : list (ExpertRequest * metadata_dict) :=
  fold_left take_step recv [].

(** How a session ends, whatever it does with the steps. *)
Fixpoint ends_with r a : ending :=
  match req_tensors r, request_metadata r with
  | [], _ => Returned
  | _ :: _, Err e => RaisedErr e
  | _ :: _, Ok _ =>
      match a with
      | [] => Waits
      | FromClient r' :: a' | FromQueue (Some r') :: a' => ends_with r' a'
      | ClientClosed :: _ => RaisedErr RuntimeError
      | FromQueue None :: _ => RaisedErr AttributeError
      | StepTimeout :: _ => Returned
      end
  end.

Lemma ids_snoc l s : ids (l ++ [s]) = ids l ++ match step_id s.2 with Some v => [v] | None => [] end.
Proof.
  induction l as [|x l IH]; cbn [app]; [rewrite ids_cons; by destruct (step_id s.2)|].
  rewrite !ids_cons, IH. by destruct (step_id x.2).
Qed.

Lemma taken_step taken processed r md : (forall v, v ∈ processed <-> v ∈ ids taken) ->
  take_step taken (r, md) = (if not_processed processed (step_id md) then taken ++ [(r, md)] else taken) /\
  (forall v, v ∈ processed_after processed (step_id md) <-> v ∈ ids (take_step taken (r, md))).
Proof.
  intros Hp. unfold take_step, processed_after. cbn [snd]. destruct (step_id md) as [v|] eqn:Ev; cbn [not_processed].
  - destruct (decide (v ∈ ids taken)) as [Hin|Hin].
    + rewrite (bool_decide_true (v ∈ ids taken)), bool_decide_false by (done || by rewrite Hp; intros []). done.
    + rewrite (bool_decide_false (v ∈ ids taken)), bool_decide_true by (done || by rewrite Hp). split; [done|].
      intros v'. rewrite ids_snoc. cbn [snd]. rewrite Ev, elem_of_app, elem_of_cons, list_elem_of_singleton, Hp. tauto.
  - split; [done|]. intros v'. rewrite ids_snoc. cbn [snd]. rewrite Ev, app_nil_r. apply Hp.
Qed.

(** The steps of a session are the first of each identifier among what it receives. *)
Lemma steps_taken a : forall r processed taken, (forall v, v ∈ processed <-> v ∈ ids taken) ->
  taken ++ (iterate_inference_steps r processed a).1 = fold_left take_step (received r a) taken /\
  (iterate_inference_steps r processed a).2 = ends_with r a.
Proof.
  induction a as [|x a IH]; intros r processed taken Hp; simpl;
    (destruct (req_tensors r) as [|t ts]; [by rewrite app_nil_r|]);
    (destruct (request_metadata r) as [md|e]; [|by rewrite app_nil_r]);
    fold (processed_after processed (step_id md)); destruct (taken_step taken processed r md Hp) as [Ht Hp'].
  - cbn [fold_left]. rewrite Ht. destruct (not_processed _ _); cbn [fst snd]; by rewrite ?app_nil_r.
  - destruct x as [r'| |[r'|]|]; cbn [fold_left];
      try (rewrite Ht; destruct (not_processed _ _); cbn [fst snd]; by rewrite ?app_nil_r);
      destruct (IH r' _ _ Hp') as [H1 H2]; rewrite <- H1, <- H2, Ht;
      destruct (iterate_inference_steps r' _ a) as [steps e]; cbn [fst snd];
      destruct (not_processed _ _); cbn [fst snd]; by rewrite <- ?app_assoc.
Qed.

Lemma session_steps r a : iterate_inference_steps r [] a = (first_steps (received r a), ends_with r a).
Proof.
  destruct (steps_taken a r [] []) as [H1 H2]; [done|]. cbn [app] in H1. rewrite (surjective_pairing (iterate_inference_steps r [] a)).
  by rewrite H1, H2.
Qed.

(** Every step of a session is processed once: among the requests that arrive before the session ends, from the
    client or pushed by another server, the first of each step identifier (and any without one), in order of arrival. *)
Theorem iterate_inference_steps_once r a :
  let steps := (iterate_inference_steps r [] a).1 in
  steps `sublist_of` received r a /\ NoDup (ids steps) /\
  (forall s, s ∈ received r a -> match step_id s.2 with None => s ∈ steps | Some v => v ∈ ids steps end).
Proof.
  destruct (steps_once a r []) as (Hsub & Hnd & _ & Hall). split; [done|]. split; [done|]. intros s Hs. specialize (Hall s Hs).
  destruct (step_id s.2); [|done]. destruct Hall as [Hn|?]; [by inversion Hn|done].
Qed.

(** ** Pushing to the next server *)

Lemma md_update_get md kvs k : kwarg (md_update md kvs) k =
  fold_left (fun o kv => if decide (kv.1 = PStr k) then Some kv.2 else o) kvs (kwarg md k).
Proof.
  unfold md_update. revert md. induction kvs as [|[k' v] kvs IH]; intros md; [done|]. simpl. rewrite IH. f_equal.
  rewrite !kwarg_dget, dget_dset. done.
Qed.

Lemma check_uids_joined h uids :
  uids <> [] -> Forall (fun u => str_contains CHAIN_DELIMITER u = false /\ dmem (module_backends h) u = true) uids ->
  _check_uids h (join_with CHAIN_DELIMITER uids) = Ok uids.
Proof.
  intros Hne Hall. unfold _check_uids. rewrite split_join; [|done|eapply Forall_impl; [exact Hall|by intros ? [? _]]].
  destruct (zlen uids =? 0) eqn:E; [by apply zlen_zero in E|]. simpl. unfold mbind, result_bind.
  assert (exists us, mapR (fun uid => raise_if (negb (dmem (module_backends h) uid)) RuntimeError) uids = Ok us) as [us ->]; [|done].
  clear Hne E. induction Hall as [|u us [_ Hu] _ [us' IH]]; simpl; [eauto|]. rewrite Hu. simpl. rewrite IH. eauto.
Qed.

(** What a server pushes is accepted by the next server of the chain, if that serves the blocks: the request
    reaches the session named by the client, marked as pushed, with the rest of the chain and the step's identifier. *)
Theorem push_accepted h h' request out md peer sid start end_ rest :
  md_get md "next_servers" PNone = PList (PList [PStr peer; sid; PInt start; PInt end_] :: rest) ->
  start < end_ -> valid_prefix (hc_dht_prefix h) = true ->
  (forall i, start <= i < end_ -> dmem (module_backends h') (make_uid (hc_dht_prefix h) i) = true) ->
  exists r' md', _push_outputs h request out md = Some (peer, r') /\ rpc_push h' r' = Ok (sid, r') /\
    _check_uids h' (req_uid r') = Ok ((fun i => make_uid (hc_dht_prefix h) i) <$> zrange start end_) /\
    req_tensors r' = out :: drop 1 (req_tensors request) /\
    request_metadata r' = Ok md' /\ md_get md' "next_servers" PNone = PList rest /\
    md_get md' "pushed" PNone = PBool true /\ step_id md' = step_id md.
Proof.
  intros Hn Hlt Hpre Hserved.
  assert (Hck : _check_uids h' (next_uid h start end_) = Ok ((fun i => make_uid (hc_dht_prefix h) i) <$> zrange start end_)).
  { apply check_uids_joined; [by rewrite zrange_cons by lia|]. apply Forall_fmap, Forall_forall. intros i Hi.
    apply elem_of_zrange in Hi. split; [by apply make_uid_no_chain|by apply Hserved]. }
  set (md' := md_update md [(PStr "session_id", sid); (PStr "next_servers", PList rest); (PStr "pushed", PBool true)]).
  exists (mkExpertRequest (next_uid h start end_) (out :: drop 1 (req_tensors request)) (Some (PDict md'))), md'.
  assert (Hkw : forall k, kwarg md' k = fold_left (fun o kv => if decide (kv.1 = PStr k) then Some kv.2 else o)
    [(PStr "session_id", sid); (PStr "next_servers", PList rest); (PStr "pushed", PBool true)] (kwarg md k)) by (intros; apply md_update_get).
  split; [unfold _push_outputs; rewrite Hn; reflexivity|]. clearbody md'.
  unfold rpc_push, request_metadata, step_id, md_get. cbn [req_uid req_metadata req_tensors]. rewrite Hck.
  unfold mbind, result_bind. rewrite !Hkw. done.
Qed.

(** Every request that a session pushes carries the other tensors (prompts, beam hypotheses) of the request that
    opened the session, whatever those of the step are. *)
Theorem pushes_keep_first_tensors garbage h o request handles c a :
  Forall (fun p => drop 1 (req_tensors p.2) = drop 1 (req_tensors request))
    (ir_pushes (inference_session h garbage o request handles c a)).
Proof.
  unfold inference_session. destruct (iterate_inference_steps request [] a) as [steps e].
  destruct (parse_steps (so_args_structure o) steps) as [parsed pe].
  destruct (iterate_rpc_inference garbage (session_config_of h o handles) c parsed) as [[ys [c' n]] ie]. simpl.
  apply Forall_forall. intros p Hp. apply elem_of_somes, list_elem_of_lookup in Hp as [i Hi].
  rewrite lookup_zip_with in Hi. destruct (zip_with _ ys parsed !! i) as [w|]; simpl in Hi; [|done].
  destruct (ys !! i) as [y|]; simpl in Hi; [|done]. injection Hi as Hi. destruct y.1.2; [|done].
  unfold _push_outputs in Hi. destruct (md_get y.2 "next_servers" PNone) as [| | | | |[|server rest]|]; try done.
  destruct (next_server server) as [[[[peer sid] x] z]|]; simpl in Hi; [|done]. injection Hi as <-. done.
Qed.

(** ** A whole session *)

Lemma concat_group_handles (handles : list Handle) (ds : list (list TensorDescriptor)) :
  length handles = length (concat ds) -> concat (group_handles handles ds) = handles.
Proof.
  revert handles. induction ds as [|d ds IH]; intros handles Hl; simpl in *.
  - by destruct handles.
  - rewrite length_app in Hl. rewrite IH by (rewrite length_drop; lia). apply take_drop.
Qed.

Lemma lookup_handles_ok (c : @MemoryCache (list slot)) n hs :
  (forall x, x ∈ hs -> exists t, dget (mc_allocated_tensors c) x = Some t /\ (n <= length t)%nat) ->
  exists ts, lookup_handles c hs = Ok ts /\ length ts = length hs /\ Forall (fun t => (n <= length t)%nat) ts.
Proof.
  induction hs as [|x hs IH]; intros H; [by exists []|].
  destruct (H x) as (t & Ht & Hn); [left|]. destruct IH as (ts & Hts & Hl & Hall); [intros; apply H; by right|].
  exists (t :: ts). unfold lookup_handles in *. simpl. rewrite Ht. simpl. rewrite Hts. split; [done|].
  split; [by rewrite <- Hl|by constructor].
Qed.

(** The blocks of a session with the tensors that were allocated for them. *)
Lemma build_served (pool : list (string * TransformerBackend)) (c : @MemoryCache (list slot)) n uids bs ds :
  Forall2 (fun uid b => find_backend pool uid = Ok b) uids bs -> Forall2 (fun (b : TransformerBackend) d => d <> []) bs ds ->
  Forall backend_ok bs -> forall handles, length handles = length (concat ds) -> NoDup handles ->
  (forall x, x ∈ handles -> exists t, dget (mc_allocated_tensors c) x = Some t /\ (n <= length t)%nat) ->
  exists l, sv_uid <$> l = uids /\ sv_backend <$> l = bs /\ sv_handles <$> l = group_handles handles ds /\
    Forall (served_ok pool n) l /\ Forall (fun v => lookup_handles c (sv_handles v) = Ok (sv_tensors v)) l.
Proof.
  intros Hub Hbd. revert uids Hub. induction Hbd as [|b d bs ds Hd _ IH]; intros uids Hub Hok handles Hl Hnd Hh.
  { inversion Hub; subst. by exists []. }
  inversion Hub as [|uid ? uids' ? Hu Hus]; subst. apply Forall_cons in Hok as [Hb Hok].
  simpl in Hl. rewrite length_app in Hl. rewrite <- (take_drop (length d) handles) in Hnd, Hh.
  apply NoDup_app in Hnd as (Hnd1 & _ & Hnd2).
  destruct (lookup_handles_ok c n (take (length d) handles)) as (ts & Hts & Hlt & Hall); [intros; apply Hh; set_solver|].
  destruct (IH uids' Hus Hok (drop (length d) handles)) as (l & H1 & H2 & H3 & H4 & H5);
    [rewrite length_drop; lia|done|intros; apply Hh; set_solver|].
  exists (mkServed uid b (take (length d) handles) ts :: l). rewrite !fmap_cons. simpl. rewrite H1, H2, H3.
  split; [done|]. split; [done|]. split; [done|]. split; (constructor; [|done]); [|exact Hts].
  split; [done|]. split; [done|]. split; [|by split]. simpl. intros ->. rewrite length_take in Hlt.
  destruct d; [done|]. cbn [length] in *. lia.
Qed.

Lemma requested_backends_ok h uids bs :
  requested_backends h uids = Ok bs -> Forall2 (fun uid b => find_backend (module_backends h) uid = Ok b) uids bs.
Proof. unfold requested_backends. intros H. by apply mapR_Forall2 in H. Qed.

Lemma check_uids_nonempty h uids us : _check_uids h uids = Ok us -> us <> [].
Proof. unfold _check_uids. intros H ->. inv_ok. by rewrite H in Hguard. Qed.

Lemma descriptors_nonempty bs n m ds :
  Forall (fun b => tb_devices b <> []) bs -> Forall backend_ok bs -> _allocate_cache bs n m = Ok ds ->
  Forall2 (fun (b : TransformerBackend) d => d <> []) bs ds.
Proof.
  intros Hdev Hok H. apply mapR_Forall2 in H. induction H as [|b d bs ds Hb _ IH]; [constructor|].
  apply Forall_cons in Hdev as [Hd Hdev]. apply Forall_cons in Hok as [[Hheads _] Hok]. constructor; [|by apply IH].
  unfold get_inference_cache_descriptors in Hb. destruct (zdiv _ _) as [hd|]; simpl in Hb; [|done].
  destruct (tb_devices b) as [|dev devs]; [done|]. destruct (tb_shard_num_heads b) as [|nh nhs]; [done|].
  simpl in Hb. destruct (zdiv nh _) as [k|]; simpl in Hb; [|done]. destruct (mapR _ _); [|done]. simpl in Hb.
  by injection Hb as <-.
Qed.

(** The blocks of a session that was opened, with the tensors of the handles that it was given. *)
Lemma opened_served h r o ds handles (c1 : @MemoryCache (list slot)) :
  open_inference float_of_str h r = Ok o ->
  _allocate_cache (so_backends o) (so_batch_size o) (so_max_length o) = Ok ds ->
  Forall backend_ok (so_backends o) -> Forall (fun b => tb_devices b <> []) (so_backends o) ->
  length handles = length (concat ds) -> NoDup handles ->
  (forall x, x ∈ handles -> exists t, dget (mc_allocated_tensors c1) x = Some t /\ so_max_length o <= zlen t) ->
  exists l, sv_backend <$> l = so_backends o /\ sv_handles <$> l = group_handles handles ds /\
    session_of (session_config_of h o (group_handles handles ds)) l /\
    Forall (served_ok (module_backends h) (Z.to_nat (so_max_length o))) l /\ NoDup (concat (sv_handles <$> l)) /\
    Forall (fun v => lookup_handles c1 (sv_handles v) = Ok (sv_tensors v)) l.
Proof.
  intros Hopen Hds Hok Hdev Hlen Hnd Hh.
  assert (Ho : _check_uids h (req_uid r) = Ok (so_uids o) /\ requested_backends h (so_uids o) = Ok (so_backends o)).
  { unfold open_inference in Hopen. inv_ok. done. }
  destruct Ho as [Hu Hb]. pose proof (requested_backends_ok _ _ _ Hb) as Hub.
  pose proof (descriptors_nonempty _ _ _ _ Hdev Hok Hds) as Hne.
  destruct (build_served (module_backends h) c1 (Z.to_nat (so_max_length o)) _ _ _ Hub Hne Hok handles Hlen Hnd)
    as (l & H1 & H2 & H3 & H4 & H5).
  { intros x Hx. destruct (Hh x Hx) as (t & Ht & Hl). exists t. split; [done|]. unfold zlen in Hl. lia. }
  exists l. repeat (split; [done|]). split; [|split; [done|split; [by rewrite H3, concat_group_handles|done]]].
  repeat split; try done. intros ->. apply (check_uids_nonempty _ _ _ Hu). by rewrite <- H1.
Qed.

(** C6: A session, from the opening request on: with the cache handles that were allocated for it, and when the requests that
    it takes (the first of each step identifier among those received before it ends) parse, have no prompts and fit the
    allocated length, the answers are what its blocks compute on the tokens of all of them at once, one answer for each.
    However often a step arrives, from the client and pushed by a server, it is taken once and none is left out, and the
    session ends as its arrivals say. *)
Theorem inference_session_correct garbage h r o ds handles (c c1 : @MemoryCache (list slot)) a rs :
  (forall n, length (garbage n) = n) ->
  open_inference float_of_str h r = Ok o ->
  _allocate_cache (so_backends o) (so_batch_size o) (so_max_length o) = Ok ds ->
  Forall backend_ok (so_backends o) -> Forall (fun b => tb_devices b <> []) (so_backends o) ->
  length handles = length (concat ds) -> NoDup handles -> recv_all make_zeros c = Ok c1 ->
  (forall x, x ∈ handles -> exists t, dget (mc_allocated_tensors c1) x = Some t /\ so_max_length o <= zlen t) ->
  parse_steps (so_args_structure o) (first_steps (received r a)) = (rs, None) ->
  Forall (plain_request (session_config_of h o (group_handles handles ds))) rs -> total_tokens rs <= so_max_length o ->
  once [] (first_steps (received r a)) (received r a) /\
  exists l outs,
    sv_backend <$> l = so_backends o /\
    ir_responses (inference_session h garbage o r (group_handles handles ds) c a) =
      zip_with (fun y p => serialize_torch_tensor (THidden (sr_batch p) (sr_hid p) y) (hc_schema_compression h)) outs rs /\
    length outs = length rs /\ concat outs = span_out (Some (so_adapter o)) l (concat (sr_hidden <$> rs)) /\
    ir_ending (inference_session h garbage o r (group_handles handles ds) c a) = ends_with r a.
Proof.
  intros Hg Hopen Hds Hok Hdev Hlen Hnd Hrecv Hh Hparse Hplain Htotal. split.
  { pose proof (steps_once a r []) as H. by rewrite session_steps in H. }
  destruct (opened_served h r o ds handles c1 Hopen Hds Hok Hdev Hlen Hnd Hh) as (l & H1 & H2 & Hs & H3 & H4 & H5).
  destruct (session_outputs garbage (session_config_of h o (group_handles handles ds)) l c c1 rs) as (ys & [c' n] & Hit & Hly & _ & Hout & _);
    try done.
  exists l, ((fun y => y.1.1) <$> ys). split; [done|]. unfold inference_session.
  rewrite session_steps, Hparse, Hit. cbn [ir_responses ir_ending].
  split; [by rewrite zip_with_fmap_l|]. split; [by rewrite length_fmap|]. done.
Qed.
End handler_proofs.

(** ** Witnesses *)

#[global] Instance PlainWire : WireFormat (CM := SumModule) (NS := ListNested) := {|
  wire := tensor (CM := SumModule);
  deserialize_torch_tensor t := t;
  serialize_torch_tensor t _ := t;
  wire_size0 t := match t with THidden b _ _ => b | _ => 1 end;
  structure_of _ := _mark_masked_tensor <$> [0; 1; 2];
  call_args l := l;
|}.

Definition example_handler : HandlerConfig :=
  mkHandlerConfig [(make_uid "m" 0, example_block 0); (make_uid "m" 1, example_block 1)] "m" [] 8 QNONE 0 100.

Definition step_tensors (x : list Z) : list (tensor (CM := SumModule)) :=
  [THidden (CM := SumModule) 1 1 x; TPrompts []; TInts torch_int64 []].

Definition next_server_of (a b : Z) : pyval := PList [PList [PStr "peer"; PStr "sid"; PInt a; PInt b]].

Definition open_request : ExpertRequest (WF := PlainWire) :=
  mkExpertRequest (WF := PlainWire) (next_uid example_handler 0 2) (step_tensors [1; 2])
    (Some (PDict [(PStr "max_length", PInt 4); (PStr "step_id", PInt 0)])).

Definition second_request : ExpertRequest (WF := PlainWire) :=
  mkExpertRequest (WF := PlainWire) (next_uid example_handler 0 2) (step_tensors [3]) (Some (PDict [(PStr "step_id", PInt 1)])).

Definition arrivals12 := [FromClient second_request; FromQueue (Some second_request); StepTimeout].

Definition example_open : session_open :=
  mkSessionOpen [make_uid "m" 0; make_uid "m" 1] [example_block 0; example_block 1] 4 PNone f_zero 1 "" PNone.

Definition example_descriptors : list (list TensorDescriptor) :=
  match _allocate_cache (so_backends example_open) 1 4 with Ok ds => ds | Err _ => [] end.

Definition example_steps : list (step_request (CM := SumModule) metadata_dict) :=
  (parse_steps PNone (first_steps (received open_request arrivals12))).1.

Lemma push_accepted_witness :
  exists r' md', _push_outputs example_handler open_request (THidden (CM := SumModule) 1 1 [5])
      [(PStr "next_servers", next_server_of 0 2)] = Some ("peer", r') /\
    rpc_push example_handler r' = Ok (PStr "sid", r') /\
    _check_uids example_handler (req_uid r') = Ok ((fun i => make_uid "m" i) <$> zrange 0 2) /\
    req_tensors r' = THidden (CM := SumModule) 1 1 [5] :: drop 1 (req_tensors open_request) /\
    request_metadata r' = Ok md' /\ md_get md' "next_servers" PNone = PList [] /\
    md_get md' "pushed" PNone = PBool true /\ step_id md' = step_id [(PStr "next_servers", next_server_of 0 2)].
Proof.
  apply (push_accepted example_handler example_handler open_request _ _ "peer" (PStr "sid") 0 2 []);
    [reflexivity|lia|reflexivity|].
  intros i Hi. assert (i = 0 \/ i = 1) as [->| ->] by lia; reflexivity.
Defined.

Lemma inference_session_correct_witness :
  length (received open_request arrivals12) = 3%nat /\ length example_steps = 2%nat /\
  exists l outs,
    sv_backend <$> l = [example_block 0; example_block 1] /\
    ir_responses (inference_session example_handler zeros example_open open_request (group_handles [7; 8; 9; 10] example_descriptors)
      session_cache arrivals12) =
      zip_with (fun y p => serialize_torch_tensor (WireFormat := PlainWire) (THidden (CM := SumModule) (sr_batch p) (sr_hid p) y) 0)
        outs example_steps /\
    length outs = length example_steps /\ concat outs = span_out (Some "") l (concat (sr_hidden <$> example_steps)) /\
    ir_ending (inference_session example_handler zeros example_open open_request (group_handles [7; 8; 9; 10] example_descriptors)
      session_cache arrivals12) = Returned.
Proof.
  split; [reflexivity|]. split; [reflexivity|]. eapply proj2.
  apply (inference_session_correct (fun _ => None) zeros example_handler open_request example_open example_descriptors
    [7; 8; 9; 10] session_cache session_cache arrivals12 example_steps).
  - exact (fun n => length_replicate n 0).
  - reflexivity.
  - reflexivity.
  - repeat constructor; simpl; try done; lia.
  - repeat constructor; done.
  - reflexivity.
  - repeat constructor; set_solver.
  - reflexivity.
  - intros x Hx. assert (x = 7 \/ x = 8 \/ x = 9 \/ x = 10) as [->|[->|[->| ->]]] by set_solver;
      exists [0; 0; 0; 0]; split; try reflexivity; cbn; lia.
  - reflexivity.
  - repeat constructor; simpl; try done; lia.
  - vm_compute. discriminate.
Defined.
