(* ===== verification/SessionStream.v ===== *)
(** * SessionStream: one inference session over its stream

    [_ServerInferenceSession] of [client/inference_session.py] and [rpc_inference] of [server/handler.py] talk over one
    stream of requests and one of responses, while other servers push requests to the session's queue.  The client puts
    messages into a queue that a generator reads, the server waits for the next message or push, every wait may time out.
    All of them take steps in any order; the streams keep the order of their messages. *)

From S2P Require Import Prelude PyString PyFloat PyDict DataStructures Utils MemoryCache Backend Packaging BlockFunctions Handler.

Section session_stream.
Context {TD : TorchDtypes} {CM : CausalModule} {TM : TrainableModule} {NS : Nested} {WF : WireFormat}.
Context (float_of_str : string -> option pyfloat) (h : HandlerConfig).

(** What [rpc_inference] does with a step: its request and metadata; its response is what the blocks make of them. *)
Abbreviation served_step := (ExpertRequest * metadata_dict)%type.

(** Where the client is: between steps, in a step of the whole session that has not reached this server, waiting for its
    response, after an exception, in [_aclose_stream], and after it. *)
Inductive phase := Idle | StepBegun | StepWait | Broken | CloseWait | Closed.

#[local] Instance phase_eq_dec : EqDecision phase.
Proof. solve_decision. Defined.

(** [rpc_inference]: waiting for the first request, then in [_iterate_inference_steps] with [processed_step_ids]. *)
Inductive server := Opening | Running (processed : list pyval) | Ended (e : ending).

Record world := mkWorld {
  w_begun : list pyval;                   (* the [step_id] of every step that the client has begun *)
  w_phase : phase;
  w_stepped : bool;
  w_inputs : list ExpertRequest;          (* [_inputs_queue] *)
  w_reading : bool;                       (* [_read_inputs_from_queue] has not ended *)
  w_requests : list ExpertRequest;        (* sent, not yet taken by the server *)
  w_pushes : list ExpertRequest;          (* the queue of the session *)
  w_server : server;
  w_responses : list served_step;         (* sent, not yet taken by the client *)
  w_served : list served_step;            (* all responses sent *)
  w_got : list served_step;               (* those that [_step] has returned *)
  w_log : option (ExpertRequest * list arrival);   (* the first request of the server, and what arrived after it *)
}.

(** [create]: the stream is open. *)
Definition create : world := mkWorld [] Idle false [] true [] [] Opening [] [] [] None.

(** [runtime_pb2.ExpertRequest()] *)
Definition empty_request : ExpertRequest := mkExpertRequest "" [] None.

(** [not next_input_message.uid and not next_input_message.tensors] *)
Definition done_sending (r : ExpertRequest) : bool := String.eqb (req_uid r) "" && match req_tensors r with [] => true | _ => false end.

(** A request with tensors for one step *)
Definition carries (r : ExpertRequest) (id : pyval) : bool :=
  match req_tensors r, request_metadata r with _ :: _, Ok md => bool_decide (step_id md = Some id) | _, _ => false end.

(** The client may still begin steps on this session. *)
Definition live (p : phase) : bool := match p with Idle | StepBegun | StepWait => true | _ => false end.

(** ** The client *)

Definition with_client (w : world) (p : phase) (stepped : bool) (inputs : list ExpertRequest) (responses got : list served_step) : world :=
  mkWorld (w_begun w) p stepped inputs (w_reading w) (w_requests w) (w_pushes w) (w_server w) responses (w_served w) got (w_log w).

(** The session of all servers begins a step; its identifier is new. *)
Definition begin_step (id : pyval) (w : world) : option world :=
  if bool_decide (w_phase w = Idle) && bool_decide (id ∉ w_begun w) then
    Some (mkWorld (w_begun w ++ [id]) StepBegun (w_stepped w) (w_inputs w) (w_reading w) (w_requests w) (w_pushes w)
            (w_server w) (w_responses w) (w_served w) (w_got w) (w_log w))
  else None.

(** [_step] puts the request of the step into the queue, *)
Definition _step (r : ExpertRequest) (w : world) : option world :=
  match w_phase w, last (w_begun w) with
  | StepBegun, Some id =>
      if carries r id then Some (with_client w StepWait true (w_inputs w ++ [r]) (w_responses w) (w_got w)) else None
  | _, _ => None
  end.

(** and waits for a response: it gets one, the stream ends, or the time is over. *)
Definition receive (w : world) : option world :=
  match w_phase w, w_responses w, w_server w with
  | StepWait, s :: rest, _ => Some (with_client w Idle (w_stepped w) (w_inputs w) rest (w_got w ++ [s]))
  | StepWait, [], Ended _ => Some (with_client w Broken (w_stepped w) (w_inputs w) [] (w_got w))
  | _, _, _ => None
  end.

Definition request_timeout (w : world) : option world :=
  match w_phase w with
  | StepWait => Some (with_client w Broken (w_stepped w) (w_inputs w) (w_responses w) (w_got w))
  | _ => None
  end.

(** [close] and [_aclose_stream]: a session that was stepped sends an empty request and waits for the next response, *)
Definition close (w : world) : option world :=
  match w_phase w with
  | Idle | StepBegun | Broken =>
      Some (if w_stepped w then with_client w CloseWait true (w_inputs w ++ [empty_request]) (w_responses w) (w_got w)
            else with_client w Closed false (w_inputs w) (w_responses w) (w_got w))
  | _ => None
  end.

(** or for the end of the stream; the exception that the server has raised is raised again. *)
Definition close_done (w : world) : option world :=
  match w_phase w, w_responses w, w_server w with
  | CloseWait, _ :: rest, _ => Some (with_client w Closed true (w_inputs w) rest (w_got w))
  | CloseWait, [], Ended (RaisedErr _) => Some (with_client w Broken true (w_inputs w) [] (w_got w))
  | CloseWait, [], Ended _ => Some (with_client w Closed true (w_inputs w) [] (w_got w))
  | _, _, _ => None
  end.

(** [_read_inputs_from_queue] yields the next message to the stream; an empty one is the last. *)
Definition _read_inputs_from_queue (w : world) : option world :=
  match w_reading w, w_inputs w with
  | true, m :: rest =>
      Some (mkWorld (w_begun w) (w_phase w) (w_stepped w) rest (negb (done_sending m)) (w_requests w ++ [m]) (w_pushes w)
              (w_server w) (w_responses w) (w_served w) (w_got w) (w_log w))
  | _, _ => None
  end.

(** ** The server *)

Definition with_server (w : world) (requests pushes : list ExpertRequest) (s : server) (new : list served_step)
    (log : option (ExpertRequest * list arrival)) : world :=
  mkWorld (w_begun w) (w_phase w) (w_stepped w) (w_inputs w) (w_reading w) requests pushes s (w_responses w ++ new)
    (w_served w ++ new) (w_got w) log.

(** One turn of the loop of [_iterate_inference_steps]: a request without tensors ends it, a new step is run and answered. *)
Definition turn (request : ExpertRequest) (processed : list pyval) : server * list served_step :=
  match req_tensors request with
  | [] => (Ended Returned, [])
  | _ =>
      match request_metadata request with
      | Err e => (Ended (RaisedErr e), [])
      | Ok md => (Running (processed_after processed (step_id md)),
                  if not_processed processed (step_id md) then [(request, md)] else [])
      end
  end.

(** What the loop does when something arrives. *)
Definition arrive (processed : list pyval) (x : arrival) : server * list served_step :=
  match x with
  | FromClient r | FromQueue (Some r) => turn r processed
  | ClientClosed => (Ended (RaisedErr RuntimeError), [])
  | FromQueue None => (Ended (RaisedErr AttributeError), [])
  | StepTimeout => (Ended Returned, [])
  end.

Definition logged (w : world) (x : arrival) : option (ExpertRequest * list arrival) :=
  (fun l => (l.1, l.2 ++ [x])) <$> w_log w.

Definition arrived (w : world) (requests pushes : list ExpertRequest) (x : arrival) : option world :=
  match w_server w with
  | Running processed =>
      let '(s, new) := arrive processed x in Some (with_server w requests pushes s new (logged w x))
  | _ => None
  end.

(** [request = await asyncio.wait_for(anext(requests), self.step_timeout)], and the checks of [rpc_inference] *)
Definition open_session (w : world) : option world :=
  match w_server w, w_requests w with
  | Opening, r :: rest =>
      match open_inference float_of_str h r with
      | Err e => Some (with_server w rest (w_pushes w) (Ended (RaisedErr e)) [] None)
      | Ok _ => let '(s, new) := turn r [] in Some (with_server w rest (w_pushes w) s new (Some (r, [])))
      end
  | _, _ => None
  end.

Definition open_timeout (w : world) : option world :=
  match w_server w with
  | Opening => Some (with_server w (w_requests w) (w_pushes w) (Ended Returned) [] None)
  | _ => None
  end.

(** [anext_task in done]: a message, or the end of the client's stream *)
Definition next_request (w : world) : option world :=
  match w_requests w with
  | r :: rest => arrived w rest (w_pushes w) (FromClient r)
  | [] => if w_reading w then None else arrived w [] (w_pushes w) ClientClosed
  end.

(** [get_push_task in done] *)
Definition next_push (w : world) : option world :=
  match w_pushes w with
  | r :: rest => arrived w (w_requests w) rest (FromQueue (Some r))
  | [] => None
  end.

Definition step_timeout (w : world) : option world := arrived w (w_requests w) (w_pushes w) StepTimeout.

(** The blocks raise, the cache cannot be allocated, or [session_timeout] is over. *)
Definition server_fails (e : exn) (w : world) : option world :=
  match w_server w with
  | Running _ => Some (with_server w (w_requests w) (w_pushes w) (Ended (RaisedErr e)) [] (w_log w))
  | _ => None
  end.

(** [rpc_push] of another server: for a step that the client has begun, as long as it uses this session; the queue exists
    while the session runs, and a push to an unknown session is ignored. *)
Definition pushed (r : ExpertRequest) (w : world) : option world :=
  if existsb (carries r) (w_begun w) || negb (live (w_phase w)) then
    match w_server w with
    | Running _ => Some (with_server w (w_requests w) (w_pushes w ++ [r]) (w_server w) [] (w_log w))
    | _ => Some w
    end
  else None.

(** ** Steps and runs *)

Inductive action :=
  | BeginStep (id : pyval) | Step (r : ExpertRequest) | Receive | RequestTimeout | Close | CloseDone | ReadInputs
  | OpenSession | OpenTimeout | NextRequest | NextPush | StepTimedOut | ServerFails (e : exn) | Pushed (r : ExpertRequest).

Definition act (a : action) : world -> option world :=
  match a with
  | BeginStep id => begin_step id
  | Step r => _step r
  | Receive => receive
  | RequestTimeout => request_timeout
  | Close => close
  | CloseDone => close_done
  | ReadInputs => _read_inputs_from_queue
  | OpenSession => open_session
  | OpenTimeout => open_timeout
  | NextRequest => next_request
  | NextPush => next_push
  | StepTimedOut => step_timeout
  | ServerFails e => server_fails e
  | Pushed r => pushed r
  end.

Fixpoint run (tr : list action) (w : world) : option world :=
  match tr with [] => Some w | a :: tr' => act a w ≫= run tr' end.

(** ** Every step gets its own response *)

Definition sid (s : served_step) : option pyval := step_id s.2.

(** The steps that the client has seen answered. *)
Definition answered (w : world) : list pyval := match w_phase w with Idle => w_begun w | _ => removelast (w_begun w) end.

Definition for_step (w : world) (r : ExpertRequest) : Prop := exists id, id ∈ w_begun w /\ carries r id = true.

(** The state of a session that the client uses. *)
Record in_step (w : world) : Prop := {
  is_new : NoDup (w_begun w);
  is_begun : w_phase w <> Idle -> w_begun w <> [];
  is_messages : Forall (for_step w) (w_inputs w ++ w_requests w ++ w_pushes w);
  is_got : sid <$> w_got w = Some <$> answered w;
  is_served : w_got w ++ w_responses w = w_served w;
  is_ids : exists upto, (sid <$> w_served w = Some <$> upto) /\ (upto = answered w \/ upto = w_begun w);
  is_running : forall processed, w_server w = Running processed -> processed = reverse (ids (w_served w));
  is_opening : w_server w = Opening -> w_served w = [];
}.

Lemma ids_some l upto : sid <$> l = Some <$> upto -> ids l = upto.
Proof.
  revert upto. induction l as [|s l IH]; intros [|v upto] H; [done..|]. rewrite !fmap_cons in H. injection H as Hs Hl.
  rewrite ids_cons. unfold sid in Hs. rewrite Hs. f_equal. by apply IH.
Qed.

Lemma carries_step r id : carries r id = true ->
  exists t ts md, req_tensors r = t :: ts /\ request_metadata r = Ok md /\ step_id md = Some id.
Proof.
  unfold carries. destruct (req_tensors r) as [|t ts]; [done|]. destruct (request_metadata r) as [md|]; [|done].
  intros H%bool_decide_eq_true. by exists t, ts, md.
Qed.

(** A step that has begun and is not answered is the last one. *)
Lemma last_unanswered w id : in_step w -> id ∈ w_begun w -> id ∉ answered w -> w_begun w = answered w ++ [id].
Proof.
  intros Hw Hin Hnot. unfold answered in *. destruct (decide (w_phase w = Idle)) as [He|He].
  - by rewrite He in Hnot.
  - assert (Ha : match w_phase w with Idle => w_begun w | _ => removelast (w_begun w) end = removelast (w_begun w))
      by (destruct (w_phase w); done).
    rewrite Ha in *. rewrite (app_removelast_last id (is_begun w Hw He)) in Hin |- * at 1.
    apply elem_of_app in Hin as [?|Hin%list_elem_of_singleton]; [done|]. by rewrite <- Hin.
Qed.

(** A turn of the loop answers a step that was not answered, or nothing. *)
Lemma turn_in_step w r p s new : in_step w -> for_step w r -> p = reverse (ids (w_served w)) -> turn r p = (s, new) ->
  (exists upto, (sid <$> (w_served w ++ new) = Some <$> upto) /\ (upto = answered w \/ upto = w_begun w)) /\
  (forall p', s = Running p' -> p' = reverse (ids (w_served w ++ new))) /\ s <> Opening.
Proof.
  intros Hw (id & Hin & (t & ts & md & Ht & Hmd & Hid)%carries_step) -> H. unfold turn in H. rewrite Ht, Hmd in H.
  destruct (is_ids w Hw) as (upto & Hdone & Hor). unfold processed_after in H. rewrite Hid in H. cbn [not_processed] in H.
  rewrite (ids_some _ _ Hdone) in *. case_bool_decide as Hf; injection H as <- <-.
  - rewrite elem_of_reverse in Hf. assert (Hb : w_begun w = upto ++ [id]).
    { destruct Hor as [->| ->]; [by apply last_unanswered|done]. }
    assert (Hs : sid <$> (w_served w ++ [(r, md)]) = Some <$> upto ++ [id]).
    { rewrite !fmap_app, Hdone. f_equal. unfold sid. cbn. by rewrite Hid. }
    split; [exists (upto ++ [id]); split; [done|by right]|]. split; [|done].
    intros p' [= <-]. by rewrite (ids_some _ _ Hs), reverse_app.
  - rewrite app_nil_r. split; [by exists upto|]. split; [|done]. intros p' [= <-]. by rewrite (ids_some _ _ Hdone).
Qed.

Lemma server_in_step w requests pushes s new log : in_step w ->
  Forall (for_step w) (requests ++ pushes) ->
  (exists upto, (sid <$> (w_served w ++ new) = Some <$> upto) /\ (upto = answered w \/ upto = w_begun w)) ->
  (forall p, s = Running p -> p = reverse (ids (w_served w ++ new))) -> (s = Opening -> w_served w ++ new = []) ->
  in_step (with_server w requests pushes s new log).
Proof.
  intros [Hn Hb Hm Hg Hs Hi Hr Ho] Hmsg Hids Hrun Hop. split; try done; cbn.
  - apply Forall_app in Hm as [Hm _]. apply Forall_app. by split.
  - rewrite app_assoc, Hs. done.
Qed.

Lemma ended_in_step w requests pushes e log : in_step w -> Forall (for_step w) (requests ++ pushes) ->
  in_step (with_server w requests pushes (Ended e) [] log).
Proof. intros Hw Hm. apply server_in_step; [done|done| |done|done]. rewrite app_nil_r. by apply is_ids. Qed.

Lemma in_step_parts w : in_step w ->
  Forall (for_step w) (w_inputs w) /\ Forall (for_step w) (w_requests w) /\ Forall (for_step w) (w_pushes w).
Proof. intros Hw. pose proof (is_messages w Hw) as Hm. by rewrite !Forall_app in Hm. Qed.

Lemma arrived_in_step w requests pushes x w' : in_step w -> arrived w requests pushes x = Some w' ->
  Forall (for_step w) (requests ++ pushes) ->
  match x with FromClient r | FromQueue (Some r) => for_step w r | _ => True end -> in_step w'.
Proof.
  intros Hw H Hm Hx. unfold arrived in H. destruct (w_server w) as [|p|] eqn:Es; try done.
  pose proof (is_running w Hw p Es) as Hp. destruct x as [r| |[r|]|]; cbn [arrive] in H;
    try (injection H as <-; by apply ended_in_step).
  all: destruct (turn r p) as [s new] eqn:Et; injection H as <-;
    destruct (turn_in_step _ _ _ _ _ Hw Hx Hp Et) as (Hids & Hrun & Hop); by apply server_in_step.
Qed.

(** A client that only moves on: its queue and what it got *)
Lemma begin_in_step id w w' : in_step w -> begin_step id w = Some w' -> in_step w'.
Proof.
  intros [Hn Hb Hm Hg Hs Hi Hr Ho] H. unfold begin_step in H.
  destruct (bool_decide (w_phase w = Idle)) eqn:Ep; [|done]. apply bool_decide_eq_true in Ep.
  destruct (bool_decide (id ∉ w_begun w)) eqn:Ei; [|done]. apply bool_decide_eq_true in Ei. injection H as <-.
  unfold answered in *. rewrite Ep in *. split; cbn; try done.
  - apply NoDup_app. split; [done|]. split; [|by apply NoDup_singleton].
    by intros v Hv ->%list_elem_of_singleton.
  - intros _ Hnil. by destruct (w_begun w).
  - eapply Forall_impl; [exact Hm|]. intros r (v & Hv & Hc). exists v. split; [|done]. cbn. apply elem_of_app. by left.
  - by rewrite removelast_last.
  - rewrite removelast_last. destruct Hi as (upto & Hu & Hor). exists upto. split; [done|]. left. by destruct Hor.
Qed.

Lemma step_in_step r w w' : in_step w -> _step r w = Some w' -> in_step w'.
Proof.
  intros [Hn Hb Hm Hg Hs Hi Hr Ho] H. unfold _step in H. destruct (w_phase w) eqn:Ep; try done.
  destruct (last (w_begun w)) as [id|] eqn:El; [|done]. destruct (carries r id) eqn:Ec; [|done]. injection H as <-.
  unfold answered in *. rewrite Ep in *. split; cbn; try done; [by intros _; apply Hb|].
  rewrite <- app_assoc. apply Forall_app in Hm as [H1 H2]. apply Forall_app. split; [done|]. constructor; [|done].
  exists id. split; [|done]. apply last_Some in El as [l El]. cbn. rewrite El. apply elem_of_app. right. by left.
Qed.

Lemma receive_in_step w w' : in_step w -> receive w = Some w' -> live (w_phase w') = true -> in_step w'.
Proof.
  intros [Hn Hb Hm Hg Hs Hi Hr Ho] H Hl. unfold receive in H. destruct (w_phase w) eqn:Ep; try done.
  destruct (w_responses w) as [|s rest] eqn:Er; [destruct (w_server w); try done; by injection H as <-|].
  injection H as <-. unfold answered in *. rewrite Ep in *.
  assert ((sid <$> (w_got w ++ [s]) = Some <$> w_begun w) /\ rest = []) as [Hgot ->].
  { destruct Hi as (upto & Hu & Hor). rewrite <- Hs, fmap_app, Hg in Hu. cbn in Hu.
    assert (Hlen : length (w_begun w) = S (length (removelast (w_begun w)))).
    { destruct (exists_last (l := w_begun w)) as (l & v & ->); [by apply Hb|]. rewrite removelast_last, length_app. cbn. lia. }
    assert (upto = w_begun w) as ->.
    { destruct Hor as [->|]; [|done]. exfalso. apply (f_equal length) in Hu. rewrite length_app in Hu. cbn in Hu. lia. }
    assert (rest = []) as ->.
    { apply (f_equal length) in Hu. rewrite length_app, !length_fmap in Hu. cbn in Hu. rewrite length_fmap in Hu.
      destruct rest; [done|]. cbn in Hu. lia. }
    split; [|done]. rewrite fmap_app, Hg. exact Hu. }
  split; cbn; try done.
  - rewrite <- app_assoc. exact Hs.
  - destruct Hi as (upto & Hu & _). exists (w_begun w). split; [|by left]. by rewrite <- Hs.
Qed.

Lemma act_in_step a w w' : in_step w -> act a w = Some w' -> live (w_phase w) = true -> live (w_phase w') = true -> in_step w'.
Proof.
  intros Hw H Hl Hl'. pose proof (in_step_parts w Hw) as (H1 & H2 & H3).
  destruct a; cbn [act] in H.
  - by eapply begin_in_step.
  - by eapply step_in_step.
  - by eapply receive_in_step.
  - unfold request_timeout in H. destruct (w_phase w); try done. by injection H as <-.
  - unfold close in H. destruct (w_phase w); try done; destruct (w_stepped w); by injection H as <-.
  - unfold close_done in H. by destruct (w_phase w).
  - unfold _read_inputs_from_queue in H. destruct (w_reading w); [|done]. destruct (w_inputs w) as [|m rest] eqn:Ei; [done|].
    injection H as <-. destruct Hw as [Hn Hb Hm Hg Hs Hi Hr Ho]. split; try done. cbn.
    rewrite Ei in Hm. rewrite !Forall_app in *. apply Forall_cons in H1 as [Hm1 Hm2].
    split; [done|]. split; [|done]. split; [done|]. by repeat constructor.
  - unfold open_session in H. destruct (w_server w) eqn:Es; try done. destruct (w_requests w) as [|r rest] eqn:Er; [done|].
    apply Forall_cons in H2 as [Hr1 Hr2]. assert (Hm : Forall (for_step w) (rest ++ w_pushes w)) by (by apply Forall_app).
    destruct (open_inference float_of_str h r); [|injection H as <-; by apply ended_in_step].
    destruct (turn r []) as [s new] eqn:Et. injection H as <-.
    destruct (turn_in_step w r [] s new Hw Hr1) as (Hids & Hrun & Hop); [by rewrite (is_opening w Hw Es)|done|].
    by apply server_in_step.
  - unfold open_timeout in H. destruct (w_server w); try done. injection H as <-. apply ended_in_step; [done|by apply Forall_app].
  - unfold next_request in H. destruct (w_requests w) as [|r rest].
    + destruct (w_reading w); [done|]. by eapply arrived_in_step.
    + apply Forall_cons in H2 as [Hr1 Hr2]. eapply arrived_in_step; [done..| |done]. by apply Forall_app.
  - unfold next_push in H. destruct (w_pushes w) as [|r rest]; [done|]. apply Forall_cons in H3 as [Hr1 Hr2].
    eapply arrived_in_step; [done..| |done]. by apply Forall_app.
  - eapply arrived_in_step; [done..| |done]. by apply Forall_app.
  - unfold server_fails in H. destruct (w_server w); try done. injection H as <-. apply ended_in_step; [done|by apply Forall_app].
  - unfold pushed in H. destruct (existsb (carries r) (w_begun w)) eqn:Ee; [|by rewrite Hl in H]. cbn in H.
    destruct (w_server w) as [|p|] eqn:Es; try (by injection H as <-). injection H as <-. apply server_in_step; try done.
    + rewrite !Forall_app. repeat split; try done. constructor; [|done]. apply existsb_exists in Ee as (id & Hid & Hc).
      exists id. split; [by apply list_elem_of_In|done].
    + rewrite app_nil_r. by apply is_ids.
    + rewrite app_nil_r, <- Es. by apply is_running.
Qed.

(** What an action does to the client's part when the session is given up, or was before. *)
Lemma act_given_up a w w' : act a w = Some w' ->
  (live (w_phase w') = true -> live (w_phase w) = true) /\
  (live (w_phase w') = false -> w_got w' = w_got w /\ w_begun w' = w_begun w).
Proof.
  intros H.
  assert (Harr : forall requests pushes x, arrived w requests pushes x = Some w' ->
    w_phase w' = w_phase w /\ w_got w' = w_got w /\ w_begun w' = w_begun w).
  { intros requests pushes x Ha. unfold arrived in Ha. destruct (w_server w) as [|p|]; try done.
    destruct (arrive p x). by injection Ha as <-. }
  assert (Hsame : w_phase w' = w_phase w /\ w_got w' = w_got w /\ w_begun w' = w_begun w ->
    (live (w_phase w') = true -> live (w_phase w) = true) /\
    (live (w_phase w') = false -> w_got w' = w_got w /\ w_begun w' = w_begun w)).
  { intros (-> & -> & ->). done. }
  destruct a; cbn [act] in H; unfold begin_step, _step, receive, request_timeout, close, close_done, open_session,
    open_timeout, next_request, next_push, step_timeout, server_fails, pushed, _read_inputs_from_queue in H;
    repeat case_match; simplify_eq; try (by split); try (by split; [intros _; match goal with Hp : _ && _ = true |- _ => apply andb_true_iff in Hp as [->%bool_decide_eq_true _] end|]);
    try (apply Hsame; by eapply Harr); by apply Hsame.
Qed.

Record stream_ok (w : world) : Prop := {
  st_live : live (w_phase w) = true -> in_step w;
  st_prefix : exists k, sid <$> w_got w = Some <$> take k (w_begun w);
}.

Lemma create_ok : stream_ok create.
Proof.
  split; [|by exists 0%nat]. intros _. split; try done; cbn; try constructor.
  exists []. split; [done|by left].
Qed.

Lemma removelast_take {A} (l : list A) : removelast l = take (length l - 1) l.
Proof. rewrite removelast_firstn_len. f_equal. lia. Qed.

Lemma session_act_ok a w w' : stream_ok w -> act a w = Some w' -> stream_ok w'.
Proof.
  intros [Hin Hpre] H. pose proof (act_given_up a w w' H) as (Hlive & Hsame).
  destruct (live (w_phase w')) eqn:El.
  - assert (Hw' : in_step w') by (eapply act_in_step; eauto). split; [done|].
    exists (match w_phase w' with Idle => length (w_begun w') | _ => length (w_begun w') - 1 end)%nat.
    rewrite (is_got w' Hw'). unfold answered. destruct (w_phase w'); by rewrite ?removelast_take, ?firstn_all.
  - split; [by intros ?; congruence|]. destruct Hsame as [-> ->]; [done|]. exact Hpre.
Qed.

Lemma session_run_ok tr w w' : stream_ok w -> run tr w = Some w' -> stream_ok w'.
Proof.
  revert w. induction tr as [|a tr IH]; intros w Hw H; cbn in H; [by injection H as <-|].
  destruct (act a w) as [w1|] eqn:Ea; [|done]. by eapply IH; [eapply session_act_ok|].
Qed.

(** ** The end of a session *)

Definition ended (w : world) : Prop := exists e, w_server w = Ended e.

(** The last message is on its way, or the server has ended. *)
Record closing_ok (w : world) : Prop := {
  cl_sent : w_reading w = false -> Exists (fun r => done_sending r = true) (w_requests w) \/ ended w;
  cl_put : w_phase w = CloseWait -> w_reading w = true -> Exists (fun r => done_sending r = true) (w_inputs w);
}.

Lemma turn_done r p : done_sending r = true -> turn r p = (Ended Returned, []).
Proof. unfold done_sending, turn. destruct (req_tensors r); [done|]. by rewrite andb_false_r. Qed.

(** A server that takes the last message ends. *)
Lemma take_closing w pushes r rest s new log :
  closing_ok w -> ~ ended w -> w_requests w = r :: rest -> (done_sending r = true -> exists e, s = Ended e) ->
  closing_ok (with_server w rest pushes s new log).
Proof.
  intros [Hsent Hput] Hne Er Hs. split; [|done]. cbn. intros Hrd. rewrite Er in Hsent.
  destruct (Hsent Hrd) as [Hex|He]; [|done]. apply Exists_cons in Hex as [Hd|Hex]; [by right; apply Hs|by left].
Qed.

Lemma same_closing w pushes s new log : closing_ok w -> (ended w -> exists e, s = Ended e) ->
  closing_ok (with_server w (w_requests w) pushes s new log).
Proof. intros [Hsent Hput] Hs. split; [|done]. intros [Hex|He]%Hsent; [by left|right; by apply Hs]. Qed.

Lemma arrived_take w r rest w' : closing_ok w -> w_requests w = r :: rest ->
  arrived w rest (w_pushes w) (FromClient r) = Some w' -> closing_ok w'.
Proof.
  intros Hw Er H. unfold arrived in H. destruct (w_server w) as [|p|] eqn:Es; try done.
  destruct (arrive p (FromClient r)) as [s new] eqn:Ea. injection H as <-. eapply take_closing; [done| |done|].
  - intros [e He]. congruence.
  - intros Hd. cbn in Ea. rewrite (turn_done r p Hd) in Ea. injection Ea as <- _. by eexists.
Qed.

Lemma arrived_same w pushes x w' : closing_ok w -> arrived w (w_requests w) pushes x = Some w' -> closing_ok w'.
Proof.
  intros Hw H. unfold arrived in H. destruct (w_server w) as [|p|] eqn:Es; try done.
  destruct (arrive p x) as [s new]. injection H as <-. apply same_closing; [done|]. intros [e He]. congruence.
Qed.

Lemma act_closing a w w' : closing_ok w -> act a w = Some w' -> closing_ok w'.
Proof.
  intros Hw H. pose proof Hw as [Hsent Hput]. destruct a; cbn [act] in H.
  - unfold begin_step in H. case_match; simplify_eq. by split.
  - unfold _step in H. repeat case_match; simplify_eq. by split.
  - unfold receive in H. repeat case_match; simplify_eq; by split.
  - unfold request_timeout in H. repeat case_match; simplify_eq; by split.
  - unfold close in H. repeat case_match; simplify_eq; (split; [done|]); try done; intros _ _; apply Exists_app; right; by left.
  - unfold close_done in H. repeat case_match; simplify_eq; by split.
  - unfold _read_inputs_from_queue in H. destruct (w_reading w) eqn:Er; [|done].
    destruct (w_inputs w) as [|m rest] eqn:Ei; [done|]. injection H as <-. split; cbn.
    + intros Hd%negb_false_iff. left. apply Exists_app. right. by left.
    + intros Hp Hd%negb_true_iff. destruct (proj1 (Exists_cons _ _ _) (Hput Hp eq_refl)) as [?|?]; [congruence|done].
  - unfold open_session in H. destruct (w_server w) eqn:Es; try done. destruct (w_requests w) as [|r rest] eqn:Er; [done|].
    assert (Hne : ~ ended w) by (intros [e He]; congruence).
    destruct (open_inference float_of_str h r); [destruct (turn r []) as [s new] eqn:Et|]; injection H as <-;
      (eapply take_closing; [done..|]); intros Hd; [|by eexists].
    rewrite (turn_done r [] Hd) in Et. injection Et as <- _. by eexists.
  - unfold open_timeout in H. destruct (w_server w) eqn:Es; try done. injection H as <-. apply same_closing; [done|].
    by eexists.
  - unfold next_request in H. destruct (w_requests w) as [|r rest] eqn:Er; [|by eapply arrived_take].
    destruct (w_reading w); [done|]. rewrite <- Er in H. by eapply arrived_same.
  - unfold next_push in H. destruct (w_pushes w); [done|]. by eapply arrived_same.
  - by eapply arrived_same.
  - unfold server_fails in H. destruct (w_server w) eqn:Es; try done. injection H as <-. apply same_closing; [done|]. by eexists.
  - unfold pushed in H. repeat case_match; simplify_eq; [done| |done]. apply same_closing; [done|]. intros [e He]. exfalso. congruence.
Qed.

Lemma run_closing tr w w' : closing_ok w -> run tr w = Some w' -> closing_ok w'.
Proof.
  revert w. induction tr as [|a tr IH]; intros w Hw H; cbn in H; [by injection H as <-|].
  destruct (act a w) as [w1|] eqn:Ea; [|done]. by eapply IH; [eapply act_closing|].
Qed.

(** What the client's loop, the generator and the server do by themselves: no timeout, no failure, no new step. *)
Definition protocol (a : action) : bool :=
  match a with CloseDone | ReadInputs | OpenSession | NextRequest => true | _ => false end.

(** The messages that are not taken, those in the queue twice *)
Definition backlog (w : world) : nat := (2 * length (w_inputs w) + length (w_requests w))%nat.

Definition goes_on (w : world) : Prop := exists a w', protocol a = true /\ act a w = Some w' /\
  (w_phase w' <> CloseWait \/ w_phase w' = CloseWait /\ (backlog w' < backlog w)%nat).

Lemma read_progress w : closing_ok w -> w_phase w = CloseWait -> ~ ended w -> w_requests w = [] -> goes_on w.
Proof.
  intros [Hsent Hput] Hp Hne Er. rewrite Er in Hsent. destruct (w_reading w) eqn:Hrd.
  - specialize (Hput Hp eq_refl). destruct (w_inputs w) as [|m inputs] eqn:Ei; [by apply Exists_nil in Hput|].
    exists ReadInputs. cbn. unfold _read_inputs_from_queue. rewrite Hrd, Ei. eexists. split_and!; [done..|]. right.
    split; [done|]. unfold backlog. cbn. rewrite Er. cbn. lia.
  - destruct Hsent as [Hex|?]; [done|by apply Exists_nil in Hex|done].
Qed.

Lemma close_progress w : closing_ok w -> w_phase w = CloseWait -> goes_on w.
Proof.
  intros Hw Hp. destruct (w_server w) as [|p|e] eqn:Es; [| |].
  3: { exists CloseDone. cbn. unfold close_done. rewrite Hp, Es.
       destruct (w_responses w); [destruct e|]; (eexists; split_and!; [done|done|]); by left. }
  all: assert (Hne : ~ ended w) by (intros [e He]; congruence).
  all: destruct (w_requests w) as [|r rest] eqn:Er; [by apply read_progress|].
  - exists OpenSession. cbn. unfold open_session. rewrite Es, Er.
    destruct (open_inference float_of_str h r); [destruct (turn r []) as [s new]|]; (eexists; split_and!; [done..|]);
      right; (split; [done|]); unfold backlog; cbn; rewrite ?Er; cbn; lia.
  - exists NextRequest. cbn. unfold next_request, arrived. rewrite Es, Er. destruct (arrive p (FromClient r)) as [s new].
    eexists; split_and!; [done..|]. right. split; [done|]. unfold backlog. cbn. rewrite ?Er. cbn. lia.
Qed.

Lemma close_returns n w : closing_ok w -> w_phase w = CloseWait -> (backlog w <= n)%nat ->
  exists tr w', forallb protocol tr = true /\ run tr w = Some w' /\ w_phase w' <> CloseWait /\ (length tr <= S n)%nat.
Proof.
  revert w. induction n as [|n IH]; intros w Hw Hp Hn.
  all: destruct (close_progress w Hw Hp) as (a & w1 & Ha & Hact & [Hend|[Hp1 Hlt]]).
  all: try (exists [a], w1; cbn; rewrite Ha, Hact; split_and!; [done..|lia]).
  - lia.
  - destruct (IH w1) as (tr & w' & Htr & Hrun & Hend & Hlen); [by eapply act_closing|done|lia|].
    exists (a :: tr), w'. cbn. rewrite Ha, Hact. cbn. split_and!; [done..|lia].
Qed.

(** ** The loop in turns is the loop of the handler *)

Fixpoint resume (s : server) (a : list arrival) : server * list served_step :=
  match a, s with
  | x :: a', Running p =>
      let '(s1, n1) := arrive p x in
      let '(s2, n2) := resume s1 a' in (s2, n1 ++ n2)
  | _, _ => (s, [])
  end.

Lemma resume_ended e a : resume (Ended e) a = (Ended e, []).
Proof. by destruct a. Qed.

Definition ending_of (s : server) : ending := match s with Ended e => e | _ => Waits end.

Lemma resume_snoc s a x : resume s (a ++ [x]) =
  let '(s1, n1) := resume s a in
  match s1 with Running p => let '(s2, n2) := arrive p x in (s2, n1 ++ n2) | _ => (s1, n1) end.
Proof.
  revert s. induction a as [|y a IH]; intros s; cbn.
  - destruct s as [|p|e]; [done| |done]. destruct (arrive p x) as [s2 n2]. destruct s2; by rewrite app_nil_r.
  - destruct s as [|p|e]; [done| |done]. destruct (arrive p y) as [s1 n1]. rewrite IH.
    destruct (resume s1 a) as [s2 n2]. destruct s2 as [|p2|e2]; [done| |done].
    destruct (arrive p2 x) as [s3 n3]. by rewrite app_assoc.
Qed.

(** From a request on, with what arrives after it *)
Definition from_request (r : ExpertRequest) (p : list pyval) (a : list arrival) : server * list served_step :=
  let '(s1, n1) := turn r p in
  let '(s2, n2) := resume s1 a in (s2, n1 ++ n2).

Lemma iterate_turns r p a : iterate_inference_steps r p a = ((from_request r p a).2, ending_of (from_request r p a).1).
Proof.
  revert r p. induction a as [|x a IH]; intros r p; unfold from_request, turn; cbn;
    (destruct (req_tensors r) as [|t ts]; [done|]); (destruct (request_metadata r) as [md|e]; [|done]);
    cbn; fold (processed_after p (step_id md)).
  - by case_match.
  - destruct x as [r'| |[r'|]|]; cbn; rewrite ?resume_ended; cbn; try (by rewrite app_nil_r).
    all: rewrite IH; unfold from_request; destruct (turn r' (processed_after p (step_id md))) as [s1 n1];
      destruct (resume s1 a) as [s2 n2]; by case_match.
Qed.

Lemma started r p a : (from_request r p a).1 <> Opening.
Proof.
  assert (Hturn : forall r p, (turn r p).1 <> Opening) by (intros r' p'; unfold turn; by repeat case_match).
  assert (Hres : forall a s, s <> Opening -> (resume s a).1 <> Opening).
  { clear -Hturn. induction a as [|x a IH]; intros s Hs; [done|]. cbn. destruct s as [|p|e]; [done| |done].
    assert (Hx : (arrive p x).1 <> Opening) by (destruct x as [r'| |[r'|]|]; cbn; done || apply Hturn).
    specialize (IH _ Hx). destruct (arrive p x) as [s1 n1]. cbn in IH. by destruct (resume s1 a) as [s2 n2]. }
  unfold from_request. specialize (Hturn r p). destruct (turn r p) as [s1 n1]. specialize (Hres a s1 Hturn).
  by destruct (resume s1 a) as [s2 n2].
Qed.

Definition log_ok (w : world) : Prop :=
  match w_log w with
  | Some (r, a) => from_request r [] a = (w_server w, w_served w)
  | None => w_served w = [] /\ forall p, w_server w <> Running p
  end.

Lemma arrived_log w requests pushes x w' : log_ok w -> arrived w requests pushes x = Some w' -> log_ok w'.
Proof.
  intros Hw H. unfold arrived in H. destruct (w_server w) as [|p|] eqn:Es; try done.
  destruct (arrive p x) as [s new] eqn:Ea. injection H as <-. unfold log_ok, logged in *. cbn.
  destruct (w_log w) as [[r a]|]; [|destruct Hw as [_ Hw]; by destruct (Hw p)]. cbn. unfold from_request in *.
  destruct (turn r []) as [s1 n1]. rewrite resume_snoc. destruct (resume s1 a) as [s2 n2]. injection Hw as -> <-.
  rewrite Es, Ea. by rewrite app_assoc.
Qed.

Definition is_failure (a : action) : bool := match a with ServerFails _ => true | _ => false end.

Lemma act_log a w w' : log_ok w -> act a w = Some w' -> is_failure a = false -> log_ok w'.
Proof.
  intros Hw H Hf.
  assert (Hnil : w_server w = Opening -> w_served w = [] /\ w_log w = None).
  { intros Es. unfold log_ok in Hw. destruct (w_log w) as [[r0 a0]|]; [|by destruct Hw].
    pose proof (started r0 [] a0) as Hs. by rewrite Hw, Es in Hs. }
  destruct a; cbn [act] in H; unfold begin_step, _step, receive, request_timeout, close, close_done, next_request, next_push,
    step_timeout, _read_inputs_from_queue in H; try done;
    try (repeat case_match; simplify_eq; solve [done|by eapply arrived_log]); try (by eapply arrived_log).
  - unfold open_session in H. destruct (w_server w) eqn:Es; try done. destruct (w_requests w) as [|r rest]; [done|].
    destruct Hnil as [Hnil Hlog]; [done|].
    destruct (open_inference float_of_str h r); [destruct (turn r []) as [s new] eqn:Et|]; injection H as <-;
      unfold log_ok; cbn; rewrite Hnil; [|done]. unfold from_request. rewrite Et. cbn. by rewrite app_nil_r.
  - unfold open_timeout in H. destruct (w_server w) eqn:Es; try done. injection H as <-. unfold log_ok. cbn.
    destruct Hnil as [-> _]; done.
  - unfold pushed in H. repeat case_match; simplify_eq; try done. unfold log_ok in *. cbn. rewrite app_nil_r.
    match goal with Es : w_server w = _ |- _ => by rewrite <- Es end.
Qed.

Lemma run_log tr w w' : log_ok w -> run tr w = Some w' -> forallb (fun a => negb (is_failure a)) tr = true -> log_ok w'.
Proof.
  revert w. induction tr as [|a tr IH]; intros w Hw H Hf; cbn in H, Hf; [by injection H as <-|].
  destruct (act a w) as [w1|] eqn:Ea; [|done]. apply andb_true_iff in Hf as [Ha%negb_true_iff Hf].
  by eapply IH; [eapply act_log| |].
Qed.

(** C8: a session keeps the responses in step, in every interleaving of the client, the server, the pushes of other
    servers (each step may be pushed any number of times, and arrive before or after the client's own request), timeouts
    and failures: the responses that [_step] returns are, in order, those of the first steps of the client, one for each;
    when it is between steps every step has had its response and no other is on the stream; and the end of the client's
    messages is never taken for an error: a session that still waits has not reached it. *)
Theorem responses_in_step tr w : run tr create = Some w ->
  (exists k, sid <$> w_got w = Some <$> take k (w_begun w)) /\
  (w_phase w = Idle -> sid <$> w_got w = Some <$> w_begun w /\ w_responses w = []) /\
  (w_requests w = [] -> next_request w = None).
Proof.
  intros H. pose proof (session_run_ok _ _ _ create_ok H) as [Hlive Hpre]. split; [done|]. split.
  - intros Hp. assert (Hw : in_step w) by (apply Hlive; by rewrite Hp). pose proof (is_got w Hw) as Hg.
    unfold answered in Hg. rewrite Hp in Hg. split; [done|]. destruct (is_ids w Hw) as (upto & Hu & Hor).
    assert (upto = w_begun w) as -> by (unfold answered in Hor; rewrite Hp in Hor; by destruct Hor).
    rewrite <- (is_served w Hw), fmap_app, Hg in Hu. destruct (w_responses w); [done|].
    apply (f_equal length) in Hu. rewrite length_app in Hu. cbn in Hu. lia.
  - intros Er. assert (Hc : closing_ok w) by (eapply run_closing; [|exact H]; by split).
    unfold next_request, arrived. rewrite Er. destruct (w_reading w) eqn:Hrd; [done|].
    destruct (cl_sent w Hc Hrd) as [Hex|[e ->]]; [|done]. rewrite Er in Hex. by apply Exists_nil in Hex.
Qed.

(** C31: closing a session always comes to its end: from every state in which [_aclose_stream] waits, the messages that are
    left, the turns of the server's loop and the end of the stream let it return, without any timeout, after at most two
    actions for each message in the queue and one for each on the stream. *)
Theorem close_ends tr w : run tr create = Some w -> w_phase w = CloseWait ->
  exists tr' w', forallb protocol tr' = true /\ (length tr' <= S (backlog w))%nat /\ run tr' w = Some w' /\
    w_phase w' <> CloseWait.
Proof.
  intros H Hp. assert (Hc : closing_ok w) by (eapply run_closing; [|exact H]; by split).
  destruct (close_returns (backlog w) w Hc Hp (le_n _)) as (tr' & w' & Htr & Hrun & Hend & Hlen). by exists tr', w'.
Qed.

(** the turns of a session, taken one at a time as its messages and pushes arrive, are [iterate_inference_steps] on the
    same arrivals: what is answered are its steps, and it ends as it does. *)
Theorem turns_are_iterated tr w r a : run tr create = Some w -> forallb (fun a => negb (is_failure a)) tr = true ->
  w_log w = Some (r, a) -> iterate_inference_steps r [] a = (w_served w, ending_of (w_server w)).
Proof.
  intros H Hf Hlog. assert (Hw : log_ok w) by (eapply run_log; [|exact H|exact Hf]; by split).
  unfold log_ok in Hw. rewrite Hlog in Hw. rewrite iterate_turns. by rewrite Hw.
Qed.
End session_stream.

(** ** Example

    Two steps: the second is pushed by another server before the client's own request arrives, which is then skipped; the
    client closes the session. *)
Definition pushed_request : ExpertRequest (WF := PlainWire) :=
  mkExpertRequest (WF := PlainWire) (next_uid example_handler 0 2) (step_tensors [3])
    (Some (PDict [(PStr "step_id", PInt 1); (PStr "pushed", PBool true)])).

Definition example_trace : list (action (WF := PlainWire)) :=
  [BeginStep (PInt 0); Step open_request; ReadInputs; OpenSession; Receive; BeginStep (PInt 1); Pushed pushed_request; NextPush;
   Step second_request; Receive; ReadInputs; NextRequest; Close].

Abbreviation example_end := (run (WF := PlainWire) (fun _ => None) example_handler example_trace (create (WF := PlainWire))).

Definition example_stream : world (WF := PlainWire) := default (create (WF := PlainWire)) example_end.

Lemma some_default {A} (o : option A) (x : A) : match o with Some _ => true | None => false end = true -> o = Some (default x o).
Proof. by destruct o. Qed.

Lemma example_stream_is : example_end = Some example_stream.
Proof. apply some_default. vm_compute. reflexivity. Qed.

Lemma example_begun : w_begun example_stream = [PInt 0; PInt 1].
Proof. vm_compute. reflexivity. Qed.

Lemma example_closing : w_phase example_stream = CloseWait.
Proof. vm_compute. reflexivity. Qed.

Lemma responses_in_step_witness : exists k, sid <$> w_got example_stream = Some <$> take k [PInt 0; PInt 1].
Proof.
  rewrite <- example_begun.
  exact (proj1 (responses_in_step (WF := PlainWire) (fun _ => None) example_handler _ _ example_stream_is)).
Defined.

Lemma close_ends_witness : exists tr' w', forallb protocol tr' = true /\ (length tr' <= S (backlog example_stream))%nat /\
  run (WF := PlainWire) (fun _ => None) example_handler tr' example_stream = Some w' /\ w_phase w' <> CloseWait.
Proof.
  exact (close_ends (WF := PlainWire) (fun _ => None) example_handler _ _ example_stream_is example_closing).
Defined.

Lemma example_log : w_log example_stream =
  Some (open_request, [FromQueue (Some pushed_request); FromClient second_request]).
Proof. reflexivity. Qed.

Lemma turns_are_iterated_witness :
  iterate_inference_steps open_request [] [FromQueue (Some pushed_request); FromClient second_request] =
  (w_served example_stream, ending_of (w_server example_stream)).
Proof.
  exact (turns_are_iterated (WF := PlainWire) (fun _ => None) example_handler _ example_stream open_request
    [FromQueue (Some pushed_request); FromClient second_request] example_stream_is eq_refl example_log).
Defined.
