(* ===== verification/SwarmServer.v ===== *)
(** * SwarmServer: the servers of the swarm implement what clients expect of them

    The state machine that [Interfaces.InferenceServer] asks of a server, made of the code of the servers: the request
    that opens a session is checked ([Handler.open_inference]), memory is allocated for its caches (the steps of
    MemoryCache), and every request is parsed and run on the blocks ([BlockFunctions.inference_iteration]).  A request
    that raises ends the session.  The proofs discharge the laws of the interface. *)

From S2P Require Import Prelude PyString PyFloat PyDict DataStructures Utils Dht SequenceInfo SequenceManager.
From S2P Require Import Interfaces MemoryCache Backend TaskPool Packaging BlockFunctions Handler.

(** ** The blocks of a model

    The outputs of block [i] with an adapter for a whole sequence, from an empty cache of [kv] tensors. *)
#[refine] Definition ModuleBlocks {CM : CausalModule} (adapter : string) (kv : nat) : Blocks :=
  {| token := col; block i l := (mod_forward (i, Some adapter) (replicate kv []) l).1 |}.
Proof.
  - intros i l. apply mod_forward_length.
  - intros i l k. rewrite mod_chunk. pose proof (mod_forward_length (i, Some adapter) (replicate kv []) l) as Hl.
    destruct (mod_forward (i, Some adapter) (replicate kv []) l) as [ox kx]. destruct (mod_forward (i, Some adapter) kx k) as [oy ky]. cbn [fst] in *.
    by apply take_app_length'.
Defined.

(** A server: the configuration of its handlers, the memory cache as a session finds it when it is opened, and the
    memory that [torch.empty_like] gets. *)
Record host {CM : CausalModule} := mkHost {
  ho_handler : HandlerConfig;
  ho_memory : @MemoryCache (list slot);
  ho_garbage : nat -> list col;
}.

(** What a client puts into its requests beside the tensors: the identifiers that it has drawn, one for each step, and the
    structure of [pack_args_kwargs] for three positional tensors. *)
Record client_ids := mkIds {
  ci_session_id : string;
  ci_step_id : Z -> string;
  ci_args_structure : pyval;
}.

(** A session on the server's side: waiting for its first request, running, or ended by an exception. *)
Inductive session_state {CM : CausalModule} :=
  | Opening (max_length : Z)
  | Running (s : session_config) (args_structure : pyval) (c : @MemoryCache (list slot)) (prefix_length : Z) (steps : Z)
  | Ended.

Section swarm_server.
Context {TD : TorchDtypes} {CM : CausalModule} {TM : TrainableModule} {NS : Nested} {WF : WireFormat}.
Context (float_of_str : string -> option pyfloat).
Context (dht_prefix adapter : string) (batch hid compression : Z) (ci : client_ids).
Implicit Types (h : HandlerConfig) (c : @MemoryCache (list slot)) (x : list col) (s : session_config).

(** ** The client's requests

    [_ServerInferenceSession.step] sends hidden states, prompts and hypotheses; the first request says what the
    session needs. *)
Definition span_uid (a b : Z) : string := join_with CHAIN_DELIMITER ((fun i => make_uid dht_prefix i) <$> zrange a b).

Definition client_request (uid : string) x (prompts : list (list col)) (hypo_ids : list Z) (md : metadata_dict) : ExpertRequest :=
  mkExpertRequest uid ((fun t => serialize_torch_tensor t compression) <$>
    [THidden batch hid x; TPrompts prompts; TInts torch_int64 hypo_ids]) (Some (PDict md)).

Definition session_metadata (max_length : Z) : metadata_dict :=
  [(PStr "max_length", PInt max_length); (PStr "points", PFloat get_points); (PStr "active_adapter", PStr adapter)].

(** The metadata of step [n]: the first request adds those of the session. *)
Definition step_metadata (n : Z) (more : metadata_dict) : metadata_dict :=
  [(PStr "session_id", PStr (ci_session_id ci)); (PStr "step_id", PStr (ci_step_id ci n))] ++ more ++
  [(PStr "args_structure", ci_args_structure ci)].

(** ** Opening a session *)

(** An allocation that nothing else interferes with: granted at once or refused. *)
Definition allocate c (rq : request) : result (@MemoryCache (list slot) * list Handle) :=
  match run make_zeros (mkWorld c [(rq, Scheduled)]) (Req 0 <$> [Enqueue; CheckNow; Acquire; Decide; Settle; Commit]) with
  | Some (mkWorld c' [(_, Live handles)]) => Ok (c', handles)
  | _ => Err AllocationFailed
  end.

Definition open_session h c (r : ExpertRequest) : result (session_config * pyval * @MemoryCache (list slot)) :=
  o ← open_inference float_of_str h r;
  ds ← _allocate_cache (so_backends o) (so_batch_size o) (so_max_length o);
  rq ← allocate_cache c false (concat ds) (so_alloc_timeout o);
  '(c, handles) ← allocate c rq;
  mret (session_config_of h o (group_handles handles ds), so_args_structure o, c).

(** ** One request *)

Definition answer (garbage : nat -> list col) s (args_structure : pyval) c (prefix_length : Z) (r : ExpertRequest)
    (md : metadata_dict) : result (@MemoryCache (list slot) * Z * list col) :=
  st ← parse_step args_structure (r, md);
  '(c, p, (y, _, _)) ← inference_iteration garbage s (c, prefix_length) st;
  mret (c, p, y).

Definition serve_request (ho : host) (a b : Z) (st : session_state) x (prompts : list (list col)) (hypo_ids : list Z)
    : session_state * result (list col) :=
  let n := match st with Running _ _ _ _ n => n | _ => 0 end in
  let md := step_metadata n (match st with Opening m => session_metadata m | _ => [] end) in
  let r := client_request (span_uid a b) x prompts hypo_ids md in
  match (
    '(s, args, c, p) ← match st with
                       | Opening _ => '(s, args, c) ← open_session (ho_handler ho) (ho_memory ho) r; Ok (s, args, c, 0)
                       | Running s args c p _ => Ok (s, args, c, p)
                       | Ended => Err StopAsyncIteration
                       end;
    '(c, p, y) ← answer (ho_garbage ho) s args c p r md;
    mret (Running s args c p (n + 1), y)) with
  | Ok (st', y) => (st', Ok y)
  | Err e => (Ended, Err e)
  end.
End swarm_server.

(** ** What a server has allocated *)

Section allocation.
Context {TD : TorchDtypes} {CM : CausalModule}.
Implicit Types (c : @MemoryCache (list slot)).

Lemma allocate_ok c (rq : request) c' handles :
  allocate c rq = Ok (c', handles) ->
  handles = zrange (mc_handle_counter c) (mc_handle_counter c + zlen (rq_descriptors rq)) /\
  mc_pipe c' = mc_pipe c ++ [(handles, Some (rq_descriptors rq))] /\ mc_allocated_tensors c' = mc_allocated_tensors c.
Proof.
  unfold allocate. cbn [fmap list_fmap run step w_requests w_cache lookup list_lookup insert list_insert advance].
  destruct (no_wait rq && _); cbn; [done|].
  destruct (mc_lock_acquire_memory c); cbn; [done|].
  destruct (out_of_memory _ rq); cbn; [destruct (no_wait rq || _); done|].
  by intros [= <- <-].
Qed.

Lemma zeros_of_handles (ds : list TensorDescriptor) (handles : list Handle) (tensors : list (Handle * list slot)) h :
  length handles = length ds -> h ∈ handles ->
  exists d, d ∈ ds /\ dget (fold_left (fun t hd => dset t hd.1 (make_zeros hd.2)) (zip handles ds) tensors) h = Some (make_zeros d).
Proof.
  revert ds tensors. induction handles as [|h' handles IH]; intros [|d ds] tensors Hl Hh; try done; [by inversion Hh|].
  cbn [zip zip_with fold_left]. destruct (decide (h ∈ handles)) as [Hin|Hout].
  - destruct (IH ds (dset tensors h' (make_zeros d)) ltac:(by injection Hl) Hin) as (d' & Hd' & Hg). exists d'. split; [by right|done].
  - apply elem_of_cons in Hh as [->|?]; [|done]. exists d. split; [left|].
    assert (Hkeep : forall ds t, dget (fold_left (fun t hd => dset t hd.1 (make_zeros hd.2)) (zip handles ds) t) h' = dget t h').
    { clear - Hout. induction handles as [|y handles IH]; intros [|d ds] t; try done. cbn [zip zip_with fold_left].
      apply not_elem_of_cons in Hout as [Hne Hout]. rewrite IH by done. by rewrite dget_dset_ne. }
    by rewrite Hkeep, dget_dset_eq.
Qed.

(** Once the runtime has read the pipe, every handle of the session has its zeros. *)
Lemma allocated_tensors c (rq : request) c0 c' handles :
  recv_all make_zeros c = Ok c0 -> allocate c rq = Ok (c', handles) ->
  NoDup handles /\ length handles = length (rq_descriptors rq) /\
  exists c1, recv_all make_zeros c' = Ok c1 /\
    forall h, h ∈ handles -> exists d, d ∈ rq_descriptors rq /\ dget (mc_allocated_tensors c1) h = Some (make_zeros d).
Proof.
  intros Hr (Hh & Hp & Ht)%allocate_ok.
  assert (Hl : length handles = length (rq_descriptors rq)) by (rewrite Hh, zrange_length; unfold zlen; lia).
  split; [rewrite Hh; apply zrange_NoDup|]. split; [done|].
  unfold recv_all in Hr. destruct (foldR (recv_message make_zeros) (mc_allocated_tensors c) (mc_pipe c)) as [t0|] eqn:E; [|done].
  eexists. split.
  - unfold recv_all. rewrite Hp, Ht, foldR_app, E. cbn. unfold zlen. rewrite Hl, Z.eqb_refl. reflexivity.
  - intros h Hin. cbn. by apply zeros_of_handles.
Qed.
End allocation.

(** ** What a session holds *)

Section serving.
Context {TD : TorchDtypes} {CM : CausalModule} {TM : TrainableModule} {NS : Nested} {WF : WireFormat}.
Context (float_of_str : string -> option pyfloat).
Context (dht_prefix adapter : string) (batch hid compression : Z) (ci : client_ids) (kv : nat).
Implicit Types (h : HandlerConfig) (c : @MemoryCache (list slot)) (x : list col) (s : session_config).
Abbreviation BK := (ModuleBlocks adapter kv).

(** The blocks that a server holds under a uid are those of the model, with caches of [kv] tensors that are long enough. *)
Record block_ok (i : Z) (b : TransformerBackend) : Prop := {
  bk_index : tb_index b = i;
  bk_ok : backend_ok b;
  bk_devices : tb_devices b <> [];
  bk_caches : forall m ds, get_inference_cache_descriptors b batch m = Ok ds ->
    length ds = kv /\ Forall (fun d => m <= zlen (make_zeros d)) ds;
}.

Record host_ok (ho : host) : Prop := {
  hk_garbage : forall n, length (ho_garbage ho n) = n;
  hk_memory : exists c, recv_all make_zeros (ho_memory ho) = Ok c;
  hk_blocks : forall i b, dget (module_backends (ho_handler ho)) (make_uid dht_prefix i) = Some b -> block_ok i b;
}.

(** What the wire promises: tensors arrive as they were sent, and in their places; and steps have identifiers of their own. *)
Record wire_ok : Prop := {
  wo_batch : 0 < batch;
  wo_hid : 0 < hid;
  wo_prefix : valid_prefix dht_prefix = true;
  wo_tensor : forall t k, deserialize_torch_tensor (serialize_torch_tensor t k) = t;
  wo_size : forall x k, wire_size0 (serialize_torch_tensor (THidden batch hid x) k) = batch;
  wo_structure : forall t1 t2 t3, call_leaves [t1; t2; t3] [(PStr "args_structure", ci_args_structure ci)] =
    Ok [LTensor t1; LTensor t2; LTensor t3];
  wo_steps : forall i j, ci_step_id ci i = ci_step_id ci j -> i = j;
}.

(** A running session for [a, b) has processed [seen]. *)
Definition running (ho : host) (a b m : Z) s c (p : Z) (seen : list col) : Prop := exists l c1,
  session_of s l /\ sc_adapter s = Some adapter /\ sc_max_length s = m /\ sc_pool_max_batch_size s = hc_pool_max_batch_size (ho_handler ho) /\
  Forall (served_ok (sc_pool_backends s) (Z.to_nat m)) l /\
  NoDup (concat (sv_handles <$> l)) /\ recv_all make_zeros c = Ok c1 /\ session_at (Some adapter) c1 l seen /\ p = zlen seen /\
  (fun v => tb_index (sv_backend v)) <$> l = zrange a b /\ Forall (fun v => length (sv_tensors v) = kv) l.

Definition session_holds (ho : host) (a b m : Z) (st : session_state) (seen : list col) : Prop :=
  match st with
  | Opening m' => m' = m /\ seen = []
  | Running s args c p n => args = ci_args_structure ci /\ running ho a b m s c p seen
  | Ended => False
  end.

(** The outputs of a session's blocks are those of the model. *)
Lemma span_out_blocks (l : list served) x : Forall (fun v => length (sv_tensors v) = kv) l ->
  span_out (Some adapter) l x = fold_left (fun y i => block (Blocks := BK) i y) ((fun v => tb_index (sv_backend v)) <$> l) x.
Proof.
  intros Hl. revert x. induction Hl as [|v l Hv _ IH]; intros x; [done|].
  rewrite fmap_cons. cbn [span_out fold_left]. rewrite IH. f_equal. unfold block_out. cbn [block ModuleBlocks].
  assert (take 0 <$> sv_tensors v = replicate kv []) as ->; [|done].
  rewrite <- Hv. clear. induction (sv_tensors v) as [|t ts IH]; [done|]. rewrite fmap_cons. cbn [length replicate]. by rewrite IH, take_0.
Qed.

(** *** The request of the client *)

Lemma parse_request uid x ps hs md : wire_ok ->
  parse_step (ci_args_structure ci) (client_request batch hid compression uid x ps hs md, md) =
    (p ← as_prompts (LTensor (TPrompts ps)); Ok (mkStepRequest batch hid x p torch_int64 hs md)).
Proof.
  intros Hw. unfold parse_step, client_request. cbn [req_tensors fmap list_fmap]. rewrite !(wo_tensor Hw), (wo_structure Hw). reflexivity.
Qed.

Lemma parse_client_request uid x md : wire_ok ->
  parse_step (ci_args_structure ci) (client_request batch hid compression uid x [] [] md, md) =
    Ok (mkStepRequest batch hid x None torch_int64 [] md).
Proof. intros Hw. by rewrite parse_request. Qed.

(** What one iteration without prompts requires when it returns. *)
Lemma iteration_needs garbage s l c p r out :
  (forall n, length (garbage n) = n) -> session_of s l -> sr_prompts r = None -> sr_hidden r <> [] -> 0 < sr_batch r -> 0 < sr_hid r ->
  inference_iteration (meta := metadata_dict) garbage s (c, p) r = Ok out ->
  p + zlen (sr_hidden r) <= sc_max_length s /\ sr_batch r * zlen (sr_hidden r) <= sc_pool_max_batch_size s.
Proof.
  intros Hg (Hu & Hb & Hh & Hl) Hp Hne Hbt Hhid H. unfold inference_iteration, raise_if, assert_, mbind, result_bind in H.
  destruct (zlen (sc_backends s) =? 0) eqn:E0; [done|]. destruct (bool_decide (sr_hypo_dtype r = torch_int64)); [|done].
  assert (Hpr : parse_prompts (length (sc_backends s)) r = replicate (length (sc_backends s)) None).
  { unfold parse_prompts, has_prompts. by rewrite Hp. }
  rewrite Hpr in H. destruct (negb _); [done|]. destruct (Z.ltb_spec (sc_max_length s) (p + zlen (sr_hidden r))); [done|].
  split; [lia|]. assert (Hpos : 0 < zlen (sr_hidden r)) by (destruct (sr_hidden r); [done|unfold zlen; simpl; lia]).
  rewrite (proj2 (Z.ltb_lt 0 _)) in H by (repeat apply Z.mul_pos_pos; lia).
  assert (Hbl : sc_backends s <> []) by (rewrite Hb; by destruct l).
  rewrite (compute_blocks_merged garbage Hg (sc_pool_backends s)) in H
    by (rewrite ?length_replicate, ?Hu, ?Hh, ?Hb, ?length_fmap; done || (rewrite <- Hb; done)).
  unfold submit_inference, submit in H. simpl get_task_size in H. cbn [fst snd] in H.
  destruct (Z.ltb_spec (sc_pool_max_batch_size s) (sr_batch r * zlen (sr_hidden r))); [done|lia].
Qed.

(** A request without tokens changes nothing. *)
Lemma empty_iteration garbage s c p r out :
  sr_hidden r = [] -> inference_iteration (meta := metadata_dict) garbage s (c, p) r = Ok out -> out.1 = (c, p) /\ out.2.1.1 = [].
Proof.
  intros Hx H. unfold inference_iteration in H. rewrite Hx in H. inv_ok.
  assert (Hz : (0 <? sr_batch r * zlen (@nil col) * sr_hid r) = false) by (change (zlen (@nil col)) with 0; apply Z.ltb_ge; lia).
  rewrite Hz in *. inv_ok. change (zlen (@nil col)) with 0. by rewrite Z.add_0_r.
Qed.

(** *** Requests of a running session *)

Lemma running_answers ho a b m s c p seen x md c' p' y :
  wire_ok -> host_ok ho -> running ho a b m s c p seen -> answer (ho_garbage ho) s (ci_args_structure ci) c p
    (client_request batch hid compression (span_uid dht_prefix a b) x [] [] md) md = Ok (c', p', y) ->
  running ho a b m s c' p' (seen ++ x) /\ y = drop (length seen) (run_blocks (BK := BK) a b (seen ++ x)).
Proof.
  intros Hw Hho (l & c1 & Hs & Had & Hm & Hpool & Hok & Hnd & Hrecv & Hat & -> & Hix & Hkv) H. unfold answer in H.
  rewrite parse_client_request in H by done. unfold mbind at 1, result_bind at 1 in H. cbv beta iota in H.
  set (r := mkStepRequest batch hid x None torch_int64 [] md) in *.
  destruct (inference_iteration (ho_garbage ho) s (c, zlen seen) r) as [[[c2 p2] [[z pushed] md2]]|] eqn:Hit; [|done].
  injection H as -> -> ->.
  assert (Hrun : forall t, run_blocks (BK := BK) a b t = span_out (Some adapter) l t) by (intros; unfold run_blocks; by rewrite span_out_blocks, Hix).
  rewrite Hrun. destruct (decide (x = [])) as [->|Hx].
  - apply empty_iteration in Hit as [[= -> ->] Hz]; [|done]. cbn in Hz. subst y. rewrite app_nil_r. split; [by exists l, c1|].
    symmetry. apply drop_ge. pose proof (span_out_length (Some adapter) l seen). lia.
  - pose proof (wo_batch Hw) as Hb. pose proof (wo_hid Hw) as Hd.
    destruct (iteration_needs _ _ l _ _ r _ (hk_garbage _ Hho) Hs eq_refl Hx Hb Hd Hit) as [Hlen Hsize]. change (sr_hidden r) with x in Hlen, Hsize. change (sr_batch r) with batch in Hsize.
    destruct (iteration_correct (ho_garbage ho) s l c c1 seen r (hk_garbage _ Hho) Hs) as (c3 & c4 & z & Hit' & Hrecv' & Hat' & Hspan); rewrite ?Had in *; try done.
    { eapply Forall_impl; [exact Hok|]. intros v (Hf & Hbk & Hne & Hdv & Hl). repeat split; try done; try apply Hbk.
      eapply Forall_impl; [exact Hl|]. cbn. unfold zlen in *. intros t Ht. lia. }
    rewrite Hit in Hit'. change (sr_hidden r) with x in *. injection Hit' as -> -> -> -> ->.
    split; [by exists l, c4|]. rewrite Hspan. symmetry. apply drop_app_length'. by rewrite span_out_length.
Qed.

(** *** The first request *)

Lemma adapter_sent h m a : _get_active_adapter h (step_metadata ci 0 (session_metadata adapter m)) = Ok a -> a = adapter.
Proof.
  unfold _get_active_adapter. change (md_get (step_metadata ci 0 (session_metadata adapter m)) "active_adapter" (PStr "")) with (PStr adapter).
  cbv iota beta. case_if; [done|]. by intros [= ->].
Qed.

Lemma opening_facts h uid x m o :
  wire_ok -> open_inference float_of_str h (client_request batch hid compression uid x [] [] (step_metadata ci 0 (session_metadata adapter m))) = Ok o ->
  so_uids o = split_on CHAIN_DELIMITER uid /\ requested_backends h (so_uids o) = Ok (so_backends o) /\
  so_max_length o = m /\ so_batch_size o = batch /\ so_args_structure o = ci_args_structure ci /\ so_adapter o = adapter.
Proof.
  intros Hw H. unfold open_inference in H. cbn [req_uid req_tensors client_request fmap list_fmap] in H. inv_ok.
  unfold _check_uids in *. inv_ok. cbn. rewrite (wo_size Hw).
  match goal with Hr : request_metadata _ = Ok _ |- _ => injection Hr as <- end.
  match goal with Hg : as_python_int _ = Some _ |- _ => injection Hg as <- end.
  match goal with Ha : _get_active_adapter _ _ = Ok ?a |- _ => assert (a = adapter) as -> by by apply adapter_sent in Ha end.
  by repeat split.
Qed.

Lemma span_uids a b : valid_prefix dht_prefix = true -> a < b ->
  split_on CHAIN_DELIMITER (span_uid dht_prefix a b) = (fun i => make_uid dht_prefix i) <$> zrange a b.
Proof.
  intros Hp Hab. apply split_join.
  - by rewrite zrange_cons by lia.
  - apply Forall_fmap, Forall_forall. intros i _. by apply make_uid_no_chain.
Qed.

(** The blocks that a host gives for the uids of a span. *)
Lemma host_blocks ho a b bs : host_ok ho ->
  requested_backends (ho_handler ho) ((fun i => make_uid dht_prefix i) <$> zrange a b) = Ok bs ->
  Forall2 block_ok (zrange a b) bs.
Proof.
  intros Hho H. unfold requested_backends in H. apply mapR_Forall2 in H. rewrite Forall2_fmap_l in H.
  eapply Forall2_impl; [exact H|]. intros i be Hbe. cbn in Hbe.
  destruct (dget (module_backends (ho_handler ho)) (make_uid dht_prefix i)) as [be'|] eqn:E; [|done].
  injection Hbe as ->. by apply (hk_blocks _ Hho).
Qed.

Lemma group_lengths handles (ds : list (list TensorDescriptor)) n :
  Forall (fun d => length d = n) ds -> length handles = length (concat ds) ->
  Forall (fun g => length g = n) (group_handles handles ds).
Proof.
  intros Hd. revert handles. induction Hd as [|d ds Hd _ IH]; intros handles Hl; cbn [group_handles]; [constructor|].
  cbn [concat] in Hl. rewrite length_app in Hl. constructor; [rewrite length_take; lia|]. apply IH. rewrite length_drop. lia.
Qed.

(** The descriptors of the blocks of a span. *)
Lemma block_descriptors is_ bs m dss : Forall2 block_ok is_ bs -> _allocate_cache bs batch m = Ok dss ->
  Forall (fun ds => length ds = kv) dss /\ Forall (fun d => m <= zlen (make_zeros d)) (concat dss).
Proof.
  intros Hb H. apply mapR_Forall2 in H. revert dss H. induction Hb as [|i b is_ bs Hi _ IH]; intros dss H.
  - inversion H; subst. by split.
  - inversion H as [|? ds ? dss' Hd Hds]; subst. destruct (IH _ Hds) as [IH1 IH2].
    destruct (bk_caches _ _ Hi _ _ Hd) as [H1 H2]. split; [by constructor|]. cbn. by apply Forall_app.
Qed.

Lemma opened_runs ho a b m x s args c :
  wire_ok -> host_ok ho -> a < b ->
  open_session float_of_str (ho_handler ho) (ho_memory ho)
    (client_request batch hid compression (span_uid dht_prefix a b) x [] [] (step_metadata ci 0 (session_metadata adapter m))) = Ok (s, args, c) ->
  args = ci_args_structure ci /\ running ho a b m s c 0 [].
Proof.
  intros Hw Hho Hab H. unfold open_session in H. set (r := client_request _ _ _ _ _ _ _ _) in H. inv_ok.
  match goal with Ho : open_inference _ _ r = Ok ?o, Hd : _allocate_cache _ _ _ = Ok ?l, Hc : allocate_cache _ _ _ _ = Ok ?q,
    Ha : allocate _ _ = Ok ?p |- _ => rename o into o', l into dss, q into rq, Ho into Hopen, Hd into Hds, Hc into Hrq, Ha into Hal;
    destruct p as [c0 handles] end.
  injection H as <- <- <-. destruct (opening_facts _ _ _ _ _ Hw Hopen) as (Hu & Hb & Hm & Hbt & Ha & Had). split; [done|].
  rewrite span_uids in Hu by (apply Hw || done). rewrite Hu in Hb. pose proof (host_blocks _ _ _ _ Hho Hb) as Hbs.
  assert (Hrd : rq_descriptors rq = concat dss) by (unfold allocate_cache in Hrq; inv_ok; done).
  destruct (hk_memory _ Hho) as [cm Hcm]. destruct (allocated_tensors _ _ _ _ _ Hcm Hal) as (Hnd & Hlen & c1 & Hrecv & Hzero).
  rewrite Hrd in Hlen, Hzero. pose proof Hds as Hds'. rewrite Hbt, Hm in Hds'. destruct (block_descriptors _ _ _ _ Hbs Hds') as [Hkv Hlong].
  destruct (opened_served float_of_str (ho_handler ho) r o' dss handles c1 Hopen Hds) as (l & H1 & H2 & Hs & H3 & H4 & H5); try done.
  { clear - Hbs. induction Hbs as [|i be is_ bs Hi _ IH]; constructor; [apply Hi|exact IH]. }
  { clear - Hbs. induction Hbs as [|i be is_ bs Hi _ IH]; constructor; [apply Hi|exact IH]. }
  { intros hd (d & Hd & Hg)%Hzero. exists (make_zeros d). split; [done|]. rewrite Hm. rewrite Forall_forall in Hlong. by apply Hlong. }
  exists l, c1. rewrite Hm in H3. split; [done|]. split; [by cbn; rewrite Had|]. repeat (split; [done|]).
  split; [by apply session_at_start|]. split; [done|]. split.
  - rewrite <- H1 in Hbs. clear - Hbs. rewrite Forall2_fmap_r in Hbs. induction Hbs as [|i v is_ l Hi _ IH]; [done|].
    rewrite fmap_cons, IH. f_equal. apply Hi.
  - pose proof (group_lengths handles dss kv Hkv Hlen) as Hgl. rewrite <- H2 in Hgl. rewrite Forall_fmap in Hgl.
    eapply Forall_impl; [exact (proj2 (Forall_and _ _) (conj Hgl H5))|]. intros v [Hv Hlk]. cbn in Hv. rewrite <- Hv.
    unfold lookup_handles in Hlk. apply mapR_Forall2, Forall2_length in Hlk. done.
Qed.

(** *** The laws of the interface *)

Lemma serve_law ho a b m st seen x st' y : wire_ok -> host_ok ho -> a < b -> session_holds ho a b m st seen ->
  serve_request float_of_str dht_prefix adapter batch hid compression ci ho a b st x [] [] = (st', Ok y) ->
  session_holds ho a b m st' (seen ++ x) /\ y = drop (length seen) (run_blocks (BK := BK) a b (seen ++ x)).
Proof.
  intros Hw Hho Hab Hst H. unfold serve_request in H. destruct st as [m'|s args c p n|]; [| |done].
  - destruct Hst as [-> ->]. destruct (open_session _ _ _ _) as [[[s args] c]|e] eqn:Eo; [|done].
    destruct (opened_runs _ _ _ _ _ _ _ _ Hw Hho Hab Eo) as [-> Hrun]. cbn [mbind result_bind] in H.
    destruct (answer _ _ _ _ _ _ _) as [[[c' p'] z]|e] eqn:Ea; [|done]. injection H as <- <-.
    destruct (running_answers _ _ _ _ _ _ _ _ _ _ _ _ _ Hw Hho Hrun Ea) as [Hr Hz]. by repeat split.
  - destruct Hst as [-> Hrun]. cbn [mbind result_bind] in H.
    destruct (answer _ _ _ _ _ _ _) as [[[c' p'] z]|e] eqn:Ea; [|done]. injection H as <- <-.
    destruct (running_answers _ _ _ _ _ _ _ _ _ _ _ _ _ Hw Hho Hrun Ea) as [Hr Hz]. by repeat split.
Qed.
(** *** What a server does not refuse *)

(** A server with the blocks, the memory and the limits for a session of [m] tokens. *)
Record host_serves (ho : host) (a b m : Z) : Prop := {
  hs_blocks : forall i, a <= i < b -> dmem (module_backends (ho_handler ho)) (make_uid dht_prefix i) = true;
  hs_limit : 0 <= m <= inference_max_length (ho_handler ho);
  hs_adapter : adapter = EmptyString \/ adapter ∈ hc_adapters (ho_handler ho);
  hs_tasks : batch * m <= hc_pool_max_batch_size (ho_handler ho);
  hs_memory : forall bs, requested_backends (ho_handler ho) ((fun i => make_uid dht_prefix i) <$> zrange a b) = Ok bs ->
    exists dss rq out, _allocate_cache bs batch m = Ok dss /\ allocate_cache (ho_memory ho) false (concat dss) f_zero = Ok rq /\
      allocate (ho_memory ho) rq = Ok out;
}.

Lemma requested_all h uids : Forall (fun u => dmem (module_backends h) u = true) uids -> exists bs, requested_backends h uids = Ok bs.
Proof.
  unfold requested_backends. induction 1 as [|u uids Hu _ [bs IH]]; [by exists []|]. cbn [mapR]. unfold dmem in Hu.
  destruct (dget (module_backends h) u) as [be|]; [|done]. cbn. rewrite IH. by eexists.
Qed.

Lemma adapter_ok h m : adapter = EmptyString \/ adapter ∈ hc_adapters h -> _get_active_adapter h (step_metadata ci 0 (session_metadata adapter m)) = Ok adapter.
Proof.
  intros Ha. unfold _get_active_adapter. change (md_get (step_metadata ci 0 (session_metadata adapter m)) "active_adapter" (PStr "")) with (PStr adapter).
  cbv iota beta. destruct Ha as [->|Ha]; [done|]. rewrite bool_decide_true by done. by rewrite andb_false_r.
Qed.

Lemma host_opens ho a b m x : wire_ok -> a < b -> host_serves ho a b m ->
  exists s c, open_session float_of_str (ho_handler ho) (ho_memory ho)
    (client_request batch hid compression (span_uid dht_prefix a b) x [] [] (step_metadata ci 0 (session_metadata adapter m))) = Ok (s, ci_args_structure ci, c).
Proof.
  intros Hw Hab Hh. set (uids := (fun i => make_uid dht_prefix i) <$> zrange a b).
  assert (Hall : Forall (fun u => dmem (module_backends (ho_handler ho)) u = true) uids).
  { apply Forall_fmap, Forall_forall. intros i Hi%elem_of_zrange. by apply (hs_blocks _ _ _ _ Hh). }
  destruct (requested_all (ho_handler ho) uids Hall) as [bs Hbs].
  destruct (hs_memory _ _ _ _ Hh bs Hbs) as (dss & rq & [c handles] & Hd & Hr & Hal).
  assert (Hck : _check_uids (ho_handler ho) (span_uid dht_prefix a b) = Ok uids).
  { apply check_uids_joined; [unfold uids; by rewrite zrange_cons by lia|].
    apply Forall_fmap, Forall_forall. intros i Hi%elem_of_zrange. split; [apply make_uid_no_chain, Hw|by apply (hs_blocks _ _ _ _ Hh)]. }
  assert (Hz : (zlen uids =? 0) = false) by (unfold uids; rewrite zrange_cons by lia; apply Z.eqb_neq; rewrite fmap_cons, zlen_cons; pose proof (zlen_nonneg ((fun i => make_uid dht_prefix i) <$> zrange (a + 1) b)); lia).
  destruct (hs_limit _ _ _ _ Hh) as [Hm0 Hm1].
  eexists _, c. unfold open_session, open_inference. cbn [req_uid client_request req_tensors fmap list_fmap].
  rewrite Hck. unfold mbind, result_bind, request_metadata. cbn [req_metadata client_request]. rewrite Hbs. cbv beta iota.
  change (py_float float_of_str (md_get (step_metadata ci 0 (session_metadata adapter m)) "alloc_timeout" (PFloat f_zero))) with (Ok f_zero).
  unfold raise_if. rewrite Hz. change (as_python_int (md_get (step_metadata ci 0 (session_metadata adapter m)) "max_length" PNone)) with (Some m).
  cbn [get_or]. cbv beta iota. change (is_number (md_get (step_metadata ci 0 (session_metadata adapter m)) "points" (PInt 0))) with true. cbn [assert_].
  rewrite (proj2 (Z.leb_le 0 m)), (proj2 (Z.leb_le m _)) by done. cbn [andb negb].
  rewrite adapter_ok by apply Hh. cbn [mret result_ret so_backends so_batch_size so_max_length so_alloc_timeout].
  rewrite (wo_size Hw), Hd, Hr, Hal. reflexivity.
Qed.

Lemma empty_iteration_ok garbage s l c p r :
  session_of s l -> sr_prompts r = None -> sr_hypo_dtype r = torch_int64 -> sr_hidden r = [] -> p <= sc_max_length s ->
  inference_iteration (meta := metadata_dict) garbage s (c, p) r = Ok (c, p, ([], true, sr_metadata r)).
Proof.
  intros (_ & Hb & _ & Hl) Hp Hd Hx Hm. unfold inference_iteration.
  assert (E0 : (zlen (sc_backends s) =? 0) = false) by (rewrite Hb; apply not_true_iff_false; intros E%zlen_zero; by destruct l).
  assert (Hpr : has_prompts r = false) by (unfold has_prompts; by rewrite Hp).
  rewrite E0, Hd, bool_decide_true by done. unfold parse_prompts. rewrite Hpr, Hx.
  assert ((zlen (sc_backends s) =? zlen (replicate (A := option (list col)) (length (sc_backends s)) None)) = true) as ->.
  { unfold zlen. rewrite length_replicate. apply Z.eqb_refl. }
  change (zlen (@nil col)) with 0. rewrite Z.add_0_r, (proj2 (Z.ltb_ge (sc_max_length s) p)) by done.
  assert (Hz : (0 <? sr_batch r * 0 * sr_hid r) = false) by (apply Z.ltb_ge; lia). rewrite Hz. reflexivity.
Qed.

Lemma running_returns ho a b m s c p seen x md :
  wire_ok -> host_ok ho -> host_serves ho a b m -> running ho a b m s c p seen -> zlen (seen ++ x) <= m ->
  exists c' p' y, answer (ho_garbage ho) s (ci_args_structure ci) c p
    (client_request batch hid compression (span_uid dht_prefix a b) x [] [] md) md = Ok (c', p', y).
Proof.
  intros Hw Hho Hsv (l & c1 & Hs & Had & Hm & Hpool & Hok & Hnd & Hrecv & Hat & -> & _ & _) Hlen. unfold answer.
  rewrite parse_client_request by done. unfold mbind at 1, result_bind at 1. cbv beta iota.
  set (r := mkStepRequest batch hid x None torch_int64 [] md). rewrite zlen_app in Hlen. pose proof (zlen_nonneg x).
  destruct (decide (x = [])) as [->|Hx].
  - rewrite (empty_iteration_ok _ s l c _ r Hs) by (done || (change (zlen (@nil col)) with 0 in *; lia)). by do 3 eexists.
  - pose proof (wo_batch Hw) as Hb. pose proof (wo_hid Hw) as Hd. pose proof (hs_tasks _ _ _ _ Hsv) as Ht.
    destruct (iteration_correct (ho_garbage ho) s l c c1 seen r (hk_garbage _ Hho) Hs) as (c3 & c4 & z & Hit & _); rewrite ?Had; try done.
    { repeat (split; [done|]). change (sr_batch r * zlen (sr_hidden r)) with (batch * zlen x). pose proof (zlen_nonneg seen). nia. }
    { eapply Forall_impl; [exact Hok|]. intros v (Hf & Hbk & Hne & Hdv & Hl). repeat split; try done; try apply Hbk.
      eapply Forall_impl; [exact Hl|]. change (sr_hidden r) with x. cbn. unfold zlen in *. intros t Ht'. lia. }
    { change (sr_hidden r) with x. lia. }
    rewrite Hit. by do 3 eexists.
Qed.

Lemma serve_returns ho a b m st seen x : wire_ok -> host_ok ho -> host_serves ho a b m -> a < b ->
  session_holds ho a b m st seen -> zlen (seen ++ x) <= m ->
  exists st' y, serve_request float_of_str dht_prefix adapter batch hid compression ci ho a b st x [] [] = (st', Ok y).
Proof.
  intros Hw Hho Hsv Hab Hst Hlen. unfold serve_request. destruct st as [m'|s args c p n|]; [| |done].
  - destruct Hst as [-> ->]. destruct (host_opens ho a b m x Hw Hab Hsv) as (s & c & Ho). rewrite Ho.
    destruct (opened_runs _ _ _ _ _ _ _ _ Hw Hho Hab Ho) as [_ Hrun].
    destruct (running_returns _ _ _ _ _ _ _ _ x (step_metadata ci 0 (session_metadata adapter m)) Hw Hho Hsv Hrun Hlen) as (c' & p' & y & Ha).
    cbn [mbind result_bind]. rewrite Ha. by do 2 eexists.
  - destruct Hst as [-> Hrun]. destruct (running_returns _ _ _ _ _ _ _ _ x (step_metadata ci n []) Hw Hho Hsv Hrun Hlen) as (c' & p' & y & Ha).
    cbn [mbind result_bind]. rewrite Ha. by do 2 eexists.
Qed.
End serving.

(** The server's side of the sessions of a swarm in which [hosts a b] serves the span [a, b). *)
#[refine] Definition SwarmServer {TD : TorchDtypes} {CM : CausalModule} {TM : TrainableModule} {NS : Nested} {WF : WireFormat}
    (float_of_str : string -> option pyfloat) (dht_prefix adapter : string) (batch hid compression : Z) (ci : client_ids) (kv : nat)
    (hosts : Z -> Z -> host) (Hwire : wire_ok dht_prefix batch hid ci) (Hhosts : forall a b, host_ok dht_prefix batch kv (hosts a b))
    : @InferenceServer (ModuleBlocks adapter kv) :=
  {| prompt := list col;
     server_state := session_state;
     serve_open a b m := Opening m;
     serve a b st (x : list (@token (ModuleBlocks adapter kv))) ps hs := serve_request float_of_str dht_prefix adapter batch hid compression ci (hosts a b) a b st x ps hs;
     holds a b := session_holds adapter ci kv (hosts a b) a b |}.
Proof.
  - done.
  - intros a b m st seen x st' y Hab Hst H. by eapply serve_law.
Defined.

Lemma swarm_answers {TD : TorchDtypes} {CM : CausalModule} {TM : TrainableModule} {NS : Nested} {WF : WireFormat}
    float_of_str dht_prefix adapter batch hid compression ci kv hosts Hwire Hhosts N m :
  (forall a b, 0 <= a -> a < b -> b <= N -> host_serves dht_prefix adapter batch (hosts a b) a b m) ->
  servers_answer (BK := ModuleBlocks adapter kv) (IS := SwarmServer float_of_str dht_prefix adapter batch hid compression ci kv hosts Hwire Hhosts) N m.
Proof.
  intros Hs a b st seen x Ha Hab Hb Hst Hlen.
  exact (serve_returns _ _ _ _ _ _ _ kv (hosts a b) a b m st seen x Hwire (Hhosts a b) (Hs a b Ha Hab Hb) Hab Hst Hlen).
Qed.

(** ** The state machine and the handler's sessions

    Serving requests one by one is what a session of the handler does with the requests of a client, prompts, beam
    hypotheses and exceptions included. *)

Section sessions.
Context {TD : TorchDtypes} {CM : CausalModule} {TM : TrainableModule} {NS : Nested} {WF : WireFormat}.
Context (float_of_str : string -> option pyfloat).
Context (dht_prefix adapter : string) (batch hid compression : Z) (ci : client_ids).

(** Hidden states, prompts and hypotheses of a request. *)
Definition step_input : Type := list col * list (list col) * list Z.

(** The requests of a client, up to the first that is refused. *)
Fixpoint serve_all (ho : host) (a b : Z) (st : session_state) (l : list step_input) : list (list col) * option exn :=
  match l with
  | [] => ([], None)
  | (x, ps, hs) :: l' =>
      match serve_request float_of_str dht_prefix adapter batch hid compression ci ho a b st x ps hs with
      | (st', Ok y) => let '(ys, e) := serve_all ho a b st' l' in (y :: ys, e)
      | (_, Err e) => ([], Some e)
      end
  end.

Definition request_of (a b : Z) (md : metadata_dict) (q : step_input) : ExpertRequest :=
  client_request batch hid compression (span_uid dht_prefix a b) q.1.1 q.1.2 q.2 md.

(** The requests of the steps from [n] on, with their metadata *)
Fixpoint step_requests (a b n : Z) (l : list step_input) : list (ExpertRequest * metadata_dict) :=
  match l with
  | [] => []
  | q :: l' => (request_of a b (step_metadata ci n []) q, step_metadata ci n []) :: step_requests a b (n + 1) l'
  end.

Lemma parsed_shape uid x ps hs md st :
  wire_ok dht_prefix batch hid ci ->
  parse_step (ci_args_structure ci) (client_request batch hid compression uid x ps hs md, md) = Ok st ->
  sr_batch st = batch /\ sr_hid st = hid.
Proof.
  intros Hw H. erewrite parse_request in H by done. destruct (as_prompts _); [|done]. by injection H as <-.
Qed.

(** Requests of a running session: parsing and running them one by one. *)
Lemma running_all ho a b s c p n (l : list step_input) parsed pe ys st ie :
  wire_ok dht_prefix batch hid ci ->
  parse_steps (ci_args_structure ci) (step_requests a b n l) = (parsed, pe) ->
  inference_loop (ho_garbage ho) s (c, p) parsed = (ys, st, ie) ->
  serve_all ho a b (Running s (ci_args_structure ci) c p n) l =
    ((fun y => y.1.1) <$> ys, match ie with Some e => Some e | None => pe end) /\
  Forall (fun q => sr_batch q = batch /\ sr_hid q = hid) parsed.
Proof.
  intros Hw. revert c p n parsed pe ys st ie. induction l as [|[[x ps] hs] l IH]; intros c p n parsed pe ys st ie Hp Hl.
  { injection Hp as <- <-. cbn in Hl. injection Hl as <- <- <-. by split. }
  cbn [step_requests parse_steps] in Hp. cbn [serve_all]. unfold serve_request. cbn [mbind result_bind].
  unfold answer.
  match type of Hp with context [parse_step _ ?q] => match goal with |- context [parse_step (ci_args_structure ci) ?q'] =>
    change (parse_step (ci_args_structure ci) q') with (parse_step (ci_args_structure ci) q);
    destruct (parse_step (ci_args_structure ci) q) as [r|e] eqn:Er end end.
  2:{ injection Hp as <- <-. cbn in Hl. injection Hl as <- <- <-. by split. }
  pose proof (parsed_shape _ _ _ _ _ _ Hw Er) as Hshape.
  destruct (parse_steps (ci_args_structure ci) (step_requests a b (n + 1) l)) as [parsed' pe'] eqn:Eps. injection Hp as <- <-.
  cbn [inference_loop] in Hl.
  cbn [mbind result_bind]. destruct (inference_iteration (ho_garbage ho) s (c, p) r) as [[[c' p'] [[y pushed] md]]|e] eqn:Ei.
  2:{ injection Hl as <- <- <-. split; [done|]. constructor; [done|].
      destruct (inference_loop (ho_garbage ho) s (c, p) parsed') as [[ys st] ie] eqn:El.
      by destruct (IH _ _ _ _ _ _ _ _ Eps El). }
  cbn [mbind result_bind mret result_ret]. destruct (inference_loop (ho_garbage ho) s (c', p') parsed') as [[ys' st'] ie'] eqn:El.
  injection Hl as <- <- <-. destruct (IH _ _ _ _ _ _ _ _ Eps El) as [-> Hall]. split; [done|by constructor].
Qed.

(** A step is new when the steps before it are those that were processed. *)
Lemma step_id_of n more : step_id (step_metadata ci n more) = Some (PStr (ci_step_id ci n)).
Proof. reflexivity. Qed.

Lemma iterate_step a b n more q processed (arrivals : list arrival) : wire_ok dht_prefix batch hid ci ->
  (forall v, v ∈ processed -> exists i, i < n /\ v = PStr (ci_step_id ci i)) ->
  iterate_inference_steps (request_of a b (step_metadata ci n more) q) processed arrivals =
  (let '(steps, e) := match arrivals with
     | [] => ([], Waits)
     | FromClient r :: rest | FromQueue (Some r) :: rest => iterate_inference_steps r (PStr (ci_step_id ci n) :: processed) rest
     | ClientClosed :: _ => ([], RaisedErr RuntimeError)
     | FromQueue None :: _ => ([], RaisedErr AttributeError)
     | StepTimeout :: _ => ([], Returned)
     end in ((request_of a b (step_metadata ci n more) q, step_metadata ci n more) :: steps, e)).
Proof.
  intros Hw Hp.
  assert (Hnew : not_processed processed (Some (PStr (ci_step_id ci n))) = true).
  { apply bool_decide_eq_true. intros (i & Hi & [= He])%Hp. apply (wo_steps _ _ _ _ Hw) in He. lia. }
  set (md := step_metadata ci n more). set (r := request_of a b md q).
  assert (Ht : exists t ts, req_tensors r = t :: ts) by (by eexists _, _). destruct Ht as (t & ts & Ht).
  assert (Hmd : request_metadata r = Ok md) by done. assert (Hid : step_id md = Some (PStr (ci_step_id ci n))) by done.
  clearbody md r. destruct arrivals as [|y arrivals]; cbn [iterate_inference_steps]; rewrite Ht, Hmd, Hid, Hnew; [done|].
  by destruct y as [r'| |[r'|]|].
Qed.

Lemma client_steps_from a b n more q (l : list step_input) processed : wire_ok dht_prefix batch hid ci ->
  (forall v, v ∈ processed -> exists i, i < n /\ v = PStr (ci_step_id ci i)) ->
  iterate_inference_steps (request_of a b (step_metadata ci n more) q) processed (FromClient ∘ fst <$> step_requests a b (n + 1) l) =
    ((request_of a b (step_metadata ci n more) q, step_metadata ci n more) :: step_requests a b (n + 1) l, Waits).
Proof.
  intros Hw. revert n more q processed. induction l as [|q' l IH]; intros n more q processed Hp; rewrite iterate_step by done; [done|].
  cbn [step_requests]. rewrite fmap_cons. unfold compose at 1. cbn [fst]. rewrite IH; [done|].
  intros v [->|Hv]%elem_of_cons; [exists n; split; [lia|done]|]. destruct (Hp v Hv) as (i & ? & ->). exists i. split; [lia|done].
Qed.

Lemma client_steps a b m q (l : list step_input) : wire_ok dht_prefix batch hid ci ->
  let md := step_metadata ci 0 (session_metadata adapter m) in
  iterate_inference_steps (request_of a b md q) [] (FromClient ∘ fst <$> step_requests a b 1 l) =
    ((request_of a b md q, md) :: step_requests a b 1 l, Waits).
Proof. intros Hw. apply (client_steps_from a b 0); [done|]. intros v Hv. inversion Hv. Qed.

Lemma allocate_cache_length bs n m ds : _allocate_cache bs n m = Ok ds -> length ds = length bs.
Proof. intros H. by apply mapR_Forall2, Forall2_length in H. Qed.

Lemma group_handles_length (handles : list Handle) (ds : list (list TensorDescriptor)) : length (group_handles handles ds) = length ds.
Proof. revert handles. induction ds as [|d ds IH]; intros handles; [done|]. cbn. by rewrite IH. Qed.

(** The answers are serialized with the batch size and the width of the requests. *)
Lemma serialized_outputs k (ys : list (list col * bool * metadata_dict)) (parsed : list (step_request metadata_dict)) :
  (length ys <= length parsed)%nat -> Forall (fun q => sr_batch q = batch /\ sr_hid q = hid) parsed ->
  zip_with (fun (y : list col * bool * metadata_dict) (p : step_request metadata_dict) =>
    serialize_torch_tensor (THidden (sr_batch p) (sr_hid p) y.1.1) k) ys parsed =
  (fun y => serialize_torch_tensor (THidden batch hid y) k) <$> ((fun y => y.1.1) <$> ys).
Proof.
  intros Hl Hp. revert parsed Hl Hp. induction ys as [|y ys IH]; intros parsed Hl Hp; [by destruct parsed|].
  destruct parsed as [|p parsed]; [cbn in Hl; lia|]. apply Forall_cons in Hp as [[Hb Hh] Hp]. rewrite !fmap_cons. cbn [zip_with].
  rewrite Hb, Hh, (IH parsed) by (done || cbn in Hl; lia). done.
Qed.

Lemma inference_loop_length garbage s st (rs : list (step_request metadata_dict)) : (length (inference_loop garbage s st rs).1.1 <= length rs)%nat.
Proof.
  revert st. induction rs as [|r rs IH]; intros st; [cbn; lia|]. cbn [inference_loop].
  destruct (inference_iteration garbage s st r) as [[st' y]|e]; [|cbn; lia]. specialize (IH st').
  destruct (inference_loop garbage s st' rs) as [[ys st''] e]. cbn in *. lia.
Qed.

(** C7: Serving the requests of a client one after another answers, refuses and ends as the session of the connection
    handler does with them, whatever their prompts, beam hypotheses and sizes. *)
Theorem serve_all_session ho a b m q l o ds rq c handles :
  wire_ok dht_prefix batch hid ci ->
  let h := ho_handler ho in let md := step_metadata ci 0 (session_metadata adapter m) in let r := request_of a b md q in
  open_inference float_of_str h r = Ok o -> _allocate_cache (so_backends o) (so_batch_size o) (so_max_length o) = Ok ds ->
  allocate_cache (ho_memory ho) false (concat ds) (so_alloc_timeout o) = Ok rq -> allocate (ho_memory ho) rq = Ok (c, handles) ->
  let run := inference_session h (ho_garbage ho) o r (group_handles handles ds) c (FromClient ∘ fst <$> step_requests a b 1 l) in
  let '(ys, e) := serve_all ho a b (Opening m) (q :: l) in
  ir_responses run = ((fun y => serialize_torch_tensor (THidden batch hid y) (hc_schema_compression h)) <$> ys) /\
  ir_ending run = match e with Some e => RaisedErr e | None => Waits end.
Proof.
  intros Hw h mdo r Ho Hds Hrq Hal run. destruct q as [[x ps] hs].
  assert (Ha : so_args_structure o = ci_args_structure ci).
  { unfold open_inference in Ho. inv_ok. cbn. match goal with H : request_metadata _ = Ok _ |- _ => by injection H as <- end. }
  assert (Hlen : length (group_handles handles ds) = length (so_backends o)).
  { rewrite group_handles_length. by eapply allocate_cache_length. }
  set (s := session_config_of h o (group_handles handles ds)).
  cbn [serve_all]. unfold serve_request, open_session. cbv beta iota zeta.
  change (step_metadata ci 0 (session_metadata adapter m)) with mdo.
  change (client_request batch hid compression (span_uid dht_prefix a b) x ps hs mdo) with r.
  fold h. rewrite Ho. cbn [mbind result_bind]. rewrite Hds. cbn [mbind result_bind]. rewrite Hrq. cbn [mbind result_bind]. rewrite Hal.
  cbn [mbind result_bind mret result_ret]. fold s. rewrite Ha.
  unfold run, inference_session, r. unfold mdo; rewrite client_steps by done; fold mdo; rewrite Ha. cbn [parse_steps]. fold r. unfold iterate_rpc_inference.
  assert ((zlen (sc_cache_handles (session_config_of h o (group_handles handles ds))) =? zlen (sc_backends (session_config_of h o (group_handles handles ds)))) = true) as ->.
  { cbn. unfold zlen. rewrite Hlen. apply Z.eqb_refl. }
  fold s. unfold answer. destruct (parse_step (ci_args_structure ci) (r, mdo)) as [p0|e] eqn:Er; [|by split].
  pose proof (parsed_shape _ _ _ _ _ _ Hw Er) as Hshape. cbn [mbind result_bind].
  destruct (parse_steps (ci_args_structure ci) (step_requests a b 1 l)) as [parsed pe] eqn:Eps. cbn [inference_loop].
  destruct (inference_iteration (ho_garbage ho) s (c, 0) p0) as [[[c' p'] [[y pushed] md]]|e] eqn:Ei.
  2:{ by split. }
  destruct (inference_loop (ho_garbage ho) s (c', p') parsed) as [[ys st] ie] eqn:El.
  destruct (running_all ho a b s c' p' 1 l parsed pe ys st ie Hw Eps El) as [Hall Hp].
  cbn [mbind result_bind mret result_ret]. change (0 + 1) with 1. rewrite Hall. destruct st as [c2 p2]. cbn [ir_responses ir_ending]. split.
  - pose proof (inference_loop_length (ho_garbage ho) s (c', p') parsed) as Hl. rewrite El in Hl. cbn in Hl.
    rewrite (serialized_outputs _ (_ :: ys) (p0 :: parsed)) by ((cbn; lia) || by constructor). by rewrite fmap_cons.
  - by destruct ie, pe.
Qed.
End sessions.

(** ** Example: two blocks, three requests, the second with a prompt, the third too long *)

Definition example_host : host := mkHost SumModule example_handler (mc_init (tensor := list Z) (Some 1000) None) zeros.

Definition example_inputs : list (step_input (CM := SumModule)) := [([1; 2], [], []); ([3], [[5]; []], []); ([4; 5; 6], [], [])].

Definition example_ids : client_ids := mkIds "sid" str_of_Z (PStr "packed").

Definition example_md : metadata_dict := step_metadata example_ids 0 (session_metadata "" 4).

Definition example_request_of := request_of (CM := SumModule) (WF := PlainWire) "m" 1 1 0.

Definition opened_example : option (session_open * list (list TensorDescriptor) * request * (@MemoryCache (list Z) * list Handle)) :=
  match open_inference (CM := SumModule) (WF := PlainWire) (fun _ => None) example_handler
    (example_request_of 0 2 example_md ([1; 2], [], [])) with
  | Ok o =>
      match _allocate_cache (so_backends o) (so_batch_size o) (so_max_length o) with
      | Ok ds =>
          match allocate_cache (ho_memory example_host) false (concat ds) (so_alloc_timeout o) with
          | Ok rq => match allocate (CM := SumModule) (ho_memory example_host) rq with Ok ch => Some (o, ds, rq, ch) | Err _ => None end
          | Err _ => None
          end
      | Err _ => None
      end
  | Err _ => None
  end.

Lemma example_wire : wire_ok (WF := PlainWire) "m" 1 1 example_ids.
Proof. split; try done. intros i j. apply str_of_Z_inj. Qed.

Lemma serve_all_session_witness :
  serve_all (CM := SumModule) (WF := PlainWire) (fun _ => None) "m" "" 1 1 0 example_ids example_host 0 2 (Opening 4) example_inputs =
    ([[2; 5]; [16]], Some ValueError) /\
  match opened_example with
  | Some (o, ds, rq, (c, handles)) =>
      let run := inference_session (CM := SumModule) (WF := PlainWire) example_handler zeros o
        (example_request_of 0 2 example_md ([1; 2], [], [])) (group_handles handles ds) c
        (FromClient ∘ fst <$> step_requests (CM := SumModule) (WF := PlainWire) "m" 1 1 0 example_ids 0 2 1 (tail example_inputs)) in
      ir_responses run = [THidden (CM := SumModule) 1 1 [2; 5]; THidden (CM := SumModule) 1 1 [16]] /\ ir_ending run = RaisedErr ValueError
  | None => False
  end.
Proof.
  assert (Hall : serve_all (CM := SumModule) (WF := PlainWire) (fun _ => None) "m" "" 1 1 0 example_ids example_host 0 2 (Opening 4) example_inputs =
    ([[2; 5]; [16]], Some ValueError)) by (vm_compute; reflexivity).
  split; [exact Hall|].
  destruct opened_example as [[[[o ds] rq] [c handles]]|] eqn:E; [|discriminate E].
  unfold opened_example in E.
  destruct (open_inference _ _ _) as [o'|] eqn:Eo; [|discriminate E].
  destruct (_allocate_cache _ _ _) as [ds'|] eqn:Ed; [|discriminate E].
  destruct (allocate_cache _ _ _ _) as [rq'|] eqn:Er; [|discriminate E].
  destruct (allocate (CM := SumModule) _ _) as [[c' handles']|] eqn:Ea; [|discriminate E].
  injection E as <- <- <- <- <-.
  pose proof (serve_all_session (CM := SumModule) (WF := PlainWire) (fun _ => None) "m" "" 1 1 0 example_ids example_host 0 2 4 ([1; 2], [], [])
    (tail example_inputs) o' ds' rq' c' handles' example_wire Eo Ed Er Ea) as H.
  change (([1; 2], [], []) :: tail example_inputs) with example_inputs in H. rewrite Hall in H. exact H.
Defined.
