(* ===== verification/Swarm.v ===== *)
(** * Swarm: clients and servers together

    The client's code (InferenceSession, Generation) over the server's code (SwarmServer): the interface between them
    is instantiated, so what is left to assume is what lies outside of both: the network, the routes, the wire format
    of hivemind, the forward pass of a block, and that the servers hold the blocks they announce. *)

From S2P Require Import Prelude PyString PyFloat PyDict DataStructures Utils Dht SequenceInfo SequenceManager MemoryCache.
From S2P Require Import Discovery Interfaces SwarmRouter InferenceSession SequentialAutograd Effects RemoteSequential LMHead Generation.
From S2P Require Import Backend Packaging BlockFunctions Handler SwarmServer.

Section swarm.
Context {PI : PeerIds} {RT : Router}.
Context {TD : TorchDtypes} {CM : CausalModule} {TM : TrainableModule} {NS : Nested} {WF : WireFormat}.
Context (float_of_str : string -> option pyfloat).
Context (dht_prefix adapter : string) (batch hid compression : Z) (ci : client_ids) (kv : nat) (hosts : Z -> Z -> host).
Context (Hwire : wire_ok dht_prefix batch hid ci) (Hhosts : forall a b, host_ok dht_prefix batch kv (hosts a b)).
Abbreviation BK := (ModuleBlocks adapter kv).
Abbreviation IS := (SwarmServer float_of_str dht_prefix adapter batch hid compression ci kv hosts Hwire Hhosts).

(** ** The reference: the whole model on one machine *)

(** All blocks, with the client's adapter, on a whole sequence, from empty caches. *)
Definition whole_model (N : Z) (x : list col) : list col :=
  fold_left (fun y i => (mod_forward (i, Some adapter) (replicate kv []) y).1) (zrange 0 N) x.

(** ** A step of a session *)

(** C2: Whatever fails on the way, a step of a client's session over servers that run this code returns what the whole
    model computes on one machine for the text so far, without its caches; afterwards the caches of every server in the
    chain hold the keys and values of the text. *)
Theorem swarm_step_correct net fuel text (w : Session (RT := RT) (IS := IS)) x w' out :
  0 < is_num_blocks w -> between_steps text w ->
  is_step net fuel w (plain batch hid x) = Some (w', Ok out) ->
  out = drop (length text) (whole_model (is_num_blocks w) (text ++ x)) /\
  between_steps (text ++ x) w' /\ zlen (text ++ x) <= is_max_length w /\
  Forall (fun s : ServerSession (IS := IS) => session_holds adapter ci kv (hosts (sp_start (ss_span s)) (sp_end (ss_span s))) (sp_start (ss_span s)) (sp_end (ss_span s))
    (is_max_length w') (ss_remote s) (whole_model (sp_start (ss_span s)) (text ++ x))) (is_server_sessions w').
Proof.
  intros HN Hb Hs. destruct (step_sound net fuel text w x batch hid w' out HN Hb Hs) as (Ho & Hb' & [_ Hseen] & Hm).
  repeat (split; [done|]). rewrite Forall_fmap in Hseen. eapply Forall_impl; [exact Hseen|].
  intros s (span & st & Hc & Hh). cbn in Hc. injection Hc as -> _ _ _ _ ->. exact Hh.
Qed.

(** ** Text *)

Context {SS : SpanServer} {LY : @Layout BK IS SS} {LN : Linear} {TF : @Transformers BK LN}.
Abbreviation client := (@client PI RT BK IS (@tid BK LN TF)).
Context (net : nat -> option exn).
Context (payload_size : list (list row) -> list (list prm) -> Z) (MAX_UNARY_PAYLOAD_SIZE : Z) (args_schema : Z).
Context (views : client -> list task) (after : client -> router).
Context (fuel : nat).

Abbreviation model := (@model BK IS LN).
Abbreviation ids := (list (@tid BK LN TF)).

(** Decoding on one machine: for every token all blocks run on the whole text. *)
Fixpoint local_text (arch : architecture) (m : model) (weight : list weight_row) (N : Z) (n : nat) (text : ids) : ids :=
  match n with
  | O => text
  | S n' =>
      match last (whole_model N (embed (TF := TF) arch <$> text)) with
      | None => text
      | Some x =>
          let text' := text ++ [select text (logits_of (md_lm_head m) weight (ln_f (Transformers := TF) x))] in
          if finished text' then text' else local_text arch m weight N n' text'
      end
  end.

Lemma decode_local arch (m : model) weight N n (text : ids) : decode arch m weight N n text = local_text arch m weight N n text.
Proof.
  revert text. induction n as [|n IH]; intros text; [done|]. cbn [decode local_text]. unfold next_token.
  change (run_blocks 0 N (embed (TF := TF) arch <$> text)) with (whole_model N (embed (TF := TF) arch <$> text)).
  destruct (last _) as [x|]; [|done]. cbn [mbind option_bind]. cbv beta iota. destruct (finished _); [done|]. apply IH.
Qed.

(** C1: Text generation by BLOOM, LLaMA or Mixtral, without prompt tuning and with no cache given by the caller
    ([call_ok]), over a swarm of servers that run this code, hold the blocks that they are asked for, and have the memory
    and the limits for the session, while the network does not fail and the router goes on finding routes
    ([routes_stay], met by the repository's own router while its table, kept fresh, covers the blocks: [stable_routes]),
    returns exactly the text that decoding with the whole model on one machine gives, token by token and without caches;
    the session is closed in the end.  After a failure amid a session it need not return ([session_midway_failure]);
    when it does, C2 and C5 say what it returns. *)
Theorem swarm_generates (P : router -> Prop) arch (m : model) weight (inputs : option ids) (text : ids) kw (st : client) :
  (forall n, net n = None) -> routes_stay P -> P (cl_manager st) ->
  call_ok arch m weight (given inputs kw) kw [] -> given inputs kw = Some text ->
  (is_none (get_max kw) <> is_none (gk_max_new_tokens kw)) ->
  0 <= md_pre_seq_len m -> (arch = Bloom \/ cl_skipped st = 0) ->
  0 < num_blocks st <= Z.of_nat fuel -> cl_active st = None ->
  (forall n a b, session_length m (Some text) (_fix_generate_kwargs kw) = Ok n ->
     0 <= a -> a < b -> b <= num_blocks st ->
     host_serves dht_prefix adapter batch (hosts a b) a b n) ->
  exists st', generate net payload_size MAX_UNARY_PAYLOAD_SIZE args_schema views after fuel arch m inputs None kw st =
      Some (st', Ok (local_text arch m weight (num_blocks st) (Z.to_nat (limit_of kw text - zlen text)) text)) /\
    cl_active st' = None /\
    exists so, cl_sessions st' !! length (cl_sessions st) = Some so /\ is_closed (so_session so) = true.
Proof.
  intros Hnet HP HPst Hok Hids Hone Hpre Hsk Hnb Ha Hserve.
  destruct (alone_generates net payload_size MAX_UNARY_PAYLOAD_SIZE args_schema views after fuel Hnet P HP
    arch m weight inputs text kw st HPst Hok Hids Hone Hpre Hsk Hnb Ha) as (st' & Hg & Hrest).
  { intros n Hn. apply swarm_answers. intros a b Ha0 Hab HbN. by apply Hserve. }
  exists st'. split; [|done]. rewrite Hg. unfold generated_text. rewrite Hids. cbn [default app]. by rewrite decode_local.
Qed.
End swarm.

(** ** A small swarm

    Three blocks of running sums; every server holds all of them and has room for any session of 16 tokens. *)

Definition small_host : host (CM := SumModule) :=
  mkHost SumModule
    (mkHandlerConfig ((fun i => (make_uid "m" i, example_block i)) <$> [0; 1; 2]) "m" [] 16 QNONE 0 100)
    (mc_init (tensor := list Z) (Some 1000) None) zeros.

Lemma small_wire : wire_ok (WF := PlainWire) "m" 1 1 example_ids.
Proof. exact example_wire. Qed.

Lemma small_block i : block_ok (CM := SumModule) 1 2 i (example_block i).
Proof.
  split; [done|by repeat constructor|done|]. intros m ds H. injection H as <-. split; [done|].
  repeat constructor; cbn; unfold zlen; rewrite length_replicate; lia.
Qed.

Lemma small_host_ok (a b : Z) : host_ok (CM := SumModule) "m" 1 2 small_host.
Proof.
  split; [exact (fun n => length_replicate n 0)|by eexists|]. intros i be H. apply dget_elem in H.
  assert (Hj : exists j, (make_uid "m" i, be) = (make_uid "m" j, example_block j)).
  { cbn in H. repeat (apply elem_of_cons in H as [H|H]; [by eexists|]). by inversion H. }
  destruct Hj as (j & Hj). pose proof (f_equal (fun p => parse_uid p.1) Hj) as Hu. pose proof (f_equal snd Hj) as Hb.
  cbn [fst snd] in Hu, Hb. rewrite !parse_make_uid in Hu by done. injection Hu as ->. rewrite Hb. apply small_block.
Qed.

Abbreviation SmallBlocks := (@ModuleBlocks SumModule EmptyString 2).
Abbreviation SmallServer := (SwarmServer (CM := SumModule) (WF := PlainWire) (fun _ => None) "m" "" 1 1 0 example_ids 2
  (fun _ _ => small_host) small_wire small_host_ok).

(** Whether a server has the memory for a session of [m] tokens with the blocks [a, b). *)
Definition memory_suffices (ho : host (CM := SumModule)) (a b m : Z) : bool :=
  match requested_backends (ho_handler ho) ((fun i => make_uid "m" i) <$> zrange a b) with
  | Err _ => true
  | Ok bs =>
      match _allocate_cache bs 1 m with
      | Err _ => false
      | Ok dss =>
          match allocate_cache (ho_memory ho) false (concat dss) f_zero with
          | Err _ => false
          | Ok rq => is_ok (allocate (ho_memory ho) rq)
          end
      end
  end.

Lemma memory_suffices_ok ho a b m bs : memory_suffices ho a b m = true ->
  requested_backends (ho_handler ho) ((fun i => make_uid "m" i) <$> zrange a b) = Ok bs ->
  exists dss rq out, _allocate_cache bs 1 m = Ok dss /\ allocate_cache (ho_memory ho) false (concat dss) f_zero = Ok rq /\
    allocate (ho_memory ho) rq = Ok out.
Proof.
  unfold memory_suffices. intros H Hb. rewrite Hb in H. destruct (_allocate_cache bs 1 m) as [dss|]; [|done].
  destruct (allocate_cache _ _ _ _) as [rq|] eqn:Er; [|done]. destruct (allocate _ rq) as [out|] eqn:Ea; [|done].
  by exists dss, rq, out.
Qed.

Lemma small_serves a b : 0 <= a -> a < b -> b <= 3 -> host_serves (CM := SumModule) "m" "" 1 small_host a b 6.
Proof.
  intros Ha Hab Hb. split; [|cbn; lia|by left|cbn; lia|].
  - intros i Hi. assert (i = 0 \/ i = 1 \/ i = 2) as [->|[->| ->]] by lia; reflexivity.
  - intros bs. apply memory_suffices_ok. assert (a = 0 \/ a = 1 \/ a = 2) as Hc by lia.
    assert (b = 1 \/ b = 2 \/ b = 3) as Hd by lia.
    destruct Hc as [->|[->| ->]], Hd as [->|[->| ->]]; try lia; vm_compute; reflexivity.
Qed.

(** One row per sequence, for the forward passes outside of a session (none is made here). *)
#[refine] Definition PlainSpans (BK : Blocks) : SpanServer :=
  {| row := list token; prm := Empty_set; fwd_span a b x ps := run_blocks a b <$> x; bwd_span a b x g ps := (g, []) |}.
Proof.
  - intros. by rewrite length_fmap.
  - intros. rewrite <- (list_fmap_id x) at 2. apply list_fmap_ext. intros i y _. by apply run_blocks_nil.
  - intros a b c x ps qs Ha Hb _. rewrite <- list_fmap_compose. apply list_fmap_ext. intros i y _. by apply run_blocks_split.
  - done.
  - done.
  - intros. apply fmap_app.
  - done.
Defined.

#[refine] Definition PlainLayout (BK : Blocks) (IS : @InferenceServer BK) : @Layout BK IS (PlainSpans BK) :=
  @Build_Layout BK IS (PlainSpans BK) (fun x => [x]) (fun l => match l with x :: _ => x | [] => [] end) (fun _ => []) _ _.
Proof. all: done. Defined.

#[refine] Definition SmallTransformers2 : @Transformers SmallBlocks ZLinear :=
  @Build_Transformers SmallBlocks ZLinear Z (fun t => t) (fun x => x) (fun x => x) example_select example_finished
    (super_start (Transformers := SmallTransformers)) (super_limit (Transformers := SmallTransformers)) true
    (super_prepare (Transformers := SmallTransformers)) (fun W => super_generate (Transformers := SmallTransformers))
    _ _ _ _ _.
Proof.
  - exact (super_start_some (Transformers := SmallTransformers)).
  - exact (super_limit_new (Transformers := SmallTransformers)).
  - exact (super_limit_length (Transformers := SmallTransformers)).
  - exact (super_prepare_rest (Transformers := SmallTransformers)).
  - exact (super_generate_step (Transformers := SmallTransformers)).
Defined.

(** *** A step *)

Definition swarm_session : Session (PI := ZPeerIds) (RT := FixedRouter) (IS := SmallServer) :=
  is_init (RT := FixedRouter) (IS := SmallServer) ["m.0"; "m.1"; "m.2"] 6.

Lemma swarm_session_between : between_steps (IS := SmallServer) [] swarm_session.
Proof. split; [done|done|by left]. Qed.

(** A call fails on the way. *)
Lemma swarm_step_run :
  exists w, is_step (IS := SmallServer) flaky 9 swarm_session (plain (IS := SmallServer) 1 1 [1; 2]) = Some (w, Ok [4; 9]) /\
    is_num_blocks w = 3.
Proof.
  assert (H : (fun p => (is_num_blocks p.1, p.2)) <$>
    is_step (IS := SmallServer) flaky 9 swarm_session (plain (IS := SmallServer) 1 1 [1; 2]) = Some (3, Ok [4; 9])) by (vm_compute; reflexivity).
  destruct (is_step _ _ _ _) as [[w r]|]; [|discriminate H]. injection H as H1 ->. eauto.
Qed.

Lemma swarm_step_correct_witness :
  exists w, is_step (IS := SmallServer) flaky 9 swarm_session (plain (IS := SmallServer) 1 1 [1; 2]) = Some (w, Ok [4; 9]) /\
    [4; 9] = whole_model (CM := SumModule) "" 2 3 [1; 2] /\ between_steps (IS := SmallServer) [1; 2] w.
Proof.
  destruct swarm_step_run as (w & H & _). exists w. split; [exact H|].
  destruct (swarm_step_correct (CM := SumModule) (WF := PlainWire) (fun _ => None) "m" "" 1 1 0 example_ids 2 (fun _ _ => small_host) small_wire
    small_host_ok flaky 9 [] swarm_session [1; 2] w [4; 9] eq_refl swarm_session_between H) as (Ho & Hb & _).
  split; [exact Ho|exact Hb].
Defined.

(** *** A text *)

Definition swarm_model : @Generation.model SmallBlocks SmallServer ZLinear :=
  mkModel (BK := SmallBlocks) (IS := SmallServer) (LN := ZLinear) None 0 1 1 [] ([0], []) small_head.

Definition swarm_kwargs (k : Z) : gen_kwargs (TF := SmallTransformers2) :=
  mkKwargs (TF := SmallTransformers2) None (Some None) (Some k) None None.

Definition swarm_client : @client ZPeerIds ExampleRouter SmallBlocks SmallServer Z :=
  mkClient (RT := ExampleRouter) (IS := SmallServer) example_managed [] None 0 [] 0 0.

Definition swarm_view (st : @client ZPeerIds ExampleRouter SmallBlocks SmallServer Z) : list (task (PI := ZPeerIds) (RT := ExampleRouter)) :=
  [mkTask (RT := ExampleRouter) (cl_manager st) 0].

Lemma swarm_generates_witness :
  exists st', generate (PI := ZPeerIds) (RT := ExampleRouter) (BK := SmallBlocks) (IS := SmallServer) (SS := PlainSpans SmallBlocks)
      (LY := PlainLayout SmallBlocks SmallServer) (LN := ZLinear) (TF := SmallTransformers2) (fun _ => None) (fun _ _ => 0) 0 1 swarm_view
      cl_manager 9 Llama swarm_model (Some [1; 2; 3]) None (swarm_kwargs 3) swarm_client =
    Some (st', Ok (local_text (CM := SumModule) (WF := PlainWire) (fun _ => None) "m" "" 1 1 0 example_ids 2 (fun _ _ => small_host) small_wire small_host_ok
      (LN := ZLinear) (TF := SmallTransformers2) Llama swarm_model [1; 2; 3; 4; 5] 3 3 [1; 2; 3])) /\
    cl_active st' = None /\ exists so, cl_sessions st' !! 0%nat = Some so /\ is_closed (so_session so) = true.
Proof.
  apply (swarm_generates (CM := SumModule) (WF := PlainWire) (fun _ => None) "m" "" 1 1 0 example_ids 2 (fun _ _ => small_host) small_wire small_host_ok
    (SS := PlainSpans SmallBlocks) (LY := PlainLayout SmallBlocks SmallServer) (LN := ZLinear) (TF := SmallTransformers2) (fun _ => None)
    (fun _ _ => 0) 0 1 swarm_view cl_manager 9 (stable example_world "m" 3) Llama swarm_model [1; 2; 3; 4; 5] (Some [1; 2; 3]) [1; 2; 3] (swarm_kwargs 3) swarm_client).
  - done.
  - exact example_routes.
  - exact example_stable.
  - split; [done|by split|done|by right|done|reflexivity].
  - done.
  - done.
  - done.
  - by right.
  - by split; vm_compute; congruence.
  - done.
  - intros n a b [= <-]. exact (small_serves a b).
Defined.
