(* ===== verification/Server.v ===== *)
(** * Server: [server/server.py]

    A server decides how many blocks it can hold and what it announces, then serves one container after another:
    it picks blocks, builds a container and replaces it when it breaks or the swarm is out of balance. *)

From S2P Require Import Prelude PyString PyFloat PyDict DataStructures Utils Dht BlockSelection SequenceManager MemoryCache Backend BlockFunctions HostResources Announcer Container Packaging Handler.

(** ** Configuration *)

Record BlockConfig := mkBlockConfig {
  bc_config : PretrainedConfig;
  bc_num_hidden_layers : Z;
  bc_torch_dtype : dtype_arg;
  bc_dht_prefix : string;
}.

(** [torch.device] *)
Record torch_device := mkDev {
  tdev_type : string;
  tdev_index : option Z;
}.

#[global] Instance torch_device_eq_dec : EqDecision torch_device.
Proof. solve_decision. Defined.

(** What the libraries say about the host. *)
Record host := mkHost {
  ho_cuda_available : bool;
  ho_mps_available : bool;
  ho_device_memory : torch_device -> Z;            (* torch.cuda.get_device_properties(device).total_memory *)
  ho_virtual_memory : Z;                           (* psutil.virtual_memory().total *)
  ho_cuda_name : torch_device -> string;
  ho_n_params : Z;                                 (* of an empty block *)
  ho_adapter_memory : Z;                           (* estimate_adapter_memory_per_block *)
}.

(** The arguments of [Server.__init__] that decide what is served. *)
Record server_options := mkOptions {
  op_dht_prefix : option string;
  op_public_name : option string;
  op_version : string;
  op_throughput : string + pyfloat;
  op_num_blocks : option Z;
  op_block_indices : option string;
  op_inference_max_length : option Z;
  op_max_batch_size : option Z;
  op_attn_cache_tokens : option Z;
  op_torch_dtype : string;
  op_device : option torch_device;
  op_tensor_parallel_devices : option (list torch_device);
  op_quant_type : option QuantType;
  op_adapters : list string;
  op_update_period : pyfloat;
  op_expiration : option pyfloat;
  op_reachable_via_relay : option bool;
}.

Record server := mkServer {
  sv_block_config : BlockConfig;
  sv_dht_prefix : string;
  sv_module_uids : list string;
  sv_expiration : pyfloat;
  sv_update_period : pyfloat;
  sv_device : torch_device;
  sv_torch_dtype : dtype;
  sv_devices : list torch_device;
  sv_quant_type : QuantType;
  sv_max_batch_size : Z;
  sv_inference_max_length : Z;
  sv_cache_bytes_per_block : Z;
  sv_strict_block_indices : option (list Z);
  sv_num_blocks : Z;
  sv_attn_cache_bytes : Z;
  sv_server_info : ServerInfo;
  sv_model_info : ModelInfo;
}.

Section server.
Context {TD : TorchDtypes}.

Definition gib : Z := 1024 ^ 3.

(** The device that is used by default, and the index of a GPU. *)
Definition resolve_device (ho : host) (d : option torch_device) : torch_device :=
  let d := match d with
           | Some d => d
           | None => mkDev (if ho_cuda_available ho then "cuda" else if ho_mps_available ho then "mps" else "cpu") None
           end in
  if String.eqb (tdev_type d) "cuda" && bool_decide (tdev_index d = None) then mkDev (tdev_type d) (Some 0) else d.

Definition resolve_dtype (cfg : BlockConfig) (d : torch_device) (name : string) : result dtype :=
  given ← get_or KeyError (DTYPE_MAP name);
  let t := resolve_block_dtype (bc_torch_dtype cfg) (match given with Some d => DType d | None => DAuto end) in
  _ ← raise_if (String.eqb (tdev_type d) "cpu" && bool_decide (t = torch_float16)) ValueError;
  mret (if String.eqb (tdev_type d) "mps" && bool_decide (t = torch_bfloat16) then torch_float16 else t).

Definition is_multiquery_attn (cfg : BlockConfig) : bool := 1 <? num_key_value_groups (bc_config cfg).

(** [attn_cache_tokens] and the bytes they take in one block. *)
Definition attn_cache_tokens (cfg : BlockConfig) (given : option Z) : Z :=
  or_default given (if is_multiquery_attn cfg then 16384 else 4096).

Definition cache_bytes_per_block (cfg : BlockConfig) (t : dtype) (tokens : Z) : result Z :=
  values ← zdiv (2 * hidden_size (bc_config cfg) * tokens) (num_key_value_groups (bc_config cfg));
  mret (values * get_size_in_bytes t).

(** ** How many blocks *)

Definition total_memory (ho : host) (d : torch_device) (devices : list torch_device) : result Z :=
  let num_devices := match devices with [] => 1 | _ => zlen devices end in
  if 1 <? num_devices then
    _ ← assert_ (String.eqb (tdev_type d) "cuda");
    let memory_per_device := ho_device_memory ho <$> devices in
    least ← py_min_Z memory_per_device;
    most ← py_max memory_per_device;
    ratio ← py_fdiv (f_of_Z most) (f_of_Z least);
    _ ← raise_if (f_lt (f_lit 3 2) ratio) ValueError;
    mret (least * num_devices)
  else mret (if String.eqb (tdev_type d) "cuda" then ho_device_memory ho d else ho_virtual_memory ho).

(** [2 * gib * num_devices / 14336 * hidden_size] *)
Definition autograd_memory (num_devices hidden : Z) : pyfloat :=
  f_mul (f_div (f_of_Z (2 * gib * num_devices)) (f_of_Z 14336)) (f_of_Z hidden).

Definition _choose_num_blocks (ho : host) (cfg : BlockConfig) (d : torch_device) (devices : list torch_device) (t : dtype)
    (q : QuantType) (cache_bytes : Z) (adapters : list string) : result Z :=
  _ ← assert_ (String.eqb (tdev_type d) "cuda" || String.eqb (tdev_type d) "mps");
  total ← total_memory ho d devices;
  let num_devices := match devices with [] => 1 | _ => zlen devices end in
  block_size ← get_block_size (ho_n_params ho) (bc_torch_dtype cfg) "memory" (DType t) (Some q);
  let total_memory_per_block := block_size + cache_bytes + match adapters with [] => 0 | _ => ho_adapter_memory ho end in
  ratio ← py_fdiv (f_sub (f_of_Z total) (autograd_memory num_devices (hidden_size (bc_config cfg)))) (f_of_Z total_memory_per_block);
  num_blocks ← f_floor ratio;
  _ ← assert_ (1 <=? num_blocks);
  mret (Z.min num_blocks (bc_num_hidden_layers cfg)).

(** [start:end] *)
Definition parse_block_indices (s : string) : result (list Z) :=
  match mapR (fun index => get_or ValueError (py_int (strip index))) (split_on ":" s) with
  | Ok [start_block; end_block] => Ok (zrange start_block end_block)
  | _ => Err ValueError
  end.

(** The blocks to serve: given, counted, or as many as fit. *)
Definition blocks_to_serve (cfg : BlockConfig) (num_blocks : option Z) (block_indices : option string) (choose : result Z)
    : result (option (list Z) * Z) :=
  match num_blocks, block_indices with
  | Some _, Some _ => Err AssertionError
  | None, Some s => ix ← parse_block_indices s; mret (Some ix, zlen ix)
  | Some n, None => mret (None, Z.min n (bc_num_hidden_layers cfg))
  | None, None => n ← choose; mret (None, Z.min n (bc_num_hidden_layers cfg))
  end.

(** What is announced about the speed: the given number, or what is measured ([None]: a dry run exits). *)
Definition throughput_of (op : server_options) (auto : result throughput_info) : result throughput_info :=
  match op_throughput op with
  | inr f => Ok [("throughput", f)]
  | inl s =>
      _ ← assert_ (String.eqb s "auto" || String.eqb s "eval" || String.eqb s "dry_run");
      info ← auto;
      _ ← raise_if (String.eqb s "dry_run") SystemExit;
      mret info
  end.

Definition host_device (ho : host) (d : torch_device) : device := mkDevice (tdev_type d) (ho_cuda_name ho d).

(** [ServerInfo(state=JOINING, ...)] *)
Definition initial_info (op : server_options) (t : dtype) (q : QuantType) (relay : bool) (thr : throughput_info) : result ServerInfo :=
  throughput ← get_or TypeError (dget thr "throughput");
  let info := mkServerInfo JOINING throughput None None (op_public_name op) (Some (op_version op)) (dget thr "network_rps")
    (dget thr "forward_rps") (dget thr "inference_rps") (op_adapters op) (Some (dtype_name t)) (Some (quant_name q)) (Some relay) None None in
  _ ← raise_if (negb (valid_info info)) ValueError;
  mret info.

(** [dht_prefix], which uids and chains of uids must be able to contain *)
Definition checked_prefix (cfg : BlockConfig) (op : server_options) : result string :=
  let prefix := or_default (op_dht_prefix op) (bc_dht_prefix cfg) in
  _ ← assert_ (negb (str_contains UID_DELIMITER prefix) && negb (str_contains CHAIN_DELIMITER prefix));
  mret prefix.

Definition default_expiration (op : server_options) (max_discrepancy : pyfloat) : pyfloat :=
  or_default (op_expiration op) (f_max (f_mul (f_of_Z 2) (op_update_period op)) max_discrepancy).

Definition module_uids (cfg : BlockConfig) (prefix : string) : list string :=
  (fun i => make_uid prefix i) <$> zrange 0 (bc_num_hidden_layers cfg).

(** If the check tells nothing, a full peer is run. *)
Definition reachable_via_relay (op : server_options) (is_reachable : option bool) : bool :=
  or_default (op_reachable_via_relay op) (bool_decide (is_reachable = Some false)).

(** [should_validate_reachability] *)
Definition should_validate_reachability (skip_reachability_check : bool) (initial_peers public_peers : list string) : bool :=
  negb skip_reachability_check && bool_decide (initial_peers = public_peers).

(** [Server.__init__]: [max_discrepancy] is hivemind's constant, [is_reachable] what the peers say, [repository] the
    model's address if it is not a directory. *)
Definition server_init (ho : host) (cfg : BlockConfig) (op : server_options) (max_discrepancy : pyfloat) (is_reachable : option bool)
    (model_name : string) (repository : option string) (file : option (list (string * throughput_info))) (measured : throughput_info)
    : result server :=
  prefix ← checked_prefix cfg op;
  let expiration := default_expiration op max_discrepancy in
  let relay := reachable_via_relay op is_reachable in
  let d := resolve_device ho (op_device op) in
  t ← resolve_dtype cfg d (op_torch_dtype op);
  let devices := or_default (op_tensor_parallel_devices op) [d] in
  let q := or_default (op_quant_type op) (if String.eqb (tdev_type d) "cuda" then NF4 else QNONE) in
  let long := if is_multiquery_attn cfg then 8192 else 2048 in
  cache_bytes ← cache_bytes_per_block cfg t (attn_cache_tokens cfg (op_attn_cache_tokens op));
  '(strict, num_blocks) ← blocks_to_serve cfg (op_num_blocks op) (op_block_indices op)
    (_choose_num_blocks ho cfg d devices t q cache_bytes (op_adapters op));
  let force_eval := match op_throughput op with inl s => String.eqb s "eval" || String.eqb s "dry_run" | inr _ => false end in
  thr ← throughput_of op (get_server_throughput model_name (bc_torch_dtype cfg) (host_device ho d) (DType t) num_blocks q
    (host_device ho <$> devices) relay force_eval file measured).1;
  info ← initial_info op t q relay thr;
  _ ← raise_if (bc_num_hidden_layers cfg <? 1) ValueError;
  mret (mkServer cfg prefix (module_uids cfg prefix) expiration (op_update_period op) d t devices q
          (or_default (op_max_batch_size op) long) (or_default (op_inference_max_length op) long) cache_bytes strict num_blocks
          (cache_bytes * num_blocks) info (mkModelInfo (bc_num_hidden_layers cfg) repository)).
End server.

(** ** Serving *)

Section serving.
Context {PI : PeerIds} {PY : Pydantic} {RND : PyRandom} {TD : TorchDtypes} {module : Type}.

Definition _choose_blocks (s : server) (found : string -> option DHTValue) : result (list Z) :=
  match sv_strict_block_indices s with
  | Some ix => Ok ix
  | None =>
      infos ← get_remote_module_infos found (sv_module_uids s) None true;
      choose_best_blocks (sv_num_blocks s) infos
  end.

(** [None]: the simulated rebalancing takes more than [fuel] rounds. *)
Definition _should_choose_other_blocks (fuel : nat) (seed : Z) (own : PeerID) (balance_quality : pyfloat) (s : server)
    (found : string -> option DHTValue) : option (result bool) :=
  match sv_strict_block_indices s with
  | Some _ => Some (Ok false)
  | None =>
      match get_remote_module_infos found (sv_module_uids s) None true with
      | Err e => Some (Err e)
      | Ok infos => should_choose_other_blocks fuel seed own infos balance_quality
      end
  end.

(** One turn of the inner loop of [run]: whether [stop] was set while waiting, who is alive, and the swarm. *)
Record turn := mkTurn {
  tn_stop : bool;
  tn_handler_alive : Z -> bool;
  tn_pool_alive : pool_id -> bool;
  tn_found : string -> option DHTValue;
  tn_seed : Z;
}.

(** One turn of the outer loop: the swarm when the blocks are chosen, loading, and the turns of the inner loop. *)
Record round := mkRound {
  rd_found : string -> option DHTValue;
  rd_builder : builder module;
  rd_turns : list turn;
  rd_pool_alive : pool_id -> bool;           (* when the container is shut down *)
}.

Inductive verdict := ToStop | ToRestart | ToRaise (e : exn) | Pending.

Fixpoint watch (fuel : nat) (own : PeerID) (balance_quality : pyfloat) (s : server) (c : container) (turns : list turn) : verdict :=
  match turns with
  | [] => Pending
  | t :: rest =>
      if tn_stop t then ToStop
      else if negb (is_healthy (tn_handler_alive t) (tn_pool_alive t) c) then ToRestart
      else match _should_choose_other_blocks fuel (tn_seed t) own balance_quality s (tn_found t) with
           | None => Pending
           | Some (Err e) => ToRaise e
           | Some (Ok true) => ToRestart
           | Some (Ok false) => watch fuel own balance_quality s c rest
           end
  end.

Definition container_args (own : PeerID) (num_handlers : Z) (validate : bool) (s : server) (info : ServerInfo) (block_indices : list Z) : create_args :=
  mkCreateArgs own (sv_dht_prefix s) (bc_config (sv_block_config s)) info (sv_model_info s) block_indices (sv_update_period s)
    (sv_expiration s) num_handlers (zrange 0 (zlen (sv_devices s))) validate.

Inductive outcome := Stopped | Failed (e : exn) | Unfinished.

(** [Server.run]: what happens, and how it ends; the containers share [info]. *)
Fixpoint server_run (fuel : nat) (own : PeerID) (balance_quality : pyfloat) (num_handlers : Z) (validate : bool) (s : server)
    (info : ServerInfo) (rounds : list round) : list event * outcome :=
  match rounds with
  | [] => ([], Unfinished)
  | r :: rest =>
      match _choose_blocks s (rd_found r) with
      | Err e => ([], Failed e)
      | Ok block_indices =>
          match create (rd_builder r) (container_args own num_handlers validate s info block_indices) with
          | (evs, Err e) => (evs, Failed e)
          | (evs, Ok c) =>
              let closed := evs ++ shutdown (rd_pool_alive r) c in
              match watch fuel own balance_quality s c (rd_turns r) with
              | Pending => (evs, Unfinished)
              | ToStop => (closed, Stopped)
              | ToRaise e => (closed, Failed e)
              | ToRestart =>
                  let '(evs', o) := server_run fuel own balance_quality num_handlers validate s (ct_server_info c) rest in (closed ++ evs', o)
              end
          end
      end
  end.
End serving.
Arguments round : clear implicits.

(** ** The memory of the attention caches *)

Section cache_sizes.
Context {TD : TorchDtypes} {CM : CausalModule}.
Context (cfg : PretrainedConfig) (t : dtype).

(** A block of this model: no device twice, heads split between the devices. *)
Definition block_of (b : TransformerBackend) : Prop :=
  tb_config b = cfg /\ tb_dtype b = t /\ NoDup (tb_devices b) /\ Forall (fun n => 0 <= n) (tb_shard_num_heads b) /\ tb_check b = Ok ().

Definition config_ok : Prop :=
  0 < num_key_value_groups cfg /\ 0 < num_attention_heads cfg /\ 0 <= hidden_size cfg /\
  match num_key_value_heads cfg with Some k => 0 <= k /\ k * num_key_value_groups cfg <= num_attention_heads cfg | None => True end.

(** Keys per token, in one block on one device. *)
Definition kv_width : Z := (num_attention_heads cfg / num_key_value_groups cfg) * (hidden_size cfg / num_attention_heads cfg).

Lemma kv_width_bound : config_ok -> 0 <= kv_width /\ num_key_value_groups cfg * kv_width <= hidden_size cfg.
Proof.
  intros (Hg & Ha & Hh & _). unfold kv_width.
  pose proof (Z.mul_div_le (num_attention_heads cfg) (num_key_value_groups cfg) Hg).
  pose proof (Z.mul_div_le (hidden_size cfg) (num_attention_heads cfg) Ha).
  pose proof (Z.div_pos (num_attention_heads cfg) (num_key_value_groups cfg) ltac:(lia) Hg).
  pose proof (Z.div_pos (hidden_size cfg) (num_attention_heads cfg) Hh Ha). nia.
Qed.

Lemma zsum_elem_le l n : Forall (fun x => 0 <= x) l -> n ∈ l -> n <= zsum l.
Proof.
  induction 1 as [|x l Hx Hl IH]; intros Hn; [inversion Hn|]. change (zsum (x :: l)) with (x + zsum l).
  assert (0 <= zsum l) by (clear -Hl; unfold zsum; induction Hl; cbn; lia). apply elem_of_cons in Hn as [->|Hn]; [lia|]. specialize (IH Hn). lia.
Qed.

(** Two tensors per shard, on the shard's device. *)
Lemma shard_size b batch len x ds dev :
  config_ok -> block_of b -> 0 <= batch -> 0 <= len -> x.2 ∈ tb_shard_num_heads b ->
  shard_descriptors b batch len (hidden_size cfg / num_attention_heads cfg) x = Ok ds ->
  0 <= device_size ds dev <= (if decide (dev = Some x.1) then 2 * (batch * len) * kv_width * get_size_in_bytes t else 0).
Proof.
  intros Hc (Hcfg & Ht & _ & Hpos & Hck) Hb Hl Hx. destruct x as [d n]. unfold shard_descriptors. rewrite Hcfg.
  destruct Hc as (Hg & Ha & Hh & Hk). unfold zdiv. rewrite (proj2 (Z.eqb_neq _ _)) by lia. cbn [mbind result_bind].
  set (kv := or_default (num_key_value_heads cfg) (n / num_key_value_groups cfg)).
  assert (Hn : 0 <= n <= num_attention_heads cfg).
  { assert (E : zsum (tb_shard_num_heads b) = num_attention_heads (tb_config b)) by (unfold tb_check in Hck; inv_ok; by zbool).
    rewrite <- Hcfg, <- E. cbn [snd] in Hx. split; [|by apply zsum_elem_le]. rewrite Forall_forall in Hpos. by apply Hpos. }
  assert (Hkv : 0 <= kv <= num_attention_heads cfg / num_key_value_groups cfg).
  { unfold kv. destruct (num_key_value_heads cfg) as [k|]; cbn [or_default].
    - split; [lia|]. apply Z.div_le_lower_bound; lia.
    - split; [apply Z.div_pos; lia|]. apply Z.div_le_mono; lia. }
  intros [= <-]. pose proof (get_size_in_bytes_pos t) as Hs.
  pose proof (Z.div_pos (hidden_size cfg) (num_attention_heads cfg) Hh Ha) as Hd.
  unfold device_size. rewrite Ht, !filter_cons, filter_nil. cbn [td_device fst].
  destruct (decide (Some d = dev)) as [E|E]; [rewrite decide_True by done|rewrite decide_False by congruence; cbn; lia].
  cbn. unfold descr_size, td_numel, zsum. cbn. unfold kv_width.
  set (h := hidden_size cfg / num_attention_heads cfg) in *. set (g := num_attention_heads cfg / num_key_value_groups cfg) in *.
  set (z := get_size_in_bytes t) in *.
  assert (0 <= batch * len * h * z) by (repeat apply Z.mul_nonneg_nonneg; lia). nia.
Qed.

(** What the blocks may take on one device. *)
Definition block_bytes (batch len : Z) : Z := 2 * (batch * len) * kv_width * get_size_in_bytes t.

Lemma block_bytes_nonneg batch len : config_ok -> 0 <= batch -> 0 <= len -> 0 <= block_bytes batch len.
Proof.
  intros Hc Hb Hl. destruct (kv_width_bound Hc) as [Hw _]. pose proof (get_size_in_bytes_pos t). unfold block_bytes.
  apply Z.mul_nonneg_nonneg; [apply Z.mul_nonneg_nonneg; [nia|lia]|lia].
Qed.

Lemma device_size_app ds ds' dev : device_size (ds ++ ds') dev = device_size ds dev + device_size ds' dev.
Proof. unfold device_size. by rewrite filter_app, fmap_app, zsum_app. Qed.

Lemma shards_size b batch len l dss dev :
  config_ok -> block_of b -> 0 <= batch -> 0 <= len -> NoDup l.*1 -> Forall (fun x => x.2 ∈ tb_shard_num_heads b) l ->
  mapR (shard_descriptors b batch len (hidden_size cfg / num_attention_heads cfg)) l = Ok dss ->
  0 <= device_size (concat dss) dev <= (if decide (dev ∈ (fun x => Some x.1) <$> l) then block_bytes batch len else 0).
Proof.
  intros Hc Hb H0 H1. pose proof (block_bytes_nonneg batch len Hc H0 H1) as HC.
  revert dss. induction l as [|x l IH]; intros dss Hnd Hall H; cbn [mapR] in H; [injection H as <-; cbn; case_decide; lia|].
  inv_ok. apply Forall_cons in Hall as [Hx Hall]. rewrite fmap_cons in Hnd. apply NoDup_cons in Hnd as [Hn Hnd].
  match goal with E : shard_descriptors _ _ _ _ x = Ok ?d |- _ => pose proof (shard_size b batch len x d dev Hc Hb H0 H1 Hx E) as Hs end.
  specialize (IH _ Hnd Hall eq_refl).
  cbn [concat]. rewrite device_size_app. fold (block_bytes batch len) in Hs. rewrite fmap_cons.
  destruct (decide (dev = Some x.1)) as [->|Hne].
  - rewrite (decide_True (P := Some x.1 ∈ _ :: _)) by left. rewrite (decide_False (P := Some x.1 ∈ (fun x => Some x.1) <$> l)) in IH; [lia|].
    intros Hin. apply Hn. apply list_elem_of_fmap in Hin as (y & [= ->] & Hy). apply list_elem_of_fmap. by exists y.
  - destruct (decide (dev ∈ (fun x => Some x.1) <$> l)) as [Hin|Hin].
    + rewrite (decide_True (P := dev ∈ _ :: _)) by by right. lia.
    + rewrite (decide_False (P := dev ∈ _ :: _)) by (by intros [?|?]%elem_of_cons). lia.
Qed.

Lemma block_size b batch len ds dev :
  config_ok -> block_of b -> 0 <= batch -> 0 <= len -> get_inference_cache_descriptors b batch len = Ok ds ->
  0 <= device_size ds dev <= block_bytes batch len.
Proof.
  intros Hc Hb H0 H1 H. pose proof (block_bytes_nonneg batch len Hc H0 H1) as HC. unfold get_inference_cache_descriptors in H.
  destruct Hb as (Hcfg & Hb). rewrite Hcfg in H. unfold zdiv in H. rewrite (proj2 (Z.eqb_neq _ _)) in H by (destruct Hc; lia).
  cbn [mbind result_bind] in H. destruct (mapR _ (zip (tb_devices b) (tb_shard_num_heads b))) as [dss|] eqn:E; [|done].
  cbn in H. injection H as <-. pose proof Hb as (Ht & Hnd & Hpos & Hck).
  pose proof (fun A B => shards_size b batch len _ dss dev Hc (conj Hcfg Hb) H0 H1 A B E) as Hs.
  assert (Hlen : length (tb_shard_num_heads b) = length (tb_devices b)).
  { unfold tb_check in Hck. inv_ok. zbool. unfold zlen in *. lia. }
  specialize (Hs ltac:(rewrite fst_zip by lia; done)).
  assert (Hall : Forall (fun x : Z * Z => x.2 ∈ tb_shard_num_heads b) (zip (tb_devices b) (tb_shard_num_heads b))).
  { apply Forall_forall. intros [d n] Hx. apply list_elem_of_lookup in Hx as [k Hk]. apply lookup_zip_Some in Hk as [_ Hk].
    apply list_elem_of_lookup. by exists k. }
  specialize (Hs Hall). case_decide; lia.
Qed.

(** All the blocks of a session, on every device. *)
Lemma blocks_size bs batch len dss dev :
  config_ok -> Forall block_of bs -> 0 <= batch -> 0 <= len -> _allocate_cache bs batch len = Ok dss ->
  0 <= device_size (concat dss) dev <= zlen bs * block_bytes batch len.
Proof.
  intros Hc Hall H0 H1 H. unfold _allocate_cache in H. apply mapR_Forall2 in H.
  induction H as [|b ds bs dss Hd _ IH]; [cbn; unfold zlen; cbn; lia|]. apply Forall_cons in Hall as [Hb Hall]. specialize (IH Hall).
  cbn [concat]. rewrite device_size_app. pose proof (block_size b batch len ds dev Hc Hb H0 H1 Hd).
  replace (zlen (b :: bs)) with (1 + zlen bs) by (unfold zlen; cbn [length]; lia). lia.
Qed.

Lemma allocation_size_le bs batch len dss n :
  config_ok -> Forall block_of bs -> 0 <= batch -> 0 <= len -> _allocate_cache bs batch len = Ok dss ->
  get_allocation_size (concat dss) = Ok n -> n <= zlen bs * block_bytes batch len.
Proof.
  intros Hc Hall H0 H1 H Hn. destruct (concat dss) as [|d ds] eqn:E; [discriminate Hn|].
  destruct (get_allocation_size_spec (d :: ds) ltac:(done)) as (m & Hm & (x & _ & Hx) & _). rewrite Hm in Hn. injection Hn as <-.
  rewrite Hx, <- E. by eapply blocks_size.
Qed.
End cache_sizes.

(** The attention cache of a server is large enough for the tokens it is made for: with its blocks loaded, a
    session over all of them with at most [attn_cache_tokens] tokens in its batch fits into an empty cache. *)
Theorem attn_cache_suffices {TD : TorchDtypes} {CM : CausalModule} cfg t tokens bytes bs batch len dss n :
  config_ok (bc_config cfg) -> cache_bytes_per_block cfg t tokens = Ok bytes -> Forall (block_of (bc_config cfg) t) bs ->
  0 <= batch -> 0 <= len -> batch * len <= tokens ->
  _allocate_cache bs batch len = Ok dss -> get_allocation_size (concat dss) = Ok n ->
  n <= bytes * zlen bs.
Proof.
  intros Hc Hbytes Hall H0 H1 Hle Hd Hn. pose proof (allocation_size_le _ t bs batch len dss n Hc Hall H0 H1 Hd Hn) as Hb.
  unfold cache_bytes_per_block, zdiv in Hbytes. destruct (kv_width_bound _ Hc) as [Hw Hg]. destruct Hc as (Hg0 & _).
  rewrite (proj2 (Z.eqb_neq _ _)) in Hbytes by lia. cbn in Hbytes. injection Hbytes as <-.
  pose proof (zlen_nonneg bs). pose proof (get_size_in_bytes_pos t).
  assert (Hv : 2 * (batch * len) * kv_width (bc_config cfg) <= 2 * hidden_size (bc_config cfg) * tokens / num_key_value_groups (bc_config cfg)).
  { apply Z.div_le_lower_bound; [lia|]. assert (Hx : 0 <= batch * len) by nia. set (x := batch * len) in *.
    assert (num_key_value_groups (bc_config cfg) * kv_width (bc_config cfg) * x <= hidden_size (bc_config cfg) * x) by (apply Z.mul_le_mono_nonneg_r; lia).
    assert (hidden_size (bc_config cfg) * x <= hidden_size (bc_config cfg) * tokens) by (apply Z.mul_le_mono_nonneg_l; [nia|lia]). lia. }
  unfold block_bytes in Hb. eapply Z.le_trans; [exact Hb|]. rewrite (Z.mul_comm _ (zlen bs)).
  apply Z.mul_le_mono_nonneg_l; [lia|]. apply Z.mul_le_mono_nonneg_r; lia.
Qed.

(** C16: What a client concludes from an announcement holds on the server: if the client finds that a span has cache
    for the tokens it needs, a session over all blocks of the span with no more tokens in its batch fits into what was
    left when the server announced it. *)
Theorem advertised_cache_suffices {PI : PeerIds} {TD : TorchDtypes} {CM : CausalModule} cfg t d p (c : @MemoryCache (list slot)) left span needed bs batch len dss n :
  config_ok cfg -> DTYPE_MAP d = Some (Some t) -> bytes_per_token cfg (Some d) = Ok p -> zdiv (bytes_left c) p = Ok left ->
  si_cache_tokens_left (sp_server_info span) = Some left -> _has_cache_for span (Some needed) = true ->
  Forall (block_of cfg t) bs -> zlen bs = sp_length span -> 0 <= batch -> 0 <= len -> batch * len <= needed ->
  _allocate_cache bs batch len = Ok dss -> get_allocation_size (concat dss) = Ok n ->
  mc_current_size c + n <= mc_max_size_bytes c.
Proof.
  intros Hc Hd Hp Hl Hi Hs Hall Hlen H0 H1 Hle Hds Hn. pose proof (allocation_size_le _ t bs batch len dss n Hc Hall H0 H1 Hds Hn) as Hb.
  unfold bytes_per_token in Hp. cbn in Hp. rewrite Hd in Hp. cbn in Hp. unfold zdiv in Hp. destruct (kv_width_bound _ Hc) as [Hw Hg].
  destruct Hc as (Hg0 & _). rewrite (proj2 (Z.eqb_neq _ _)) in Hp by lia. injection Hp as Hp.
  pose proof (get_size_in_bytes_pos t) as Hsz. pose proof (zlen_nonneg bs) as Hbs.
  assert (Hpw : kv_width cfg * get_size_in_bytes t <= p) by (rewrite <- Hp; apply Z.div_le_lower_bound; [lia|]; nia).
  unfold zdiv in Hl. destruct (p =? 0) eqn:Ep; [done|]. injection Hl as Hl. zbool.
  assert (Hp0 : 0 < p) by nia.
  unfold _has_cache_for in Hs. rewrite Hi in Hs. zbool. rewrite <- Hlen in Hs.
  pose proof (Z.mul_div_le (bytes_left c) p Hp0). rewrite Hl in *.
  enough (n <= bytes_left c) by (unfold bytes_left in *; lia). unfold block_bytes in Hb. set (w := kv_width cfg * get_size_in_bytes t) in *.
  assert (Hb' : n <= zlen bs * (2 * (batch * len) * w)) by (unfold w; nia). assert (0 <= w) by (unfold w; nia).
  assert (H3 : 2 * (batch * len) * w <= 2 * needed * p) by (assert (0 <= batch * len) by nia; nia).
  assert (H4 : zlen bs * (2 * (batch * len) * w) <= zlen bs * (2 * needed * p)) by nia. nia.
Qed.

(** ** What the constructor guarantees *)

Lemma choose_num_blocks_range {TD : TorchDtypes} ho cfg d ds t q cb ad n :
  1 <= bc_num_hidden_layers cfg -> _choose_num_blocks ho cfg d ds t q cb ad = Ok n -> 1 <= n <= bc_num_hidden_layers cfg.
Proof. unfold _choose_num_blocks. intros H Hn. inv_ok. zbool. lia. Qed.

Lemma quant_of_name q : quant_of (Some (quant_name q)) = Ok q.
Proof. by destruct q. Qed.

Lemma resolved_dtype_runs cfg d name t :
  resolve_dtype cfg d name = Ok t ->
  ~ (tdev_type d = "cpu" /\ t = torch_float16) /\ ~ (tdev_type d = "mps" /\ t = torch_bfloat16).
Proof.
  unfold resolve_dtype. intros H. inv_ok. match goal with |- context [resolve_block_dtype ?c ?g] => set (x := resolve_block_dtype c g) in * end.
  split; intros [Hd Ht].
  - rewrite Hd in *. change (("cpu" =? "mps")%string) with false in Ht. cbn in Ht. rewrite Ht in Hguard. discriminate Hguard.
  - rewrite Hd in Ht. change (("mps" =? "mps")%string) with true in Ht. cbn [andb] in Ht.
    destruct (bool_decide (x = torch_bfloat16)) eqn:E; [discriminate Ht|]. apply bool_decide_eq_false in E. done.
Qed.

Lemma served_count cfg nb ix choose strict n :
  1 <= bc_num_hidden_layers cfg -> (forall m, choose = Ok m -> 1 <= m <= bc_num_hidden_layers cfg) ->
  blocks_to_serve cfg nb ix choose = Ok (strict, n) ->
  match strict with
  | Some l => n = zlen l /\ NoDup l
  | None => n <= bc_num_hidden_layers cfg /\ (nb = None -> 1 <= n)
  end.
Proof.
  intros H1 Hc H. unfold blocks_to_serve in H. destruct nb as [m|], ix as [x|]; inv_ok.
  - split; [lia|done].
  - split; [done|]. unfold parse_block_indices in Hrun. destruct (mapR _ _) as [[|? [|? [|]]]|]; try done.
    injection Hrun as <-. apply zrange_NoDup.
  - destruct (Hc _ eq_refl). split; lia.
Qed.

Lemma initial_info_ok op t q relay thr info :
  initial_info op t q relay thr = Ok info ->
  valid_info info = true /\ si_state info = JOINING /\ quant_of (si_quant_type info) = Ok q.
Proof.
  unfold initial_info. intros H. inv_ok. apply negb_false_iff in Hguard. split; [exact Hguard|]. split; [done|]. apply quant_of_name.
Qed.

Lemma checked_prefix_ok cfg op prefix : checked_prefix cfg op = Ok prefix -> valid_prefix prefix = true.
Proof.
  unfold checked_prefix. intros H. inv_ok. unfold valid_prefix. zbool; by apply negb_true_iff.
Qed.

(** The shape of a server that was initialised. *)
Lemma server_initialised {TD : TorchDtypes} ho cfg op md reach name repo file measured s :
  server_init ho cfg op md reach name repo file measured = Ok s ->
  valid_prefix (sv_dht_prefix s) = true /\
  sv_module_uids s = (fun i => make_uid (sv_dht_prefix s) i) <$> zrange 0 (bc_num_hidden_layers cfg) /\
  (exists d, d = sv_device s /\ resolve_dtype cfg d (op_torch_dtype op) = Ok (sv_torch_dtype s)) /\
  match sv_strict_block_indices s with
  | Some ix => sv_num_blocks s = zlen ix /\ NoDup ix
  | None => sv_num_blocks s <= bc_num_hidden_layers cfg /\ (op_num_blocks op = None -> 1 <= sv_num_blocks s)
  end /\
  sv_attn_cache_bytes s = sv_cache_bytes_per_block s * sv_num_blocks s /\
  (valid_info (sv_server_info s) = true /\ si_state (sv_server_info s) = JOINING /\
   quant_of (si_quant_type (sv_server_info s)) = Ok (sv_quant_type s)) /\
  (op_tensor_parallel_devices op <> Some [] -> sv_devices s <> []).
Proof.
  unfold server_init. intros H. inv_ok. match goal with H : context [let '(_, _) := ?p in _] |- _ => destruct p as [strict nb] end.
  inv_ok. cbn [sv_dht_prefix sv_module_uids sv_device sv_torch_dtype sv_strict_block_indices sv_num_blocks sv_attn_cache_bytes
    sv_cache_bytes_per_block sv_server_info sv_quant_type sv_devices].
  split; [by eapply checked_prefix_ok|]. zbool. split; [done|]. split; [by eexists|].
  split; [eapply served_count; [lia| |eassumption]; intros m Hm; eapply choose_num_blocks_range; [lia|exact Hm]|].
  split; [done|]. split; [by eapply initial_info_ok|].
  destruct (op_tensor_parallel_devices op) as [[|? ?]|]; [by intros []|done|done].
Qed.

(** C40: A server that starts is well-formed: its uids parse, its dtype runs on its device, it takes at least one block
    and no more than the model has (or the blocks that were asked for), the attention cache has room for each of
    them, and what it will announce is a valid record of a joining server. *)
Theorem server_init_wf {TD : TorchDtypes} ho cfg op md reach name repo file measured s :
  server_init ho cfg op md reach name repo file measured = Ok s ->
  valid_prefix (sv_dht_prefix s) = true /\
  sv_module_uids s = (fun i => make_uid (sv_dht_prefix s) i) <$> zrange 0 (bc_num_hidden_layers cfg) /\
  ~ (tdev_type (sv_device s) = "cpu" /\ sv_torch_dtype s = torch_float16) /\
  ~ (tdev_type (sv_device s) = "mps" /\ sv_torch_dtype s = torch_bfloat16) /\
  match sv_strict_block_indices s with
  | Some ix => sv_num_blocks s = zlen ix
  | None => sv_num_blocks s <= bc_num_hidden_layers cfg /\ (op_num_blocks op = None -> 1 <= sv_num_blocks s)
  end /\
  sv_attn_cache_bytes s = sv_cache_bytes_per_block s * sv_num_blocks s /\
  valid_info (sv_server_info s) = true /\ si_state (sv_server_info s) = JOINING /\
  quant_of (si_quant_type (sv_server_info s)) = Ok (sv_quant_type s).
Proof.
  intros H. destruct (server_initialised _ _ _ _ _ _ _ _ _ _ H) as (H1 & H2 & (d & -> & Hd) & H4 & H5 & (H6 & H7 & H8) & _).
  destruct (resolved_dtype_runs _ _ _ _ Hd). repeat (split; [done|]). split; [|by repeat split].
  destruct (sv_strict_block_indices s); [by destruct H4|done].
Qed.

(** ** One container at a time *)

Section lifecycle.
Context {PI : PeerIds} {PY : Pydantic} {RND : PyRandom} {TD : TorchDtypes} {module : Type}.

Definition no_start (evs : list event) : Prop := Forall (fun e => forall us, e <> StartAnnouncer us) evs.

(** Whenever an announcer starts, every block made before has been shut down. *)
Definition one_at_a_time (evs : list event) : Prop :=
  forall evs1 us evs2, evs = evs1 ++ StartAnnouncer us :: evs2 -> shut evs1 = made evs1.

Lemma one_at_a_time_tail evs : no_start (tail evs) -> one_at_a_time evs.
Proof.
  intros H evs1 us evs2 ->. destruct evs1 as [|e evs1]; [done|]. cbn [tail app] in H. apply Forall_app in H as [_ H].
  apply Forall_cons in H as [H _]. by destruct (H us).
Qed.

Lemma one_at_a_time_app evs evs' : no_start (tail evs) -> shut evs = made evs -> one_at_a_time evs' -> one_at_a_time (evs ++ evs').
Proof.
  intros Ht He H' evs1 us evs2 E. apply app_eq_inv in E as [(k & -> & Hk)|(k & -> & Hk)].
  - destruct k as [|e k].
    + rewrite app_nil_r in *. by rewrite He.
    + injection Hk as <- _. apply (one_at_a_time_tail _ Ht evs1 us k). done.
  - rewrite made_app, shut_app, He. f_equal. by apply (H' k us evs2).
Qed.

Lemma chosen_distinct s found ix :
  match sv_strict_block_indices s with Some l => NoDup l | None => True end -> _choose_blocks s found = Ok ix -> NoDup ix.
Proof.
  unfold _choose_blocks. destruct (sv_strict_block_indices s) as [l|]; intros H E; [by injection E as <-|].
  inv_ok. unfold choose_best_blocks in E. inv_ok. apply zrange_NoDup.
Qed.

Lemma closed_container (bd : builder module) args evs c alive :
  NoDup (ca_block_indices args) -> create bd args = (evs, Ok c) ->
  shut (evs ++ shutdown alive c) = made (evs ++ shutdown alive c) /\ no_start (tail (evs ++ shutdown alive c)).
Proof.
  intros Hnd H. pose proof (create_starts_once _ _ _ _ H) as Ht.
  destruct (container_built _ _ _ _ alive Hnd H) as (_ & Hs & _ & (before & He & _) & after & Ha & Hsa & _). split.
  - rewrite shut_app, made_app, Hs, Ha, shut_cons, made_cons, Hsa. cbn [app].
    assert (Hma : made after = []).
    { assert (Hn : made (shutdown alive c) = []); [|by rewrite Ha, made_cons in Hn].
      unfold shutdown. rewrite !made_app, !made_none by done. done. }
    by rewrite Hma, app_nil_r.
  - destruct evs as [|e evs]; [by destruct before|]. cbn [tail app] in *. apply Forall_app. split; [exact Ht|apply shutdown_starts_none].
Qed.

Lemma failed_container (bd : builder module) args evs e q :
  constructs bd -> NoDup (ca_block_indices args) -> ca_tensor_parallel_devices args <> [] -> quant_of (si_quant_type (ca_server_info args)) = Ok q ->
  create bd args = (evs, Err e) -> shut evs = made evs.
Proof.
  intros Hc Hnd Hd Hq H. destruct (create_failed _ _ _ _ _ Hc Hnd Hd Hq H) as [->|(before & -> & Hs & _)]; [done|].
  rewrite !shut_app, !made_app, Hs, shut_backends, made_none by done. cbn. by rewrite !app_nil_r.
Qed.

Lemma run_lifecycle fuel own quality handlers validate s rounds info evs o q :
  match sv_strict_block_indices s with Some l => NoDup l | None => True end -> sv_devices s <> [] ->
  quant_of (si_quant_type info) = Ok q ->
  server_run (module := module) fuel own quality handlers validate s info rounds = (evs, o) ->
  one_at_a_time evs /\ (o <> Unfinished -> Forall (fun r => constructs (rd_builder r)) rounds -> shut evs = made evs).
Proof.
  intros Hst Hdev. revert info evs o. induction rounds as [|r rest IH]; intros info evs o Hq H; cbn [server_run] in H.
  { injection H as <- <-. split; [by apply one_at_a_time_tail; constructor|done]. }
  destruct (_choose_blocks s (rd_found r)) as [ix|x] eqn:Ec.
  2: { injection H as <- <-. split; [by apply one_at_a_time_tail; constructor|done]. }
  set (args := container_args own handlers validate s info ix) in *.
  assert (Hnd : NoDup (ca_block_indices args)) by exact (chosen_distinct _ _ _ Hst Ec).
  assert (Hqa : quant_of (si_quant_type (ca_server_info args)) = Ok q) by exact Hq.
  assert (Hd : ca_tensor_parallel_devices args <> []).
  { cbn. intros E. apply (f_equal length) in E. rewrite zrange_length in E. destruct (sv_devices s); [done|]. unfold zlen in E. cbn [length] in E. lia. }
  destruct (create (rd_builder r) args) as [evs0 [c|x]] eqn:Ecr.
  2: { injection H as <- <-. split; [|intros _ [Hc _]%Forall_cons; exact (failed_container _ _ _ _ _ Hc Hnd Hd Hqa Ecr)].
       eapply one_at_a_time_tail, create_starts_once. exact Ecr. }
  destruct (closed_container _ _ _ _ (rd_pool_alive r) Hnd Ecr) as [Hs Ht]. pose proof (one_at_a_time_tail _ Ht) as H1.
  destruct (watch fuel own quality s c (rd_turns r)).
  - by injection H as <- <-.
  - destruct (server_run fuel own quality handlers validate s (ct_server_info c) rest) as [evs' o'] eqn:Er. injection H as <- <-.
    destruct (IH _ _ _ ltac:(rewrite (created_quant _ _ _ _ Ecr); exact Hq) Er) as [H2 H3].
    split; [by apply one_at_a_time_app|]. intros Ho [_ Hc]%Forall_cons. by rewrite shut_app, made_app, Hs, H3.
  - by injection H as <- <-.
  - injection H as <- <-. split; [|by intros []]. eapply one_at_a_time_tail, create_starts_once. exact Ecr.
Qed.
End lifecycle.

(** C15: A server holds one container at a time and leaves nothing behind: whatever the swarm, the loads and the
    crashes, a new container starts only when all blocks of the previous one are shut down, and when the server stops
    or fails everything that it made has been shut down - unless it failed in the constructor of a container, after the
    loads, where nothing cleans up ([constructor_leaks]). *)
Theorem server_run_releases {PI : PeerIds} {PY : Pydantic} {RND : PyRandom} {TD : TorchDtypes} {module : Type}
    ho cfg op md reach name repo file measured s fuel own quality handlers validate rounds evs o :
  server_init ho cfg op md reach name repo file measured = Ok s -> op_tensor_parallel_devices op <> Some [] ->
  server_run (module := module) fuel own quality handlers validate s (sv_server_info s) rounds = (evs, o) ->
  one_at_a_time evs /\ (o <> Unfinished -> Forall (fun r => constructs (rd_builder r)) rounds -> shut evs = made evs).
Proof.
  intros H Hop. destruct (server_initialised _ _ _ _ _ _ _ _ _ _ H) as (_ & _ & _ & H4 & _ & (_ & _ & Hq) & Hd).
  apply run_lifecycle with (q := sv_quant_type s); [|by apply Hd|exact Hq].
  destruct (sv_strict_block_indices s); [by destruct H4|done].
Qed.

(** ** Witnesses *)

Definition model_config : BlockConfig := mkBlockConfig announcer_config 4 DAuto "m".

Definition gpu_host : host := mkHost true false (fun _ => 16 * gib) 0 (fun _ => "A100") 1000000 0.

Definition gpu_options : server_options :=
  mkOptions None None "2.3" (inr f_one) (Some 2) None None None (Some 4) "float16" None None (Some NF4) [] f_one None (Some false).

Definition gpu_server : server :=
  match server_init gpu_host model_config gpu_options f_one None "m" None None [] with
  | Ok s => s
  | Err _ => mkServer model_config "" [] f_one f_one (mkDev "" None) torch_bool [] QNONE 0 0 0 None 0 0 nf4_info (mkModelInfo 0 None)
  end.

Lemma gpu_server_init : server_init gpu_host model_config gpu_options f_one None "m" None None [] = Ok gpu_server.
Proof. reflexivity. Qed.

Lemma server_init_wf_witness :
  valid_prefix (sv_dht_prefix gpu_server) = true /\
  sv_module_uids gpu_server = (fun i => make_uid (sv_dht_prefix gpu_server) i) <$> zrange 0 4 /\
  ~ (tdev_type (sv_device gpu_server) = "cpu" /\ sv_torch_dtype gpu_server = torch_float16) /\
  ~ (tdev_type (sv_device gpu_server) = "mps" /\ sv_torch_dtype gpu_server = torch_bfloat16) /\
  match sv_strict_block_indices gpu_server with
  | Some ix => sv_num_blocks gpu_server = zlen ix
  | None => sv_num_blocks gpu_server <= 4 /\ (op_num_blocks gpu_options = None -> 1 <= sv_num_blocks gpu_server)
  end /\
  sv_attn_cache_bytes gpu_server = sv_cache_bytes_per_block gpu_server * sv_num_blocks gpu_server /\
  valid_info (sv_server_info gpu_server) = true /\ si_state (sv_server_info gpu_server) = JOINING /\
  quant_of (si_quant_type (sv_server_info gpu_server)) = Ok (sv_quant_type gpu_server).
Proof. apply (server_init_wf gpu_host model_config gpu_options f_one None "m" None None [] gpu_server gpu_server_init). Defined.

(** Nobody serves anything yet; the first container breaks, the second is told to stop. *)
Definition two_rounds : list (round unit) :=
  [mkRound (fun _ => None) (plain_builder 9) [mkTurn false (fun _ => false) (fun _ => true) (fun _ => None) 0] (fun _ => true);
   mkRound (fun _ => None) (plain_builder 9) [mkTurn true (fun _ => true) (fun _ => true) (fun _ => None) 0] (fun _ => true)].

Definition two_round_run : list event * outcome :=
  server_run 5 own_peer f_one 2 false gpu_server (sv_server_info gpu_server) two_rounds.

Lemma server_run_releases_witness :
  one_at_a_time two_round_run.1 /\ (two_round_run.2 <> Unfinished -> shut two_round_run.1 = made two_round_run.1).
Proof.
  assert (Hc : Forall (fun r : round unit => constructs (rd_builder r)) two_rounds) by (by repeat constructor).
  enough (one_at_a_time two_round_run.1 /\ (two_round_run.2 <> Unfinished ->
    Forall (fun r : round unit => constructs (rd_builder r)) two_rounds -> shut two_round_run.1 = made two_round_run.1)) as [H1 H2] by eauto.
  apply (server_run_releases gpu_host model_config gpu_options f_one None "m" None None [] gpu_server 5 own_peer f_one 2 false two_rounds);
    [exact gpu_server_init|discriminate|by destruct two_round_run eqn:E].
Defined.

Example two_round_run_stops : two_round_run.2 = Stopped.
Proof. vm_compute. reflexivity. Qed.

Lemma example_blocks : Forall (block_of announcer_config torch_float16) [example_block 0; example_block 1].
Proof.
  assert (H : forall i, block_of announcer_config torch_float16 (example_block i)).
  { intros i. split; [done|]. split; [done|]. split; [apply (bool_decide_unpack _); reflexivity|]. split; [|done]. repeat constructor. lia. }
  constructor; [apply H|]. constructor; [apply H|constructor].
Qed.

Lemma announcer_config_ok : config_ok announcer_config.
Proof. unfold config_ok. cbn. lia. Qed.

Definition example_cache_descriptors (len : Z) : list (list TensorDescriptor) :=
  match _allocate_cache [example_block 0; example_block 1] 1 len with Ok d => d | Err _ => [] end.

Lemma attn_cache_suffices_witness : 64 <= 64 * 2.
Proof.
  apply (attn_cache_suffices (CM := SumModule) model_config torch_float16 4 64 [example_block 0; example_block 1] 1 2 (example_cache_descriptors 2) 64);
    [exact announcer_config_ok|reflexivity|exact example_blocks|lia|lia|lia|reflexivity|reflexivity].
Defined.

Definition announced_span : @RemoteSpanInfo ZPeerIds := mkSpan own_peer 0 2 (si_with_cache (server_info_of ONLINE) 20).

Definition free_cache : @MemoryCache (list (@slot SumModule)) := mc_init (Some 160) None.

Lemma advertised_cache_suffices_witness : 0 + 128 <= 160.
Proof.
  apply (advertised_cache_suffices (CM := SumModule) announcer_config torch_float16 "float16" 8 free_cache 20 announced_span 4
    [example_block 0; example_block 1] 1 4 (example_cache_descriptors 4) 128);
    [exact announcer_config_ok|reflexivity|reflexivity|reflexivity|reflexivity|reflexivity|exact example_blocks|reflexivity|lia|lia|lia
    |reflexivity|reflexivity].
Defined.
