(* ===== verification/Health.v ===== *)
(** * Health: [validator/health.py], [validator/data_structures.py], [validator/p2p_utils.py], [validator/state_updater.py]

    What a validator sees of the swarm: the models announced in the DHT, the spans of their servers, and one row per
    online server with its throughput and number of blocks; the thread that refreshes it. *)

From S2P Require Import Prelude PyString PyFloat PyDict Effects DataStructures Dht.

Section health.
Context {PI : PeerIds} {PY : Pydantic}.

(** ** Announced models *)

(** [validator.data_structures.ModelInfo] *)
Record ModelReport := mkModelReport {
  mr_num_blocks : Z;
  mr_repository : option string;
  mr_dht_prefix : option string;
  mr_official : bool;
  mr_limited : bool;
}.

(** [ModelInfo.from_dict]: [cls] applied to the keywords of the dictionary; the number of blocks is a strict positive integer. *)
Definition model_from_dict (source : pyval) : result ModelReport :=
  match source with
  | PDict d =>
      _ ← raise_if (existsb (fun kv => match fst kv with PStr _ => false | _ => true end) d) TypeError;
      n ← get_or TypeError (kwarg d "num_blocks");
      num_blocks ← match n with PInt z => if 1 <=? z then Ok z else Err ValueError | _ => Err ValueError end;
      repository ← field d "repository" (as_opt as_str) None;
      dht_prefix ← field d "dht_prefix" (as_opt as_str) None;
      official ← field d "official" as_bool true;
      limited ← field d "limited" as_bool false;
      Ok (mkModelReport num_blocks repository dht_prefix official limited)
  | _ => Err TypeError
  end.

Definition HUB : string := "https://huggingface.co/".

(** One round of the loop over the index: [None] when the model is left out. *)
Definition custom_model (entry : string * pyval) : result (option (string * ModelReport)) :=
  match model_from_dict (snd entry) with
  | Err TypeError | Err ValueError => Ok None
  | Err e => Err e
  | Ok m =>
      match mr_repository m with
      | None => Ok None
      | Some r =>
          if negb (String.prefix HUB r) then Ok None
          else Ok (Some (fst entry, mkModelReport (mr_num_blocks m) (mr_repository m) (Some (fst entry)) false (mr_limited m)))
      end
  end.

(** The order of [sorted] by [(-num_blocks, dht_prefix)]. *)
Definition model_lt (a b : string * ModelReport) : bool :=
  let '(p, m) := a in let '(q, n) := b in
  (- mr_num_blocks m <? - mr_num_blocks n) || ((mr_num_blocks m =? mr_num_blocks n) && String.ltb p q).

Definition announced_models (model_index : option DHTValue) : result (list (string * ModelReport)) :=
  match model_index with
  | Some (DictValue d) => custom_models ← mapR custom_model d; Ok (py_sorted model_lt (somes custom_models))
  | Some OtherValue | None => Ok []
  end.

(** ** Online servers *)

Record health_row := mkHealthRow {
  hr_peer_id : PeerID;
  hr_throughput : Z;
  hr_layers : Z;
}.

(** The uids of all blocks of all models. *)
Definition block_uids (models : list (string * ModelReport)) : list string :=
  models ≫= (fun m => make_uid m.1 <$> zrange 0 (mr_num_blocks m.2)).

(** The loop over the models: the servers seen so far and the offset of the next model. *)
Definition model_servers (module_infos : list RemoteModuleInfo) (st : list (PeerID * RemoteSpanInfo) * Z) (m : string * ModelReport)
    : result (list (PeerID * RemoteSpanInfo) * Z) :=
  let '(all_servers, offset) := st in
  spans ← compute_spans (zslice module_infos offset (offset + mr_num_blocks m.2)) OFFLINE;
  Ok (dupdate all_servers spans, offset + mr_num_blocks m.2).

Definition online_row (item : PeerID * RemoteSpanInfo) : result health_row :=
  let info := sp_server_info (snd item) in
  throughput ← f_round (si_throughput info);
  e ← get_or TypeError (si_end_block info);
  s ← get_or TypeError (si_start_block info);
  Ok (mkHealthRow (fst item) throughput (e - s)).

Definition online_servers (all_servers : list (PeerID * RemoteSpanInfo)) : result (list health_row) :=
  mapR online_row (filter (fun item => sp_state item.2 = ONLINE) all_servers).

(** ** Reachability of the initial peers *)

(** What connecting to a peer gives. *)
Inductive dial := Reached | TimedOut | Refused (message : string).

(** [rpc_info]: [{"ok": True}] or an error message. *)
Record rpc_info := mkRpcInfo { ri_ok : bool; ri_error : option string }.

Section reachability.
Context (connect : PeerID -> dial).

(** [info_cache]: an entry and when it expires. *)
Abbreviation cache := (list (PeerID * (rpc_info * Z))).

Definition TIMEOUT_MESSAGE : string := "Failed to connect in 5 sec. Firewall may be blocking connections".

(** [check_reachability] without [fetch_info]; [t] is the time of the call. *)
Definition check_reachability (t : Z) (peer_id : PeerID) : prog cache rpc_info :=
  entry ← reads (fun c => match dget c peer_id with Some (i, expires) => if t <? expires then Some i else None | None => None end);
  match entry with
  | Some i => ret i
  | None =>
      let stored := match connect peer_id with
                    | Reached => inl (mkRpcInfo true None)
                    | Refused "protocol not supported" => inr (mkRpcInfo true None)
                    | Refused message => inl (mkRpcInfo false (Some message))
                    | TimedOut => inl (mkRpcInfo false (Some TIMEOUT_MESSAGE))
                    end in
      match stored with
      | inl i => _ ← writes (fun c => dset c peer_id (i, t + 300)); ret i
      | inr i => ret i
      end
  end.

(** [check_reachability_parallel] of distinct peers: their checks do not share entries of the cache. *)
Fixpoint gather_reachability (t : Z) (peer_ids : list PeerID) : prog cache (list rpc_info) :=
  match peer_ids with
  | [] => ret []
  | p :: ps => i ← check_reachability t p; rest ← gather_reachability t ps; ret (i :: rest)
  end.

Definition check_reachability_parallel (t : Z) (peer_ids : list PeerID) : prog cache (list (PeerID * rpc_info)) :=
  rpc_infos ← gather_reachability t peer_ids;
  ret (dupdate [] (zip peer_ids rpc_infos)).
End reachability.

(** The bootstrap peers of the multiaddresses, each once; [p2p_of] is [Multiaddr(addr)["p2p"]]. *)
Definition bootstrap_peers (p2p_of : string -> result string) (initial_peers : list string) : result (list PeerID) :=
  foldR (fun ids addr =>
           s ← p2p_of addr;
           peer_id ← get_or ValueError (from_base58 s);
           Ok (if bool_decide (peer_id ∈ ids) then ids else ids ++ [peer_id])) [] initial_peers.

(** ** The health state *)

(** [found] is what the DHT holds under the uids, [model_index] under ["_peerz.models"]; [reach] the check of the
    bootstrap peers, whose result is not used. *)
Definition fetch_health_state (p2p_of : string -> result string) (reach : list PeerID -> result unit)
    (model_index : option DHTValue) (found : string -> option DHTValue) (initial_peers : list string) : result (list health_row) :=
  bootstrap_peer_ids ← bootstrap_peers p2p_of initial_peers;
  _ ← reach bootstrap_peer_ids;
  models ← announced_models model_index;
  module_infos ← get_remote_module_infos found (block_uids models) None true;
  '(all_servers, _) ← foldR (model_servers module_infos) ([], 0) models;
  online_servers all_servers.

(** ** The updater thread *)

Record StateUpdaterThread := mkUpdater {
  up_state : option (list health_row);      (* unset before the first fetch *)
  up_ready : bool;
}.

Definition updater_init : StateUpdaterThread := mkUpdater None false.

(** One round of [run]; exceptions are logged. *)
Definition update_state (fetched : result (list health_row)) (u : StateUpdaterThread) : StateUpdaterThread :=
  match fetched with Ok state => mkUpdater (Some state) true | Err _ => u end.

(** [run] for the given results of the fetches. *)
Definition updater_run (rounds : list (result (list health_row))) : StateUpdaterThread :=
  fold_left (fun u r => update_state r u) rounds updater_init.

Definition is_healthy (u : StateUpdaterThread) : bool := up_ready u.
Definition updater_shutdown (u : StateUpdaterThread) : StateUpdaterThread := mkUpdater (up_state u) false.

(** The delay before the next round. *)
Definition update_delay (period elapsed : Z) : Z := Z.max (period - elapsed) 0.

(** ** The windows of the models *)

(** The module found under a uid: a fetch never fails. *)
Definition module_of (found : string -> option DHTValue) (uid : string) : RemoteModuleInfo :=
  from_ok (mkModuleInfo uid []) (fetch_module found None uid).

Definition infos_of (found : string -> option DHTValue) (m : string * ModelReport) : list RemoteModuleInfo :=
  (fun i => module_of found (make_uid m.1 i)) <$> zrange 0 (mr_num_blocks m.2).

Lemma module_of_ok found uid : fetch_module found None uid = Ok (module_of found uid).
Proof. unfold module_of. by destruct (fetch_module_ok found None uid) as (m & -> & _). Qed.

Lemma fetched_modules found uids : get_remote_module_infos found uids None true = Ok (module_of found <$> uids).
Proof.
  unfold get_remote_module_infos, _get_remote_module_infos. cbn [assert_ mbind result_bind].
  induction uids as [|u uids IH]; [done|]. cbn [mapR]. by rewrite module_of_ok, IH.
Qed.

Definition add_model (found : string -> option DHTValue) (all_servers : list (PeerID * RemoteSpanInfo)) (m : string * ModelReport)
    : result (list (PeerID * RemoteSpanInfo)) :=
  spans ← compute_spans (infos_of found m) OFFLINE;
  Ok (dupdate all_servers spans).

(** Every model reads its own window of the modules. *)
Lemma model_windows found models : Forall (fun m : string * ModelReport => 0 <= mr_num_blocks m.2) models -> forall pre acc,
  foldR (model_servers (module_of found <$> (pre ++ block_uids models))) (acc, zlen pre) models =
  (acc' ← foldR (add_model found) acc models; Ok (acc', zlen pre + zlen (block_uids models))).
Proof.
  induction 1 as [|m models Hm _ IH]; intros pre acc.
  - cbn. by rewrite Z.add_0_r.
  - cbn [foldR]. unfold model_servers at 1, add_model at 1.
    assert (Hlen : zlen (make_uid m.1 <$> zrange 0 (mr_num_blocks m.2)) = mr_num_blocks m.2).
    { unfold zlen. rewrite length_fmap, zrange_length. lia. }
    assert (Hw : zslice (module_of found <$> (pre ++ block_uids (m :: models))) (zlen pre) (zlen pre + mr_num_blocks m.2) = infos_of found m).
    { unfold block_uids. cbn [mbind list_bind]. fold (block_uids models). rewrite zslice_nonneg by (pose proof (zlen_nonneg pre); lia).
      unfold zlen in *. rewrite Nat2Z.id. replace (Z.to_nat (Z.of_nat (length pre) + mr_num_blocks m.2 - Z.of_nat (length pre)))
        with (length (make_uid m.1 <$> zrange 0 (mr_num_blocks m.2))) by lia.
      rewrite !fmap_app, drop_app_length' by by rewrite length_fmap. rewrite take_app_length' by by rewrite !length_fmap.
      unfold infos_of. by rewrite <- list_fmap_compose. }
    rewrite Hw. destruct (compute_spans (infos_of found m) OFFLINE) as [spans|e]; [|done]. cbn [mbind result_bind].
    replace (zlen pre + mr_num_blocks m.2) with (zlen (pre ++ (make_uid m.1 <$> zrange 0 (mr_num_blocks m.2))))
      by (unfold zlen in *; rewrite length_app; lia).
    unfold block_uids. cbn [mbind list_bind]. fold (block_uids models). rewrite app_assoc, IH.
    destruct (foldR (add_model found) (dupdate acc spans) models); [|done]. cbn [mbind result_bind]. do 2 f_equal.
    unfold zlen. rewrite !length_app. lia.
Qed.

(** ** What a span says of its peer *)

(** The span of a peer carries one of its announcements, in the best state that it announced. *)
Definition best_of (evs : list (Z * (PeerID * ServerInfo))) (spans : list (PeerID * RemoteSpanInfo)) : Prop := forall p,
  match dget spans p with
  | Some sp =>
      (exists i, (i, (p, sp_server_info sp)) ∈ evs) /\
      forall i info, (i, (p, info)) ∈ evs -> state_value (si_state info) <= state_value (sp_state sp)
  | None => forall i info, (i, (p, info)) ∉ evs
  end.

Lemma fresh_span_info off n i p info : sp_server_info (fresh_span off n i p info) = info.
Proof. unfold fresh_span. by destruct (si_start_block info), (si_end_block info). Qed.

Lemma span_step_best off n evs spans ev :
  best_of evs spans -> best_of (evs ++ [ev]) (span_step off n OFFLINE spans ev).
Proof.
  destruct ev as [i [q info]]. intros Hb p. specialize (Hb p).
  destruct (decide (q = p)) as [->|Hne].
  2:{ rewrite span_step_other by done. destruct (dget spans p) as [sp|].
      - destruct Hb as [[j Hj] Hmax]. split; [exists j; by apply elem_of_app; left|].
        intros k info' [Hk|Hk]%elem_of_app; [by apply Hmax in Hk|]. apply list_elem_of_singleton in Hk. by injection Hk.
      - intros k info' [Hk|Hk]%elem_of_app; [by apply Hb in Hk|]. apply list_elem_of_singleton in Hk. by injection Hk. }
  assert (Hnew : forall sp, sp_server_info sp = info -> (forall j info', (j, (p, info')) ∈ evs -> state_value (si_state info') <= state_value (si_state info)) ->
    (exists j, (j, (p, sp_server_info sp)) ∈ evs ++ [(i, (p, info))]) /\
    forall j info', (j, (p, info')) ∈ evs ++ [(i, (p, info))] -> state_value (si_state info') <= state_value (sp_state sp)).
  { intros sp Hsp Hle. unfold sp_state. rewrite Hsp. split; [exists i; apply elem_of_app; right; by apply list_elem_of_singleton|].
    intros j info' [Hj|Hj]%elem_of_app; [by eapply Hle|]. apply list_elem_of_singleton in Hj. injection Hj as -> ->. lia. }
  cbn [span_step]. destruct (Z.ltb_spec (state_value (si_state info)) (state_value OFFLINE)) as [Hlt|_]; [by destruct (si_state info); cbn in Hlt; lia|].
  destruct (dget spans p) as [sp|] eqn:Ed.
  2:{ rewrite dget_dset_eq. apply Hnew; [apply fresh_span_info|]. intros j info' Hj. by apply Hb in Hj. }
  destruct Hb as [[j Hj] Hmax]. destruct (Z.ltb_spec (state_value (sp_state sp)) (state_value (si_state info))).
  - rewrite dget_dset_eq. apply Hnew; [apply fresh_span_info|]. intros k info' Hk. apply Hmax in Hk. lia.
  - assert (Hold : forall sp', sp_server_info sp' = sp_server_info sp ->
      (exists j, (j, (p, sp_server_info sp')) ∈ evs ++ [(i, (p, info))]) /\
      forall k info', (k, (p, info')) ∈ evs ++ [(i, (p, info))] -> state_value (si_state info') <= state_value (sp_state sp')).
    { intros sp' Hsp'. unfold sp_state. rewrite Hsp'. split; [exists j; apply elem_of_app; by left|].
      intros k info' [Hk|Hk]%elem_of_app; [by apply Hmax in Hk|]. apply list_elem_of_singleton in Hk. injection Hk as -> ->. done. }
    destruct (decide _); [rewrite dget_dset_eq|rewrite Ed]; by apply Hold.
Qed.

Lemma computed_best infos spans : compute_spans infos OFFLINE = Ok spans -> best_of (span_events infos) spans.
Proof.
  intros H. apply compute_spans_offset in H as (off & _ & ->). generalize (span_events infos). intros evs.
  assert (Hgen : forall done spans, best_of done spans ->
    best_of (done ++ evs) (fold_left (span_step off (zlen infos) OFFLINE) evs spans)).
  { induction evs as [|ev evs IH]; intros dn sp Hb; [by rewrite app_nil_r|]. cbn [fold_left].
    rewrite cons_middle, app_assoc. apply IH. by apply span_step_best. }
  apply (Hgen [] []). intros p. cbn. by intros ?? ?%elem_of_nil.
Qed.

(** ** The rows *)

(** A server [p] announces [info] under a block of the model. *)
Definition announces (found : string -> option DHTValue) (m : string * ModelReport) (p : PeerID) (info : ServerInfo) : Prop :=
  exists i, 0 <= i < mr_num_blocks m.2 /\ (p, info) ∈ rm_servers (module_of found (make_uid m.1 i)).

Lemma events_announce found m p info :
  (exists i, (i, (p, info)) ∈ span_events (infos_of found m)) <-> announces found m p info.
Proof.
  unfold announces, infos_of, zrange. split.
  - intros [i Hi]. apply elem_of_span_events in Hi as (mi & Hi & Hm & Hin). exists i. apply list_lookup_fmap_Some in Hm as (j & -> & Hj).
    apply lookup_seqZ in Hj as [-> Hj]. rewrite Z.add_0_l, Z2Nat.id in * by lia. split; [lia|done].
  - intros (i & Hi & Hin). exists i. apply elem_of_span_events. exists (module_of found (make_uid m.1 i)). split; [lia|]. split; [|done].
    rewrite list_lookup_fmap. rewrite lookup_seqZ_lt by lia. cbn. do 3 f_equal. lia.
Qed.

(** The servers of several models: the span of a peer belongs to one of the models that it serves. *)
Definition merged (found : string -> option DHTValue) (models : list (string * ModelReport)) (all : list (PeerID * RemoteSpanInfo)) : Prop :=
  dict_wf all /\ forall p,
  match dget all p with
  | Some sp => exists m, m ∈ models /\ announces found m p (sp_server_info sp) /\
      forall info, announces found m p info -> state_value (si_state info) <= state_value (sp_state sp)
  | None => forall m info, m ∈ models -> ~ announces found m p info
  end.

Lemma add_model_merged found models all m all' :
  merged found models all -> add_model found all m = Ok all' -> merged found (models ++ [m]) all'.
Proof.
  intros [Hwf Hall] H. unfold add_model in H. destruct (compute_spans (infos_of found m) OFFLINE) as [spans|] eqn:Es; [|done].
  injection H as <-. pose proof (computed_best _ _ Es) as Hb. pose proof (computed_spans_ok _ _ _ Es) as [Hswf _].
  split; [by apply dict_wf_dupdate|]. intros p. rewrite dget_dupdate by done. specialize (Hb p). specialize (Hall p).
  destruct (dget spans p) as [sp|].
  - destruct Hb as [Hev Hmax]. exists m. split; [apply elem_of_app; right; by apply list_elem_of_singleton|].
    split; [by apply events_announce|]. intros info [i Hi]%events_announce. by apply (Hmax i).
  - assert (Hno : forall info, ~ announces found m p info) by (intros info [i Hi]%events_announce; by apply Hb in Hi).
    destruct (dget all p) as [sp|].
    + destruct Hall as (m' & Hm' & Ha). exists m'. split; [apply elem_of_app; by left|done].
    + intros m' info [Hm'|Hm']%elem_of_app; [by apply Hall|]. apply list_elem_of_singleton in Hm' as ->. apply Hno.
Qed.

Lemma models_merged found models all : foldR (add_model found) [] models = Ok all -> merged found models all.
Proof.
  assert (Hgen : forall pre acc, merged found pre acc -> foldR (add_model found) acc models = Ok all -> merged found (pre ++ models) all).
  { induction models as [|m models IH]; intros pre acc Hm H; [injection H as <-; by rewrite app_nil_r|]. cbn [foldR] in H.
    destruct (add_model found acc m) as [acc'|] eqn:E; [|done]. rewrite cons_middle, app_assoc. apply (IH _ acc'); [|done].
    by apply (add_model_merged _ _ acc). }
  apply (Hgen [] []). split; [apply dict_wf_nil|]. intros p. cbn. by intros ?? ?%elem_of_nil.
Qed.

(** Accepted models have a block. *)
Lemma custom_model_blocks entry m : custom_model entry = Ok (Some m) -> 1 <= mr_num_blocks m.2 /\ m.1 = entry.1.
Proof.
  unfold custom_model. destruct (model_from_dict entry.2) as [r|e] eqn:E; [|by destruct e]. destruct (mr_repository r) as [s|]; [|done].
  destruct (negb _); [done|]. intros [= <-]. cbn. split; [|done].
  unfold model_from_dict in E. destruct entry.2; try done. inv_ok. cbn. destruct a0; try done. case_if; [|done]. inv_ok. by zbool.
Qed.

Lemma announced_models_blocks idx models : announced_models idx = Ok models -> Forall (fun m : string * ModelReport => 1 <= mr_num_blocks m.2) models.
Proof.
  destruct idx as [[d|]|]; cbn; [|by intros [= <-]..]. destruct (mapR custom_model d) as [l|] eqn:E; [|done]. intros [= <-].
  apply Forall_forall. intros m Hm. apply elem_of_py_sorted in Hm. apply mapR_Forall2 in E.
  assert (exists entry, custom_model entry = Ok (Some m)) as [entry He].
  { clear -E Hm. induction E as [|x [y|] d l Hx _ IH]; [by apply elem_of_nil in Hm| |by apply IH].
    apply elem_of_cons in Hm as [->|Hm]; [by exists x|by apply IH]. }
  by apply custom_model_blocks in He as [? _].
Qed.

Lemma fetch_all_servers p2p_of reach idx found peers models ids :
  bootstrap_peers p2p_of peers = Ok ids -> reach ids = Ok () -> announced_models idx = Ok models ->
  fetch_health_state p2p_of reach idx found peers = (all ← foldR (add_model found) [] models; online_servers all).
Proof.
  intros Hb Hr Hm. unfold fetch_health_state. rewrite Hb. cbn [mbind result_bind]. rewrite Hr. cbn [mbind result_bind].
  rewrite Hm. cbn [mbind result_bind]. rewrite fetched_modules. cbn [mbind result_bind].
  pose proof (model_windows found models) as Hw. rewrite <- (app_nil_l (block_uids models)). change 0 with (zlen (@nil string)). rewrite Hw.
  - by destruct (foldR (add_model found) [] models).
  - apply announced_models_blocks in Hm. eapply Forall_impl; [exact Hm|]. intros m Hm1. cbn in *. lia.
Qed.

Lemma fetch_stages p2p_of reach idx found peers rows :
  fetch_health_state p2p_of reach idx found peers = Ok rows ->
  exists models all, announced_models idx = Ok models /\ foldR (add_model found) [] models = Ok all /\ online_servers all = Ok rows.
Proof.
  intros H. pose proof H as H'. unfold fetch_health_state in H'. destruct (bootstrap_peers p2p_of peers) as [ids|] eqn:Hb; [|done].
  cbn [mbind result_bind] in H'. destruct (reach ids) as [[]|] eqn:Hr; [|done]. cbn [mbind result_bind] in H'.
  destruct (announced_models idx) as [models|] eqn:Hm; [|done]. clear H'.
  rewrite (fetch_all_servers _ _ _ _ _ models ids) in H by done. destruct (foldR (add_model found) [] models) as [all|] eqn:Ha; [|done].
  by exists models, all.
Qed.

Lemma online_rows all rows : online_servers all = Ok rows ->
  Forall2 (fun item row => online_row item = Ok row) (filter (fun item => sp_state item.2 = ONLINE) all) rows.
Proof. apply mapR_Forall2. Qed.

Lemma online_row_peer item row : online_row item = Ok row -> hr_peer_id row = item.1.
Proof. unfold online_row. intros H. by inv_ok. Qed.

(** C25: the rows of the health state are the online servers of the announced models, one row per peer: each with the
    throughput and the number of blocks that the server announced, and no server of a single model is left out. *)
Theorem fetch_health_state_correct p2p_of reach idx found peers rows models :
  fetch_health_state p2p_of reach idx found peers = Ok rows -> announced_models idx = Ok models ->
  NoDup (map hr_peer_id rows) /\
  (forall row, row ∈ rows -> exists m info s e, m ∈ models /\ announces found m (hr_peer_id row) info /\ si_state info = ONLINE /\
     si_start_block info = Some s /\ si_end_block info = Some e /\ hr_layers row = e - s /\
     f_round (si_throughput info) = Ok (hr_throughput row)) /\
  (forall m p info, m ∈ models -> announces found m p info -> si_state info = ONLINE ->
     (forall m' info', m' ∈ models -> announces found m' p info' -> m' = m) -> p ∈ map hr_peer_id rows).
Proof.
  intros H Hm. apply fetch_stages in H as (models' & all & Hm' & Ha & Ho). rewrite Hm in Hm'. injection Hm' as <-.
  pose proof (models_merged _ _ _ Ha) as [Hwf Hall]. pose proof (online_rows _ _ Ho) as Hf. clear Ho.
  assert (Hpeers : map hr_peer_id rows = dkeys (filter (fun item => sp_state item.2 = ONLINE) all)).
  { clear -Hf. induction Hf as [|item row l rows Hrow _ IH]; [done|]. cbn. f_equal; [by apply online_row_peer|exact IH]. }
  split; [|split].
  - rewrite Hpeers. by apply dict_wf_filter.
  - intros row Hrow. apply list_elem_of_lookup in Hrow as [i Hrow]. destruct (Forall2_lookup_r _ _ _ _ _ Hf Hrow) as ([p sp] & Hi & He).
    apply list_elem_of_lookup_2, list_elem_of_filter in Hi as [Hst Hin]. apply (elem_dget _ _ _ Hwf) in Hin.
    specialize (Hall p). rewrite Hin in Hall. destruct Hall as (m & Hmm & Han & _). cbn in Hst.
    unfold online_row in He. cbn [fst snd] in He. destruct (f_round _) as [thr|] eqn:Ef; [|done]. cbn [mbind result_bind] in He.
    destruct (si_end_block (sp_server_info sp)) as [e|] eqn:Ee; [|done]. destruct (si_start_block (sp_server_info sp)) as [s|] eqn:Es; [|done].
    injection He as <-. exists m, (sp_server_info sp), s, e. done.
  - intros m p info Hmm Han Hon Huniq. specialize (Hall p). destruct (dget all p) as [sp|] eqn:Ed; [|by apply Hall in Han].
    destruct Hall as (m' & Hm' & Han' & Hmax). rewrite (Huniq _ _ Hm' Han') in Hmax.
    rewrite Hpeers. apply list_elem_of_fmap. exists (p, sp). split; [done|]. apply list_elem_of_filter. split; [|by apply dget_elem].
    specialize (Hmax _ Han). cbn. rewrite Hon in Hmax. destruct (sp_state sp); cbn in Hmax; [lia|lia|done].
Qed.

(** ** Announcements that stop the validators *)

Lemma split_on_count c s : zlen (split_on c s) = str_count c s + 1.
Proof.
  induction s as [|a s IH]; [done|]. cbn [split_on str_count]. destruct (Ascii.eqb a c).
  - unfold zlen in *. cbn [length]. lia.
  - destruct (split_on c s) as [|x l] eqn:E; [by apply split_on_nonnil in E|]. unfold zlen in *. cbn [length] in *. lia.
Qed.

Lemma parse_bad_uid prefix i : valid_prefix prefix = false -> is_ok (parse_uid (make_uid prefix i)) = false.
Proof.
  intros Hv. unfold parse_uid, make_uid. destruct (str_contains CHAIN_DELIMITER (prefix +:+ String UID_DELIMITER (str_of_Z i))) eqn:Ec; [done|].
  cbn [negb assert_ mbind result_bind].
  assert (Hdot : str_contains UID_DELIMITER prefix = true).
  { unfold valid_prefix in Hv. apply andb_false_iff in Hv as [Hv|Hv]; apply negb_false_iff in Hv; [done|].
    rewrite str_contains_app, Hv in Ec. done. }
  assert (Hlen : 3 <= zlen (split_on UID_DELIMITER (prefix +:+ String UID_DELIMITER (str_of_Z i)))).
  { rewrite split_on_count, str_count_app. cbn [str_count]. rewrite (proj2 (Ascii.eqb_eq _ _) eq_refl).
    assert (Hone : forall s, str_contains UID_DELIMITER s = true -> 1 <= str_count UID_DELIMITER s).
    { intros s. induction s as [|a s IH]; [done|]. cbn. destruct (Ascii.eqb a UID_DELIMITER); [|done]. intros _.
      assert (Hnn : forall s, 0 <= str_count UID_DELIMITER s) by (clear; induction s as [|a s IH]; cbn; [lia|destruct (Ascii.eqb _ _); lia]).
      specialize (Hnn s). lia. }
    specialize (Hone _ Hdot).
    assert (Hnn : 0 <= str_count UID_DELIMITER (str_of_Z i)) by (rewrite str_count_none; [done|by apply str_of_Z_no_sep]). lia. }
  destruct (split_on _ _) as [|x [|y [|z l]]]; cbn in Hlen |- *; done.
Qed.

Lemma module_of_uid found uid : rm_uid (module_of found uid) = uid.
Proof. unfold module_of. by destruct (fetch_module_ok found None uid) as (m & -> & Hm & _). Qed.

Lemma add_model_prefix found acc m acc' : 1 <= mr_num_blocks m.2 -> add_model found acc m = Ok acc' -> valid_prefix m.1 = true.
Proof.
  intros Hn H. unfold add_model, compute_spans, infos_of in H. rewrite zrange_cons in H by lia. rewrite fmap_cons in H.
  cbn [block_offset] in H. rewrite module_of_uid in H. pose proof (parse_bad_uid m.1 0) as Hbad.
  destruct (valid_prefix m.1); [done|]. specialize (Hbad eq_refl). destruct (parse_uid _); [done|]. done.
Qed.

(** one announced model whose prefix holds a dot or a space, which any peer can store, makes every fetch of the
    health state fail, whatever else the DHT holds: the uids of such a model cannot be parsed, and only the decoding of
    the model records is protected against errors. *)
Theorem health_blocked p2p_of reach d found peers entry m :
  entry ∈ d -> custom_model entry = Ok (Some m) -> valid_prefix entry.1 = false ->
  is_ok (fetch_health_state p2p_of reach (Some (DictValue d)) found peers) = false.
Proof.
  intros Hin Hm Hv. destruct (fetch_health_state _ _ _ _ _) as [rows|] eqn:H; [|done]. exfalso.
  apply fetch_stages in H as (models & all & Hmodels & Ha & _). pose proof (announced_models_blocks _ _ Hmodels) as Hblocks.
  destruct (custom_model_blocks _ _ Hm) as [Hn Hname].
  assert (Hmm : m ∈ models).
  { cbn in Hmodels. destruct (mapR custom_model d) as [l|] eqn:El; [|done]. injection Hmodels as <-. apply elem_of_py_sorted.
    apply mapR_Forall2 in El. apply list_elem_of_lookup in Hin as [i Hi]. destruct (Forall2_lookup_l _ _ _ _ _ El Hi) as (o & Ho & He).
    rewrite Hm in He. injection He as <-. apply list_elem_of_lookup_2 in Ho. clear -Ho.
    induction l as [|[y|] l IH]; [by apply elem_of_nil in Ho| |]; apply elem_of_cons in Ho as [Ho|Ho]; cbn [somes]; try done.
    - injection Ho as ->. by left.
    - right. by apply IH.
    - by apply IH. }
  assert (Hall : forall acc, foldR (add_model found) acc models = Ok all -> valid_prefix m.1 = true).
  { clear -Hmm Hn. induction models as [|x models IH]; intros acc H; [by apply elem_of_nil in Hmm|]. cbn [foldR] in H.
    destruct (add_model found acc x) as [acc'|] eqn:E; [|done]. apply elem_of_cons in Hmm as [->|Hmm]; [by eapply add_model_prefix|by apply (IH Hmm acc')]. }
  specialize (Hall [] Ha). rewrite Hname in Hall. congruence.
Qed.

(** What a server that serves a model of the hub announces is accepted by the validators. *)
Lemma announced_model_accepted prefix n name : 1 <= n ->
  custom_model (prefix, model_to_dict (DataStructures.mkModelInfo n (Some (HUB +:+ name)))) =
  Ok (Some (prefix, mkModelReport n (Some (HUB +:+ name)) (Some prefix) false false)).
Proof.
  intros Hn. unfold custom_model, model_from_dict, model_to_dict, field. cbn [snd fst mi_num_blocks mi_repository]. set (r := HUB +:+ name).
  set (d := [(PStr "num_blocks", PInt n); (PStr "repository", PStr r)]).
  assert (kwarg d "num_blocks" = Some (PInt n) /\ kwarg d "repository" = Some (PStr r) /\ kwarg d "dht_prefix" = None /\
    kwarg d "official" = None /\ kwarg d "limited" = None) as (-> & -> & -> & -> & ->) by done.
  cbn [existsb d fst orb raise_if get_or mbind result_bind]. destruct (Z.leb_spec 1 n); [|lia]. cbn [mbind result_bind as_opt].
  unfold as_str. rewrite coerce_str_str. cbn [get_or mbind result_bind mr_repository mr_num_blocks mr_limited].
  unfold r. by rewrite prefix_of_app.
Qed.

(** The state is the last one that was fetched; the updater is healthy once a fetch has succeeded. *)
Lemma updater_state rounds :
  up_state (updater_run rounds) = last (somes ((fun r => match r with Ok s => Some s | Err _ => None end) <$> rounds)) /\
  up_ready (updater_run rounds) = existsb is_ok rounds.
Proof.
  induction rounds as [|r rounds IH] using rev_ind; [done|]. unfold updater_run in *. rewrite fold_left_app. cbn [fold_left].
  rewrite fmap_app, existsb_app. destruct IH as [IH1 IH2].
  assert (Hs : forall l, somes (l ++ [match r with Ok s => Some s | Err _ => None end]) = somes l ++ match r with Ok s => [s] | Err _ => [] end).
  { intros l. induction l as [|[y|] l IHl]; cbn; [by destruct r| |done]. by rewrite IHl. }
  cbn [fmap list_fmap]. rewrite Hs. destruct r as [s|e]; cbn [update_state up_state up_ready existsb is_ok].
  - by rewrite last_snoc, orb_true_r.
  - by rewrite app_nil_r, orb_false_r.
Qed.
End health.

(** ** An example

    A swarm with one model of three blocks, the servers 7 (online) and 8 (joining), and one model that is no model. *)

#[local] Existing Instance ZPeerIds.

Definition hub_model (n : Z) : pyval := model_to_dict (DataStructures.mkModelInfo n (Some (HUB +:+ "org/model"))).

Definition example_index : list (string * pyval) := [("model", hub_model 3); ("broken", PInt 5)].

Definition example_found (uid : string) : option DHTValue :=
  if bool_decide (uid ∈ ["model.0"; "model.1"]) then Some (DictValue [("7", PList (to_tuple (swarm_info ONLINE 0 2)))])
  else if bool_decide (uid = "model.2") then Some (DictValue [("8", PList (to_tuple (swarm_info JOINING 2 3))); ("9", PNone)])
  else None.

Definition example_fetch (index : list (string * pyval)) : result (list health_row) :=
  fetch_health_state (fun s => Ok s) (fun _ => Ok ()) (Some (DictValue index)) example_found ["1"; "1"].

Lemma fetch_health_state_correct_witness :
  let rows := [mkHealthRow 7 10 2] in let m := ("model", mkModelReport 3 (Some (HUB +:+ "org/model")) (Some "model") false false) in
  example_fetch example_index = Ok rows /\
  NoDup (map hr_peer_id rows) /\
  (forall row, row ∈ rows -> exists m' info s e, m' ∈ [m] /\ announces example_found m' (hr_peer_id row) info /\ si_state info = ONLINE /\
     si_start_block info = Some s /\ si_end_block info = Some e /\ hr_layers row = e - s /\
     f_round (si_throughput info) = Ok (hr_throughput row)) /\
  (forall m' p info, m' ∈ [m] -> announces example_found m' p info -> si_state info = ONLINE ->
     (forall m'' info', m'' ∈ [m] -> announces example_found m'' p info' -> m'' = m') -> p ∈ map hr_peer_id rows).
Proof.
  intros rows m. assert (H : example_fetch example_index = Ok rows) by (vm_compute; reflexivity). split; [exact H|].
  apply (fetch_health_state_correct _ _ _ _ _ _ _ H). vm_compute. reflexivity.
Defined.

(** Someone adds a model under the prefix ["a.b"]. *)
Lemma health_blocked_witness :
  is_ok (example_fetch (example_index ++ [("a.b", hub_model 1)])) = false.
Proof.
  apply (health_blocked _ _ _ _ _ ("a.b", hub_model 1) ("a.b", mkModelReport 1 (Some (HUB +:+ "org/model")) (Some "a.b") false false)).
  - right. right. left.
  - vm_compute. reflexivity.
  - vm_compute. reflexivity.
Defined.
