(* ===== verification/Metrics.v ===== *)
(** * Metrics: [validator/metrics.py]

    The report of a swarm in the format of Prometheus: one line per metric, from the rows of the servers of every model.
    Formatting of numbers and numpy's statistics are parameters. *)

From S2P Require Import Prelude PyString PyFloat PyDict DataStructures.

(** What numpy and Python's formatting give: sums, means and percentiles of an array, and numbers as text. *)
Class Numpy := {
  np_sum : list pyfloat -> pyfloat;
  np_mean : list pyfloat -> pyfloat;
  np_percentile : list pyfloat -> Z -> pyfloat;
  fixed_point : Z -> pyfloat -> string;              (* f"{x:.3f}" *)
  np_str : pyfloat -> string;                        (* f"{x}" of a numpy float *)
}.

(** One server of a model: [server["state"]], and [server["span"]] with its [server_info]. *)
Record server_row := mkRow {
  row_state : string;
  row_start : Z;
  row_end : Z;
  row_info : option ServerInfo;
}.

Record model_reports := mkReports {
  mp_dht_prefix : string;
  mp_num_blocks : Z;
  mp_server_rows : list server_row;
}.

Section metrics.
Context {NP : Numpy}.

(** ** Servers *)

Record server_totals := mkTotals {
  servers_num_total : Z;
  servers_num_relay : Z;
  num_peers : Z;
  pings : list pyfloat;
  num_ping_infs : Z;
  version_counts : list (string * Z);
}.

Definition totals_init : server_totals := mkTotals 0 0 0 [] 0 [].

Definition count_pings (t : server_totals) (next_pings : list (string * pyfloat)) : server_totals :=
  let values := dvalues next_pings in
  mkTotals (servers_num_total t + 1) (servers_num_relay t) (num_peers t + zlen next_pings)
    (pings t ++ List.filter (fun v => negb (f_eq v f_inf)) values)
    (num_ping_infs t + zlen (List.filter (fun v => f_eq v f_inf) values)) (version_counts t).

Definition count_relay (t : server_totals) : server_totals :=
  mkTotals (servers_num_total t) (servers_num_relay t + 1) (num_peers t) (pings t) (num_ping_infs t) (version_counts t).

(** [version_counts[version] += 1] of a [Counter] *)
Definition count_version (t : server_totals) (version : string) : server_totals :=
  mkTotals (servers_num_total t) (servers_num_relay t) (num_peers t) (pings t) (num_ping_infs t)
    (dset (version_counts t) version (or_default (dget (version_counts t) version) 0 + 1)).

Definition count_server (t : server_totals) (server : server_row) : server_totals :=
  match row_info server with
  | None => t
  | Some info =>
      let t := match si_next_pings info with Some next_pings => count_pings t next_pings | None => t end in
      let t := if or_default (si_using_relay info) false then count_relay t else t in
      match si_version info with
      | Some version => if String.eqb version EmptyString then t else count_version t version
      | None => t
      end
  end.

Definition all_rows (reports : list model_reports) : list server_row := reports ≫= mp_server_rows.

(** [name="value"] *)
Definition quoted (name value : string) : string :=
  let q := String (Ascii.ascii_of_nat 34) EmptyString in name +:+ "=" +:+ q +:+ value +:+ q.

Definition metric (name : string) (labels : list string) (value : string) : string :=
  match labels with
  | [] => name
  | _ => name +:+ "{" +:+ join_with "," labels +:+ "}"
  end +:+ " " +:+ value.

Definition ratio (a b : Z) : pyfloat := f_div (f_of_Z a) (f_of_Z b).

Definition get_servers_metrics (reports : list model_reports) : list string :=
  let t := fold_left count_server (all_rows reports) totals_init in
  let have_pings := negb (zlen (pings t) =? 0) in
  ["# SERVER LEVEL METRICS"] ++
  (if (0 <? servers_num_total t) && have_pings then
     [metric "peers_per_srv" [] (fixed_point 1 (ratio (zlen (pings t) + num_ping_infs t) (servers_num_total t)));
      metric "pings_inf_share" [] (fixed_point 3 (ratio (num_ping_infs t) (num_ping_infs t + zlen (pings t))))]
   else []) ++
  [metric "servers_num_total" [] (str_of_Z (servers_num_total t)); metric "servers_num_relay" [] (str_of_Z (servers_num_relay t))] ++
  (if have_pings then
     "# PINGS" :: ((fun pct => metric "ping_pct" [quoted "pct" (str_of_Z pct)] (fixed_point 4 (np_percentile (py_sorted f_lt (pings t)) pct)))
       <$> [25; 50; 75; 90; 95])
   else []) ++
  "# VERSIONS" :: ((fun kv => metric "server_version" [quoted "version_number" kv.1] (str_of_Z kv.2)) <$> version_counts t).

(** ** Models

    [blocks]: an array of one number per block for every key, of zeros until it is written. *)
Abbreviation arrays := (list (string * list pyfloat)).

Definition np_zeros (n : Z) : result (list pyfloat) := if n <? 0 then Err ValueError else Ok (replicate (Z.to_nat n) f_zero).

Definition block_array (n : Z) (d : arrays) (key : string) : result (list pyfloat) :=
  match dget d key with Some a => Ok a | None => np_zeros n end.

(** [a[i] += v] *)
Definition array_add (a : list pyfloat) (i : Z) (v : pyfloat) : result (list pyfloat) :=
  let j := if i <? 0 then i + zlen a else i in
  if (0 <=? j) && (j <? zlen a) then Ok (alter (fun x => f_add x v) (Z.to_nat j) a) else Err IndexError.

Definition bump (n : Z) (d : arrays) (ev : string * Z * pyfloat) : result arrays :=
  let '(key, i, v) := ev in
  a ← block_array n d key;
  a ← array_add a i v;
  mret (dset d key a).

Definition rps_value (info : ServerInfo) (rps : string) : option pyfloat :=
  if String.eqb rps "network_rps" then si_network_rps info
  else if String.eqb rps "inference_rps" then si_inference_rps info
  else if String.eqb rps "forward_rps" then si_forward_rps info
  else Some f_zero.

Definition RPS_KEYS : list string := ["network_rps"; "inference_rps"; "forward_rps"].

Definition count_block (n : Z) (server : server_row) (d : arrays) (block_idx : Z) : result arrays :=
  d ← bump n d ("total", block_idx, f_one);
  d ← bump n d (row_state server, block_idx, f_one);
  match row_info server with
  | None => Ok d
  | Some info =>
      foldR (fun d rps => match rps_value info rps with Some v => bump n d (rps, block_idx, v) | None => Ok d end) d RPS_KEYS
  end.

Definition count_blocks (n : Z) (d : arrays) (server : server_row) : result arrays :=
  foldR (count_block n server) d (zrange (row_start server) (row_end server)).

Definition np_min (a : list pyfloat) : result pyfloat :=
  match a with [] => Err ValueError | x :: l => Ok (f_min_list x l) end.

(** [rps.split("_")[0]] *)
Definition rps_type (rps : string) : string := hd EmptyString (split_on "_" rps).

Definition model_metrics (reports : model_reports) : result (list string) :=
  let model := quoted "model" (mp_dht_prefix reports) in
  let n := mp_num_blocks reports in
  blocks ← foldR (count_blocks n) [] (mp_server_rows reports);
  total ← block_array n blocks "total";
  online ← block_array n blocks "online";
  online_min ← np_min online;
  states ← mapR (fun s => a ← block_array n blocks s; mret (metric "blocks" [model; quoted "state" s] (fixed_point 0 (np_sum a))))
    ["online"; "joining"; "offline"; "unreachable"];
  rps ← mapR (fun r =>
    a ← block_array n blocks r;
    m ← np_min a;
    mret [metric "rps_avg" [model; quoted "rps" (rps_type r)] (fixed_point 1 (np_mean a));
          metric "rps_min" [model; quoted "rps" (rps_type r)] (fixed_point 1 m)]) RPS_KEYS;
  mret (["# MODEL: " +:+ mp_dht_prefix reports +:+ " " +:+ String.concat EmptyString (replicate 50 "-");
         metric "n_blocks" [model] (str_of_Z n);
         metric "servers_num" [model] (str_of_Z (zlen (mp_server_rows reports)));
         metric "blocks_total" [model] (np_str (np_sum total));
         metric "blocks_online_min" [model] (np_str online_min)] ++ states ++ concat rps).

Definition get_models_metrics (reports : list model_reports) : result (list string) :=
  lines ← mapR model_metrics reports;
  mret ("# MODEL LEVEL METRICS" :: concat lines).

(** ** The report *)

(** [state_dict]: the duration of the last update, if it is there, and the models. *)
Definition get_prometheus_metrics (update_duration : option pyfloat) (reports : list model_reports) : result string :=
  duration ← get_or TypeError update_duration;                       (* None has no format *)
  models ← get_models_metrics reports;
  mret (join_with (Ascii.ascii_of_nat 10)
    (["# GENERAL METRICS"; metric "update_duration" [] (fixed_point 1 duration)] ++ get_servers_metrics reports ++ models)).
End metrics.

(** ** What the arrays count *)

Section metrics_proofs.
Context {NP : Numpy}.
Abbreviation arrays := (list (string * list pyfloat)).
Implicit Types (d : arrays) (server : server_row) (evs : list (string * Z * pyfloat)).

(** The additions that a server makes, in their order. *)
Definition row_events server : list (string * Z * pyfloat) :=
  zrange (row_start server) (row_end server) ≫= fun i =>
    ("total", i, f_one) :: (row_state server, i, f_one) ::
    match row_info server with
    | None => []
    | Some info => somes ((fun rps => (fun v => (rps, i, v)) <$> rps_value info rps) <$> RPS_KEYS)
    end.

(** The number that an array holds for a block; arrays that were never written hold zeros. *)
Definition cell d (key : string) (i : Z) : pyfloat :=
  match dget d key with Some a => nth (Z.to_nat i) a f_zero | None => f_zero end.

Definition arrays_of (n : Z) d : Prop := forall k a, dget d k = Some a -> zlen a = n.

Definition additions (key : string) (i : Z) evs : list pyfloat :=
  snd <$> List.filter (fun ev => String.eqb key ev.1.1 && (i =? ev.1.2)) evs.

Lemma count_blocks_events n d server : count_blocks n d server = foldR (bump n) d (row_events server).
Proof.
  unfold count_blocks, row_events. revert d. induction (zrange _ _) as [|i is_ IH]; intros d; [done|].
  cbn [foldR mbind list_bind]. rewrite foldR_app. unfold count_block at 1. cbn [foldR].
  destruct (bump n d ("total", i, f_one)) as [d1|e]; [|done]. cbn [mbind result_bind].
  destruct (bump n d1 (row_state server, i, f_one)) as [d2|e]; [|done]. cbn [mbind result_bind].
  assert (match row_info server with
    | Some info => foldR (fun d rps => match rps_value info rps with Some v => bump n d (rps, i, v) | None => Ok d end) d2 RPS_KEYS
    | None => Ok d2 end = foldR (bump n) d2 (match row_info server with Some info => somes ((fun rps => (fun v => (rps, i, v)) <$> rps_value info rps) <$> RPS_KEYS) | None => [] end)) as ->.
  { destruct (row_info server) as [info|]; [|done]. generalize RPS_KEYS d2. intros keys. induction keys as [|k keys IHk]; intros d'; [done|].
    rewrite fmap_cons. cbn [foldR]. destruct (rps_value info k) as [v|]; cbn [fmap option_fmap option_map somes foldR].
    - destruct (bump n d' (k, i, v)); [apply IHk|done].
    - apply IHk. }
  destruct (foldR (bump n) d2 _) as [d3|e]; [|done]. apply IH.
Qed.

Lemma nth_alter (a : list pyfloat) i j f :
  nth j (alter f i a) f_zero = if decide (i = j /\ (i < length a)%nat) then f (nth j a f_zero) else nth j a f_zero.
Proof.
  rewrite !nth_lookup. destruct (decide (i = j)) as [->|Hne].
  - rewrite list_lookup_alter_eq. destruct (a !! j) as [x|] eqn:E.
    + apply lookup_lt_Some in E as Hl. by rewrite decide_True.
    + apply lookup_ge_None in E. rewrite decide_False by lia. done.
  - rewrite list_lookup_alter_ne by done. by rewrite decide_False by (by intros [? _]).
Qed.

Lemma bump_ok n d k i v : arrays_of n d -> 0 <= i < n -> exists d', bump n d (k, i, v) = Ok d' /\ arrays_of n d' /\
  forall k' j, 0 <= j < n -> cell d' k' j = if String.eqb k' k && (j =? i) then f_add (cell d k' j) v else cell d k' j.
Proof.
  intros Hd Hi. unfold bump, block_array.
  assert (exists a, match dget d k with Some a => Ok a | None => np_zeros n end = Ok a /\ zlen a = n /\
    forall j, nth (Z.to_nat j) a f_zero = cell d k j) as (a & -> & Hl & Hc).
  { unfold cell. destruct (dget d k) as [a|] eqn:E; [exists a; by rewrite (Hd _ _ E)|].
    unfold np_zeros. destruct (Z.ltb_spec n 0); [lia|]. eexists. split; [done|]. split; [unfold zlen; rewrite length_replicate; lia|].
    intros j. rewrite nth_lookup. destruct (replicate _ _ !! _) eqn:Er; [by apply lookup_replicate in Er as [-> _]|done]. }
  cbn [mbind result_bind]. unfold array_add. destruct (Z.ltb_spec i 0); [lia|].
  rewrite (proj2 (Z.leb_le 0 i)), (proj2 (Z.ltb_lt i _)) by lia. cbn. eexists. split; [done|]. split.
  - intros k' a'. rewrite dget_dset. case_decide; [|by apply Hd]. intros [= <-]. unfold zlen in *. by rewrite length_alter.
  - intros k' j Hj. unfold cell at 1. rewrite dget_dset. destruct (decide (k = k')) as [<-|Hne].
    + rewrite String.eqb_refl, nth_alter, Hc. cbn [andb]. destruct (Z.eqb_spec j i) as [->|Hne].
      * rewrite decide_True by (unfold zlen in Hl; lia). done.
      * by rewrite decide_False by lia.
    + destruct (String.eqb_spec k' k); [congruence|]. done.
Qed.

(** Additions within the range of the blocks succeed, and every number is the sum of what was added to it, in order. *)
Lemma bump_all n evs : Forall (fun ev => 0 <= ev.1.2 < n) evs -> forall d, arrays_of n d ->
  exists d', foldR (bump n) d evs = Ok d' /\ arrays_of n d' /\
    forall k i, 0 <= i < n -> cell d' k i = fold_left f_add (additions k i evs) (cell d k i).
Proof.
  induction 1 as [|[[k i] v] evs Hi _ IH]; intros d Hd; [by exists d|]. cbn [foldR].
  destruct (bump_ok n d k i v Hd Hi) as (d1 & -> & Hd1 & Hc1). destruct (IH d1 Hd1) as (d' & Hrun & Hd' & Hc).
  exists d'. split; [exact Hrun|]. split; [done|]. intros k' j Hj. rewrite Hc, Hc1 by done.
  unfold additions. cbn [List.filter fst snd]. by destruct (String.eqb k' k && (j =? i)).
Qed.

Lemma all_blocks n (rows : list server_row) d :
  foldR (count_blocks n) d rows = foldR (bump n) d (rows ≫= row_events).
Proof.
  revert d. induction rows as [|r rows IH]; intros d; [done|]. cbn [foldR mbind list_bind]. rewrite foldR_app, count_blocks_events.
  destruct (foldR (bump n) d (row_events r)) as [d'|e]; [apply IH|done].
Qed.

(** The servers that hold a block. *)
Definition holds_block (i : Z) server : bool := (row_start server <=? i) && (i <? row_end server).

Definition built_in (key : string) : bool := existsb (String.eqb key) ("total" :: RPS_KEYS).

Lemma additions_app key i evs evs' : additions key i (evs ++ evs') = additions key i evs ++ additions key i evs'.
Proof. unfold additions. by rewrite List.filter_app, fmap_app. Qed.

Lemma rps_additions key i j info : built_in key = false \/ key = "total" ->
  additions key j (somes ((fun rps => (fun v => (rps, i, v)) <$> rps_value info rps) <$> RPS_KEYS)) = [].
Proof.
  intros Hk. assert (Hne : forall r, r ∈ RPS_KEYS -> String.eqb key r = false).
  { intros r Hr. destruct Hk as [Hk| ->].
    - apply not_true_iff_false. intros ->%String.eqb_eq. unfold built_in in Hk. cbn in Hk.
      apply not_true_iff_false in Hk. apply Hk. unfold RPS_KEYS in Hr.
      repeat (apply elem_of_cons in Hr as [->|Hr]; [reflexivity|]). by inversion Hr.
    - unfold RPS_KEYS in Hr. repeat (apply elem_of_cons in Hr as [->|Hr]; [reflexivity|]). by inversion Hr. }
  revert Hne. generalize RPS_KEYS. intros keys Hne. induction keys as [|r keys IH]; [done|]. rewrite fmap_cons.
  destruct (rps_value info r) as [v|]; cbn [fmap option_fmap option_map somes].
  - unfold additions. cbn [List.filter fst snd]. rewrite Hne by left. apply IH. intros r' Hr'. apply Hne. by right.
  - apply IH. intros r' Hr'. apply Hne. by right.
Qed.

(** A server adds one to the total of every block that it holds, and to the array of its state. *)
Lemma row_additions key server i :
  (key = "total" /\ built_in (row_state server) = false \/ built_in key = false) ->
  additions key i (row_events server) =
    if holds_block i server && (String.eqb key "total" || String.eqb key (row_state server)) then [f_one] else [].
Proof.
  intros Hk. unfold row_events, holds_block. remember (Z.to_nat (row_end server - row_start server)) as len eqn:Hlen.
  generalize dependent (row_start server). induction len as [|len IH]; intros a Hlen.
  { rewrite zrange_nil by lia. destruct (Z.leb_spec a i), (Z.ltb_spec i (row_end server)); try lia; done. }
  rewrite zrange_cons by lia. cbn [mbind list_bind]. rewrite additions_app, IH by lia.
  assert (Hone : additions key i (("total", a, f_one) :: (row_state server, a, f_one) ::
      match row_info server with Some info => somes ((fun rps => (fun v => (rps, a, v)) <$> rps_value info rps) <$> RPS_KEYS) | None => [] end) =
    if (i =? a) && (String.eqb key "total" || String.eqb key (row_state server)) then [f_one] else []).
  { change (?x :: ?y :: ?l) with ([x; y] ++ l). rewrite additions_app.
    assert (additions key i (match row_info server with Some info => somes ((fun rps => (fun v => (rps, a, v)) <$> rps_value info rps) <$> RPS_KEYS) | None => [] end) = []) as ->.
    { destruct (row_info server); [apply rps_additions; tauto|done]. }
    rewrite app_nil_r. unfold additions. cbn [List.filter fst snd]. destruct (Z.eqb_spec i a) as [->|]; rewrite ?andb_false_r, ?andb_true_r; [|done].
    destruct Hk as [[-> Hs]|Hk].
    - change (String.eqb "total" "total") with true. cbn [orb andb]. destruct (String.eqb_spec "total" (row_state server)) as [E|]; [|done].
      rewrite <- E in Hs. discriminate Hs.
    - destruct (String.eqb_spec key "total") as [->|]; [done|]. cbn [orb andb]. by destruct (String.eqb key (row_state server)). }
  rewrite Hone. destruct (Z.eqb_spec i a) as [->|Hne]; cbn [andb].
  - rewrite (proj2 (Z.leb_gt (a + 1) a)), (proj2 (Z.leb_le a a)), (proj2 (Z.ltb_lt a _)) by lia. cbn [andb].
    by destruct (String.eqb key "total" || String.eqb key (row_state server)).
  - cbn [app]. by destruct (Z.leb_spec (a + 1) i), (Z.leb_spec a i); try lia.
Qed.

(** [k] times one, added up. *)
Definition tally (k : nat) : pyfloat := fold_left f_add (replicate k f_one) f_zero.

Definition row_ok (n : Z) server : Prop := 0 <= row_start server /\ row_end server <= n /\ built_in (row_state server) = false.

Lemma row_events_range n server : row_ok n server -> Forall (fun ev => 0 <= ev.1.2 < n) (row_events server).
Proof.
  intros (Ha & Hb & _). apply Forall_forall. intros ev (i & Hev & Hi%elem_of_zrange)%list_elem_of_bind.
  assert (ev.1.2 = i) as ->; [|lia].
  apply elem_of_cons in Hev as [->|Hev]; [done|]. apply elem_of_cons in Hev as [->|Hev]; [done|].
  destruct (row_info server) as [info|]; [|by inversion Hev]. apply elem_of_somes, list_elem_of_fmap in Hev as (rps & Hr & _).
  destruct (rps_value info rps); [|done]. by injection Hr as ->.
Qed.

Lemma rows_additions key (rows : list server_row) i :
  Forall (fun r => built_in (row_state r) = false) rows -> key = "total" \/ built_in key = false ->
  additions key i (rows ≫= row_events) =
    replicate (length (List.filter (fun r => holds_block i r && (String.eqb key "total" || String.eqb key (row_state r))) rows)) f_one.
Proof.
  intros Hr Hk. induction Hr as [|r rows Hb _ IH]; [done|]. cbn [mbind list_bind List.filter].
  rewrite additions_app, IH, row_additions by (destruct Hk as [->|]; auto). by destruct (holds_block i r && _).
Qed.

(** What the arrays hold when all servers of a model are counted. *)
Lemma counted n (rows : list server_row) : Forall (row_ok n) rows ->
  exists d, foldR (count_blocks n) [] rows = Ok d /\ arrays_of n d /\
    forall key i, key = "total" \/ built_in key = false -> 0 <= i < n ->
      cell d key i = tally (length (List.filter (fun r => holds_block i r && (String.eqb key "total" || String.eqb key (row_state r))) rows)).
Proof.
  intros Hok. rewrite all_blocks. destruct (bump_all n (rows ≫= row_events)) with (d := @nil (string * list pyfloat)) as (d & Hrun & Hd & Hc).
  { clear -Hok. induction Hok as [|r rows Hr _ IH]; [constructor|]. cbn [mbind list_bind]. apply Forall_app. split; [by apply row_events_range|exact IH]. }
  { intros k a Ha. discriminate Ha. }
  exists d. split; [exact Hrun|]. split; [exact Hd|]. intros key i Hk Hi. rewrite Hc by done. rewrite rows_additions; [done| |done].
  eapply Forall_impl; [exact Hok|]. by intros r (_ & _ & ?).
Qed.

Lemma block_array_ok n d key : 0 < n -> arrays_of n d -> exists x a, block_array n d key = Ok (x :: a).
Proof.
  intros Hn Hd. unfold block_array. destruct (dget d key) as [a|] eqn:E.
  - apply Hd in E. destruct a as [|x a]; [unfold zlen in E; cbn in E; lia|]. by eexists _, _.
  - unfold np_zeros. destruct (Z.ltb_spec n 0); [lia|]. destruct (Z.to_nat n) as [|k] eqn:Ek; [lia|]. by eexists _, _.
Qed.

Lemma model_metrics_ok reports : 0 < mp_num_blocks reports -> Forall (row_ok (mp_num_blocks reports)) (mp_server_rows reports) ->
  exists lines, model_metrics reports = Ok lines.
Proof.
  intros Hn Hok. destruct (counted _ _ Hok) as (d & Hd & Ha & _). unfold model_metrics. rewrite Hd. cbn [mbind result_bind].
  pose proof (fun key => block_array_ok _ d key Hn Ha) as Hb.
  destruct (Hb "total") as (x0 & a0 & ->), (Hb "online") as (x1 & a1 & E1), (Hb "joining") as (x2 & a2 & E2),
    (Hb "offline") as (x3 & a3 & E3), (Hb "unreachable") as (x4 & a4 & E4), (Hb "network_rps") as (x5 & a5 & E5),
    (Hb "inference_rps") as (x6 & a6 & E6), (Hb "forward_rps") as (x7 & a7 & E7).
  unfold RPS_KEYS. cbn [mbind result_bind mapR]. rewrite E1. cbn [mbind result_bind np_min mret result_ret].
  rewrite E2. cbn [mbind result_bind]. rewrite E3. cbn [mbind result_bind]. rewrite E4. cbn [mbind result_bind].
  rewrite E5. cbn [mbind result_bind np_min]. rewrite E6. cbn [mbind result_bind np_min]. rewrite E7. cbn. by eexists.
Qed.

(** A report is made for every model with blocks whose servers hold blocks of it, provided that the state knows how
    long its update took: without a duration the default [None] cannot be formatted. *)
Theorem metrics_report update_duration reports :
  Forall (fun r => 0 < mp_num_blocks r /\ Forall (row_ok (mp_num_blocks r)) (mp_server_rows r)) reports ->
  match update_duration with
  | Some _ => exists text, get_prometheus_metrics update_duration reports = Ok text
  | None => get_prometheus_metrics update_duration reports = Err TypeError
  end.
Proof.
  intros Hok. destruct update_duration as [d|]; [|done]. unfold get_prometheus_metrics. cbn [get_or mbind result_bind].
  assert (exists lines, mapR model_metrics reports = Ok lines) as [lines Hl].
  { induction Hok as [|r reports [Hn Hr] _ [lines IH]]; [by eexists|]. destruct (model_metrics_ok r Hn Hr) as [l Hl].
    cbn. rewrite Hl. cbn. rewrite IH. by eexists. }
  unfold get_models_metrics. rewrite Hl. cbn. by eexists.
Qed.

(** The metrics of a model count, for every block, the servers that hold it, in total and by state. *)
Theorem models_blocks_exact n (rows : list server_row) : Forall (row_ok n) rows ->
  exists d, foldR (count_blocks n) [] rows = Ok d /\
    forall i, 0 <= i < n ->
      cell d "total" i = tally (length (List.filter (holds_block i) rows)) /\
      forall state, built_in state = false ->
        cell d state i = tally (length (List.filter (fun r => holds_block i r && String.eqb state (row_state r)) rows)).
Proof.
  intros Hok. destruct (counted _ _ Hok) as (d & Hd & _ & Hc). exists d. split; [done|]. intros i Hi. split.
  - rewrite Hc by auto. f_equal. f_equal. apply List.filter_ext. intros r. by rewrite andb_true_r.
  - intros state Hs. rewrite Hc by auto. f_equal. f_equal. apply List.filter_ext. intros r.
    destruct (String.eqb_spec state "total") as [->|]; [discriminate Hs|]. done.
Qed.

(** The servers that measured their successors, and how often a version runs. *)
Lemma count_version_get t v v' : v <> EmptyString ->
  or_default (dget (version_counts (count_version t v)) v') 0 = or_default (dget (version_counts t) v') 0 + (if String.eqb v v' then 1 else 0).
Proof.
  intros Hv. cbn. rewrite dget_dset. destruct (String.eqb_spec v v') as [->|]; [by rewrite decide_True|].
  rewrite decide_False by done. lia.
Qed.

Definition runs_version (v : string) server : bool :=
  match row_info server with Some info => bool_decide (si_version info = Some v) | None => false end.

Definition measures server : bool :=
  match row_info server with Some info => bool_decide (is_Some (si_next_pings info)) | None => false end.

Theorem servers_counted (rows : list server_row) v : v <> EmptyString ->
  let t := fold_left count_server rows totals_init in
  servers_num_total t = zlen (List.filter measures rows) /\
  or_default (dget (version_counts t) v) 0 = zlen (List.filter (runs_version v) rows).
Proof.
  intros Hv. assert (H : forall t, servers_num_total (fold_left count_server rows t) = servers_num_total t + zlen (List.filter measures rows) /\
    or_default (dget (version_counts (fold_left count_server rows t)) v) 0 = or_default (dget (version_counts t) v) 0 + zlen (List.filter (runs_version v) rows)).
  2:{ destruct (H totals_init) as [H1 H2]. split; [exact H1|exact H2]. }
  induction rows as [|r rows IH]; intros t; [by rewrite !Z.add_0_r|]. cbn [fold_left List.filter].
  destruct (IH (count_server t r)) as [-> ->]. unfold count_server, measures, runs_version.
  destruct (row_info r) as [info|]; [|done].
  set (t1 := match si_next_pings info with Some np => count_pings t np | None => t end).
  assert (H1 : servers_num_total t1 = servers_num_total t + (if bool_decide (is_Some (si_next_pings info)) then 1 else 0) /\ version_counts t1 = version_counts t).
  { subst t1. destruct (si_next_pings info); split; try done. by rewrite Z.add_0_r. }
  destruct H1 as [H1 H2]. clearbody t1.
  set (t2 := if or_default (si_using_relay info) false then count_relay t1 else t1).
  assert (H3 : servers_num_total t2 = servers_num_total t1 /\ version_counts t2 = version_counts t1) by (subst t2; by destruct (or_default _ _)).
  destruct H3 as [H3 H4]. clearbody t2.
  assert (H5 : forall t3, t3 = match si_version info with Some w => if String.eqb w EmptyString then t2 else count_version t2 w | None => t2 end ->
    servers_num_total t3 = servers_num_total t2 /\ or_default (dget (version_counts t3) v) 0 =
      or_default (dget (version_counts t2) v) 0 + (if bool_decide (si_version info = Some v) then 1 else 0)).
  { intros t3 ->. destruct (si_version info) as [w|]; [|split; [done|rewrite bool_decide_false by done; lia]].
    destruct (String.eqb_spec w EmptyString) as [->|Hw]; [split; [done|rewrite bool_decide_false by congruence; lia]|].
    split; [done|]. rewrite count_version_get by done. f_equal. destruct (String.eqb_spec w v) as [->|Hne]; [by rewrite bool_decide_true|].
    by rewrite bool_decide_false by congruence. }
  destruct (H5 _ eq_refl) as [-> ->]. rewrite H3, H1, H4, H2.
  split; repeat case_bool_decide; rewrite ?zlen_cons; try done; lia.
Qed.
End metrics_proofs.

(** ** Example: three servers of four blocks *)

#[local] Instance PlainNumpy : Numpy :=
  {| np_sum a := fold_left f_add a f_zero; np_mean a := hd f_zero a; np_percentile a p := hd f_zero a;
     fixed_point k x := match f_round x with Ok z => str_of_Z z | Err _ => "nan" end;
     np_str x := match f_round x with Ok z => str_of_Z z +:+ ".0" | Err _ => "nan" end |}.

Definition metric_info (relay : bool) (version : string) (ps : list (string * pyfloat)) : ServerInfo :=
  mkServerInfo ONLINE f_one (Some 0) (Some 2) None (Some version) (Some f_one) (Some f_one) None [] None None (Some relay) None (Some ps).

Definition metric_rows : list server_row :=
  [mkRow "online" 0 3 (Some (metric_info true "2.0" [("a", f_inf); ("b", f_one)])); mkRow "online" 2 4 None;
   mkRow "joining" 1 2 (Some (metric_info false "2.0" []))].

Lemma models_blocks_exact_witness :
  exists d, foldR (count_blocks 4) [] metric_rows = Ok d /\ cell d "total" 2 = f_of_Z 2 /\ cell d "online" 1 = f_one /\
    cell d "joining" 1 = f_one.
Proof.
  destruct (models_blocks_exact 4 metric_rows) as (d & Hd & Hc).
  { repeat constructor; cbn; lia. }
  exists d. split; [exact Hd|]. destruct (Hc 2 ltac:(lia)) as [H1 _]. destruct (Hc 1 ltac:(lia)) as [_ H2].
  rewrite H1, (H2 "online"), (H2 "joining") by reflexivity. vm_compute. done.
Defined.

Example metrics_example :
  get_prometheus_metrics (Some f_one) [mkReports "m" 4 metric_rows] <> Err IndexError /\
  get_prometheus_metrics None [mkReports "m" 4 metric_rows] = Err TypeError.
Proof. split; [vm_compute; discriminate|reflexivity]. Qed.
