(* ===== verification/Validator.v ===== *)
(** * Validator: [validator/validator.py], [utils/signature.py], [sequencer/sequencer.py], [utils/consensus.py]

    The rounds of a validator, which compares what it sees of the swarm with the contract and stores signed reports in
    the DHT, and of the sequencer, which collects the reports and sends a transaction.  A name that a function reads
    is looked up among the names of its module, as Python does; the contract, the keccak hash and signatures are
    parameters. *)

From S2P Require Import Prelude PyString PyFloat PyDict Effects DataStructures Dht Health.

(** ** Names *)

(** The names that [validator.py] and [sequencer.py] define. *)
Definition validator_globals : list string :=
  ["DHT"; "get_logger"; "time"; "prepare_data_for_signing"; "sign_data"; "StateUpdaterThread"; "contract"; "logger"; "Validator"].

Definition sequencer_globals : list string :=
  ["partial"; "os"; "hivemind"; "time"; "threading"; "List"; "json"; "Web3"; "contract"; "logger"; "Sequencer"].

(** Reads a name that is not a local variable. *)
Definition load_name (globals : list string) (name : string) : result unit := raise_if (bool_decide (name ∉ globals)) NameError.

(** The parameters of [sign_data]. *)
Definition sign_data_arity : nat := 2.

Definition call_with (arity arguments : nat) : result unit := raise_if (negb (arity =? arguments)%nat) TypeError.

(** [except Exception]: the failure of a round is logged. *)
Definition logged {W} (m : prog W unit) : prog W unit := fun w =>
  match m w with
  | Some (w', Err e) => Some (w', if is_Exception e then Ok () else Err e)
  | r => r
  end.

Section validator.
Context {PI : PeerIds}.

(** ** Data to sign *)

(** [Web3.solidity_keccak(['string'], [s]).hex()] *)
Context (keccak_hex : string -> string).
(** [sign_message] with the key and the hash of a peer id. *)
Context (unhexlify : string -> result (list Z)) (keccak_bytes32 : string -> result string) (sign_message : string -> list Z -> result string).

Definition prepare_data_for_signing (state : list health_row) : list string * list Z * Z :=
  let peerIds := (fun item => keccak_hex (to_base58 (hr_peer_id item))) <$> state in
  let contributions := (fun item => hr_throughput item * hr_layers item) <$> state in
  (peerIds, contributions, zsum contributions).

Definition sign_data (private_key peerId : string) : result string :=
  private_key_bytes ← unhexlify private_key;
  hashed_data ← keccak_bytes32 peerId;
  sign_message hashed_data private_key_bytes.

(** ** The validator *)

Record Validator := mkValidator {
  va_address : string;
  va_private_key : string;
  va_check_period : Z;
}.

(** What the contract answers: [getActivePeers] and [getActivePeersRange], each peer by the hex of its first field. *)
Record contract_view := mkContractView {
  getActivePeers : result (Z * list Z);
  getActivePeersRange : Z -> Z -> result (list string);
}.

(** What a validator stores under ["_peerz.validators"]: the subkeys. *)
Abbreviation stores := (list string).

(** The call of [self.dht.store]: its arguments are evaluated first. *)
Definition store_report (subkey : string) (signature_name : option string) : prog stores unit :=
  _ ← lift (load_name validator_globals "throughputs");
  _ ← lift (load_name validator_globals "layers");
  _ ← lift (match signature_name with Some s => load_name validator_globals s | None => Ok () end);
  _ ← lift (load_name validator_globals "get_dht_time");
  writes (fun s => s ++ [subkey]).

(** Whether the peer [i] of the contract is to be reported; [contributions] is what [getActivePeers] returned. *)
Definition should_get_reported (peerIds : list string) (contributions : list Z) (active_peers : list string) (i : Z) : result bool :=
  peer ← znth active_peers i;
  if bool_decide (peer ∈ peerIds) then
    index ← get_or ValueError (fst <$> list_find (fun p => p = peer) peerIds);
    a ← znth contributions (Z.of_nat index);
    b ← znth contributions i;
    Ok (negb (a =? b))
  else Ok true.

Fixpoint report_peers (v : Validator) (peerIds : list string) (contributions : list Z) (active_peers : list string) (is_ : list Z)
    : prog stores unit :=
  match is_ with
  | [] => ret ()
  | i :: is_ =>
      report ← lift (should_get_reported peerIds contributions active_peers i);
      _ ← (if (report : bool) then
             peerId ← lift (znth active_peers i);
             _ ← lift (sign_data (va_private_key v) peerId);
             store_report peerId (Some "signature")
           else ret ());
      report_peers v peerIds contributions active_peers is_
  end.

(** One round of [Validator.run]; [state] is the attribute of the updater, if it is set. *)
Definition validator_round (v : Validator) (state : option (list health_row)) (c : contract_view) : prog stores unit :=
  state ← lift (get_or AttributeError state);
  let '(peerIds, contributions, total) := prepare_data_for_signing state in
  '(active_peers_length, contributions) ← lift (getActivePeers c);
  active_peers ← lift (getActivePeersRange c 0 (active_peers_length - 1));
  _ ← lift (znth active_peers 0);
  _ ← report_peers v peerIds contributions active_peers (zrange 0 active_peers_length);
  _ ← lift (load_name validator_globals "throughputs");
  _ ← lift (load_name validator_globals "layers");
  _ ← lift (call_with sign_data_arity 5);
  store_report (va_address v) None.

(** [Validator.run] for the given states of the updater and of the contract. *)
Fixpoint validator_run (v : Validator) (rounds : list (option (list health_row) * contract_view)) : prog stores unit :=
  match rounds with
  | [] => ret ()
  | (state, c) :: rounds => _ ← logged (validator_round v state c); validator_run v rounds
  end.

(** ** The sequencer *)

Inductive sequencer_event := DhtStarted | TransactionSent (total : Z) (addresses : list string).

(** [d[k]] of a value that came from the DHT. *)
Definition item_of (v : pyval) (k : string) : result pyval :=
  match v with PDict d => get_or KeyError (kwarg d k) | _ => Err TypeError end.

Definition ints_of (v : pyval) : result (list Z) :=
  match v with PList l => mapR (fun x => match x with PInt z => Ok z | _ => Err TypeError end) l | _ => Err TypeError end.

(** [sum([layers[i] * throughputs[i] for i in range(len(layers))])] *)
Definition total_of (layers throughputs : list Z) : result Z :=
  products ← mapR (fun i => l ← znth layers i; t ← znth throughputs i; Ok (l * t)) (zrange 0 (zlen layers));
  Ok (zsum products).

(** One round of [Sequencer.run]; [data] is what the DHT holds under ["_peerz.validators"]. *)
Definition sequencer_round (data : option DHTValue) : prog (list sequencer_event) unit :=
  _ ← writes (fun ev => ev ++ [DhtStarted]);
  d ← lift (match data with Some (DictValue d) => Ok d | Some OtherValue | None => Err AttributeError end);
  let addresses := fst <$> d in
  first_validator_data ← lift (get_or StopIteration (snd <$> head d));
  peers ← lift (item_of first_validator_data "peerIds");
  throughputs ← lift (item_of first_validator_data "throughputs");
  layers ← lift (item_of first_validator_data "layers");
  signatures ← lift (mapR (fun kv => item_of (snd kv) "signature") d);
  layers ← lift (ints_of layers);
  throughputs ← lift (ints_of throughputs);
  total ← lift (total_of layers throughputs);
  _ ← lift (load_name sequencer_globals "w3");
  _ ← lift (load_name sequencer_globals "contract_address");
  writes (fun ev => ev ++ [TransactionSent total addresses]).

Fixpoint sequencer_run (rounds : list (option DHTValue)) : prog (list sequencer_event) unit :=
  match rounds with
  | [] => ret ()
  | data :: rounds => _ ← logged (sequencer_round data); sequencer_run rounds
  end.

(** ** What the rounds do *)

Lemma store_report_fails s n w : store_report s n w = Some (w, Err NameError).
Proof. reflexivity. Qed.

Lemma report_peers_stores v ids cs peers is_ w : exists r, report_peers v ids cs peers is_ w = Some (w, r).
Proof.
  induction is_ as [|i is_ IH]; [by eexists|]. cbn [report_peers].
  destruct (should_get_reported ids cs peers i) as [[|]|e] eqn:E; [..|by exists (Err e)].
  - destruct (znth peers i) as [p|e] eqn:Ep; [|by exists (Err e)]. unfold mbind, prog_bind, lift. cbn.
    destruct (sign_data (va_private_key v) p) as [s|e]; [|by exists (Err e)]. rewrite store_report_fails. by exists (Err NameError).
  - exact IH.
Qed.

(** A round of a validator stores nothing and raises. *)
Lemma validator_round_fails v state c w : exists e, validator_round v state c w = Some (w, Err e).
Proof.
  unfold validator_round. destruct state as [state|]; [|by eexists]. rewrite (bind_lift _ _ w state) by done.
  destruct (prepare_data_for_signing state) as [[ids own] total].
  destruct (getActivePeers c) as [[n cs]|e] eqn:En; [|by exists e]. rewrite (bind_lift _ _ w (n, cs)) by done.
  destruct (getActivePeersRange c 0 (n - 1)) as [peers|e] eqn:Er; [|by exists e]. rewrite (bind_lift _ _ w peers) by done.
  destruct (znth peers 0) as [p|e] eqn:Ep; [|by exists e]. rewrite (bind_lift _ _ w p) by done.
  destruct (report_peers_stores v ids cs peers (zrange 0 n) w) as [[[]|e] Hr]; [|by exists e; rewrite (bind_err _ _ w w e)].
  rewrite (bind_ok _ _ w w ()) by done. by exists NameError.
Qed.

Lemma validator_run_stores v rounds w : exists r, validator_run v rounds w = Some (w, r).
Proof.
  induction rounds as [|[state c] rounds IH]; [by eexists|]. cbn [validator_run].
  destruct (validator_round_fails v state c w) as [e He]. unfold mbind, prog_bind, logged. rewrite He.
  destruct (is_Exception e); [exact IH|by exists (Err e)].
Qed.

(** An outcome of the sequencer's own code. *)
Definition ordinary {A} (r : result A) : Prop := match r with Ok _ => True | Err e => is_Exception e = true end.

(** Continues with the value, or raises. *)
Lemma lift_ordinary {W A} (m : result A) (f : A -> prog W unit) w : ordinary m ->
  (forall a, exists e, is_Exception e = true /\ f a w = Some (w, Err e)) -> exists e, is_Exception e = true /\ (lift m ≫= f) w = Some (w, Err e).
Proof. intros Hm Hf. destruct m as [a|e]; [apply Hf|by exists e]. Qed.

Lemma ordinary_get {A} (o : option A) e : is_Exception e = true -> ordinary (get_or e o).
Proof. by destruct o. Qed.

Lemma ordinary_mapR {A B} (f : A -> result B) l : (forall x, ordinary (f x)) -> ordinary (mapR f l).
Proof.
  intros Hf. induction l as [|x l IH]; [done|]. cbn [mapR]. specialize (Hf x). destruct (f x); [|done].
  by destruct (mapR f l).
Qed.

Lemma ordinary_item v k : ordinary (item_of v k).
Proof. destruct v; try done. by apply ordinary_get. Qed.

Lemma ordinary_znth {A} (l : list A) i : ordinary (znth l i).
Proof. unfold znth. destruct (zindex l i); [by apply ordinary_get|done]. Qed.

Lemma ordinary_ints v : ordinary (ints_of v).
Proof. destruct v; try done. apply ordinary_mapR. by intros []. Qed.

Lemma ordinary_total l t : ordinary (total_of l t).
Proof.
  unfold total_of. assert (H : ordinary (mapR (fun i => x ← znth l i; y ← znth t i; Ok (x * y)) (zrange 0 (zlen l)))).
  { apply ordinary_mapR. intros i. pose proof (ordinary_znth l i). destruct (znth l i); [|done]. cbn.
    pose proof (ordinary_znth t i). by destruct (znth t i). }
  by destruct (mapR _ _).
Qed.

(** A round of the sequencer starts a DHT node and raises. *)
Lemma sequencer_round_fails data w : exists e, is_Exception e = true /\ sequencer_round data w = Some (w ++ [DhtStarted], Err e).
Proof.
  unfold sequencer_round. rewrite (bind_ok _ _ w (w ++ [DhtStarted]) ()) by done.
  apply lift_ordinary; [by destruct data as [[|]|]|]. intros d. apply lift_ordinary; [by apply ordinary_get|]. intros first.
  do 3 (apply lift_ordinary; [apply ordinary_item|]; intros ?). apply lift_ordinary; [apply ordinary_mapR; intros; apply ordinary_item|]. intros ?.
  do 2 (apply lift_ordinary; [apply ordinary_ints|]; intros ?). apply lift_ordinary; [apply ordinary_total|]. intros total.
  by exists NameError.
Qed.

Lemma sequencer_run_events rounds w : sequencer_run rounds w = Some (w ++ replicate (length rounds) DhtStarted, Ok ()).
Proof.
  revert w. induction rounds as [|data rounds IH]; intros w; [by cbn; rewrite app_nil_r|]. cbn [sequencer_run].
  destruct (sequencer_round_fails data w) as (e & He & Hr). rewrite (bind_ok _ _ w (w ++ [DhtStarted]) ()).
  - rewrite IH. cbn [length replicate]. by rewrite <- app_assoc.
  - unfold logged. by rewrite Hr, He.
Qed.

(** Whatever the swarm, the contract and the DHT hold, no validator ever stores a report and the sequencer never
    sends a transaction: every round ends with an exception that is logged, because names that the modules do not
    define are read before; every round of the sequencer leaves a DHT node running. *)
Theorem validation_never_happens v rounds data :
  fst <$> validator_run v rounds [] = Some [] /\
  sequencer_run data [] = Some (replicate (length data) DhtStarted, Ok ()).
Proof.
  split; [|apply sequencer_run_events]. destruct (validator_run_stores v rounds []) as [r Hr]. by rewrite Hr.
Qed.

(** What a validator computed of the contributions of the servers plays no role: the variable is assigned again. *)
Lemma contributions_ignored v st st' c w : hr_peer_id <$> st = hr_peer_id <$> st' -> validator_round v (Some st) c w = validator_round v (Some st') c w.
Proof.
  intros H. unfold validator_round. cbn [get_or]. unfold mbind, prog_bind, lift. unfold prepare_data_for_signing.
  assert (E : (fun item => keccak_hex (to_base58 (hr_peer_id item))) <$> st = (fun item => keccak_hex (to_base58 (hr_peer_id item))) <$> st').
  { apply (f_equal (fmap (fun p => keccak_hex (to_base58 p)))) in H. by rewrite <- !list_fmap_compose in H. }
  by rewrite E.
Qed.

(** The total that is to be signed is the sum of throughput times blocks. *)
Lemma prepared_total st : let '(ids, contributions, total) := prepare_data_for_signing st in
  length ids = length st /\ length contributions = length st /\ total = zsum ((fun item => hr_throughput item * hr_layers item) <$> st).
Proof. cbn. by rewrite !length_fmap. Qed.
End validator.
