(* ===== verification/ClientLoading.v ===== *)
(** * ClientLoading: [models/*/config.py], [utils/auto_config.py], [client/from_pretrained.py]

    How a client (and a server) gets the configuration of a model: the prefix under which the swarm knows its blocks,
    the classes registered for its type, default revisions; and which shards of a checkpoint a client loads, leaving
    out the blocks that the swarm serves. *)

From S2P Require Import Prelude PyString PyDict Effects DataStructures BlockLoading Generation.

(** ** Strings *)

(** [s.replace(a, b)] for single characters *)
Fixpoint str_replace (a b : ascii) (s : string) : string :=
  match s with
  | EmptyString => EmptyString
  | String c s' => String (if Ascii.eqb c a then b else c) (str_replace a b s')
  end.

(** [s.split("/")[-1]] *)
Definition repo_name (s : string) : string := List.last (split_on "/" s) "".

(** ** Configurations *)

Inductive model_family := Bloom | Llama | Falcon | Mixtral.

#[global] Instance model_family_eq_dec : EqDecision model_family.
Proof. solve_decision. Defined.

(** The fields of a configuration that the loading code reads and writes. *)
Record DistributedConfig := mkDistributedConfig {
  dc_model_type : string;
  dc_num_hidden_layers : Z;
  dc_dht_prefix : option string;
  dc_pretraining_tp : Z;
  dc_use_cache : bool;
  dc_pad_token_id : option Z;
}.

(** The prefix derived from the name of a repository. *)
Definition derive_prefix (f : model_family) (name : string) : string :=
  match f with
  | Bloom => str_replace "." "-" (name +:+ "-peerz")
  | Llama =>
      let p := str_replace "." "-" (repo_name name) in
      if str_ends_with "-hf" p then p else p +:+ "-hf"
  | Falcon => str_replace "." "-" (repo_name name)
  | Mixtral => str_replace "." "-" name
  end.

(** What the class does with the configuration that was loaded. *)
Definition finish_config (f : model_family) (c : DistributedConfig) : DistributedConfig :=
  match f with
  | Bloom => c
  | Llama => mkDistributedConfig (dc_model_type c) (dc_num_hidden_layers c) (dc_dht_prefix c) 1 true (dc_pad_token_id c)
  | Falcon | Mixtral =>
      mkDistributedConfig (dc_model_type c) (dc_num_hidden_layers c) (dc_dht_prefix c) (dc_pretraining_tp c) (dc_use_cache c)
        (match dc_pad_token_id c with None => Some 0 | Some i => Some i end)
  end.

Section loading.
Context (is_dir : string -> bool).
(** [PretrainedConfig.from_pretrained] with the name, the revision and the keyword [dht_prefix]. *)
Context (load_config : option string -> option string -> option string -> result DistributedConfig).

Definition loading_from_repo (model_name_or_path : option string) : bool :=
  match model_name_or_path with Some name => negb (is_dir name) | None => false end.

Definition choose_prefix (f : model_family) (model_name_or_path dht_prefix : option string) : option string :=
  match model_name_or_path, dht_prefix with
  | Some name, None => if loading_from_repo (Some name) then Some (derive_prefix f name) else None
  | _, _ => dht_prefix
  end.

(** [DEFAULT_REVISIONS] of [DefaultRevisionMixin] *)
Definition DEFAULT_REVISIONS : list (string * string) :=
  [("tiiuae/falcon-40b", "f1ba7d328c06aa6fbb4a8afd3c756f46d7e6b232");
   ("tiiuae/falcon-40b-instruct", "7475ff8cfc36ed9a962b658ae3c33391566a85a5");
   ("tiiuae/falcon-7b", "4e2d06f0a7c6370ebabbc30c6f59377ae8f73d76");
   ("tiiuae/falcon-7b-instruct", "f8dac3fff96d5debd43edf56fb4e1abcfffbef28")].

Definition default_revision (model_name_or_path revision : option string) : option string :=
  match revision, model_name_or_path with
  | None, Some name => dget DEFAULT_REVISIONS name
  | _, _ => revision
  end.

(** [from_pretrained] of the four configuration classes; Falcon's looks for ["180B"] in the name and adds a revision. *)
Definition config_from_pretrained (f : model_family) (model_name_or_path revision dht_prefix : option string) : result DistributedConfig :=
  let revision := if decide (f = Falcon) then default_revision model_name_or_path revision else revision in
  _ ← raise_if (bool_decide (f = Falcon) && match model_name_or_path with None => true | Some _ => false end) AttributeError;
  config ← load_config model_name_or_path revision (choose_prefix f model_name_or_path dht_prefix);
  Ok (finish_config f config).

(** ** The registry of classes *)

Record _ModelClasses := mkModelClasses {
  mc_config : model_family;
  mc_model : option string;
  mc_model_for_causal_lm : option string;
  mc_model_for_sequence_classification : option string;
}.

(** [register_model_classes]; [model_type] is that of the configuration class. *)
Definition register_model_classes (model_type : string) (classes : _ModelClasses) : prog (list (string * _ModelClasses)) unit := fun mapping =>
  (_ ← lift (assert_ (negb (dmem mapping model_type)));
   writes (fun m => dset m model_type classes)) mapping.

(** The four packages of [models], in the order of [models/__init__.py]. *)
Definition distributed_classes (f : model_family) (name : string) : _ModelClasses :=
  mkModelClasses f (Some (name +:+ "Model")) (Some (name +:+ "ForCausalLM")) (Some (name +:+ "ForSequenceClassification")).

Definition register_all : prog (list (string * _ModelClasses)) unit :=
  _ ← register_model_classes "bloom" (distributed_classes Bloom "DistributedBloom");
  _ ← register_model_classes "falcon" (distributed_classes Falcon "DistributedFalcon");
  _ ← register_model_classes "llama" (distributed_classes Llama "DistributedLlama");
  register_model_classes "mixtral" (distributed_classes Mixtral "DistributedMixtral").

(** [_mapping_field] of the Auto classes: what is instantiated. *)
Inductive mapping_field := FieldConfig | FieldModel | FieldCausalLM | FieldSequenceClassification.

Inductive proper_class := ConfigClass (f : model_family) | ModelClass (name : string).

Definition class_of (field : mapping_field) (c : _ModelClasses) : option proper_class :=
  match field with
  | FieldConfig => Some (ConfigClass (mc_config c))
  | FieldModel => ModelClass <$> mc_model c
  | FieldCausalLM => ModelClass <$> mc_model_for_causal_lm c
  | FieldSequenceClassification => ModelClass <$> mc_model_for_sequence_classification c
  end.

(** What [AutoDistributed*.from_pretrained] calls: the class, with the revision and [use_auth_token]. *)
Record class_call := mkClassCall {
  cc_class : proper_class;
  cc_revision : option string;
  cc_use_auth_token : option auth_token;
}.

(** [load_type] is the [model_type] that [AutoConfig.from_pretrained] finds. *)
Definition auto_from_pretrained (load_type : option string -> option string -> option auth_token -> result string)
    (mapping : list (string * _ModelClasses)) (field : mapping_field) (model_name_or_path revision : option string)
    (token use_auth_token : option auth_token) : result class_call :=
  let revision := default_revision model_name_or_path revision in
  let use_auth_token :=
    match token, use_auth_token with
    | None, None => if always_needs_auth is_dir model_name_or_path then Some (TokenBool true) else None
    | _, _ => use_auth_token
    end in
  model_type ← load_type model_name_or_path revision use_auth_token;
  classes ← get_or ValueError (dget mapping model_type);
  proper_cls ← get_or ValueError (class_of field classes);
  Ok (mkClassCall proper_cls revision use_auth_token).
End loading.

(** ** Constructing a client model *)

(** [DistributedBloomModel.__init__] and its siblings: the blocks are not built, since [num_hidden_layers] is zero
    while the constructor of [transformers] runs; [super_init] gives the number of layers that it built. *)
Definition set_layers (n : Z) (c : DistributedConfig) : DistributedConfig :=
  mkDistributedConfig (dc_model_type c) n (dc_dht_prefix c) (dc_pretraining_tp c) (dc_use_cache c) (dc_pad_token_id c).

Definition model_init (super_init : DistributedConfig -> result Z) (remote_sequential : DistributedConfig -> result unit)
    (tuning_mode : option string) (pre_seq_len : Z) : prog DistributedConfig prompt_parameters :=
  n_layer ← reads dc_num_hidden_layers;
  _ ← writes (set_layers 0);
  config ← reads id;
  layers ← lift (super_init config);
  _ ← lift (assert_ (layers =? 0));
  _ ← writes (set_layers n_layer);
  config ← reads id;
  _ ← lift (remote_sequential config);
  lift (init_prompts tuning_mode pre_seq_len).

(** ** Shards of a checkpoint *)

Section shards.
(** [re.search(pattern, name) is not None] *)
Context (search : string -> string -> bool).

(** [_keys_to_ignore_on_load_unexpected] of the client models. *)
Definition keys_to_ignore (f : model_family) : list string :=
  match f with
  | Bloom => ["^h\."]
  | Falcon => ["^transformer\.h\."]
  | Llama | Mixtral => ["^model\.layers\."]
  end.

(** [_ignored_keys], a context variable. *)
Abbreviation ignored := (option (list string)).

(** [with ignore_keys(patterns): m] *)
Definition ignore_keys {A} (patterns : list string) (m : prog ignored A) : prog ignored A := fun prev =>
  finally m (fun _ => prev) (Some patterns).

(** [patched_get_checkpoint_shard_files]; [weight_map] is that of the index file, and [original] the function of
    [transformers] on the index that it is given. *)
Definition patched_get_checkpoint_shard_files {A} (original : list (string * string) -> result A) (weight_map : list (string * string))
    : prog ignored A :=
  patterns ← reads id;
  let weight_map :=
    match patterns with
    | Some patterns => List.filter (fun kv => forallb (fun p => negb (search p kv.1)) patterns) weight_map
    | None => weight_map
    end in
  lift (original weight_map).

(** [FromPretrainedMixin.from_pretrained]; [super] loads the model with the given [low_cpu_mem_usage]. *)
Definition mixin_from_pretrained {A} (ignore_on_load : list string) (super : bool -> prog ignored A) (low_cpu_mem_usage : option bool)
    : prog ignored A :=
  ignore_keys ignore_on_load (super (or_default low_cpu_mem_usage true)).
End shards.

(** [_keys_to_ignore_on_load_missing]: the class bodies share list objects.  The heap holds the lists; an attribute is
    the address of one. *)
Definition PTUNE_MISSING : string := "(intermediate_)?prompt_embeddings\.weight$".

Record class_attributes := mkClassAttributes {
  ca_heap : list (list string);
  ca_missing : list (string * nat);          (* class name, address *)
}.

(** [A._keys = B._keys] in a class body *)
Definition share_missing (cls base : string) (s : class_attributes) : class_attributes :=
  match dget (ca_missing s) base with
  | Some a => mkClassAttributes (ca_heap s) (dset (ca_missing s) cls a)
  | None => s
  end.

(** [_keys += l] in a class body: the list object is extended. *)
Definition extend_missing (cls : string) (l : list string) (s : class_attributes) : class_attributes :=
  match dget (ca_missing s) cls with
  | Some a => mkClassAttributes (alter (fun keys => keys ++ l) a (ca_heap s)) (ca_missing s)
  | None => s
  end.

Definition missing_of (cls : string) (s : class_attributes) : list string :=
  match dget (ca_missing s) cls with Some a => or_default (ca_heap s !! a) [] | None => [] end.

(** The class bodies in the order in which [models/__init__.py] imports them. *)
Definition class_bodies : class_attributes :=
  let s := mkClassAttributes [[PTUNE_MISSING]] [("PTuneMixin", 0%nat)] in
  let s := share_missing "DistributedBloomModel" "PTuneMixin" s in
  let s := share_missing "DistributedBloomForCausalLM" "DistributedBloomModel" s in
  let s := extend_missing "DistributedBloomForCausalLM" ["^lm_head\."] s in
  let s := share_missing "DistributedFalconModel" "PTuneMixin" s in
  let s := share_missing "DistributedFalconForCausalLM" "DistributedFalconModel" s in
  let s := share_missing "DistributedLlamaModel" "PTuneMixin" s in
  let s := share_missing "DistributedLlamaForCausalLM" "DistributedLlamaModel" s in
  let s := share_missing "DistributedMixtralModel" "PTuneMixin" s in
  share_missing "DistributedMixtralForCausalLM" "DistributedMixtralModel" s.

(** A missing language-model head is ignored for every model, not for BLOOM's alone. *)
Lemma missing_head_ignored :
  Forall (fun cls => "^lm_head\." ∈ missing_of cls class_bodies)
    ["DistributedBloomForCausalLM"; "DistributedFalconForCausalLM"; "DistributedLlamaForCausalLM"; "DistributedMixtralForCausalLM"].
Proof. repeat constructor; vm_compute; right; left. Qed.

(** ** Prefixes *)

Lemma replace_removes a b s : a <> b -> str_contains a (str_replace a b s) = false.
Proof.
  intros Hab. induction s as [|c s IH]; [done|]. cbn. rewrite IH, orb_false_r. apply Ascii.eqb_neq.
  destruct (Ascii.eqb_spec c a); [by intros ?|done].
Qed.

Lemma replace_contains a b c s : c <> b -> str_contains c s = false -> str_contains c (str_replace a b s) = false.
Proof.
  intros Hb. induction s as [|d s IH]; [done|]. cbn. intros [Hd Hs]%orb_false_iff. rewrite IH, orb_false_r by done.
  destruct (Ascii.eqb d a); [by apply Ascii.eqb_neq|done].
Qed.

Lemma split_contains c d s : str_contains d s = false -> Forall (fun p => str_contains d p = false) (split_on c s).
Proof.
  induction s as [|a s IH]; [by repeat constructor|]. cbn [str_contains split_on]. intros [Ha Hs]%orb_false_iff. specialize (IH Hs).
  destruct (Ascii.eqb a c); [by constructor|]. destruct (split_on c s) as [|p l]; [by repeat constructor; cbn; rewrite Ha|].
  apply Forall_cons in IH as [Hp Hl]. constructor; [cbn; by rewrite Ha|done].
Qed.

Lemma last_Forall {A} (P : A -> Prop) l d : Forall P l -> P d -> P (List.last l d).
Proof. intros Hl Hd. induction Hl as [|x l Hx Hl IH]; [done|]. cbn. by destruct l. Qed.

Lemma repo_name_contains d s : str_contains d s = false -> str_contains d (repo_name s) = false.
Proof. intros H. unfold repo_name. apply last_Forall; [by apply split_contains|done]. Qed.

Lemma derived_valid f name : str_contains " " name = false -> valid_prefix (derive_prefix f name) = true.
Proof.
  intros Hs. unfold valid_prefix, UID_DELIMITER, CHAIN_DELIMITER.
  assert (Hrep : forall s, str_contains " " s = false ->
    str_contains "." (str_replace "." "-" s) = false /\ str_contains " " (str_replace "." "-" s) = false).
  { intros s Hsp. split; [by apply replace_removes|by apply replace_contains]. }
  assert (Hgoal : str_contains "." (derive_prefix f name) = false /\ str_contains " " (derive_prefix f name) = false).
  { destruct f; cbn [derive_prefix].
    - apply Hrep. by rewrite str_contains_app, Hs.
    - destruct (Hrep (repo_name name)) as [H1 H2]; [by apply repo_name_contains|]. case_if; [done|].
      by rewrite !str_contains_app, H1, H2.
    - apply Hrep. by apply repo_name_contains.
    - by apply Hrep. }
  by destruct Hgoal as [-> ->].
Qed.

(** The name of a repository without the account. *)
Lemma repo_name_account account name : str_contains "/" name = false -> repo_name (account +:+ String "/" name) = name.
Proof.
  intros Hn. unfold repo_name. induction account as [|a s IH].
  - change (EmptyString +:+ String "/" name) with (String "/" name). cbn [split_on]. rewrite (split_on_none _ _ Hn). done.
  - change (String a s +:+ String "/" name) with (String a (s +:+ String "/" name)). cbn [split_on].
    destruct (Ascii.eqb a "/"); cbn [List.last].
    + destruct (split_on "/" (s +:+ String "/" name)) as [|p l] eqn:E; [by apply split_on_nonnil in E|exact IH].
    + destruct (split_on "/" (s +:+ String "/" name)) as [|p [|p' l]] eqn:E; [by apply split_on_nonnil in E| |exact IH].
      exfalso. assert (H : str_count "/" (s +:+ String "/" name) = 0).
      { assert (Hc : str_contains "/" (s +:+ String "/" name) = false); [|by apply str_count_none].
        clear -E. revert p E. generalize (s +:+ String "/" name). intros u. induction u as [|b u IHu]; intros p E; [done|].
        cbn [split_on] in E. cbn. destruct (Ascii.eqb b "/"); [by destruct (split_on "/" u) eqn:Eu; [apply split_on_nonnil in Eu|]|].
        destruct (split_on "/" u) as [|p1 [|p2 l]] eqn:Eu; [by apply split_on_nonnil in Eu|by eapply IHu|done]. }
      rewrite str_count_app in H. cbn [str_count] in H. rewrite (proj2 (Ascii.eqb_eq _ _) eq_refl) in H.
      assert (Hnn : forall u, 0 <= str_count "/" u) by (clear; induction u as [|b u IHu]; cbn; [lia|destruct (Ascii.eqb _ _); lia]).
      pose proof (Hnn s). pose proof (Hnn name). lia.
Qed.

(** Clients and servers that name a model of different accounts meet under one prefix, for LLaMA and Falcon. *)
Lemma accounts_merge f a b name : f = Llama \/ f = Falcon -> str_contains "/" name = false ->
  derive_prefix f (a +:+ String "/" name) = derive_prefix f (b +:+ String "/" name).
Proof. intros Hf Hn. by destruct Hf as [-> | ->]; cbn [derive_prefix]; rewrite !repo_name_account. Qed.

(** C39: whatever repository a configuration is loaded from, its blocks get uids that parse back to the derived prefix
    and the number of the block, and that no server or DHT query refuses, unless the name has a space. *)
Theorem config_uids_parse is_dir load f name revision c :
  (forall n r p c, load n r (Some p) = Ok c -> dc_dht_prefix c = Some p) ->
  config_from_pretrained is_dir load f (Some name) revision None = Ok c -> is_dir name = false -> str_contains " " name = false ->
  dc_dht_prefix c = Some (derive_prefix f name) /\ valid_prefix (derive_prefix f name) = true /\
  forall i, parse_uid (make_uid (derive_prefix f name) i) = Ok (derive_prefix f name, i).
Proof.
  intros Hload H Hdir Hs. pose proof (derived_valid f name Hs) as Hv. split; [|split; [done|intros i; by apply parse_make_uid]].
  unfold config_from_pretrained in H. rewrite andb_false_r in H. cbn [raise_if mbind result_bind] in H.
  destruct (load _ _ _) as [c'|] eqn:E; [|done]. cbn [mbind result_bind] in H. injection H as <-.
  unfold choose_prefix, loading_from_repo in E. rewrite Hdir in E. apply Hload in E. by destruct f.
Qed.


Lemma config_uids_parse_witness :
  exists c, config_from_pretrained (fun _ => false) (fun _ _ p => Ok (mkDistributedConfig "llama" 32 p 2 false None)) Llama
              (Some "meta-llama/Llama-2.7b") None None = Ok c /\
    dc_dht_prefix c = Some "Llama-2-7b-hf" /\ parse_uid "Llama-2-7b-hf.31" = Ok ("Llama-2-7b-hf", 31).
Proof.
  eexists. split; [reflexivity|].
  destruct (config_uids_parse (fun _ => false) (fun _ _ p => Ok (mkDistributedConfig "llama" 32 p 2 false None)) Llama
              "meta-llama/Llama-2.7b" None (mkDistributedConfig "llama" 32 (Some "Llama-2-7b-hf") 1 true None)) as (H1 & _ & H3);
    [|reflexivity|reflexivity|reflexivity|].
  - intros n r p c H. injection H as <-. reflexivity.
  - split; [exact H1|exact (H3 31)].
Defined.

(** ** The registry *)

(** Importing the package registers one set of classes per family; importing a model's package twice would fail. *)
Lemma registered_classes :
  exists mapping, register_all [] = Some (mapping, Ok ()) /\ map fst mapping = ["bloom"; "falcon"; "llama"; "mixtral"] /\
    forall f, exists name cls, dget mapping name = Some cls /\ mc_config cls = f.
Proof. eexists. split_and!; [reflexivity..|]. intros []; [exists "bloom"|exists "llama"|exists "falcon"|exists "mixtral"]; by eexists. Qed.

Lemma registered_once model_type classes mapping :
  dmem mapping model_type = true -> register_model_classes model_type classes mapping = Some (mapping, Err AssertionError).
Proof. intros H. unfold register_model_classes. by rewrite H. Qed.

(** A model whose constructor returns has its number of layers back; one whose constructor raises has none left in the
    configuration that the caller passed. *)
Lemma model_init_layers super_init remote tuning_mode pre_seq_len w w' r :
  model_init super_init remote tuning_mode pre_seq_len w = Some (w', r) ->
  match super_init (set_layers 0 w) with
  | Ok 0 => w' = w
  | _ => w' = set_layers 0 w /\ is_ok r = false
  end.
Proof.
  unfold model_init, lift, reads, writes, ret, mbind, prog_bind. intros H. cbn in H.
  destruct (super_init _) as [n|e] eqn:E; [|by injection H as <- <-].
  destruct (Z.eqb_spec n 0) as [->|Hn]; cbn in H.
  - destruct w. by destruct (remote _); injection H as <- <-.
  - injection H as <- <-. by destruct n.
Qed.

(** The patterns of the surrounding call are back when the loading of a model ends, with a value or an exception. *)
Lemma ignore_keys_restores {A} patterns (m : prog _ A) w :
  triple (fun w' => w' = w) (ignore_keys patterns m) (fun w' _ => w' = w).
Proof. intros w0 w1 r -> H. unfold ignore_keys in H. by apply finally_returns in H as (? & _ & ->). Qed.

(** Of the index, exactly the parameters that match no pattern are handed over. *)
Lemma shards_kept search {A} (original : _ -> result A) patterns weight_map prev :
  exists kept, mixin_from_pretrained patterns (fun _ => patched_get_checkpoint_shard_files search original weight_map) None prev
    = Some (prev, original kept) /\
    forall kv, kv ∈ kept <-> kv ∈ weight_map /\ Forall (fun p => search p kv.1 = false) patterns.
Proof.
  exists (List.filter (fun kv => forallb (fun p => negb (search p kv.1)) patterns) weight_map). split; [reflexivity|].
  intros kv. rewrite !list_elem_of_In, List.filter_In, forallb_forall, List.Forall_forall.
  setoid_rewrite negb_true_iff. done.
Qed.
