(* ===== verification/BlockConversion.v ===== *)
(** * BlockConversion: [utils/convert_block.py]

    Trees of modules and what a server does to the block it has loaded: tensor parallelism with its check of the
    attention heads, quantization of the linear layers, and the check of the devices. *)

From S2P Require Import Prelude PyString PyFloat PyDict BlockFunctions Announcer Server.

(** ** Modules *)

Section trees.
Context {tensor : Type}.

Record parameter := mkParameter {
  pa_data : tensor;
  pa_quant : QuantType;                        (* a plain parameter, [Int8Params] or [Params4bit] *)
  pa_requires_grad : bool;
  pa_device : torch_device;
}.

(** [nn.Linear] and its subclasses [Linear8bitLt] and [LinearNF4]. *)
Record linear := mkLinear {
  li_class : QuantType;
  li_in_features : Z;
  li_out_features : Z;
  li_weight : parameter;
  li_bias : option parameter;
}.

(** A linear layer, or a module with named children; [num_heads] is that of an instance of the model's attention class. *)
#[local] Unset Elimination Schemes.
Inductive module (L : Type) :=
  | Leaf (layer : L)
  | Node (num_heads : option Z) (own : list parameter) (children : list (string * module L)).
#[local] Set Elimination Schemes.
Arguments Leaf {L} layer.
Arguments Node {L} num_heads own children.

Definition on_module {L} (P : module L -> Prop) (nc : string * module L) : Prop := P nc.2.

Fixpoint module_ind {L} (P : module L -> Prop) (HL : forall l, P (Leaf l))
    (HN : forall h own cs, Forall (on_module P) cs -> P (Node h own cs)) (m : module L) : P m :=
  match m with
  | Leaf l => HL l
  | Node h own cs =>
      HN h own cs ((fix go cs : Forall (on_module P) cs :=
        match cs with [] => Forall_nil_2 _ | nc :: cs => Forall_cons_2 _ nc cs (module_ind P HL HN nc.2) (go cs) end) cs)
  end.

(** The layers with their paths, depth first. *)
Fixpoint layers_of {L} (path : list string) (m : module L) : list (list string * L) :=
  match m with
  | Leaf l => [(path, l)]
  | Node _ _ cs => flat_map (fun nc => layers_of (path ++ [nc.1]) nc.2) cs
  end.

Definition child_layers {L} (cs : list (string * module L)) : list (list string * L) :=
  flat_map (fun nc => layers_of [nc.1] nc.2) cs.

(** [m.parameters()] *)
Fixpoint parameters {L} (of_layer : L -> list parameter) (m : module L) : list parameter :=
  match m with
  | Leaf l => of_layer l
  | Node _ own cs => own ++ flat_map (fun nc => parameters of_layer nc.2) cs
  end.

(** Changes every parameter. *)
Fixpoint map_parameters {L} (f : parameter -> parameter) (on_layer : L -> L) (m : module L) : module L :=
  match m with
  | Leaf l => Leaf (on_layer l)
  | Node h own cs => Node h (f <$> own) (map (fun nc => (nc.1, map_parameters f on_layer nc.2)) cs)
  end.

Definition linear_parameters (l : linear) : list parameter := li_weight l :: option_list (li_bias l).

Definition map_linear (f : parameter -> parameter) (l : linear) : linear :=
  mkLinear (li_class l) (li_in_features l) (li_out_features l) (f (li_weight l)) (f <$> li_bias l).

(** [p.requires_grad = False] and [p.to(device)] *)
Definition freeze (p : parameter) : parameter := mkParameter (pa_data p) (pa_quant p) false (pa_device p).
Definition to_device (d : torch_device) (p : parameter) : parameter := mkParameter (pa_data p) (pa_quant p) (pa_requires_grad p) d.

(** ** Quantization *)

(** The new layer of [quantize_module]. *)
Definition quantize_linear (q : QuantType) (l : linear) : result linear :=
  _ ← assert_ (String.eqb (tdev_type (pa_device (li_weight l))) "cpu");
  match q with
  | INT8 | NF4 =>
      Ok (mkLinear q (li_in_features l) (li_out_features l)
            (mkParameter (pa_data (li_weight l)) q false (pa_device (li_weight l))) (li_bias l))
  | QNONE => Err ValueError
  end.

(** The children that stay as they are. *)
Definition not_quantized : list string := ["lm_head"; "score"].

Definition quantize_child (q : QuantType) (n : string) (m : module linear) : result (module linear) :=
  match m with
  | Leaf l => if bool_decide (n ∈ not_quantized) then Ok m else Leaf <$> quantize_linear q l
  | Node _ _ _ => Ok m
  end.

(** [quantize_module]: the loop over the named children, first into a child, then the child itself. *)
Fixpoint quantize_module (q : QuantType) (m : module linear) : result (module linear) :=
  match m with
  | Leaf l => Ok (Leaf l)
  | Node h own cs =>
      cs ← (fix go cs :=
        match cs with
        | [] => Ok []
        | (n, c) :: cs => c ← quantize_module q c; c ← quantize_child q n c; cs ← go cs; Ok ((n, c) :: cs)
        end) cs;
      Ok (Node h own cs)
  end.

(** ** Tensor parallelism *)

(** [tp.TensorParallel]: the named shards and their devices. *)
Record TensorParallel (L : Type) := mkTensorParallel {
  module_shards : list (string * module L);
  tp_devices : list torch_device;
}.
Arguments mkTensorParallel {L} _ _.
Arguments module_shards {L} _.
Arguments tp_devices {L} _.

(** What the conversion reads of the configuration. *)
Record conversion_config := mkConversionConfig {
  cc_model_type : string;
  cc_num_attention_heads : Z;
}.

(** The rules of a [tensor_parallel] configuration: patterns and actions. *)
Abbreviation tp_config := (list (string * string)).

(** The heads of the attention modules in [m.modules()]. *)
Fixpoint attention_heads {L} (m : module L) : Z :=
  match m with
  | Leaf _ => 0
  | Node h _ cs => or_default h 0 + zsum (map (fun nc => attention_heads nc.2) cs)
  end.

Section tensor_parallel.
Context (get_bloom_config : conversion_config -> list torch_device -> tp_config).
Context (TensorParallel_ : module linear -> list torch_device -> option tp_config -> torch_device -> result (TensorParallel linear)).

Definition WORD_EMBEDDINGS : string := ".*word_embeddings.weight$".

Definition make_tensor_parallel (block : module linear) (model_config : conversion_config) (devices : list torch_device)
    (output_device : torch_device) : result (TensorParallel linear) :=
  tp_config ← (if String.eqb (cc_model_type model_config) "bloom" then
                 let rules := get_bloom_config model_config devices in
                 _ ← get_or KeyError (dget rules WORD_EMBEDDINGS);
                 Ok (Some (dpop rules WORD_EMBEDDINGS))
               else Ok None);
  tp_block ← TensorParallel_ block devices tp_config output_device;
  let total_heads := zsum (map (fun nc => attention_heads nc.2) (module_shards tp_block)) in
  _ ← assert_ (total_heads =? cc_num_attention_heads model_config);
  Ok tp_block.

(** [quantize_module] of the wrapper, whose only child is the list of its shards. *)
Definition quantize_shards (q : QuantType) (b : TensorParallel linear) : result (TensorParallel linear) :=
  m ← quantize_module q (Node None [] (module_shards b));
  match m with
  | Node _ _ shards => Ok (mkTensorParallel shards (tp_devices b))
  | Leaf _ => Ok b
  end.

(** [for shard, device in zip(block.module_shards, block.devices): shard.to(device)] *)
Fixpoint move_shards (shards : list (string * module linear)) (devices : list torch_device) : list (string * module linear) :=
  match shards, devices with
  | (n, m) :: shards, d :: devices => (n, map_parameters (to_device d) (map_linear (to_device d)) m) :: move_shards shards devices
  | _, _ => shards
  end.

(** The part of [convert_block] before the adapters. *)
Definition prepare_block (block : module linear) (cfg : conversion_config) (devices : list torch_device) (output_device : torch_device)
    (q : QuantType) (freeze_ : bool) : result (TensorParallel linear) :=
  let block := if freeze_ then map_parameters freeze (map_linear freeze) block else block in
  block ← make_tensor_parallel block cfg devices output_device;
  block ← (if decide (q = QNONE) then Ok block else quantize_shards q block);
  Ok (mkTensorParallel (move_shards (module_shards block) (tp_devices block)) (tp_devices block)).
End tensor_parallel.
End trees.

Arguments Leaf {tensor L} layer.
Arguments Node {tensor L} num_heads own children.
Arguments mkTensorParallel {tensor L} _ _.
Arguments module_shards {tensor L} _.
Arguments tp_devices {tensor L} _.
Arguments module : clear implicits.
Arguments parameter : clear implicits.
Arguments linear : clear implicits.
Arguments TensorParallel : clear implicits.

(** ** Devices *)

Inductive balance_warning := NotGPU | UnevenCapabilities | UnevenMemory.

(** [check_device_balance]: the warnings it logs. *)
Definition check_device_balance (capability : torch_device -> Z * Z) (total_memory : torch_device -> Z) (devices : list torch_device)
    : result (list balance_warning) :=
  if negb (forallb (fun d => String.eqb (tdev_type d) "cuda") devices) then Ok [NotGPU]
  else
    let uneven := if (1 <? length (remove_dups (capability <$> devices)))%nat then [UnevenCapabilities] else [] in
    let memory_per_device := total_memory <$> devices in
    least ← py_min_Z memory_per_device;
    let used_memory := least * zlen memory_per_device in
    wasted_memory_rate ← py_fdiv (f_of_Z (zsum memory_per_device - used_memory)) (f_of_Z (zsum memory_per_device));
    Ok (uneven ++ if f_lt (f_lit 5 100) wasted_memory_rate then [UnevenMemory] else []).

(** ** What the conversion keeps and what it changes *)

Section correctness.
Context {tensor : Type}.

(** Whether the layer with this path is quantized. *)
Definition excluded (path : list string) : Prop := match last path with Some n => n ∈ not_quantized | None => True end.

#[global] Instance excluded_dec path : Decision (excluded path).
Proof. unfold excluded. destruct (last path); apply _. Defined.

Definition on_cpu (l : linear tensor) : Prop := tdev_type (pa_device (li_weight l)) = "cpu".

(** A layer before and after quantization. *)
Definition quantized (q : QuantType) (a b : list string * linear tensor) : Prop :=
  b.1 = a.1 /\ if decide (excluded a.1) then b.2 = a.2 else quantize_linear q a.2 = Ok b.2.

Lemma quantize_linear_ok q (l : linear tensor) : q <> QNONE -> on_cpu l -> exists l', quantize_linear q l = Ok l'.
Proof. intros Hq Hc. unfold quantize_linear. rewrite Hc, String.eqb_refl. cbn. destruct q; [done|eauto..]. Qed.

Lemma Forall_flat_map {A B} (P : B -> Prop) (f : A -> list B) l : Forall P (flat_map f l) <-> Forall (fun x => Forall P (f x)) l.
Proof. induction l as [|x l IH]; cbn [flat_map]; [by split; constructor|]. by rewrite Forall_app, Forall_cons, IH. Qed.

(** The children of a node, one after the other. *)
Lemma quantize_node q h own (cs : list (string * module tensor (linear tensor))) cs' :
  Forall2 (fun nc nc' => nc'.1 = nc.1 /\ exists m, quantize_module q nc.2 = Ok m /\ quantize_child q nc.1 m = Ok nc'.2) cs cs' ->
  quantize_module q (Node h own cs) = Ok (Node h own cs').
Proof.
  intros H. cbn [quantize_module].
  enough (E : (fix go cs := match cs with
        | [] => Ok []
        | (n, c) :: cs => c ← quantize_module q c; c ← quantize_child q n c; cs ← go cs; Ok ((n, c) :: cs)
        end) cs = Ok cs') by (by rewrite E).
  induction H as [|[n c] [n' c'] cs cs' (Hn & m & H1 & H2) H IH]; [done|]. cbn in Hn, H1, H2. subst n'.
  cbn [mbind result_bind]. rewrite H1. cbn. rewrite H2. cbn. by rewrite IH.
Qed.

Definition may_quantize (pl : list string * linear tensor) : Prop := excluded pl.1 \/ on_cpu pl.2.

(** Quantization of a tree on the CPU: every layer in its place, and the same attention heads. *)
Lemma quantize_module_spec q (m : module tensor (linear tensor)) : q <> QNONE ->
  forall path n, Forall may_quantize (layers_of (path ++ [n]) m) ->
  exists m1 m2, quantize_module q m = Ok m1 /\ quantize_child q n m1 = Ok m2 /\
    Forall2 (quantized q) (layers_of (path ++ [n]) m) (layers_of (path ++ [n]) m2) /\ attention_heads m2 = attention_heads m.
Proof.
  intros Hq. induction m as [l|h own cs IH] using module_ind; intros path n Hl.
  - exists (Leaf l). cbn [layers_of] in *. rewrite Forall_singleton in Hl. cbn [quantize_child].
    assert (He : excluded (path ++ [n]) <-> n ∈ not_quantized) by (unfold excluded; by rewrite last_snoc).
    case_bool_decide as Hn.
    + exists (Leaf l). split_and!; [done..| |done]. repeat constructor. by rewrite decide_True by (by apply He).
    + assert (Hcpu : on_cpu l) by (destruct Hl as [H'|H']; [by apply He in H'|exact H']). destruct (quantize_linear_ok q l Hq Hcpu) as [l' Hl']. exists (Leaf l').
      split_and!; [done|by rewrite Hl'| |done]. repeat constructor. by rewrite decide_False by (by rewrite He).
  - cbn [layers_of] in *. rewrite Forall_flat_map in Hl.
    assert (Hc : exists cs', Forall2 (fun nc nc' => nc'.1 = nc.1 /\ exists m, quantize_module q nc.2 = Ok m /\ quantize_child q nc.1 m = Ok nc'.2) cs cs' /\
      Forall2 (quantized q) (flat_map (fun nc => layers_of ((path ++ [n]) ++ [nc.1]) nc.2) cs)
        (flat_map (fun nc => layers_of ((path ++ [n]) ++ [nc.1]) nc.2) cs') /\
      map (fun nc => attention_heads nc.2) cs' = map (fun nc => attention_heads nc.2) cs).
    { induction IH as [|[k c] cs Hm IH IHcs]; [by exists []|]. rewrite Forall_cons in Hl. destruct Hl as [Hk Hl].
      destruct (Hm (path ++ [n]) k Hk) as (m1 & m2 & H1 & H2 & H3 & H4). destruct (IHcs Hl) as (cs' & H5 & H6 & H7).
      exists ((k, m2) :: cs'). split_and!.
      - constructor; [|done]. split; [done|]. by exists m1.
      - by apply Forall2_app.
      - cbn. by rewrite H4, H7. }
    destruct Hc as (cs' & H1 & H2 & H3). exists (Node h own cs'), (Node h own cs').
    split_and!; [by apply quantize_node|done|done|]. cbn [attention_heads]. by rewrite H3.
Qed.

Lemma layers_of_map {L} f (g : L -> L) (m : module tensor L) path :
  layers_of path (map_parameters f g m) = (fun pl => (pl.1, g pl.2)) <$> layers_of path m.
Proof.
  revert path. induction m as [l|h own cs IH] using module_ind; intros path; [done|]. cbn [map_parameters layers_of].
  induction IH as [|[n c] cs Hc IH IHcs]; [done|]. cbn [map flat_map fst snd]. rewrite fmap_app, <- IHcs. f_equal. apply Hc.
Qed.

(** A layer of a shard before and after the conversion: where it is, its class, its data; [d] is the device of the shard. *)
Definition prepared (q : QuantType) (d : option torch_device) (a b : list string * linear tensor) : Prop :=
  b.1 = a.1 /\ li_in_features b.2 = li_in_features a.2 /\ li_out_features b.2 = li_out_features a.2 /\
  pa_data (li_weight b.2) = pa_data (li_weight a.2) /\ (pa_data <$> li_bias b.2) = (pa_data <$> li_bias a.2) /\
  li_class b.2 = (if decide (q = QNONE \/ excluded a.1) then li_class a.2 else q) /\
  match d with Some d => Forall (fun p => pa_device p = d) (linear_parameters b.2) | None => True end.

Definition maybe_move (d : option torch_device) (l : linear tensor) : linear tensor :=
  match d with Some d => map_linear (to_device d) l | None => l end.

Lemma quantized_prepared q d a b : quantized q a b -> prepared q d a (b.1, maybe_move d b.2).
Proof.
  intros [H1 H2]. assert (Hmove : li_in_features (maybe_move d b.2) = li_in_features b.2 /\
    li_out_features (maybe_move d b.2) = li_out_features b.2 /\ pa_data (li_weight (maybe_move d b.2)) = pa_data (li_weight b.2) /\
    (pa_data <$> li_bias (maybe_move d b.2)) = (pa_data <$> li_bias b.2) /\ li_class (maybe_move d b.2) = li_class b.2 /\
    match d with Some d' => Forall (fun p => pa_device p = d') (linear_parameters (maybe_move d b.2)) | None => True end).
  { destruct d as [d|]; [|done]. destruct b as [pb [c i o w [bias|]]]; split_and!; try done; repeat constructor. }
  destruct Hmove as (M1 & M2 & M3 & M4 & M5 & M6). unfold prepared. cbn [fst snd]. rewrite M1, M2, M3, M4, M5.
  destruct b as [pb lb]. cbn [fst snd] in *. destruct (decide (excluded a.1)) as [He|He].
  - subst lb. rewrite decide_True by tauto. by split_and!.
  - unfold quantize_linear in H2. destruct (String.eqb _ _); [|done]. cbn in H2.
    destruct q; [done| |]; injection H2 as <-; rewrite decide_False by naive_solver; by split_and!.
Qed.

Lemma prepared_unquantized q d a : q = QNONE -> prepared q d a (a.1, maybe_move d a.2).
Proof.
  intros ->. destruct a as [pa [c i o w b]]. unfold prepared. destruct d as [d|]; cbn; split_and!; try done.
  - by destruct b.
  - by destruct b; repeat constructor.
Qed.

Lemma move_shards_lookup (shards : list (string * module tensor (linear tensor))) devices i n m :
  shards !! i = Some (n, m) ->
  exists m', move_shards shards devices !! i = Some (n, m') /\
    forall path, layers_of path m' = (fun pl => (pl.1, maybe_move (devices !! i) pl.2)) <$> layers_of path m.
Proof.
  revert devices i. induction shards as [|[k c] shards IH]; intros devices i; [by rewrite lookup_nil|].
  destruct devices as [|d devices].
  - intros H. exists m. rewrite lookup_nil. cbn [move_shards maybe_move]. split; [done|]. intros path.
    induction (layers_of path m) as [|[] l IHl]; [done|]. cbn. by rewrite <- IHl.
  - destruct i as [|i]; cbn; [|by apply IH]. intros [= -> ->]. eexists. split; [done|]. intros path. apply layers_of_map.
Qed.

Lemma quantize_shards_spec q (b : TensorParallel tensor (linear tensor)) : q <> QNONE ->
  Forall may_quantize (child_layers (module_shards b)) ->
  exists b', quantize_shards q b = Ok b' /\ tp_devices b' = tp_devices b /\
    Forall2 (fun nc nc' => nc'.1 = nc.1 /\ Forall2 (quantized q) (layers_of [nc.1] nc.2) (layers_of [nc.1] nc'.2))
      (module_shards b) (module_shards b').
Proof.
  intros Hq Hl. unfold child_layers in Hl. rewrite Forall_flat_map in Hl.
  assert (Hc : exists cs', Forall2 (fun nc nc' => nc'.1 = nc.1 /\ exists m, quantize_module q nc.2 = Ok m /\ quantize_child q nc.1 m = Ok nc'.2)
      (module_shards b) cs' /\
    Forall2 (fun nc nc' => nc'.1 = nc.1 /\ Forall2 (quantized q) (layers_of [nc.1] nc.2) (layers_of [nc.1] nc'.2)) (module_shards b) cs').
  { induction (module_shards b) as [|[n c] cs IH]; [by exists []|]. rewrite Forall_cons in Hl. destruct Hl as [Hk Hl].
    destruct (quantize_module_spec q c Hq [] n Hk) as (m1 & m2 & H1 & H2 & H3 & _). destruct (IH Hl) as (cs' & H4 & H5).
    exists ((n, m2) :: cs'). split; constructor; try done. split; [done|]. by exists m1. }
  destruct Hc as (cs' & H1 & H2). exists (mkTensorParallel cs' (tp_devices b)). unfold quantize_shards.
  by rewrite (quantize_node q None [] _ _ H1).
Qed.

(** C22: a block converted for serving keeps every linear layer in its place with its data; all of them but the heads are
    quantized as asked, each on the device of its shard. *)
Theorem prepare_block_exact get_bloom_config TP (block : module tensor (linear tensor)) cfg devices output_device q freeze_ tp :
  make_tensor_parallel get_bloom_config TP (if freeze_ : bool then map_parameters freeze (map_linear freeze) block else block)
    cfg devices output_device = Ok tp ->
  q = QNONE \/ Forall may_quantize (child_layers (module_shards tp)) ->
  exists b, prepare_block get_bloom_config TP block cfg devices output_device q freeze_ = Ok b /\
    tp_devices b = tp_devices tp /\ length (module_shards b) = length (module_shards tp) /\
    forall i n m, module_shards tp !! i = Some (n, m) -> exists m', module_shards b !! i = Some (n, m') /\
      Forall2 (prepared q (tp_devices tp !! i)) (layers_of [n] m) (layers_of [n] m').
Proof.
  intros Htp Hq. unfold prepare_block. rewrite Htp. cbn [mbind result_bind].
  assert (Hlen : forall (s : list (string * module tensor (linear tensor))) ds, length (move_shards s ds) = length s).
  { induction s as [|[n m] s IH]; intros [|d ds]; try done. cbn. by rewrite IH. }
  destruct (decide (q = QNONE)) as [E|E]; cbn [mbind result_bind].
  - eexists. split_and!; [done..|cbn; by rewrite Hlen|]. intros i n m Hi. cbn [module_shards].
    destruct (move_shards_lookup _ (tp_devices tp) i n m Hi) as (m' & H1 & H2). exists m'. split; [done|]. rewrite H2.
    apply Forall2_fmap_r, Forall_Forall2_diag, Forall_forall. intros a _. by apply prepared_unquantized.
  - destruct Hq as [Hq|Hq]; [done|]. destruct (quantize_shards_spec q tp E Hq) as (b & H1 & H2 & H3). rewrite H1. cbn [mbind result_bind].
    eexists. split_and!; [done|done|cbn; by rewrite Hlen, (Forall2_length _ _ _ H3)|]. intros i n m Hi. cbn [module_shards].
    destruct (Forall2_lookup_l _ _ _ _ _ H3 Hi) as ([n' mq] & Hb & Hn & Hmq). cbn in Hn, Hmq. subst n'.
    destruct (move_shards_lookup _ (tp_devices b) i n mq Hb) as (m' & H4 & H5). exists m'. split; [done|]. rewrite H5, H2.
    apply Forall2_fmap_r. apply (Forall2_impl _ _ _ _ Hmq). intros x y. apply quantized_prepared.
Qed.
End correctness.

(** A block with an attention and a feed-forward layer, split over one GPU. *)
Definition cpu : torch_device := mkDev "cpu" None.
Definition gpu0 : torch_device := mkDev "cuda" (Some 0).

Definition example_linear (i o : Z) (w : string) : linear string :=
  mkLinear QNONE i o (mkParameter w QNONE true cpu) None.

Definition example_block : module string (linear string) :=
  Node None [mkParameter "ln" QNONE true cpu]
    [("self_attention", Node (Some 16) [] [("query_key_value", Leaf (example_linear 64 192 "qkv")); ("dense", Leaf (example_linear 64 64 "d"))]);
     ("mlp", Node None [] [("dense_h_to_4h", Leaf (example_linear 64 256 "up"))])].

Definition one_shard (block : module string (linear string)) (devices : list torch_device) (rules : option (list (string * string)))
    (output_device : torch_device) : result (TensorParallel string (linear string)) :=
  Ok (mkTensorParallel [("0", block)] devices).

Lemma prepare_block_exact_witness :
  exists b, prepare_block (fun _ _ => [(".*word_embeddings.weight$", "split 1")]) one_shard example_block (mkConversionConfig "bloom" 16)
      [gpu0] gpu0 NF4 true = Ok b /\ length (module_shards b) = 1%nat.
Proof.
  assert (Htp : make_tensor_parallel (fun _ _ => [(".*word_embeddings.weight$", "split 1")]) one_shard
      (map_parameters freeze (map_linear freeze) example_block) (mkConversionConfig "bloom" 16) [gpu0] gpu0
    = Ok (mkTensorParallel [("0", map_parameters freeze (map_linear freeze) example_block)] [gpu0])) by reflexivity.
  assert (Hcpu : Forall may_quantize (child_layers [("0", map_parameters freeze (map_linear freeze) example_block)])).
  { repeat constructor; right; reflexivity. }
  destruct (prepare_block_exact (fun _ _ => [(".*word_embeddings.weight$", "split 1")]) one_shard example_block
    (mkConversionConfig "bloom" 16) [gpu0] gpu0 NF4 true _ Htp (or_intror Hcpu)) as (b & H1 & _ & H2 & _).
  exists b. split; [exact H1|exact H2].
Defined.
