(* ===== verification/Adapters.v ===== *)
(** * Adapters: [utils/peft.py], and [convert_block] of [utils/convert_block.py]

    LoRA adapters on a server: finding the tensors of a block in an adapter's file, downloading it, wrapping the linear
    layers of a block, loading an adapter into them, and the adapter in use as a class attribute. *)

From S2P Require Import Prelude PyString PyDict Effects DataStructures Utils BlockFunctions HostResources BlockLoading Announcer Server BlockConversion.

(** ** The file of an adapter *)

(** What the regular expression of [load_specific_module] matches between two dots: any of the names, in order. *)
Fixpoint optional_names (common : list string) : list string :=
  match common with
  | [] => [""]
  | x :: common => map (fun s => x +:+ s) (optional_names common) ++ optional_names common
  end.

(** ["\n"], which [.] does not match. *)
Definition newline : ascii := "010".

Definition any_chars (s : string) : bool := negb (String.eqb s "") && negb (str_contains newline s).

Definition starts_any (s : string) : bool :=
  match s with EmptyString => false | String c _ => negb (Ascii.eqb c newline) end.

(** The match of [.+\.(a)?(b)?...\.(idx)?\..+] with the names at the segment [i] of the key. *)
Definition match_at (common : list string) (block_idx : string) (segments : list string) (i : nat) : bool :=
  match drop i segments with
  | layer :: idx :: rest =>
      any_chars (join_with "." (take i segments)) && bool_decide (layer ∈ optional_names common) &&
      (String.eqb idx "" || String.eqb idx block_idx) && starts_any (join_with "." rest)
  | _ => false
  end.

(** [re.match(common_layer_patter_re, k)] *)
Definition key_matches (common : list string) (block_idx : Z) (k : string) : bool :=
  let segments := split_on "." k in existsb (match_at common (str_of_Z block_idx) segments) (seq 0 (length segments)).

Section peft.
Context {tensor : Type}.
(** [COMMON_LAYERS_PATTERN] of peft: names of the lists of blocks. *)
Context (COMMON_LAYERS_PATTERN : list string).

(** [load_specific_module] on the tensors of the file, in order. *)
Definition load_specific_module (block_idx : Z) (file : list (string * tensor)) : list (string * tensor) :=
  fold_left (fun tensors kt => if key_matches COMMON_LAYERS_PATTERN block_idx kt.1 then dset tensors kt.1 kt.2 else tensors) file [].

(** ** Downloads *)

Inductive target_modules := TargetList (l : list string) | TargetStr (s : string) | TargetNone.

(** The fields of an adapter's configuration that are read. *)
Record peft_config := mkPeftConfig {
  pc_peft_type : string;
  pc_lora_dropout_positive : bool;
  pc_target_modules : target_modules;
  pc_r : Z;
  pc_lora_alpha : Z;
}.

Context (from_json_file : string -> result peft_config) (read_file : string -> result (list (string * tensor))).

(** The paths that [get_file_from_repo] gives for the configuration and for the weights. *)
Record repo_files := mkRepoFiles {
  rf_config : result (option string);
  rf_weights : result (option string);
}.

Definition get_adapter_from_repo (files : repo_files) (block_idx : option Z) : result (peft_config * list (string * tensor)) :=
  config_path ← rf_config files;
  config_path ← get_or RuntimeError config_path;
  config ← from_json_file config_path;
  weight_path ← rf_weights files;
  weight_path ← get_or RuntimeError weight_path;
  file ← read_file weight_path;
  Ok (config, match block_idx with None => file | Some i => load_specific_module i file end).

(** What an attempt to download finds: the sizes on the hub, the state of the disk, the files. *)
Record peft_attempt := mkPeftAttempt {
  pt_config_size : result (option Z);
  pt_weight_size : result (option Z);
  pt_free : Z;
  pt_size_on_disk : Z;
  pt_cached_files : list cached_file;
  pt_files : repo_files;
}.

(** [config_file_size + weight_file_size], where a size may be [None]. *)
Definition add_sizes (a b : option Z) : result Z :=
  match a, b with Some a, Some b => Ok (a + b) | _, _ => Err TypeError end.

Definition try_download_peft (max_disk_space : option Z) (a : peft_attempt) (block_idx : option Z) :=
  config_file_size ← pt_config_size a;
  weight_file_size ← pt_weight_size a;
  file_size ← add_sizes config_file_size weight_file_size;
  _ ← (free_disk_space_for file_size (pt_free a) os_quota (pt_size_on_disk a) max_disk_space (pt_cached_files a)).2;
  get_adapter_from_repo (pt_files a) block_idx.

(** [while True], with a pause after every [Exception]; [None]: no attempt has succeeded yet. *)
Fixpoint peft_loop (max_disk_space : option Z) (attempts : list peft_attempt) (block_idx : option Z)
    : option (result (peft_config * list (string * tensor))) :=
  match attempts with
  | [] => None
  | a :: rest =>
      match try_download_peft max_disk_space a block_idx with
      | Ok r => Some (Ok r)
      | Err e => if is_Exception e then peft_loop max_disk_space rest block_idx else Some (Err e)
      end
  end.

(** [load_peft]: [exists_] is what [check_peft_repository] answers, [first] what the first attempt finds; it may download
    too, without freeing space. *)
Definition load_peft (exists_ : result bool) (first : repo_files) (max_disk_space : option Z) (attempts : list peft_attempt)
    (block_idx : option Z) : option (result (peft_config * list (string * tensor))) :=
  match (found ← exists_; raise_if (negb found) ValueError) with
  | Err e => Some (Err e)
  | Ok _ =>
      match get_adapter_from_repo first block_idx with
      | Ok r => Some (Ok r)
      | Err e => if is_Exception e then peft_loop max_disk_space attempts block_idx else Some (Err e)
      end
  end.
End peft.

Arguments load_specific_module {tensor} _ _ _.
Arguments add_sizes _ _ : simpl nomatch.

(** ** The adapter in use *)

(** [AdapterContextMixin]: the class attribute [_context_active_adapter]. *)
Definition ADAPTER_NOT_SET : string := "__ADAPTER_NOT_SET".

(** [with using_adapter(active_adapter): m] *)
Definition using_adapter {A} (active_adapter : option string) (m : prog (option string) A) : prog (option string) A := fun prev =>
  finally m (fun _ => prev) active_adapter.

(** The property [active_adapter] of a layer. *)
Definition get_active_adapter : prog (option string) (option string) := reads id.

(** Its setter, which peft's constructor calls. *)
Definition set_active_adapter (value : option string) : result unit := assert_ (bool_decide (value = Some ADAPTER_NOT_SET)).

(** ** Adapters in a block *)

Section lora.
Context {tensor : Type}.

(** A wrapped linear layer with the weights [lora_A] and [lora_B] of its adapters. *)
Record lora_layer := mkLoraLayer {
  lo_base : linear tensor;
  lo_A : list (string * parameter tensor);
  lo_B : list (string * parameter tensor);
}.

Definition map_lora (f : parameter tensor -> parameter tensor) (l : lora_layer) : lora_layer :=
  mkLoraLayer (map_linear f (lo_base l)) (prod_map id f <$> lo_A l) (prod_map id f <$> lo_B l).

(** A wrapper with the weight and the bias of the layer, both frozen; a 4-bit wrapper also reads [compute_dtype], which
    only 4-bit layers have. *)
Definition lora_wrapped_child (q : QuantType) (l : linear tensor) : result lora_layer :=
  _ ← raise_if (bool_decide (q = NF4 /\ li_class l <> NF4)) AttributeError;
  Ok (mkLoraLayer (map_linear freeze (mkLinear q (li_in_features l) (li_out_features l) (li_weight l) (li_bias l))) [] []).

(** Visits the named children of every module of [named_modules], in its order: the layers among the children of a module
    are replaced by [f], then the walk enters its children. *)
Section visit.
Context {L M : Type} (f : string -> L -> result M).

Definition visit_layer (nc : string * module tensor L) : result (option M) :=
  match nc.2 with Leaf l => Some <$> f nc.1 l | Node _ _ _ => Ok None end.

(** The children of the new module: the layers from [replaced], the others after the walk through them. *)
Definition enter_children (visit : module tensor L -> result (list (string * module tensor M))) :=
  fix go (cs : list (string * module tensor L)) (replaced : list (option M)) : result (list (string * module tensor M)) :=
    match cs, replaced with
    | (n, c) :: cs, r :: replaced =>
        c ← (match r, c with
             | Some l, _ => Ok (Leaf l)
             | None, Node h own _ => cs' ← visit c; Ok (Node h own cs')
             | None, Leaf _ => Err RuntimeError      (* not reached: a layer is replaced *)
             end);
        cs ← go cs replaced;
        Ok ((n, c) :: cs)
    | _, _ => Ok []
    end.

Fixpoint visit_children (m : module tensor L) : result (list (string * module tensor M)) :=
  match m with
  | Leaf _ => Ok []
  | Node _ _ cs => replaced ← mapR visit_layer cs; enter_children visit_children cs replaced
  end.
End visit.

(** [create_lora_adapter] on the named children of a block. *)
Definition create_lora_adapter (q : QuantType) (block : list (string * module tensor (linear tensor)))
    : result (list (string * module tensor lora_layer)) :=
  visit_children (fun _ => lora_wrapped_child q) (Node None [] block).

(** [update_layer] of peft, [re.fullmatch], and [weight[...] = t]. *)
Context (update_layer : lora_layer -> string -> peft_config -> result lora_layer).
Context (fullmatch : string -> string -> bool).
Context (copy_into : tensor -> tensor -> result tensor).

(** [child_name in target_modules or (isinstance(target_modules, str) and re.fullmatch(...))] *)
Definition is_target (t : target_modules) (child_name : string) : result bool :=
  match t with
  | TargetList l => Ok (bool_decide (child_name ∈ l))
  | TargetStr s => Ok (match String.index 0 child_name s with Some _ => true | None => false end || fullmatch s child_name)
  | TargetNone => Err TypeError
  end.

(** [child_name in peft_key] *)
Definition mentions (child_name peft_key : string) : bool :=
  match String.index 0 child_name peft_key with Some _ => true | None => false end.

(** Writes the tensor into the weight of the adapter. *)
Definition set_weight (d : list (string * parameter tensor)) (adapter_name : string) (t : tensor) : result (list (string * parameter tensor)) :=
  p ← get_or KeyError (dget d adapter_name);
  t ← copy_into (pa_data p) t;
  Ok (dset d adapter_name (mkParameter t (pa_quant p) (pa_requires_grad p) (pa_device p))).

(** One round of the loop over the keys of the state dict. *)
Definition load_key (adapter_name child_name : string) (cfg : peft_config) (st : lora_layer * (bool * bool)) (kt : string * tensor)
    : result (lora_layer * (bool * bool)) :=
  let '(child, (is_lora_a_loaded, is_lora_b_loaded)) := st in
  let '(peft_key, t) := kt in
  if negb (mentions child_name peft_key) then Ok st
  else
    child ← (if dmem (lo_A child) adapter_name then Ok child
             else child ← update_layer child adapter_name cfg; Ok (map_lora freeze child));
    if str_ends_with ".lora_A.weight" peft_key then
      a ← set_weight (lo_A child) adapter_name t;
      Ok (mkLoraLayer (lo_base child) a (lo_B child), (true, is_lora_b_loaded))
    else if str_ends_with ".lora_A.bias" peft_key then Err NotImplementedError
    else if str_ends_with ".lora_B.weight" peft_key then
      b ← set_weight (lo_B child) adapter_name t;
      Ok (mkLoraLayer (lo_base child) (lo_A child) b, (is_lora_a_loaded, true))
    else if str_ends_with ".lora_B.bias" peft_key then Err NotImplementedError
    else Ok (child, (is_lora_a_loaded, is_lora_b_loaded)).

(** What [add_adapter_to_block] does with a child that is a LoRA layer. *)
Definition add_to_child (adapter_name : string) (cfg : peft_config) (sd : list (string * tensor)) (child_name : string) (child : lora_layer)
    : result lora_layer :=
  target ← is_target (pc_target_modules cfg) child_name;
  if target : bool then
    '(child, (a, b)) ← foldR (load_key adapter_name child_name cfg) (child, (false, false)) sd;
    _ ← raise_if (xorb a b) ValueError;
    Ok child
  else Ok child.

Definition add_adapter_to_block (adapter_name : string) (cfg : peft_config) (sd : list (string * tensor))
    (block : list (string * module tensor lora_layer)) : result (list (string * module tensor lora_layer)) :=
  _ ← assert_ (String.eqb (pc_peft_type cfg) "LORA");
  visit_children (add_to_child adapter_name cfg sd) (Node None [] block).

(** ** The memory of adapters *)

Context (numel : tensor -> Z).

Definition lora_parameters (l : lora_layer) : list (parameter tensor) :=
  linear_parameters (lo_base l) ++ map snd (lo_A l) ++ map snd (lo_B l).

Definition count_parameters {L} (of_layer : L -> list (parameter tensor)) (m : module tensor L) : Z :=
  zsum (map (fun p => numel (pa_data p)) (parameters of_layer m)).

(** [estimate_adapter_memory_per_block] for a block with these own parameters and children; [load] is [load_peft] for
    the block 0. *)
Definition estimate_adapter_memory_per_block (upper : string -> string) (load : string -> result (peft_config * list (string * tensor)))
    (own : list (parameter tensor)) (block : list (string * module tensor (linear tensor))) (dtype_bytes : Z) (adapters : list string)
    : result Z :=
  let base_block_parameters := count_parameters linear_parameters (Node None own block) in
  block ← create_lora_adapter QNONE block;
  block ← foldR (fun block adapter =>
    '(cfg, sd) ← load adapter;
    _ ← assert_ (String.eqb (upper (pc_peft_type cfg)) "LORA");
    add_adapter_to_block adapter cfg sd block) block adapters;
  let adapter_parameters := count_parameters lora_parameters (Node None own block) - base_block_parameters in
  Ok (adapter_parameters * dtype_bytes).

(** ** [convert_block] *)

Inductive converted :=
  | Plain (b : TensorParallel tensor (linear tensor))
  | WithAdapters (b : TensorParallel tensor lora_layer).

Section convert.
Context (get_bloom_config : conversion_config -> list torch_device -> list (string * string)).
Context (TensorParallel_ : module tensor (linear tensor) -> list torch_device -> option (list (string * string)) -> torch_device ->
  result (TensorParallel tensor (linear tensor))).
Context (load : string -> Z -> result (peft_config * list (string * tensor))).

Definition convert_block (block : module tensor (linear tensor)) (block_index : Z) (config : conversion_config)
    (tensor_parallel_devices : list torch_device) (output_device : torch_device) (quant_type : QuantType) (freeze_ : bool)
    (adapters : list string) : result converted :=
  b ← prepare_block get_bloom_config TensorParallel_ block config tensor_parallel_devices output_device quant_type freeze_;
  match adapters with
  | [] => Ok (Plain b)
  | _ =>
      shards ← create_lora_adapter quant_type (module_shards b);
      shards ← foldR (fun shards adapter_name =>
        '(adapter_config, adapter_state_dict) ← load adapter_name block_index;
        add_adapter_to_block adapter_name adapter_config adapter_state_dict shards) shards adapters;
      Ok (WithAdapters (mkTensorParallel shards (tp_devices b)))
  end.
End convert.
End lora.
Arguments lora_layer : clear implicits.
Arguments converted : clear implicits.

(** ** Keys of a block *)

(** A part of a key between two dots. *)
Definition plain (s : string) : Prop := s <> "" /\ str_contains "." s = false /\ str_contains newline s = false.

Lemma plain_dots l : Forall plain l -> Forall (fun s => str_contains "." s = false) l.
Proof. intros H. apply (Forall_impl _ _ _ H). by intros s (_ & Hd & _). Qed.

Lemma join_plain l : l <> [] -> Forall plain l ->
  join_with "." l <> "" /\ str_contains newline (join_with "." l) = false.
Proof.
  intros Hne H. induction H as [|s l (Hs & _ & Hn) H IH]; [done|]. destruct l as [|s' l]; [done|].
  change (join_with "." (s :: s' :: l)) with (s +:+ String "." (join_with "." (s' :: l))). destruct (IH ltac:(done)) as [_ Hj].
  split; [by destruct s|]. rewrite str_contains_app, Hn. exact Hj.
Qed.

Lemma join_any_chars l : l <> [] -> Forall plain l -> any_chars (join_with "." l) = true /\ starts_any (join_with "." l) = true.
Proof.
  intros Hne H. destruct (join_plain l Hne H) as [H1 H2]. unfold any_chars. rewrite H2. destruct (join_with "." l) as [|c s]; [done|].
  split; [done|]. cbn in *. by apply orb_false_iff in H2 as [-> _].
Qed.

Lemma match_at_other common idx segments i s : segments !! i = Some s -> s ∉ optional_names common ->
  match_at common idx segments i = false.
Proof.
  intros Hi Hs. unfold match_at. rewrite (drop_S segments s i Hi). destruct (drop (S i) segments) as [|p rest]; [done|].
  by rewrite (bool_decide_eq_false_2 _ Hs), andb_false_r.
Qed.

Lemma existsb_one {A} (f : A -> bool) l1 x l2 :
  Forall (fun y => f y = false) l1 -> Forall (fun y => f y = false) l2 -> existsb f (l1 ++ x :: l2) = f x.
Proof.
  intros H1 H2. rewrite existsb_app. cbn.
  assert (E : forall l, Forall (fun y => f y = false) l -> existsb f l = false).
  { intros l H. induction H as [|y l Hy H IH]; [done|]. cbn. by rewrite Hy. }
  by rewrite (E l1 H1), (E l2 H2), orb_false_r.
Qed.

(** A key [pre.layers.i.post] matches the pattern of the block [j] exactly if [i = j]. *)
Lemma key_matches_block common pre layer i post j :
  pre <> [] -> post <> [] -> Forall plain (pre ++ layer :: post) ->
  layer ∈ optional_names common -> Forall (fun s => s ∉ optional_names common) (pre ++ str_of_Z i :: post) ->
  key_matches common j (join_with "." (pre ++ layer :: str_of_Z i :: post)) = (i =? j).
Proof.
  intros Hpre Hpost Hplain Hlayer Hothers. unfold key_matches.
  rewrite Forall_app, Forall_cons in Hplain. destruct Hplain as (Hp1 & Hp2 & Hp3).
  rewrite Forall_app, Forall_cons in Hothers. destruct Hothers as (Ho1 & Ho2 & Ho3).
  rewrite split_join.
  2: { by destruct pre. }
  2: { apply Forall_app. split; [by apply plain_dots|]. constructor; [by destruct Hp2 as (_ & ? & _)|].
       constructor; [by apply str_of_Z_no_sep|by apply plain_dots]. }
  assert (Hseq : seq 0 (length (pre ++ layer :: str_of_Z i :: post)) =
    seq 0 (length pre) ++ length pre :: seq (S (length pre)) (length (str_of_Z i :: post))).
  { rewrite length_app. cbn [length]. by rewrite seq_app. }
  rewrite Hseq, existsb_one.
  - unfold match_at. rewrite drop_app_length, take_app_length.
    destruct (join_any_chars pre Hpre Hp1) as [-> _]. destruct (join_any_chars post Hpost Hp3) as [_ ->].
    rewrite bool_decide_eq_true_2 by done. rewrite andb_true_r. cbn [andb].
    assert (Hi : str_of_Z i <> "").
    { intros E. apply (f_equal py_int) in E. rewrite py_int_str_of_Z in E. done. }
    rewrite (proj2 (String.eqb_neq _ _) Hi). cbn [orb]. destruct (Z.eqb_spec i j) as [->|Hij]; [apply String.eqb_refl|].
    apply String.eqb_neq. intros E. by apply str_of_Z_inj in E.
  - apply Forall_forall. intros k Hk. apply elem_of_seq in Hk.
    destruct (lookup_lt_is_Some_2 pre k) as [s Hs]; [lia|]. rewrite (match_at_other _ _ _ _ s); [done|by apply lookup_app_l_Some|].
    rewrite Forall_forall in Ho1. apply Ho1. by apply (list_elem_of_lookup_2 _ k).
  - apply Forall_forall. intros k Hk. apply elem_of_seq in Hk. cbn [length] in Hk.
    assert (Hot : Forall (fun s => s ∉ optional_names common) (str_of_Z i :: post)) by by constructor.
    destruct (lookup_lt_is_Some_2 (str_of_Z i :: post) (k - S (length pre))) as [s Hs]; [cbn [length]; lia|].
    rewrite (match_at_other _ _ _ _ s); [done| |].
    + replace (pre ++ layer :: str_of_Z i :: post) with ((pre ++ [layer]) ++ str_of_Z i :: post) by by rewrite <- app_assoc.
      rewrite lookup_app_r by (rewrite length_app; cbn; lia). rewrite length_app. cbn [length]. by rewrite Nat.add_1_r.
    + rewrite Forall_forall in Hot. apply Hot. by apply (list_elem_of_lookup_2 _ _ _ Hs).
Qed.

(** A key of a tensor of the block [i]. *)
Definition block_key (common : list string) (i : Z) (k : string) : Prop :=
  exists pre layer post, pre <> [] /\ post <> [] /\ Forall plain (pre ++ layer :: post) /\ layer ∈ optional_names common /\
    Forall (fun s => s ∉ optional_names common) (pre ++ str_of_Z i :: post) /\
    k = join_with "." (pre ++ layer :: str_of_Z i :: post).

Section downloads.
Context {tensor : Type} (common : list string).
Context (from_json_file : string -> result peft_config) (read_file : string -> result (list (string * tensor))).

Lemma load_specific_module_filter j (file : list (string * tensor)) : NoDup (dkeys file) ->
  load_specific_module common j file = List.filter (fun kt => key_matches common j kt.1) file.
Proof.
  unfold load_specific_module. enough (H : forall acc, NoDup (dkeys (acc ++ file)) ->
    fold_left (fun tensors kt => if key_matches common j kt.1 then dset tensors kt.1 kt.2 else tensors) file acc =
    acc ++ List.filter (fun kt => key_matches common j kt.1) file) by (intros Hnd; by apply (H [])).
  induction file as [|[k t] file IH]; intros acc Hnd; cbn [fold_left List.filter]; [by rewrite app_nil_r|]. cbn [fst snd].
  unfold dkeys in Hnd. rewrite map_app in Hnd. cbn [map fst] in Hnd. destruct (key_matches common j k).
  - rewrite dset_absent.
    + rewrite IH; [by rewrite <- app_assoc|]. unfold dkeys. rewrite <- app_assoc, map_app. exact Hnd.
    + apply NoDup_app in Hnd as (_ & Hd & _). intros Hin. apply (Hd k); [done|by left].
  - apply IH. unfold dkeys. rewrite map_app. apply NoDup_app in Hnd as (H1 & H2 & H3). apply NoDup_app. split_and!; [done| |by inversion H3].
    intros x Hx Hin. apply (H2 x Hx). by right.
Qed.

(** The files of an adapter are there and can be read. *)
Definition good_files (files : repo_files) (cfg : peft_config) (file : list (string * tensor)) : Prop :=
  exists config_path weight_path, rf_config files = Ok (Some config_path) /\ from_json_file config_path = Ok cfg /\
    rf_weights files = Ok (Some weight_path) /\ read_file weight_path = Ok file.

Lemma good_files_loaded files cfg file j : good_files files cfg file ->
  get_adapter_from_repo common from_json_file read_file files (Some j) = Ok (cfg, load_specific_module common j file).
Proof. intros (pc & pw & H1 & H2 & H3 & H4). unfold get_adapter_from_repo. rewrite H1. cbn. rewrite H2. cbn. rewrite H3. cbn. by rewrite H4. Qed.

(** An attempt that succeeds: the sizes are known, there is room, and the files are there. *)
Definition good_attempt (max_disk_space : option Z) (a : peft_attempt) (cfg : peft_config) (file : list (string * tensor)) : Prop :=
  good_files (pt_files a) cfg file /\ exists m n, pt_config_size a = Ok (Some m) /\ pt_weight_size a = Ok (Some n) /\
    (free_disk_space_for (m + n) (pt_free a) os_quota (pt_size_on_disk a) max_disk_space (pt_cached_files a)).2 = Ok ().

(** What went wrong is an [Exception], which the loop survives. *)
Definition survivable {A} (r : result A) : Prop := exists e, r = Err e /\ is_Exception e = true.

Lemma peft_loop_first max_disk_space before a rest j r :
  Forall (fun a => survivable (try_download_peft common from_json_file read_file max_disk_space a (Some j))) before ->
  try_download_peft common from_json_file read_file max_disk_space a (Some j) = Ok r ->
  peft_loop common from_json_file read_file max_disk_space (before ++ a :: rest) (Some j) = Some (Ok r).
Proof. intros H Ha. induction H as [|b before (e & Hb & He) H IH]; cbn; [by rewrite Ha|]. by rewrite Hb, He. Qed.

(** When the hub does not tell the size of a file, the sum raises a [TypeError] and the download is tried for ever. *)
Lemma unknown_size_forever max_disk_space attempts j :
  Forall (fun a => exists m n, pt_config_size a = Ok m /\ pt_weight_size a = Ok n /\ (m = None \/ n = None)) attempts ->
  peft_loop common from_json_file read_file max_disk_space attempts j = None.
Proof.
  intros H. induction H as [|a attempts (m & n & H1 & H2 & Hmn) H IH]; [done|]. cbn [peft_loop]. unfold try_download_peft.
  rewrite H1. cbn. rewrite H2. cbn. by destruct Hmn as [-> | ->]; [|destruct m].
Qed.

(** C24: whatever failed before, an adapter that can be had is loaded with its configuration and, of the tensors of
    blocks, exactly those of the block asked for. *)
Theorem load_peft_exact first max_disk_space attempts cfg file j :
  NoDup (dkeys file) ->
  good_files first cfg file \/
    survivable (get_adapter_from_repo common from_json_file read_file first (Some j)) /\
    (exists before a rest, attempts = before ++ a :: rest /\ good_attempt max_disk_space a cfg file /\
      Forall (fun a => survivable (try_download_peft common from_json_file read_file max_disk_space a (Some j))) before) ->
  exists tensors, load_peft common from_json_file read_file (Ok true) first max_disk_space attempts (Some j) = Some (Ok (cfg, tensors)) /\
    (forall kt, kt ∈ tensors -> kt ∈ file) /\
    forall i k t, (k, t) ∈ file -> block_key common i k -> ((k, t) ∈ tensors <-> i = j).
Proof.
  intros Hnd H. exists (load_specific_module common j file). split_and!.
  - unfold load_peft. cbn [mbind result_bind negb raise_if]. destruct H as [H|((e & H1 & H2) & before & a & rest & -> & Ha & Hbefore)].
    + by rewrite (good_files_loaded _ _ _ _ H).
    + rewrite H1, H2. apply peft_loop_first; [done|]. destruct Ha as (Hf & m & n & Hm & Hn & Hroom). unfold try_download_peft.
      rewrite Hm. cbn. rewrite Hn. cbn. rewrite Hroom. cbn. by apply good_files_loaded.
  - intros kt. rewrite load_specific_module_filter, !list_elem_of_In, List.filter_In by done. tauto.
  - intros i k t Hin (pre & layer & post & H1 & H2 & H3 & H4 & H5 & ->).
    rewrite load_specific_module_filter, list_elem_of_In, List.filter_In, <- list_elem_of_In by done. cbn [fst].
    rewrite key_matches_block by done. rewrite Z.eqb_eq. tauto.
Qed.
End downloads.

(** An adapter of LLaMA: a first attempt fails, the second one finds the files. *)
Definition llama_pattern : list string := ["layers"; "h"; "block"; "blocks"; "layer"].
Definition llama_adapter : list (string * Z) :=
  [("base_model.model.model.layers.3.self_attn.q_proj.lora_A.weight", 30);
   ("base_model.model.model.layers.13.self_attn.q_proj.lora_A.weight", 130)].
Definition lora_cfg (targets : target_modules) : peft_config := mkPeftConfig "LORA" false targets 8 16.
Definition here : repo_files := mkRepoFiles (Ok (Some "config")) (Ok (Some "weights")).

Lemma llama_key i : i = 3 \/ i = 13 ->
  block_key llama_pattern i ("base_model.model.model.layers." +:+ str_of_Z i +:+ ".self_attn.q_proj.lora_A.weight").
Proof.
  intros Hi. exists ["base_model"; "model"; "model"], "layers", ["self_attn"; "q_proj"; "lora_A"; "weight"].
  split_and!; [done..| | | |by destruct Hi as [-> | ->]].
  - by repeat constructor.
  - by apply (bool_decide_unpack _), (eq_ind true Is_true I).
  - destruct Hi as [-> | ->]; (apply (bool_decide_unpack _)); by vm_compute.
Qed.

Lemma load_peft_exact_witness :
  exists tensors, load_peft llama_pattern (fun _ => Ok (lora_cfg (TargetList ["q_proj"]))) (fun _ => Ok llama_adapter) (Ok true)
      (mkRepoFiles (Err ConnectionClosed) (Ok None)) None
      [mkPeftAttempt (Ok None) (Ok (Some 10)) (2 ^ 40) 0 [] here; mkPeftAttempt (Ok (Some 5)) (Ok (Some 10)) (2 ^ 40) 0 [] here] (Some 3)
    = Some (Ok (lora_cfg (TargetList ["q_proj"]), tensors)) /\
    (("base_model.model.model.layers.13.self_attn.q_proj.lora_A.weight", 130) ∈ tensors <-> 13 = 3).
Proof.
  destruct (load_peft_exact llama_pattern (fun _ => Ok (lora_cfg (TargetList ["q_proj"]))) (fun _ => Ok llama_adapter)
    (mkRepoFiles (Err ConnectionClosed) (Ok None)) None
    [mkPeftAttempt (Ok None) (Ok (Some 10)) (2 ^ 40) 0 [] here; mkPeftAttempt (Ok (Some 5)) (Ok (Some 10)) (2 ^ 40) 0 [] here]
    (lora_cfg (TargetList ["q_proj"])) llama_adapter 3) as (tensors & H1 & _ & H2).
  - by apply (bool_decide_unpack _); vm_compute.
  - right. split; [by exists ConnectionClosed|]. eexists [_], _, []. split_and!; [reflexivity| |].
    + split; [by exists "config", "weights"|]. by exists 5, 10.
    + constructor; [by exists TypeError|constructor].
  - exists tensors. split; [exact H1|]. apply H2; [by right; left|]. by apply (llama_key 13); right.
Defined.

(** ** Walks over a block *)

Section walks.
Context {tensor : Type} {L M : Type} (f : string -> L -> result M).

(** A layer of a visited tree: in the same place, changed by [f] under its own name. *)
Definition visited (a : list string * L) (b : list string * M) : Prop :=
  b.1 = a.1 /\ exists n, last a.1 = Some n /\ f n a.2 = Ok b.2.

Definition visitable (a : list string * L) : Prop := forall n, last a.1 = Some n -> exists m, f n a.2 = Ok m.

Definition under {L} (path : list string) (cs : list (string * module tensor L)) : list (list string * L) :=
  flat_map (fun nc => layers_of (path ++ [nc.1]) nc.2) cs.

(** What the walk makes of the children of a module. *)
Definition walk_spec (m : module tensor L) : Prop :=
  match m with
  | Leaf _ => True
  | Node _ _ cs => forall path, Forall visitable (under path cs) ->
      exists cs', visit_children f m = Ok cs' /\ forall path, Forall2 visited (under path cs) (under path cs')
  end.

Lemma visit_children_spec (m : module tensor L) : walk_spec m.
Proof.
  induction m as [l|h own cs IH] using module_ind; [done|]. intros path Hv. unfold under in Hv. rewrite Forall_flat_map in Hv.
  assert (H : exists replaced cs', mapR (visit_layer f) cs = Ok replaced /\
    enter_children (visit_children f) cs replaced = Ok cs' /\ forall path, Forall2 visited (under path cs) (under path cs')).
  { induction IH as [|[n c] cs Hc IH IHcs]; [exists [], []; by split_and!; [| |constructor]|].
    apply Forall_cons in Hv as [Hn Hv]. destruct (IHcs Hv) as (replaced & cs' & H1 & H2 & H3). cbn [fst snd] in Hn.
    destruct c as [l|h' own' cs0].
    - cbn [layers_of] in Hn. rewrite Forall_singleton in Hn. destruct (Hn n) as [m Hm]; [cbn; by rewrite last_snoc|].
      exists (Some m :: replaced), ((n, Leaf m) :: cs'). cbn [mapR]. cbn [fst snd] in Hm.
      change (visit_layer f (n, Leaf l)) with (Some <$> f n l). rewrite Hm. cbn [fmap result_fmap]. rewrite H1. split_and!; [done| |].
      + cbn. by rewrite H2.
      + intros p. cbn. constructor; [|apply H3]. split; [done|]. exists n. cbn. by rewrite last_snoc.
    - cbn [layers_of] in Hn. destruct (Hc (path ++ [n]) Hn) as (cs1 & H4 & H5).
      exists (None :: replaced), ((n, Node h' own' cs1) :: cs'). split_and!.
      + cbn [mapR]. change (visit_layer f (n, Node h' own' cs0)) with (Ok (A := option M) None). by rewrite H1.
      + cbn [snd] in H4. cbn [enter_children]. rewrite H4. cbn. by rewrite H2.
      + intros p. exact (Forall2_app (H5 (p ++ [n])) (H3 p)). }
  destruct H as (replaced & cs' & H1 & H2 & H3). exists cs'. split; [|done]. cbn [visit_children]. by rewrite H1.
Qed.
End walks.

(** ** Loading an adapter *)

Section loading.
Context {tensor : Type}.
Context (update_layer : lora_layer tensor -> string -> peft_config -> result (lora_layer tensor)).
Context (fullmatch : string -> string -> bool) (copy_into : tensor -> tensor -> result tensor).
Context (adapter : string) (cfg : peft_config) (sd : list (string * tensor)).

(** The tensors for the layers with a name, if exactly one pair of keys mentions it. *)
Definition tensors_for (name : string) : option (tensor * tensor) :=
  match List.filter (fun kt => mentions name kt.1) sd with
  | [(ka, a); (kb, b)] =>
      if str_ends_with ".lora_A.weight" ka && negb (str_ends_with ".lora_A.weight" kb) && negb (str_ends_with ".lora_A.bias" kb) &&
         str_ends_with ".lora_B.weight" kb then Some (a, b) else None
  | _ => None
  end.

(** What peft does for a layer without the adapter: both weights are added, and take the tensors. *)
Definition takes (l : lora_layer tensor) (ta tb : tensor) : Prop :=
  dmem (lo_A l) adapter = false /\ exists l' a b, update_layer l adapter cfg = Ok l' /\ lo_base l' = lo_base l /\
    lo_A l' = dset (lo_A l) adapter a /\ lo_B l' = dset (lo_B l) adapter b /\
    copy_into (pa_data a) ta = Ok ta /\ copy_into (pa_data b) tb = Ok tb.

Definition targeted (name : string) : Prop := is_target fullmatch (pc_target_modules cfg) name = Ok true.

Lemma load_key_other name st kt : mentions name kt.1 = false -> load_key update_layer copy_into adapter name cfg st kt = Ok st.
Proof. destruct st as [c [a b]], kt as [k t]. cbn. by intros ->. Qed.

Lemma load_keys_filter name st :
  foldR (load_key update_layer copy_into adapter name cfg) st sd =
  foldR (load_key update_layer copy_into adapter name cfg) st (List.filter (fun kt => mentions name kt.1) sd).
Proof.
  clear. revert st. induction sd as [|kt l IH]; intros st; [done|]. cbn [List.filter foldR]. destruct (mentions name kt.1) eqn:E.
  - cbn [foldR]. by destruct (load_key _ _ _ _ _ _ _).
  - by rewrite load_key_other.
Qed.

Lemma dget_fmap_data (f : parameter tensor -> parameter tensor) (d : list (string * parameter tensor)) n :
  dget (prod_map id f <$> d) n = f <$> dget d n.
Proof. induction d as [|[k v] d IH]; [done|]. cbn. by case_decide. Qed.

(** The layer after the adapter has been loaded into it. *)
Definition loaded_with (ta tb : tensor) (l l' : lora_layer tensor) : Prop :=
  (pa_data <$> dget (lo_A l') adapter) = Some ta /\ (pa_data <$> dget (lo_B l') adapter) = Some tb /\
  lo_base l' = map_linear freeze (lo_base l) /\
  forall other, other <> adapter -> (pa_data <$> dget (lo_A l') other) = (pa_data <$> dget (lo_A l) other) /\
    (pa_data <$> dget (lo_B l') other) = (pa_data <$> dget (lo_B l) other).

Lemma set_weight_ok d p t : dget d adapter = Some p -> copy_into (pa_data p) t = Ok t ->
  set_weight copy_into d adapter t = Ok (dset d adapter (mkParameter t (pa_quant p) (pa_requires_grad p) (pa_device p))).
Proof. intros H1 H2. unfold set_weight. rewrite H1. cbn. by rewrite H2. Qed.

Lemma add_to_child_loaded name l ta tb : targeted name -> tensors_for name = Some (ta, tb) -> takes l ta tb ->
  exists l', add_to_child update_layer fullmatch copy_into adapter cfg sd name l = Ok l' /\ loaded_with ta tb l l'.
Proof.
  intros Ht Htf (Hfresh & l1 & a & b & Hup & Hbase & HA & HB & Hca & Hcb). unfold add_to_child. rewrite Ht. cbn [mbind result_bind].
  rewrite load_keys_filter. unfold tensors_for in Htf.
  destruct (List.filter _ sd) as [|[ka ta'] [|[kb tb'] [|]]] eqn:Ef; try done.
  destruct (str_ends_with ".lora_A.weight" ka) eqn:E1, (str_ends_with ".lora_A.weight" kb) eqn:E2,
    (str_ends_with ".lora_A.bias" kb) eqn:E3, (str_ends_with ".lora_B.weight" kb) eqn:E4; try done. injection Htf as -> ->.
  assert (Hm : forall kt, kt ∈ [(ka, ta); (kb, tb)] -> mentions name kt.1 = true).
  { intros kt. rewrite <- Ef, list_elem_of_In, List.filter_In. by intros [_ ?]. }
  pose proof (Hm (ka, ta) ltac:(left)) as Hma. pose proof (Hm (kb, tb) ltac:(right; left)) as Hmb. cbn in Hma, Hmb.
  set (l2 := map_lora freeze l1).
  assert (HA2 : dget (lo_A l2) adapter = Some (freeze a)) by (cbn; by rewrite dget_fmap_data, HA, dget_dset_eq).
  assert (HB2 : dget (lo_B l2) adapter = Some (freeze b)) by (cbn; by rewrite dget_fmap_data, HB, dget_dset_eq).
  pose proof (set_weight_ok (lo_A l2) (freeze a) ta HA2 Hca) as HsA.
  pose proof (set_weight_ok (lo_B l2) (freeze b) tb HB2 Hcb) as HsB.
  set (a' := mkParameter ta _ _ _) in HsA. set (b' := mkParameter tb _ _ _) in HsB.
  exists (mkLoraLayer (lo_base l2) (dset (lo_A l2) adapter a') (dset (lo_B l2) adapter b')). split.
  - cbn [foldR]. unfold load_key at 1. rewrite Hma. cbn [negb]. rewrite Hfresh, Hup. cbn [mbind result_bind]. fold l2. rewrite E1, HsA.
    cbn [mbind result_bind]. unfold load_key. rewrite Hmb. cbn [negb lo_A lo_B].
    assert (Hin : dmem (dset (lo_A l2) adapter a') adapter = true) by (unfold dmem; by rewrite dget_dset_eq).
    rewrite Hin. cbn [mbind result_bind]. rewrite E2, E3, E4. cbn [lo_B lo_A]. by rewrite HsB.
  - split_and!; cbn [lo_A lo_B lo_base]; [by rewrite dget_dset_eq..|by rewrite <- Hbase|].
    intros other Ho. rewrite !dget_dset_ne by done. cbn. rewrite !dget_fmap_data, HA, HB, !dget_dset_ne by done.
    by destruct (dget (lo_A l) other), (dget (lo_B l) other).
Qed.

(** C23: an adapter whose keys mention every layer that it targets in exactly one pair is loaded into all of them, and
    changes no other layer and no other adapter. *)
Theorem add_adapter_exact (block : list (string * module tensor (lora_layer tensor))) :
  pc_peft_type cfg = "LORA" ->
  Forall (fun pl => forall n, last pl.1 = Some n -> is_target fullmatch (pc_target_modules cfg) n = Ok false \/
    targeted n /\ exists ta tb, tensors_for n = Some (ta, tb) /\ takes pl.2 ta tb) (child_layers block) ->
  exists block', add_adapter_to_block update_layer fullmatch copy_into adapter cfg sd block = Ok block' /\
    Forall2 (fun a b => b.1 = a.1 /\ exists n, last a.1 = Some n /\
        ((is_target fullmatch (pc_target_modules cfg) n = Ok false /\ b.2 = a.2) \/
         exists ta tb, tensors_for n = Some (ta, tb) /\ loaded_with ta tb a.2 b.2))
      (child_layers block) (child_layers block').
Proof.
  intros Hlora Hl. unfold add_adapter_to_block. rewrite Hlora. cbn [mbind result_bind assert_ String.eqb].
  set (f := add_to_child update_layer fullmatch copy_into adapter cfg sd).
  assert (Hv : Forall (visitable f) (under [] block)).
  { apply (Forall_impl _ _ _ Hl). intros [p l] H n Hn. cbn [fst snd] in *. destruct (H n Hn) as [Ht|(Ht & ta & tb & H1 & H2)].
    - exists l. unfold f, add_to_child. by rewrite Ht.
    - destruct (add_to_child_loaded n l ta tb Ht H1 H2) as (l' & H3 & _). by exists l'. }
  destruct (visit_children_spec f (Node None [] block) [] Hv) as (block' & H1 & H2). exists block'. split; [exact H1|].
  specialize (H2 []). change (under [] block) with (child_layers block) in H2. change (under [] block') with (child_layers block') in H2.
  revert H2 Hl. generalize (child_layers block) (child_layers block'). clear. intros la lb H.
  induction H as [|[p l] [p' l'] la lb (Hp & n & Hn & Hf) H IH]; intros Hl; [constructor|].
  apply Forall_cons in Hl as [Hpl Hl]. constructor; [|by apply IH]. cbn [fst snd] in *. split; [done|]. exists n. split; [done|].
  unfold f in Hf. destruct (Hpl n Hn) as [Ht|(Ht & ta & tb & H1 & H2)].
  - left. split; [done|]. unfold add_to_child in Hf. rewrite Ht in Hf. by injection Hf.
  - right. exists ta, tb. split; [done|]. destruct (add_to_child_loaded n l ta tb Ht H1 H2) as (l2 & H3 & H4). congruence.
Qed.
End loading.

(** A block of Falcon, wrapped; tensors are a shape and a name, and only copied into their own shape. *)
Abbreviation shaped := (list Z * string)%type.

Definition falcon_linear (i o : Z) (w : string) : linear shaped :=
  mkLinear QNONE i o (mkParameter ([o; i], w) QNONE true cpu) None.

Definition falcon_children : list (string * module shaped (linear shaped)) :=
  [("self_attention", Node (Some 4) [] [("query_key_value", Leaf (falcon_linear 64 192 "qkv")); ("dense", Leaf (falcon_linear 64 64 "o"))]);
   ("mlp", Node None [] [("dense_h_to_4h", Leaf (falcon_linear 64 256 "up")); ("dense_4h_to_h", Leaf (falcon_linear 256 64 "down"))])].

Definition new_weight (shape : list Z) : parameter shaped := mkParameter (shape, "init") QNONE true cpu.

Definition simple_update (l : lora_layer shaped) (name : string) (cfg : peft_config) : result (lora_layer shaped) :=
  _ ← raise_if (pc_r cfg <=? 0) ValueError;
  Ok (mkLoraLayer (lo_base l) (dset (lo_A l) name (new_weight [pc_r cfg; li_in_features (lo_base l)]))
        (dset (lo_B l) name (new_weight [li_out_features (lo_base l); pc_r cfg]))).

Definition same_shape_copy (dst src : shaped) : result shaped := _ ← raise_if (bool_decide (dst.1 <> src.1)) RuntimeError; Ok src.

Definition qkv_tensors : list (string * shaped) :=
  [("transformer.h.0.self_attention.query_key_value.lora_A.weight", ([8; 64], "qkv A"));
   ("transformer.h.0.self_attention.query_key_value.lora_B.weight", ([192; 8], "qkv B"))].

Definition mlp_tensors : list (string * shaped) :=
  [("transformer.h.0.mlp.dense_h_to_4h.lora_A.weight", ([8; 64], "up A"));
   ("transformer.h.0.mlp.dense_h_to_4h.lora_B.weight", ([256; 8], "up B"));
   ("transformer.h.0.self_attention.dense.lora_A.weight", ([8; 64], "dense A"));
   ("transformer.h.0.self_attention.dense.lora_B.weight", ([64; 8], "dense B"))].

Definition wrapped_falcon : list (string * module shaped (lora_layer shaped)) := from_ok [] (create_lora_adapter QNONE falcon_children).

Lemma add_adapter_exact_witness :
  exists block', add_adapter_to_block simple_update (fun _ _ => false) same_shape_copy "guanaco" (lora_cfg (TargetList ["query_key_value"]))
      qkv_tensors wrapped_falcon = Ok block' /\ length (child_layers block') = 4%nat.
Proof.
  destruct (add_adapter_exact simple_update (fun _ _ => false) same_shape_copy "guanaco" (lora_cfg (TargetList ["query_key_value"]))
    qkv_tensors wrapped_falcon eq_refl) as (block' & H1 & H2).
  - assert (Hrest : forall l, Forall (fun pl => last pl.1 <> Some "query_key_value") l -> Forall (fun pl => forall n, last pl.1 = Some n ->
      is_target (fun _ _ => false) (TargetList ["query_key_value"]) n = Ok false \/
      targeted (fun _ _ => false) (lora_cfg (TargetList ["query_key_value"])) n /\ exists ta tb, tensors_for qkv_tensors n = Some (ta, tb) /\
        takes simple_update same_shape_copy "guanaco" (lora_cfg (TargetList ["query_key_value"])) pl.2 ta tb) l).
    { intros l Hl. apply (Forall_impl _ _ _ Hl). intros pl Hn n Hp. left. cbn. rewrite bool_decide_eq_false_2; [done|].
      intros Hin. apply list_elem_of_singleton in Hin as ->. done. }
    apply (Forall_cons_2 _ _ (tail (child_layers wrapped_falcon))); [|apply Hrest; vm_compute; repeat constructor; done].
    intros n Hn. injection Hn as <-. right. split; [reflexivity|]. eexists _, _. split; [reflexivity|]. split; [reflexivity|]. eexists _, _, _. by split_and!.
  - exists block'. split; [exact H1|]. by apply Forall2_length in H2.
Defined.

(** An adapter for two layers of which one name is part of the other: the tensors of [dense_h_to_4h] are also copied into
    [dense], which has another shape. *)
Lemma part_of_a_name_fails :
  add_adapter_to_block simple_update (fun _ _ => false) same_shape_copy "guanaco" (lora_cfg (TargetList ["dense"; "dense_h_to_4h"]))
    mlp_tensors wrapped_falcon = Err RuntimeError.
Proof. by vm_compute. Qed.

(** ** The adapter in use *)

(** A request runs with its adapter, and the adapter in use before is back when it ends, with a value or an exception. *)
Lemma using_adapter_spec {A} active (m : prog (option string) A) prev w r :
  using_adapter active m prev = Some (w, r) -> w = prev /\ exists w', m active = Some (w', r).
Proof. unfold using_adapter. intros H. apply finally_returns in H as (w' & H1 & H2). by split; [|exists w']. Qed.

(** Every linear layer gets a wrapper with its own weight and bias, without adapters. *)
Lemma wrapped_layers {tensor} q (block : list (string * module tensor (linear tensor))) :
  Forall (fun pl => q = NF4 -> li_class pl.2 = NF4) (child_layers block) ->
  exists block', create_lora_adapter q block = Ok block' /\
    Forall2 (fun a b => b.1 = a.1 /\ li_weight (lo_base b.2) = freeze (li_weight a.2) /\ li_bias (lo_base b.2) = (freeze <$> li_bias a.2) /\
      lo_A b.2 = [] /\ lo_B b.2 = []) (child_layers block) (child_layers block').
Proof.
  intros H.
  assert (Hw : forall l : linear tensor, (q = NF4 -> li_class l = NF4) -> exists l', lora_wrapped_child q l = Ok l' /\
    li_weight (lo_base l') = freeze (li_weight l) /\ li_bias (lo_base l') = (freeze <$> li_bias l) /\ lo_A l' = [] /\ lo_B l' = []).
  { intros l Hl. unfold lora_wrapped_child. rewrite bool_decide_eq_false_2 by naive_solver. by eexists. }
  assert (Hv : Forall (visitable (fun _ => lora_wrapped_child q)) (under [] block)).
  { apply (Forall_impl _ _ _ H). intros [p l] Hl n _. destruct (Hw l Hl) as (l' & H1 & _). by exists l'. }
  destruct (visit_children_spec (fun _ => lora_wrapped_child q) (Node None [] block) [] Hv) as (block' & H1 & H2).
  exists block'. split; [exact H1|]. specialize (H2 []). change (under [] block) with (child_layers block) in H2.
  change (under [] block') with (child_layers block') in H2. revert H2 H. generalize (child_layers block) (child_layers block').
  clear -Hw. intros la lb H. induction H as [|[p l] [p' l'] la lb (Hp & n & Hn & Hf) H IH]; intros Hl; [constructor|].
  apply Forall_cons in Hl as [Hpl Hl]. constructor; [|by apply IH]. cbn [fst snd] in *. destruct (Hw l Hpl) as (l2 & H1 & H2).
  split; [done|]. congruence.
Qed.
