(* ===== verification/CommandLine.v ===== *)
(** * CommandLine: [cli/run_server.py], [cli/run.py], [cli/run_dht.py], [cli/run_validator.py], [cli/run_sequencer.py], [utils/version.py]

    From the parsed arguments to a running process: the options of a server with their defaults, what [main] makes of
    them, and what is started and stopped, in order.  Parsing the command line itself is argparse's. *)

From S2P Require Import Prelude PyString PyFloat PyDict Effects DataStructures BlockFunctions HostResources ReachabilityService Container Health.

(** ** Arguments *)

Inductive argv :=
  | ANone
  | ABool (b : bool)
  | AInt (z : Z)
  | AFloat (f : pyfloat)
  | AStr (s : string)
  | AList (l : list string)
  | AQuant (q : QuantType)
  | ACompression (name : string).

(** [vars(args)] *)
Abbreviation namespace := (list (string * argv)).

Definition PUBLIC_INITIAL_PEERS : list string := ["/ip4/127.0.0.1/tcp/55823/p2p/12D3KooWAHR4RM4GSq5zG2UvXHS5nwbjptfFS7Vz77MNrkC8VxFj"].

(** [args]: the destinations of the options of a server with their defaults. *)
Definition server_arguments : namespace :=
  [("config", ANone); ("converted_model_name_or_path", ANone); ("model", ANone); ("public_name", ANone); ("token", ANone);
   ("num_blocks", ANone); ("block_indices", ANone); ("dht_prefix", ANone); ("port", ANone); ("public_ip", ANone);
   ("use_auto_relay", ABool true); ("host_maddrs", ANone); ("announce_maddrs", ANone); ("daemon_startup_timeout", AInt 60);
   ("compression", AStr "NONE"); ("num_handlers", AInt 8); ("prefetch_batches", AInt 1); ("sender_threads", AInt 1);
   ("inference_max_length", ANone); ("min_batch_size", AInt 1); ("max_batch_size", ANone);
   ("max_chunk_size_bytes", AInt (256 * 1024 * 1024)); ("attn_cache_tokens", ANone); ("cache_dir", ANone); ("max_disk_space", ANone);
   ("device", ANone); ("torch_dtype", AStr "auto"); ("max_alloc_timeout", AInt 600); ("revision", ANone);
   ("throughput", AStr "auto"); ("update_period", AInt 120); ("expiration", ANone);
   ("request_timeout", AInt (3 * 60)); ("session_timeout", AInt (30 * 60)); ("step_timeout", AInt (5 * 60));
   ("initial_peers", AList PUBLIC_INITIAL_PEERS); ("new_swarm", ABool false); ("increase_file_limit", AInt 4096);
   ("stats_report_interval", ANone); ("custom_module_path", ANone); ("identity_path", ANone); ("balance_quality", AFloat (f_lit 3 4));
   ("mean_balance_check_period", AInt 60); ("quant_type", ANone); ("tensor_parallel_devices", ANone);
   ("skip_reachability_check", ABool false); ("adapters", AList [])].

(** The namespace for the options that were given. *)
Definition parsed (given : namespace) : namespace := dupdate server_arguments given.

Definition truthy (v : argv) : bool :=
  match v with
  | ANone => false
  | ABool b => b
  | AInt z => negb (z =? 0)
  | AFloat f => negb (f_eq f f_zero)
  | AStr s => negb (String.eqb s "")
  | AList l => match l with [] => false | _ => true end
  | AQuant _ | ACompression _ => true
  end.

Definition is_none (v : argv) : bool := match v with ANone => true | _ => false end.

(** [f"{v}"] of a port. *)
Definition str_of (v : argv) : string := match v with AInt z => str_of_Z z | AStr s => s | _ => "None" end.

(** [s.upper()] *)
Definition upper_of (v : argv) : result string := match v with AStr s => Ok (str_map upper_char s) | _ => Err AttributeError end.

(** [args.pop(k)] and [args[k]] *)
Definition pop (k : string) : prog namespace argv := fun d =>
  match dget d k with Some v => Some (dpop d k, Ok v) | None => Some (d, Err KeyError) end.

Definition item (k : string) : prog namespace argv := fun d => Some (d, get_or KeyError (dget d k)).

Section run_server.
Context (compression_type : string -> result argv).            (* getattr(CompressionType, name) *)
Context (parse_size : string -> result Z).                     (* humanfriendly *)
Context (increase_file_limit : Z -> result unit).              (* hivemind *)

Definition quant_type_of (name : string) : result argv := AQuant <$> quant_of (Some name).

(** [host_maddrs] and the port. *)
Definition listen_maddrs (host_maddrs port : argv) : result (argv * argv) :=
  port ← match port with
         | ANone => Ok (AInt 0)
         | p => _ ← assert_ (is_none host_maddrs); Ok p
         end;
  Ok (match host_maddrs with
      | ANone => AList ["/ip4/0.0.0.0/tcp/" +:+ str_of port; "/ip6/::/tcp/" +:+ str_of port]
      | m => m
      end, port).

Definition announced_maddrs (announce_maddrs public_ip port : argv) : result argv :=
  match public_ip with
  | ANone => Ok announce_maddrs
  | ip =>
      _ ← assert_ (is_none announce_maddrs);
      _ ← assert_ (match port with AInt 0 => false | _ => true end);
      Ok (AList ["/ip4/" +:+ str_of ip +:+ "/tcp/" +:+ str_of port])
  end.

Definition disk_space (max_disk_space : argv) : result argv :=
  match max_disk_space with
  | ANone => Ok ANone
  | AStr s => AInt <$> parse_size s
  | _ => Err TypeError
  end.

(** [main] up to the construction of the server: its keywords. *)
Definition main_keywords : prog namespace namespace :=
  _ ← writes (fun args => dpop (dpop args "type") "config");
  model ← pop "model";
  path ← (if truthy model then ret model else item "converted_model_name_or_path");
  _ ← writes (fun args => dset args "converted_model_name_or_path" path);
  host_maddrs ← pop "host_maddrs";
  port ← pop "port";
  '(host_maddrs, port) ← lift (listen_maddrs host_maddrs port);
  announce_maddrs ← pop "announce_maddrs";
  public_ip ← pop "public_ip";
  announce_maddrs ← lift (announced_maddrs announce_maddrs public_ip port);
  timeout ← pop "daemon_startup_timeout";
  _ ← writes (fun args => dset args "startup_timeout" timeout);
  file_limit ← pop "increase_file_limit";
  _ ← lift (if truthy file_limit then match file_limit with AInt n => increase_file_limit n | _ => Err TypeError end else Ok ());
  name ← pop "compression";
  compression ← lift (name ← upper_of name; compression_type name);
  max_disk_space ← pop "max_disk_space";
  max_disk_space ← lift (disk_space max_disk_space);
  new_swarm ← pop "new_swarm";
  _ ← (if truthy new_swarm then writes (fun args => dset args "initial_peers" (AList [])) else ret ());
  quant_type ← pop "quant_type";
  _ ← match quant_type with
      | ANone => ret ()
      | AStr name => q ← lift (quant_type_of name); writes (fun args => dset args "quant_type" q)
      | _ => raise AttributeError
      end;
  args ← reads id;
  ret (args ++ [("host_maddrs", host_maddrs); ("announce_maddrs", announce_maddrs); ("compression", compression);
                ("max_disk_space", max_disk_space)]).

(** The parameters of [Server.__init__]; other keywords are passed on to the DHT. *)
Definition server_parameters : list string :=
  ["initial_peers"; "dht_prefix"; "converted_model_name_or_path"; "public_name"; "throughput"; "num_blocks"; "block_indices";
   "num_handlers"; "inference_max_length"; "min_batch_size"; "max_batch_size"; "max_chunk_size_bytes"; "max_alloc_timeout";
   "attn_cache_tokens"; "torch_dtype"; "revision"; "cache_dir"; "max_disk_space"; "device"; "compression"; "stats_report_interval";
   "custom_module_path"; "update_period"; "expiration"; "request_timeout"; "session_timeout"; "step_timeout"; "prefetch_batches";
   "sender_threads"; "balance_quality"; "mean_balance_check_period"; "mean_block_selection_delay"; "token"; "quant_type";
   "tensor_parallel_devices"; "skip_reachability_check"; "reachable_via_relay"; "use_relay"; "use_auto_relay"; "adapters"].

Definition dht_keywords (keywords : namespace) : namespace := List.filter (fun kv => negb (bool_decide (kv.1 ∈ server_parameters))) keywords.

(** ** Running *)

(** How [Server.run] ends. *)
Inductive run_end := Returned | KeyboardInterrupt | Raised (e : exn).

Inductive server_event := Created (keywords : namespace) | Ran | StopSet | ContainerJoined | ReachabilityStopped | DhtStopped.

(** [Server.shutdown]; the container may be alive, and the reachability protocol may not have been attached.  When its
    thread has ended, its shutdown raises, and the DHT goes on. *)
Definition server_shutdown (container_alive : bool) (reachability : option service) : list server_event * result unit :=
  let events := StopSet :: (if container_alive then [ContainerJoined] else []) in
  match reachability with
  | None => (events ++ [DhtStopped], Ok ())
  | Some s =>
      match (service_shutdown s).2 with
      | Ok _ => (events ++ [ReachabilityStopped; DhtStopped], Ok ())
      | Err e => (events, Err e)
      end
  end.

(** [main]: [create] constructs the server, [run] is how its run ends; an exception of the shutdown replaces another one. *)
Definition run_server_main (create : namespace -> result unit) (run : run_end) (container_alive : bool) (reachability : option service)
    (args : namespace) : list server_event * result unit :=
  match main_keywords args with
  | None => ([], Ok ())
  | Some (_, Err e) => ([], Err e)
  | Some (_, Ok keywords) =>
      match create keywords with
      | Err e => ([], Err e)
      | Ok _ =>
          let '(events, stopped) := server_shutdown container_alive reachability in
          (Created keywords :: Ran :: events,
           match stopped with
           | Err e => Err e
           | Ok _ => match run with Returned | KeyboardInterrupt => Ok () | Raised e => Err e end
           end)
      end
  end.
End run_server.

(** ** The other commands *)

(** The subcommands of [cli/run.py]. *)
Inductive command := RunDht | RunServer | RunValidator | RunSequencer | RunInference.

(** [match args.type] *)
Definition dispatch (type : string) : option command :=
  if String.eqb type "dht" then Some RunDht
  else if String.eqb type "server" then Some RunServer
  else if String.eqb type "validator" then Some RunValidator
  else if String.eqb type "sequencer" then Some RunSequencer
  else if String.eqb type "inference" then Some RunInference
  else None.

(** [main] of [cli/run.py]: [argv] is [sys.argv[1:]]; [parse] gives the [type] that argparse finds. *)
Definition run_main (parse : list string -> result string) (argv : list string) : result (option command) :=
  match argv with
  | [] => Err SystemExit
  | a :: _ =>
      if bool_decide (a ∈ ["-h"; "--help"]) then Err SystemExit
      else type ← parse argv; Ok (if String.eqb type "" then None else dispatch type)
  end.

(** [args] of [cli/run_dht.py]: destinations and defaults. *)
Definition dht_arguments : namespace :=
  [("initial_peers", ANone); ("host_maddrs", AList ["/ip4/0.0.0.0/tcp/0"; "/ip6/::/tcp/0"]); ("announce_maddrs", ANone);
   ("use_ipfs", ABool false); ("identity_path", ANone); ("use_relay", ABool true); ("use_auto_relay", ABool false); ("refresh_period", AInt 30)].

(** The keywords that [main] of [cli/run_dht.py] gives to the DHT. *)
Definition dht_main_keywords (args : namespace) : result namespace :=
  items ← mapR (fun k => v ← get_or AttributeError (dget args k); Ok (k, v))
            ["initial_peers"; "host_maddrs"; "announce_maddrs"; "use_ipfs"; "identity_path"; "use_relay"; "use_auto_relay"];
  Ok (("start", ABool true) :: items).

(** [main] of [cli/run_validator.py]: what the updater fetches in each of its rounds, with the peers of the option
    [--initial_peers], which may be left out. *)
Definition updater_round {PI : PeerIds} (initial_peers : option (list string)) (fetch : list string -> result (list health_row))
    : result (list health_row) :=
  match initial_peers with Some peers => fetch peers | None => Err TypeError end.

(** [updater.ready.wait()] returns after the first round that succeeds; then the validator runs. *)
Fixpoint validator_starts {PI : PeerIds} (initial_peers : option (list string)) (rounds : list (list string -> result (list health_row)))
    : option (list health_row) :=
  match rounds with
  | [] => None
  | fetch :: rounds =>
      match updater_round initial_peers fetch with
      | Ok rows => Some rows
      | Err _ => validator_starts initial_peers rounds
      end
  end.

(** ** Versions *)

Section versions.
Context {version : Type} (parse : string -> result version) (is_prerelease : version -> bool) (lt : version -> version -> bool).

(** [max(...)]: the first of the greatest. *)
Definition py_max_by (l : list version) : result version :=
  match l with [] => Err ValueError | v :: l => Ok (fold_left (fun m v => if lt m v then v else m) l v) end.

(** [validate_version]: whether a newer version is announced; what goes wrong is logged. *)
Definition validate_version (releases : result (list string)) (current : string) : result bool :=
  match (releases ← releases;
         versions ← mapR parse releases;
         latest ← py_max_by (List.filter (fun v => negb (is_prerelease v)) versions);
         v ← parse current;
         Ok (lt v latest)) with
  | Ok newer => Ok newer
  | Err e => if is_Exception e then Ok false else Err e
  end.
End versions.

(** ** What the commands do *)

(** Without [--initial_peers] every round of the updater raises: the validator waits for ever. *)
Lemma validator_needs_peers {PI : PeerIds} rounds : validator_starts None rounds = None.
Proof. by induction rounds. Qed.

Lemma pop_ok {B} k v d (f : argv -> prog namespace B) : dget d k = Some v -> (pop k ≫= f) d = f v (dpop d k).
Proof. intros H. unfold mbind, prog_bind, pop. by rewrite H. Qed.

(** The options that [main] reads, with their types. *)
Record server_flags := mkServerFlags {
  o_model : option string;
  o_converted : option string;
  o_host_maddrs : option (list string);
  o_port : option Z;
  o_announce_maddrs : option (list string);
  o_public_ip : option string;
  o_timeout : argv;
  o_file_limit : Z;
  o_compression : string;
  o_max_disk_space : option string;
  o_new_swarm : bool;
  o_quant_type : option string;
}.

Definition opt_str (o : option string) : argv := match o with Some s => AStr s | None => ANone end.
Definition opt_list (o : option (list string)) : argv := match o with Some l => AList l | None => ANone end.
Definition opt_int (o : option Z) : argv := match o with Some z => AInt z | None => ANone end.

Definition flag_values (o : server_flags) : namespace :=
  [("model", opt_str (o_model o)); ("converted_model_name_or_path", opt_str (o_converted o)); ("host_maddrs", opt_list (o_host_maddrs o));
   ("port", opt_int (o_port o)); ("announce_maddrs", opt_list (o_announce_maddrs o)); ("public_ip", opt_str (o_public_ip o));
   ("daemon_startup_timeout", o_timeout o); ("increase_file_limit", AInt (o_file_limit o)); ("compression", AStr (o_compression o));
   ("max_disk_space", opt_str (o_max_disk_space o)); ("new_swarm", ABool (o_new_swarm o)); ("quant_type", opt_str (o_quant_type o))].

(** The namespace has these values. *)
Definition has_flags (args : namespace) (o : server_flags) : Prop := Forall (fun kv => dget args kv.1 = Some kv.2) (flag_values o).

(** [--port] with [--host_maddrs], or [--public_ip] with [--announce_maddrs] or without a fixed port. *)
Definition conflict (o : server_flags) : Prop :=
  (is_Some (o_port o) /\ is_Some (o_host_maddrs o)) \/
  (is_Some (o_public_ip o) /\ (is_Some (o_announce_maddrs o) \/ default 0 (o_port o) = 0)).

#[global] Instance conflict_dec o : Decision (conflict o).
Proof. unfold conflict. apply _. Defined.

Definition model_path (o : server_flags) : argv :=
  match o_model o with Some m => if String.eqb m "" then opt_str (o_converted o) else AStr m | None => opt_str (o_converted o) end.

Definition listens_on (o : server_flags) : list string :=
  let port := str_of_Z (default 0 (o_port o)) in
  default ["/ip4/0.0.0.0/tcp/" +:+ port; "/ip6/::/tcp/" +:+ port] (o_host_maddrs o).

Definition announces_at (o : server_flags) : option (list string) :=
  match o_public_ip o with
  | Some ip => Some ["/ip4/" +:+ ip +:+ "/tcp/" +:+ str_of_Z (default 0 (o_port o))]
  | None => o_announce_maddrs o
  end.

Lemma dget_app (d d' : namespace) k : dget (d ++ d') k = match dget d k with Some v => Some v | None => dget d' k end.
Proof. induction d as [|[k' v] d IH]; cbn; [done|]. by case_decide. Qed.

(** Looks up a concrete key in a namespace from which keys were removed. *)
Ltac lookup := repeat first [rewrite dget_dpop | rewrite dget_dset | rewrite decide_False by done | rewrite decide_True by done];
  first [eassumption | done].

Section server_main.
Context (compression_type : string -> result argv) (parse_size : string -> result Z) (increase_file_limit : Z -> result unit).
Abbreviation main_keywords := (main_keywords compression_type parse_size increase_file_limit).

Lemma listen_maddrs_spec o :
  listen_maddrs (opt_list (o_host_maddrs o)) (opt_int (o_port o)) =
  if decide (is_Some (o_port o) /\ is_Some (o_host_maddrs o)) then Err AssertionError
  else Ok (AList (listens_on o), AInt (default 0 (o_port o))).
Proof.
  unfold listen_maddrs, listens_on. destruct (o_port o) as [p|], (o_host_maddrs o) as [l|]; cbn.
  - by rewrite decide_True by (split; eauto).
  - rewrite decide_False; [done|]. by intros [_ [? ?]].
  - rewrite decide_False; [done|]. by intros [[? ?] _].
  - rewrite decide_False; [done|]. by intros [[? ?] _].
Qed.

Lemma announced_maddrs_spec o :
  announced_maddrs (opt_list (o_announce_maddrs o)) (opt_str (o_public_ip o)) (AInt (default 0 (o_port o))) =
  if decide (is_Some (o_public_ip o) /\ (is_Some (o_announce_maddrs o) \/ default 0 (o_port o) = 0)) then Err AssertionError
  else Ok (opt_list (announces_at o)).
Proof.
  unfold announced_maddrs, announces_at. destruct (o_public_ip o) as [ip|]; cbn.
  2: { rewrite decide_False; [done|]. by intros [[? ?] _]. }
  destruct (o_announce_maddrs o) as [l|]; cbn; [by rewrite decide_True by eauto|].
  destruct (default 0 (o_port o)) as [|p|p] eqn:E; cbn.
  - by rewrite decide_True by eauto.
  - rewrite decide_False; [done|]. intros [_ [[? ?]|?]]; done.
  - rewrite decide_False; [done|]. intros [_ [[? ?]|?]]; done.
Qed.

(** The options that [main] removes, and those that it writes. *)
Definition removed_options : list string :=
  ["type"; "config"; "model"; "port"; "public_ip"; "daemon_startup_timeout"; "increase_file_limit"; "new_swarm"].
Definition written_options : list string :=
  ["converted_model_name_or_path"; "host_maddrs"; "announce_maddrs"; "startup_timeout"; "compression"; "max_disk_space"; "initial_peers"; "quant_type"].

Lemma take_flags args o : has_flags args o ->
  exists args', args' = dset (dpop (dpop (dpop args "type") "config") "model") "converted_model_name_or_path" (model_path o) /\
  forall B (f : prog namespace B),
  (_ ← writes (fun args => dpop (dpop args "type") "config");
   model ← pop "model";
   path ← (if truthy model then ret model else item "converted_model_name_or_path");
   _ ← writes (fun args => dset args "converted_model_name_or_path" path); f) args = f args'.
Proof.
  intros Hf. eexists. split; [done|]. intros B f. unfold has_flags, flag_values in Hf. rewrite !Forall_cons in Hf. cbn [fst snd] in Hf.
  destruct Hf as (Hm & Hc & _).
  erewrite (bind_ok _ _ args (dpop (dpop args "type") "config")) by done.
  erewrite pop_ok by lookup. unfold model_path. destruct (o_model o) as [m|]; cbn [opt_str truthy].
  - destruct (String.eqb m ""); cbn [negb]; [|done]. unfold mbind at 1, prog_bind at 1, item. cbn beta iota.
    assert (E : dget (dpop (dpop (dpop args "type") "config") "model") "converted_model_name_or_path" = Some (opt_str (o_converted o))) by lookup.
    by rewrite E.
  - unfold mbind at 1, prog_bind at 1, item. cbn beta iota.
    assert (E : dget (dpop (dpop (dpop args "type") "config") "model") "converted_model_name_or_path" = Some (opt_str (o_converted o))) by lookup.
    by rewrite E.
Qed.

Lemma main_keywords_conflict args o : has_flags args o -> conflict o -> exists w, main_keywords args = Some (w, Err AssertionError).
Proof.
  intros Hf Hc. destruct (take_flags args o Hf) as (a1 & E1 & Hrun). unfold CommandLine.main_keywords. rewrite Hrun.
  unfold has_flags, flag_values in Hf. rewrite !Forall_cons in Hf. cbn [fst snd] in Hf.
  destruct Hf as (_ & _ & Hh & Hp & Ha & Hi & _). subst a1.
  erewrite pop_ok by lookup. erewrite pop_ok by lookup. rewrite listen_maddrs_spec. destruct (decide _) as [D1|D1]; [by eexists|].
  erewrite bind_lift by done. cbn beta iota. erewrite pop_ok by lookup. erewrite pop_ok by lookup. rewrite announced_maddrs_spec.
  destruct (decide _) as [D2|D2]; [by eexists|]. exfalso. destruct Hc as [?|?]; tauto.
Qed.

(** The values that the options stand for. *)
Record resolved (o : server_flags) (compression disk quant : argv) : Prop := {
  rs_compression : compression_type (str_map upper_char (o_compression o)) = Ok compression;
  rs_limit : o_file_limit o <> 0 -> increase_file_limit (o_file_limit o) = Ok ();
  rs_disk : disk_space parse_size (opt_str (o_max_disk_space o)) = Ok disk;
  rs_quant : match o_quant_type o with Some name => quant_type_of name = Ok quant | None => quant = ANone end;
}.

(** What the server is given for a keyword. *)
Definition expected (args : namespace) (o : server_flags) (compression disk quant : argv) (k : string) : option argv :=
  if existsb (String.eqb k) removed_options then None
  else if String.eqb k "converted_model_name_or_path" then Some (model_path o)
  else if String.eqb k "host_maddrs" then Some (AList (listens_on o))
  else if String.eqb k "announce_maddrs" then Some (opt_list (announces_at o))
  else if String.eqb k "startup_timeout" then Some (o_timeout o)
  else if String.eqb k "compression" then Some compression
  else if String.eqb k "max_disk_space" then Some disk
  else if String.eqb k "initial_peers" then (if o_new_swarm o then Some (AList []) else dget args k)
  else if String.eqb k "quant_type" then (match o_quant_type o with Some _ => Some quant | None => None end)
  else dget args k.

(** A property of every key holds if it holds of the keys that [main] touches and of the others. *)
Lemma keywords_of (P : string -> Prop) :
  (forall s, s ∈ removed_options ++ written_options -> P s) ->
  (forall k, Forall (fun s => s <> k /\ String.eqb k s = false) (removed_options ++ written_options) -> P k) -> forall k, P k.
Proof.
  intros H1 H2 k. destruct (decide (k ∈ removed_options ++ written_options)) as [Hk|Hk]; [by apply H1|]. apply H2.
  apply Forall_forall. intros s Hs. split; [by intros ->|]. apply String.eqb_neq. by intros ->.
Qed.

(** The changes that [main] makes to the namespace: a key is removed, or gets a value. *)
Fixpoint edits (l : list (string * option argv)) (args : namespace) : namespace :=
  match l with
  | [] => args
  | (k, None) :: l => edits l (dpop args k)
  | (k, Some v) :: l => edits l (dset args k v)
  end.

Fixpoint after_edits (l : list (string * option argv)) (k : string) (v : option argv) : option argv :=
  match l with [] => v | (s, o) :: l => after_edits l k (if String.eqb k s then o else v) end.

Lemma dget_edits l args k : dget (edits l args) k = after_edits l k (dget args k).
Proof.
  revert args. induction l as [|[s [v|]] l IH]; intros args; [done|..]; cbn [edits after_edits]; rewrite IH.
  - rewrite dget_dset. destruct (String.eqb_spec k s) as [->|H]; [by rewrite decide_True|]. by rewrite decide_False by congruence.
  - rewrite dget_dpop. destruct (String.eqb_spec k s) as [->|H]; [by rewrite decide_True|]. by rewrite decide_False by congruence.
Qed.

Definition main_edits (o : server_flags) (quant : argv) : list (string * option argv) :=
  [("type", None); ("config", None); ("model", None); ("converted_model_name_or_path", Some (model_path o)); ("host_maddrs", None);
   ("port", None); ("announce_maddrs", None); ("public_ip", None); ("daemon_startup_timeout", None); ("startup_timeout", Some (o_timeout o));
   ("increase_file_limit", None); ("compression", None); ("max_disk_space", None); ("new_swarm", None)] ++
  (if o_new_swarm o then [("initial_peers", Some (AList []))] else []) ++ [("quant_type", None)] ++
  (match o_quant_type o with Some _ => [("quant_type", Some quant)] | None => [] end).

Definition last_keywords (o : server_flags) (compression disk : argv) : namespace :=
  [("host_maddrs", AList (listens_on o)); ("announce_maddrs", opt_list (announces_at o)); ("compression", compression); ("max_disk_space", disk)].

Lemma expected_keywords args o compression disk quant k :
  dget (edits (main_edits o quant) args ++ last_keywords o compression disk) k = expected args o compression disk quant k.
Proof.
  rewrite dget_app, dget_edits. revert k. apply keywords_of; [intros s Hs|intros k Hk].
  - unfold main_edits, expected, last_keywords.
    repeat (apply elem_of_cons in Hs as [->|Hs]; [destruct (o_new_swarm o), (o_quant_type o); cbn; try done; by destruct (dget args _)|]). by apply elem_of_nil in Hs.
  - unfold removed_options, written_options in Hk. cbn [app] in Hk. rewrite !Forall_cons in Hk. destruct_and! Hk.
    assert (Ekw : dget (last_keywords o compression disk) k = None).
    { cbn. by rewrite !decide_False by done. }
    rewrite Ekw. unfold main_edits, expected. cbn [existsb removed_options app after_edits].
    repeat match goal with H : String.eqb k _ = false |- _ => rewrite !H end. cbn [orb].
    destruct (o_new_swarm o), (o_quant_type o); cbn [app after_edits];
      repeat match goal with H : String.eqb k _ = false |- _ => rewrite ?H; clear H end; by destruct (dget args k).
Qed.

Lemma main_keywords_ok args o compression disk quant :
  has_flags args o -> ~ conflict o -> resolved o compression disk quant ->
  exists w keywords, main_keywords args = Some (w, Ok keywords) /\ forall k, dget keywords k = expected args o compression disk quant k.
Proof.
  intros Hf Hc [R1 R2 R3 R4]. destruct (take_flags args o Hf) as (a1 & E1 & Hrun). unfold CommandLine.main_keywords. rewrite Hrun.
  unfold has_flags, flag_values in Hf. rewrite !Forall_cons in Hf. cbn [fst snd] in Hf.
  destruct Hf as (Hm & Hcv & Hh & Hp & Ha & Hi & Ht & Hl & Hco & Hd & Hn & Hq & _). clear Hrun. subst a1.
  erewrite pop_ok by lookup. erewrite pop_ok by lookup. rewrite listen_maddrs_spec, decide_False by (intros H; apply Hc; by left).
  erewrite bind_lift by done. cbn beta iota. erewrite pop_ok by lookup. erewrite pop_ok by lookup.
  rewrite announced_maddrs_spec, decide_False by (intros H; apply Hc; by right). erewrite bind_lift by done.
  erewrite pop_ok by lookup. erewrite (bind_ok (writes _)) by done. erewrite pop_ok by lookup.
  assert (Elim : (if truthy (AInt (o_file_limit o)) then increase_file_limit (o_file_limit o) else Ok ()) = Ok ()).
  { cbn. destruct (Z.eqb_spec (o_file_limit o) 0); cbn; [done|by apply R2]. }
  cbn beta iota. rewrite Elim. erewrite bind_lift by done. erewrite pop_ok by lookup.
  erewrite bind_lift by (cbn; exact R1). erewrite pop_ok by lookup. erewrite bind_lift by exact R3. erewrite pop_ok by lookup.
  destruct (o_new_swarm o) eqn:En; cbn [truthy]; [erewrite (bind_ok (writes _)) by done|erewrite (bind_ok (ret ())) by done];
    erewrite pop_ok by lookup; (destruct (o_quant_type o) as [name|] eqn:Eq; cbn [opt_str]);
    try rewrite R4; eexists _, (edits (main_edits o _) args ++ last_keywords o compression disk);
    (split; [unfold main_edits; rewrite En, Eq; reflexivity|intros k; by rewrite expected_keywords, ?R4]).
Qed.

(** The keywords for the DHT that the options of a server give. *)
Definition dht_options : list string := ["host_maddrs"; "announce_maddrs"; "startup_timeout"; "identity_path"].

Lemma known_keywords :
  Forall (fun k => k ∈ removed_options \/ k ∈ server_parameters \/ k ∈ dht_options) ("type" :: map fst server_arguments ++ written_options).
Proof. apply (bool_decide_unpack _). by vm_compute. Qed.

Lemma expected_known args o compression disk quant k :
  Forall (fun k => k ∈ "type" :: map fst server_arguments) (dkeys args) ->
  is_Some (expected args o compression disk quant k) -> k ∈ server_parameters \/ k ∈ dht_options.
Proof.
  intros Hkeys Hk. assert (Hin : k ∈ "type" :: map fst server_arguments ++ written_options).
  { destruct (decide (k ∈ written_options)) as [Hw|Hw]; [right; apply elem_of_app; by right|].
    assert (Hd : k ∈ dkeys args).
    { apply dget_is_Some_keys. revert Hk. unfold expected. destruct (existsb _ _); [by intros [? ?]|].
      assert (Hne : forall s, s ∈ written_options -> String.eqb k s = false) by (intros s Hs; apply String.eqb_neq; by intros ->).
      rewrite !Hne by (unfold written_options; set_solver). done. }
    rewrite Forall_forall in Hkeys. apply Hkeys in Hd. apply elem_of_cons in Hd as [->|Hd]; [by left|]. right. apply elem_of_app. by left. }
  pose proof known_keywords as H. rewrite Forall_forall in H. destruct (H k Hin) as [Hr|Hr]; [|done]. exfalso.
  unfold expected in Hk. destruct (existsb (String.eqb k) removed_options) eqn:E; [by destruct Hk|].
  apply not_true_iff_false in E. apply E, existsb_exists. exists k. split; [by apply list_elem_of_In|apply String.eqb_refl].
Qed.

(** The thread of the reachability protocol has ended by itself. *)
Definition service_gone (reachability : option service) : Prop :=
  match reachability with Some s => (service_shutdown s).2 <> Ok () | None => False end.

(** C29: of the options as the parser leaves them ([has_flags]), with a compression, a disk space, a quantization and a
    file limit that the conversions accept ([resolved]): those that exclude each other stop a server before it is
    constructed; otherwise it gets every option under a keyword that it or the DHT takes, with the addresses that [--port]
    and [--public_ip] stand for.  Once constructed, whatever ends its run its stop event is set and its container joined,
    and it is shut down to the end, the DHT last - except when the thread of the reachability protocol has ended before
    ([service_gone]): stopping the protocol then raises and the DHT is not stopped. *)
Theorem run_server_main_spec args o compression disk quant create run_ container_alive reachability :
  has_flags args o -> resolved o compression disk quant ->
  Forall (fun k => k ∈ "type" :: map fst server_arguments) (dkeys args) ->
  let outcome := run_server_main compression_type parse_size increase_file_limit create run_ container_alive reachability args in
  (conflict o -> outcome = ([], Err AssertionError)) /\
  (~ conflict o -> exists keywords,
    (forall k, dget keywords k = expected args o compression disk quant k) /\
    (forall k, is_Some (dget keywords k) -> k ∈ server_parameters \/ k ∈ dht_options) /\
    match create keywords with
    | Err e => outcome = ([], Err e)
    | Ok _ => exists stops, outcome.1 = [Created keywords; Ran; StopSet] ++ stops /\
        (container_alive = true -> head stops = Some ContainerJoined) /\
        (service_gone reachability -> (DhtStopped ∉ stops) /\ is_ok outcome.2 = false) /\
        (~ service_gone reachability -> last stops = Some DhtStopped /\ (outcome.2 = Ok () <-> run_ = Returned \/ run_ = KeyboardInterrupt))
    end).
Proof.
  intros Hf Hr Hkeys outcome. unfold outcome, run_server_main. split.
  - intros Hc. destruct (main_keywords_conflict args o Hf Hc) as [w Hw]. by rewrite Hw.
  - intros Hc. destruct (main_keywords_ok args o compression disk quant Hf Hc Hr) as (w & keywords & Hw & Hk). exists keywords.
    split; [exact Hk|]. split; [intros k; rewrite Hk; by apply expected_known|]. rewrite Hw. destruct (create keywords) as [|e]; [|done].
    unfold server_shutdown, service_gone. destruct reachability as [s|]; [destruct ((service_shutdown s).2) as [[]|e]|].
    + exists ((if container_alive then [ContainerJoined] else []) ++ [ReachabilityStopped; DhtStopped]).
      destruct container_alive; split_and!; try done; intros _; (split; [done|]); destruct run_; cbn; naive_solver.
    + exists (if container_alive then [ContainerJoined] else []).
      destruct container_alive; split_and!; try done; try (intros H; by destruct H); intros _; (split; [|done]); set_solver.
    + exists ((if container_alive then [ContainerJoined] else []) ++ [DhtStopped]).
      destruct container_alive; split_and!; try done; intros _; (split; [done|]); destruct run_; cbn; naive_solver.
Qed.
End server_main.

(** A server on a fixed port with a public address, in a new swarm. *)
Definition example_flags : server_flags :=
  mkServerFlags (Some "bigscience/bloom-560m") None None (Some 31337) None (Some "1.2.3.4") (AInt 60) 4096 "none" (Some "10GB") true (Some "nf4").

Definition example_args : namespace := parsed (("type", AStr "server") :: flag_values example_flags).

Lemma run_server_main_spec_witness :
  exists keywords, dget keywords "announce_maddrs" = Some (AList ["/ip4/1.2.3.4/tcp/31337"]) /\ dget keywords "quant_type" = Some (AQuant NF4) /\
    dget keywords "initial_peers" = Some (AList []).
Proof.
  destruct (run_server_main_spec (fun n => Ok (ACompression n)) (fun _ => Ok 10000000000) (fun _ => Ok ()) example_args example_flags
    (ACompression "NONE") (AInt 10000000000) (AQuant NF4) (fun _ => Ok ()) KeyboardInterrupt false (Some attached)) as [_ H].
  - by repeat constructor.
  - by constructor.
  - apply (bool_decide_unpack _). by vm_compute.
  - destruct H as (keywords & Hk & _); [by intros [[_ [? ?]]|[_ [[? ?]|?]]]|]. exists keywords. rewrite !Hk. by split_and!.
Defined.
