(* ===== verification/ClientModels.v ===== *)
(** * ClientModels: [models/*/model.py]

    The arguments that the forward passes of the four client models accept, the construction of their causal and
    classification variants, and the attributes under which generation finds their parts. *)

From S2P Require Import Prelude PyString PyDict Effects Generation ClientLoading.

(** ** Arguments of a forward pass *)

(** The keyword arguments; embeddings are given by their shape. *)
Record forward_arguments := mkForwardArguments {
  fa_input_ids : option (list (list Z));
  fa_attention_mask : option (list (list Z));
  fa_position_ids : option (list (list Z));
  fa_cache_position : option (list Z);
  fa_head_mask : bool;                          (* is not None *)
  fa_inputs_embeds : option (list Z);
  fa_use_cache : option bool;
  fa_output_attentions : option bool;
  fa_output_hidden_states : option bool;
  fa_output_router_logits : option bool;
  fa_return_dict : option bool;
}.

(** The shape of [input_ids]: rows of one length. *)
Definition ids_shape (ids : list (list Z)) : list Z := [zlen ids; match ids with row :: _ => zlen row | [] => 0 end].

(** [input_shape]; ids and embeddings exclude each other. *)
Definition input_shape (a : forward_arguments) : result (list Z) :=
  match fa_input_ids a, fa_inputs_embeds a with
  | Some _, Some _ => Err ValueError
  | Some ids, None => Ok (ids_shape ids)
  | None, Some shape => Ok (removelast shape)
  | None, None => Err ValueError
  end.

(** [attention_mask is None or (attention_mask == 1).all()] *)
Definition mask_of_ones (m : option (list (list Z))) : bool :=
  match m with None => true | Some rows => forallb (forallb (fun v => v =? 1)) rows end.

(** [position_ids is None or (position_ids[:, 1:] - position_ids[:, :-1] == 1).all()] *)
Definition consecutive_rows (p : option (list (list Z))) : bool :=
  match p with None => true | Some rows => forallb consecutive rows end.

(** [torch.eq] of [cache_position] and every row of the positions. *)
Definition positions_agree (c : list Z) (p : option (list (list Z))) : bool :=
  match p with None => false | Some rows => forallb (fun row => bool_decide (row = c)) rows end.

(** [x is None or x], and [not x] *)
Definition unless_false (o : option bool) : bool := match o with Some b => b | None => true end.
Definition not_true (o : option bool) : bool := match o with Some b => negb b | None => true end.

(** The assertions on [use_cache] and the outputs that all models share. *)
Definition check_outputs (a : forward_arguments) : result unit :=
  _ ← assert_ (unless_false (fa_use_cache a));
  _ ← assert_ (not_true (fa_output_attentions a));
  _ ← assert_ (not_true (fa_output_hidden_states a));
  assert_ (unless_false (fa_return_dict a)).

Definition check_bloom (a : forward_arguments) : result (list Z) :=
  shape ← input_shape a;
  _ ← assert_ (mask_of_ones (fa_attention_mask a));
  _ ← assert_ (negb (fa_head_mask a));
  _ ← check_outputs a;
  Ok shape.

Definition check_llama (a : forward_arguments) : result (list Z) :=
  shape ← input_shape a;
  _ ← assert_ (mask_of_ones (fa_attention_mask a));
  _ ← (match fa_cache_position a with Some c => assert_ (positions_agree c (fa_position_ids a)) | None => Ok () end);
  _ ← assert_ (consecutive_rows (fa_position_ids a));
  _ ← check_outputs a;
  Ok shape.

Definition check_falcon (a : forward_arguments) : result (list Z) :=
  shape ← input_shape a;
  _ ← assert_ (mask_of_ones (fa_attention_mask a));
  _ ← assert_ (consecutive_rows (fa_position_ids a));
  _ ← assert_ (negb (fa_head_mask a));
  _ ← check_outputs a;
  Ok shape.

Definition check_mixtral (a : forward_arguments) : result (list Z) :=
  shape ← input_shape a;
  _ ← assert_ (mask_of_ones (fa_attention_mask a));
  _ ← assert_ (consecutive_rows (fa_position_ids a));
  _ ← assert_ (negb (fa_head_mask a));
  _ ← check_outputs a;
  _ ← assert_ (not_true (fa_output_router_logits a));
  Ok shape.

Definition check_arguments (f : model_family) : forward_arguments -> result (list Z) :=
  match f with Bloom => check_bloom | Llama => check_llama | Falcon => check_falcon | Mixtral => check_mixtral end.

(** ** Construction *)

(** The head of a model: [LMHead], or a [Linear] without bias to the labels. *)
Inductive head := LMHead_ | Score (hidden_size num_labels : Z).

(** A model as it is built: the attribute that holds the transformer, and its head. *)
Record client_model := mkClientModel {
  cm_transformer_attribute : string;
  cm_prompts : prompt_parameters;
  cm_head : head;
}.

Definition transformer_attribute (f : model_family) : string :=
  match f with Bloom | Falcon => "transformer" | Llama | Mixtral => "model" end.

Section construction.
Context (super_init : DistributedConfig -> result Z) (remote_sequential : DistributedConfig -> result unit).
Context (tuning_mode : option string) (pre_seq_len : Z).
(** [LMHead(config)] and [post_init] of [transformers]. *)
Context (lm_head post_init : DistributedConfig -> result unit).

(** [Distributed*ForCausalLM.__init__] *)
Definition causal_lm_init (f : model_family) : prog DistributedConfig client_model :=
  prompts ← model_init super_init remote_sequential tuning_mode pre_seq_len;
  config ← reads id;
  _ ← lift (lm_head config);
  _ ← lift (post_init config);
  ret (mkClientModel (transformer_attribute f) prompts LMHead_).

(** [Distributed*ForSequenceClassification.__init__] *)
Definition classification_init (f : model_family) (hidden_size num_labels : Z) : prog DistributedConfig client_model :=
  prompts ← model_init super_init remote_sequential tuning_mode pre_seq_len;
  config ← reads id;
  _ ← lift (post_init config);
  ret (mkClientModel (transformer_attribute f) prompts (Score hidden_size num_labels)).
End construction.

(** ** Attributes for generation *)

(** The properties of the client models: the attribute of [transformers] that each stands for. *)
Inductive part := NativeAttribute (name : string) | Identity.

(** Attributes that the classes of [transformers] define themselves. *)
Definition native_attributes (f : model_family) : list string :=
  match f with
  | Bloom => ["word_embeddings"; "word_embeddings_layernorm"; "h"; "ln_f"]
  | Falcon => ["word_embeddings"; "h"; "ln_f"]
  | Llama | Mixtral => ["embed_tokens"; "layers"; "norm"]
  end.

Definition llama_properties : list (string * part) :=
  [("word_embeddings", NativeAttribute "embed_tokens"); ("word_embeddings_layernorm", Identity); ("h", NativeAttribute "layers");
   ("ln_f", NativeAttribute "norm")].
Definition mixtral_properties : list (string * part) :=
  [("word_embeddings", NativeAttribute "embed_tokens"); ("word_embeddings_layernorm", Identity); ("h", NativeAttribute "layers");
   ("ln_f", NativeAttribute "norm")].
Definition falcon_properties : list (string * part) := [("word_embeddings_layernorm", Identity)].

Definition properties (f : model_family) : list (string * part) :=
  match f with Bloom => [] | Llama => llama_properties | Falcon => falcon_properties | Mixtral => mixtral_properties end.

(** [getattr(model, name)] *)
Definition attribute (f : model_family) (name : string) : result part :=
  match dget (properties f) name with
  | Some p => Ok p
  | None => if bool_decide (name ∈ native_attributes f) then Ok (NativeAttribute name) else Err AttributeError
  end.

(** The names under which prompt tuning and generation find the parts of a model exist in every family. *)
Lemma parts_found f :
  Forall (fun name => exists p, attribute f name = Ok p /\ match p with NativeAttribute n => n ∈ native_attributes f | Identity => True end)
    ["word_embeddings"; "word_embeddings_layernorm"; "h"; "ln_f"].
Proof. destruct f; repeat constructor; (eexists; split; [reflexivity|]); cbn; first [done|set_solver]. Qed.

(** ** What is accepted *)

(** The arguments that every model accepts: ids or embeddings, and nothing that a server could not honour. *)
Record acceptable (f : model_family) (a : forward_arguments) : Prop := {
  ac_inputs : is_Some (fa_input_ids a) <-> ~ is_Some (fa_inputs_embeds a);
  ac_mask : mask_of_ones (fa_attention_mask a) = true;
  ac_positions : f <> Bloom -> consecutive_rows (fa_position_ids a) = true;
  ac_cache : f = Llama -> match fa_cache_position a with Some c => positions_agree c (fa_position_ids a) = true | None => True end;
  ac_head_mask : f <> Llama -> fa_head_mask a = false;
  ac_use_cache : fa_use_cache a <> Some false;
  ac_attentions : fa_output_attentions a <> Some true;
  ac_hidden_states : fa_output_hidden_states a <> Some true;
  ac_router : f = Mixtral -> fa_output_router_logits a <> Some true;
  ac_return_dict : fa_return_dict a <> Some false;
}.

Lemma assert_ok b : assert_ b = Ok () <-> b = true.
Proof. by destruct b. Qed.

Lemma unless_false_true o : unless_false o = true <-> o <> Some false.
Proof. by destruct o as [[]|]. Qed.

Lemma not_true_true o : not_true o = true <-> o <> Some true.
Proof. by destruct o as [[]|]. Qed.

Lemma bind_ok_iff {A B} (m : result A) (f : A -> result B) b : (m ≫= f) = Ok b <-> exists a, m = Ok a /\ f a = Ok b.
Proof. destruct m; cbn; naive_solver. Qed.

Lemma bind_unit_iff {B} (m : result unit) (r : result B) b : (m ≫= fun _ => r) = Ok b <-> m = Ok () /\ r = Ok b.
Proof. rewrite bind_ok_iff. split; [by intros ([] & ? & ?)|]. intros [? ?]. by exists (). Qed.

Lemma input_shape_ok a : (exists shape, input_shape a = Ok shape) <-> (is_Some (fa_input_ids a) <-> ~ is_Some (fa_inputs_embeds a)).
Proof.
  unfold input_shape. destruct (fa_input_ids a) as [ids|], (fa_inputs_embeds a) as [e|].
  - split; [by intros [? ?]|]. intros H. destruct (proj1 H); eauto.
  - split; [|by eauto]. intros _. split; [by intros _ [? ?]|eauto].
  - split; [|by eauto]. intros _. split; [by intros [? ?]|]. intros H. destruct H. eauto.
  - split; [by intros [? ?]|]. intros H. destruct (proj2 H) as [? ?]; [by intros [? ?]|done].
Qed.

(** a forward pass of a client model goes on exactly when its arguments ask for nothing that the servers do not do. *)
Theorem forward_arguments_accepted f a : (exists shape, check_arguments f a = Ok shape) <-> acceptable f a.
Proof.
  assert (Hout : check_outputs a = Ok () <-> fa_use_cache a <> Some false /\ fa_output_attentions a <> Some true /\
    fa_output_hidden_states a <> Some true /\ fa_return_dict a <> Some false).
  { unfold check_outputs. rewrite !bind_unit_iff, !assert_ok, !unless_false_true, !not_true_true. tauto. }
  pose proof (input_shape_ok a) as Hshape. split.
  - intros [shape H].
    assert (Hs : exists s, input_shape a = Ok s) by (destruct f; apply bind_ok_iff in H as (s & Hs & _); by exists s).
    apply Hshape in Hs. destruct f; apply bind_ok_iff in H as (s & _ & H);
      rewrite !bind_unit_iff, !assert_ok, ?not_true_true, Hout in H; destruct_and! H; constructor; try done;
      try (intros _; by apply negb_true_iff).
    intros _. by destruct (fa_cache_position a) as [c|]; [apply assert_ok|].
  - intros [H1 H2 H3 H4 H5 H6 H7 H8 H9 H10]. apply Hshape in H1 as [s Hs]. exists s.
    destruct f; apply bind_ok_iff; exists s; (split; [done|]); rewrite !bind_unit_iff, !assert_ok, ?not_true_true, Hout, ?negb_true_iff;
      split_and!; try done; auto.
    specialize (H4 eq_refl). by destruct (fa_cache_position a); [apply assert_ok|].
Qed.

(** A causal model or a classifier that is constructed leaves the configuration as it was. *)
Lemma causal_lm_keeps_config super_init remote_sequential tuning_mode pre_seq_len lm_head post_init f w w' m :
  causal_lm_init super_init remote_sequential tuning_mode pre_seq_len lm_head post_init f w = Some (w', Ok m) -> w' = w.
Proof.
  unfold causal_lm_init. intros H. apply bind_returns in H as (w1 & p & H1 & H). pose proof (model_init_layers _ _ _ _ _ _ _ H1) as Hw.
  unfold mbind, prog_bind, reads, lift, ret in H. cbn in H. destruct (lm_head w1); [|done]. destruct (post_init w1); [|done]. injection H as <- _.
  destruct (super_init (set_layers 0 w)) as [[| |]|]; [done|by destruct Hw..].
Qed.

Lemma classification_keeps_config super_init remote_sequential tuning_mode pre_seq_len post_init f hidden labels w w' m :
  classification_init super_init remote_sequential tuning_mode pre_seq_len post_init f hidden labels w = Some (w', Ok m) -> w' = w.
Proof.
  unfold classification_init. intros H. apply bind_returns in H as (w1 & p & H1 & H). pose proof (model_init_layers _ _ _ _ _ _ _ H1) as Hw.
  unfold mbind, prog_bind, reads, lift, ret in H. cbn in H. destruct (post_init w1); [|done]. injection H as <- _. destruct (super_init (set_layers 0 w)) as [[| |]|]; [done|by destruct Hw..].
Qed.
