(* ===== verification/ClientClasses.v ===== *)
(** * ClientClasses: the twelve classes of client models

    The classes of [models/*/model.py] with their mixins, what their constructors build, and what [from_pretrained] comes to
    when it is looked up along the mixins, directly or through the classes of [utils/auto_config.py]. *)

From S2P Require Import Prelude PyString PyDict Effects BlockLoading Generation ClientLoading ClientModels.

(** ** Classes *)

(** The bases of a class that come before that of [transformers], in the order of the method resolution. *)
Inductive mixin := DefaultRevisionMixin | FromPretrainedMixin | PTuneMixin | RemoteGenerationMixin.

#[global] Instance mixin_eq_dec : EqDecision mixin.
Proof. solve_decision. Defined.

Inductive model_kind := Base | CausalLM | SequenceClassification.

(** What a constructor uses of [transformers] and of the configuration. *)
Record constructor_args := mkConstructorArgs {
  ka_super_init : DistributedConfig -> result Z;
  ka_remote_sequential : DistributedConfig -> result unit;
  ka_lm_head : DistributedConfig -> result unit;
  ka_post_init : DistributedConfig -> result unit;
  ka_tuning_mode : option string;
  ka_pre_seq_len : Z;
  ka_hidden_size : Z;
  ka_num_labels : Z;
}.

(** A model without a head, or with one. *)
Inductive instance := BaseModel (prompts : prompt_parameters) | HeadModel (m : client_model).

Definition base_init (a : constructor_args) : prog DistributedConfig instance :=
  p ← model_init (ka_super_init a) (ka_remote_sequential a) (ka_tuning_mode a) (ka_pre_seq_len a); ret (BaseModel p).
Definition causal_init (f : model_family) (a : constructor_args) : prog DistributedConfig instance :=
  m ← causal_lm_init (ka_super_init a) (ka_remote_sequential a) (ka_tuning_mode a) (ka_pre_seq_len a) (ka_lm_head a) (ka_post_init a) f;
  ret (HeadModel m).
Definition classifier_init (f : model_family) (a : constructor_args) : prog DistributedConfig instance :=
  m ← classification_init (ka_super_init a) (ka_remote_sequential a) (ka_tuning_mode a) (ka_pre_seq_len a) (ka_post_init a) f
        (ka_hidden_size a) (ka_num_labels a);
  ret (HeadModel m).

Record model_class := mkModelClass {
  kc_name : string;
  kc_family : model_family;       (* config_class *)
  kc_kind : model_kind;
  kc_mixins : list mixin;
  kc_native : string;             (* the class of transformers *)
  kc_init : constructor_args -> prog DistributedConfig instance;
}.

Definition DistributedBloomModel : model_class :=
  mkModelClass "DistributedBloomModel" Bloom Base [FromPretrainedMixin; PTuneMixin] "BloomModel" base_init.
Definition DistributedBloomForCausalLM : model_class :=
  mkModelClass "DistributedBloomForCausalLM" Bloom CausalLM [FromPretrainedMixin; RemoteGenerationMixin] "BloomForCausalLM" (causal_init Bloom).
Definition DistributedBloomForSequenceClassification : model_class :=
  mkModelClass "DistributedBloomForSequenceClassification" Bloom SequenceClassification [FromPretrainedMixin] "BloomForSequenceClassification" (classifier_init Bloom).

Definition DistributedFalconModel : model_class :=
  mkModelClass "DistributedFalconModel" Falcon Base [DefaultRevisionMixin; FromPretrainedMixin; PTuneMixin] "FalconModel" base_init.
Definition DistributedFalconForCausalLM : model_class :=
  mkModelClass "DistributedFalconForCausalLM" Falcon CausalLM [DefaultRevisionMixin; FromPretrainedMixin; RemoteGenerationMixin] "FalconForCausalLM" (causal_init Falcon).
Definition DistributedFalconForSequenceClassification : model_class :=
  mkModelClass "DistributedFalconForSequenceClassification" Falcon SequenceClassification [DefaultRevisionMixin; FromPretrainedMixin]
    "FalconForSequenceClassification" (classifier_init Falcon).

Definition DistributedLlamaModel : model_class :=
  mkModelClass "DistributedLlamaModel" Llama Base [FromPretrainedMixin; PTuneMixin] "LlamaModel" base_init.
Definition DistributedLlamaForCausalLM : model_class :=
  mkModelClass "DistributedLlamaForCausalLM" Llama CausalLM [FromPretrainedMixin; RemoteGenerationMixin] "LlamaForCausalLM" (causal_init Llama).
Definition DistributedLlamaForSequenceClassification : model_class :=
  mkModelClass "DistributedLlamaForSequenceClassification" Llama SequenceClassification [FromPretrainedMixin] "LlamaForSequenceClassification" (classifier_init Llama).

Definition DistributedMixtralModel : model_class :=
  mkModelClass "DistributedMixtralModel" Mixtral Base [DefaultRevisionMixin; FromPretrainedMixin; PTuneMixin] "MixtralModel" base_init.
Definition DistributedMixtralForCausalLM : model_class :=
  mkModelClass "DistributedMixtralForCausalLM" Mixtral CausalLM [FromPretrainedMixin; RemoteGenerationMixin] "MixtralForCausalLM" (causal_init Mixtral).
Definition DistributedMixtralForSequenceClassification : model_class :=
  mkModelClass "DistributedMixtralForSequenceClassification" Mixtral SequenceClassification [FromPretrainedMixin] "MixtralForSequenceClassification" (classifier_init Mixtral).

Definition all_classes : list model_class :=
  [DistributedBloomModel; DistributedBloomForCausalLM; DistributedBloomForSequenceClassification;
   DistributedFalconModel; DistributedFalconForCausalLM; DistributedFalconForSequenceClassification;
   DistributedLlamaModel; DistributedLlamaForCausalLM; DistributedLlamaForSequenceClassification;
   DistributedMixtralModel; DistributedMixtralForCausalLM; DistributedMixtralForSequenceClassification].

(** [get_output_embeddings] of the causal models *)
Definition get_output_embeddings (c : model_class) : option head :=
  match kc_kind c with CausalLM => Some LMHead_ | _ => None end.

(** ** from_pretrained *)

Section from_pretrained.
(** [PreTrainedModel.from_pretrained] of [transformers]: it reads the checkpoint of the revision with the given [low_cpu_mem_usage],
    and finds in the context variable which parameters are left out. *)
Context {A : Type} (load : model_class -> option string -> option string -> option auth_token -> option bool -> prog (option (list string)) A).

Fixpoint resolve (c : model_class) (mixins : list mixin) (name revision : option string) (use_auth_token : option auth_token)
    (low_cpu_mem_usage : option bool) : prog (option (list string)) A :=
  match mixins with
  | [] => load c name revision use_auth_token low_cpu_mem_usage
  | DefaultRevisionMixin :: rest => resolve c rest name (default_revision name revision) use_auth_token low_cpu_mem_usage
  | FromPretrainedMixin :: rest =>
      mixin_from_pretrained (keys_to_ignore (kc_family c)) (fun low => resolve c rest name revision use_auth_token (Some low)) low_cpu_mem_usage
  | PTuneMixin :: rest | RemoteGenerationMixin :: rest => resolve c rest name revision use_auth_token low_cpu_mem_usage
  end.

Definition from_pretrained (c : model_class) : option string -> option string -> option auth_token -> option bool -> prog (option (list string)) A :=
  resolve c (kc_mixins c).

(** The class of a call that an Auto class makes. *)
Definition find_class (name : string) : option model_class := List.find (fun c => bool_decide (kc_name c = name)) all_classes.

Definition auto_model (is_dir : string -> bool) (load_type : option string -> option string -> option auth_token -> result string)
    (mapping : list (string * _ModelClasses)) (field : mapping_field) (name revision : option string) (token use_auth_token : option auth_token)
    (low_cpu_mem_usage : option bool) : prog (option (list string)) A :=
  call ← lift (auto_from_pretrained is_dir load_type mapping field name revision token use_auth_token);
  match cc_class call with
  | ConfigClass _ => lift (Err AttributeError)
  | ModelClass cls =>
      c ← lift (get_or AttributeError (find_class cls));
      from_pretrained c name (cc_revision call) (cc_use_auth_token call) low_cpu_mem_usage
  end.
End from_pretrained.

(** ** What loading a model comes to *)

Section loading_theorems.
Context {A : Type} (load : model_class -> option string -> option string -> option auth_token -> option bool -> prog (option (list string)) A).

(** The revision that a class loads. *)
Definition class_revision (c : model_class) (name revision : option string) : option string :=
  if bool_decide (DefaultRevisionMixin ∈ kc_mixins c) then default_revision name revision else revision.

Lemma default_revision_idem name revision : default_revision name (default_revision name revision) = default_revision name revision.
Proof. unfold default_revision. destruct revision, name as [n|]; try done. by destruct (dget DEFAULT_REVISIONS n). Qed.

(** Every class loads with the patterns of its family, its revision and [low_cpu_mem_usage] unless told otherwise. *)
Lemma class_loads c name revision token low : c ∈ all_classes ->
  from_pretrained load c name revision token low =
  ignore_keys (keys_to_ignore (kc_family c)) (load c name (class_revision c name revision) token (Some (or_default low true))).
Proof.
  intros Hc. unfold all_classes in Hc. rewrite !elem_of_cons in Hc. destruct_or! Hc; subst; try reflexivity. by apply elem_of_nil in Hc.
Qed.

Lemma class_named c : c ∈ all_classes -> find_class (kc_name c) = Some c.
Proof.
  intros Hc. unfold all_classes in Hc. rewrite !elem_of_cons in Hc. destruct_or! Hc; subst; try reflexivity. by apply elem_of_nil in Hc.
Qed.

(** The name under which a family is registered, and the field of an Auto class for a kind of model. *)
Definition type_name (f : model_family) : string := match f with Bloom => "bloom" | Llama => "llama" | Falcon => "falcon" | Mixtral => "mixtral" end.
Definition field_of (k : model_kind) : mapping_field :=
  match k with Base => FieldModel | CausalLM => FieldCausalLM | SequenceClassification => FieldSequenceClassification end.

Definition auth_of (is_dir : string -> bool) (name : option string) (token use_auth_token : option auth_token) : option auth_token :=
  match token, use_auth_token with
  | None, None => if always_needs_auth is_dir name then Some (TokenBool true) else None
  | _, _ => use_auth_token
  end.

Lemma registered_class mapping c : register_all [] = Some (mapping, Ok ()) -> c ∈ all_classes ->
  exists classes, dget mapping (type_name (kc_family c)) = Some classes /\ class_of (field_of (kc_kind c)) classes = Some (ModelClass (kc_name c)).
Proof.
  intros [= <-] Hc. unfold all_classes in Hc. rewrite !elem_of_cons in Hc.
  destruct_or! Hc; subst; try (eexists; split; reflexivity). by apply elem_of_nil in Hc.
Qed.

(** An Auto class finds the class of the model's type and loads it with the default revision, whether or not the class
    itself looks for one. *)
Theorem auto_model_loads is_dir load_type mapping c name revision token use_auth_token low :
  register_all [] = Some (mapping, Ok ()) -> c ∈ all_classes ->
  load_type name (default_revision name revision) (auth_of is_dir name token use_auth_token) = Ok (type_name (kc_family c)) ->
  forall w, auto_model load is_dir load_type mapping (field_of (kc_kind c)) name revision token use_auth_token low w =
    ignore_keys (keys_to_ignore (kc_family c))
      (load c name (default_revision name revision) (auth_of is_dir name token use_auth_token) (Some (or_default low true))) w.
Proof.
  intros Hm Hc Ht w. destruct (registered_class mapping c Hm Hc) as (classes & Hd & Hf).
  unfold auto_model, auto_from_pretrained. fold (auth_of is_dir name token use_auth_token). rewrite Ht. cbn -[find_class from_pretrained]. rewrite Hd.
  cbn -[find_class from_pretrained]. rewrite Hf. cbn [get_or mbind result_bind]. rewrite (bind_lift _ _ _ _ eq_refl). cbn [cc_class cc_revision cc_use_auth_token].
  rewrite (class_named c Hc). cbn [get_or]. rewrite (bind_lift _ _ _ _ eq_refl). rewrite (class_loads _ _ _ _ _ Hc). unfold class_revision.
  case_bool_decide; by rewrite ?default_revision_idem.
Qed.

(** A model that is loaded leaves the patterns of the surrounding call as they were. *)
Lemma class_restores c name revision token low w : c ∈ all_classes ->
  triple (fun w' => w' = w) (from_pretrained load c name revision token low) (fun w' _ => w' = w).
Proof. intros Hc. rewrite (class_loads _ _ _ _ _ Hc). apply ignore_keys_restores. Qed.
End loading_theorems.

(** Of the classes, those of Falcon and the plain Mixtral model look for a default revision themselves. *)
Lemma pinned_classes : kc_name <$> List.filter (fun c => bool_decide (DefaultRevisionMixin ∈ kc_mixins c)) all_classes =
  ["DistributedFalconModel"; "DistributedFalconForCausalLM"; "DistributedFalconForSequenceClassification"; "DistributedMixtralModel"].
Proof. reflexivity. Qed.

(** A model that is constructed leaves the configuration as it was. *)
Lemma construct_keeps_config c a w w' i : c ∈ all_classes -> kc_init c a w = Some (w', Ok i) -> w' = w.
Proof.
  intros Hc H. assert (Hi : kc_init c = base_init \/ kc_init c = causal_init (kc_family c) \/ kc_init c = classifier_init (kc_family c)).
  { unfold all_classes in Hc. rewrite !elem_of_cons in Hc. destruct_or! Hc; subst; try (by auto). by apply elem_of_nil in Hc. }
  destruct Hi as [-> | [-> | ->]] in H; apply bind_returns in H as (w1 & r & H1 & H); injection H as <- _.
  - pose proof (model_init_layers _ _ _ _ _ _ _ H1) as Hw. destruct (ka_super_init a (set_layers 0 w)) as [[| |]|]; [done|by destruct Hw..].
  - by eapply causal_lm_keeps_config.
  - by eapply classification_keeps_config.
Qed.
